(* ===== verification/_CoqProject ===== *)
-Q . S2P
Prelude.v
Errors.v
GoStrings.v
Regexp.v
Names.v
AuthModel.v
RefServer.v
OpenFGA.v
Dbmodel.v
Users.v
Database.v
RefDb.v
Encoding.v
Pagination.v
TagResolver.v
Access.v
Relations.v
Managers.v
JujuDb.v
CloudDb.v
JujuBase.v
JujuModels.v
ControllerDb.v
JujuOffers.v
JujuClouds.v
JujuCredentials.v
ModelBuilder.v
JujuControllers.v
JujuMigration.v
Upgrade.v
SSHKeys.v
Profiles.v
AuditLog.v
Jwx.v
JujuAuth.v
AuthService.v
Login.v
Offer.v
Middleware.v
RpcProxy.v
RpcClient.v
RpcDial.v
Versions.v
Jobs.v
JobLog.v
JujuCommands.v
CliStore.v
Bootstrap.v
BootstrapApi.v
PubSub.v
Watchers.v
Root.v
Facade.v
CloudApi.v
Rebac.v
Witnesses.v
AuthWitnesses.v
JujuWitnesses.v
StoreWitnesses.v
RpcWitnesses.v
UpgradeWitnesses.v
FacadeWitnesses.v
BootstrapWitnesses.v
ApiWitnesses.v
