(* ===== verification/Prelude.v ===== *)
(** * JIMM: a verification of its authorisation, management and connection core

    JIMM is a server that manages many Juju controllers.  Users log in with an
    identity provider and reach models, clouds, controllers and application
    offers through it; what they may do is decided by relations ("tuples")
    kept in an OpenFGA service under the authorisation model of
    [openfga/authorisation_model.fga]; groups, roles, identities and the rows
    of the resources are kept in a database.  Connections to models and
    controllers are proxied, with a signed token per login that says what the
    user may do there.  Commands on models, clouds, credentials, offers and
    controllers run in the Juju manager, which checks the relations, contacts
    controllers and keeps the rows and the relations in step.  This library
    models the part of the program that logs users in, issues and reads
    tokens, reads and writes the relations, manages these resources and
    proxies connections, and proves that it protects them.

    ** The program's parts and the files that model them

    - [Prelude] (this file): Go errors, outcomes and the state monad [M] in
      which the code is written, its weakest preconditions [wp], and the
      tactics and hints shared by all files.  An operation of type [M W A]
      takes the world and returns the new world with an [outcome]: a value, an
      error, a panic, or [OutOfFuel].
    - [Errors]: [internal/errors/errors.go] and the [fmt] verbs it uses;
      [GoStrings]: the functions of Go's [strings] that are used; [Regexp]: a
      matcher for the regular expressions of the source.

    The authorisation layer:

    - [Names]: the tags of [pkg/names], and the relations, entities and
      conversions of [internal/openfga/names].
    - [AuthModel]: the authorisation model as a table, [holds] (who has which
      relation to what, by induction on the ways the model derives it), the
      interface [OFGAServer] of the OpenFGA client library and its laws
      [OFGALaws].  [RefServer] is an executable instance of both.
    - [OpenFGA]: [internal/openfga/openfga.go], every method of [OFGAClient].
    - [Users]: [internal/openfga/user.go], access checks and direct grants.
    - [TagResolver], [Access] (module [Perm]), [Relations] (module [Rel]):
      the permission manager, [internal/jimm/permissions].
    - [Managers], modules [GroupManager], [RoleManager], [IdentityManager]:
      [internal/jimm/group], [role] and [identity].
    - [Offer]: [internal/jimm/offer] and [internal/jimm/idpgroupfetcher].
    - [Rebac]: [internal/jimmhttp/rebac_admin], the administration API.
    - [Encoding], [Pagination]: base64 and JSON as far as tokens need them;
      [internal/common/pagination], and [getNextPageAndResources] of
      [internal/jimmhttp/rebac_admin/resources.go].

    The database:

    - [Dbmodel]: the records of [internal/dbmodel] that are used, with the
      sanitisation of identities.
    - [Database]: [internal/db] for groups, roles, identities, user mappings
      and the lookups of controllers, models, offers and clouds, over the
      interface [Gorm] with the laws [GormLaws]; the record [World] pairs the
      service and the database.  [RefDb] is an executable instance of the
      tables.
    - [JujuDb]: models and offers with their preloaded associations; [CloudDb]:
      controllers, clouds, regions, priorities, credentials, defaults,
      bootstraps and incoming migrations; [ControllerDb]: lemmas on these
      tables that the transactions on controllers share.

    The Juju manager, [internal/jimm/juju], over the interface [Controllers] of
    Juju's API, the credential store, the clock and the randomness; its world
    [JW] adds the state of the controllers to [World]:

    - [JujuBase]: the manager, its dialling and the relations [same] and
      [still] between worlds.
    - [JujuModels] (module [Models]): [model.go] and [model_poller.go].
    - [JujuOffers] (module [Offers]): [applicationoffer.go].
    - [JujuClouds] (module [Clouds]): [cloud.go], [clouddefaults.go].
    - [JujuCredentials] (module [Credentials]): [cloudcredential.go].
    - [ModelBuilder] (module [Builder]): [modelbuilder.go] and [AddModel].
    - [JujuControllers] (module [Ctl]): [controller.go] and [jimm.go].
    - [JujuMigration] (module [Migration]): [migrationtarget.go], models that
      migrate into JIMM, and [internal/description/description.go].

    Managers over a table of their own:

    - [SSHKeys]: [internal/jimm/sshkeys] and [internal/db/sshkeys.go].
    - [Profiles]: [internal/jimm/controllerprofile] and
      [internal/db/controllerprofile.go].
    - [AuditLog]: [internal/jimm/auditlog] and [internal/db/audit.go].

    Logins, tokens and connections:

    - [Jwx]: [internal/jimmjwx], the signing keys and the tokens.
    - [JujuAuth]: [internal/jimm/jujuauth], the tokens for Juju controllers.
    - [AuthService] (module [Auth]): [internal/auth/auth.go], sessions and the
      identity provider.
    - [Login]: [internal/jimm/login].  [Middleware]: [internal/middleware].
    - [RpcProxy] (module [Proxy]): [internal/rpcproxy], the two loops of a
      connection as steps on a shared state with the messages in a heap.
    - [RpcClient] (module [Client]), [RpcDial] (modules [Dial], [Transport]):
      [internal/rpc], the calls, the receiver and the peer of an RPC client as
      steps on a shared state; dialling all addresses at once, and HTTP
      requests over several backends.
    - [PubSub]: [internal/pubsub].

    Versions, jobs and upgrades:

    - [Versions]: [internal/jimm/juju/supportedversions.go] and the reader of
      releases.
    - [Jobs]: [internal/jimm/jobs/jobs.go].  [Upgrade]:
      [internal/jimm/upgrade].  [JobLog] (module [JobLogs]): the table of the
      lines that jobs write, [internal/db/job_logs.go].
    - [JujuCommands] (module [Commands]): [internal/jujucommands], the command
      lines and runs of Juju's client.  [CliStore]: [internal/jujuclistore],
      the cache of downloaded clients, whose entries are shared and counted.
    - [Bootstrap]: [internal/jimm/bootstrap] and the workers of
      [internal/river] that bootstrap and destroy controllers; its world
      [BWorld] adds the logs, the cache and a lock to [JW].

    The API that clients call, [internal/jujuapi]:

    - [Root]: the root of a connection: its table of methods, the contexts of
      its calls, the logins and the registration of every facade
      ([rpc/root.go], [controllerroot.go], [admin.go], the [facadeInit]
      functions).  The calls of a connection interleave in steps.
    - [Watchers] (module [Watch]): [modelsummarywatcher.go], the watchers over
      the hub of [PubSub].
    - [Facade]: the methods themselves ([jimm.go], [accesscontrol.go],
      [role.go], [controllerprofile.go], [migrationtarget.go],
      [modelmanager.go], [modelupgrader.go], [usermanager.go], parts of
      [controller.go]), which decode, call the managers and encode.
      [CloudApi]: those of clouds, credentials and application offers
      ([cloud.go], [applicationoffers.go]).  [BootstrapApi]: those of
      bootstraps ([jimm.go]).

    - [Witnesses], [AuthWitnesses], [JujuWitnesses], [StoreWitnesses],
      [RpcWitnesses], [UpgradeWitnesses], [FacadeWitnesses],
      [BootstrapWitnesses], [ApiWitnesses]: one small deployment on
      [RefServer] and [RefDb], with a token library, an identity provider and
      controllers, at which the properties are applied to evaluated runs.

    Definitions keep the names of the source; [db_] marks the functions of
    [internal/db] whose name is also that of a manager's or of an OpenFGA
    operation.  Loggers, counters and contexts have no effect on the modelled
    state and are left out.

    ** What the theorems show

    - Confinement: [Rel.relation_updates_confined],
      [Rel.relation_updates_authorised] and [Rel.structure_admin_only] say
      what a user that is not a JIMM administrator can change through the
      relation API, first in terms of tuples and then in terms of [holds]: no
      one's relations change on a resource this user does not administer.
      [Rebac.patches_exact] carries this over to the administration API.
    - Grants and revocations: [Perm.grant_post] and [Perm.revoke_post] are
      abstract specifications of granting and revoking an access level; the
      operations on models and clouds refine them, and those on offers and on
      the audit log have theirs.
    - Checks: what the access functions, the batched checks, the permission
      cache and the relation checks report is what [holds] says, counting the
      ephemeral groups of the right session, and these groups stay invisible
      to everyone else.
    - Removals: which tuples removing a model, a group or a role deletes,
      and what is left by a failure; the cleanup removes orphans only.
    - The database: keys, names and UUIDs stay unique along every sequence of
      operations, get-or-create is idempotent, renaming is atomic.
    - Commands of the Juju manager: without the relation that a command needs
      nothing changes and no controller is contacted
      ([Models.model_commands_guarded], [Offers.offer_commands_guarded],
      [Clouds.cloud_commands_guarded]); what is shown is confined to what the
      user may see ([Models.ModelInfo_confined],
      [Offers.found_offers_confined],
      [Credentials.GetCloudCredentialAttributes_confined]); and the effect of
      each command on the rows and the tuples is stated for every outcome,
      failures of the database, the service and the controllers included
      ([Models.DestroyModel_effect], [Offers.Offer_effect],
      [Offers.DestroyOffer_effect], [Clouds.RemoveCloud_effect],
      [Credentials.UpdateCloudCredential_effect], [Builder.AddModel_placed],
      [Ctl.AddController_effect], [Ctl.RemoveController_effect],
      [Ctl.initiateMigration_effect]).
    - Migrations into JIMM: a mapping of users is accepted when it is complete
      ([Migration.validateUserMapping_complete]), a rewritten description
      names external users only ([Migration.modifyModelDescription_external]),
      and import, activation and the cleanup of stale migrations change
      exactly the rows and tuples that are stated for every outcome
      ([Migration.Import_effect], [Migration.Activate_effect],
      [Migration.CleanupPartialModelMigrations_effect]).
    - Tables with a manager: saved profiles never overwrite a newer version
      ([Profiles.SaveControllerProfile_no_lost_update]), the parameters of
      sensitive calls are never stored ([AuditLog.AddAuditLogEntry_redacted]),
      audit events are shown to their viewers and purged by administrators
      only ([AuditLog.FindAuditEvents_confined], [AuditLog.PurgeLogs_exact]),
      the daily cleanup waits for the next time of the day
      ([AuditLog.calculateNextPollDuration_next]), and a public key is
      accepted for a user that has added it
      ([SSHKeys.VerifyPublicKey_sound]).
    - Logins: every way to log in returns a user only for a credential that
      the identity provider or the session store vouches for
      ([Login.login_sound], [Login.device_login],
      [Auth.AuthenticateBrowserSession_sound]), session tokens read back, and
      the HTTP endpoints run their handlers only for such users
      ([Middleware.model_endpoint_guarded],
      [Middleware.AuthenticateRebac_guarded]).
    - Tokens: the key service always publishes the key it signs with, tokens
      verify, and the claims of the tokens for controllers are true of their
      user ([generator_tokens_truthful], [NewCallerLoginToken_claims]).
    - Connections: along every interleaving of the two loops of a proxy the
      logins that reach a controller are legitimate, the client never learns
      the addresses of the controller, and every request is served
      ([Proxy.logins_are_legitimate], [Proxy.servers_never_reach_client],
      [Proxy.client_request_served], [Proxy.controller_response_served]).
    - The API: a method of a facade is offered only after a login on the same
      connection has verified a credential, whatever the order in which the
      calls run ([Root.methods_need_login]); the end of a connection cancels
      exactly the calls that run ([Root.Kill_cancels_running]); the facades
      that a login returns are the generated table
      ([Root.setupFacades_table]).  The methods of administrators refuse
      everyone else before they touch anything
      ([Facade.admin_calls_guarded]), only administrators act for others
      ([Facade.masquerade_by_admin]), clients see one controller while the
      masking is on ([Facade.controller_masked]), missing models look like
      hidden ones ([Facade.models_hidden]), at most 1000 audit events are
      returned ([Facade.audit_events_bounded]), clouds are listed to those who
      may use them ([CloudApi.clouds_shown]), credentials are shown to those
      who may see them and secrets to their owner only
      ([CloudApi.credentials_disclosed]), no failure to store a credential is
      hidden ([CloudApi.AddCredentials_reports]), and a watcher hands out
      summaries of models that its user could see when the list was read
      ([Watch.summaries_seen]).
    - The RPC client: the table of requests holds exactly the unfinished
      calls, an answer goes to the call whose request it answers, and no call
      is stuck when the connection is over ([Client.table_exact],
      [Client.answers_matched], [Client.calls_return]); of the connections
      dialled at once one is kept and the others are closed
      ([Dial.dialAll_keeps_one]); a request tries the backends in turn
      ([Transport.RoundTrip_in_turn]).
    - Versions, jobs and upgrades: supported versions are stable releases,
      newest first ([Versions.SupportedVersions_sound]); the two ways to learn the
      state of an upgrade agree ([Jobs.upgrade_status_agrees]); an upgrade or
      a migration reports success only when it has happened
      ([Upgrade.UpgradeModel_effect], [Upgrade.MigrateModel_arrives]).
    - Bootstraps: a bootstrap reserves a free name for its job
      ([Bootstrap.StartBootstrapJob_effect]); the job adds exactly the one
      controller or fails without a trace, and gives the reservation back
      unless the database refuses ([Bootstrap.BootstrapController_effect]); a
      controller that was started and cannot be added is destroyed, or the
      error says that it was not ([Bootstrap.no_silent_orphans]); destroying
      removes one controller with what belongs to it
      ([Bootstrap.DestroyController_effect]), of clients only a controller
      without models ([BootstrapApi.StartDestroyController_empty]); waiting
      for a job ends ([Bootstrap.WaitForJobCompletion_ends]).  The settings of
      a bootstrap reach the command line ([Commands.settings_passed]), the
      cache of clients is bounded and keeps the clients in use
      ([CliStore.in_use_kept]), and a client that polls the log of a job reads
      each line once and in order ([JobLogs.poll_complete]).
    - Round trips and pages: tags, readable tags and entitlement tokens parse
      back to what was printed; pages tile the listing.
    - Behaviour that looks unintended is proved too: the grants of a removed
      group on clouds survive ([RemoveGroup_keeps_cloud_grants]), wildcard
      tuples survive removals ([removeTuples_keeps_public]), a revocation
      masks a failing service ([RevokeModelAccess_masks_failure]), a failed
      group removal cannot be repeated ([RemoveGroup_not_repeatable]), page
      sizes over the maximum skip rows ([CreatePagination_oversized_skips],
      [resource_pages_end_early]), three inputs make the server panic
      ([group_uuid_panics], [CheckRelation_everyone_panics],
      [Proxy.null_message_panics]), an anonymous login is renewed
      ([Proxy.anonymous_login_renewed]), a cached permission hides a higher
      level asked for ([MakeToken_ignores_cached_level]), the administrator
      flag of a login does not count groups
      ([Login.login_flag_ignores_groups]), and access to an offer is not
      denied when the groups cannot be fetched
      ([Offer.fetch_failure_keeps_access]), removing a cloud from one
      controller takes it from all ([Clouds.RemoveCloudFromController_effect])
      and adding a controller loses the code of a failed dial
      ([Ctl.AddController_loses_code]), removing SSH keys by comment reaches
      the keys of every user ([SSHKeys.key_removals_exact]) and a migrated
      credential whose owner is skipped makes the server panic
      ([Migration.skipped_credential_owner_panics]), a second answer stops the
      receiver of the RPC client ([Client.second_answer_panics]), the models
      of a watcher are never read again ([Watch.access_never_refreshed]), the
      masking of controllers stays off for the next user of a connection
      ([Root.masking_stays_off]), a bootstrap that is stopped before it begins
      keeps its name reserved ([Bootstrap.stopped_job_blocks_name]), so does
      one that begins before its number is stored
      ([Bootstrap.early_job_keeps_reservation]), and a failed start of a
      bootstrap loses its code ([BootstrapApi.StartBootstrap_loses_code]).

    ** Code that is not in the repository

    Libraries and services are classes: their operations are arguments of the
    definitions, and the laws say what their documentation promises.  They are
    the OpenFGA client library ([OFGAServer]), gorm ([Gorm], [ResourceQuery]),
    Juju's tag and API libraries ([JujuNames], [JujuVersion], [JujuApi]),
    SHA-256 ([Hash]), [uuid.NewString] ([UUIDs]), [uuid.Parse] ([UUIDParse]),
    the fetcher of identity-provider groups ([GroupFetcher], [HookClient]),
    the JOSE and PEM libraries with the file system and the clock ([Jose],
    [Runtime]), the identity provider and the session store ([Outside],
    [SessionLaws]), Juju's controllers, the credential store, the clock and
    the randomness ([Controllers]), the library of model descriptions
    ([Descriptions], [DescriptionLaws]), the SSH libraries ([SSHLib],
    [SSHLaws]), the sockets, dialler and services of a proxied connection
    ([ProxyEnv]), the HTTP backends of a controller ([Backends]), versions and
    their texts ([VersionText], [VersionLaws]), the releases of Juju
    ([Releases], [ReleasesLaws]), the job library ([JobQuerier], [JobLaws],
    [Enqueuer], [Queue]), the locking of a table ([TableLock]), the processes,
    files, downloads and packages of Juju's client ([System]), the retry library ([Retry], [RetryLaws]), what a controller
    reports of an upgrade ([UpgradeInfo]), times and versions as texts of
    requests ([Texts]), the errors and offer URLs of Juju ([JujuErrors],
    [OfferURLs]) and the handler library of the administration API
    ([RebacLib]).  A call may fail at any time; the laws of the OpenFGA
    service only say that a failed write has written nothing and that an
    answer is right.  [AccessChecker] and [Minter] are interfaces between
    modelled components: the token generators are proved against them and the
    permission manager and the token service implement them.

    ** Bounds and fuel

    Loops over lists are structural.  These loops take fuel: [removeTuples] and
    the operations that call it need one unit more than there are tuples in
    the store (each round but the last removes one, given fewer than a page
    of 50 wildcard tuples; with 50 of them the loop of the source does not
    end), [existingRelations] one more than there are tuples (each page but
    the last is not empty), [getObjectRelationsPage_loop] eight rounds (seven
    resource kinds), and [OpenFGACleanup_loop] any number: its theorem holds
    of whatever part of the scan was run.  The reading of releases takes one
    unit for each page, and the wait for a migration any number, since its
    theorem is about its success.  The wait for a job takes one unit more than
    there are ticks before its context ends, which [Queue] counts, and its
    theorem includes that this is enough.  The theorems about the first three
    include that the fuel is enough; the handlers of [Rebac] pass their fuel
    on.  [int] values are kept at 64 bits in the pagination arithmetic.

    ** Not modelled

    Of [internal/jimm/juju] the watcher of controllers and the status parser;
    of the API the methods of cross-model queries, the configuration of
    controllers and the methods that add the state of jobs; the worker of
    upgrades and the configuration of the job library, the progress lines of a
    download, vault, the SSH server, the command line and the tables of
    secrets and root keys; the closing of sockets and, but for the calls of [Root] and the watchers, the
    cancellation of contexts.
    Row locks are free, since operations run one after the other, and the
    calls that a manager makes to several controllers at once are made in the
    order of a list.
    Requests do not run concurrently with each other (an operation runs from
    one world to the next), except where the theorems say so: the token
    generators allow any change of the service between their operations, and
    the two loops of a proxied connection, the calls of an API connection, the
    calls of the RPC client and the watchers interleave. *)

From Stdlib Require Import Ascii.
From stdpp Require Export base tactics list gmap strings pretty fin_maps sets.

#[global] Open Scope string_scope.
#[global] Open Scope list_scope.
#[global] Arguments String.append !_ _ / : simpl nomatch.
#[global] Set Default Goal Selector "!".

(** The lemmas that automate the common cases of the components. *)
Create HintDb jimm.

(** ** Go errors

    A Go [error] value is one of the shapes the code builds or receives:
    an [errors.New] text, a package level sentinel (compared by identity), an
    error of a library carrying the results of its optional [ErrorCode] and
    [SQLState] methods, an [fmt.Errorf] with a [%w] verb, or a [*errors.Error]
    of JIMM.  [goany] is the dynamic type [any] of the values JIMM inspects. *)

Inductive goany :=
| AnyString (s : string)
| AnyInt (n : Z)
| AnyBool (b : bool)
| AnyOther (type_name : string).

#[warnings="-register-all"]
Inductive gerror :=
| ErrString (msg : string)
| ErrSentinel (msg : string)
| ErrForeign (code sqlstate msg : string)
| WrapError (msg : string) (err : gerror)
| JimmError (Code Message : string) (Info : option (list (string * goany))) (Err : option gerror).

(** ** Outcomes and the state monad

    A Go call ends with a value, with an error, or with a panic.  [OutOfFuel]
    is the outcome of a bounded unrolling of a Go loop that has not finished;
    theorems about loops show that it is not reached. *)

Inductive outcome (A : Type) : Type :=
| Ok (a : A)
| Err (e : gerror)
| Panic (msg : string)
| OutOfFuel.
Arguments Ok {A} a.
Arguments Err {A} e.
Arguments Panic {A} msg.
Arguments OutOfFuel {A}.

#[export] Instance Ok_inj {A} : Inj (=) (=) (@Ok A).
Proof. intros a b Hab. by simplify_eq. Qed.

(** [M W A] is a Go function that reads and updates the state [W]: an error
    does not undo the updates made before it. *)
Definition M (W A : Type) : Type := W -> W * outcome A.

Definition omap_fail {A B} (o : outcome A) (k : A -> outcome B) : outcome B :=
  match o with
  | Ok a => k a
  | Err e => Err e
  | Panic s => Panic s
  | OutOfFuel => OutOfFuel
  end.

#[export] Instance outcome_ret : MRet outcome := fun _ a => Ok a.
#[export] Instance outcome_bind : MBind outcome := fun _ _ k o => omap_fail o k.

#[export] Instance M_ret {W} : MRet (M W) := fun _ a w => (w, Ok a).
#[export] Instance M_bind {W} : MBind (M W) := fun A B k m w =>
  match m w with
  | (w', Ok a) => k a w'
  | (w', Err e) => (w', Err e)
  | (w', Panic s) => (w', Panic s)
  | (w', OutOfFuel) => (w', OutOfFuel)
  end.

(** [return err], [panic(msg)] and calls of pure functions. *)
Definition throw {W A} (e : gerror) : M W A := fun w => (w, Err e).
Definition panic {W A} (s : string) : M W A := fun w => (w, Panic s).
Definition diverge {W A} : M W A := fun w => (w, OutOfFuel).
Definition lift {W A} (o : outcome A) : M W A := fun w => (w, o).

(** [v, err := m()] followed by code that looks at [err] itself. *)
Definition try {W A} (m : M W A) : M W (A + gerror) := fun w =>
  match m w with
  | (w', Ok a) => (w', Ok (inl a))
  | (w', Err e) => (w', Ok (inr e))
  | (w', Panic s) => (w', Panic s)
  | (w', OutOfFuel) => (w', OutOfFuel)
  end.

(** [if err := m(); err != nil { return f(err) }]. *)
Definition map_err {W A} (f : gerror -> gerror) (m : M W A) : M W A := fun w =>
  match m w with
  | (w', Err e) => (w', Err (f e))
  | r => r
  end.

(** Running a component of the state. *)
Definition zoom {W S A} (get : W -> S) (put : S -> W -> W) (m : M S A) : M W A := fun w =>
  let '(s', o) := m (get w) in (put s' w, o).

(** Go's [for _, x := range xs { body }] over a monadic body. *)
Fixpoint for_range {W A} (xs : list A) (body : A -> M W unit) : M W unit :=
  match xs with
  | [] => mret tt
  | x :: xs => body x ≫= fun _ => for_range xs body
  end.

Fixpoint map_range {W A B} (xs : list A) (body : A -> M W B) : M W (list B) :=
  match xs with
  | [] => mret []
  | x :: xs => y ← body x; ys ← map_range xs body; mret (y :: ys)
  end.

(** [for i := 0; i < len(xs); i += n { xs[i:min(i+n, len(xs))] }]: the batches
    of a slice.  The fuel is the length: every batch of a positive size takes
    at least one element. *)
Fixpoint batches_go {A} (fuel n : nat) (xs : list A) : list (list A) :=
  match fuel, xs with
  | 0%nat, _ | _, [] => []
  | S fuel, _ => take n xs :: batches_go fuel n (drop n xs)
  end.
Definition batches {A} (n : nat) (xs : list A) : list (list A) := batches_go (length xs) n xs.

(** Go's [int] has 64 bits; arithmetic wraps around. *)
Definition int64 (z : Z) : Z := ((z + 2 ^ 63) mod 2 ^ 64 - 2 ^ 63)%Z.

(** [strings.Contains]. *)
Definition Contains (s sub : string) : bool :=
  match String.index 0 sub s with Some _ => true | None => false end.

(** ** Weakest preconditions

    [wp m Q w] says that running [m] from [w] ends in an outcome and a state
    that satisfy [Q]. *)

Definition wp {W A} (m : M W A) (Q : outcome A -> W -> Prop) (w : W) : Prop :=
  let '(w', o) := m w in Q o w'.

(** What a bind does with the outcome of its first computation. *)
Definition bind_post {W A B} (k : A -> M W B) (Q : outcome B -> W -> Prop)
  : outcome A -> W -> Prop := fun o w =>
  match o with
  | Ok a => wp (k a) Q w
  | Err e => Q (Err e) w
  | Panic s => Q (Panic s) w
  | OutOfFuel => Q OutOfFuel w
  end.

Section wp.
Context {W : Type}.

Lemma wp_run {A} (m : M W A) Q w :
  wp m Q w <-> forall w' o, m w = (w', o) -> Q o w'.
Proof.
  unfold wp. destruct (m w) as [w1 o1]. split; [|eauto].
  intros H w' o Heq. by simplify_eq.
Qed.

Lemma wp_elim {A} (m : M W A) Q w w' o : wp m Q w -> m w = (w', o) -> Q o w'.
Proof. intros Hwp. by apply wp_run. Qed.

Lemma wp_bind {A B} (m : M W A) (k : A -> M W B) Q w :
  wp m (bind_post k Q) w -> wp (m ≫= k) Q w.
Proof. unfold wp, mbind, M_bind, bind_post. by destruct (m w) as [w' []]. Qed.

Lemma wp_mono {A} (m : M W A) (P Q : outcome A -> W -> Prop) w :
  wp m P w -> (forall o w', P o w' -> Q o w') -> wp m Q w.
Proof. unfold wp. destruct (m w). auto. Qed.

Lemma wp_and {A} (m : M W A) (P Q : outcome A -> W -> Prop) w :
  wp m P w -> wp m Q w -> wp m (fun o w' => P o w' /\ Q o w') w.
Proof. unfold wp. destruct (m w). auto. Qed.

Lemma wp_any {A} (m : M W A) (Q : outcome A -> W -> Prop) w : (forall o w', Q o w') -> wp m Q w.
Proof. intros HQ. unfold wp. by destruct (m w). Qed.

Lemma wp_ret {A} (a : A) (Q : outcome A -> W -> Prop) w : Q (Ok a) w -> wp (mret a) Q w.
Proof. done. Qed.

Lemma wp_throw {A} e (Q : outcome A -> W -> Prop) w : Q (Err e) w -> wp (throw e) Q w.
Proof. done. Qed.

Lemma wp_lift {A} (o : outcome A) (Q : outcome A -> W -> Prop) w : Q o w -> wp (lift o) Q w.
Proof. done. Qed.

Lemma wp_map_err {A} f (m : M W A) Q w :
  wp m (fun o w' => Q (match o with Err e => Err (f e) | o => o end) w') w ->
  wp (map_err f m) Q w.
Proof. unfold wp, map_err. by destruct (m w) as [w' []]. Qed.

Lemma wp_try {A} (m : M W A) Q w :
  wp m (fun o w' => Q (match o with Ok a => Ok (inl a) | Err e => Ok (inr e)
                       | Panic s => Panic s | OutOfFuel => OutOfFuel end) w') w ->
  wp (try m) Q w.
Proof. unfold wp, try. by destruct (m w) as [w' []]. Qed.

Lemma wp_zoom {S A} (get : W -> S) put (m : M S A) Q w :
  wp m (fun o s => Q o (put s w)) (get w) -> wp (zoom get put m) Q w.
Proof. unfold wp, zoom. by destruct (m (get w)). Qed.

(** A property of the state that the body keeps, whatever its outcome, is
    kept by the loop. *)
Lemma wp_for_range {A} (P : W -> Prop) (xs : list A) body w :
  (forall x w, x ∈ xs -> P w -> wp (body x) (fun _ w' => P w') w) ->
  P w -> wp (for_range xs body) (fun _ w' => P w') w.
Proof.
  revert w. induction xs as [|x xs IH]; intros w Hb Hw; [done|].
  simpl. apply wp_bind. eapply wp_mono; [apply Hb; [set_solver|done]|].
  intros [] w' Hw'; simpl; try done. apply IH; [|done].
  intros; apply Hb; set_solver.
Qed.

End wp.

(** The value or error a computation returns at once. *)
Ltac wp_value := unfold wp, mret, M_ret, throw, panic, lift; cbn beta iota.

Lemma int64_id z : (- 2 ^ 63 <= z < 2 ^ 63)%Z -> int64 z = z.
Proof. intros Hz. unfold int64. rewrite Z.mod_small by lia. lia. Qed.

(** ** Batches *)

Lemma batches_go_join {A} fuel n (xs : list A) :
  (0 < n)%nat -> (length xs <= fuel)%nat -> mjoin (batches_go fuel n xs) = xs.
Proof.
  intros Hn. revert xs. induction fuel as [|fuel IH]; intros xs Hl.
  - destruct xs; simpl in *; [done|lia].
  - destruct xs as [|x xs]; [done|]. cbn [batches_go]. cbn [mjoin list_join].
    rewrite IH by (rewrite length_drop; simpl in *; lia). apply take_drop.
Qed.

(** The batches of a list, in order, are the list. *)
Lemma batches_join {A} n (xs : list A) : (0 < n)%nat -> mjoin (batches n xs) = xs.
Proof. intros. by apply batches_go_join. Qed.

Lemma batches_size {A} n (xs : list A) b : b ∈ batches n xs -> (length b <= n)%nat.
Proof.
  unfold batches. generalize (length xs). intros fuel. revert xs.
  induction fuel as [|fuel IH]; intros xs; simpl; [by rewrite elem_of_nil|].
  destruct xs as [|x xs]; [by rewrite elem_of_nil|].
  intros [->|Hin]%elem_of_cons; [rewrite length_take; lia|by eapply IH].
Qed.
