(* ===== verification/GoStrings.v ===== *)
(** * GoStrings: the functions of Go's [strings] package that JIMM uses.

    Strings are sequences of bytes.  White space is Unicode's: the encodings
    are listed in [space_prefix]; no continuation byte starts one of them, so
    a scan byte by byte finds the same white space as Go's scan of runes. *)

From Stdlib Require Import Ascii.
From S2P Require Import Prelude.

Definition ascii_space (c : ascii) : bool :=
  bool_decide (c ∈ ["009"; "010"; "011"; "012"; "013"; "032"]%char).

(** The rest of the string after a leading white space character
    ([unicode.IsSpace]), if there is one. *)
Definition space_prefix (s : string) : option string :=
  match s with
  | String a s1 =>
      if ascii_space a then Some s1 else
      match s1 with
      | String b s2 =>
          if decide (a = "194"%char /\ (b = "133"%char \/ b = "160"%char)) then Some s2 else
          match s2 with
          | String c s3 =>
              let n := N_of_ascii c in
              if decide ((a = "225" /\ b = "154" /\ c = "128")%char
                 \/ (a = "226" /\ b = "128")%char /\
                    ((128 <= n <= 138)%N \/ n = 168%N \/ n = 169%N \/ n = 175%N)
                 \/ (a = "226" /\ b = "129" /\ c = "159")%char
                 \/ (a = "227" /\ b = "128" /\ c = "128")%char)
              then Some s3 else None
          | EmptyString => None
          end
      | EmptyString => None
      end
  | EmptyString => None
  end.

(** [strings.TrimLeftFunc(s, unicode.IsSpace)]; the fuel is the length. *)
Fixpoint trim_left_go (fuel : nat) (s : string) : string :=
  match fuel with
  | 0%nat => s
  | S fuel => match space_prefix s with Some s' => trim_left_go fuel s' | None => s end
  end.
Definition trim_left (s : string) : string := trim_left_go (String.length s) s.

Fixpoint trim_right (s : string) : string :=
  match s with
  | EmptyString => EmptyString
  | String c s' => if decide (trim_left s = "") then "" else String c (trim_right s')
  end.

Definition TrimSpace (s : string) : string := trim_right (trim_left s).

(** [strings.Fields]: the maximal runs without white space.  [cur] is the run
    being read. *)
Fixpoint fields_go (fuel : nat) (cur s : string) : list string :=
  let flush := if decide (cur = "") then [] else [cur] in
  match fuel with
  | 0%nat => flush
  | S fuel =>
      match s with
      | EmptyString => flush
      | String c s' =>
          match space_prefix s with
          | Some rest => flush ++ fields_go fuel "" rest
          | None => fields_go fuel (cur +:+ String c EmptyString) s'
          end
      end
  end.
Definition Fields (s : string) : list string := fields_go (S (String.length s)) "" s.

(** [strings.ReplaceAll] of one character by another. *)
Fixpoint replace_char (a b : ascii) (s : string) : string :=
  match s with
  | EmptyString => EmptyString
  | String c s => String (if decide (c = a) then b else c) (replace_char a b s)
  end.

Fixpoint HasPrefix (s prefix : string) : bool :=
  match prefix, s with
  | EmptyString, _ => true
  | String a p, String b s => bool_decide (a = b) && HasPrefix s p
  | _, EmptyString => false
  end.

(** [strings.CutPrefix] without its second result, and [strings.TrimPrefix]. *)
Fixpoint drop_chars (n : nat) (s : string) : string :=
  match n, s with
  | S n, String _ s => drop_chars n s
  | _, _ => s
  end.
Definition TrimPrefix (s prefix : string) : string :=
  if HasPrefix s prefix then drop_chars (String.length prefix) s else s.

(** [strings.TrimSuffix]. *)
Definition TrimSuffix (s suffix : string) : string :=
  let n := String.length s in
  let m := String.length suffix in
  if (m <=? n)%nat && bool_decide (String.substring (n - m) m s = suffix)
  then String.substring 0 (n - m) s else s.

(** ** Facts *)

Section facts.

Lemma space_prefix_shorter s s' : space_prefix s = Some s' -> (String.length s' < String.length s)%nat.
Proof.
  destruct s as [|a [|b [|c s]]]; simpl; repeat case_match; intros; simplify_eq; simpl; lia.
Qed.

(** Every field is non-empty. *)
Lemma fields_go_nonempty fuel cur s : Forall (fun f => f <> "") (fields_go fuel cur s).
Proof.
  revert cur s. induction fuel as [|fuel IH]; intros cur s; simpl.
  - case_decide; by repeat constructor.
  - destruct s as [|c s]; [case_decide; by repeat constructor|].
    destruct (space_prefix _); [|apply IH]. apply Forall_app. split; [|apply IH].
    case_decide; by repeat constructor.
Qed.

Lemma HasPrefix_app p s : HasPrefix (p +:+ s) p = true.
Proof. induction p as [|c p IH]; [by destruct s|]. simpl. by rewrite bool_decide_eq_true_2. Qed.

Lemma TrimPrefix_app p s : TrimPrefix (p +:+ s) p = s.
Proof. unfold TrimPrefix. rewrite HasPrefix_app. by induction p. Qed.

End facts.

(** [strings.Contains]. *)
Fixpoint Contains (s sub : string) : bool :=
  HasPrefix s sub || match s with String _ s => Contains s sub | EmptyString => false end.
