(* ===== verification/Regexp.v ===== *)
(** * Regexp: Go's [regexp] package on the patterns JIMM uses.

    Patterns are data ([re]); [mtch] is the leftmost-first (Perl) matcher that
    Go documents for [FindStringSubmatch]: alternatives are tried in order,
    repetitions are greedy, and the search takes the leftmost match.
    Repetition is on character classes, as in the patterns of the code. *)

From Stdlib Require Import Ascii.
From S2P Require Import Prelude.

Inductive re :=
| Eps
| Cls (p : ascii -> bool)
| Seq (a b : re)
| Alt (a b : re)
| Star (p : ascii -> bool)
| Grp (n : nat) (r : re)
| Bot
| Eot.

Definition Plus (p : ascii -> bool) : re := Seq (Cls p) (Star p).
Definition Opt (r : re) : re := Alt r Eps.
Fixpoint Rep (n : nat) (p : ascii -> bool) : re :=
  match n with 0%nat => Eps | S n => Seq (Cls p) (Rep n p) end.
Fixpoint Seqs (rs : list re) : re :=
  match rs with [] => Eps | r :: rs => Seq r (Seqs rs) end.
Fixpoint Lit (s : string) : re :=
  match s with
  | EmptyString => Eps
  | String c s => Seq (Cls (fun a => bool_decide (a = c))) (Lit s)
  end.

(** Character classes. *)
Definition in_range (lo hi c : ascii) : bool :=
  (Ascii.nat_of_ascii lo <=? Ascii.nat_of_ascii c)%nat &&
  (Ascii.nat_of_ascii c <=? Ascii.nat_of_ascii hi)%nat.
Definition is_lower : ascii -> bool := in_range "a" "z".
Definition is_upper : ascii -> bool := in_range "A" "Z".
Definition is_digit : ascii -> bool := in_range "0" "9".
Definition is_letter (c : ascii) : bool := is_lower c || is_upper c.
Definition is_alnum (c : ascii) : bool := is_letter c || is_digit c.
Definition is_hex (c : ascii) : bool := in_range "a" "f" c || is_digit c.
Definition is_char (a c : ascii) : bool := bool_decide (c = a).
Definition not_char (a c : ascii) : bool := negb (is_char a c).

(** Captures: group number and text, latest first. *)
Definition caps := list (nat * string).

Definition consumed (s s' : string) : string :=
  String.substring 0 (String.length s - String.length s') s.

Fixpoint star {R} (p : ascii -> bool) (s : string) (c : caps)
    (k : string -> caps -> option R) : option R :=
  match s with
  | String a s' =>
      if p a then match star p s' c k with Some r => Some r | None => k s c end
      else k s c
  | EmptyString => k s c
  end.

Fixpoint mtch {R} (full : nat) (r : re) (s : string) (c : caps)
    (k : string -> caps -> option R) : option R :=
  match r with
  | Eps => k s c
  | Cls p => match s with
             | String a s' => if p a then k s' c else None
             | EmptyString => None
             end
  | Seq a b => mtch full a s c (fun s c => mtch full b s c k)
  | Alt a b => match mtch full a s c k with
               | Some r => Some r
               | None => mtch full b s c k
               end
  | Star p => star p s c k
  | Grp n a => mtch full a s c (fun s' c' => k s' ((n, consumed s s') :: c'))
  | Bot => if decide (String.length s = full) then k s c else None
  | Eot => if decide (s = "") then k s c else None
  end.

(** Leftmost match: the whole match and the captures. *)
Fixpoint search (full : nat) (r : re) (s : string) : option (string * caps) :=
  match mtch full r s [] (fun s' c => Some (consumed s s', c)) with
  | Some m => Some m
  | None => match s with
            | String _ s' => search full r s'
            | EmptyString => None
            end
  end.

Definition group (n : nat) (c : caps) : string :=
  default "" (snd <$> find (fun x => bool_decide (x.1 = n)) c).

(** [FindStringSubmatch] for a pattern with [n] groups: the empty list when
    there is no match, else the match and the groups, an unmatched group being
    the empty string. *)
Definition FindStringSubmatch (r : re) (n : nat) (s : string) : list string :=
  match search (String.length s) r s with
  | Some (w, c) => w :: map (fun i => group i c) (seq 1 n)
  | None => []
  end.

Definition FindString (r : re) (s : string) : string :=
  match search (String.length s) r s with Some (w, _) => w | None => "" end.

Definition MatchString (r : re) (s : string) : bool :=
  match search (String.length s) r s with Some _ => true | None => false end.

(** ** Facts about greedy matching *)

Fixpoint str_forall (p : ascii -> bool) (s : string) : bool :=
  match s with
  | EmptyString => true
  | String c s => p c && str_forall p s
  end.

Definition head_not (p : ascii -> bool) (s : string) : bool :=
  match s with EmptyString => true | String c _ => negb (p c) end.

Section facts.
Context {R : Type}.
Implicit Types (k : string -> caps -> option R).

Lemma str_length_app s t : String.length (s +:+ t) = (String.length s + String.length t)%nat.
Proof. induction s as [|? s IH]; simpl; [done|]. by rewrite IH. Qed.

Lemma substring_app s t : String.substring 0 (String.length s) (s +:+ t) = s.
Proof.
  induction s as [|a s IH]; simpl; [by destruct t|]. by rewrite IH.
Qed.

Lemma consumed_app s t : consumed (s +:+ t) t = s.
Proof.
  unfold consumed. rewrite str_length_app, Nat.add_sub. apply substring_app.
Qed.

(** A greedy star eats a maximal run first. *)
Lemma star_greedy p u s c k (r : R) :
  str_forall p u = true -> head_not p s = true -> k s c = Some r ->
  star p (u +:+ s) c k = Some r.
Proof.
  intros Hu Hs Hk. induction u as [|a u IH]; simpl in *.
  - destruct s as [|b s]; simpl in *; [done|]. by destruct (p b).
  - apply andb_true_iff in Hu as [-> Hu]. by rewrite IH.
Qed.

Lemma mtch_plus_greedy full p u s c k (r : R) :
  u <> "" -> str_forall p u = true -> head_not p s = true -> k s c = Some r ->
  mtch full (Plus p) (u +:+ s) c k = Some r.
Proof.
  intros Hne Hu Hs Hk. destruct u as [|a u]; [done|]. simpl in *.
  apply andb_true_iff in Hu as [-> Hu]. by apply star_greedy.
Qed.

(** A match at the first position is the leftmost one. *)
Lemma search_here full r s w c :
  mtch full r s [] (fun s' c => Some (consumed s s', c)) = Some (w, c) ->
  search full r s = Some (w, c).
Proof. intros H. destruct s; simpl in *; by rewrite H. Qed.

(** The continuation of a successful match was run on a suffix. *)
Lemma star_inv p s c k (r : R) :
  star p s c k = Some r ->
  exists s' , (String.length s' <= String.length s)%nat /\ k s' c = Some r.
Proof.
  induction s as [|a s IH]; simpl; intros H; [by exists ""|].
  destruct (p a); [|by exists (String a s)].
  destruct (star p s c k) eqn:Hs; [|by exists (String a s)].
  destruct (IH H) as [s' [Hl Hk]]. exists s'. split; [lia|done].
Qed.

Lemma mtch_inv full r s c k (x : R) :
  mtch full r s c k = Some x ->
  exists s' c', (String.length s' <= String.length s)%nat /\ k s' c' = Some x.
Proof.
  revert s c k. induction r as [|p|a IHa b IHb|a IHa b IHb|p|n a IHa| |];
    simpl; intros s c k H; [by exists s, c| | | | | | |].
  - destruct s as [|ch s]; [done|]. destruct (p ch); [|done].
    exists s, c. simpl. split; [lia|done].
  - apply IHa in H as (s1 & c1 & Hl1 & H). apply IHb in H as (s2 & c2 & Hl2 & H).
    exists s2, c2. split; [lia|done].
  - destruct (mtch full a s c k) eqn:Ha; [|eauto]. simplify_eq. eauto.
  - apply star_inv in H as (s' & Hl & Hk). eauto.
  - apply IHa in H as (s' & c' & Hl & Hk). eauto.
  - case_decide; [by exists s, c|done].
  - case_decide; [by exists s, c|done].
Qed.

End facts.

(** ** Anchored patterns: a match of [^r$] is the whole text *)

Definition Anchored (r : re) : re := Seq Bot (Seq r Eot).

Lemma search_anchored_shorter full r s :
  (String.length s < full)%nat -> search full (Anchored r) s = None.
Proof.
  induction s as [|a s IH]; simpl; intros Hl.
  - rewrite decide_False; [done|lia].
  - rewrite decide_False; [|simpl; lia]. apply IH. lia.
Qed.

Lemma consumed_all s : consumed s "" = s.
Proof.
  unfold consumed. rewrite Nat.sub_0_r. simpl.
  induction s as [|a s IH]; simpl; [done|]. by rewrite IH.
Qed.

Lemma search_anchored r s w c :
  search (String.length s) (Anchored r) s = Some (w, c) -> w = s.
Proof.
  destruct s as [|a s]; cbn -[consumed].
  - destruct (mtch 0 r "" [] _) as [[w' c']|] eqn:Hm; [|done].
    intros ?; simplify_eq. apply mtch_inv in Hm as (s' & c1 & _ & Hk).
    repeat case_decide; simplify_eq. apply consumed_all.
  - rewrite decide_True; [|done].
    destruct (mtch _ r _ [] _) as [[w' c']|] eqn:Hm.
    + intros ?; simplify_eq. apply mtch_inv in Hm as (s' & c1 & _ & Hk).
      case_decide; [|done]. simplify_eq. apply consumed_all.
    + intros H. rewrite search_anchored_shorter in H; [done|simpl; lia].
Qed.

Lemma FindString_anchored r s :
  MatchString (Anchored r) s = true -> FindString (Anchored r) s = s.
Proof.
  unfold MatchString, FindString. destruct (search _ _ s) as [[w c]|] eqn:H; [|done].
  intros _. by apply search_anchored in H.
Qed.

Lemma FindString_no_match r s : MatchString r s = false -> FindString r s = "".
Proof. unfold MatchString, FindString. by destruct (search _ _ s) as [[]|]. Qed.
