(* ===== verification/Names.v ===== *)
(** * Names: entity tags, [pkg/names] and [internal/openfga/names].

    [Tag] is the [names.Tag] interface (kind and id).  The tag library of Juju
    ([github.com/juju/names]) is the class [JujuNames]; JIMM's own tags
    (groups, roles, identity-provider groups, service accounts) and the
    conversions between tags, relations and OpenFGA entities are defined as
    in the source.  The theorems are the round trips of tags and relations
    and the exact languages of the identifiers. *)

From Stdlib Require Import Ascii.
From S2P Require Import Prelude Errors Regexp.

(** ** String functions of Go's [strings] package *)

(** [strings.Cut] on one character. *)
Fixpoint cut (c : ascii) (s : string) : option (string * string) :=
  match s with
  | EmptyString => None
  | String a s' =>
      if decide (a = c) then Some ("", s')
      else match cut c s' with
           | Some (l, r) => Some (String a l, r)
           | None => None
           end
  end.

(** [strings.Split] on one character. *)
Fixpoint split_char (c : ascii) (s : string) : list string :=
  match s with
  | EmptyString => [""]
  | String a s' =>
      if decide (a = c) then "" :: split_char c s'
      else match split_char c s' with
           | p :: ps => String a p :: ps
           | [] => [String a ""]
           end
  end.

(** [strings.HasSuffix]. *)
Definition HasSuffix (s suffix : string) : bool :=
  let n := String.length s in
  let m := String.length suffix in
  (m <=? n)%nat && bool_decide (String.substring (n - m) m s = suffix).

(** ** Tags *)

Record Tag := MkTag { Kind : string; Id : string }.

#[export] Instance Tag_eq_dec : EqDecision Tag.
Proof. solve_decision. Defined.

Definition TagString (t : Tag) : string := Kind t +:+ "-" +:+ Id t.

(** The tag kinds of Juju and of JIMM. *)
Definition UserTagKind := "user".
Definition ModelTagKind := "model".
Definition ControllerTagKind := "controller".
Definition ApplicationOfferTagKind := "applicationoffer".
Definition CloudTagKind := "cloud".
Definition GroupTagKind := "group".
Definition IdPGroupTagKind := "idpgroup".
Definition RoleTagKind := "role".

(** The tag library of Juju: which user names are valid, the id and domain of
    the tag of a user name, which identifiers the constructors of the other
    kinds accept (they panic on the rest), and the parser. *)
Class JujuNames := {
  IsValidUser : string -> bool;
  UserTagId : string -> string;
  UserTagDomain : string -> string;
  ValidTagId : string -> string -> bool;
  juju_ParseTag : string -> outcome Tag;
}.

Section juju.
Context `{JujuNames}.

(** [names.NewUserTag] panics on an invalid user name. *)
Definition NewUserTag (name : string) : outcome Tag :=
  if IsValidUser name then Ok (MkTag UserTagKind (UserTagId name))
  else Panic (sprintf "invalid user tag %q" [ArgS name]).

Definition NewJujuTag (kind id : string) : outcome Tag :=
  if ValidTagId kind id then Ok (MkTag kind id)
  else Panic (sprintf "%q is not a valid %s tag" [ArgS id; ArgS kind]).

Definition NewControllerTag : string -> outcome Tag := NewJujuTag ControllerTagKind.
Definition NewModelTag : string -> outcome Tag := NewJujuTag ModelTagKind.
Definition NewApplicationOfferTag : string -> outcome Tag := NewJujuTag ApplicationOfferTagKind.
Definition NewCloudTag : string -> outcome Tag := NewJujuTag CloudTagKind.

(** [names.ParseModelTag] and the like. *)
Definition ParseTagOfKind (kind tag : string) : outcome Tag :=
  t ← juju_ParseTag tag;
  if decide (Kind t = kind) then Ok t else Err (Errorf "%q is not a valid %s tag" [ArgS tag; ArgS kind]).

(** [names.UserTag.IsLocal] *)
Definition IsLocal (t : Tag) : bool := bool_decide (UserTagDomain (Id t) ∈ [""; "local"]).

End juju.

(** [github.com/juju/version]: [Parse] and [Compare]. *)
Class JujuVersion := {
  Number : Type;
  version_Parse : string -> outcome Number;
  version_Compare : Number -> Number -> Z;
}.

(** ** [pkg/names] *)

Definition name_char (c : ascii) : bool :=
  is_alnum c || is_char "." c || is_char "_" c || is_char "-" c.

(** [^[a-zA-Z][a-zA-Z0-9._-]+[a-zA-Z0-9]$] *)
Definition validGroupName : re :=
  Anchored (Seq (Cls is_letter) (Seq (Plus name_char) (Cls is_alnum))).

(** [^[a-f0-9]{8}-[a-f0-9]{4}-[a-f0-9]{4}-[a-f0-9]{4}-[a-f0-9]{12}((#|\z)[a-z]+)?$] *)
Definition validGroupId : re :=
  Anchored (Seqs [Rep 8 is_hex; Lit "-"; Rep 4 is_hex; Lit "-"; Rep 4 is_hex; Lit "-";
    Rep 4 is_hex; Lit "-"; Rep 12 is_hex;
    Opt (Grp 1 (Seq (Grp 2 (Alt (Lit "#") Eot)) (Plus is_lower)))]).

Definition validRoleName : re := validGroupName.
Definition validRoleId : re := validGroupId.

Definition invalidTagError (tag kind : string) : gerror :=
  if decide (kind = "") then Errorf "%q is not a valid tag" [ArgS tag]
  else Errorf "%q is not a valid %s tag" [ArgS tag; ArgS kind].

Definition IsValidGroupId (id : string) : bool := MatchString validGroupId id.
Definition IsValidGroupName (name : string) : bool := MatchString validGroupName name.
Definition IsValidRoleId (id : string) : bool := MatchString validRoleId id.
Definition IsValidRoleName (name : string) : bool := MatchString validRoleName name.

Definition NewGroupTag (groupId : string) : outcome Tag :=
  let id := FindString validGroupId groupId in
  if decide (id = "") then Panic (sprintf "invalid group tag %q" [ArgS groupId])
  else Ok (MkTag GroupTagKind id).

Definition NewRoleTag (roleId : string) : outcome Tag :=
  let id := FindString validRoleId roleId in
  if decide (id = "") then Panic (sprintf "invalid role tag %q" [ArgS roleId])
  else Ok (MkTag RoleTagKind id).

Definition IsValidIdPGroupId (id : string) : bool :=
  if decide (id = "") then false else
  match split_char "#" id with
  | [p0] => bool_decide (p0 <> "")
  | [p0; p1] => bool_decide (p0 <> "") && bool_decide (p1 <> "")
  | _ => false
  end.

Definition NewIdPGroupTag (groupId : string) : outcome Tag :=
  if IsValidIdPGroupId groupId then Ok (MkTag IdPGroupTagKind groupId)
  else Panic (sprintf "invalid idp group tag %q" [ArgS groupId]).

Definition TagKind (tag : string) : outcome string :=
  match cut "-" tag with
  | Some (k, _) =>
      if decide (k = "") then Err (Errorf "%q is not a valid tag" [ArgS tag]) else Ok k
  | None => Err (Errorf "%q is not a valid tag" [ArgS tag])
  end.

Definition splitTag (tag : string) : outcome (string * string) :=
  kind ← TagKind tag;
  let n := S (String.length kind) in
  Ok (kind, String.substring n (String.length tag - n) tag).

Section parse.
Context `{JujuNames}.

Definition ParseTag (tag : string) : outcome Tag :=
  match splitTag tag with
  | Ok (kind, id) =>
      if decide (kind = GroupTagKind) then
        if IsValidGroupId id then NewGroupTag id else Err (invalidTagError tag kind)
      else if decide (kind = IdPGroupTagKind) then
        if IsValidIdPGroupId id then NewIdPGroupTag id else Err (invalidTagError tag kind)
      else if decide (kind = RoleTagKind) then
        if IsValidRoleId id then NewRoleTag id else Err (invalidTagError tag kind)
      else juju_ParseTag tag
  | _ => Err (invalidTagError tag "")
  end.

(** The type assertions [t.(GroupTag)] and the like. *)
Definition assertKind (kind tag : string) (t : Tag) : outcome Tag :=
  if decide (Kind t = kind) then Ok t else Err (invalidTagError tag kind).

Definition ParseGroupTag (tag : string) : outcome Tag :=
  t ← ParseTag tag; assertKind GroupTagKind tag t.
Definition ParseRoleTag (tag : string) : outcome Tag :=
  t ← ParseTag tag; assertKind RoleTagKind tag t.
Definition ParseIdPGroupTag (tag : string) : outcome Tag :=
  t ← ParseTag tag; assertKind IdPGroupTagKind tag t.

Definition ServiceAccountDomain := "serviceaccount".
Definition ErrInvalidClientID : gerror := ErrSentinel "invalid client ID".

Definition IsValidServiceAccountId (id : string) : bool :=
  if IsValidUser id then bool_decide (UserTagDomain id = ServiceAccountDomain) else false.

Definition EnsureValidServiceAccountId (id : string) : outcome string :=
  let id := if HasSuffix id ("@" +:+ ServiceAccountDomain) then id
            else id +:+ "@" +:+ ServiceAccountDomain in
  if IsValidServiceAccountId id then Ok id else Err ErrInvalidClientID.

End parse.

(** ** [internal/openfga/names] *)

(** [cofga.Entity]: an OpenFGA object or userset [kind:id#relation]. *)
Record Entity := MkEntity { EKind : string; EID : string; ERelation : string }.

#[export] Instance Entity_eq_dec : EqDecision Entity.
Proof. solve_decision. Defined.
#[export] Instance Entity_countable : Countable Entity.
Proof.
  apply (inj_countable' (fun e => (EKind e, EID e, ERelation e))
           (fun '(k, i, r) => MkEntity k i r)).
  by intros [].
Defined.

Definition MemberRelation := "member".
Definition AssigneeRelation := "assignee".
Definition AdministratorRelation := "administrator".
Definition ControllerRelation := "controller".
Definition ModelRelation := "model".
Definition ConsumerRelation := "consumer".
Definition ReaderRelation := "reader".
Definition WriterRelation := "writer".
Definition CanAddModelRelation := "can_addmodel".
Definition AuditLogViewerRelation := "audit_log_viewer".
Definition NoRelation := "".

Definition allRelations : list string :=
  [MemberRelation; AdministratorRelation; ControllerRelation; ModelRelation;
   ConsumerRelation; ReaderRelation; WriterRelation; CanAddModelRelation;
   AuditLogViewerRelation; AssigneeRelation; NoRelation].

Definition EveryoneUser := "everyone@external".

Definition ConvertGenericTag (t : Tag) : Entity :=
  let id := if decide (Kind t = UserTagKind /\ Id t = EveryoneUser) then "*" else Id t in
  MkEntity (Kind t) id "".

Definition ConvertTag (t : Tag) : Entity := ConvertGenericTag t.

Definition ConvertTagWithRelation (t : Tag) (relation : string) : Entity :=
  let tag := ConvertTag t in MkEntity (EKind tag) (EID tag) relation.

Definition BlankKindTag (kind : string) : outcome Entity :=
  if decide (kind ∈ [UserTagKind; GroupTagKind; IdPGroupTagKind; RoleTagKind;
                     ControllerTagKind; ModelTagKind; ApplicationOfferTagKind; CloudTagKind])
  then Ok (MkEntity kind "" "")
  else Err (New "unknown tag kind").

(** The access strings are those of Juju's [core/permission]. *)
Definition ConvertJujuRelation (relation : string) : outcome string :=
  if decide (relation = "admin") then Ok AdministratorRelation
  else if decide (relation = "read") then Ok ReaderRelation
  else if decide (relation = "write") then Ok WriterRelation
  else if decide (relation = "consume") then Ok ConsumerRelation
  else if decide (relation = "add-model") then Ok CanAddModelRelation
  else if decide (relation = "login") then Err (New "login access unused")
  else if decide (relation = "superuser") then Err (New "superuser access unused")
  else Err (New "unknown relation").

Definition ParseRelation (relationString : string) : outcome string :=
  if decide (relationString = "") then Ok ""
  else if decide (relationString = ControllerRelation) then Ok ControllerRelation
  else if decide (relationString = ModelRelation) then Ok ModelRelation
  else if decide (relationString = MemberRelation) then Ok MemberRelation
  else if decide (relationString = AdministratorRelation) then Ok AdministratorRelation
  else if decide (relationString = ConsumerRelation) then Ok ConsumerRelation
  else if decide (relationString = ReaderRelation) then Ok ReaderRelation
  else if decide (relationString = WriterRelation) then Ok WriterRelation
  else if decide (relationString = CanAddModelRelation) then Ok CanAddModelRelation
  else if decide (relationString = AuditLogViewerRelation) then Ok AuditLogViewerRelation
  else if decide (relationString = AssigneeRelation) then Ok AssigneeRelation
  else Err (Errorf "unknown relation %s" [ArgS relationString]).

Definition WithMemberRelation (groupTag : Tag) : string :=
  TagString groupTag +:+ "#" +:+ MemberRelation.
Definition WithAssigneeRelation (roleTag : Tag) : string :=
  TagString roleTag +:+ "#" +:+ AssigneeRelation.

(** ** Facts *)

Section string_facts.

Lemma str_app_assoc (s t u : string) : s +:+ (t +:+ u) = (s +:+ t) +:+ u.
Proof. induction s as [|a s IH]; simpl; [done|]. by rewrite IH. Qed.

Lemma str_app_nil_r (s : string) : s +:+ "" = s.
Proof. induction s as [|a s IH]; simpl; [done|]. by rewrite IH. Qed.

Lemma cut_app c s t : str_forall (not_char c) s = true -> cut c (s +:+ String c t) = Some (s, t).
Proof.
  induction s as [|a s IH]; simpl; intros Hs.
  - by rewrite decide_True.
  - apply andb_true_iff in Hs as [Ha Hs]. unfold not_char, is_char in Ha.
    apply negb_true_iff, bool_decide_eq_false in Ha.
    rewrite decide_False by done. by rewrite IH.
Qed.

Lemma cut_Some c s l r : cut c s = Some (l, r) -> s = l +:+ String c r.
Proof.
  revert l. induction s as [|a s IH]; simpl; intros l H; [done|].
  case_decide; simplify_eq; [done|].
  destruct (cut c s) as [[l' r']|]; simplify_eq. simpl. by rewrite (IH l').
Qed.

Lemma split_char_nonempty c s : split_char c s <> [].
Proof. induction s as [|a s IH]; simpl; [done|]. case_decide; [done|]. by destruct (split_char c s). Qed.

Lemma substring_drop s t :
  String.substring (String.length s) (String.length t) (s +:+ t) = t.
Proof.
  induction s as [|a s IH]; simpl; [|done].
  induction t as [|b t IHt]; simpl; [done|]. by rewrite IHt.
Qed.

(** The parts of a split are joined back by the separator, and do not
    contain it. *)
Lemma split_char_one c s p :
  split_char c s = [p] <-> s = p /\ str_forall (not_char c) p = true.
Proof.
  revert p. induction s as [|a s IH]; intros p; simpl.
  - split; [intros; by simplify_eq|by intros [<- _]].
  - case_decide as Ha.
    + split; [intros; simplify_eq; by destruct (split_char_nonempty c s)|].
      intros [<- Hp]. simpl in Hp. unfold not_char, is_char in Hp.
      by rewrite bool_decide_eq_true_2 in Hp.
    + destruct (split_char c s) as [|x xs] eqn:Hu; [by destruct (split_char_nonempty c s)|].
      split.
      * intros Hp. simplify_eq. destruct (proj1 (IH x) eq_refl) as [-> Hx].
        simpl. unfold not_char at 1, is_char. by rewrite bool_decide_eq_false_2.
      * intros [<- Hp]. simpl in Hp. apply andb_true_iff in Hp as [_ Hp].
        pose proof (proj2 (IH s) (conj eq_refl Hp)). by simplify_eq.
Qed.

Lemma split_char_two c s p q :
  split_char c s = [p; q] <->
  s = p +:+ String c q /\ str_forall (not_char c) p = true /\ str_forall (not_char c) q = true.
Proof.
  revert p. induction s as [|a s IH]; intros p; simpl.
  - split; [done|]. intros [Hs _]. by destruct p.
  - case_decide as Ha.
    + subst a. split.
      * intros Hs. injection Hs as Hp Hq. subst p. apply split_char_one in Hq as [<- Hq]. done.
      * intros (Hs & Hp & Hq). destruct p as [|b p]; simpl in *.
        { simplify_eq. f_equal. by apply split_char_one. }
        simplify_eq. unfold not_char at 1, is_char in Hp.
        by rewrite bool_decide_eq_true_2 in Hp.
    + destruct (split_char c s) as [|x xs] eqn:Hu; [by destruct (split_char_nonempty c s)|].
      split.
      * intros Hs. simplify_eq. destruct (proj1 (IH x) eq_refl) as (-> & Hx & Hq).
        simpl. unfold not_char at 1, is_char. by rewrite bool_decide_eq_false_2.
      * intros (Hs & Hp & Hq). destruct p as [|b p]; simpl in *; simplify_eq.
        apply andb_true_iff in Hp as [_ Hp].
        pose proof (proj2 (IH p) (conj eq_refl (conj Hp Hq))). by simplify_eq.
Qed.

End string_facts.

(** What JIMM relies on of Juju's parser: it produces Juju tags only. *)
Class JujuNamesLaws `{JujuNames} := {
  juju_ParseTag_kind tag t :
    juju_ParseTag tag = Ok t -> Kind t ∉ [GroupTagKind; RoleTagKind; IdPGroupTagKind];
}.

(** The tags that are JIMM's own, with a valid identifier. *)
Definition valid_jimm_tag (t : Tag) : bool :=
  (bool_decide (Kind t = GroupTagKind) && IsValidGroupId (Id t))
  || (bool_decide (Kind t = RoleTagKind) && IsValidRoleId (Id t))
  || (bool_decide (Kind t = IdPGroupTagKind) && IsValidIdPGroupId (Id t)).

Section facts.

Lemma IsValidGroupId_nonempty id : IsValidGroupId id = true -> id <> "".
Proof. intros H ->. by vm_compute in H. Qed.

Lemma NewGroupTag_valid id : IsValidGroupId id = true -> NewGroupTag id = Ok (MkTag GroupTagKind id).
Proof.
  intros H. unfold NewGroupTag. unfold validGroupId. rewrite FindString_anchored by exact H.
  by rewrite decide_False by (by apply IsValidGroupId_nonempty).
Qed.

Lemma NewGroupTag_invalid id :
  IsValidGroupId id = false -> exists s, NewGroupTag id = Panic s.
Proof.
  intros H. unfold NewGroupTag. rewrite FindString_no_match by exact H.
  rewrite decide_True by done. eauto.
Qed.

Lemma NewRoleTag_valid id : IsValidRoleId id = true -> NewRoleTag id = Ok (MkTag RoleTagKind id).
Proof.
  intros H. unfold NewRoleTag, validRoleId, validGroupId. rewrite FindString_anchored by exact H.
  by rewrite decide_False by (by apply IsValidGroupId_nonempty).
Qed.

Lemma NewRoleTag_invalid id :
  IsValidRoleId id = false -> exists s, NewRoleTag id = Panic s.
Proof.
  intros H. unfold NewRoleTag. rewrite FindString_no_match by exact H.
  rewrite decide_True by done. eauto.
Qed.

Lemma splitTag_String kind id :
  kind <> "" -> str_forall (not_char "-") kind = true ->
  splitTag (TagString (MkTag kind id)) = Ok (kind, id).
Proof.
  intros Hk Hd. unfold splitTag, TagKind, TagString. cbn [Kind Id].
  change ("-" +:+ id) with (String "-" id). rewrite cut_app by done.
  rewrite decide_False by done. cbn [mbind outcome_bind omap_fail].
  replace (kind +:+ String "-" id) with ((kind +:+ "-") +:+ id)
    by (rewrite <- str_app_assoc; done).
  assert (S (String.length kind) = String.length (kind +:+ "-")) as ->
    by (rewrite str_length_app; simpl; lia).
  rewrite (str_length_app (kind +:+ "-")), Nat.add_comm, Nat.add_sub, substring_drop. done.
Qed.

Lemma splitTag_inv tag kind id :
  splitTag tag = Ok (kind, id) -> tag = kind +:+ "-" +:+ id.
Proof.
  unfold splitTag, TagKind. destruct (cut "-" tag) as [[k r]|] eqn:Hc; [|done].
  apply cut_Some in Hc as ->. case_decide; [done|]. cbn [mbind outcome_bind omap_fail].
  intros H0. simplify_eq.
  replace (kind +:+ String "-" r) with ((kind +:+ "-") +:+ r)
    by (rewrite <- str_app_assoc; done).
  assert (S (String.length kind) = String.length (kind +:+ "-")) as ->
    by (rewrite str_length_app; simpl; lia).
  rewrite (str_length_app (kind +:+ "-")), Nat.add_comm, Nat.add_sub, substring_drop.
  by rewrite str_app_assoc.
Qed.

(** Relation names: [ParseRelation] accepts exactly the relations of
    [allRelations] and returns the relation of that name, so parsing the
    printed form of a relation gives the relation back. *)
Theorem ParseRelation_exact s r :
  ParseRelation s = Ok r <-> r = s /\ s ∈ allRelations.
Proof.
  unfold ParseRelation, allRelations, NoRelation. rewrite !elem_of_cons, elem_of_nil.
  repeat case_decide; subst; split; intros; destruct_and?; destruct_or?;
    simplify_eq; naive_solver.
Qed.

(** An identity-provider group id is valid exactly when it is a
    non-empty text without [#], optionally followed by one [#] and another
    such text. *)
Theorem IsValidIdPGroupId_exact id :
  IsValidIdPGroupId id = true <->
  (id <> "" /\ str_forall (not_char "#") id = true) \/
  (exists p q, id = p +:+ "#" +:+ q /\ p <> "" /\ q <> "" /\
     str_forall (not_char "#") p = true /\ str_forall (not_char "#") q = true).
Proof.
  unfold IsValidIdPGroupId. case_decide as He.
  - subst. split; [done|]. intros [[]|(p & q & Hp & Hn & _)]; [done|]. by destruct p.
  - destruct (split_char "#" id) as [|p [|q [|]]] eqn:Hs.
    + by apply split_char_nonempty in Hs.
    + apply split_char_one in Hs as [-> Hp]. rewrite bool_decide_eq_true.
      split; [by left|done].
    + pose proof Hs as Hs'. apply split_char_two in Hs as (-> & Hp & Hq).
      rewrite andb_true_iff, !bool_decide_eq_true. split.
      * intros [Hp0 Hq0]. right. by exists p, q.
      * intros [[_ Hno]|(p' & q' & Heq & Hp' & Hq' & Hfp & Hfq)].
        { pose proof (proj2 (split_char_one "#" _ _) (conj eq_refl Hno)). congruence. }
        pose proof (proj2 (split_char_two "#" (p +:+ String "#" q) p' q')
                      (conj Heq (conj Hfp Hfq))). naive_solver congruence.
    + split; [done|]. intros [[_ Hno]|(p' & q' & Heq & Hp' & Hq' & Hfp & Hfq)].
      * pose proof (proj2 (split_char_one "#" _ _) (conj eq_refl Hno)). congruence.
      * pose proof (proj2 (split_char_two "#" id p' q') (conj Heq (conj Hfp Hfq))). congruence.
Qed.

Context `{JujuNames}.

(** Tag round trip: parsing the printed form of a group, role or
    identity-provider group tag with a valid identifier gives the tag. *)
Theorem ParseTag_String_roundtrip t :
  valid_jimm_tag t = true -> ParseTag (TagString t) = Ok t.
Proof.
  destruct t as [k i]. unfold valid_jimm_tag, ParseTag. cbn [Kind Id].
  rewrite !orb_true_iff, !andb_true_iff, !bool_decide_eq_true.
  intros [[[-> Hv]|[-> Hv]]|[-> Hv]]; rewrite splitTag_String by done.
  - rewrite decide_True by done. rewrite Hv. by apply NewGroupTag_valid.
  - rewrite !decide_False by done. rewrite decide_True by done. rewrite Hv.
    by apply NewRoleTag_valid.
  - rewrite decide_False by done. rewrite decide_True by done. rewrite Hv.
    unfold NewIdPGroupTag. by rewrite Hv.
Qed.

(** The converse: when [ParseGroupTag], [ParseRoleTag] or
    [ParseIdPGroupTag] accepts a text, the text is the printed form of the
    tag it returns, and that tag has the asked kind and a valid identifier;
    none of the three panics. *)
Theorem Parse_kind_sound `{!JujuNamesLaws} tag kind t :
  kind ∈ [GroupTagKind; RoleTagKind; IdPGroupTagKind] ->
  (t' ← ParseTag tag; assertKind kind tag t') = Ok t ->
  Kind t = kind /\ TagString t = tag /\ valid_jimm_tag t = true.
Proof.
  intros Hk. unfold ParseTag, assertKind.
  destruct (splitTag tag) as [[k i]| | |] eqn:Hs; try done.
  apply splitTag_inv in Hs as ->.
  assert (forall t', (if decide (Kind t' = kind) then Ok t' else Err (invalidTagError (k +:+ "-" +:+ i) kind))
             = Ok t -> t' = t /\ Kind t = kind) as Hassert.
  { intros t' Ht. case_decide; by simplify_eq. }
  repeat case_decide; subst.
  - destruct (IsValidGroupId i) eqn:Hv; [|done]. rewrite NewGroupTag_valid by done.
    intros [<- <-]%Hassert. unfold valid_jimm_tag; simpl. by rewrite Hv.
  - destruct (IsValidIdPGroupId i) eqn:Hv; [|done]. unfold NewIdPGroupTag. rewrite Hv.
    intros [<- <-]%Hassert. unfold valid_jimm_tag; simpl. by rewrite Hv.
  - destruct (IsValidRoleId i) eqn:Hv; [|done]. rewrite NewRoleTag_valid by done.
    intros [<- <-]%Hassert. unfold valid_jimm_tag; simpl. by rewrite Hv.
  - destruct (juju_ParseTag (k +:+ "-" +:+ i)) eqn:Hj; try done.
    intros [-> <-]%Hassert. by apply juju_ParseTag_kind in Hj.
Qed.

Lemma HasSuffix_app s t : HasSuffix (s +:+ t) t = true.
Proof.
  unfold HasSuffix. rewrite str_length_app. apply andb_true_iff. split.
  - apply Nat.leb_le. lia.
  - apply bool_decide_eq_true. rewrite Nat.add_sub. apply substring_drop.
Qed.

(** A service account id returned by [EnsureValidServiceAccountId] is
    valid, ends in the service account domain, and is left unchanged by a
    second call. *)
Theorem EnsureValidServiceAccountId_idempotent id id' :
  EnsureValidServiceAccountId id = Ok id' ->
  IsValidServiceAccountId id' = true /\ HasSuffix id' ("@" +:+ ServiceAccountDomain) = true /\
  EnsureValidServiceAccountId id' = Ok id'.
Proof.
  unfold EnsureValidServiceAccountId at 1.
  assert (HasSuffix (if HasSuffix id ("@" +:+ ServiceAccountDomain) then id
            else id +:+ "@" +:+ ServiceAccountDomain) ("@" +:+ ServiceAccountDomain) = true) as Hs.
  { destruct (HasSuffix id _) eqn:Hh; [done|]. apply HasSuffix_app. }
  revert Hs. generalize (if HasSuffix id ("@" +:+ ServiceAccountDomain) then id
            else id +:+ "@" +:+ ServiceAccountDomain). intros id1 Hs.
  destruct (IsValidServiceAccountId id1) eqn:Hv; intros Hok; simplify_eq.
  split_and!; [done..|]. unfold EnsureValidServiceAccountId. rewrite Hs. by rewrite Hv.
Qed.

End facts.
