(* ===== verification/AuthModel.v ===== *)
(** * AuthModel: tuples, the authorisation model and the OpenFGA interface.

    [auth_model] transcribes [openfga/authorisation_model.fga].  [holds T o r t]
    is the relation that OpenFGA documents for a store of tuples [T] and that
    model: object [o] has relation [r] to [t].  [OFGAServer] is the client of
    the OpenFGA service ([github.com/canonical/ofga]), which is not part of the
    repository: its operations are parameters and [OFGALaws] states the
    documented behaviour JIMM relies on. *)

From S2P Require Import Prelude Errors Names.

(** ** Tuples ([cofga.Tuple] and its variants) *)

Record Tuple := MkTuple { Object : option Entity; Relation : string; Target : option Entity }.

#[export] Instance Tuple_eq_dec : EqDecision Tuple.
Proof. solve_decision. Defined.
#[export] Instance Tuple_countable : Countable Tuple.
Proof.
  apply (inj_countable' (fun t => (Object t, Relation t, Target t))
           (fun '(o, r, t) => MkTuple o r t)).
  by intros [].
Defined.

Record TimestampedTuple := MkTT { tt_Tuple : Tuple; tt_Timestamp : Z }.

Record TupleWithCorrelationId :=
  MkTWC { twc_Tuple : Tuple; CorrelationId : string; ContextualTuples_of : list Tuple }.

(** A stored relation between two entities. *)
Definition edge (o : Entity) (r : string) (t : Entity) : Tuple := MkTuple (Some o) r (Some t).

(** ** The authorisation model *)

(** The type restrictions in brackets: [kind], [kind:*] and [kind#relation]. *)
Inductive restriction :=
| TyObj (kind : string)
| TyWild (kind : string)
| TyUserset (kind relation : string).

#[export] Instance restriction_eq_dec : EqDecision restriction.
Proof. solve_decision. Defined.

(** One [define] line: direct types, [or r], and [or r from c]. *)
Record relation_def := MkDef {
  rd_direct : list restriction;
  rd_computed : list string;
  rd_from : list (string * string);
}.

Definition grantees : list restriction :=
  [TyObj UserTagKind; TyWild UserTagKind; TyUserset GroupTagKind MemberRelation;
   TyUserset IdPGroupTagKind MemberRelation; TyUserset RoleTagKind AssigneeRelation].

Definition auth_model : list (string * list (string * relation_def)) :=
  [ (UserTagKind, []);
    (RoleTagKind,
      [(AssigneeRelation,
         MkDef [TyObj UserTagKind; TyWild UserTagKind; TyUserset GroupTagKind MemberRelation;
                TyUserset IdPGroupTagKind MemberRelation] [] [])]);
    (GroupTagKind,
      [(MemberRelation,
         MkDef [TyObj UserTagKind; TyWild UserTagKind; TyUserset GroupTagKind MemberRelation] [] [])]);
    (IdPGroupTagKind,
      [(MemberRelation, MkDef [TyObj UserTagKind; TyWild UserTagKind] [] [])]);
    (ControllerTagKind,
      [(ControllerRelation, MkDef [TyObj ControllerTagKind] [] []);
       (AdministratorRelation, MkDef grantees [] [(AdministratorRelation, ControllerRelation)]);
       (AuditLogViewerRelation, MkDef grantees [AdministratorRelation] []);
       (CanAddModelRelation, MkDef grantees [AdministratorRelation] [])]);
    (ModelTagKind,
      [(ControllerRelation, MkDef [TyObj ControllerTagKind] [] []);
       (AdministratorRelation, MkDef grantees [] [(AdministratorRelation, ControllerRelation)]);
       (ReaderRelation, MkDef grantees [WriterRelation] []);
       (WriterRelation, MkDef grantees [AdministratorRelation] [])]);
    (ApplicationOfferTagKind,
      [(ModelRelation, MkDef [TyObj ModelTagKind] [] []);
       (AdministratorRelation, MkDef grantees [] [(AdministratorRelation, ModelRelation)]);
       (ConsumerRelation, MkDef grantees [AdministratorRelation] []);
       (ReaderRelation, MkDef grantees [ConsumerRelation] [])]);
    (CloudTagKind,
      [(ControllerRelation, MkDef [TyObj ControllerTagKind] [] []);
       (AdministratorRelation, MkDef grantees [] [(AdministratorRelation, ControllerRelation)]);
       (CanAddModelRelation, MkDef grantees [AdministratorRelation] [])]) ].

Definition assoc {A} (k : string) (l : list (string * A)) : option A :=
  snd <$> find (fun p => bool_decide (p.1 = k)) l.

Definition lookup_def (kind relation : string) : option relation_def :=
  assoc kind auth_model ≫= assoc relation.

#[global] Arguments lookup_def : simpl never.

(** Whether a type restriction admits an object. *)
Definition admits (o : Entity) (rs : restriction) : bool :=
  match rs with
  | TyObj k => bool_decide (EKind o = k /\ ERelation o = "" /\ EID o <> "*")
  | TyWild k => bool_decide (EKind o = k /\ ERelation o = "" /\ EID o = "*")
  | TyUserset k r => bool_decide (EKind o = k /\ ERelation o = r)
  end.

Definition allowed_subject (d : relation_def) (o : Entity) : bool :=
  existsb (admits o) (rd_direct d).

(** ** When a relation holds *)

Inductive holds (T : gset Tuple) : Entity -> string -> Entity -> Prop :=
| holds_self k i r :
    r <> "" -> holds T (MkEntity k i r) r (MkEntity k i "")
| holds_direct o r t d :
    lookup_def (EKind t) r = Some d -> edge o r t ∈ T -> allowed_subject d o = true ->
    holds T o r t
| holds_public o r t d :
    lookup_def (EKind t) r = Some d -> ERelation o = "" ->
    edge (MkEntity (EKind o) "*" "") r t ∈ T -> TyWild (EKind o) ∈ rd_direct d ->
    holds T o r t
| holds_userset o r t d k i m :
    lookup_def (EKind t) r = Some d -> edge (MkEntity k i m) r t ∈ T ->
    TyUserset k m ∈ rd_direct d -> holds T o m (MkEntity k i "") -> holds T o r t
| holds_computed o r t d r' :
    lookup_def (EKind t) r = Some d -> r' ∈ rd_computed d -> holds T o r' t -> holds T o r t
| holds_from o r t d r' c p dc :
    lookup_def (EKind t) r = Some d -> (r', c) ∈ rd_from d ->
    lookup_def (EKind t) c = Some dc -> edge p c t ∈ T -> allowed_subject dc p = true ->
    holds T o r' p -> holds T o r t.

(** ** Reading tuples: what a filter matches

    A missing object or target and an empty relation match everything; a
    target without id matches every object of its kind. *)
Definition target_matches (flt : Entity) (t : Entity) : bool :=
  bool_decide (EKind flt = EKind t) && (bool_decide (EID flt = "") || bool_decide (flt = t)).

Definition matches (flt t : Tuple) : bool :=
  match Object flt with Some o => bool_decide (Object t = Some o) | None => true end &&
  (bool_decide (Relation flt = "") || bool_decide (Relation flt = Relation t)) &&
  match Target flt with
  | Some g => match Target t with Some t => target_matches g t | None => false end
  | None => true
  end.

Definition matching (flt : Tuple) (T : gset Tuple) : gset Tuple :=
  filter (fun t => matches flt t = true) T.

(** ** The OpenFGA client *)

Class OFGAServer (F : Type) := {
  srv_tuples : F -> gset Tuple;
  page_set : gset Tuple -> Tuple -> string -> gset Tuple;
  FindMatchingTuples : Tuple -> Z -> string -> M F (list TimestampedTuple * string);
  AddRelationIdempotent : list Tuple -> M F unit;
  RemoveRelationIdempotent : list Tuple -> M F unit;
  srv_CheckRelation : Tuple -> list Tuple -> M F bool;
  srv_CheckRelationWithTracing : Tuple -> list Tuple -> M F bool;
  srv_BatchCheckRelations : list TupleWithCorrelationId -> M F (gmap string bool);
  FindAccessibleObjectsByRelation : Tuple -> list Tuple -> M F (list Entity);
  FindUsersByRelation : Tuple -> M F (list Entity);
}.

(** The page size the service uses: its default is 50. *)
Definition page_limit (pageSize : Z) : nat :=
  if (pageSize <=? 0)%Z then 50%nat else Z.to_nat pageSize.

(** One page of a read: the page and what the next token leaves make up what
    the token stood for, they are disjoint, and a page followed by another one
    is full. *)
Definition page_law (srv_page : gset Tuple -> Tuple -> string -> gset Tuple)
    (T : gset Tuple) (flt : Tuple) (ps : Z) (tok : string)
    (l : list TimestampedTuple) (ct : string) : Prop :=
  let got : gset Tuple := list_to_set (tt_Tuple <$> l) in
  let rest := if decide (ct = "") then ∅ else srv_page T flt ct in
  NoDup (tt_Tuple <$> l) /\ srv_page T flt tok = got ∪ rest /\ got ## rest /\
  (ct <> "" -> length l = page_limit ps).

(** A query about a tuple: both ends are present and the answer is [holds]. *)
Definition check_answer (T : gset Tuple) (t : Tuple) (ctx : list Tuple) (b : bool) : Prop :=
  exists o g, Object t = Some o /\ Target t = Some g /\
    (b = true <-> holds (T ∪ list_to_set ctx) o (Relation t) g).

(** The service answers or fails; it does not loop. *)
Definition answered {A} (o : outcome A) : Prop := o <> OutOfFuel.

Class OFGALaws (F : Type) `{OFGAServer F} := {
  law_page_start T flt : page_set T flt "" = matching flt T;
  law_find flt ps tok f :
    wp (FindMatchingTuples flt ps tok) (fun o f' =>
      srv_tuples f' = srv_tuples f /\ answered o /\
      match o with
      | Ok (l, ct) => page_law page_set (srv_tuples f) flt ps tok l ct
      | _ => True
      end) f;
  law_add ts f :
    wp (AddRelationIdempotent ts) (fun o f' => answered o /\
      srv_tuples f' = match o with
                      | Ok _ => srv_tuples f ∪ list_to_set ts
                      | _ => srv_tuples f
                      end) f;
  law_remove ts f :
    wp (RemoveRelationIdempotent ts) (fun o f' => answered o /\
      srv_tuples f' = match o with
                      | Ok _ => srv_tuples f ∖ list_to_set ts
                      | _ => srv_tuples f
                      end) f;
  law_add_exists t f f' e :
    AddRelationIdempotent [t] f = (f', Err e) ->
    Contains (Error e) "cannot write a tuple which already exists" = true -> t ∈ srv_tuples f;
  law_remove_missing t f f' e :
    RemoveRelationIdempotent [t] f = (f', Err e) ->
    Contains (Error e) "cannot delete a tuple which does not exist" = true -> t ∉ srv_tuples f;
  law_check t ctx f :
    wp (srv_CheckRelation t ctx) (fun o f' =>
      srv_tuples f' = srv_tuples f /\ answered o /\
      forall b, o = Ok b -> check_answer (srv_tuples f) t ctx b) f;
  law_check_tracing t ctx f :
    wp (srv_CheckRelationWithTracing t ctx) (fun o f' =>
      srv_tuples f' = srv_tuples f /\ answered o /\
      forall b, o = Ok b -> check_answer (srv_tuples f) t ctx b) f;
  law_batch l f :
    wp (srv_BatchCheckRelations l) (fun o f' =>
      srv_tuples f' = srv_tuples f /\ answered o /\
      forall m, o = Ok m ->
        dom m = list_to_set (CorrelationId <$> l) /\
        forall c b, c ∈ l -> m !! CorrelationId c = Some b ->
          check_answer (srv_tuples f) (twc_Tuple c) (ContextualTuples_of c) b) f;
  law_objects t ctx f :
    wp (FindAccessibleObjectsByRelation t ctx) (fun o f' =>
      srv_tuples f' = srv_tuples f /\ answered o /\
      forall l e, o = Ok l -> e ∈ l -> exists u g, Object t = Some u /\ Target t = Some g /\
        EKind e = EKind g /\ holds (srv_tuples f ∪ list_to_set ctx) u (Relation t) e) f;
  law_users t f :
    wp (FindUsersByRelation t) (fun o f' =>
      srv_tuples f' = srv_tuples f /\ answered o /\
      forall l e, o = Ok l -> e ∈ l -> exists g, Target t = Some g /\
        EKind e = UserTagKind /\ holds (srv_tuples f) e (Relation t) g) f;
}.

(** ** Facts about the model *)

Section model_facts.

Lemma assoc_elem {A} k (l : list (string * A)) a : assoc k l = Some a -> (k, a) ∈ l.
Proof.
  unfold assoc. intros H. destruct (find _ l) as [[k' a']|] eqn:Hf; [|done].
  apply find_some in Hf as [Hin Hk]. apply bool_decide_eq_true in Hk. simpl in *.
  simplify_eq/=. by apply list_elem_of_In.
Qed.

(** A boolean property of every [define] line holds of a line looked up. *)
Lemma lookup_def_check (P : string -> string -> relation_def -> bool) k r d :
  forallb (fun kd => forallb (fun rd => P kd.1 rd.1 rd.2) kd.2) auth_model = true ->
  lookup_def k r = Some d -> P k r d = true.
Proof.
  unfold lookup_def. intros Hall H. destruct (assoc k auth_model) as [defs|] eqn:Hk; [|done].
  simpl in H. apply assoc_elem, list_elem_of_In in Hk. apply assoc_elem, list_elem_of_In in H.
  rewrite forallb_forall in Hall. apply Hall in Hk. simpl in Hk.
  rewrite forallb_forall in Hk. by apply Hk in H.
Qed.

(** Usersets in the model name a relation. *)
Lemma userset_relation_nonempty k r d k' m :
  lookup_def k r = Some d -> TyUserset k' m ∈ rd_direct d -> m <> "".
Proof.
  intros Hd Hin.
  apply (lookup_def_check (fun _ _ d => forallb (fun rs =>
    match rs with TyUserset _ m => bool_decide (m <> "") | _ => true end) (rd_direct d)))
    in Hd; [|by vm_compute].
  rewrite forallb_forall in Hd. apply list_elem_of_In, Hd in Hin.
  by apply bool_decide_eq_true in Hin.
Qed.

(** The hierarchy relations of [from] are not grants or memberships. *)
Lemma from_relation_structural k r d r' c :
  lookup_def k r = Some d -> (r', c) ∈ rd_from d -> c ∈ [ControllerRelation; ModelRelation].
Proof.
  intros Hd Hin.
  apply (lookup_def_check (fun _ _ d => forallb (fun p =>
    bool_decide (p.2 ∈ [ControllerRelation; ModelRelation])) (rd_from d)))
    in Hd; [|by vm_compute].
  rewrite forallb_forall in Hd. apply list_elem_of_In, Hd in Hin.
  by apply bool_decide_eq_true in Hin.
Qed.

Lemma holds_mono T T' o r t : T ⊆ T' -> holds T o r t -> holds T' o r t.
Proof.
  intros Hsub. induction 1.
  - by constructor.
  - eapply holds_direct; eauto.
  - eapply holds_public; eauto.
  - eapply holds_userset; eauto.
  - eapply holds_computed; eauto.
  - eapply holds_from; eauto.
Qed.

(** A relation implies the ones that its definition lists as computed. *)
Lemma holds_implied T o r r' t d :
  lookup_def (EKind t) r = Some d -> r' ∈ rd_computed d -> holds T o r' t -> holds T o r t.
Proof. intros Hd Hr Hh. by eapply holds_computed. Qed.

(** The levels of model access, each implied by the ones before it. *)
Lemma holds_model_le T o m c r :
  EKind m = ModelTagKind ->
  (c = AdministratorRelation /\ r ∈ [AdministratorRelation; WriterRelation; ReaderRelation]) \/
  (c = WriterRelation /\ r ∈ [WriterRelation; ReaderRelation]) \/
  (c = ReaderRelation /\ r = ReaderRelation) ->
  holds T o c m -> holds T o r m.
Proof.
  intros Hk Hcr Hh.
  assert (holds T o AdministratorRelation m -> holds T o WriterRelation m) as H1.
  { eapply holds_implied; [by rewrite Hk|set_solver]. }
  assert (holds T o WriterRelation m -> holds T o ReaderRelation m) as H2.
  { eapply holds_implied; [by rewrite Hk|set_solver]. }
  rewrite !elem_of_cons, !elem_of_nil in Hcr. destruct_or! Hcr; destruct Hcr as [-> Hr];
    [destruct_or! Hr..|]; subst; auto; done.
Qed.

(** Model access is ordered: an administrator of a model is a writer
    and a writer is a reader. *)
Theorem model_access_ordered T o m :
  EKind m = ModelTagKind ->
  (holds T o AdministratorRelation m -> holds T o WriterRelation m) /\
  (holds T o WriterRelation m -> holds T o ReaderRelation m).
Proof. intros Hk. split; apply holds_model_le; set_solver. Qed.

(** A user's grant of a relation whose definition admits users. *)
Lemma holds_granted T e r t d :
  EKind e = UserTagKind -> ERelation e = "" -> lookup_def (EKind t) r = Some d ->
  rd_direct d = grantees -> edge e r t ∈ T -> holds T e r t.
Proof.
  intros Hk Hr Hd Hg Hin. eapply holds_direct; [done|done|]. unfold allowed_subject. rewrite Hg. simpl.
  destruct (decide (EID e = "*")).
  - rewrite (bool_decide_eq_true_2 (_ /\ _ /\ EID e = "*")) by done. by rewrite orb_true_r.
  - by rewrite (bool_decide_eq_true_2 (_ /\ _ /\ EID e <> "*")).
Qed.

Lemma offer_access_ordered T o g :
  EKind g = ApplicationOfferTagKind ->
  (holds T o AdministratorRelation g -> holds T o ConsumerRelation g) /\
  (holds T o ConsumerRelation g -> holds T o ReaderRelation g).
Proof.
  intros Hk. split; intros Hh.
  - eapply (holds_computed _ _ _ _ _ AdministratorRelation); [by rewrite Hk|set_solver|done].
  - eapply (holds_computed _ _ _ _ _ ConsumerRelation); [by rewrite Hk|set_solver|done].
Qed.

Lemma cloud_access_ordered T o c :
  EKind c = CloudTagKind ->
  holds T o AdministratorRelation c -> holds T o CanAddModelRelation c.
Proof.
  intros Hk Hh.
  eapply (holds_computed _ _ _ _ _ AdministratorRelation); [by rewrite Hk|set_solver|done].
Qed.

(** A resource inherits administrators from its controller. *)
Lemma administrator_from_controller T o c t :
  EKind t ∈ [ControllerTagKind; ModelTagKind; CloudTagKind] ->
  EKind c = ControllerTagKind -> ERelation c = "" -> EID c <> "*" ->
  edge c ControllerRelation t ∈ T ->
  holds T o AdministratorRelation c -> holds T o AdministratorRelation t.
Proof.
  intros Hk Hc Hr Hi Hin Hh.
  assert (allowed_subject (MkDef [TyObj ControllerTagKind] [] []) c = true) as Hall.
  { unfold allowed_subject. simpl. by rewrite bool_decide_eq_true_2. }
  rewrite !elem_of_cons, elem_of_nil in Hk. destruct_or! Hk; try done.
  all: eapply (holds_from _ _ _ _ _ AdministratorRelation ControllerRelation c);
    [by rewrite Hk|simpl; set_solver|by rewrite Hk|done|exact Hall|done].
Qed.

(** Administrators propagate down the resource hierarchy: whoever
    administers the JIMM controller administers every controller attached to
    it, every model and cloud of these controllers, and every application
    offer of these models. *)
Theorem jimm_admin_propagates T o jimm c m g cl :
  EKind jimm = ControllerTagKind -> ERelation jimm = "" -> EID jimm <> "*" ->
  EKind c = ControllerTagKind -> ERelation c = "" -> EID c <> "*" ->
  EKind m = ModelTagKind -> ERelation m = "" -> EID m <> "*" ->
  EKind g = ApplicationOfferTagKind -> EKind cl = CloudTagKind ->
  edge jimm ControllerRelation c ∈ T -> edge c ControllerRelation m ∈ T ->
  edge m ModelRelation g ∈ T -> edge c ControllerRelation cl ∈ T ->
  holds T o AdministratorRelation jimm ->
  holds T o AdministratorRelation c /\ holds T o AdministratorRelation m /\
  holds T o AdministratorRelation g /\ holds T o AdministratorRelation cl.
Proof.
  intros Hj1 Hj2 Hj3 Hc1 Hc2 Hc3 Hm1 Hm2 Hm3 Hg Hcl E1 E2 E3 E4 Hh.
  assert (holds T o AdministratorRelation c) as HC.
  { eapply (administrator_from_controller _ _ jimm); [rewrite Hc1; set_solver|done..]. }
  assert (holds T o AdministratorRelation m) as HM.
  { eapply (administrator_from_controller _ _ c); [rewrite Hm1; set_solver|done..]. }
  split_and!; [done|done| |].
  - eapply (holds_from _ _ _ _ _ AdministratorRelation ModelRelation m);
      [by rewrite Hg|simpl; set_solver|by rewrite Hg|done| |done].
    unfold allowed_subject. simpl. by rewrite bool_decide_eq_true_2.
  - eapply (administrator_from_controller _ _ c); [rewrite Hcl; set_solver|done..].
Qed.

(** The ephemeral tuples of one user's identity-provider groups. *)
Definition idp_membership (u : Entity) (t : Tuple) : Prop :=
  exists g, t = edge u MemberRelation (MkEntity IdPGroupTagKind g "").

(** The ephemeral memberships of one user are invisible to another one. *)
Lemma holds_other_user T ctx u v r t :
  EKind u = UserTagKind -> ERelation u = "" -> EID u <> "*" ->
  Forall (idp_membership u) ctx -> v <> u ->
  holds (T ∪ list_to_set ctx) v r t -> holds T v r t.
Proof.
  intros Hk Hr Hi Hctx Hv Hh. rewrite Forall_forall in Hctx.
  assert (forall o r t, edge o r t ∈ T ∪ list_to_set ctx ->
    edge o r t ∈ T \/ (o = u /\ r = MemberRelation)) as Hedge.
  { intros o' r' t'. rewrite elem_of_union, elem_of_list_to_set. intros [?|Hin]; [by left|].
    right. destruct (Hctx _ Hin) as [g Hg]. unfold edge in Hg. by simplify_eq. }
  induction Hh as [| |o r t d Hd Ho Hin| | |o r t d r' c p dc Hd Hf Hdc Hin].
  - by constructor.
  - destruct (Hedge _ _ _ H0) as [?|[-> _]]; [|done]. eapply holds_direct; eauto.
  - destruct (Hedge _ _ _ Hin) as [?|[<- _]]; [|done]. eapply holds_public; eauto.
  - destruct (Hedge _ _ _ H0) as [?|[Hu _]]; [eapply holds_userset; eauto|].
    destruct (userset_relation_nonempty _ _ _ _ _ H H1). by rewrite <- Hu in Hr.
  - eapply holds_computed; eauto.
  - destruct (Hedge _ _ _ Hin) as [?|[_ Hc]]; [eapply holds_from; eauto|].
    apply (from_relation_structural _ _ _ _ _ Hd) in Hf. subst c.
    by rewrite !elem_of_cons, elem_of_nil in Hf; destruct_or! Hf.
Qed.

End model_facts.
