(* ===== verification/RefServer.v ===== *)
(** * RefServer: an executable OpenFGA service that satisfies the interface.

    [Ref] keeps a list of tuples and a flag that makes every call fail.
    Checks are decided by a search of bounded depth that fails, as the
    service does, when the bound is reached.  The instance shows that the laws
    of [OFGALaws] can hold and lets examples be evaluated. *)

From Stdlib Require Import Ascii.
From stdpp Require Import sorting.
From S2P Require Import Prelude Errors Names AuthModel.

Record Ref := MkRef { ref_list : list Tuple; ref_down : bool }.

Definition ref_tuples (f : Ref) : gset Tuple := list_to_set (ref_list f).

Definition ref_unavailable : gerror := ErrForeign "" "" "service unavailable".
Definition ref_too_deep : gerror := ErrForeign "" "" "resolution too complex".
Definition ref_bad_request : gerror := ErrForeign "" "" "validation error".

(** Three-valued disjunction: [None] is an undecided branch. *)
Definition any3 (l : list (option bool)) : option bool :=
  if decide (Some true ∈ l) then Some true
  else if decide (None ∈ l) then None else Some false.

(** The stored objects in relation [r] to [t]. *)
Definition subjects (L : list Tuple) (r : string) (t : Entity) : list Entity :=
  omap (fun x => if decide (Relation x = r /\ Target x = Some t) then Object x else None)
       L.

Definition is_self (o : Entity) (r : string) (t : Entity) : bool :=
  bool_decide (r <> "" /\ o = MkEntity (EKind t) (EID t) r /\ ERelation t = "").

Fixpoint check (n : nat) (L : list Tuple) (o : Entity) (r : string) (t : Entity) : option bool :=
  match n with
  | 0%nat => None
  | S n =>
      match lookup_def (EKind t) r with
      | None => Some (is_self o r t)
      | Some d =>
          let subj := subjects L r t in
          any3 (
            [Some (is_self o r t);
             Some (bool_decide (o ∈ subj) && allowed_subject d o);
             Some (bool_decide (ERelation o = "" /\ MkEntity (EKind o) "*" "" ∈ subj
                                /\ TyWild (EKind o) ∈ rd_direct d))]
            ++ ((fun s => if decide (TyUserset (EKind s) (ERelation s) ∈ rd_direct d)
                          then check n L o (ERelation s) (MkEntity (EKind s) (EID s) "")
                          else Some false) <$> subj)
            ++ ((fun r' => check n L o r' t) <$> rd_computed d)
            ++ mjoin ((fun p : string * string =>
                  match lookup_def (EKind t) p.2 with
                  | Some dc => (fun q => if allowed_subject dc q then check n L o p.1 q
                                         else Some false) <$> subjects L p.2 t
                  | None => []
                  end) <$> rd_from d))
      end
  end.

(** OpenFGA's default limit on the resolution depth. *)
Definition ref_depth : nat := 25.

Definition ref_guard {A} (m : M Ref A) : M Ref A := fun f =>
  if ref_down f then (f, Err ref_unavailable) else m f.

(** A token is the number of tuples already read, in unary. *)
Fixpoint token_of (n : nat) : string :=
  match n with 0%nat => "" | S n => String "x"%char (token_of n) end.

(** Reads are in the order of the keys, so that a token has a meaning that
    depends on the stored set alone. *)
Definition tuple_le (a b : Tuple) : Prop := (encode a <= encode b)%positive.
#[local] Instance tuple_le_dec a b : Decision (tuple_le a b).
Proof. unfold tuple_le. apply _. Defined.

Definition ref_page_list (L : list Tuple) (flt : Tuple) (tok : string) : list Tuple :=
  drop (String.length tok) (merge_sort tuple_le (remove_dups (filter (fun t => matches flt t = true) L))).

Definition ref_page_set (T : gset Tuple) (flt : Tuple) (tok : string) : gset Tuple :=
  list_to_set (ref_page_list (elements T) flt tok).

Definition ref_find (flt : Tuple) (ps : Z) (tok : string)
    : M Ref (list TimestampedTuple * string) := ref_guard (fun f =>
  let l := ref_page_list (ref_list f) flt tok in
  let n := page_limit ps in
  (f, Ok ((fun t => MkTT t 0) <$> take n l,
          if decide (n < length l)%nat then token_of (String.length tok + n) else ""))).

Definition ref_add (ts : list Tuple) : M Ref unit := ref_guard (fun f =>
  (MkRef (ref_list f ++ ts) (ref_down f), Ok tt)).

Definition ref_remove (ts : list Tuple) : M Ref unit := ref_guard (fun f =>
  (MkRef (filter (fun t => t ∉ ts) (ref_list f)) (ref_down f), Ok tt)).

Definition ref_decide (L : list Tuple) (t : Tuple) (ctx : list Tuple) : outcome bool :=
  match Object t, Target t with
  | Some o, Some g =>
      match check ref_depth (L ++ ctx) o (Relation t) g with
      | Some b => Ok b
      | None => Err ref_too_deep
      end
  | _, _ => Err ref_bad_request
  end.

Definition ref_check (t : Tuple) (ctx : list Tuple) : M Ref bool := ref_guard (fun f =>
  (f, ref_decide (ref_list f) t ctx)).

Fixpoint ref_batch_results (L : list Tuple) (l : list TupleWithCorrelationId)
    : outcome (gmap string bool) :=
  match l with
  | [] => Ok ∅
  | c :: l =>
      b ← ref_decide L (twc_Tuple c) (ContextualTuples_of c);
      m ← ref_batch_results L l;
      Ok (<[CorrelationId c := b]> m)
  end.

(** Correlation ids must be distinct and a batch has at most 50 checks. *)
Definition ref_batch (l : list TupleWithCorrelationId) : M Ref (gmap string bool) :=
  ref_guard (fun f =>
    if decide (NoDup (CorrelationId <$> l) /\ length l <= 50)%nat
    then (f, ref_batch_results (ref_list f) l)
    else (f, Err ref_bad_request)).

Definition ref_objects (t : Tuple) (ctx : list Tuple) : M Ref (list Entity) :=
  ref_guard (fun f =>
    match Object t, Target t with
    | Some u, Some g =>
        let L := ref_list f ++ ctx in
        let cands := remove_dups (omap Target L) in
        (f, Ok (filter (fun e => EKind e = EKind g /\
                          check ref_depth L u (Relation t) e = Some true) cands))
    | _, _ => (f, Err ref_bad_request)
    end).

Definition ref_users (t : Tuple) : M Ref (list Entity) := ref_guard (fun f =>
  match Target t with
  | Some g =>
      let L := ref_list f in
      let cands := remove_dups (omap Object L) in
      (f, Ok (filter (fun e => EKind e = UserTagKind /\
                        check ref_depth L e (Relation t) g = Some true) cands))
  | None => (f, Err ref_bad_request)
  end).

#[export] Instance Ref_server : OFGAServer Ref := {|
  srv_tuples := ref_tuples;
  page_set := ref_page_set;
  FindMatchingTuples := ref_find;
  AddRelationIdempotent := ref_add;
  RemoveRelationIdempotent := ref_remove;
  srv_CheckRelation := ref_check;
  srv_CheckRelationWithTracing := ref_check;
  srv_BatchCheckRelations := ref_batch;
  FindAccessibleObjectsByRelation := ref_objects;
  FindUsersByRelation := ref_users;
|}.

(** ** The search decides [holds] *)

Section check_correct.
Implicit Types L : list Tuple.

Lemma any3_true l : any3 l = Some true <-> Some true ∈ l.
Proof. unfold any3. repeat case_decide; naive_solver. Qed.

Lemma any3_false l x : any3 l = Some false -> x ∈ l -> x = Some false.
Proof.
  unfold any3. repeat case_decide; try done. intros _ Hin.
  destruct x as [[]|]; naive_solver.
Qed.

Lemma subjects_elem L r t o :
  o ∈ subjects L r t <-> edge o r t ∈ (list_to_set L : gset Tuple).
Proof.
  unfold subjects. rewrite list_elem_of_omap, elem_of_list_to_set. split.
  - intros (x & Hx & Hd). case_decide as Hrt; [|done].
    destruct x as [ob re ta], Hrt as [Hr Ht]. simpl in *. by subst.
  - intros Hin. exists (edge o r t). split; [done|].
    by rewrite decide_True.
Qed.

Lemma is_self_holds T o r t : is_self o r t = true -> holds T o r t.
Proof.
  unfold is_self. rewrite bool_decide_eq_true. intros (Hr & -> & Ht).
  destruct t as [k i rt]. simpl in *. subst rt. by constructor.
Qed.

Lemma check_sound n L o r t : check n L o r t = Some true -> holds (list_to_set L) o r t.
Proof.
  revert o r t. induction n as [|n IH]; intros o r t; [done|].
  cbn -[any3 app subjects is_self]. destruct (lookup_def (EKind t) r) as [d|] eqn:Hd.
  - rewrite any3_true. rewrite !elem_of_app, !elem_of_cons, elem_of_nil.
    intros [Hin|[Hin|[Hin|Hin]]].
    + destruct_or! Hin; try done; injection Hin as Hin; symmetry in Hin.
      * by apply is_self_holds.
      * apply andb_true_iff in Hin as [Hin Hal].
        apply bool_decide_eq_true, subjects_elem in Hin. by eapply holds_direct.
      * apply bool_decide_eq_true in Hin as (Hr & Hin & Hw).
        apply subjects_elem in Hin. by eapply holds_public.
    + apply list_elem_of_fmap in Hin as (s & Hs & Hin). case_decide as Hu; [|done].
      apply subjects_elem in Hin. destruct s as [k i m].
      eapply holds_userset; [done|done|done|]. by apply IH.
    + apply list_elem_of_fmap in Hin as (r' & Hs & Hin).
      eapply holds_computed; [done|done|]. by apply IH.
    + apply list_elem_of_join in Hin as (l & Hl & Hin).
      apply list_elem_of_fmap in Hin as ([r' c] & -> & Hf). simpl in Hl.
      destruct (lookup_def (EKind t) c) as [dc|] eqn:Hdc; [|by apply elem_of_nil in Hl].
      apply list_elem_of_fmap in Hl as (q & Hq & Hin).
      destruct (allowed_subject dc q) eqn:Hal; [|done].
      apply subjects_elem in Hin. eapply holds_from; [done..|]. by apply IH.
  - intros Hs. simplify_eq. by apply is_self_holds.
Qed.

Lemma check_complete n L o r t : holds (list_to_set L) o r t -> check n L o r t <> Some false.
Proof.
  intros Hh. revert n.
  induction Hh as [k i r Hr|o r t d Hd Hin Hal|o r t d Hd Ho Hin Hw|o r t d k i m Hd Hin Hu _ IH
    |o r t d r' Hd Hin _ IH|o r t d r' c p dc Hd Hf Hdc Hin Hal _ IH];
    intros [|n]; try done; cbn -[any3 app subjects is_self]; [|rewrite Hd; intros Hfalse..].
  - assert (is_self (MkEntity k i r) r (MkEntity k i "") = true) as Hs.
    { unfold is_self. by rewrite bool_decide_eq_true_2. }
    rewrite Hs. destruct (lookup_def k r); [|done]. intros Hfalse.
    apply (any3_false _ (Some true)) in Hfalse; [done|]. set_solver.
  - apply (any3_false _ (Some true)) in Hfalse; [done|].
    rewrite Hal, (bool_decide_eq_true_2 (o ∈ _)) by (by apply subjects_elem). set_solver.
  - apply (any3_false _ (Some true)) in Hfalse; [done|].
    rewrite (bool_decide_eq_true_2 (ERelation o = "" /\ _)); [set_solver|].
    split_and!; [done| |done]. by apply subjects_elem.
  - destruct (IH n). eapply any3_false; [exact Hfalse|].
    rewrite !elem_of_app. right; left. apply list_elem_of_fmap.
    exists (MkEntity k i m). simpl. split; [by rewrite decide_True|by apply subjects_elem].
  - destruct (IH n). eapply any3_false; [exact Hfalse|].
    rewrite !elem_of_app. right; right; left. apply list_elem_of_fmap. by exists r'.
  - destruct (IH n). eapply any3_false; [exact Hfalse|].
    rewrite !elem_of_app. right; right; right. apply list_elem_of_join.
    eexists. split; [|apply list_elem_of_fmap; eexists; split; [reflexivity|exact Hf]].
    simpl. rewrite Hdc. apply list_elem_of_fmap. exists p.
    rewrite Hal. split; [done|by apply subjects_elem].
Qed.

Lemma ref_decide_answer L t ctx b :
  ref_decide L t ctx = Ok b -> check_answer (list_to_set L) t ctx b.
Proof.
  unfold ref_decide, check_answer.
  destruct (Object t) as [o|]; [|done]. destruct (Target t) as [g|]; [|done].
  destruct (check _ _ o _ g) as [b'|] eqn:Hc; [|done]. intros Hb. simplify_eq.
  exists o, g. split_and!; [done..|]. rewrite <- list_to_set_app_L. split.
  - intros ->. by eapply check_sound.
  - intros Hh. destruct b; [done|]. by destruct (check_complete ref_depth _ _ _ _ Hh).
Qed.

Lemma ref_decide_answered L t ctx : answered (ref_decide L t ctx).
Proof. unfold ref_decide, answered. repeat case_match; done. Qed.

End check_correct.

(** ** The laws *)

Section laws.

Lemma ref_guard_wp {A} (m : M Ref A) (Q : outcome A -> Ref -> Prop) f :
  Q (Err ref_unavailable) f -> wp m Q f -> wp (ref_guard m) Q f.
Proof. unfold wp, ref_guard. intros Hd Hm. by destruct (ref_down f). Qed.

Lemma token_of_length n : String.length (token_of n) = n.
Proof. induction n as [|n IH]; simpl; [done|]. by rewrite IH. Qed.

Lemma token_of_nonempty n : (0 < n)%nat -> token_of n <> "".
Proof. destruct n; [lia|done]. Qed.

Lemma page_limit_pos ps : (0 < page_limit ps)%nat.
Proof. unfold page_limit. destruct (ps <=? 0)%Z eqn:H; [lia|]. apply Z.leb_gt in H. lia. Qed.

#[local] Instance tuple_le_total : Total tuple_le.
Proof. intros a b. unfold tuple_le. lia. Qed.
#[local] Instance tuple_le_trans : Transitive tuple_le.
Proof. intros a b c. unfold tuple_le. lia. Qed.
#[local] Instance tuple_le_antisym : AntiSymm (=) tuple_le.
Proof. intros a b Hab Hba. apply (inj encode). unfold tuple_le in *. lia. Qed.

Lemma ref_page_list_NoDup L flt tok : NoDup (ref_page_list L flt tok).
Proof.
  unfold ref_page_list. set (l := merge_sort _ _).
  apply (NoDup_app (take (String.length tok) l)). rewrite take_drop. unfold l.
  rewrite merge_sort_Permutation. apply NoDup_remove_dups.
Qed.

(** A page depends on the set of the tuples and not on the list. *)
Lemma ref_page_list_elements L flt tok :
  ref_page_list (elements (list_to_set L : gset Tuple)) flt tok = ref_page_list L flt tok.
Proof.
  unfold ref_page_list. f_equal. apply (Sorted_unique tuple_le); [apply Sorted_merge_sort; apply _..|].
  rewrite !merge_sort_Permutation. apply NoDup_Permutation; [apply NoDup_remove_dups..|].
  intros x. rewrite !elem_of_remove_dups, !list_elem_of_filter, elem_of_elements, elem_of_list_to_set. done.
Qed.

Lemma ref_page L flt ps tok :
  let l := ref_page_list L flt tok in
  let n := page_limit ps in
  page_law ref_page_set (list_to_set L) flt ps tok ((fun t => MkTT t 0) <$> take n l)
    (if decide (n < length l)%nat then token_of (String.length tok + n) else "").
Proof.
  intros l n. unfold page_law.
  assert (tt_Tuple <$> ((fun t => MkTT t 0) <$> take n l) = take n l) as ->.
  { rewrite <- list_fmap_compose. by apply list_fmap_id. }
  pose proof (ref_page_list_NoDup L flt tok) as Hnd. fold l in Hnd.
  rewrite <- (take_drop n l) in Hnd. apply NoDup_app in Hnd as (Hn1 & Hdis & _).
  split; [done|].
  assert (ref_page_set (list_to_set L) flt tok = list_to_set (take n l) ∪ list_to_set (drop n l)) as Hall.
  { unfold ref_page_set. rewrite ref_page_list_elements. fold l. by rewrite <- list_to_set_app_L, take_drop. }
  destruct (decide (n < length l)%nat) as [Hlt|Hge].
  - rewrite decide_False by (apply token_of_nonempty; pose proof (page_limit_pos ps); lia).
    assert (ref_page_set (list_to_set L) flt (token_of (String.length tok + n)) = list_to_set (drop n l)) as ->.
    { unfold ref_page_set. rewrite ref_page_list_elements. unfold ref_page_list.
      rewrite token_of_length, <- drop_drop. done. }
    split_and!; [done|clear Hall; set_solver|]. intros _. rewrite length_fmap, length_take. lia.
  - rewrite decide_True by done. rewrite Hall, (drop_ge l n) by lia. clear Hall. set_solver.
Qed.

Lemma ref_batch_law L l m :
  ref_batch_results L l = Ok m -> NoDup (CorrelationId <$> l) ->
  dom m = list_to_set (CorrelationId <$> l) /\
  forall c b, c ∈ l -> m !! CorrelationId c = Some b ->
    check_answer (list_to_set L) (twc_Tuple c) (ContextualTuples_of c) b.
Proof.
  revert m. induction l as [|c l IH]; intros m; simpl.
  - intros; simplify_eq. split; [set_solver|]. intros ? ? Hin. by apply elem_of_nil in Hin.
  - destruct (ref_decide L (twc_Tuple c) (ContextualTuples_of c)) as [b| | |] eqn:Hb; try done.
    simpl. destruct (ref_batch_results L l) as [m'| | |] eqn:Hm; try done. simpl.
    intros Heq [Hni Hnd]%NoDup_cons. simplify_eq.
    destruct (IH m' eq_refl Hnd) as [Hdom Hans]. split; [rewrite dom_insert_L, Hdom; done|].
    intros c' b' [->|Hin]%elem_of_cons Hlk.
    + rewrite lookup_insert_eq in Hlk. simplify_eq. by apply ref_decide_answer.
    + rewrite lookup_insert_ne in Hlk; [by eapply Hans|].
      intros Heq. apply Hni. rewrite Heq. by apply list_elem_of_fmap_2.
Qed.

Lemma ref_batch_answered L l : answered (ref_batch_results L l).
Proof.
  induction l as [|c l IH]; simpl; [done|].
  pose proof (ref_decide_answered L (twc_Tuple c) (ContextualTuples_of c)) as Hd.
  destruct (ref_decide _ _ _); simpl; try done.
  by destruct (ref_batch_results L l).
Qed.

#[export] Instance Ref_laws : OFGALaws Ref.
Proof.
  split; simpl.
  - intros T flt. unfold ref_page_set, ref_page_list, matching. simpl. rewrite drop_0.
    apply set_eq. intros x. rewrite elem_of_list_to_set, merge_sort_Permutation, elem_of_remove_dups,
      list_elem_of_filter, elem_of_filter, elem_of_elements. done.
  - intros flt ps tok f. apply ref_guard_wp; [done|]. split_and!; [done|done|]. apply ref_page.
  - intros ts f. apply ref_guard_wp; [done|]. unfold wp, ref_tuples. simpl.
    by rewrite list_to_set_app_L.
  - intros ts f. apply ref_guard_wp; [done|]. unfold wp, ref_tuples. simpl. split; [done|].
    apply set_eq. intros x. rewrite elem_of_difference, !elem_of_list_to_set, list_elem_of_filter. naive_solver.
  - intros t f f' e. unfold ref_add, ref_guard. destruct (ref_down f); intros; by simplify_eq.
  - intros t f f' e. unfold ref_remove, ref_guard. destruct (ref_down f); intros; by simplify_eq.
  - intros t ctx f. apply ref_guard_wp; [done|]. split_and!; [done|apply ref_decide_answered|].
    intros. by apply ref_decide_answer.
  - intros t ctx f. apply ref_guard_wp; [done|]. split_and!; [done|apply ref_decide_answered|].
    intros. by apply ref_decide_answer.
  - intros l f. apply ref_guard_wp; [done|]. unfold wp. case_decide as Hnd; [|done].
    destruct Hnd as [Hnd _]. split_and!; [done|apply ref_batch_answered|].
    intros m Hm. by apply ref_batch_law.
  - intros t ctx f. apply ref_guard_wp; [done|]. unfold wp.
    destruct (Object t) as [u|], (Target t) as [g|]; try done.
    split_and!; [done|done|]. intros l e Hl Hin. apply (inj Ok) in Hl; subst l.
    apply list_elem_of_filter in Hin as [[Hk Hc] _]. exists u, g.
    split_and!; [done..|]. unfold ref_tuples. rewrite <- list_to_set_app_L. by eapply check_sound.
  - intros t f. apply ref_guard_wp; [done|]. unfold wp. destruct (Target t) as [g|]; [|done].
    split_and!; [done|done|]. intros l e Hl Hin. apply (inj Ok) in Hl; subst l.
    apply list_elem_of_filter in Hin as [[Hk Hc] _]. exists g.
    split_and!; [done..|]. by eapply check_sound.
Qed.

End laws.
