(* ===== verification/OpenFGA.v ===== *)
(** * OpenFGA: JIMM's client of the authorisation service
    ([internal/openfga/openfga.go]).

    Every operation of [OFGAClient] is a function on the state of the service.
    The loop of [removeTuples] takes a fuel; [removeTuples_spec] shows that one
    more unit than there are removable tuples is enough, and what is left in
    the store.  The compound removals (models, offers, roles, groups, clouds)
    follow from it. *)

From S2P Require Import Prelude Errors Names AuthModel RefServer.

Definition resourceTypes : list string :=
  [UserTagKind; ModelTagKind; ControllerTagKind; ApplicationOfferTagKind;
   GroupTagKind; IdPGroupTagKind; RoleTagKind].

Definition BatchCheckSize : nat := 50.

(** [Entity.IsPublicAccess]: the wildcard id. *)
Definition IsPublicAccess (e : Entity) : bool := bool_decide (EID e = "*").

Definition publicAccessAdaptor (tt : TimestampedTuple) : outcome TimestampedTuple :=
  let t := tt_Tuple tt in
  match Object t with
  | None => Panic "nil pointer dereference"
  | Some o =>
      if bool_decide (EKind o = UserTagKind) && IsPublicAccess o
      then Ok (MkTT (MkTuple (Some (MkEntity (EKind o) EveryoneUser (ERelation o)))
                       (Relation t) (Target t)) (tt_Timestamp tt))
      else Ok tt
  end.

Section client.
Context {F : Type} `{OFGAServer F}.

Definition getRelatedObjects (tuple : Tuple) (pageSize : Z) (continuationToken : string)
    : M F (list Tuple * string) :=
  '(timestampedTuples, ct) ← FindMatchingTuples tuple pageSize continuationToken;
  tuples ← lift (mapM publicAccessAdaptor timestampedTuples);
  mret (tt_Tuple <$> tuples, ct).

Definition listObjects (user : Entity) (relation objType : string) (contextualTuples : list Tuple)
    : M F (list Entity) :=
  FindAccessibleObjectsByRelation
    (MkTuple (Some user) relation (Some (MkEntity objType "" ""))) contextualTuples.

Definition AddRelation (tuples : list Tuple) : M F unit := AddRelationIdempotent tuples.

Definition RemoveRelation (tuples : list Tuple) : M F unit := RemoveRelationIdempotent tuples.

Definition ListObjects := listObjects.

Definition ReadRelatedObjects := getRelatedObjects.

Definition CheckRelation (tuple : Tuple) (trace : bool) (contextualTuples : list Tuple) : M F bool :=
  if trace then srv_CheckRelationWithTracing tuple contextualTuples
  else srv_CheckRelation tuple contextualTuples.

(** [maps.Copy(results, batchResults)] overwrites: the batch comes first. *)
Fixpoint BatchCheckRelations_loop (bs : list (list TupleWithCorrelationId))
    (results : gmap string bool) : M F (gmap string bool) :=
  match bs with
  | [] => mret results
  | b :: bs =>
      batchResults ← srv_BatchCheckRelations b;
      BatchCheckRelations_loop bs (batchResults ∪ results)
  end.

Definition BatchCheckRelations (tuples : list TupleWithCorrelationId) : M F (gmap string bool) :=
  BatchCheckRelations_loop (batches BatchCheckSize tuples) ∅.

Definition missingEnds : gerror := New "missing object or target for relation".

Definition setResourceAccess (object target : option Tag) (relation : string) : M F unit :=
  match object, target with
  | Some object, Some target =>
      r ← try (AddRelation [MkTuple (Some (ConvertGenericTag object)) relation
                              (Some (ConvertGenericTag target))]);
      match r with
      | inl _ => mret tt
      | inr err =>
          if Contains (Error err) "cannot write a tuple which already exists"
          then mret tt else throw err
      end
  | _, _ => throw missingEnds
  end.

Definition unsetResourceAccess (object target : option Tag) (relation : string) : M F unit :=
  match object, target with
  | Some object, Some target =>
      r ← try (RemoveRelation [MkTuple (Some (ConvertGenericTag object)) relation
                                 (Some (ConvertGenericTag target))]);
      match r with
      | inl _ => mret tt
      | inr err =>
          if Contains (Error err) "cannot delete a tuple which does not exist"
          then mret tt else throw err
      end
  | _, _ => throw missingEnds
  end.

Fixpoint removeTuples (fuel : nat) (tuple : Tuple) : M F unit :=
  match fuel with
  | 0%nat => diverge
  | S fuel =>
      '(tuples, ct) ← ReadRelatedObjects tuple 50 "";
      _ ← (if decide (tuples = []) then mret tt else RemoveRelation tuples);
      if decide (ct = "") then mret tt else removeTuples fuel tuple
  end.

Definition AddControllerModel (controller model : Tag) : M F unit :=
  setResourceAccess (Some controller) (Some model) ControllerRelation.

Definition RemoveControllerModel (controller model : Tag) : M F unit :=
  unsetResourceAccess (Some controller) (Some model) ControllerRelation.

Definition RemoveModel (fuel : nat) (model : Tag) : M F unit :=
  _ ← removeTuples fuel (MkTuple None "" (Some (ConvertTag model)));
  offerKind ← lift (BlankKindTag ApplicationOfferTagKind);
  removeTuples fuel (MkTuple (Some (ConvertTag model)) "" (Some offerKind)).

Definition AddModelApplicationOffer (model offer : Tag) : M F unit :=
  setResourceAccess (Some model) (Some offer) ModelRelation.

Definition RemoveApplicationOffer (fuel : nat) (offer : Tag) : M F unit :=
  removeTuples fuel (MkTuple None "" (Some (ConvertTag offer))).

(** The second half of [RemoveRole] and [RemoveGroup]: the tuples whose object
    is the userset, kind by kind. *)
Definition removeUsersetAccess (fuel : nat) (userset : Entity) : M F unit :=
  for_range resourceTypes (fun kind =>
    kt ← lift (BlankKindTag kind);
    removeTuples fuel (MkTuple (Some userset) "" (Some kt))).

Definition RemoveRole (fuel : nat) (role : Tag) : M F unit :=
  _ ← removeTuples fuel (MkTuple None AssigneeRelation (Some (ConvertTag role)));
  removeUsersetAccess fuel (ConvertTagWithRelation role AssigneeRelation).

Definition RemoveGroup (fuel : nat) (group : Tag) : M F unit :=
  _ ← removeTuples fuel (MkTuple None MemberRelation (Some (ConvertTag group)));
  removeUsersetAccess fuel (ConvertTagWithRelation group MemberRelation).

Definition RemoveCloud (fuel : nat) (cloud : Tag) : M F unit :=
  removeTuples fuel (MkTuple None "" (Some (ConvertTag cloud))).

Definition AddCloudController (cloud controller : Tag) : M F unit :=
  setResourceAccess (Some controller) (Some cloud) ControllerRelation.

Definition AddController (jimm controller : Tag) : M F unit :=
  setResourceAccess (Some jimm) (Some controller) ControllerRelation.

End client.

(** ** What a removal removes

    Reading replaces the wildcard user by [everyone@external] before the
    tuples are removed, so the removal of a wildcard tuple does not name the
    stored tuple. *)

Definition is_public (t : Tuple) : bool :=
  match Object t with
  | Some o => bool_decide (EKind o = UserTagKind) && IsPublicAccess o
  | None => false
  end.

Definition removable (flt t : Tuple) : bool := matches flt t && negb (is_public t).

Definition removed (flt : Tuple) (T : gset Tuple) : gset Tuple :=
  filter (fun t => removable flt t = true) T.

Definition public_matching (flt : Tuple) (T : gset Tuple) : gset Tuple :=
  filter (fun t => is_public t = true) (matching flt T).

(** Filters whose object, if any, is not the wildcard user. *)
Definition plain_filter (flt : Tuple) : Prop :=
  forall o, Object flt = Some o -> EKind o = UserTagKind -> EID o <> "*".

(** The adapted form of a tuple. *)
Definition adapted (t : Tuple) : Tuple :=
  match Object t with
  | Some o => if is_public t
              then MkTuple (Some (MkEntity (EKind o) EveryoneUser (ERelation o))) (Relation t) (Target t)
              else t
  | None => t
  end.

Section adaptor_facts.

Lemma adapted_plain t : is_public t = false -> adapted t = t.
Proof. intros Hp. unfold adapted. destruct (Object t); [|done]. by rewrite Hp. Qed.

Lemma adapted_not_public t : is_public (adapted t) = false.
Proof.
  unfold adapted. destruct (Object t) as [o|] eqn:Ho; [|by unfold is_public; rewrite Ho].
  destruct (is_public t) eqn:Hp; [|done]. unfold is_public. simpl.
  unfold IsPublicAccess. simpl. by rewrite andb_false_r.
Qed.

(** Adapting keeps relation and target, hence the match of a filter without
    object. *)
Lemma adapted_matches flt t :
  plain_filter flt -> matches flt t = true -> matches flt (adapted t) = true.
Proof.
  intros Hpl Hm. destruct (is_public t) eqn:Hp; [|by rewrite adapted_plain].
  unfold matches, adapted, is_public in *. destruct (Object t) as [o|] eqn:Ho; [|done].
  rewrite Hp. simpl. destruct (Object flt) as [fo|] eqn:Hf; [|done].
  apply andb_true_iff in Hm as [[Hm _]%andb_true_iff _]. apply bool_decide_eq_true in Hm.
  simplify_eq. apply andb_true_iff in Hp as [Hk%bool_decide_eq_true Hi%bool_decide_eq_true].
  by destruct (Hpl fo Hf).
Qed.

Lemma publicAccessAdaptor_ok tt tt' :
  publicAccessAdaptor tt = Ok tt' -> tt_Tuple tt' = adapted (tt_Tuple tt).
Proof.
  unfold publicAccessAdaptor, adapted, is_public.
  destruct (Object (tt_Tuple tt)) as [o|]; [|done].
  by destruct (bool_decide _ && _); intros; simplify_eq.
Qed.

Lemma mapM_adaptor_ok l l' :
  mapM publicAccessAdaptor l = Ok l' -> tt_Tuple <$> l' = adapted <$> (tt_Tuple <$> l).
Proof.
  unfold mret, outcome_ret.
  revert l'. induction l as [|x l IH]; intros l'; simpl; [intros Hl; by apply (inj Ok) in Hl as <-|].
  destruct (publicAccessAdaptor x) as [y| | |] eqn:Hx; try done. simpl.
  destruct (mapM publicAccessAdaptor l) as [ys| | |] eqn:Hl; try done. simpl.
  intros Hl'. apply (inj Ok) in Hl' as <-.
  by rewrite !fmap_cons, (publicAccessAdaptor_ok _ _ Hx), (IH ys).
Qed.

Lemma mapM_adaptor_answered l : answered (mapM publicAccessAdaptor l).
Proof.
  unfold answered. induction l as [|x l IH]; simpl; [done|].
  assert (publicAccessAdaptor x <> OutOfFuel) as Hx.
  { unfold publicAccessAdaptor. by repeat case_match. }
  destruct (publicAccessAdaptor x); simpl; try done.
  by destruct (mapM publicAccessAdaptor l).
Qed.

(** One step of the removal leaves exactly the removable tuples that were not
    in the page. *)
Lemma removed_step flt T (l : list Tuple) T' :
  T' = T ∖ list_to_set (adapted <$> l) ->
  plain_filter flt -> (forall t, t ∈ l -> t ∈ matching flt T) ->
  T' ∖ removed flt T' = T ∖ removed flt T /\
  public_matching flt T' = public_matching flt T /\
  removed flt T' = removed flt T ∖ list_to_set (adapted <$> l).
Proof.
  intros -> Hpl Hl.
  assert (forall t, t ∈ (list_to_set (adapted <$> l) : gset Tuple) ->
            removable flt t = true) as Had.
  { intros t (x & -> & Hx)%elem_of_list_to_set%list_elem_of_fmap. unfold removable.
    rewrite adapted_not_public, andb_true_r. apply adapted_matches; [done|].
    apply Hl in Hx. by apply elem_of_filter in Hx as [? _]. }
  assert (forall t, is_public t = true -> removable flt t = false) as Hpub.
  { intros t Ht. unfold removable. by rewrite Ht, andb_false_r. }
  split_and!; apply set_eq; intros t; unfold removed, public_matching, matching;
    repeat rewrite ?elem_of_difference, ?elem_of_filter; specialize (Had t).
  - destruct (removable flt t); naive_solver.
  - specialize (Hpub t). split; [naive_solver|]. intros (Hp & Hm & Hin).
    split_and!; try done. intros Hn. apply Had in Hn. by rewrite Hpub in Hn.
  - naive_solver.
Qed.

End adaptor_facts.

Section client_facts.
Context {F : Type} `{OFGALaws F}.
Implicit Types (f : F).

Lemma getRelatedObjects_spec flt ps tok f :
  wp (getRelatedObjects flt ps tok) (fun o f' =>
    srv_tuples f' = srv_tuples f /\ answered o /\
    match o with
    | Ok (ts, ct) => exists l, ts = adapted <$> (tt_Tuple <$> l) /\
        page_law page_set (srv_tuples f) flt ps tok l ct
    | _ => True
    end) f.
Proof.
  unfold getRelatedObjects. apply wp_bind.
  eapply wp_mono; [apply law_find|]. intros o f' (HT & Hans & Hp).
  destruct o as [[l ct]| | |]; simpl; try done.
  apply wp_bind, wp_lift. pose proof (mapM_adaptor_answered l) as Ha.
  destruct (mapM publicAccessAdaptor l) as [l'| | |] eqn:Hm; simpl; try done.
  apply wp_ret. split_and!; [done|done|]. exists l.
  split; [by apply mapM_adaptor_ok|done].
Qed.

Lemma page_limit_50 : page_limit 50 = 50%nat.
Proof. done. Qed.

(** A full page with few public tuples has a removable tuple. *)
Lemma page_has_removable T flt (l : list Tuple) :
  NoDup l -> (forall t, t ∈ l -> t ∈ matching flt T) ->
  (size (public_matching flt T) < length l)%nat ->
  exists t, t ∈ l /\ is_public t = false /\ t ∈ removed flt T.
Proof.
  intros Hnd Hl Hs.
  destruct (decide (Exists (fun t => is_public t = false) l)) as [Hex|Hno].
  - apply Exists_exists in Hex as (t & Hin & Hp). exists t. split_and!; [done|done|].
    apply Hl, elem_of_filter in Hin as [Hm Hin]. apply elem_of_filter.
    unfold removable. by rewrite Hm, Hp.
  - exfalso. apply not_Exists_Forall in Hno; [|solve_decision].
    assert ((list_to_set l : gset Tuple) ⊆ public_matching flt T) as Hsub.
    { intros t Hin%elem_of_list_to_set. apply elem_of_filter.
      rewrite Forall_forall in Hno. specialize (Hno t Hin). simpl in Hno.
      split; [by destruct (is_public t)|by apply Hl]. }
    apply subseteq_size in Hsub. rewrite size_list_to_set in Hsub by done. lia.
Qed.

(** What a removal guarantees: it answers; whatever the outcome, only
    removable tuples are gone; and on success all of them are. *)
Definition removal_post (gone : gset Tuple) (T : gset Tuple) (o : outcome unit) (f' : F) : Prop :=
  answered o /\ T ∖ gone ⊆ srv_tuples f' /\ srv_tuples f' ⊆ T /\
  (o = Ok tt -> srv_tuples f' = T ∖ gone).

Lemma removal_post_same gone T o f' :
  answered o -> o <> Ok tt -> srv_tuples f' = T -> removal_post gone T o f'.
Proof. intros Ha Ho <-. unfold removal_post. split_and!; [done|set_solver|done|done]. Qed.

Lemma removeTuples_wp fuel flt f :
  plain_filter flt -> (size (removed flt (srv_tuples f)) < fuel)%nat ->
  (size (public_matching flt (srv_tuples f)) < 50)%nat ->
  wp (removeTuples fuel flt) (removal_post (removed flt (srv_tuples f)) (srv_tuples f)) f.
Proof.
  intros Hpl. revert f. induction fuel as [|fuel IH]; intros f Hfuel Hpub; [lia|].
  cbn [removeTuples]. apply wp_bind. unfold ReadRelatedObjects.
  eapply wp_mono; [apply getRelatedObjects_spec|]. intros o f1 (HT1 & Hans & Hpage).
  destruct o as [[ts ct]| | |]; simpl; try (by apply removal_post_same).
  destruct Hpage as (l & -> & Hnd & Hset & Hdis & Hfull).
  rewrite law_page_start in Hset.
  assert (forall t, t ∈ tt_Tuple <$> l -> t ∈ matching flt (srv_tuples f)) as Hl.
  { intros t Hin. rewrite Hset. set_solver. }
  apply wp_bind.
  apply (wp_mono _ (fun o f2 => answered o /\
           srv_tuples f2 = match o with
             | Ok _ => srv_tuples f ∖ list_to_set (adapted <$> (tt_Tuple <$> l))
             | _ => srv_tuples f end)).
  { destruct (decide (_ = [])) as [He|He].
    - wp_value. rewrite He. split; [done|]. rewrite HT1. set_solver.
    - unfold RemoveRelation. eapply wp_mono; [apply law_remove|].
      intros o f2 [Ha Hs]. split; [done|]. by rewrite Hs, HT1. }
  intros o f2 [Ha Hs]. destruct o as [[]| | |]; simpl; try (by apply removal_post_same).
  destruct (removed_step _ _ _ _ Hs Hpl Hl) as (Hrem & Hpubl & Hsz).
  destruct (decide (ct = "")) as [Hct|Hct].
  - assert (removed flt (srv_tuples f2) = ∅) as He.
    { rewrite Hsz. apply set_eq. intros t. unfold removed.
      rewrite elem_of_difference, elem_of_filter. split; [|set_solver].
      intros [[Hr Hin] Hn]. destruct Hn. unfold removable in Hr.
      apply andb_true_iff in Hr as [Hm Hp%negb_true_iff].
      assert (t ∈ matching flt (srv_tuples f)) as Hmt by (by apply elem_of_filter).
      rewrite Hset in Hmt. apply elem_of_list_to_set, list_elem_of_fmap.
      exists t. split; [by rewrite adapted_plain|]. set_solver. }
    rewrite He in Hrem.
    wp_value. unfold removal_post. rewrite <- Hrem.
    split_and!; [done|set_solver|rewrite Hs; set_solver|set_solver].
  - destruct (page_has_removable (srv_tuples f) flt (tt_Tuple <$> l)) as (t & Htl & Htp & Htr);
      [done|done|rewrite length_fmap, (Hfull Hct), page_limit_50; done|].
    eapply wp_mono; [apply IH|].
    + rewrite Hsz. assert (removed flt (srv_tuples f) ∖ list_to_set (adapted <$> (tt_Tuple <$> l))
        ⊂ removed flt (srv_tuples f)) as Hlt%subset_size; [|lia].
      split; [set_solver|]. intros Heq.
      apply Heq, elem_of_difference in Htr as [_ Hn]. destruct Hn.
      apply elem_of_list_to_set, list_elem_of_fmap. exists t. by rewrite adapted_plain.
    + by rewrite Hpubl.
    + intros o f' (Hao & Hlow & Hup & Ho). rewrite Hrem in Hlow.
      unfold removal_post. split_and!; [done|done|rewrite Hs in Hup; set_solver|].
      intros Hok. by rewrite (Ho Hok), Hrem.
Qed.

(** The tuples removed by a sequence of filters. *)
Definition removed_any (flts : list Tuple) (T : gset Tuple) : gset Tuple :=
  filter (fun t => existsb (fun flt => removable flt t) flts = true) T.

Lemma removed_any_cons flt flts T :
  removed_any (flt :: flts) T = removed flt T ∪ removed_any flts (T ∖ removed flt T).
Proof.
  apply set_eq. intros t. unfold removed_any, removed. simpl.
  rewrite elem_of_union, !elem_of_filter, elem_of_difference, elem_of_filter.
  destruct (removable flt t); simpl; naive_solver.
Qed.

Lemma removed_subseteq flt T : removed flt T ⊆ T.
Proof. intros t Ht. by apply elem_of_filter in Ht as [_ ?]. Qed.

Lemma removed_size flt T : (size (removed flt T) <= size T)%nat.
Proof. apply subseteq_size, removed_subseteq. Qed.

Lemma public_matching_mono flt T T' :
  T' ⊆ T -> (size (public_matching flt T') <= size (public_matching flt T))%nat.
Proof. intros Hs. apply subseteq_size. unfold public_matching, matching. set_solver. Qed.

(** A filter on a userset never matches the wildcard user. *)
Lemma public_matching_userset o r g T :
  ~ (EKind o = UserTagKind /\ EID o = "*") ->
  public_matching (MkTuple (Some o) r g) T = ∅.
Proof.
  intros Ho. apply set_eq. intros t. unfold public_matching, matching.
  rewrite !elem_of_filter. split; [|set_solver]. intros (Hp & Hm & _). exfalso.
  unfold matches in Hm. simpl in Hm. rewrite !andb_true_iff, bool_decide_eq_true in Hm.
  destruct Hm as [[Hm _] _]. unfold is_public in Hp. rewrite Hm in Hp.
  apply andb_true_iff in Hp as [Hk%bool_decide_eq_true Hi%bool_decide_eq_true]. tauto.
Qed.

Definition good_filter (T : gset Tuple) (flt : Tuple) : Prop :=
  plain_filter flt /\ (size (public_matching flt T) < 50)%nat.

(** One removal of a sequence, followed by the others. *)
Lemma removal_seq fuel flt flts (k : unit -> M F unit) f :
  good_filter (srv_tuples f) flt -> (size (srv_tuples f) < fuel)%nat ->
  (forall f1, srv_tuples f1 = srv_tuples f ∖ removed flt (srv_tuples f) ->
     wp (k tt) (removal_post (removed_any flts (srv_tuples f1)) (srv_tuples f1)) f1) ->
  wp (removeTuples fuel flt ≫= k)
     (removal_post (removed_any (flt :: flts) (srv_tuples f)) (srv_tuples f)) f.
Proof.
  intros [Hpl Hpub] Hfuel Hk. apply wp_bind.
  eapply wp_mono; [apply removeTuples_wp; [done|pose proof (removed_size flt (srv_tuples f)); lia|done]|].
  intros o f1 (Ha & Hlow & Hup & Hok). rewrite removed_any_cons.
  destruct o as [[]| | |]; simpl;
    try (unfold removal_post; split_and!; [done|set_solver|done|done]).
  specialize (Hok eq_refl). eapply wp_mono; [by apply Hk|].
  intros o f2. rewrite Hok. intros (Ha2 & Hl2 & Hu2 & Ho2).
  unfold removal_post. split_and!; [done|set_solver|set_solver|].
  intros Hokk. rewrite (Ho2 Hokk). set_solver.
Qed.

Lemma removed_any_nil T : removed_any [] T = ∅.
Proof. apply set_eq. intros t. unfold removed_any. rewrite elem_of_filter. simpl. set_solver. Qed.

Lemma removal_nil f : wp (mret tt) (removal_post (removed_any [] (srv_tuples f)) (srv_tuples f)) f.
Proof.
  wp_value. rewrite removed_any_nil. unfold removal_post.
  split_and!; [done|set_solver|done|set_solver].
Qed.

Lemma removal_last fuel flt f :
  good_filter (srv_tuples f) flt -> (size (srv_tuples f) < fuel)%nat ->
  wp (removeTuples fuel flt)
     (removal_post (removed_any [flt] (srv_tuples f)) (srv_tuples f)) f.
Proof.
  intros [Hpl Hpub] Hfuel. rewrite removed_any_cons, removed_any_nil, union_empty_r_L.
  apply removeTuples_wp; [done|pose proof (removed_size flt (srv_tuples f)); lia|done].
Qed.

Lemma good_filter_mono T T' flt : T' ⊆ T -> good_filter T flt -> good_filter T' flt.
Proof.
  intros Hs [Hpl Hpub]. split; [done|]. pose proof (public_matching_mono flt T T' Hs). lia.
Qed.

Lemma good_userset_filter T o r g :
  ~ (EKind o = UserTagKind /\ EID o = "*") -> good_filter T (MkTuple (Some o) r g).
Proof.
  intros Ho. split.
  - intros o' Heq Hk Hi. simpl in Heq. simplify_eq. tauto.
  - rewrite public_matching_userset by done. rewrite size_empty. lia.
Qed.

(** ** Grants and revocations of one tuple *)

Definition grant_edge (object target : Tag) (relation : string) : Tuple :=
  edge (ConvertGenericTag object) relation (ConvertGenericTag target).

(** [setResourceAccess] and [unsetResourceAccess] on present ends: the tuple is
    in the store after a success, out of it for the revocation, and a failure
    changes nothing. *)
Lemma setResourceAccess_wp object target relation f :
  wp (setResourceAccess (Some object) (Some target) relation) (fun o f' => answered o /\
    srv_tuples f' = match o with
      | Ok _ => srv_tuples f ∪ {[grant_edge object target relation]}
      | _ => srv_tuples f end) f.
Proof.
  unfold setResourceAccess, AddRelation. apply wp_bind, wp_try.
  fold (grant_edge object target relation). unfold grant_edge, edge.
  set (t := MkTuple _ _ _).
  pose proof (law_add [t] f) as Hl. pose proof (law_add_exists t f) as He.
  unfold wp in *. destruct (AddRelationIdempotent [t] f) as [f1 [[]|e|s|]];
    simpl; destruct Hl as [Ha Hs]; try done.
  - split; [done|]. rewrite Hs. set_solver.
  - destruct (Contains (Error e) _) eqn:Hc; simpl; [|done].
    split; [done|]. rewrite Hs. specialize (He _ _ eq_refl Hc). clear Hs. set_solver.
Qed.

Lemma unsetResourceAccess_wp object target relation f :
  wp (unsetResourceAccess (Some object) (Some target) relation) (fun o f' => answered o /\
    srv_tuples f' = match o with
      | Ok _ => srv_tuples f ∖ {[grant_edge object target relation]}
      | _ => srv_tuples f end) f.
Proof.
  unfold unsetResourceAccess, RemoveRelation. apply wp_bind, wp_try.
  fold (grant_edge object target relation). unfold grant_edge, edge.
  set (t := MkTuple _ _ _).
  pose proof (law_remove [t] f) as Hl. pose proof (law_remove_missing t f) as He.
  unfold wp in *. destruct (RemoveRelationIdempotent [t] f) as [f1 [[]|e|s|]];
    simpl; destruct Hl as [Ha Hs]; try done.
  - split; [done|]. rewrite Hs. set_solver.
  - destruct (Contains (Error e) _) eqn:Hc; simpl; [|done].
    split; [done|]. rewrite Hs. specialize (He _ _ eq_refl Hc). clear Hs. set_solver.
Qed.

(** ** Compound removals *)

Definition kind_filter (e : Entity) (kind : string) : Tuple :=
  MkTuple (Some e) "" (Some (MkEntity kind "" "")).

Definition userset_filters (e : Entity) : list Tuple := kind_filter e <$> resourceTypes.

Definition group_filters (group : Tag) : list Tuple :=
  MkTuple None MemberRelation (Some (ConvertTag group))
  :: userset_filters (ConvertTagWithRelation group MemberRelation).

Definition role_filters (role : Tag) : list Tuple :=
  MkTuple None AssigneeRelation (Some (ConvertTag role))
  :: userset_filters (ConvertTagWithRelation role AssigneeRelation).

Definition model_filters (model : Tag) : list Tuple :=
  [MkTuple None "" (Some (ConvertTag model));
   kind_filter (ConvertTag model) ApplicationOfferTagKind].

Lemma removeUsersetAccess_wp fuel e ks f :
  ~ (EKind e = UserTagKind /\ EID e = "*") ->
  Forall (fun k => BlankKindTag k = Ok (MkEntity k "" "")) ks ->
  (size (srv_tuples f) < fuel)%nat ->
  wp (for_range ks (fun kind => kt ← lift (BlankKindTag kind);
                                removeTuples fuel (MkTuple (Some e) "" (Some kt))))
     (removal_post (removed_any (kind_filter e <$> ks) (srv_tuples f)) (srv_tuples f)) f.
Proof.
  intros He Hks. revert f. induction Hks as [|k ks Hk Hks IH]; intros f Hfuel.
  - apply removal_nil.
  - cbn [for_range]. rewrite Hk. rewrite fmap_cons.
    apply (removal_seq fuel (kind_filter e k)); [by apply good_userset_filter|done|].
    intros f1 Hf1. apply IH. rewrite Hf1.
    pose proof (subseteq_size (srv_tuples f ∖ removed (kind_filter e k) (srv_tuples f))
                  (srv_tuples f)). specialize (H1 ltac:(set_solver)). lia.
Qed.

Lemma resourceTypes_blank :
  Forall (fun k => BlankKindTag k = Ok (MkEntity k "" "")) resourceTypes.
Proof. repeat constructor. Qed.

Lemma remove_userset_wp fuel t r f :
  Kind t <> UserTagKind -> (size (srv_tuples f) < fuel)%nat ->
  let flt := MkTuple None r (Some (ConvertTag t)) in
  (size (public_matching flt (srv_tuples f)) < 50)%nat ->
  wp (_ ← removeTuples fuel flt; removeUsersetAccess fuel (ConvertTagWithRelation t r))
     (removal_post (removed_any (flt :: userset_filters (ConvertTagWithRelation t r))
                      (srv_tuples f)) (srv_tuples f)) f.
Proof.
  intros Hk Hfuel flt Hpub. apply removal_seq; [done|done|].
  intros f1 Hf1. apply removeUsersetAccess_wp; [|apply resourceTypes_blank|].
  - simpl. intros [Hu _]. done.
  - rewrite Hf1. pose proof (subseteq_size (srv_tuples f ∖ removed flt (srv_tuples f))
                  (srv_tuples f)). specialize (H1 ltac:(set_solver)). lia.
Qed.

End client_facts.

(** ** Properties *)

Section properties.
Context {F : Type} `{OFGALaws F}.
Implicit Types (f : F).

(** [removeTuples] ends with one unit of fuel more than there are
    removable tuples (as long as fewer than a page of wildcard tuples match);
    whatever happens it removes nothing but removable tuples, and when it
    succeeds all of them are gone and nothing else is. *)
Theorem removeTuples_exact fuel flt f f' o :
  plain_filter flt ->
  (size (removed flt (srv_tuples f)) < fuel)%nat ->
  (size (public_matching flt (srv_tuples f)) < 50)%nat ->
  removeTuples fuel flt f = (f', o) ->
  o <> OutOfFuel /\
  srv_tuples f ∖ removed flt (srv_tuples f) ⊆ srv_tuples f' /\ srv_tuples f' ⊆ srv_tuples f /\
  (o = Ok tt -> srv_tuples f' = srv_tuples f ∖ removed flt (srv_tuples f)).
Proof. intros Hpl Hf Hp Hrun. exact (wp_elim _ _ _ _ _ (removeTuples_wp _ _ _ Hpl Hf Hp) Hrun). Qed.

(** A wildcard tuple (public access) that a removal reads is still in
    the store after the removal succeeded. *)
Theorem removeTuples_keeps_public fuel flt f f' t :
  plain_filter flt ->
  (size (removed flt (srv_tuples f)) < fuel)%nat ->
  (size (public_matching flt (srv_tuples f)) < 50)%nat ->
  removeTuples fuel flt f = (f', Ok tt) ->
  t ∈ public_matching flt (srv_tuples f) -> t ∈ srv_tuples f'.
Proof.
  intros Hpl Hf Hp Hrun.
  destruct (wp_elim _ _ _ _ _ (removeTuples_wp _ _ _ Hpl Hf Hp) Hrun) as (_ & _ & _ & Hok). rewrite (Hok eq_refl).
  unfold public_matching, matching, removed. rewrite elem_of_difference, !elem_of_filter.
  intros (Hpub & _ & Hin). split; [done|]. unfold removable. rewrite Hpub, andb_false_r. naive_solver.
Qed.

(** [RemoveGroup] ends, removes at most the tuples of the group's
    members and the grants made to [group#member] on the resource kinds it
    visits (wildcard members excepted), and on success removes exactly
    these. *)
Theorem RemoveGroup_exact fuel group f f' o :
  Kind group = GroupTagKind -> (size (srv_tuples f) < fuel)%nat ->
  (size (public_matching (MkTuple None MemberRelation (Some (ConvertTag group)))
           (srv_tuples f)) < 50)%nat ->
  RemoveGroup fuel group f = (f', o) ->
  let gone := removed_any (group_filters group) (srv_tuples f) in
  o <> OutOfFuel /\ srv_tuples f ∖ gone ⊆ srv_tuples f' /\ srv_tuples f' ⊆ srv_tuples f /\
  (o = Ok tt -> srv_tuples f' = srv_tuples f ∖ gone).
Proof.
  intros Hk Hf Hp Hrun. refine (wp_elim _ _ _ _ _ (remove_userset_wp _ _ _ _ _ Hf Hp) Hrun).
  by rewrite Hk.
Qed.

(** [RemoveRole] likewise removes exactly the assignments of the role
    and the grants made to [role#assignee] on the kinds it visits. *)
Theorem RemoveRole_exact fuel role f f' o :
  Kind role = RoleTagKind -> (size (srv_tuples f) < fuel)%nat ->
  (size (public_matching (MkTuple None AssigneeRelation (Some (ConvertTag role)))
           (srv_tuples f)) < 50)%nat ->
  RemoveRole fuel role f = (f', o) ->
  let gone := removed_any (role_filters role) (srv_tuples f) in
  o <> OutOfFuel /\ srv_tuples f ∖ gone ⊆ srv_tuples f' /\ srv_tuples f' ⊆ srv_tuples f /\
  (o = Ok tt -> srv_tuples f' = srv_tuples f ∖ gone).
Proof.
  intros Hk Hf Hp Hrun. refine (wp_elim _ _ _ _ _ (remove_userset_wp _ _ _ _ _ Hf Hp) Hrun).
  by rewrite Hk.
Qed.

(** [RemoveModel] removes exactly the tuples on the model (wildcard
    tuples excepted) and the links from the model to its application offers. *)
Theorem RemoveModel_exact fuel model f f' o :
  Kind model = ModelTagKind -> (size (srv_tuples f) < fuel)%nat ->
  (size (public_matching (MkTuple None "" (Some (ConvertTag model))) (srv_tuples f)) < 50)%nat ->
  RemoveModel fuel model f = (f', o) ->
  let gone := removed_any (model_filters model) (srv_tuples f) in
  o <> OutOfFuel /\ srv_tuples f ∖ gone ⊆ srv_tuples f' /\ srv_tuples f' ⊆ srv_tuples f /\
  (o = Ok tt -> srv_tuples f' = srv_tuples f ∖ gone).
Proof.
  intros Hk Hf Hp Hrun. refine (wp_elim _ (removal_post _ _) _ _ _ _ Hrun).
  apply removal_seq; [done|done|].
  intros f1 Hf1. apply removal_last.
  - apply good_userset_filter. simpl. by intros [Hu _]; rewrite Hk in Hu.
  - rewrite Hf1. eapply Nat.le_lt_trans; [apply subseteq_size|exact Hf]. set_solver.
Qed.

(** The grants of a removed group on clouds survive: the kinds visited
    by [RemoveGroup] do not include clouds, so a tuple giving [group#member] a
    relation to a cloud is still stored after the group was removed. *)
Theorem RemoveGroup_keeps_cloud_grants fuel group f f' r cloud :
  Kind group = GroupTagKind -> (size (srv_tuples f) < fuel)%nat ->
  (size (public_matching (MkTuple None MemberRelation (Some (ConvertTag group)))
           (srv_tuples f)) < 50)%nat ->
  RemoveGroup fuel group f = (f', Ok tt) ->
  let grant := edge (ConvertTagWithRelation group MemberRelation) r
                    (MkEntity CloudTagKind cloud "") in
  grant ∈ srv_tuples f -> grant ∈ srv_tuples f'.
Proof.
  intros Hk Hf Hp Hrun grant Hin.
  destruct (wp_elim _ _ _ _ _ (remove_userset_wp _ _ _ _ ltac:(by rewrite Hk) Hf Hp) Hrun)
    as (_ & _ & _ & Hok). rewrite (Hok eq_refl).
  rewrite elem_of_difference. split; [done|]. unfold removed_any. rewrite elem_of_filter.
  intros [Hex _]. apply existsb_exists in Hex as (flt & Hflt & Hrem).
  unfold removable in Hrem. apply andb_true_iff in Hrem as [Hm _].
  assert (forall e, Target flt = Some e -> EKind e = CloudTagKind) as Hcloud.
  { intros e He. unfold matches in Hm. rewrite He in Hm. simpl in Hm.
    apply andb_true_iff in Hm as [_ Hm]. unfold target_matches in Hm.
    apply andb_true_iff in Hm as [Hm _]. by apply bool_decide_eq_true in Hm. }
  destruct Hflt as [<-|Hflt].
  - specialize (Hcloud _ eq_refl). simpl in Hcloud. by rewrite Hk in Hcloud.
  - apply list_elem_of_In, list_elem_of_fmap in Hflt as (k & -> & Hkin).
    specialize (Hcloud _ eq_refl). simpl in Hcloud. subst k.
    unfold resourceTypes in Hkin. rewrite !elem_of_cons, elem_of_nil in Hkin.
    by destruct_or! Hkin.
Qed.

(** The running map of [BatchCheckRelations] answers for the batches sent. *)
Lemma BatchCheckRelations_loop_wp T (bs : list (list TupleWithCorrelationId))
    (done_ : list TupleWithCorrelationId) (res : gmap string bool) f :
  srv_tuples f = T -> NoDup (CorrelationId <$> done_ ++ mjoin bs) ->
  (forall c, c ∈ done_ -> exists b, res !! CorrelationId c = Some b /\
     check_answer T (twc_Tuple c) (ContextualTuples_of c) b) ->
  dom res = list_to_set (CorrelationId <$> done_) ->
  wp (BatchCheckRelations_loop bs res) (fun o f' => srv_tuples f' = T /\ answered o /\
    forall m, o = Ok m -> dom m = list_to_set (CorrelationId <$> done_ ++ mjoin bs) /\
      forall c, c ∈ done_ ++ mjoin bs -> exists b, m !! CorrelationId c = Some b /\
        check_answer T (twc_Tuple c) (ContextualTuples_of c) b) f.
Proof.
  revert done_ res f. induction bs as [|b bs IH]; intros dn res f HT Hnd Hres Hdom.
  - wp_value. simpl. rewrite app_nil_r. split_and!; [done|done|]. intros m Hm.
    apply (inj Ok) in Hm as <-. done.
  - change (mjoin (b :: bs)) with (b ++ mjoin bs) in Hnd |- *. rewrite app_assoc in Hnd |- *.
    cbn [BatchCheckRelations_loop]. apply wp_bind.
    eapply wp_mono; [apply law_batch|]. intros o f1 (HT1 & Ha & Hans).
    destruct o as [m| | |]; simpl; try (by split_and!; [congruence|done|]).
    specialize (Hans m eq_refl) as [Hd Hans].
    apply IH; [congruence|done| |].
    + intros c [Hc|Hb]%elem_of_app.
      * destruct (Hres c Hc) as (v & Hv & Hck). exists v. split; [|done].
        rewrite lookup_union_r; [done|]. apply not_elem_of_dom. rewrite Hd.
        rewrite !fmap_app, NoDup_app in Hnd. destruct Hnd as [Hnd _].
        rewrite NoDup_app in Hnd. destruct Hnd as (_ & Hdis & _).
        intros Hin%elem_of_list_to_set. eapply Hdis; [|exact Hin]. by apply list_elem_of_fmap_2.
      * assert (is_Some (m !! CorrelationId c)) as [v Hv].
        { apply elem_of_dom. rewrite Hd. by apply elem_of_list_to_set, list_elem_of_fmap_2. }
        exists v. split; [by apply lookup_union_Some_l|]. rewrite <- HT. by apply Hans.
    + rewrite dom_union_L, Hd, Hdom, fmap_app, list_to_set_app_L. set_solver.
Qed.

Lemma BatchCheckRelations_wp tuples f :
  NoDup (CorrelationId <$> tuples) ->
  wp (BatchCheckRelations tuples) (fun o f' => srv_tuples f' = srv_tuples f /\ answered o /\
    forall m, o = Ok m -> dom m = list_to_set (CorrelationId <$> tuples) /\
      forall c, c ∈ tuples -> exists b, m !! CorrelationId c = Some b /\
        check_answer (srv_tuples f) (twc_Tuple c) (ContextualTuples_of c) b) f.
Proof.
  intros Hnd. rewrite <- (batches_join BatchCheckSize tuples) in Hnd by (unfold BatchCheckSize; lia).
  pose proof (BatchCheckRelations_loop_wp (srv_tuples f) (batches BatchCheckSize tuples) [] ∅ f
    eq_refl Hnd) as Hwp. rewrite app_nil_l, batches_join in Hwp by (unfold BatchCheckSize; lia).
  apply Hwp; [|set_solver]. intros c Hc. by apply elem_of_nil in Hc.
Qed.


End properties.
