(* ===== verification/Dbmodel.v ===== *)
(** * Dbmodel: the records of [internal/dbmodel] that the permission system
    uses, and the construction of identities.

    Times are integers (nanoseconds since the epoch); a nullable column is an
    option.  Associations loaded on demand by the ORM are not part of the
    records.  The hash of [crypto/sha256] is the parameter [ShortHash] (the
    first three bytes in hexadecimal): the theorems hold for every hash. *)

From Stdlib Require Import Ascii.
From S2P Require Import Prelude Errors Regexp Names.

(** ** Identities ([identity.go]) *)

Record Identity := MkIdentity {
  i_ID : Z;
  i_CreatedAt : Z;
  i_UpdatedAt : Z;
  i_DeletedAt : option Z;
  i_Name : string;
  i_DisplayName : string;
  i_LastLogin : option Z;
  i_Disabled : bool;
  i_AccessToken : string;
  i_RefreshToken : string;
  i_AccessTokenExpiry : Z;
  i_AccessTokenType : string;
}.

Definition zeroIdentity : Identity := MkIdentity 0 0 0 None "" "" None false "" "" 0 "".

Definition with_Name (i : Identity) (n : string) : Identity :=
  MkIdentity (i_ID i) (i_CreatedAt i) (i_UpdatedAt i) (i_DeletedAt i) n (i_DisplayName i)
    (i_LastLogin i) (i_Disabled i) (i_AccessToken i) (i_RefreshToken i)
    (i_AccessTokenExpiry i) (i_AccessTokenType i).
Definition with_DisplayName (i : Identity) (n : string) : Identity :=
  MkIdentity (i_ID i) (i_CreatedAt i) (i_UpdatedAt i) (i_DeletedAt i) (i_Name i) n
    (i_LastLogin i) (i_Disabled i) (i_AccessToken i) (i_RefreshToken i)
    (i_AccessTokenExpiry i) (i_AccessTokenType i).

Class Hash := ShortHash : string -> string.

(** The characters the replacer of [santiseIdentityId] turns into a hyphen. *)
Definition unsafe_chars : list ascii :=
  ["~"; "!"; "$"; "%"; "^"; "&"; "*"; "_"; "="; "{"; "}"; "'"; "?"]%char.

Fixpoint replace_unsafe (s : string) : string :=
  match s with
  | EmptyString => EmptyString
  | String c s => String (if decide (c ∈ unsafe_chars) then "-"%char else c) (replace_unsafe s)
  end.

(** [strings.Replace(s, "@", by+"@", 1)]. *)
Definition insert_before_at (s by_ : string) : string :=
  match cut "@" s with
  | Some (l, r) => l +:+ by_ +:+ "@" +:+ r
  | None => s
  end.

Definition santiseIdentityId `{Hash} (i : Identity) : Identity :=
  let replaced := replace_unsafe (i_Name i) in
  if decide (replaced = i_Name i) then i
  else with_Name i (insert_before_at replaced (ShortHash (i_Name i))).

Definition setDisplayName (i : Identity) : Identity :=
  if decide (i_DisplayName i = "") then
    with_DisplayName i (match split_char "@" (i_Name i) with p :: _ => p | [] => "" end)
  else i.

Definition ErrIdentityCreation : gerror := ErrSentinel "identity name cannot be empty".

Definition NewIdentity `{Hash} (name : string) : outcome Identity :=
  if decide (name = "") then Err ErrIdentityCreation
  else Ok (setDisplayName (santiseIdentityId (with_Name zeroIdentity name))).

Definition Identity_ResourceTag `{JujuNames} (i : Identity) : outcome Tag := NewUserTag (i_Name i).

Definition Identity_SetTag (i : Identity) (t : Tag) : Identity := with_Name i (Id t).

(** ** Groups and roles ([group.go], [role.go]) *)

Record GroupEntry := MkGroup {
  g_ID : Z; g_CreatedAt : Z; g_UpdatedAt : Z; g_Name : string; g_UUID : string;
}.
Definition zeroGroup : GroupEntry := MkGroup 0 0 0 "" "".
Definition Group_ResourceTag (g : GroupEntry) : outcome Tag := NewGroupTag (g_UUID g).

Record RoleEntry := MkRole {
  r_ID : Z; r_CreatedAt : Z; r_UpdatedAt : Z; r_Name : string; r_UUID : string;
}.
Definition zeroRole : RoleEntry := MkRole 0 0 0 "" "".
Definition Role_ResourceTag (r : RoleEntry) : outcome Tag := NewRoleTag (r_UUID r).

#[export] Instance GroupEntry_eq_dec : EqDecision GroupEntry.
Proof. solve_decision. Defined.
#[export] Instance RoleEntry_eq_dec : EqDecision RoleEntry.
Proof. solve_decision. Defined.

(** ** The columns of the resources that tags resolve to *)

(** The rows hold no associations; a lookup that preloads them returns a record
    of its own.  A nil map is [None]. *)
Record Endpoints := MkEndpoints { ep_Endpoint : string; ep_Identity : string; ep_Storage : string }.
Definition noEndpoints : Endpoints := MkEndpoints "" "" "".

Record Cloud := MkCloud {
  cl_ID : Z; cl_Name : string; cl_Type : string; cl_HostCloudRegion : string; cl_AuthTypes : list string;
  cl_Endpoints : Endpoints; cl_CACertificates : list string; cl_SkipTLSVerify : bool;
  cl_Config : option (gmap string goany);
}.
Record CloudRegion := MkRegion {
  reg_ID : Z; reg_CloudName : string; reg_Name : string; reg_Endpoints : Endpoints;
  reg_Config : option (gmap string goany); reg_Virtual : bool;
}.
Record CloudRegionControllerPriority := MkPriority {
  crp_ID : Z; crp_CloudRegionID : Z; crp_ControllerID : Z; crp_Priority : Z;
}.
Definition CloudRegionControllerPriorityDeployed : Z := 10.
Definition CloudRegionControllerPrioritySupported : Z := 1.

(** [jujuparams.HostPort]: a host and a port. *)
Record Controller := MkController {
  c_ID : Z; c_Name : string; c_UUID : string; c_AgentVersion : string;
  c_CACertificate : string; c_PublicAddress : string; c_TLSHostname : string;
  c_CloudName : string; c_CloudRegion : string; c_Deprecated : bool;
  c_Addresses : list (list (string * Z)); c_UnavailableSince : option Z;
}.

(** [MigrationMode] and the life of a model are strings. *)
Definition MigrationModeNone := "".
Definition MigrationModeExporting := "exporting".
Definition MigrationModeImporting := "importing".
Definition MigrationModeMigrateInternal := "migrating-internally".

Record Model := MkModel {
  m_ID : Z; m_Name : string; m_UUID : option string;
  m_OwnerIdentityName : string; m_ControllerID : Z;
  m_CloudRegionID : Z; m_CloudCredentialID : Z; m_Life : string; m_MigrationMode : string;
}.
Record ApplicationOffer := MkOffer {
  ao_ID : Z; ao_ModelID : Z; ao_Name : string; ao_UUID : string; ao_URL : string;
}.

(** [cloudcredential.go]; [Valid] is nullable. *)
Record CloudCredential := MkCredential {
  cc_ID : Z; cc_Name : string; cc_CloudName : string; cc_OwnerIdentityName : string;
  cc_AuthType : string; cc_Valid : option bool;
}.

(** [clouddefaults.go]: the defaults of an identity for a cloud or a region. *)
Record CloudDefaults := MkDefaults {
  cd_ID : Z; cd_IdentityName : string; cd_CloudID : Z; cd_Region : string; cd_Defaults : gmap string goany;
}.

Definition zeroController : Controller := MkController 0 "" "" "" "" "" "" "" "" false [] None.
Definition zeroModel : Model := MkModel 0 "" None "" 0 0 0 "" "".
Definition zeroCloud : Cloud := MkCloud 0 "" "" "" [] noEndpoints [] false None.
Definition zeroRegion : CloudRegion := MkRegion 0 "" "" noEndpoints None false.
Definition zeroCredential : CloudCredential := MkCredential 0 "" "" "" "" None.

(** The literals [dbmodel.Controller{UUID: uuid}] and the like. *)
Definition controllerOf (name uuid : string) : Controller := 
  MkController 0 name uuid "" "" "" "" "" "" false [] None.
Definition offerOf (url uuid : string) : ApplicationOffer := MkOffer 0 0 "" uuid url.
Definition modelOf (name : string) (uuid : option string) (owner : string) : Model :=
  MkModel 0 name uuid owner 0 0 0 "" "".
Definition cloudOf (name : string) : Cloud := MkCloud 0 name "" "" [] noEndpoints [] false None.

(** ** User mappings ([usermapping.go]) *)

Record UserMapping := MkMapping {
  um_ID : Z; um_CreatedAt : Z; um_UpdatedAt : Z;
  um_ModelUUID : option string; um_LocalUser : string; um_ExternalUserName : string;
}.

(** ** Bootstraps, migrations, keys, profiles and the audit log
    ([controller_bootstrap.go], [modelmigration.go], [sshkeys.go],
    [controllerprofile.go], [audit.go]) *)

Record ControllerBootstrap := MkBootstrap {
  cb_ID : Z; cb_Name : string; cb_CloudName : string; cb_CloudRegion : string; cb_JobID : option Z;
}.

Record IncomingModelMigration := MkMigration {
  im_ID : Z; im_CreatedAt : Z; im_ModelUUID : option string; im_TargetControllerID : Z;
  im_UserMapping : gmap string string;
}.

Record SSHKey := MkSSHKey {
  sk_ID : Z; sk_IdentityName : string; sk_ModelUUID : string; sk_PublicKey : string;
  sk_MD5Fingerprint : string; sk_KeyComment : string;
}.

(** The settings of a profile that nothing reads are [cp_Rest]. *)
Record ControllerProfile := MkProfile {
  cp_ID : Z; cp_Name : string; cp_JujuVersion : string; cp_Version : Z;
  cp_CloudName : string; cp_RegionName : string; cp_PoolName : string; cp_PoolType : string; cp_Rest : string;
}.

Record AuditLogEntry := MkAudit {
  al_ID : Z; al_Time : Z; al_Model : string; al_ConversationId : string; al_MessageId : Z;
  al_FacadeName : string; al_FacadeMethod : string; al_FacadeVersion : Z; al_ObjectId : string;
  al_IdentityTag : string; al_IsResponse : bool; al_Params : option string; al_Errors : option string;
}.

Section tags.
Context `{JujuNames}.
Definition Controller_ResourceTag (c : Controller) : outcome Tag := NewControllerTag (c_UUID c).

(** A model without UUID has the zero tag, whose id is empty. *)
Definition Model_ResourceTag (m : Model) : outcome Tag :=
  match m_UUID m with
  | Some u => NewModelTag u
  | None => Ok (MkTag ModelTagKind "")
  end.
Definition Offer_ResourceTag (o : ApplicationOffer) : outcome Tag := NewApplicationOfferTag (ao_UUID o).
Definition Cloud_ResourceTag (c : Cloud) : outcome Tag := NewCloudTag (cl_Name c).
End tags.

(** ** Facts *)

(** The text of a hash is hexadecimal. *)
Class HashLaws `{Hash} := short_hash_hex s : str_forall is_hex (ShortHash s) = true.

Definition safe_char (c : ascii) : bool := bool_decide (c ∉ unsafe_chars).

Section facts.

Lemma str_forall_app p s t : str_forall p (s +:+ t) = str_forall p s && str_forall p t.
Proof. induction s as [|a s IH]; simpl; [done|]. by rewrite IH, andb_assoc. Qed.

Lemma str_forall_impl (p q : ascii -> bool) s :
  (forall c, p c = true -> q c = true) -> str_forall p s = true -> str_forall q s = true.
Proof.
  intros Hpq. induction s as [|a s IH]; simpl; [done|].
  rewrite !andb_true_iff. naive_solver.
Qed.

Lemma replace_unsafe_safe s : str_forall safe_char (replace_unsafe s) = true.
Proof.
  induction s as [|a s IH]; simpl; [done|]. rewrite IH, andb_true_r. unfold safe_char.
  case_decide; [by vm_compute|by rewrite bool_decide_eq_true_2].
Qed.

Lemma replace_safe_id s : str_forall safe_char s = true -> replace_unsafe s = s.
Proof.
  induction s as [|a s IH]; simpl; [done|]. intros [Ha Hs]%andb_true_iff.
  apply bool_decide_eq_true in Ha. rewrite decide_False by done. by rewrite IH.
Qed.

Lemma hex_safe c : is_hex c = true -> safe_char c = true.
Proof. destruct c as [[] [] [] [] [] [] [] []]; vm_compute; auto. Qed.

Lemma insert_before_at_safe s b :
  str_forall safe_char s = true -> str_forall safe_char b = true ->
  str_forall safe_char (insert_before_at s b) = true.
Proof.
  intros Hs Hb. unfold insert_before_at. destruct (cut "@" s) as [[l r]|] eqn:Hc; [|done].
  apply cut_Some in Hc as ->. rewrite str_forall_app in Hs. simpl in Hs.
  apply andb_true_iff in Hs as [Hl Hr]. rewrite !str_forall_app, Hl, Hb. done.
Qed.

Lemma sanitised_nonempty `{Hash} i : i_Name i <> "" -> i_Name (santiseIdentityId i) <> "".
Proof.
  intros Hn. unfold santiseIdentityId. case_decide; [done|]. simpl. unfold insert_before_at.
  destruct (i_Name i) as [|c s]; [done|].
  destruct (cut "@" _) as [[l r]|]; [|done].
  destruct l; simpl; [|done]. by destruct (ShortHash _).
Qed.

Context `{HashLaws}.

Lemma sanitised_safe i : str_forall safe_char (i_Name (santiseIdentityId i)) = true.
Proof.
  unfold santiseIdentityId. case_decide as He.
  - rewrite <- He. apply replace_unsafe_safe.
  - simpl. apply insert_before_at_safe; [apply replace_unsafe_safe|].
    eapply str_forall_impl; [apply hex_safe|apply short_hash_hex].
Qed.

(** The name of a new identity has none of the characters that are
    unsafe in tags, and creating an identity from that name again keeps the
    name: identities are stable under re-creation. *)
Theorem NewIdentity_stable name i :
  NewIdentity name = Ok i ->
  str_forall safe_char (i_Name i) = true /\
  exists i', NewIdentity (i_Name i) = Ok i' /\ i_Name i' = i_Name i.
Proof.
  unfold NewIdentity at 1. case_decide as Hn; [done|]. intros Hi. apply (inj Ok) in Hi as <-.
  set (j := santiseIdentityId (with_Name zeroIdentity name)).
  assert (forall k, i_Name (setDisplayName k) = i_Name k) as Hd.
  { intros k. unfold setDisplayName. by case_decide. }
  rewrite Hd. split; [apply sanitised_safe|].
  assert (i_Name j <> "") as Hne by (by apply sanitised_nonempty).
  unfold NewIdentity. rewrite decide_False by done. eexists; split; [done|].
  rewrite Hd. unfold santiseIdentityId at 1. simpl.
  rewrite decide_True; [done|]. apply replace_safe_id, sanitised_safe.
Qed.

End facts.
