(* ===== verification/Users.v ===== *)
(** * Users: access checks and grants of a user ([internal/openfga/user.go]).

    A [User] is an identity with the identity-provider groups of its session.
    Every check sends the user's ephemeral memberships ([ContextualTuples])
    along.  The theorems relate the access levels JIMM reports to the
    authorisation model, show that a failing service never grants access, and
    give the exact effect of grants and revocations on the store. *)

From S2P Require Import Prelude Errors Regexp Names AuthModel RefServer OpenFGA Dbmodel.

Definition maxContextualTuples : nat := 20.

(** [u_client] says whether the client pointer is set. *)
Record User := MkUser {
  u_Identity : Identity;
  u_client : bool;
  JimmAdmin : bool;
  IDPGroupIDs : list string;
}.

Definition NewUser (u : Identity) : User := MkUser u true false [].

Definition SetIDPGroups (u : User) (groups : list string) : User :=
  MkUser (u_Identity u) (u_client u) (JimmAdmin u) groups.

(** The [GroupFetcher] interface. *)
Class GroupFetcher := FetchGroups : string -> outcome (list string).

Definition wrap_err {A} (f : gerror -> gerror) (o : outcome A) : outcome A :=
  match o with Err e => Err (f e) | o => o end.

Definition NewUserFromTag `{Hash, GroupFetcher} (tag : Tag) : outcome User :=
  identity ← NewIdentity (Id tag);
  groups ← wrap_err (fun err => Errorf "failed to fetch IDP groups for %q: %w"
                                  [ArgS (i_Name identity); ArgE err])
                    (FetchGroups (i_Name identity));
  Ok (SetIDPGroups (NewUser identity) groups).

Section user.
Context {F : Type} `{OFGAServer F} `{JujuNames}.

Definition u_Name (u : User) : string := i_Name (u_Identity u).

(** [ofganames.ConvertTag(u.ResourceTag())]. *)
Definition user_entity (u : User) : outcome Entity :=
  tag ← Identity_ResourceTag (u_Identity u); Ok (ConvertTag tag).

Definition invalidGroup (group : string) : gerror :=
  Codef CodeUnauthorized "invalid IDP group identifier in session: %q" [ArgS group].

Definition ContextualTuples (u : User) : outcome (list Tuple) :=
  if (maxContextualTuples <? length (IDPGroupIDs u))%nat then
    Err (Codef CodeUnauthorized "too many IDP groups in session: got %d, maximum is %d"
           [ArgD (Z.of_nat (length (IDPGroupIDs u))); ArgD (Z.of_nat maxContextualTuples)])
  else mapM (fun group =>
    if IsValidIdPGroupId group then
      object ← user_entity u;
      target ← NewIdPGroupTag group;
      Ok (MkTuple (Some object) MemberRelation (Some (ConvertTag target)))
    else Err (invalidGroup group)) (IDPGroupIDs u).

(** The generic [checkRelation] and the exported [CheckRelation], which takes
    any tag. *)
Definition checkRelation (u : User) (resource : Tag) (relation : string) : M F bool :=
  contextualTuples ← lift (ContextualTuples u);
  object ← lift (user_entity u);
  CheckRelation (MkTuple (Some object) relation (Some (ConvertTag resource)))
    true contextualTuples.

Definition CheckRelation_generic (u : User) (resource : Tag) (relation : string) : M F bool :=
  let tag := ConvertGenericTag resource in
  contextualTuples ← lift (ContextualTuples u);
  object ← lift (user_entity u);
  CheckRelation (MkTuple (Some object) relation (Some tag)) true contextualTuples.

Definition IsAllowedAddModelToController (u : User) (resource : Tag) : M F bool :=
  checkRelation u resource CanAddModelRelation.
Definition IsAllowedAddModelToCloud (u : User) (resource : Tag) : M F bool :=
  checkRelation u resource CanAddModelRelation.
Definition IsApplicationOfferConsumer (u : User) (resource : Tag) : M F bool :=
  checkRelation u resource ConsumerRelation.
Definition IsApplicationOfferReader (u : User) (resource : Tag) : M F bool :=
  checkRelation u resource ReaderRelation.
Definition IsModelReader (u : User) (resource : Tag) : M F bool :=
  checkRelation u resource ReaderRelation.
Definition IsModelWriter (u : User) (resource : Tag) : M F bool :=
  checkRelation u resource WriterRelation.
Definition IsModelAdmin (u : User) (resource : Tag) : M F bool :=
  checkRelation u resource AdministratorRelation.
Definition HasModelRelation (u : User) (resource : Tag) (relation : string) : M F bool :=
  checkRelation u resource relation.
Definition IsAdministrator (u : User) (resource : Tag) : M F bool :=
  checkRelation u resource AdministratorRelation.

(** [ok, err := check(); if err != nil { return NoRelation }; if ok { return r }]
    followed by the rest of the function. *)
Definition access_step (check : M F bool) (r : string) (rest : M F string) : M F string :=
  res ← try check;
  match res with
  | inr _ => mret NoRelation
  | inl true => mret r
  | inl false => rest
  end.

Definition GetCloudAccess (u : User) (resource : Tag) : M F string :=
  access_step (IsAdministrator u resource) AdministratorRelation
    (access_step (IsAllowedAddModelToCloud u resource) CanAddModelRelation
      (mret NoRelation)).

Definition GetAuditLogViewerAccess (u : User) (resource : Tag) : M F string :=
  access_step (checkRelation u resource AuditLogViewerRelation) AuditLogViewerRelation
    (mret NoRelation).

Definition GetControllerAccess (u : User) (resource : Tag) : M F string :=
  access_step (IsAdministrator u resource) AdministratorRelation (mret NoRelation).

Definition GetModelAccess (u : User) (resource : Tag) : M F string :=
  access_step (IsAdministrator u resource) AdministratorRelation
    (access_step (IsModelWriter u resource) WriterRelation
      (access_step (IsModelReader u resource) ReaderRelation (mret NoRelation))).

Definition GetApplicationOfferAccess (u : User) (resource : Tag) : M F string :=
  access_step (IsAdministrator u resource) AdministratorRelation
    (access_step (IsApplicationOfferConsumer u resource) ConsumerRelation
      (access_step (IsApplicationOfferReader u resource) ReaderRelation (mret NoRelation))).

(** [u.client.setResourceAccess(ctx, u.ResourceTag(), resource, relation)]. *)
Definition setAccess (u : User) (resource : Tag) (relation : string) : M F unit :=
  tag ← lift (Identity_ResourceTag (u_Identity u));
  setResourceAccess (Some tag) (Some resource) relation.
Definition unsetAccess (u : User) (resource : Tag) (relation : string) : M F unit :=
  tag ← lift (Identity_ResourceTag (u_Identity u));
  unsetResourceAccess (Some tag) (Some resource) relation.

Definition SetModelAccess := setAccess.
Definition SetControllerAccess := setAccess.
Definition SetCloudAccess := setAccess.
Definition SetApplicationOfferAccess := setAccess.
Definition UnsetAuditLogViewerAccess (u : User) (resource : Tag) : M F unit :=
  unsetAccess u resource AuditLogViewerRelation.
Definition UnsetApplicationOfferAccess := unsetAccess.

(** The first loop of [unsetMultipleResourceAccesses]: the relations stored
    between two entities, page after page. *)
Fixpoint existingRelations (fuel : nat) (flt : Tuple) (pageSize : Z) (lastToken : string)
    (existing : gset string) : M F (gset string) :=
  match fuel with
  | 0%nat => diverge
  | S fuel =>
      '(timestampedTuples, continuationToken) ←
        map_err (fun err => Errorf "failed to retrieve existing relations: %w" [ArgE err])
                (FindMatchingTuples flt pageSize lastToken);
      let existing := existing ∪ list_to_set ((fun tt => Relation (tt_Tuple tt)) <$> timestampedTuples) in
      if decide (continuationToken = "") then mret existing
      else existingRelations fuel flt pageSize continuationToken existing
  end.

Definition unsetMultipleResourceAccesses (fuel : nat) (user : User) (resource : Tag)
    (relations : list string) (pageSize : Z) : M F unit :=
  tupleObject ← lift (user_entity user);
  let tupleTarget := ConvertTag resource in
  existing ← existingRelations fuel (MkTuple (Some tupleObject) "" (Some tupleTarget)) pageSize "" ∅;
  let tuplesToRemove := (fun r => MkTuple (Some tupleObject) r (Some tupleTarget))
                          <$> filter (fun r => r ∈ existing) relations in
  map_err (fun err => Errorf "failed to remove relations: %w" [ArgE err])
          (RemoveRelation tuplesToRemove).

Definition UnsetModelAccess (fuel : nat) (u : User) (resource : Tag) (relations : list string) :=
  unsetMultipleResourceAccesses fuel u resource relations 0.
Definition UnsetCloudAccess (fuel : nat) (u : User) (resource : Tag) (relations : list string) :=
  unsetMultipleResourceAccesses fuel u resource relations 0.

Definition listIds (u : User) (relation kind : string) : M F (list string) :=
  contextualTuples ← lift (ContextualTuples u);
  object ← lift (user_entity u);
  entities ← ListObjects object relation kind contextualTuples;
  mret (EID <$> entities).
Definition ListModels (u : User) (relation : string) := listIds u relation ModelTagKind.
Definition ListApplicationOffers (u : User) (relation : string) :=
  listIds u relation ApplicationOfferTagKind.

(** The relation a permission string of [CheckPermission] stands for: the
    zero value when no case applies. *)
Definition permission_relation (permission : string) : string :=
  if decide (permission = "superuser" \/ permission = "admin") then AdministratorRelation
  else if decide (permission = "write") then WriterRelation
  else if decide (permission = "read") then ReaderRelation
  else if decide (permission = "consume") then ConsumerRelation
  else if decide (permission = "add-cloud") then CanAddModelRelation
  else NoRelation.

Definition CheckPermission (u : User) (resourceTag permission : string) : M F unit :=
  if u_client u then
    resource ← lift (juju_ParseTag resourceTag);
    contextualTuples ← lift (ContextualTuples u);
    object ← lift (user_entity u);
    allowed ← CheckRelation (MkTuple (Some object) (permission_relation permission)
                               (Some (ConvertGenericTag resource))) true contextualTuples;
    match allowed with
    | true => mret tt
    | false => throw (Codef CodeUnauthorized "user %q not allowed %q to %q"
                        [ArgS (u_Name u); ArgS permission; ArgS resourceTag])
    end
  else throw (Codef CodeUnauthorized "cannot check permission" []).

(** [ListUsersWithAccess]: an entity that is not a valid identity leaves a
    user without identity in the list. *)
Definition ListUsersWithAccess `{Hash} (resource : Tag) (relation : string)
    : M F (list (option User)) :=
  entities ← FindUsersByRelation (MkTuple None relation (Some (ConvertTag resource)));
  mret (fmap (M:=list) (fun e : Entity =>
    let id := if decide (EID e = "*") then EveryoneUser else EID e in
    match NewIdentity id with Ok identity => Some (NewUser identity) | _ => None end) entities).

End user.

(** ** Specification *)

Section spec.
Context `{JujuNames}.

(** The user has the relation, counting the memberships of its session. *)
Definition has_access (T : gset Tuple) (u : User) (r : string) (g : Entity) : Prop :=
  exists e ctx, user_entity u = Ok e /\ ContextualTuples u = Ok ctx /\
    holds (T ∪ list_to_set ctx) e r g.

(** The ephemeral tuples of a list of identity-provider groups. *)
Definition idp_tuples (e : Entity) (groups : list string) : list Tuple :=
  (fun g => edge e MemberRelation (MkEntity IdPGroupTagKind g "")) <$> groups.

(** The access functions of this file, as a descending list of relations. *)
Fixpoint access_ladder {F} `{OFGAServer F} (u : User) (g : Tag) (rs : list string) : M F string :=
  match rs with
  | [] => mret NoRelation
  | r :: rs => access_step (checkRelation u g r) r (access_ladder u g rs)
  end.

End spec.

Section pure_facts.
Context `{JujuNames}.

Lemma user_entity_cases u :
  (exists e, user_entity u = Ok e) \/ exists s, user_entity u = Panic s.
Proof.
  unfold user_entity, Identity_ResourceTag, NewUserTag.
  destruct (IsValidUser _); simpl; eauto.
Qed.

Lemma user_entity_kind u e : user_entity u = Ok e -> EKind e = UserTagKind /\ ERelation e = "".
Proof.
  unfold user_entity, Identity_ResourceTag, NewUserTag.
  destruct (IsValidUser _); simpl; [|done]. intros He. by apply (inj Ok) in He as <-.
Qed.

Lemma group_tuple u e g :
  user_entity u = Ok e -> IsValidIdPGroupId g = true ->
  (object ← user_entity u; target ← NewIdPGroupTag g;
   Ok (MkTuple (Some object) MemberRelation (Some (ConvertTag target))))
  = Ok (edge e MemberRelation (MkEntity IdPGroupTagKind g "")).
Proof. intros -> Hg. unfold NewIdPGroupTag. by rewrite Hg. Qed.

(** [ContextualTuples] either refuses the session or returns one membership
    per group, at most [maxContextualTuples] of them. *)
Lemma ContextualTuples_ok u e ctx :
  user_entity u = Ok e -> ContextualTuples u = Ok ctx ->
  ctx = idp_tuples e (IDPGroupIDs u) /\ (length (IDPGroupIDs u) <= maxContextualTuples)%nat /\
  Forall (fun g => IsValidIdPGroupId g = true) (IDPGroupIDs u).
Proof.
  intros He. unfold ContextualTuples. destruct (_ <? _)%nat eqn:Hl; [done|].
  apply Nat.ltb_ge in Hl. unfold idp_tuples. intros Hm.
  assert (ctx = (fun g => edge e MemberRelation (MkEntity IdPGroupTagKind g "")) <$> IDPGroupIDs u /\
          Forall (fun g => IsValidIdPGroupId g = true) (IDPGroupIDs u)) as [??]; [|done].
  clear Hl. revert ctx Hm. induction (IDPGroupIDs u) as [|g gs IH]; intros ctx Hm.
  - apply (inj Ok) in Hm as <-. done.
  - cbn [mapM] in Hm. destruct (IsValidIdPGroupId g) eqn:Hg; [|done].
    rewrite (group_tuple u e g He Hg) in Hm. cbn [mbind outcome_bind omap_fail] in Hm.
    destruct (mapM _ gs) as [l| | |] eqn:Hgs; try done. apply (inj Ok) in Hm as <-.
    destruct (IH l eq_refl) as [-> Hv]. by split; [|constructor].
Qed.

Lemma ContextualTuples_answered u : answered (ContextualTuples u).
Proof.
  unfold ContextualTuples, answered. destruct (_ <? _)%nat; [done|].
  induction (IDPGroupIDs u) as [|g gs IH]; [done|]. cbn [mapM].
  destruct (IsValidIdPGroupId g) eqn:Hg; [|done].
  destruct (user_entity_cases u) as [[e He]|[s Hs]].
  - rewrite (group_tuple u e g He Hg). cbn [mbind outcome_bind omap_fail].
    by destruct (mapM _ gs).
  - by rewrite Hs.
Qed.

(** A session that is within the limit and has only valid groups is accepted. *)
Lemma ContextualTuples_accepts u e :
  user_entity u = Ok e -> (length (IDPGroupIDs u) <= maxContextualTuples)%nat ->
  Forall (fun g => IsValidIdPGroupId g = true) (IDPGroupIDs u) ->
  ContextualTuples u = Ok (idp_tuples e (IDPGroupIDs u)).
Proof.
  intros He Hl Hv. unfold ContextualTuples.
  rewrite (proj2 (Nat.ltb_ge _ _)) by done. unfold idp_tuples. clear Hl.
  induction Hv as [|g gs Hg Hgs IH]; [done|]. cbn [mapM].
  rewrite Hg, (group_tuple u e g He Hg). cbn [mbind outcome_bind omap_fail]. by rewrite IH.
Qed.

Lemma has_access_iff T u e ctx r g :
  user_entity u = Ok e -> ContextualTuples u = Ok ctx ->
  has_access T u r g <-> holds (T ∪ list_to_set ctx) e r g.
Proof.
  intros He Hc. split; [|intros; by exists e, ctx].
  intros (e' & ctx' & He' & Hc' & Hh). congruence.
Qed.

End pure_facts.

Section facts.
Context {F : Type} `{OFGALaws F} `{JujuNames}.
Implicit Types (f : F) (u : User).

Lemma CheckRelation_wp t trace ctx f :
  wp (CheckRelation t trace ctx) (fun o f' =>
      srv_tuples f' = srv_tuples f /\ answered o /\
      forall b, o = Ok b -> check_answer (srv_tuples f) t ctx b) f.
Proof. destruct trace; [apply law_check_tracing|apply law_check]. Qed.

Lemma checkRelation_wp u res r f :
  wp (checkRelation u res r) (fun o f' =>
      srv_tuples f' = srv_tuples f /\ answered o /\
      forall b, o = Ok b -> (b = true <-> has_access (srv_tuples f) u r (ConvertTag res))) f.
Proof.
  unfold checkRelation. apply wp_bind, wp_lift.
  pose proof (ContextualTuples_answered u) as Ha.
  destruct (ContextualTuples u) as [ctx| | |] eqn:Hc; simpl; try (by split_and!).
  apply wp_bind, wp_lift.
  destruct (user_entity_cases u) as [[e He]|[s Hs]]; [rewrite He|rewrite Hs; simpl; by split_and!].
  simpl. eapply wp_mono; [apply (CheckRelation_wp _ true)|]. intros o f' (HT & Hao & Hb).
  split_and!; [done|done|]. intros b ->. destruct (Hb b eq_refl) as (o' & g & Ho & Hg & Hiff).
  simpl in Ho, Hg, Hiff. simplify_eq. rewrite Hiff. symmetry. by apply has_access_iff.
Qed.

Lemma access_step_wp (check : M F bool) r rest f (Q : outcome string -> F -> Prop) :
  wp check (fun o f1 => match o with
    | Ok true => Q (Ok r) f1
    | Ok false => wp rest Q f1
    | Err _ => Q (Ok NoRelation) f1
    | Panic s => Q (Panic s) f1
    | OutOfFuel => Q OutOfFuel f1 end) f ->
  wp (access_step check r rest) Q f.
Proof.
  intros Hwp. unfold access_step. apply wp_bind, wp_try. eapply wp_mono; [exact Hwp|].
  intros [[]| | |] f1 HQ; simpl; done.
Qed.

(** The answer of a ladder is the first relation of the list that the user
    has, unless the service failed, in which case it may also be empty. *)
Definition ladder_answer (T : gset Tuple) (u : User) (g : Entity) (rs : list string) (r : string) : Prop :=
  exists pre post, rs = pre ++ r :: post /\ has_access T u r g /\
    forall r', r' ∈ pre -> ~ has_access T u r' g.

Lemma access_ladder_wp u g rs f :
  wp (access_ladder u g rs) (fun o f' => srv_tuples f' = srv_tuples f /\ answered o /\
    forall r, o = Ok r -> r = NoRelation \/ ladder_answer (srv_tuples f) u (ConvertTag g) rs r) f.
Proof.
  revert f. induction rs as [|r rs IH]; intros f.
  - wp_value. split_and!; [done|done|]. intros r Hr. apply (inj Ok) in Hr as <-. by left.
  - cbn [access_ladder]. apply access_step_wp. eapply wp_mono; [apply checkRelation_wp|].
    intros o f1 (HT & Ha & Hb). destruct o as [[]| | |]; try (by split_and!).
    + split_and!; [done|done|]. intros r' Hr'. apply (inj Ok) in Hr' as <-. right.
      exists [], rs. split_and!; [done|by apply (Hb true)|set_solver].
    + eapply wp_mono; [apply IH|]. intros o f2 (HT2 & Ha2 & Ho).
      split_and!; [congruence|done|]. intros r' Hr'. rewrite HT in Ho.
      destruct (Ho r' Hr') as [?|(pre & post & Hrs & Hacc & Hno)]; [by left|right].
      exists (r :: pre), post. split_and!; [by rewrite Hrs|done|].
      intros r1 [->|?]%elem_of_cons; [|by apply Hno].
      intros Hr1. destruct (Hb false eq_refl) as [_ Hf]. by apply Hf in Hr1.
    + split_and!; [done|done|]. intros r' Hr'. apply (inj Ok) in Hr' as <-. by left.
Qed.

(** A service that answers every check of the user, now and later. *)
Definition available (u : User) (f : F) : Prop :=
  exists P : F -> Prop, P f /\
    forall f res r, P f -> exists f' b, checkRelation u res r f = (f', Ok b) /\ P f'.

Lemma access_ladder_available u g rs f :
  available u f -> NoRelation ∉ rs ->
  wp (access_ladder u g rs) (fun o f' => exists r, o = Ok r /\
    (r = NoRelation -> forall r', r' ∈ rs -> ~ has_access (srv_tuples f) u r' (ConvertTag g))) f.
Proof.
  intros (P & HP & Hav). revert f HP. induction rs as [|r rs IH]; intros f HP Hrs.
  - wp_value. eexists; split; [done|]. intros _ r' Hr'. by apply elem_of_nil in Hr'.
  - cbn [access_ladder]. apply access_step_wp. apply not_elem_of_cons in Hrs as [Hr Hrs].
    destruct (Hav f g r HP) as (f1 & b & Hrun & HP1).
    destruct (wp_elim _ _ _ _ _ (checkRelation_wp u g r f) Hrun) as (HT & _ & Hb).
    unfold wp. rewrite Hrun. specialize (Hb b eq_refl). destruct b.
    + by exists r.
    + eapply wp_mono; [by apply IH|]. intros o f2 (r2 & -> & Hr2). exists r2. split; [done|].
      intros -> r' [->|Hr']%elem_of_cons; [|rewrite HT in Hr2; by apply Hr2].
      intros Hacc. by apply Hb in Hacc.
Qed.

(** ** Grants *)

Lemma setAccess_wp u e res r f :
  user_entity u = Ok e ->
  wp (setAccess u res r) (fun o f' => answered o /\
    srv_tuples f' = match o with
      | Ok _ => srv_tuples f ∪ {[edge e r (ConvertTag res)]}
      | _ => srv_tuples f end) f.
Proof.
  unfold user_entity, setAccess. intros He.
  destruct (Identity_ResourceTag (u_Identity u)) as [t| | |]; try done.
  apply (inj Ok) in He as <-. exact (setResourceAccess_wp t res r f).
Qed.

Lemma unsetAccess_wp u e res r f :
  user_entity u = Ok e ->
  wp (unsetAccess u res r) (fun o f' => answered o /\
    srv_tuples f' = match o with
      | Ok _ => srv_tuples f ∖ {[edge e r (ConvertTag res)]}
      | _ => srv_tuples f end) f.
Proof.
  unfold user_entity, unsetAccess. intros He.
  destruct (Identity_ResourceTag (u_Identity u)) as [t| | |]; try done.
  apply (inj Ok) in He as <-. exact (unsetResourceAccess_wp t res r f).
Qed.

(** The loop over pages collects the relations of all pages. *)
Lemma existingRelations_wp fuel flt ps tok existing f :
  (size (page_set (srv_tuples f) flt tok) < fuel)%nat ->
  wp (existingRelations fuel flt ps tok existing) (fun o f' =>
    srv_tuples f' = srv_tuples f /\ answered o /\
    forall ex, o = Ok ex -> forall r, r ∈ ex <->
      r ∈ existing \/ exists t, t ∈ page_set (srv_tuples f) flt tok /\ Relation t = r) f.
Proof.
  revert tok existing f. induction fuel as [|fuel IH]; intros tok existing f Hfuel; [lia|].
  cbn [existingRelations]. apply wp_bind, wp_map_err.
  eapply wp_mono; [apply law_find|]. intros o f1 (HT & Ha & Hp).
  destruct o as [[l ct]| | |]; simpl; try (by split_and!).
  destruct Hp as (Hnd & Hset & Hdis & Hfull).
  assert (forall r, r ∈ existing ∪ list_to_set ((fun tt => Relation (tt_Tuple tt)) <$> l) <->
            r ∈ existing \/ exists t, t ∈ (list_to_set (tt_Tuple <$> l) : gset Tuple) /\ Relation t = r) as Hex.
  { intros r. rewrite elem_of_union, elem_of_list_to_set, list_elem_of_fmap.
    setoid_rewrite elem_of_list_to_set. setoid_rewrite list_elem_of_fmap. naive_solver. }
  destruct (decide (ct = "")) as [Hct|Hct].
  - wp_value. split_and!; [done|done|]. intros ex Hok r. apply (inj Ok) in Hok as <-.
    rewrite Hex, Hset. set_solver.
  - assert (size (page_set (srv_tuples f) flt ct) < fuel)%nat as Hlt.
    { rewrite Hset, size_union in Hfuel by done.
      rewrite size_list_to_set, length_fmap, (Hfull Hct) in Hfuel by done.
      pose proof (page_limit_pos ps). lia. }
    eapply wp_mono; [apply IH; by rewrite HT|]. intros o f2 (HT2 & Ha2 & Ho).
    split_and!; [congruence|done|]. intros ex Hok r. rewrite HT in Ho.
    rewrite (Ho ex Hok r), Hex, Hset. set_solver.
Qed.

Lemma unsetMultiple_wp fuel u e res rs ps f :
  user_entity u = Ok e -> (size (srv_tuples f) < fuel)%nat ->
  wp (unsetMultipleResourceAccesses fuel u res rs ps) (fun o f' => answered o /\
    srv_tuples f' = match o with
      | Ok _ => srv_tuples f ∖ list_to_set ((fun r => edge e r (ConvertTag res)) <$> rs)
      | _ => srv_tuples f end) f.
Proof.
  intros He Hfuel. unfold unsetMultipleResourceAccesses. apply wp_bind, wp_lift.
  rewrite He. simpl. apply wp_bind. eapply wp_mono.
  { apply existingRelations_wp. rewrite law_page_start.
    eapply Nat.le_lt_trans; [apply subseteq_size|exact Hfuel]. unfold matching. set_solver. }
  intros o f1 (HT & Ha & Hex). destruct o as [ex| | |]; simpl; try done.
  specialize (Hex ex eq_refl). rewrite law_page_start in Hex.
  apply wp_map_err. unfold RemoveRelation. eapply wp_mono; [apply law_remove|].
  intros o f2 [Ha2 Hs]. split; [by destruct o|].
  destruct o as [[]| | |]; try congruence. rewrite Hs, HT.
  apply set_eq. intros t. rewrite !elem_of_difference, !elem_of_list_to_set, !list_elem_of_fmap.
  split; intros [Hin Hno]; split; try done; intros (r & -> & Hr); apply Hno; exists r.
  - split; [done|]. apply list_elem_of_filter. split; [|done]. apply Hex. right.
    exists (edge e r (ConvertTag res)). split; [|done]. apply elem_of_filter.
    split; [|done]. unfold matches, target_matches. simpl.
    rewrite (bool_decide_eq_true_2 (Some e = Some e)), (bool_decide_eq_true_2 (Kind res = Kind res)),
      (bool_decide_eq_true_2 (ConvertTag res = ConvertTag res)) by done.
    by rewrite orb_true_r.
  - split; [done|]. by apply list_elem_of_filter in Hr as [_ ?].
Qed.

End facts.

(** ** Properties *)

Section properties.
Context {F : Type} `{OFGALaws F} `{JujuNames}.
Implicit Types (f : F) (u : User).

Lemma access_ladder_highest u g levels f f' r :
  NoRelation ∉ levels -> access_ladder u g levels f = (f', Ok r) ->
  srv_tuples f' = srv_tuples f /\
  (r = NoRelation \/ ladder_answer (srv_tuples f) u (ConvertTag g) levels r) /\
  (available u f -> r = NoRelation ->
     forall r', r' ∈ levels -> ~ has_access (srv_tuples f) u r' (ConvertTag g)).
Proof.
  intros Hl Hrun.
  destruct (wp_elim _ _ _ _ _ (access_ladder_wp u g _ f) Hrun) as (HT & _ & Hr).
  split_and!; [done|by apply Hr|]. intros Hav.
  destruct (wp_elim _ _ _ _ _ (access_ladder_available u g levels f Hav Hl) Hrun)
    as (r2 & Hr2 & Hn). apply (inj Ok) in Hr2 as ->. exact Hn.
Qed.

(** [GetModelAccess] reports the highest of administrator, writer and
    reader that the user has in the authorisation model (its session's groups
    included), changes nothing, and reports no access when the service fails;
    when the service answers, no access is reported only to users without
    any. *)
Theorem GetModelAccess_highest u m f f' r :
  GetModelAccess u m f = (f', Ok r) ->
  let levels := [AdministratorRelation; WriterRelation; ReaderRelation] in
  srv_tuples f' = srv_tuples f /\
  (r = NoRelation \/ ladder_answer (srv_tuples f) u (ConvertTag m) levels r) /\
  (available u f -> r = NoRelation ->
     forall r', r' ∈ levels -> ~ has_access (srv_tuples f) u r' (ConvertTag m)).
Proof.
  intros Hrun levels. apply (access_ladder_highest u m levels f); [|exact Hrun].
  by apply (bool_decide_unpack _).
Qed.

(** [GetApplicationOfferAccess] likewise reports the highest of
    administrator, consumer and reader. *)
Theorem GetApplicationOfferAccess_highest u g f f' r :
  GetApplicationOfferAccess u g f = (f', Ok r) ->
  let levels := [AdministratorRelation; ConsumerRelation; ReaderRelation] in
  srv_tuples f' = srv_tuples f /\
  (r = NoRelation \/ ladder_answer (srv_tuples f) u (ConvertTag g) levels r) /\
  (available u f -> r = NoRelation ->
     forall r', r' ∈ levels -> ~ has_access (srv_tuples f) u r' (ConvertTag g)).
Proof.
  intros Hrun levels. apply (access_ladder_highest u g levels f); [|exact Hrun].
  by apply (bool_decide_unpack _).
Qed.

(** [ContextualTuples] of a user with a valid name: a session with at
    most [maxContextualTuples] groups, all with valid identifiers, gives one
    membership tuple per group; any other session is refused with the code
    for unauthorized access. *)
Theorem ContextualTuples_total u e :
  user_entity u = Ok e ->
  let accepted := (length (IDPGroupIDs u) <= maxContextualTuples)%nat /\
                  Forall (fun g => IsValidIdPGroupId g = true) (IDPGroupIDs u) in
  (accepted -> ContextualTuples u = Ok (idp_tuples e (IDPGroupIDs u))) /\
  (~ accepted -> exists err, ContextualTuples u = Err err /\ ErrorCode err = CodeUnauthorized).
Proof.
  intros He accepted. split; [intros [Hl Hv]; by apply ContextualTuples_accepts|].
  intros Hn. unfold ContextualTuples. destruct (_ <? _)%nat eqn:Hl.
  - eexists; split; [done|]. by apply ErrorCode_Codef.
  - apply Nat.ltb_ge in Hl.
    assert (~ Forall (fun g => IsValidIdPGroupId g = true) (IDPGroupIDs u)) as Hinv
      by (unfold accepted in Hn; tauto).
    clear accepted Hn Hl. induction (IDPGroupIDs u) as [|g gs IH]; [by destruct Hinv|].
    cbn [mapM]. destruct (IsValidIdPGroupId g) eqn:Hg.
    + rewrite (group_tuple u e g He Hg). cbn [mbind outcome_bind omap_fail].
      destruct IH as (err & Herr & Hcode); [intros Hgs; apply Hinv; by constructor|].
      exists err. by rewrite Herr.
    + eexists; split; [done|]. by apply ErrorCode_Codef.
Qed.

(** The ephemeral group memberships that one user's checks carry are
    invisible to the relations of every other user or userset. *)
Theorem ContextualTuples_isolated T u e ctx v r g :
  user_entity u = Ok e -> EID e <> "*" -> ContextualTuples u = Ok ctx -> v <> e ->
  holds (T ∪ list_to_set ctx) v r g <-> holds T v r g.
Proof.
  intros He Hi Hc Hv. destruct (user_entity_kind _ _ He) as [Hk Hr].
  destruct (ContextualTuples_ok _ _ _ He Hc) as (-> & _ & _). split.
  - apply holds_other_user with (u := e); try done. unfold idp_tuples.
    apply Forall_forall. intros t (x & -> & _)%list_elem_of_fmap. by exists x.
  - apply holds_mono. set_solver.
Qed.

(** [UnsetModelAccess] (and the revocation of several relations in
    general) ends, and on success removes exactly the user's direct tuples
    with the given relations; on failure the store is unchanged. *)
Theorem UnsetModelAccess_exact fuel u e m rs f f' o :
  user_entity u = Ok e -> (size (srv_tuples f) < fuel)%nat ->
  UnsetModelAccess fuel u m rs f = (f', o) ->
  o <> OutOfFuel /\
  srv_tuples f' = match o with
    | Ok _ => srv_tuples f ∖ list_to_set ((fun r => edge e r (ConvertTag m)) <$> rs)
    | _ => srv_tuples f end.
Proof.
  intros He Hf Hrun. exact (wp_elim _ _ _ _ _ (unsetMultiple_wp _ _ _ _ _ _ _ He Hf) Hrun).
Qed.

(** No relation has the empty name. *)
Lemma holds_NoRelation T o g : ~ holds T o NoRelation g.
Proof.
  assert (forall k d, lookup_def k NoRelation = Some d -> False) as Hnone.
  { intros k d Hd. apply (lookup_def_check (fun _ r _ => bool_decide (r <> ""))) in Hd;
      [by vm_compute in Hd|by vm_compute]. }
  intros Hh. remember NoRelation as r eqn:Hr. destruct Hh; subst; eauto.
Qed.

(** [CheckPermission] succeeds only for a user that has, in the
    authorisation model, the relation of the named permission on the resource
    of the tag; a permission it does not know is never granted. *)
Theorem CheckPermission_sound u tag permission f f' :
  CheckPermission u tag permission f = (f', Ok tt) ->
  srv_tuples f' = srv_tuples f /\ permission_relation permission <> NoRelation /\
  exists t, juju_ParseTag tag = Ok t /\
    has_access (srv_tuples f) u (permission_relation permission) (ConvertGenericTag t).
Proof.
  unfold CheckPermission. destruct (u_client u); [|done].
  destruct (juju_ParseTag tag) as [t| | |]; try done.
  destruct (ContextualTuples u) as [ctx| | |] eqn:Hc; try done.
  destruct (user_entity u) as [e| | |] eqn:He; try done.
  set (q := MkTuple (Some e) (permission_relation permission) (Some (ConvertGenericTag t))).
  change ((allowed ← CheckRelation q true ctx;
    match allowed with
    | true => mret tt
    | false => throw (Codef CodeUnauthorized "user %q not allowed %q to %q"
        [ArgS (u_Name u); ArgS permission; ArgS tag])
    end) f = (f', Ok tt) -> srv_tuples f' = srv_tuples f /\ permission_relation permission <> NoRelation /\
    exists t0, Ok t = Ok t0 /\
      has_access (srv_tuples f) u (permission_relation permission) (ConvertGenericTag t0)).
  unfold mbind, M_bind. destruct (CheckRelation q true ctx f) as [f1 o] eqn:Hq.
  destruct (wp_elim _ _ _ _ _ (CheckRelation_wp q true ctx f) Hq) as (HT & _ & Hb).
  destruct o as [[]| | |]; try done. intros Hr. injection Hr as <-.
  destruct (Hb true eq_refl) as (o & g & Ho & Hg & Hiff). simpl in *. simplify_eq.
  destruct Hiff as [Hh _]. specialize (Hh eq_refl). split_and!; [done| |].
  - intros Hno. rewrite Hno in Hh. by apply holds_NoRelation in Hh.
  - exists t. split; [done|]. by exists o, ctx.
Qed.

(** Every id that [ListModels] returns names a model on which the user
    has the asked relation. *)
Theorem ListModels_sound u r f f' ids :
  ListModels u r f = (f', Ok ids) ->
  srv_tuples f' = srv_tuples f /\
  forall id, id ∈ ids -> exists rel, has_access (srv_tuples f) u r (MkEntity ModelTagKind id rel).
Proof.
  unfold ListModels, listIds, ListObjects, listObjects.
  destruct (ContextualTuples u) as [ctx| | |] eqn:Hc; try done.
  destruct (user_entity u) as [e| | |] eqn:He; try done.
  set (q := MkTuple (Some e) r (Some (MkEntity ModelTagKind "" ""))).
  change ((entities ← FindAccessibleObjectsByRelation q ctx; mret (EID <$> entities)) f = (f', Ok ids) ->
    srv_tuples f' = srv_tuples f /\
    forall id, id ∈ ids -> exists rel, has_access (srv_tuples f) u r (MkEntity ModelTagKind id rel)).
  unfold mbind, M_bind. destruct (FindAccessibleObjectsByRelation q ctx f) as [f1 o] eqn:Hq.
  destruct (wp_elim _ _ _ _ _ (law_objects q ctx f) Hq) as (HT & _ & Hb).
  destruct o as [l| | |]; try done. intros Hr.
  assert (f1 = f' /\ EID <$> l = ids) as [<- <-] by (unfold mret, M_ret in Hr; by simplify_eq).
  split; [done|]. intros id (x & -> & Hx)%list_elem_of_fmap.
  destruct (Hb l x eq_refl Hx) as (u' & g & Hu & Hg & Hk & Hh). simpl in *. simplify_eq.
  exists (ERelation x), u', ctx. split_and!; [done..|]. simpl in Hk.
  destruct x as [k i rl]. simpl in *. by subst k.
Qed.

End properties.
