(* ===== verification/Database.v ===== *)
(** * Database: the store of [internal/db] for groups, roles, identities and
    the lookups of resources.

    The object-relational mapper (gorm) and the SQL server are not part of the
    repository.  [Gorm] is the interface of one table: what the statements that
    JIMM issues return and do; [GormLaws] states the documented behaviour.
    [Row] describes a table of the schema in [internal/dbmodel/sql]: the
    primary key and the unique constraints.  [Db] is the database, [World] the
    database together with the authorisation service. *)

From Stdlib Require Import Sorted.
From S2P Require Import Prelude Errors Regexp Names AuthModel RefServer OpenFGA Dbmodel Users.

(** ** Tables *)

Class Row (R : Type) := {
  row_id : R -> Z;
  (** [Create] fills in the key and the times, [Update] the update time. *)
  row_created : Z -> Z -> R -> R;
  row_touched : Z -> R -> R;
  (** Whether two rows violate a unique constraint other than the key. *)
  row_conflict : R -> R -> bool;
}.

#[export] Instance GroupEntry_row : Row GroupEntry := {|
  row_id := g_ID;
  row_created i now g := MkGroup i now now (g_Name g) (g_UUID g);
  row_touched now g := MkGroup (g_ID g) (g_CreatedAt g) now (g_Name g) (g_UUID g);
  row_conflict a b := bool_decide (g_Name a = g_Name b) || bool_decide (g_UUID a = g_UUID b);
|}.
#[export] Instance RoleEntry_row : Row RoleEntry := {|
  row_id := r_ID;
  row_created i now g := MkRole i now now (r_Name g) (r_UUID g);
  row_touched now g := MkRole (r_ID g) (r_CreatedAt g) now (r_Name g) (r_UUID g);
  row_conflict a b := bool_decide (r_Name a = r_Name b) || bool_decide (r_UUID a = r_UUID b);
|}.

Definition with_key (i created updated : Z) (u : Identity) : Identity :=
  MkIdentity i created updated (i_DeletedAt u) (i_Name u) (i_DisplayName u) (i_LastLogin u)
    (i_Disabled u) (i_AccessToken u) (i_RefreshToken u) (i_AccessTokenExpiry u)
    (i_AccessTokenType u).
#[export] Instance UserMapping_row : Row UserMapping := {|
  row_id := um_ID;
  row_created i now m := MkMapping i now now (um_ModelUUID m) (um_LocalUser m) (um_ExternalUserName m);
  row_touched now m := MkMapping (um_ID m) (um_CreatedAt m) now (um_ModelUUID m) (um_LocalUser m)
                         (um_ExternalUserName m);
  row_conflict a b := bool_decide (um_ModelUUID a = um_ModelUUID b) && bool_decide (um_LocalUser a = um_LocalUser b);
|}.
#[export] Instance Identity_row : Row Identity := {|
  row_id := i_ID;
  row_created i now := with_key i now now;
  row_touched now u := with_key (i_ID u) (i_CreatedAt u) now u;
  row_conflict a b := bool_decide (i_Name a = i_Name b);
|}.

(** [gorm.ErrRecordNotFound] and the state of a unique violation. *)
Definition ErrRecordNotFound : gerror := ErrSentinel "record not found".
Definition pgUniqueViolation := "23505".

(** The statements: [First] under a condition, [Create], [Create] with
    [OnConflict DoNothing] (which says whether a row was created), [Update] of
    a column (the number of rows affected, 0 after an error), [Save], [Delete]
    by primary key or by a condition (the number of rows affected), [Count], an
    ordered [Find] and a scan, in descending order of a number if one is given;
    and the [LIKE] operator. *)
Class Gorm (T : Type -> Type) := {
  rows {R} : T R -> list R;
  (** Whether the server answers queries. *)
  gorm_up {R} : T R -> Prop;
  gorm_order {R} : (R -> string) -> list R -> list R;
  gorm_like : string -> string -> bool;
  gorm_first {R} : (R -> bool) -> M (T R) R;
  gorm_create {R} `{Row R} : R -> M (T R) R;
  gorm_create_nothing {R} `{Row R} : R -> M (T R) (option R);
  gorm_update {R} `{Row R} : (R -> bool) -> (R -> R) -> M (T R) Z;
  gorm_save {R} `{Row R} : R -> M (T R) R;
  gorm_delete {R} `{Row R} : R -> M (T R) unit;
  gorm_delete_affected {R} `{Row R} : (R -> bool) -> M (T R) Z;
  gorm_count {R} : (R -> bool) -> M (T R) Z;
  gorm_find {R} : (R -> bool) -> (R -> string) -> option nat -> option nat -> M (T R) (list R);
  gorm_scan {R} : (R -> bool) -> option (R -> Z) -> option nat -> option nat -> M (T R) (list R);
}.

(** A deletion whose number of rows nothing reads. *)
Definition gorm_delete_where {T : Type -> Type} `{Gorm T} {R} `{Row R} (p : R -> bool) : M (T R) unit :=
  _ ← gorm_delete_affected p; mret tt.

(** [LIMIT] and [OFFSET]. *)
Definition page_of {A} (limit offset : option nat) (l : list A) : list A :=
  let l := match offset with Some n => drop n l | None => l end in
  match limit with Some n => take n l | None => l end.

(** No two rows share a key or a unique column. *)
Definition unique_rows {R} `{Row R} (l : list R) : Prop :=
  NoDup (row_id <$> l) /\
  forall a b, a ∈ l -> b ∈ l -> row_conflict a b = true -> a = b.

(** A row was created: it has a key, and is the last one. *)
Definition inserted {R} `{Row R} (r r' : R) (l l' : list R) : Prop :=
  (exists i now, i <> 0%Z /\ r' = row_created i now r) /\ l' = l ++ [r'] /\ unique_rows l'.

(** A row was saved: created when it has no key, otherwise written over the
    row of its key, or added when there is none. *)
Definition saved {R} `{Row R} (r r' : R) (l l' : list R) : Prop :=
  if decide (row_id r = 0%Z) then inserted r r' l l'
  else (exists now, r' = row_touched now r) /\ unique_rows l' /\
       l' = if decide (row_id r ∈ row_id <$> l)
            then (fun x => if decide (row_id x = row_id r) then r' else x) <$> l
            else l ++ [r'].

Class GormLaws (T : Type -> Type) `{Gorm T} := {
  law_order {R} (key : R -> string) (l : list R) : Permutation (gorm_order key l) l;
  law_first {R} p (t : T R) :
    wp (gorm_first p) (fun o t' => rows t' = rows t /\ answered o /\
      match o with
      | Ok r => r ∈ rows t /\ p r = true
      | Err e => (e = ErrRecordNotFound -> Forall (fun r => p r = false) (rows t)) /\
                 (gorm_up t -> e = ErrRecordNotFound) /\ ErrorCode e = ""
      | _ => True
      end) t;
  law_create {R} `{Row R} r (t : T R) :
    unique_rows (rows t) ->
    wp (gorm_create r) (fun o t' => answered o /\
      match o with
      | Ok r' => inserted r r' (rows t) (rows t')
      | _ => rows t' = rows t
      end) t;
  law_create_nothing {R} `{Row R} r (t : T R) :
    unique_rows (rows t) ->
    wp (gorm_create_nothing r) (fun o t' => answered o /\
      match o with
      | Ok (Some r') => inserted r r' (rows t) (rows t')
      | Ok None => rows t' = rows t /\ Exists (fun x => row_conflict r x = true) (rows t)
      | _ => rows t' = rows t
      end) t;
  law_update {R} `{Row R} p g (t : T R) :
    unique_rows (rows t) -> (forall r, row_id (g r) = row_id r) ->
    wp (gorm_update p g) (fun o t' => exists n, o = Ok n /\
      ((n = 0%Z /\ rows t' = rows t) \/
       (exists now, rows t' = (fun r => if p r then row_touched now (g r) else r) <$> rows t /\
        n = Z.of_nat (length (filter (fun r => p r = true) (rows t))) /\ (0 < n)%Z /\
        unique_rows (rows t')))) t;
  law_save {R} `{Row R} r (t : T R) :
    unique_rows (rows t) ->
    wp (gorm_save r) (fun o t' => answered o /\
      match o with
      | Ok r' => saved r r' (rows t) (rows t')
      | _ => rows t' = rows t
      end) t;
  law_delete_affected {R} `{Row R} p (t : T R) :
    wp (gorm_delete_affected p) (fun o t' => answered o /\
      match o with
      | Ok n => rows t' = filter (fun x => p x = false) (rows t) /\ n = Z.of_nat (length (filter (fun x => p x = true) (rows t)))
      | _ => rows t' = rows t
      end) t;
  law_delete {R} `{Row R} r (t : T R) :
    wp (gorm_delete r) (fun o t' => answered o /\
      match o with
      | Ok _ => row_id r <> 0%Z /\ rows t' = filter (fun x => row_id x <> row_id r) (rows t)
      | _ => rows t' = rows t
      end) t;
  law_count {R} p (t : T R) :
    wp (gorm_count p) (fun o t' => rows t' = rows t /\ answered o /\
      forall n, o = Ok n -> n = Z.of_nat (length (filter (fun r => p r = true) (rows t)))) t;
  law_find_rows {R} p key limit offset (t : T R) :
    wp (gorm_find p key limit offset) (fun o t' => rows t' = rows t /\ answered o /\
      forall l, o = Ok l -> l = page_of limit offset (gorm_order key (filter (fun r => p r = true) (rows t)))) t;
  law_scan {R} p key limit offset (t : T R) :
    wp (gorm_scan p key limit offset) (fun o t' => rows t' = rows t /\ answered o /\
      forall l, o = Ok l -> exists all, Permutation all (filter (fun r => p r = true) (rows t)) /\
        (forall k, key = Some k -> StronglySorted (fun a b => (k b <= k a)%Z) all) /\ l = page_of limit offset all) t;
}.

Lemma law_delete_where {T : Type -> Type} `{GormLaws T} {R} `{Row R} p (t : T R) :
  wp (gorm_delete_where p) (fun o t' => answered o /\
    rows t' = match o with Ok _ => filter (fun x => p x = false) (rows t) | _ => rows t end) t.
Proof.
  unfold gorm_delete_where. apply wp_bind. eapply wp_mono; [apply law_delete_affected|].
  intros [n|e|x|] t' [Ha Ho]; cbn [bind_post]; try wp_value; (split; [done|]); [apply Ho|exact Ho..].
Qed.

(** [uuid.NewString]: a supply of identifiers, read in order. *)
Class UUIDs := uuid_at : nat -> string.

(** The tables of the Juju manager and of the smaller managers. *)
Record More (T : Type -> Type) := MkMore {
  more_regions : T CloudRegion;
  more_priorities : T CloudRegionControllerPriority;
  more_bootstraps : T ControllerBootstrap;
  more_migrations : T IncomingModelMigration;
  more_sshkeys : T SSHKey;
  more_profiles : T ControllerProfile;
  more_audit : T AuditLogEntry;
}.
Arguments MkMore {T}.
Arguments more_regions {T}. Arguments more_priorities {T}. Arguments more_bootstraps {T}. Arguments more_migrations {T}.
Arguments more_sshkeys {T}. Arguments more_profiles {T}. Arguments more_audit {T}.

Record Db (T : Type -> Type) := MkDb {
  db_configured : bool;
  db_migrated : bool;
  db_next_uuid : nat;
  db_groups : T GroupEntry;
  db_roles : T RoleEntry;
  db_identities : T Identity;
  db_controllers : T Controller;
  db_models : T Model;
  db_offers : T ApplicationOffer;
  db_clouds : T Cloud;
  db_mappings : T UserMapping;
  db_credentials : T CloudCredential;
  db_defaults : T CloudDefaults;
  db_more : More T;
}.
Arguments MkDb {T}.
Arguments db_configured {T}. Arguments db_migrated {T}. Arguments db_next_uuid {T}.
Arguments db_groups {T}. Arguments db_roles {T}. Arguments db_identities {T}.
Arguments db_controllers {T}. Arguments db_models {T}. Arguments db_offers {T}.
Arguments db_clouds {T}. Arguments db_mappings {T}. Arguments db_credentials {T}.
Arguments db_defaults {T}. Arguments db_more {T}.

Definition put_groups {T : Type -> Type} (g : T GroupEntry) (d : Db T) : Db T :=
  MkDb (db_configured d) (db_migrated d) (db_next_uuid d) g (db_roles d) (db_identities d)
    (db_controllers d) (db_models d) (db_offers d) (db_clouds d) (db_mappings d) (db_credentials d) (db_defaults d) (db_more d).
Definition put_roles {T : Type -> Type} (r : T RoleEntry) (d : Db T) : Db T :=
  MkDb (db_configured d) (db_migrated d) (db_next_uuid d) (db_groups d) r (db_identities d)
    (db_controllers d) (db_models d) (db_offers d) (db_clouds d) (db_mappings d) (db_credentials d) (db_defaults d) (db_more d).
Definition put_identities {T : Type -> Type} (i : T Identity) (d : Db T) : Db T :=
  MkDb (db_configured d) (db_migrated d) (db_next_uuid d) (db_groups d) (db_roles d) i
    (db_controllers d) (db_models d) (db_offers d) (db_clouds d) (db_mappings d) (db_credentials d) (db_defaults d) (db_more d).
Definition put_controllers {T : Type -> Type} (c : T Controller) (d : Db T) : Db T :=
  MkDb (db_configured d) (db_migrated d) (db_next_uuid d) (db_groups d) (db_roles d)
    (db_identities d) c (db_models d) (db_offers d) (db_clouds d) (db_mappings d) (db_credentials d) (db_defaults d) (db_more d).
Definition put_models {T : Type -> Type} (m : T Model) (d : Db T) : Db T :=
  MkDb (db_configured d) (db_migrated d) (db_next_uuid d) (db_groups d) (db_roles d)
    (db_identities d) (db_controllers d) m (db_offers d) (db_clouds d) (db_mappings d) (db_credentials d) (db_defaults d) (db_more d).
Definition put_offers {T : Type -> Type} (o : T ApplicationOffer) (d : Db T) : Db T :=
  MkDb (db_configured d) (db_migrated d) (db_next_uuid d) (db_groups d) (db_roles d)
    (db_identities d) (db_controllers d) (db_models d) o (db_clouds d) (db_mappings d) (db_credentials d) (db_defaults d) (db_more d).
Definition put_clouds {T : Type -> Type} (c : T Cloud) (d : Db T) : Db T :=
  MkDb (db_configured d) (db_migrated d) (db_next_uuid d) (db_groups d) (db_roles d)
    (db_identities d) (db_controllers d) (db_models d) (db_offers d) c (db_mappings d) (db_credentials d) (db_defaults d) (db_more d).

Definition put_mappings {T : Type -> Type} (m : T UserMapping) (d : Db T) : Db T :=
  MkDb (db_configured d) (db_migrated d) (db_next_uuid d) (db_groups d) (db_roles d)
    (db_identities d) (db_controllers d) (db_models d) (db_offers d) (db_clouds d) m (db_credentials d) (db_defaults d) (db_more d).

Definition put_credentials {T : Type -> Type} (c : T CloudCredential) (d : Db T) : Db T :=
  MkDb (db_configured d) (db_migrated d) (db_next_uuid d) (db_groups d) (db_roles d)
    (db_identities d) (db_controllers d) (db_models d) (db_offers d) (db_clouds d) (db_mappings d) c (db_defaults d) (db_more d).
Definition put_defaults {T : Type -> Type} (c : T CloudDefaults) (d : Db T) : Db T :=
  MkDb (db_configured d) (db_migrated d) (db_next_uuid d) (db_groups d) (db_roles d)
    (db_identities d) (db_controllers d) (db_models d) (db_offers d) (db_clouds d) (db_mappings d) (db_credentials d) c (db_more d).

Definition put_more {T : Type -> Type} (m : More T) (d : Db T) : Db T :=
  MkDb (db_configured d) (db_migrated d) (db_next_uuid d) (db_groups d) (db_roles d)
    (db_identities d) (db_controllers d) (db_models d) (db_offers d) (db_clouds d) (db_mappings d) (db_credentials d) (db_defaults d) m.

Definition db_regions {T : Type -> Type} (d : Db T) : T CloudRegion := more_regions (db_more d).
Definition db_priorities {T : Type -> Type} (d : Db T) : T CloudRegionControllerPriority := more_priorities (db_more d).
Definition db_bootstraps {T : Type -> Type} (d : Db T) : T ControllerBootstrap := more_bootstraps (db_more d).
Definition db_migrations {T : Type -> Type} (d : Db T) : T IncomingModelMigration := more_migrations (db_more d).
Definition db_sshkeys {T : Type -> Type} (d : Db T) : T SSHKey := more_sshkeys (db_more d).
Definition db_profiles {T : Type -> Type} (d : Db T) : T ControllerProfile := more_profiles (db_more d).
Definition db_audit {T : Type -> Type} (d : Db T) : T AuditLogEntry := more_audit (db_more d).

Definition put_regions {T : Type -> Type} (t : T CloudRegion) (d : Db T) : Db T :=
  put_more (MkMore t (db_priorities d) (db_bootstraps d) (db_migrations d) (db_sshkeys d) (db_profiles d) (db_audit d)) d.
Definition put_priorities {T : Type -> Type} (t : T CloudRegionControllerPriority) (d : Db T) : Db T :=
  put_more (MkMore (db_regions d) t (db_bootstraps d) (db_migrations d) (db_sshkeys d) (db_profiles d) (db_audit d)) d.
Definition put_bootstraps {T : Type -> Type} (t : T ControllerBootstrap) (d : Db T) : Db T :=
  put_more (MkMore (db_regions d) (db_priorities d) t (db_migrations d) (db_sshkeys d) (db_profiles d) (db_audit d)) d.
Definition put_migrations {T : Type -> Type} (t : T IncomingModelMigration) (d : Db T) : Db T :=
  put_more (MkMore (db_regions d) (db_priorities d) (db_bootstraps d) t (db_sshkeys d) (db_profiles d) (db_audit d)) d.
Definition put_sshkeys {T : Type -> Type} (t : T SSHKey) (d : Db T) : Db T :=
  put_more (MkMore (db_regions d) (db_priorities d) (db_bootstraps d) (db_migrations d) t (db_profiles d) (db_audit d)) d.
Definition put_profiles {T : Type -> Type} (t : T ControllerProfile) (d : Db T) : Db T :=
  put_more (MkMore (db_regions d) (db_priorities d) (db_bootstraps d) (db_migrations d) (db_sshkeys d) t (db_audit d)) d.
Definition put_audit {T : Type -> Type} (t : T AuditLogEntry) (d : Db T) : Db T :=
  put_more (MkMore (db_regions d) (db_priorities d) (db_bootstraps d) (db_migrations d) (db_sshkeys d) (db_profiles d) t) d.

(** ** [errors.go], [db.go] *)

Definition SQLState (e : gerror) : string :=
  match e with ErrForeign _ s _ => s | _ => "" end.

Definition is_ErrRecordNotFound (e : gerror) : bool :=
  match e with ErrSentinel m => bool_decide (m = "record not found") | _ => false end.

Definition dbError (err : gerror) : gerror :=
  let code := ErrorCode err in
  let code := if is_ErrRecordNotFound err then CodeNotFound else code in
  let code := if decide (SQLState err = pgUniqueViolation) then CodeAlreadyExists else code in
  Codef code "%w" [ArgE err].

Section db.
Context {T : Type -> Type} `{Gorm T} `{UUIDs}.

Definition groups_tbl {A} : M (T GroupEntry) A -> M (Db T) A := zoom db_groups put_groups.
Definition roles_tbl {A} : M (T RoleEntry) A -> M (Db T) A := zoom db_roles put_roles.
Definition identities_tbl {A} : M (T Identity) A -> M (Db T) A := zoom db_identities put_identities.
Definition controllers_tbl {A} : M (T Controller) A -> M (Db T) A := zoom db_controllers put_controllers.
Definition models_tbl {A} : M (T Model) A -> M (Db T) A := zoom db_models put_models.
Definition offers_tbl {A} : M (T ApplicationOffer) A -> M (Db T) A := zoom db_offers put_offers.
Definition mappings_tbl {A} : M (T UserMapping) A -> M (Db T) A := zoom db_mappings put_mappings.
Definition clouds_tbl {A} : M (T Cloud) A -> M (Db T) A := zoom db_clouds put_clouds.
Definition credentials_tbl {A} : M (T CloudCredential) A -> M (Db T) A := zoom db_credentials put_credentials.
Definition defaults_tbl {A} : M (T CloudDefaults) A -> M (Db T) A := zoom db_defaults put_defaults.
Definition regions_tbl {A} : M (T CloudRegion) A -> M (Db T) A := zoom db_regions put_regions.
Definition priorities_tbl {A} : M (T CloudRegionControllerPriority) A -> M (Db T) A := zoom db_priorities put_priorities.
Definition bootstraps_tbl {A} : M (T ControllerBootstrap) A -> M (Db T) A := zoom db_bootstraps put_bootstraps.
Definition migrations_tbl {A} : M (T IncomingModelMigration) A -> M (Db T) A := zoom db_migrations put_migrations.
Definition sshkeys_tbl {A} : M (T SSHKey) A -> M (Db T) A := zoom db_sshkeys put_sshkeys.
Definition profiles_tbl {A} : M (T ControllerProfile) A -> M (Db T) A := zoom db_profiles put_profiles.
Definition audit_tbl {A} : M (T AuditLogEntry) A -> M (Db T) A := zoom db_audit put_audit.

Definition ready : M (Db T) unit := fun d =>
  if db_configured d then
    if db_migrated d then (d, Ok tt)
    else (d, Err (Codef CodeUpgradeInProgress "upgrade in progress" []))
  else (d, Err (Codef CodeServerConfiguration "database not configured" [])).

(** The body runs on the transaction's handle: its changes are kept when it
    returns no error and discarded otherwise. *)
Definition rollback {A} (f : M (Db T) A) : M (Db T) A := fun d =>
  match f d with
  | (d', Ok a) => (d', Ok a)
  | (_, o) => (d, o)
  end.
Definition Transaction {A} (f : M (Db T) A) : M (Db T) A := _ ← ready; rollback f.

Definition newUUID : M (Db T) string := fun d =>
  (MkDb (db_configured d) (db_migrated d) (S (db_next_uuid d)) (db_groups d) (db_roles d)
     (db_identities d) (db_controllers d) (db_models d) (db_offers d) (db_clouds d) (db_mappings d) (db_credentials d) (db_defaults d) (db_more d),
   Ok (uuid_at (db_next_uuid d))).

(** ** [group.go] *)

Definition AddGroup (name : string) : M (Db T) GroupEntry :=
  _ ← ready;
  uuid ← newUUID;
  map_err dbError (groups_tbl (gorm_create (MkGroup 0 0 0 name uuid))).

Definition CountGroups : M (Db T) Z :=
  _ ← ready;
  map_err dbError (groups_tbl (gorm_count (fun _ => true))).

(** The [Where] clauses of a group lookup. *)
Definition group_where (group : GroupEntry) (r : GroupEntry) : bool :=
  (bool_decide (g_ID group = 0%Z) || bool_decide (g_ID r = g_ID group)) &&
  (bool_decide (g_UUID group = "") || bool_decide (g_UUID r = g_UUID group)) &&
  (bool_decide (g_Name group = "") || bool_decide (g_Name r = g_Name group)).

Definition GetGroup (group : GroupEntry) : M (Db T) GroupEntry :=
  _ ← ready;
  if decide (g_UUID group = "" /\ g_Name group = "") then throw (New "must specify uuid or name")
  else map_err dbError (groups_tbl (gorm_first (group_where group))).

Definition positive (n : Z) : option nat := if (0 <? n)%Z then Some (Z.to_nat n) else None.

Definition like_any (match_ : string) (columns : list string) : bool :=
  bool_decide (match_ = "") || existsb (gorm_like ("%" +:+ match_ +:+ "%")) columns.

Definition ListGroups (limit offset : Z) (match_ : string) : M (Db T) (list GroupEntry) :=
  _ ← ready;
  map_err dbError (groups_tbl (gorm_find (fun g => like_any match_ [g_Name g; g_UUID g]) g_Name
                                 (positive limit) (positive offset))).

Definition UpdateGroupName (uuid name : string) : M (Db T) unit :=
  if decide (uuid = "") then throw (New "uuid must be specified") else
  _ ← ready;
  n ← groups_tbl (gorm_update (fun g => bool_decide (g_UUID g = uuid))
                    (fun g => MkGroup (g_ID g) (g_CreatedAt g) (g_UpdatedAt g) name (g_UUID g)));
  if decide (n = 0%Z) then throw (Codef CodeNotFound "group not found" []) else mret tt.

Definition db_RemoveGroup (group : GroupEntry) : M (Db T) unit :=
  if decide (g_ID group = 0%Z /\ g_UUID group = "")
  then throw (Codef CodeNotFound "neither UUID or ID specified" []) else
  _ ← ready;
  map_err dbError (groups_tbl (gorm_delete group)).

(** ** [role.go] *)

Definition AddRole (name : string) : M (Db T) RoleEntry :=
  _ ← ready;
  uuid ← newUUID;
  map_err dbError (roles_tbl (gorm_create (MkRole 0 0 0 name uuid))).

Definition role_where (role : RoleEntry) (r : RoleEntry) : bool :=
  (bool_decide (r_ID role = 0%Z) || bool_decide (r_ID r = r_ID role)) &&
  (bool_decide (r_UUID role = "") || bool_decide (r_UUID r = r_UUID role)) &&
  (bool_decide (r_Name role = "") || bool_decide (r_Name r = r_Name role)).

Definition GetRole (role : RoleEntry) : M (Db T) RoleEntry :=
  _ ← ready;
  if decide (r_UUID role = "" /\ r_Name role = "") then throw (New "must specify uuid or name")
  else map_err dbError (roles_tbl (gorm_first (role_where role))).

Definition UpdateRoleName (oldName name : string) : M (Db T) unit :=
  if decide (oldName = "") then throw (New "name must be specified") else
  _ ← ready;
  n ← roles_tbl (gorm_update (fun g => bool_decide (r_Name g = oldName))
                   (fun g => MkRole (r_ID g) (r_CreatedAt g) (r_UpdatedAt g) name (r_UUID g)));
  if decide (n = 0%Z) then throw (Codef CodeNotFound "role not found" []) else mret tt.

Definition db_RemoveRole (role : RoleEntry) : M (Db T) unit :=
  if decide (r_ID role = 0%Z /\ r_UUID role = "")
  then throw (Codef CodeNotFound "neither role UUID or ID specified" []) else
  _ ← ready;
  map_err dbError (roles_tbl (gorm_delete role)).

Definition ListRoles (limit offset : Z) (match_ : string) : M (Db T) (list RoleEntry) :=
  _ ← ready;
  map_err dbError (roles_tbl (gorm_find (fun g => like_any match_ [r_Name g; r_UUID g]) r_Name
                                (positive limit) (positive offset))).

Definition CountRoles : M (Db T) Z :=
  _ ← ready;
  map_err dbError (roles_tbl (gorm_count (fun _ => true))).

(** ** [identity.go] *)

Definition invalidIdentityName : gerror :=
  Codef CodeNotFound ("invalid identity name " +:+ quote "") [].

(** The embedded [gorm.Model] makes every query skip soft-deleted rows, and a
    set key of the destination is a further condition of [First]. *)
Definition live (u : Identity) : bool := bool_decide (i_DeletedAt u = None).
Definition by_key {R} (id : R -> Z) (dest r : R) : bool :=
  bool_decide (id dest = 0%Z) || bool_decide (id r = id dest).
Definition named (u r : Identity) : bool :=
  live r && by_key i_ID u r && bool_decide (i_Name r = i_Name u).

Definition GetIdentity (u : Identity) : M (Db T) Identity :=
  if decide (i_Name u = "") then throw invalidIdentityName else
  _ ← ready;
  created ← identities_tbl (gorm_create_nothing u);
  match created with
  | Some u' => mret u'
  | None => identities_tbl (gorm_first (named u))
  end.

Definition db_FetchIdentity (u : Identity) : M (Db T) Identity :=
  if decide (i_Name u = "") then throw invalidIdentityName else
  _ ← ready;
  identities_tbl (gorm_first (named u)).

Definition UpdateIdentity (u : Identity) : M (Db T) Identity :=
  _ ← ready;
  if decide (i_Name u = "") then throw invalidIdentityName else
  identities_tbl (gorm_save u).

Definition db_ListIdentities (limit offset : Z) (match_ : string) : M (Db T) (list Identity) :=
  _ ← ready;
  map_err dbError (identities_tbl (gorm_find (fun u => live u && like_any match_ [i_Name u]) i_Name
                                     (positive limit) (positive offset))).

Definition db_CountIdentities : M (Db T) Z :=
  _ ← ready;
  identities_tbl (gorm_count live).

(** ** Lookups of resources ([controller.go], [model.go], [applicationoffer.go],
    [cloud.go]) *)

(** [err = dbError(err); if ErrorCode(err) == CodeNotFound { return notFound }]. *)
Definition notFoundError (notFound : gerror) (err : gerror) : gerror :=
  let err := dbError err in
  if decide (ErrorCode err = CodeNotFound) then notFound else err.

(** [Preload] of an association to one row of another table, by its key: the
    zero value when no row has it. *)
Definition preload {R} (table : M (T R) (list R) -> M (Db T) (list R)) (key : R -> Z) (id : Z) (zero : R) : M (Db T) R :=
  if decide (id = 0%Z) then mret zero else
  found ← table (gorm_find (fun r => bool_decide (key r = id)) (fun _ => "") None None);
  mret (hd zero found).

Definition GetController (c : Controller) : M (Db T) Controller :=
  _ ← ready;
  p ← (if decide (c_UUID c <> "") then mret (fun r => bool_decide (c_UUID r = c_UUID c))
       else if decide (c_Name c <> "") then mret (fun r => bool_decide (c_Name r = c_Name c))
       else throw (Codef CodeBadRequest "controller UUID or name must be provided" []));
  map_err (notFoundError (Codef CodeNotFound "controller not found" []))
          (controllers_tbl (gorm_first (fun r => by_key c_ID c r && p r))).

Definition GetModel (m : Model) : M (Db T) Model :=
  _ ← ready;
  _ ← ready;
  p ← match m_UUID m with
      | Some uuid => mret (fun r => bool_decide (m_UUID r = Some uuid) &&
                        (bool_decide (m_ControllerID m = 0%Z)
                         || bool_decide (m_ControllerID r = m_ControllerID m)))
      | None =>
          if decide (m_ID m <> 0%Z) then mret (fun r => bool_decide (m_ID r = m_ID m))
          else if decide (m_OwnerIdentityName m <> "" /\ m_Name m <> "")
          then mret (fun r => bool_decide (m_OwnerIdentityName r = m_OwnerIdentityName m
                                           /\ m_Name r = m_Name m))
          else if decide (m_ControllerID m <> 0%Z)
          then mret (fun r => bool_decide (m_ControllerID r = m_ControllerID m))
          else throw (Codef CodeBadRequest "missing id or uuid" [])
      end;
  map_err (notFoundError (Codef CodeNotFound "model not found" []))
          (models_tbl (gorm_first (fun r => by_key m_ID m r && p r))).

Definition GetApplicationOffer (o : ApplicationOffer) : M (Db T) ApplicationOffer :=
  _ ← ready;
  p ← (if decide (ao_UUID o <> "") then mret (fun r => bool_decide (ao_UUID r = ao_UUID o))
       else if decide (ao_URL o <> "") then mret (fun r => bool_decide (ao_URL r = ao_URL o))
       else throw (New "missing offer UUID or URL"));
  map_err (notFoundError (Codef CodeNotFound "application offer not found" []))
          (offers_tbl (gorm_first (fun r => by_key ao_ID o r && p r))).

(** The association [Model] of an offer, which [GetApplicationOffer] loads. *)
Definition offerModel (o : ApplicationOffer) : M (Db T) Model :=
  map_err (notFoundError (Codef CodeNotFound "application offer not found" []))
          (preload models_tbl m_ID (ao_ModelID o) zeroModel).

Definition GetCloud (c : Cloud) : M (Db T) Cloud :=
  _ ← ready;
  map_err (notFoundError (Codef CodeNotFound "cloud %q not found" [ArgS (cl_Name c)]))
          (clouds_tbl (gorm_first (fun r => by_key cl_ID c r && bool_decide (cl_Name r = cl_Name c)))).

(** ** [usermapping.go] *)

Definition AddUserMapping (m : UserMapping) : M (Db T) UserMapping :=
  _ ← ready;
  map_err dbError (mappings_tbl (gorm_create m)).

Definition GetUserMapping (m : UserMapping) : M (Db T) UserMapping :=
  _ ← ready;
  p ← match um_ModelUUID m with
      | Some uuid =>
          if decide (um_LocalUser m <> "")
          then mret (fun r => bool_decide (um_ModelUUID r = Some uuid) && bool_decide (um_LocalUser r = um_LocalUser m))
          else throw (Codef CodeBadRequest "missing local user" [])
      | None => throw (Codef CodeBadRequest "missing model UUID" [])
      end;
  map_err (notFoundError (Codef CodeNotFound "user mapping not found" []))
          (mappings_tbl (gorm_first (fun r => by_key um_ID m r && p r))).

Definition DeleteUserMapping (m : UserMapping) : M (Db T) unit :=
  _ ← ready;
  map_err dbError (mappings_tbl (gorm_delete m)).

Definition DeleteUserMappingsByModelUUID (modelUUID : string) : M (Db T) unit :=
  _ ← ready;
  map_err dbError (mappings_tbl (gorm_delete_where (fun r => bool_decide (um_ModelUUID r = Some modelUUID)))).

End db.

(** ** The world: authorisation service and database *)

Record World (F : Type) (T : Type -> Type) := MkWorld { w_fga : F; w_db : Db T }.
Arguments MkWorld {F T}.
Arguments w_fga {F T}.
Arguments w_db {F T}.

Definition fga {F} {T : Type -> Type} {A} : M F A -> M (World F T) A :=
  zoom w_fga (fun f w => MkWorld f (w_db w)).
Definition db {F} {T : Type -> Type} {A} : M (Db T) A -> M (World F T) A :=
  zoom w_db (fun d w => MkWorld (w_fga w) d).

(** ** Facts *)

Lemma dbError_NotFound : ErrorCode (dbError ErrRecordNotFound) = CodeNotFound.
Proof. by vm_compute. Qed.

Lemma dbError_AlreadyExists c msg :
  ErrorCode (dbError (ErrForeign c pgUniqueViolation msg)) = CodeAlreadyExists.
Proof. unfold dbError. by apply ErrorCode_Codef. Qed.

Lemma unique_rows_filter {R} `{Row R} (P : R -> Prop) `{forall r, Decision (P r)} l :
  unique_rows l -> unique_rows (filter P l).
Proof.
  intros [Hnd Hc]. split.
  - eapply sublist_NoDup; [exact Hnd|]. apply fmap_sublist, sublist_filter.
  - intros a b [_ Ha]%list_elem_of_filter [_ Hb]%list_elem_of_filter. by apply Hc.
Qed.

Section facts.
Context {T : Type -> Type} `{GormLaws T} `{UUIDs}.
Implicit Types d : Db T.

(** The constraints of the schema hold in the three tables. *)
Definition db_ok (d : Db T) : Prop :=
  unique_rows (rows (db_groups d)) /\ unique_rows (rows (db_roles d)) /\
  unique_rows (rows (db_identities d)).

Lemma wp_ready {A} (k : M (Db T) A) Q d :
  (db_configured d = true -> db_migrated d = true -> wp k Q d) ->
  (forall e, ErrorCode e = CodeUpgradeInProgress \/ ErrorCode e = CodeServerConfiguration ->
             Q (Err e) d) ->
  wp (ready ≫= fun _ => k) Q d.
Proof.
  intros Hk He. apply wp_bind. unfold wp, ready.
  destruct (db_configured d), (db_migrated d); simpl; auto; apply He;
    (left; by apply ErrorCode_Codef) || (right; by apply ErrorCode_Codef).
Qed.

Lemma wp_rollback {A} (m : M (Db T) A) Q (d : Db T) :
  wp m (fun o d' => Q o (match o with Ok _ => d' | _ => d end)) d -> wp (rollback m) Q d.
Proof. unfold wp, rollback. by destruct (m d) as [d' []]. Qed.

(** The rows of all tables. *)
Definition more_tables (d : Db T) :=
  (rows (db_regions d), rows (db_priorities d), rows (db_bootstraps d), rows (db_migrations d),
   rows (db_sshkeys d), rows (db_profiles d), rows (db_audit d)).
Definition tables (d : Db T) :=
  (rows (db_groups d), rows (db_roles d), rows (db_identities d), rows (db_controllers d),
   rows (db_models d), rows (db_offers d), rows (db_clouds d), rows (db_mappings d), rows (db_credentials d), rows (db_defaults d),
   more_tables d).

(** The row of a key, or the zero value when no row has it. *)
Definition loaded {R} (key : R -> Z) (l : list R) (id : Z) (zero r : R) : Prop :=
  (r ∈ l /\ key r = id) \/ (r = zero /\ (id = 0%Z \/ Forall (fun x => key x <> id) l)).

Lemma preload_wp {R} (get : Db T -> T R) put key id zero d :
  wp (preload (zoom get put) key id zero) (fun o d' => answered o /\
    (d' = d \/ exists t, rows t = rows (get d) /\ d' = put t d) /\
    forall r, o = Ok r -> loaded key (rows (get d)) id zero r) d.
Proof.
  unfold preload, loaded. destruct (decide (id = 0%Z)).
  { wp_value. split_and!; [done|by left|]. intros r Hr. apply (inj Ok) in Hr as <-. right. split; [done|by left]. }
  apply wp_bind, wp_zoom. eapply wp_mono; [apply law_find_rows|]. intros o t (Hrows & Ha & Hl).
  destruct o as [l|e|m|]; cbn [bind_post]; [wp_value|..];
    (split_and!; [done|right; by exists t|]); [|done..].
  intros r Hr. apply (inj Ok) in Hr as <-. specialize (Hl l eq_refl). unfold page_of in Hl.
  assert (forall x, x ∈ l <-> x ∈ rows (get d) /\ key x = id) as Hin.
  { intros x. subst l. rewrite (law_order (fun _ => "") _), list_elem_of_filter, bool_decide_eq_true. tauto. }
  destruct l as [|r l]; simpl.
  - right. split; [done|]. right. apply Forall_forall. intros x Hx Hk. by apply (not_elem_of_nil x), Hin.
  - left. apply Hin, elem_of_cons. by left.
Qed.

Lemma AddGroup_wp name d :
  unique_rows (rows (db_groups d)) ->
  wp (AddGroup name) (fun o d' => answered o /\
    rows (db_roles d') = rows (db_roles d) /\ rows (db_identities d') = rows (db_identities d) /\
    match o with
    | Ok g => inserted (MkGroup 0 0 0 name (uuid_at (db_next_uuid d))) g
                (rows (db_groups d)) (rows (db_groups d'))
    | _ => rows (db_groups d') = rows (db_groups d)
    end) d.
Proof.
  intros Hu. unfold AddGroup. apply wp_ready; [|by intros e _].
  intros _ _. apply wp_bind. wp_value. simpl. apply wp_map_err, wp_zoom. simpl.
  eapply wp_mono; [by apply law_create|].
  intros [] t' [Ha Ht]; simpl; by split_and!.
Qed.

Lemma AddRole_wp name d :
  unique_rows (rows (db_roles d)) ->
  wp (AddRole name) (fun o d' => answered o /\
    rows (db_groups d') = rows (db_groups d) /\ rows (db_identities d') = rows (db_identities d) /\
    match o with
    | Ok g => inserted (MkRole 0 0 0 name (uuid_at (db_next_uuid d))) g
                (rows (db_roles d)) (rows (db_roles d'))
    | _ => rows (db_roles d') = rows (db_roles d)
    end) d.
Proof.
  intros Hu. unfold AddRole. apply wp_ready; [|by intros e _].
  intros _ _. apply wp_bind. wp_value. simpl. apply wp_map_err, wp_zoom. simpl.
  eapply wp_mono; [by apply law_create|].
  intros [] t' [Ha Ht]; simpl; by split_and!.
Qed.

(** A lookup changes no table and returns a row that matches. *)
Lemma GetGroup_wp group d :
  wp (GetGroup group) (fun o d' => answered o /\ tables d' = tables d /\
    forall g, o = Ok g -> g ∈ rows (db_groups d) /\ group_where group g = true) d.
Proof.
  unfold GetGroup. apply wp_ready; [|by intros e _].
  intros _ _. case_decide; [by wp_value|]. apply wp_map_err, wp_zoom.
  eapply wp_mono; [apply law_first|]. intros o t' (Ht & Ha & Ho). unfold tables. simpl.
  rewrite Ht. split_and!; [by destruct o|done|]. intros g Hg. destruct o; by simplify_eq.
Qed.

Lemma GetRole_wp role d :
  wp (GetRole role) (fun o d' => answered o /\ tables d' = tables d /\
    forall g, o = Ok g -> g ∈ rows (db_roles d) /\ role_where role g = true) d.
Proof.
  unfold GetRole. apply wp_ready; [|by intros e _].
  intros _ _. case_decide; [by wp_value|]. apply wp_map_err, wp_zoom.
  eapply wp_mono; [apply law_first|]. intros o t' (Ht & Ha & Ho). unfold tables. simpl.
  rewrite Ht. split_and!; [by destruct o|done|]. intros g Hg. destruct o; by simplify_eq.
Qed.

(** The effect of a rename, on every branch. *)
Definition renamed {R} (p : R -> bool) (g : Z -> R -> R) (o : outcome unit) (l l' : list R) : Prop :=
  match o with
  | Ok _ => (exists now, l' = (fun r => if p r then g now r else r) <$> l) /\
            Exists (fun r => p r = true) l
  | _ => l' = l
  end.

Lemma filter_length_pos {R} (p : R -> bool) l :
  (0 < Z.of_nat (length (filter (fun r => p r = true) l)))%Z -> Exists (fun r => p r = true) l.
Proof.
  intros Hl. destruct (filter _ l) as [|r k] eqn:Hf; [simpl in Hl; lia|].
  apply Exists_exists. exists r. assert (r ∈ filter (fun r => p r = true) l) as Hr by (rewrite Hf; set_solver).
  apply list_elem_of_filter in Hr. naive_solver.
Qed.

Lemma UpdateGroupName_wp uuid name d :
  unique_rows (rows (db_groups d)) ->
  wp (UpdateGroupName uuid name) (fun o d' => answered o /\
    rows (db_roles d') = rows (db_roles d) /\ rows (db_identities d') = rows (db_identities d) /\
    unique_rows (rows (db_groups d')) /\
    renamed (fun g => bool_decide (g_UUID g = uuid))
      (fun now g => MkGroup (g_ID g) (g_CreatedAt g) now name (g_UUID g)) o
      (rows (db_groups d)) (rows (db_groups d'))) d.
Proof.
  intros Hu. unfold UpdateGroupName. case_decide; [wp_value; by split_and!|].
  apply wp_ready; [|by intros e _]. intros _ _. apply wp_bind, wp_zoom.
  eapply wp_mono; [by apply law_update|]. intros o t' (n & -> & Hn). simpl.
  destruct (decide (n = 0%Z)) as [->|Hne].
  - wp_value. simpl. destruct Hn as [[_ Ht]|(now & _ & _ & Hpos & _)]; [|lia].
    rewrite Ht. by split_and!.
  - wp_value. simpl. destruct Hn as [[? _]|(now & Ht & Hn & Hpos & Hu')]; [done|].
    split_and!; [done..|by exists now|]. subst n. by apply filter_length_pos.
Qed.

Lemma UpdateRoleName_wp oldName name d :
  unique_rows (rows (db_roles d)) ->
  wp (UpdateRoleName oldName name) (fun o d' => answered o /\
    rows (db_groups d') = rows (db_groups d) /\ rows (db_identities d') = rows (db_identities d) /\
    unique_rows (rows (db_roles d')) /\
    renamed (fun g => bool_decide (r_Name g = oldName))
      (fun now g => MkRole (r_ID g) (r_CreatedAt g) now name (r_UUID g)) o
      (rows (db_roles d)) (rows (db_roles d'))) d.
Proof.
  intros Hu. unfold UpdateRoleName. case_decide; [wp_value; by split_and!|].
  apply wp_ready; [|by intros e _]. intros _ _. apply wp_bind, wp_zoom.
  eapply wp_mono; [by apply law_update|]. intros o t' (n & -> & Hn). simpl.
  destruct (decide (n = 0%Z)) as [->|Hne].
  - wp_value. simpl. destruct Hn as [[_ Ht]|(now & _ & _ & Hpos & _)]; [|lia].
    rewrite Ht. by split_and!.
  - wp_value. simpl. destruct Hn as [[? _]|(now & Ht & Hn & Hpos & Hu')]; [done|].
    split_and!; [done..|by exists now|]. subst n. by apply filter_length_pos.
Qed.

Lemma db_RemoveGroup_wp group d :
  wp (db_RemoveGroup group) (fun o d' => answered o /\
    rows (db_roles d') = rows (db_roles d) /\ rows (db_identities d') = rows (db_identities d) /\
    rows (db_groups d') = match o with
      | Ok _ => filter (fun g => g_ID g <> g_ID group) (rows (db_groups d))
      | _ => rows (db_groups d) end) d.
Proof.
  unfold db_RemoveGroup. case_decide; [by wp_value|].
  apply wp_ready; [|by intros e _]. intros _ _. apply wp_map_err, wp_zoom.
  eapply wp_mono; [apply law_delete|]. intros [] t' [Ha Ht]; simpl; try done.
  by destruct Ht as [_ ->].
Qed.

Lemma db_RemoveRole_wp role d :
  wp (db_RemoveRole role) (fun o d' => answered o /\
    rows (db_groups d') = rows (db_groups d) /\ rows (db_identities d') = rows (db_identities d) /\
    rows (db_roles d') = match o with
      | Ok _ => filter (fun g => r_ID g <> r_ID role) (rows (db_roles d))
      | _ => rows (db_roles d) end) d.
Proof.
  unfold db_RemoveRole. case_decide; [by wp_value|].
  apply wp_ready; [|by intros e _]. intros _ _. apply wp_map_err, wp_zoom.
  eapply wp_mono; [apply law_delete|]. intros [] t' [Ha Ht]; simpl; try done.
  by destruct Ht as [_ ->].
Qed.

(** [GetIdentity] returns a row with the asked name, creating it when it is
    missing; it never changes an existing row. *)
Lemma GetIdentity_wp u d :
  unique_rows (rows (db_identities d)) ->
  wp (GetIdentity u) (fun o d' => answered o /\
    rows (db_groups d') = rows (db_groups d) /\ rows (db_roles d') = rows (db_roles d) /\
    unique_rows (rows (db_identities d')) /\
    match o with
    | Ok i => i ∈ rows (db_identities d') /\ i_Name i = i_Name u /\
        (rows (db_identities d') = rows (db_identities d) \/
         inserted u i (rows (db_identities d)) (rows (db_identities d')))
    | _ => rows (db_identities d') = rows (db_identities d)
    end) d.
Proof.
  intros Hu. unfold GetIdentity. case_decide; [wp_value; by split_and!|].
  apply wp_ready; [|by intros e _; split_and!]. intros _ _.
  apply wp_bind, wp_zoom. eapply wp_mono; [by apply law_create_nothing|].
  intros [[i|]|e|s|] t' [Ha Ht]; simpl in *; try (rewrite Ht; by split_and!).
  - wp_value. simpl. destruct Ht as ((k & now & Hk & ->) & Ht & Hu'). rewrite Ht in *.
    split_and!; try done; [set_solver|]. right. split_and!; [by exists k, now|done..].
  - destruct Ht as [Ht Hex]. apply wp_zoom. simpl. eapply wp_mono; [apply law_first|].
    intros o t2 (Ht2 & Ha2 & Ho). simpl. rewrite Ht2, Ht. split_and!; try done.
    destruct o as [i| | |]; try done. destruct Ho as [Hi Hp]. rewrite Ht in Hi.
    unfold named in Hp. apply andb_true_iff in Hp as [_ Hp]. apply bool_decide_eq_true in Hp.
    split_and!; [done..|by left].
Qed.

Lemma saved_unique {R} `{Row R} (r r' : R) l l' : saved r r' l l' -> unique_rows l'.
Proof. unfold saved, inserted. case_decide; naive_solver. Qed.

Lemma UpdateIdentity_wp u d :
  unique_rows (rows (db_identities d)) ->
  wp (UpdateIdentity u) (fun o d' => answered o /\
    rows (db_groups d') = rows (db_groups d) /\ rows (db_roles d') = rows (db_roles d) /\
    unique_rows (rows (db_identities d')) /\
    match o with
    | Ok i => saved u i (rows (db_identities d)) (rows (db_identities d'))
    | _ => rows (db_identities d') = rows (db_identities d)
    end) d.
Proof.
  intros Hu. unfold UpdateIdentity. apply wp_ready; [|by intros e _; split_and!]. intros _ _.
  case_decide; [wp_value; by split_and!|]. apply wp_zoom. eapply wp_mono; [by apply law_save|].
  intros [i|e|s|] t' [Ha Ht]; simpl; try (rewrite Ht; by split_and!).
  split_and!; try done. by eapply saved_unique.
Qed.

End facts.

(** ** Properties *)

(** One operation of the store on groups, roles or identities. *)
Inductive db_op :=
| OpAddGroup (name : string)
| OpUpdateGroupName (uuid name : string)
| OpRemoveGroup (group : GroupEntry)
| OpGetGroup (group : GroupEntry)
| OpAddRole (name : string)
| OpUpdateRoleName (oldName name : string)
| OpRemoveRole (role : RoleEntry)
| OpGetRole (role : RoleEntry)
| OpGetIdentity (u : Identity)
| OpUpdateIdentity (u : Identity).

Section properties.
Context {T : Type -> Type} `{GormLaws T} `{UUIDs}.
Implicit Types d : Db T.

Definition run_op (op : db_op) (d : Db T) : Db T :=
  match op with
  | OpAddGroup name => (AddGroup name d).1
  | OpUpdateGroupName uuid name => (UpdateGroupName uuid name d).1
  | OpRemoveGroup group => (db_RemoveGroup group d).1
  | OpGetGroup group => (GetGroup group d).1
  | OpAddRole name => (AddRole name d).1
  | OpUpdateRoleName oldName name => (UpdateRoleName oldName name d).1
  | OpRemoveRole role => (db_RemoveRole role d).1
  | OpGetRole role => (GetRole role d).1
  | OpGetIdentity u => (GetIdentity u d).1
  | OpUpdateIdentity u => (UpdateIdentity u d).1
  end.

(** The databases that a sequence of operations reaches, whether they succeed
    or fail. *)
Inductive db_reaches (d : Db T) : list db_op -> Db T -> Prop :=
| reaches_nil : db_reaches d [] d
| reaches_snoc ops op d' : db_reaches d ops d' -> db_reaches d (ops ++ [op]) (run_op op d').

Lemma wp_fst {A} (m : M (Db T) A) Q d : wp m Q d -> Q (m d).2 (m d).1.
Proof. unfold wp. by destruct (m d). Qed.

Lemma tables_ok d d' : tables d' = tables d -> db_ok d -> db_ok d'.
Proof. unfold tables, db_ok. intros Ht. by injection Ht as -> -> ->. Qed.

Lemma run_op_ok op d : db_ok d -> db_ok (run_op op d).
Proof.
  intros Hok. pose proof Hok as (Hg & Hr & Hi). destruct op; simpl; unfold db_ok.
  - destruct (wp_fst _ _ _ (AddGroup_wp name d Hg)) as (_ & -> & -> & Hrows).
    split_and!; try done. destruct (AddGroup name d).2 as [g| | |]; [|by rewrite Hrows..].
    by destruct Hrows as (_ & _ & ?).
  - by destruct (wp_fst _ _ _ (UpdateGroupName_wp uuid name d Hg)) as (_ & -> & -> & ? & _).
  - destruct (wp_fst _ _ _ (db_RemoveGroup_wp group d)) as (_ & Hr' & Hi' & Hrows).
    rewrite Hr', Hi', Hrows. split_and!; try done.
    destruct (db_RemoveGroup group d).2; [by apply unique_rows_filter|done..].
  - destruct (wp_fst _ _ _ (GetGroup_wp group d)) as (_ & Ht & _). by eapply tables_ok.
  - destruct (wp_fst _ _ _ (AddRole_wp name d Hr)) as (_ & Hg' & Hi' & Hrows).
    rewrite Hg', Hi'. split_and!; try done.
    destruct (AddRole name d).2 as [g| | |]; [|by rewrite Hrows..].
    by destruct Hrows as (_ & _ & ?).
  - by destruct (wp_fst _ _ _ (UpdateRoleName_wp oldName name d Hr)) as (_ & -> & -> & ? & _).
  - destruct (wp_fst _ _ _ (db_RemoveRole_wp role d)) as (_ & Hg' & Hi' & Hrows).
    rewrite Hg', Hi', Hrows. split_and!; try done.
    destruct (db_RemoveRole role d).2; [by apply unique_rows_filter|done..].
  - destruct (wp_fst _ _ _ (GetRole_wp role d)) as (_ & Ht & _). by eapply tables_ok.
  - destruct (wp_fst _ _ _ (GetIdentity_wp u d Hi)) as (_ & Hg' & Hr' & Hi' & _).
    by rewrite Hg', Hr'.
  - destruct (wp_fst _ _ _ (UpdateIdentity_wp u d Hi)) as (_ & Hg' & Hr' & Hi' & _).
    by rewrite Hg', Hr'.
Qed.


(** A lookup without name and UUID is refused. *)
Lemma GetGroup_needs_key lookup d d' g :
  GetGroup lookup d = (d', Ok g) -> ~ (g_UUID lookup = "" /\ g_Name lookup = "").
Proof.
  intros Hget Hnone. revert g Hget.
  enough (wp (GetGroup lookup) (fun o _ => forall g, o <> Ok g) d) as Hwp
    by (intros g Hget; by apply (wp_elim _ _ _ _ _ Hwp Hget g)).
  unfold GetGroup. apply wp_ready; [|done]. intros _ _. by rewrite decide_True.
Qed.

(** A group that was just added is found under its name and under its
    UUID: a lookup that does not fail returns that very row. *)
Theorem AddGroup_GetGroup_roundtrip d d1 g name lookup d2 g2 :
  db_ok d -> AddGroup name d = (d1, Ok g) ->
  lookup = MkGroup 0 0 0 name "" \/ lookup = MkGroup 0 0 0 "" (g_UUID g) ->
  GetGroup lookup d1 = (d2, Ok g2) ->
  g2 = g /\ g_Name g = name /\ g_UUID g = uuid_at (db_next_uuid d) /\ tables d2 = tables d1.
Proof.
  intros (Hg & _) Hadd Hl Hget. pose proof (GetGroup_needs_key _ _ _ _ Hget) as Hkey.
  destruct (wp_elim _ _ _ _ _ (AddGroup_wp name d Hg) Hadd) as (_ & _ & _ & (k & now & Hk & ->) & Hrows & Hu).
  destruct (wp_elim _ _ _ _ _ (GetGroup_wp lookup d1) Hget) as (_ & Ht & Hg2).
  destruct (Hg2 g2 eq_refl) as [Hin Hw]. split_and!; try done.
  apply (proj2 Hu); [done|rewrite Hrows; set_solver|]. simpl.
  unfold group_where in Hw.
  rewrite !andb_true_iff, !orb_true_iff, !bool_decide_eq_true in Hw. destruct Hw as [[_ Hu2] Hn2].
  apply orb_true_iff; rewrite !bool_decide_eq_true.
  destruct Hl as [-> | ->]; simpl in *; naive_solver.
Qed.

(** [GetIdentity] is a get-or-create: it returns an identity of the asked
    name that is in the database afterwards, adds at most that one row and
    changes no other; asking again for the same name returns the same identity
    and adds nothing. *)
Theorem GetIdentity_idempotent d d1 i u d2 i2 :
  db_ok d -> GetIdentity u d = (d1, Ok i) -> GetIdentity u d1 = (d2, Ok i2) ->
  i_Name i = i_Name u /\ i ∈ rows (db_identities d1) /\
  (rows (db_identities d1) = rows (db_identities d) \/
   rows (db_identities d1) = rows (db_identities d) ++ [i]) /\
  i2 = i /\ rows (db_identities d2) = rows (db_identities d1).
Proof.
  intros (_ & _ & Hi) Hfst Hsnd.
  destruct (wp_elim _ _ _ _ _ (GetIdentity_wp u d Hi) Hfst) as (_ & _ & _ & Hu1 & Hin & Hn & Hor).
  destruct (wp_elim _ _ _ _ _ (GetIdentity_wp u d1 Hu1) Hsnd) as (_ & _ & _ & Hu2 & Hin2 & Hn2 & Hor2).
  assert (i ∈ rows (db_identities d2)) as Hi2
    by (destruct Hor2 as [->|(_ & -> & _)]; set_solver).
  assert (i2 = i) as ->.
  { apply (proj2 Hu2); try done. simpl. apply bool_decide_eq_true. congruence. }
  split_and!; try done; [destruct Hor as [?|(_ & ? & _)]; auto|].
  destruct Hor2 as [?|(_ & Hrows & [Hnd _])]; [done|]. exfalso.
  rewrite Hrows, fmap_app, NoDup_app in Hnd. destruct Hnd as (_ & Hno & _).
  apply (Hno (i_ID i)); [by apply list_elem_of_fmap_2|]. simpl. set_solver.
Qed.

End properties.
