(* ===== verification/RefDb.v ===== *)
(** * RefDb: a reference table that satisfies the laws of the ORM.

    A table is the list of its rows and whether the server can be reached.
    The instance shows that the hypotheses [GormLaws] of the theorems can hold
    together, and it is the database on which concrete runs are evaluated. *)

From stdpp Require Import sorting.
From Stdlib Require Import Sorted.
From S2P Require Import Prelude Errors Regexp Names AuthModel RefServer OpenFGA Dbmodel Users Database.

Record Tbl (R : Type) := MkTbl { t_rows : list R; t_down : bool }.
Arguments MkTbl {R}.
Arguments t_rows {R}.
Arguments t_down {R}.

Definition connectionRefused : gerror := ErrForeign "" "08006" "connection refused".
Definition duplicateKey : gerror := ErrForeign "" pgUniqueViolation "duplicate key value".

(** Insertion by a string key. *)
Fixpoint insert_by {R} (key : R -> string) (r : R) (l : list R) : list R :=
  match l with
  | [] => [r]
  | x :: l' => if String.leb (key r) (key x) then r :: l else x :: insert_by key r l'
  end.
Definition sort_by {R} (key : R -> string) (l : list R) : list R := foldr (insert_by key) [] l.

Definition next_id {R} `{Row R} (l : list R) : Z :=
  1 + foldr (fun r m => Z.max (row_id r) m) 0%Z l.

(** The constraints, as a check. *)
Fixpoint uniqueb {R} `{Row R} (l : list R) : bool :=
  match l with
  | [] => true
  | r :: l' =>
      forallb (fun x => negb (row_conflict r x) && negb (row_conflict x r)
                        && negb (row_id r =? row_id x)%Z) l' && uniqueb l'
  end.

Section ops.
Context {R : Type}.

Definition up {A} (m : M (Tbl R) A) : M (Tbl R) A := fun t =>
  if t_down t then (t, Err connectionRefused) else m t.

Definition tbl_first (p : R -> bool) : M (Tbl R) R := up (fun t =>
  match List.find p (t_rows t) with
  | Some r => (t, Ok r)
  | None => (t, Err ErrRecordNotFound)
  end).

(** A row with its new key, if the table accepts it. *)
Definition tbl_insert `{Row R} (r : R) (t : Tbl R) : option (Tbl R * R) :=
  let r' := row_created (next_id (t_rows t)) 1 r in
  let l := t_rows t ++ [r'] in
  if existsb (fun x => row_conflict r x) (t_rows t) then None
  else if uniqueb l then if (next_id (t_rows t) =? 0)%Z then None else Some (MkTbl l (t_down t), r')
  else None.

Definition tbl_create `{Row R} (r : R) : M (Tbl R) R := up (fun t =>
  match tbl_insert r t with
  | Some (t', r') => (t', Ok r')
  | None => (t, Err duplicateKey)
  end).

Definition tbl_create_nothing `{Row R} (r : R) : M (Tbl R) (option R) := up (fun t =>
  match tbl_insert r t with
  | Some (t', r') => (t', Ok (Some r'))
  | None => if existsb (fun x => row_conflict r x) (t_rows t) then (t, Ok None)
            else (t, Err duplicateKey)
  end).

Definition tbl_update `{Row R} (p : R -> bool) (g : R -> R) : M (Tbl R) Z := fun t =>
  let l := (fun r => if p r then row_touched 2 (g r) else r) <$> t_rows t in
  let n := Z.of_nat (length (filter (fun r => p r = true) (t_rows t))) in
  if negb (t_down t) && uniqueb l && (0 <? n)%Z then (MkTbl l (t_down t), Ok n)
  else (t, Ok 0%Z).

Definition tbl_delete `{Row R} (r : R) : M (Tbl R) unit := up (fun t =>
  if decide (row_id r = 0%Z) then (t, Err (ErrString "WHERE conditions required"))
  else (MkTbl (filter (fun x => row_id x <> row_id r) (t_rows t)) (t_down t), Ok tt)).

Definition tbl_save `{Row R} (r : R) : M (Tbl R) R := up (fun t =>
  if decide (row_id r = 0%Z) then tbl_create r t else
  let r' := row_touched 3 r in
  let l := if decide (row_id r ∈ row_id <$> t_rows t)
           then (fun x => if decide (row_id x = row_id r) then r' else x) <$> t_rows t
           else t_rows t ++ [r'] in
  if uniqueb l then (MkTbl l (t_down t), Ok r') else (t, Err duplicateKey)).

Definition tbl_delete_affected `{Row R} (p : R -> bool) : M (Tbl R) Z := up (fun t =>
  (MkTbl (filter (fun x => p x = false) (t_rows t)) (t_down t), Ok (Z.of_nat (length (filter (fun x => p x = true) (t_rows t)))))).

Definition tbl_count (p : R -> bool) : M (Tbl R) Z := up (fun t =>
  (t, Ok (Z.of_nat (length (filter (fun r => p r = true) (t_rows t)))))).

Definition tbl_find (p : R -> bool) (key : R -> string) (limit offset : option nat)
    : M (Tbl R) (list R) := up (fun t =>
  (t, Ok (page_of limit offset (sort_by key (filter (fun r => p r = true) (t_rows t)))))).

Fixpoint insert_last (k : R -> Z) (r : R) (l : list R) : list R :=
  match l with
  | [] => [r]
  | x :: l => if (k x <=? k r)%Z then r :: x :: l else x :: insert_last k r l
  end.
Definition sort_desc_by (k : R -> Z) (l : list R) : list R := foldr (insert_last k) [] l.

Definition tbl_scan (p : R -> bool) (key : option (R -> Z)) (limit offset : option nat) : M (Tbl R) (list R) := up (fun t =>
  let found := filter (fun r => p r = true) (t_rows t) in
  (t, Ok (page_of limit offset (match key with Some k => sort_desc_by k found | None => found end)))).

End ops.

(** [LIKE] with a pattern %m%. *)
Definition like_infix (pattern s : string) : bool :=
  Contains s (String.substring 1 (String.length pattern - 2) pattern).

#[export] Instance Tbl_gorm : Gorm Tbl := {|
  rows R := t_rows;
  gorm_up R t := t_down t = false;
  gorm_order R := sort_by;
  gorm_like := like_infix;
  gorm_first R := tbl_first;
  gorm_create R _ := tbl_create;
  gorm_create_nothing R _ := tbl_create_nothing;
  gorm_update R _ := tbl_update;
  gorm_save R _ := tbl_save;
  gorm_delete R _ := tbl_delete;
  gorm_delete_affected R _ := tbl_delete_affected;
  gorm_count R := tbl_count;
  gorm_find R := tbl_find;
  gorm_scan R := tbl_scan;
|}.

(** ** The laws *)

Lemma insert_last_perm {R} k (r : R) l : Permutation (insert_last k r l) (r :: l).
Proof.
  induction l as [|x l IH]; simpl; [done|]. destruct (_ <=? _)%Z; [done|]. rewrite IH. apply Permutation_swap.
Qed.
Lemma sort_desc_by_perm {R} k (l : list R) : Permutation (sort_desc_by k l) l.
Proof. induction l as [|x l IH]; simpl; [done|]. by rewrite insert_last_perm, IH. Qed.
Lemma insert_last_sorted {R} k (r : R) l :
  StronglySorted (fun a b => (k b <= k a)%Z) l -> StronglySorted (fun a b => (k b <= k a)%Z) (insert_last k r l).
Proof.
  induction 1 as [|x l Hl IH Hx]; simpl; [repeat constructor|]. destruct (_ <=? _)%Z eqn:Hk.
  - apply Z.leb_le in Hk. constructor; [by constructor|]. constructor; [done|]. eapply Forall_impl; [exact Hx|]. simpl. lia.
  - apply Z.leb_gt in Hk. constructor; [done|]. rewrite insert_last_perm. constructor; [lia|done].
Qed.
Lemma sort_desc_by_sorted {R} k (l : list R) : StronglySorted (fun a b => (k b <= k a)%Z) (sort_desc_by k l).
Proof. induction l as [|x l IH]; simpl; [constructor|]. by apply insert_last_sorted. Qed.

Lemma insert_by_perm {R} key (r : R) l : Permutation (insert_by key r l) (r :: l).
Proof.
  induction l as [|x l IH]; simpl; [done|]. case_match; [done|]. rewrite IH. apply Permutation_swap.
Qed.

Lemma sort_by_perm {R} key (l : list R) : Permutation (sort_by key l) l.
Proof. induction l as [|x l IH]; simpl; [done|]. by rewrite insert_by_perm, IH. Qed.

Lemma uniqueb_sound {R} `{Row R} (l : list R) : uniqueb l = true -> unique_rows l.
Proof.
  induction l as [|r l IH]; intros Hu; [split; [constructor|set_solver]|].
  cbn in Hu. apply andb_true_iff in Hu as [Hr Hl]. destruct (IH Hl) as [Hnd Hc].
  rewrite forallb_forall in Hr. split.
  - cbn. constructor; [|done]. intros (x & Hx & Hin)%list_elem_of_fmap.
    apply list_elem_of_In, Hr in Hin. rewrite !andb_true_iff, !negb_true_iff in Hin.
    destruct Hin as [_ Hin]. apply Z.eqb_neq in Hin. done.
  - intros a b Ha Hb Hab.
    apply elem_of_cons in Ha as [->|Ha]; apply elem_of_cons in Hb as [->|Hb]; try done.
    + apply list_elem_of_In, Hr in Hb. rewrite !andb_true_iff, !negb_true_iff in Hb. naive_solver congruence.
    + apply list_elem_of_In, Hr in Ha. rewrite !andb_true_iff, !negb_true_iff in Ha. naive_solver congruence.
    + by apply Hc.
Qed.

Lemma tbl_insert_spec {R} `{Row R} (r : R) t t' r' :
  tbl_insert r t = Some (t', r') -> inserted r r' (t_rows t) (t_rows t').
Proof.
  unfold tbl_insert. destruct (existsb _ _); [done|]. destruct (uniqueb _) eqn:Hu; [|done].
  destruct (_ =? _)%Z eqn:Hz; [done|]. intros. simplify_eq. split_and!; [|done|].
  - exists (next_id (t_rows t)), 1%Z. split; [by apply Z.eqb_neq|done].
  - by apply uniqueb_sound.
Qed.

Lemma tbl_first_law {R} p (t : Tbl R) :
  wp (tbl_first p) (fun o t' => t_rows t' = t_rows t /\ answered o /\
      match o with
      | Ok r => r ∈ t_rows t /\ p r = true
      | Err e => (e = ErrRecordNotFound -> Forall (fun r => p r = false) (t_rows t)) /\
                 (t_down t = false -> e = ErrRecordNotFound) /\ ErrorCode e = ""
      | _ => True
      end) t.
Proof.
  unfold tbl_first, up, wp. destruct (t_down t); [by split_and!|].
  destruct (List.find p (t_rows t)) as [r|] eqn:Hf; split_and!; try done.
  - apply List.find_some in Hf as [Hin _]. by apply list_elem_of_In.
  - by apply List.find_some in Hf as [_ ?].
  - intros _. apply Forall_forall. intros r Hr%list_elem_of_In. by eapply List.find_none.
Qed.

#[export] Instance Tbl_laws : GormLaws Tbl.
Proof.
  split.
  - intros R. apply @sort_by_perm.
  - intros R p t. exact (tbl_first_law p t).
  - intros R ? r t _. cbn. unfold tbl_create, up, wp. destruct (t_down t); [done|].
    destruct (tbl_insert r t) as [[t' r']|] eqn:Hi; [|done]. split; [done|]. by apply tbl_insert_spec.
  - intros R ? r t _. cbn. unfold tbl_create_nothing, up, wp. destruct (t_down t); [done|].
    destruct (tbl_insert r t) as [[t' r']|] eqn:Hi.
    + split; [done|]. by apply tbl_insert_spec.
    + destruct (existsb _ _) eqn:He; [|done]. split_and!; try done.
      apply existsb_exists in He as (x & Hx & Hc). apply Exists_exists. exists x.
      split; [by apply list_elem_of_In|done].
  - intros R ? p g t _ _. cbn. unfold tbl_update, wp.
    destruct (negb (t_down t) && _ && _) eqn:Hc; [|naive_solver].
    apply andb_true_iff in Hc as [[_ Hu]%andb_true_iff Hn]. apply Z.ltb_lt in Hn.
    eexists; split; [done|]. right. exists 2%Z. split_and!; [done..|]. by apply uniqueb_sound.
  - intros R ? r t _. cbn. unfold tbl_save, up, wp, saved. destruct (t_down t) eqn:Hd; [done|].
    case_decide as Hz.
    + unfold tbl_create, up. rewrite Hd.
      destruct (tbl_insert r t) as [[t' r']|] eqn:Hi; [|done]. split; [done|]. by apply tbl_insert_spec.
    + set (l := if decide _ then _ else _). destruct (uniqueb l) eqn:Hu; [|done].
      split_and!; [done|by exists 3%Z|by apply uniqueb_sound|done].
  - intros R ? p t. cbn. unfold tbl_delete_affected, up, wp. by destruct (t_down t).
  - intros R ? r t. cbn. unfold tbl_delete, up, wp. destruct (t_down t); [done|].
    by destruct (decide _).
  - intros R p t. cbn. unfold tbl_count, up, wp. destruct (t_down t); split_and!; try done.
    intros n Hn. by apply (inj Ok) in Hn.
  - intros R p key limit offset t. cbn. unfold tbl_find, up, wp. destruct (t_down t); split_and!; try done.
    intros l Hl. by apply (inj Ok) in Hl.
  - intros R p key limit offset t. cbn. unfold tbl_scan, up, wp. destruct (t_down t); split_and!; try done.
    intros l Hl. apply (inj Ok) in Hl as <-. eexists. split_and!; [..|done]; destruct key as [k|]; try done; [apply sort_desc_by_perm|].
    intros k' [= <-]. apply sort_desc_by_sorted.
Qed.
