(* ===== verification/Encoding.v ===== *)
(** * Encoding: the parts of Go's [encoding/base64] and [encoding/json] that
    JIMM's page tokens use.

    Strings are sequences of bytes.  [b64_encode]/[b64_decode] are
    [base64.StdEncoding]; [json_quote] writes a Go string as JSON text and
    [parse_json] reads a JSON document, replacing invalid UTF-8 on the way as
    Go does.  Error texts of the standard library are given without their
    positions. *)

From Stdlib Require Import Ascii NArith.
From S2P Require Import Prelude Errors Regexp.

Definition code (c : ascii) : N := N_of_ascii c.

(** ** base64 *)

Definition b64_alphabet : string :=
  "ABCDEFGHIJKLMNOPQRSTUVWXYZabcdefghijklmnopqrstuvwxyz0123456789+/".

Definition b64_char (n : N) : ascii :=
  match String.get (N.to_nat n) b64_alphabet with Some c => c | None => "A"%char end.

Fixpoint b64_find (c : ascii) (s : string) (n : N) : option N :=
  match s with
  | EmptyString => None
  | String a s => if Ascii.eqb a c then Some n else b64_find c s (n + 1)
  end.
Definition b64_val (c : ascii) : option N := b64_find c b64_alphabet 0.

Fixpoint b64_encode (s : string) : string :=
  match s with
  | EmptyString => EmptyString
  | String a EmptyString =>
      String (b64_char (code a / 4)) (String (b64_char (code a mod 4 * 16)) "==")
  | String a (String b EmptyString) =>
      String (b64_char (code a / 4)) (String (b64_char (code a mod 4 * 16 + code b / 16))
        (String (b64_char (code b mod 16 * 4)) "="))
  | String a (String b (String c s)) =>
      String (b64_char (code a / 4)) (String (b64_char (code a mod 4 * 16 + code b / 16))
        (String (b64_char (code b mod 16 * 4 + code c / 64)) (String (b64_char (code c mod 64))
          (b64_encode s))))
  end.

(** The decoder ignores line ends. *)
Fixpoint b64_strip (s : string) : string :=
  match s with
  | EmptyString => EmptyString
  | String c s => if (code c =? 10)%N || (code c =? 13)%N then b64_strip s else String c (b64_strip s)
  end.

Definition b64_byte (n : N) : ascii := ascii_of_N (n mod 256).

Fixpoint b64_quads (s : string) : option string :=
  match s with
  | EmptyString => Some EmptyString
  | String a (String b (String c (String d s))) =>
      x ← b64_val a;
      y ← b64_val b;
      let first := b64_byte (x * 4 + y / 16) in
      if Ascii.eqb c "=" then
        if Ascii.eqb d "=" then match s with EmptyString => Some (String first EmptyString) | _ => None end
        else None
      else
        z ← b64_val c;
        let second := b64_byte (y * 16 + z / 4) in
        if Ascii.eqb d "=" then
          match s with EmptyString => Some (String first (String second EmptyString)) | _ => None end
        else
          w ← b64_val d;
          rest ← b64_quads s;
          Some (String first (String second (String (b64_byte (z * 64 + w)) rest)))
  | _ => None
  end.

Definition corruptInput : gerror := ErrForeign "" "" "illegal base64 data".
Definition b64_decode (s : string) : outcome string :=
  match b64_quads (b64_strip s) with Some r => Ok r | None => Err corruptInput end.

(** ** UTF-8 *)

Definition between (lo hi : N) (c : ascii) : bool := (lo <=? code c)%N && (code c <=? hi)%N.
Definition cont : ascii -> bool := between 128 191.

(** The well-formed sequences of two, three and four bytes. *)
Definition utf8_2 (a b : ascii) : bool := between 194 223 a && cont b.
Definition utf8_3 (a b c : ascii) : bool :=
  ((between 224 224 a && between 160 191 b) || ((between 225 236 a || between 238 239 a) && cont b)
   || (between 237 237 a && between 128 159 b)) && cont c.
Definition utf8_4 (a b c d : ascii) : bool :=
  ((between 240 240 a && between 144 191 b) || (between 241 243 a && cont b)
   || (between 244 244 a && between 128 143 b)) && cont c && cont d.

Definition bytes (l : list N) : string := String.string_of_list_ascii (ascii_of_N <$> l).
Definition runeError : string := bytes [239; 191; 189]%N.

(** The UTF-8 encoding of a code point. *)
Definition utf8_encode (n : N) : string :=
  if (n <? 128)%N then bytes [n]
  else if (n <? 2048)%N then bytes [192 + n / 64; 128 + n mod 64]%N
  else if (n <? 65536)%N then bytes [224 + n / 4096; 128 + n / 64 mod 64; 128 + n mod 64]%N
  else bytes [240 + n / 262144; 128 + n / 4096 mod 64; 128 + n / 64 mod 64; 128 + n mod 64]%N.

(** ** JSON text of a string *)

Definition hex_digit (n : N) : ascii :=
  match String.get (N.to_nat n) "0123456789abcdef" with Some c => c | None => "0"%char end.

(** The escape of an ASCII character; "<", ">" and "&" are escaped too. *)
Definition json_escape_char (c : ascii) : string :=
  if (code c =? 34)%N then String "\" (String c "")
  else if (code c =? 92)%N then String "\" (String c "")
  else if (code c =? 8)%N then "\b"
  else if (code c =? 12)%N then "\f"
  else if (code c =? 10)%N then "\n"
  else if (code c =? 13)%N then "\r"
  else if (code c =? 9)%N then "\t"
  else if (code c <? 32)%N || (code c =? 60)%N || (code c =? 62)%N || (code c =? 38)%N
  then "\u00" +:+ String (hex_digit (code c / 16)) (String (hex_digit (code c mod 16)) "")
  else String c "".

Fixpoint json_escape (s : string) : string :=
  match s with
  | EmptyString => EmptyString
  | String a s0 =>
      if (code a <? 128)%N then json_escape_char a +:+ json_escape s0
      else match s0 with
      | EmptyString => "\ufffd"
      | String b s1 =>
          if utf8_2 a b then String a (String b (json_escape s1))
          else match s1 with
          | EmptyString => "\ufffd" +:+ json_escape s0
          | String c s2 =>
              if utf8_3 a b c then
                if (code a =? 226)%N && (code b =? 128)%N && ((code c =? 168)%N || (code c =? 169)%N)
                then (if (code c =? 168)%N then "\u2028" else "\u2029") +:+ json_escape s2
                else String a (String b (String c (json_escape s2)))
              else match s2 with
              | EmptyString => "\ufffd" +:+ json_escape s0
              | String d s3 =>
                  if utf8_4 a b c d then String a (String b (String c (String d (json_escape s3))))
                  else "\ufffd" +:+ json_escape s0
              end
          end
      end
  end.

Definition dquote : ascii := ascii_of_N 34.
Definition json_quote (s : string) : string :=
  String dquote (json_escape s +:+ String dquote "").

(** ** Reading JSON *)

#[warnings="-register-all"]
Inductive json :=
| JNull
| JBool (b : bool)
| JNum (text : string)
| JStr (s : string)
| JArr (l : list json)
| JObj (fields : list (string * json)).

(** A string literal is first read as bytes and \u units. *)
Inductive lit_unit := Raw (c : ascii) | Uni (n : N).

Definition hex_val (c : ascii) : option N :=
  if is_digit c then Some (code c - 48)%N
  else if in_range "a" "f" c then Some (code c - 87)%N
  else if in_range "A" "F" c then Some (code c - 55)%N
  else None.

Definition simple_escape (c : ascii) : option ascii :=
  if (code c =? 34)%N || (code c =? 92)%N || (code c =? 47)%N then Some c
  else if Ascii.eqb c "b" then Some (ascii_of_N 8)
  else if Ascii.eqb c "f" then Some (ascii_of_N 12)
  else if Ascii.eqb c "n" then Some (ascii_of_N 10)
  else if Ascii.eqb c "r" then Some (ascii_of_N 13)
  else if Ascii.eqb c "t" then Some (ascii_of_N 9)
  else None.

(** The units up to the closing quote, and the text after it. *)
Fixpoint scan_units (s : string) : option (list lit_unit * string) :=
  match s with
  | EmptyString => None
  | String c s0 =>
      if Ascii.eqb c dquote then Some ([], s0)
      else if (code c <? 32)%N then None
      else if (code c =? 92)%N then
        match s0 with
        | String e s1 =>
            if Ascii.eqb e "u" then
              match s1 with
              | String h1 (String h2 (String h3 (String h4 s2))) =>
                  a ← hex_val h1; b ← hex_val h2; c ← hex_val h3; d ← hex_val h4;
                  '(us, rest) ← scan_units s2;
                  Some (Uni (((a * 16 + b) * 16 + c) * 16 + d) :: us, rest)
              | _ => None
              end
            else
              x ← simple_escape e;
              '(us, rest) ← scan_units s1;
              Some (Raw x :: us, rest)
        | EmptyString => None
        end
      else '(us, rest) ← scan_units s0; Some (Raw c :: us, rest)
  end.

Definition high_surrogate (n : N) : bool := (55296 <=? n)%N && (n <? 56320)%N.
Definition low_surrogate (n : N) : bool := (56320 <=? n)%N && (n <? 57344)%N.

(** The Go string of a literal: surrogate pairs are joined, a lone surrogate
    and every byte that is not part of well-formed UTF-8 is replaced. *)
Fixpoint decode_units (us : list lit_unit) : string :=
  match us with
  | [] => EmptyString
  | Uni n :: us0 =>
      if high_surrogate n then
        match us0 with
        | Uni m :: us1 =>
            if low_surrogate m
            then utf8_encode (65536 + (n - 55296) * 1024 + (m - 56320)) +:+ decode_units us1
            else runeError +:+ decode_units us0
        | _ => runeError +:+ decode_units us0
        end
      else if low_surrogate n then runeError +:+ decode_units us0
      else utf8_encode n +:+ decode_units us0
  | Raw a :: us0 =>
      if (code a <? 128)%N then String a (decode_units us0)
      else match us0 with
      | Raw b :: us1 =>
          if utf8_2 a b then String a (String b (decode_units us1))
          else match us1 with
          | Raw c :: us2 =>
              if utf8_3 a b c then String a (String b (String c (decode_units us2)))
              else match us2 with
              | Raw d :: us3 =>
                  if utf8_4 a b c d
                  then String a (String b (String c (String d (decode_units us3))))
                  else runeError +:+ decode_units us0
              | _ => runeError +:+ decode_units us0
              end
          | _ => runeError +:+ decode_units us0
          end
      | _ => runeError +:+ decode_units us0
      end
  end.

Definition parse_str (s : string) : option (string * string) :=
  '(us, rest) ← scan_units s; Some (decode_units us, rest).

Definition is_space (c : ascii) : bool :=
  (code c =? 32)%N || (code c =? 9)%N || (code c =? 10)%N || (code c =? 13)%N.
Fixpoint skip_space (s : string) : string :=
  match s with
  | String c s' => if is_space c then skip_space s' else s
  | EmptyString => s
  end.

Fixpoint strip_prefix (p s : string) : option string :=
  match p, s with
  | EmptyString, _ => Some s
  | String a p, String b s => if Ascii.eqb a b then strip_prefix p s else None
  | _, _ => None
  end.

Definition json_number : re :=
  Seqs [Opt (Lit "-"); Alt (Seq (Cls (in_range "1" "9")) (Star is_digit)) (Lit "0");
        Opt (Seq (Lit ".") (Plus is_digit));
        Opt (Seqs [Alt (Lit "e") (Lit "E"); Opt (Alt (Lit "+") (Lit "-")); Plus is_digit])].

Definition parse_num (s : string) : option (string * string) :=
  match FindString (Seq Bot json_number) s with
  | EmptyString => None
  | n => rest ← strip_prefix n s; Some (n, rest)
  end.

(** A value, the elements of an array after its bracket, the fields of an
    object after its brace.  The fuel bounds the nesting and the length. *)
Fixpoint parse_value (fuel : nat) (s : string) : option (json * string) :=
  match fuel with
  | 0%nat => None
  | S fuel =>
      match skip_space s with
      | EmptyString => None
      | String c s0 as s1 =>
          if Ascii.eqb c dquote then '(x, rest) ← parse_str s0; Some (JStr x, rest)
          else if Ascii.eqb c "{" then
            match skip_space s0 with
            | String "}" rest => Some (JObj [], rest)
            | _ => '(fs, rest) ← parse_fields fuel s0; Some (JObj fs, rest)
            end
          else if Ascii.eqb c "[" then
            match skip_space s0 with
            | String "]" rest => Some (JArr [], rest)
            | _ => '(l, rest) ← parse_elems fuel s0; Some (JArr l, rest)
            end
          else match strip_prefix "null" s1, strip_prefix "true" s1, strip_prefix "false" s1 with
          | Some rest, _, _ => Some (JNull, rest)
          | _, Some rest, _ => Some (JBool true, rest)
          | _, _, Some rest => Some (JBool false, rest)
          | _, _, _ => '(n, rest) ← parse_num s1; Some (JNum n, rest)
          end
      end
  end
with parse_elems (fuel : nat) (s : string) : option (list json * string) :=
  match fuel with
  | 0%nat => None
  | S fuel =>
      '(v, s1) ← parse_value fuel s;
      match skip_space s1 with
      | String "," s2 => '(l, rest) ← parse_elems fuel s2; Some (v :: l, rest)
      | String "]" rest => Some ([v], rest)
      | _ => None
      end
  end
with parse_fields (fuel : nat) (s : string) : option (list (string * json) * string) :=
  match fuel with
  | 0%nat => None
  | S fuel =>
      match skip_space s with
      | String c s0 =>
          if Ascii.eqb c dquote then
            '(k, s1) ← parse_str s0;
            match skip_space s1 with
            | String ":" s2 =>
                '(v, s3) ← parse_value fuel s2;
                match skip_space s3 with
                | String "," s4 => '(l, rest) ← parse_fields fuel s4; Some ((k, v) :: l, rest)
                | String "}" rest => Some ([(k, v)], rest)
                | _ => None
                end
            | _ => None
            end
          else None
      | EmptyString => None
      end
  end.

(** A whole document.  Every level of nesting and every element takes at least
    one character, so twice the length is enough fuel. *)
Definition parse_json (s : string) : option json :=
  match parse_value (2 * String.length s + 2) s with
  | Some (v, rest) => match skip_space rest with EmptyString => Some v | _ => None end
  | None => None
  end.

(** ** Round trips *)

Section base64.
Ltac Zify.zify_post_hook ::= Z.to_euclidean_division_equations.

Lemma b64_val_char n : (n < 64)%N -> b64_val (b64_char n) = Some n.
Proof.
  intros Hn. rewrite <- (N2Nat.id n).
  assert (N.to_nat n < 64)%nat as Hm by lia. revert Hm. generalize (N.to_nat n). clear. intros m Hm.
  do 64 (destruct m as [|m]; [vm_compute; reflexivity|]). lia.
Qed.

Lemma b64_char_plain n : (n < 64)%N ->
  Ascii.eqb (b64_char n) "=" = false /\ (code (b64_char n) =? 10)%N = false /\
  (code (b64_char n) =? 13)%N = false.
Proof.
  intros Hn. rewrite <- (N2Nat.id n).
  assert (N.to_nat n < 64)%nat as Hm by lia. revert Hm. generalize (N.to_nat n). clear. intros m Hm.
  do 64 (destruct m as [|m]; [vm_compute; by split_and!|]). lia.
Qed.

Lemma code_bound c : (code c < 256)%N.
Proof. apply N_ascii_bounded. Qed.

Lemma b64_byte_code n c : n = code c -> b64_byte n = c.
Proof.
  intros ->. unfold b64_byte. rewrite N.mod_small by apply code_bound. apply ascii_N_embedding.
Qed.

(** The three bytes of a quad. *)
Lemma b64_join a b c :
  let A := code a in let B := code b in let C := code c in
  b64_byte (A / 4 * 4 + (A mod 4 * 16 + B / 16) / 16) = a /\
  b64_byte ((A mod 4 * 16 + B / 16) * 16 + (B mod 16 * 4 + C / 64) / 4) = b /\
  b64_byte ((B mod 16 * 4 + C / 64) * 64 + C mod 64) = c.
Proof.
  intros A B C. pose proof (code_bound a : (A < 256)%N).
  pose proof (code_bound b : (B < 256)%N). pose proof (code_bound c : (C < 256)%N).
  split_and!; (rewrite <- ascii_N_embedding; unfold b64_byte; f_equal; fold (code a) (code b) (code c)).
  - change (code a) with A. lia.
  - change (code b) with B. lia.
  - change (code c) with C. lia.
Qed.

Lemma code_lt_div a : (code a / 4 < 64)%N /\ (code a mod 4 * 16 < 64)%N.
Proof. pose proof (code_bound a). lia. Qed.

(** The sextets of three bytes. *)
Lemma sextets a b c :
  (code a / 4 < 64)%N /\ (code a mod 4 * 16 + code b / 16 < 64)%N /\
  (code b mod 16 * 4 + code c / 64 < 64)%N /\ (code c mod 64 < 64)%N.
Proof.
  pose proof (code_bound a). pose proof (code_bound b). pose proof (code_bound c). lia.
Qed.

(** A step of a fixpoint over the bytes, three at a time. *)
Lemma bytes3_ind (P : string -> Prop) :
  P "" -> (forall a, P (String a "")) -> (forall a b, P (String a (String b ""))) ->
  (forall a b c s, P s -> P (String a (String b (String c s)))) -> forall s, P s.
Proof.
  intros H0 H1 H2 H3. fix IH 1. intros [|a [|b [|c s]]]; [done|done|done|]. apply H3, IH.
Qed.

Lemma b64_strip_encode s : b64_strip (b64_encode s) = b64_encode s.
Proof.
  assert (forall n t, (n < 64)%N -> b64_strip (String (b64_char n) t) = String (b64_char n) (b64_strip t)) as Hs.
  { intros n t Hn. cbn [b64_strip]. destruct (b64_char_plain n Hn) as (_ & -> & ->). done. }
  induction s as [|a|a b|a b c s IH] using bytes3_ind; cbn [b64_encode]; [done|..].
  - destruct (code_lt_div a). by rewrite !Hs.
  - destruct (sextets a b zero) as (? & ? & ? & _). change (code zero / 64)%N with 0%N in *.
    rewrite N.add_0_r in *. by rewrite !Hs.
  - destruct (sextets a b c) as (? & ? & ? & ?). by rewrite !Hs, IH.
Qed.

Lemma b64_quads_encode s : b64_quads (b64_encode s) = Some s.
Proof.
  induction s as [|a|a b|a b c s IH] using bytes3_ind; [done|..]; cbn [b64_encode b64_quads].
  - destruct (code_lt_div a). rewrite !b64_val_char by done. cbn [mbind option_bind].
    destruct (b64_join a zero zero) as (Ha & _). change (code zero / 16)%N with 0%N in Ha.
    rewrite N.add_0_r in Ha. simpl. by rewrite Ha.
  - destruct (sextets a b zero) as (? & ? & ? & _). destruct (b64_join a b zero) as (Ha & Hb & _).
    change (code zero / 64)%N with 0%N in *. rewrite N.add_0_r in *.
    rewrite !b64_val_char by done. cbn [mbind option_bind].
    destruct (b64_char_plain (code b mod 16 * 4)) as (-> & _); [done|]. simpl. by rewrite Ha, Hb.
  - destruct (sextets a b c) as (? & ? & ? & ?). destruct (b64_join a b c) as (Ha & Hb & Hc).
    rewrite !b64_val_char by done. cbn [mbind option_bind].
    destruct (b64_char_plain (code b mod 16 * 4 + code c / 64)) as (-> & _); [done|].
    destruct (b64_char_plain (code c mod 64)) as (-> & _); [done|].
    rewrite IH. simpl. by rewrite Ha, Hb, Hc.
Qed.

Lemma b64_roundtrip s : b64_decode (b64_encode s) = Ok s.
Proof. unfold b64_decode. by rewrite b64_strip_encode, b64_quads_encode. Qed.

End base64.

Section json.

Definition is_ascii (c : ascii) : bool := (code c <? 128)%N.

Lemma str_app_assoc_r (a b c : string) : (a +:+ b) +:+ c = a +:+ (b +:+ c).
Proof. induction a as [|x a IH]; simpl; [done|]. by rewrite IH. Qed.

(** The text of a character is read back as that character. *)
Lemma scan_escape_char c rest :
  is_ascii c = true ->
  exists u, scan_units (json_escape_char c +:+ rest)
            = ('(us, r) ← scan_units rest; Some (u :: us, r)) /\
            forall us, decode_units (u :: us) = String c (decode_units us).
Proof.
  destruct c as [[] [] [] [] [] [] [] []]; intros Hc; try (by vm_compute in Hc);
    (eexists; split; [reflexivity|]; intros us; reflexivity).
Qed.

(** A JSON string literal of an ASCII string is read back. *)
Lemma parse_str_escape s rest :
  str_forall is_ascii s = true ->
  parse_str (json_escape s +:+ String dquote rest) = Some (s, rest).
Proof.
  unfold parse_str. intros Hs.
  enough (exists us, scan_units (json_escape s +:+ String dquote rest) = Some (us, rest) /\
                     decode_units us = s) as (us & -> & <-) by done.
  induction s as [|c s IH]; [by exists []|].
  cbn in Hs. apply andb_true_iff in Hs as [Hc Hs]. destruct (IH Hs) as (us & Hus & Hd).
  cbn [json_escape]. unfold is_ascii in Hc. rewrite Hc.
  destruct (scan_escape_char c (json_escape s +:+ String dquote rest) Hc) as (u & Hu & Hdec).
  exists (u :: us). rewrite str_app_assoc_r, Hu, Hus, Hdec, Hd. done.
Qed.

End json.
