(* ===== verification/Pagination.v ===== *)
(** * Pagination: [internal/common/pagination].

    Limit/offset pages for the database, token pages for OpenFGA, and the
    entitlement tokens that walk over all resource kinds.  [int] values are
    64 bits wide.  [getNextPageAndResources] of [internal/jimmhttp/rebac_admin]
    is the client of [CreatePaginationWithoutTotal]. *)

From Stdlib Require Import Ascii.
From S2P Require Import Prelude Errors Regexp Names AuthModel RefServer OpenFGA Dbmodel Users Database Encoding.

(** ** [pagination.go] *)

Definition defaultOffsetFilterPageSize : Z := 50.
Definition maxOffsetFilterPageSize : Z := 200.
Definition defaultOpenFGAPageSize : Z := 50.
Definition maxOpenFGAPageSize : Z := 100.

Record LimitOffsetPagination := MkLimitOffset { Limit : Z; Offset : Z }.

Definition NewOffsetFilter (limit offset : Z) : LimitOffsetPagination :=
  let limit := if (limit <=? 0)%Z then defaultOffsetFilterPageSize else limit in
  let limit := if (maxOffsetFilterPageSize <? limit)%Z then maxOffsetFilterPageSize else limit in
  let offset := if (offset <? 0)%Z then 0%Z else offset in
  MkLimitOffset limit offset.

(** The page size, current page and offset of a request: the defaults when
    either pointer is nil. *)
Definition requested (sizeP pageP : option Z) : Z * Z * Z :=
  match sizeP, pageP with
  | Some size, Some page => (size, page, int64 (size * page))
  | _, _ => ((-1)%Z, 0%Z, 0%Z)
  end.

Definition CreatePagination (sizeP pageP : option Z) (total : Z)
    : Z * option Z * LimitOffsetPagination :=
  let '(pageSize, currentPage, offset) := requested sizeP pageP in
  let nextPage := if (int64 (int64 (currentPage + 1) * pageSize) <? total)%Z
                  then Some (int64 (currentPage + 1)) else None in
  (currentPage, nextPage, NewOffsetFilter pageSize offset).

Definition CreatePaginationWithoutTotal (sizeP pageP : option Z)
    : Z * Z * LimitOffsetPagination :=
  let '(pageSize, currentPage, offset) := requested sizeP pageP in
  let expectedPageSize := int64 (pageSize + 1) in
  (currentPage, expectedPageSize, NewOffsetFilter (int64 (pageSize + 1)) offset).

Record OpenFGAPagination := MkOpenFGAPage { fga_Limit : Z; fga_Token : string }.

Definition NewOpenFGAFilter (limit : Z) (token : string) : OpenFGAPagination :=
  let limit := if (limit <=? 0)%Z then defaultOpenFGAPageSize else limit in
  let limit := if (maxOpenFGAPageSize <? limit)%Z then maxOpenFGAPageSize else limit in
  MkOpenFGAPage limit token.

(** [internal/jimmhttp/rebac_admin/resources.go]. *)
Definition getNextPageAndResources {A} (currentPage expectedPageSize : Z) (resources : list A)
    : option Z * list A :=
  if (0 <? length resources)%nat && (Z.of_nat (length resources) =? expectedPageSize)%Z
  then (Some (int64 (currentPage + 1)), take (length resources - 1) resources)
  else (None, resources).

(** The rows a query with the filter returns ([ListGroups] and the like). *)
Definition page_rows {A} (p : LimitOffsetPagination) (l : list A) : list A :=
  page_of (positive (Limit p)) (positive (Offset p)) l.

(** ** [entitlement.go] *)

Definition entitlementResources : list string :=
  [ControllerTagKind; CloudTagKind; ModelTagKind; ApplicationOfferTagKind; GroupTagKind;
   IdPGroupTagKind; RoleTagKind].

Record comboToken := MkCombo { ct_Kind : string; ct_OpenFGAToken : string }.

(** [json.Marshal] of the struct, with its field tags. *)
Definition combo_json (c : comboToken) : string :=
  "{" +:+ json_quote "kind" +:+ ":" +:+ json_quote (ct_Kind c) +:+ "," +:+
  json_quote "token" +:+ ":" +:+ json_quote (ct_OpenFGAToken c) +:+ "}".

Definition MarshalToken (c : comboToken) : outcome string :=
  if decide (ct_Kind c = "") then Err (New "marshal entitlement token: kind not specified")
  else Ok (b64_encode (combo_json c)).

(** The key of a JSON field is compared without case; U+212A folds to "k". *)
Fixpoint fold_name (s : string) : string :=
  match s with
  | EmptyString => EmptyString
  | String a s0 =>
      match s0 with
      | String b (String c s2) =>
          if (code a =? 226)%N && (code b =? 132)%N && (code c =? 170)%N
          then String "k" (fold_name s2)
          else String (if is_upper a then ascii_of_N (code a + 32) else a) (fold_name s0)
      | _ => String (if is_upper a then ascii_of_N (code a + 32) else a) (fold_name s0)
      end
  end.

Definition jsonSyntaxError : gerror := ErrForeign "" "" "invalid JSON".
Definition jsonTypeError : gerror := ErrForeign "" "" "json: cannot unmarshal into Go value".

(** One field of the document: a string is stored, null leaves the value, and
    any other value of a known field is an error that the decoder reports at
    the end. *)
Definition store_field (field : string * json) (st : comboToken * bool) : comboToken * bool :=
  let '(c, bad) := st in
  let '(key, v) := field in
  if decide (fold_name key = "kind") then
    match v with
    | JStr s => (MkCombo s (ct_OpenFGAToken c), bad)
    | JNull => st
    | _ => (c, true)
    end
  else if decide (fold_name key = "token") then
    match v with
    | JStr s => (MkCombo (ct_Kind c) s, bad)
    | JNull => st
    | _ => (c, true)
    end
  else st.

Definition json_Unmarshal (out : string) (c : comboToken) : outcome comboToken :=
  match parse_json out with
  | None => Err jsonSyntaxError
  | Some JNull => Ok c
  | Some (JObj fields) =>
      let '(c, bad) := foldl (fun st f => store_field f st) (c, false) fields in
      match bad with true => Err jsonTypeError | false => Ok c end
  | Some _ => Err jsonTypeError
  end.

Definition UnmarshalToken (c : comboToken) (token : string) : outcome comboToken :=
  out ← wrap_err (fun err => Errorf "failed to decode token: %w" [ArgE err]) (b64_decode token);
  wrap_err (fun err => Errorf "failed to unmarshal token: %w" [ArgE err]) (json_Unmarshal out c).

(** An [EntitlementToken] wraps a string. *)
Definition DecodeEntitlementToken (token : string) : outcome (string * string) :=
  if decide (token = "") then Ok ("", default "" (entitlementResources !! 0%nat))
  else
    ct ← wrap_err (fun err => Errorf "failed to decode pagination token: %w" [ArgE err])
           (UnmarshalToken (MkCombo "" "") token);
    Ok (ct_OpenFGAToken ct, ct_Kind ct).

(** [slices.Index]. *)
Fixpoint index_of (x : string) (l : list string) : option nat :=
  match l with
  | [] => None
  | y :: l => if decide (y = x) then Some 0%nat else S <$> index_of x l
  end.

Definition NextEntitlementToken (kind openFGAToken : string) : outcome string :=
  let marshal ct := wrap_err (fun err => Errorf "failed to generate next entitlement token: %w" [ArgE err])
                      (MarshalToken ct) in
  if decide (openFGAToken = "") then
    match index_of kind entitlementResources with
    | None => Err (New "failed to generate next entitlement token: unable to determine next resource")
    | Some resourceIndex =>
        match entitlementResources !! S resourceIndex with
        | None => Ok ""
        | Some next => marshal (MkCombo next openFGAToken)
        end
    end
  else marshal (MkCombo kind openFGAToken).

(** ** Specification: following the pages *)

(** A client that starts at a page and asks for the next one until there is
    none. *)
Fixpoint walk_pages {A} (fuel : nat) (size page : Z) (l : list A) : option (list A) :=
  match fuel with
  | 0%nat => None
  | S fuel =>
      let '(_, nextPage, p) := CreatePagination (Some size) (Some page) (Z.of_nat (length l)) in
      match nextPage with
      | None => Some (page_rows p l)
      | Some next => app (page_rows p l) <$> walk_pages fuel size next l
      end
  end.

(** The same for listings whose total is unknown. *)
Fixpoint walk_resources {A} (fuel : nat) (size page : Z) (l : list A) : option (list A) :=
  match fuel with
  | 0%nat => None
  | S fuel =>
      let '(currentPage, expected, p) := CreatePaginationWithoutTotal (Some size) (Some page) in
      let '(nextPage, res) := getNextPageAndResources currentPage expected (page_rows p l) in
      match nextPage with
      | None => Some res
      | Some next => app res <$> walk_resources fuel size next l
      end
  end.

(** The kinds a client sees that follows entitlement tokens while every kind
    is exhausted in one page. *)
Fixpoint walk_kinds (fuel : nat) (token : string) : outcome (list string) :=
  match fuel with
  | 0%nat => OutOfFuel
  | S fuel =>
      '(_, kind) ← DecodeEntitlementToken token;
      next ← NextEntitlementToken kind "";
      if decide (next = "") then Ok [kind]
      else rest ← walk_kinds fuel next; Ok (kind :: rest)
  end.

Section facts.

Lemma NewOffsetFilter_within limit offset :
  (1 <= limit <= 200)%Z -> (0 <= offset)%Z -> NewOffsetFilter limit offset = MkLimitOffset limit offset.
Proof.
  intros Hl Ho. unfold NewOffsetFilter, maxOffsetFilterPageSize.
  rewrite (proj2 (Z.leb_gt limit 0)), (proj2 (Z.ltb_ge 200 limit)), (proj2 (Z.ltb_ge offset 0)) by lia.
  done.
Qed.

Lemma page_rows_nat {A} limit offset (l : list A) :
  (0 < limit)%Z -> (0 <= offset)%Z ->
  page_rows (MkLimitOffset limit offset) l = take (Z.to_nat limit) (drop (Z.to_nat offset) l).
Proof.
  intros Hl Ho. unfold page_rows, page_of, positive. simpl.
  rewrite (proj2 (Z.ltb_lt 0 limit)) by lia. destruct (0 <? offset)%Z eqn:Hz; [done|].
  apply Z.ltb_ge in Hz. by replace offset with 0%Z by lia.
Qed.

Lemma take_app_drop {A} n m (l : list A) : take n (drop m l) ++ drop (m + n) l = drop m l.
Proof. rewrite <- drop_drop. apply take_drop. Qed.

Lemma walk_pages_from {A} fuel size page (l : list A) :
  (1 <= size <= 200)%Z -> (0 <= page)%Z -> (Z.of_nat (length l) < 2 ^ 62)%Z ->
  (page * size <= Z.of_nat (length l))%Z ->
  (length l < fuel + Z.to_nat (page * size))%nat -> (0 < fuel)%nat ->
  walk_pages fuel size page l = Some (drop (Z.to_nat (page * size)) l).
Proof.
  intros Hs. revert page. induction fuel as [|fuel IH]; intros page Hp Hl Hin Hf Hpos; [lia|].
  assert (page <= page * size)%Z by nia.
  cbn [walk_pages]. unfold CreatePagination, requested.
  rewrite (int64_id (size * page)), (int64_id (page + 1)) by lia.
  rewrite (int64_id ((page + 1) * size)) by lia.
  rewrite (Z.mul_comm size page), NewOffsetFilter_within by lia. rewrite page_rows_nat by lia.
  destruct (_ <? _)%Z eqn:Hn.
  - apply Z.ltb_lt in Hn. rewrite IH by lia. simpl. f_equal.
    replace (Z.to_nat ((page + 1) * size)) with (Z.to_nat (page * size) + Z.to_nat size)%nat by lia.
    apply take_app_drop.
  - apply Z.ltb_ge in Hn. f_equal. apply take_ge. rewrite length_drop. lia.
Qed.

Lemma walk_resources_from {A} fuel size page (l : list A) :
  (1 <= size < 200)%Z -> (0 <= page)%Z -> (Z.of_nat (length l) < 2 ^ 62)%Z ->
  (page * size <= Z.of_nat (length l))%Z ->
  (length l < fuel + Z.to_nat (page * size))%nat -> (0 < fuel)%nat ->
  walk_resources fuel size page l = Some (drop (Z.to_nat (page * size)) l).
Proof.
  intros Hs. revert page. induction fuel as [|fuel IH]; intros page Hp Hl Hin Hf Hpos; [lia|].
  assert (page <= page * size)%Z by nia.
  cbn [walk_resources]. unfold CreatePaginationWithoutTotal, requested.
  rewrite (int64_id (size * page)), (int64_id (size + 1)) by lia.
  rewrite (Z.mul_comm size page), NewOffsetFilter_within by lia. rewrite page_rows_nat by lia.
  unfold getNextPageAndResources. rewrite length_take, length_drop.
  destruct (_ && _) eqn:Hn.
  - apply andb_true_iff in Hn as [_ Hn]. apply Z.eqb_eq in Hn. rewrite (int64_id (page + 1)) by lia.
    rewrite IH by lia. simpl. f_equal. rewrite take_take.
    replace (Z.to_nat ((page + 1) * size)) with (Z.to_nat (page * size) + Z.to_nat size)%nat by lia.
    replace (_ `min` _)%nat with (Z.to_nat size) by lia. apply take_app_drop.
  - f_equal. apply take_ge. rewrite length_drop.
    apply andb_false_iff in Hn as [Hn|Hn]; [apply Nat.ltb_ge in Hn|apply Z.eqb_neq in Hn]; lia.
Qed.

Lemma skip_quote s : skip_space (String dquote s) = String dquote s.
Proof. reflexivity. Qed.

Lemma json_quote_app s rest :
  json_quote s +:+ rest = String dquote (json_escape s +:+ String dquote rest).
Proof. unfold json_quote. simpl. by rewrite str_app_assoc_r. Qed.

Lemma parse_value_quote fuel s rest :
  str_forall is_ascii s = true -> parse_value (S fuel) (json_quote s +:+ rest) = Some (JStr s, rest).
Proof.
  intros Hs. rewrite json_quote_app. cbn [parse_value]. rewrite skip_quote.
  change (Ascii.eqb dquote dquote) with true. cbn match. by rewrite parse_str_escape.
Qed.

(** One field of an object whose value is a string. *)
Lemma parse_fields_quote fuel k v rest :
  str_forall is_ascii k = true -> str_forall is_ascii v = true ->
  parse_fields (S (S fuel)) (json_quote k +:+ ":" +:+ json_quote v +:+ rest) =
  match skip_space rest with
  | String "," s4 => '(l, rest) ← parse_fields (S fuel) s4; Some ((k, JStr v) :: l, rest)
  | String "}" rest => Some ([(k, JStr v)], rest)
  | _ => None
  end.
Proof.
  intros Hk Hv. rewrite json_quote_app. remember (S fuel) as n eqn:Hn.
  cbn [parse_fields]. rewrite skip_quote. change (Ascii.eqb dquote dquote) with true. cbn match.
  rewrite parse_str_escape by done. subst n. cbn [mbind option_bind].
  change (skip_space (":" +:+ json_quote v +:+ rest)) with (String ":" (json_quote v +:+ rest)).
  cbn match. by rewrite parse_value_quote.
Qed.

(** The two fields of a marshalled token are read back. *)
Lemma json_roundtrip c :
  str_forall is_ascii (ct_Kind c) = true -> str_forall is_ascii (ct_OpenFGAToken c) = true ->
  json_Unmarshal (combo_json c) (MkCombo "" "") = Ok c.
Proof.
  intros Hk Ht. unfold json_Unmarshal, parse_json.
  set (n := (2 * String.length (combo_json c) + 2)%nat).
  assert (exists m, n = S (S (S (S m)))) as [m ->].
  { exists (n - 4)%nat. unfold n. cbn [combo_json String.append String.length]. lia. }
  assert (parse_fields (S (S (S m)))
            (json_quote "kind" +:+ ":" +:+ json_quote (ct_Kind c) +:+ "," +:+
             json_quote "token" +:+ ":" +:+ json_quote (ct_OpenFGAToken c) +:+ "}")
          = Some ([("kind", JStr (ct_Kind c)); ("token", JStr (ct_OpenFGAToken c))], "")) as Hf.
  { rewrite parse_fields_quote by done.
    change (skip_space ("," +:+ ?s)) with (String "," s). cbn match.
    by rewrite parse_fields_quote. }
  change (parse_value (S (S (S (S m)))) (combo_json c)) with
    ('(fs, rest) ← parse_fields (S (S (S m)))
            (json_quote "kind" +:+ ":" +:+ json_quote (ct_Kind c) +:+ "," +:+
             json_quote "token" +:+ ":" +:+ json_quote (ct_OpenFGAToken c) +:+ "}");
     Some (JObj fs, rest)).
  rewrite Hf. by destruct c.
Qed.

Lemma UnmarshalToken_Marshal c token :
  str_forall is_ascii (ct_Kind c) = true -> str_forall is_ascii (ct_OpenFGAToken c) = true ->
  MarshalToken c = Ok token -> UnmarshalToken (MkCombo "" "") token = Ok c /\ token <> "".
Proof.
  intros Hk Ht. unfold MarshalToken. case_decide; [done|]. intros Hm. apply (inj Ok) in Hm as <-.
  split; [|done]. unfold UnmarshalToken. rewrite b64_roundtrip. simpl. by rewrite json_roundtrip.
Qed.

Lemma DecodeEntitlementToken_Marshal c token :
  str_forall is_ascii (ct_Kind c) = true -> str_forall is_ascii (ct_OpenFGAToken c) = true ->
  MarshalToken c = Ok token ->
  DecodeEntitlementToken token = Ok (ct_OpenFGAToken c, ct_Kind c).
Proof.
  intros Hk Ht Hm. destruct (UnmarshalToken_Marshal c token Hk Ht Hm) as [Hu Hne].
  unfold DecodeEntitlementToken. rewrite decide_False by done. by rewrite Hu.
Qed.

End facts.

(** ** Properties *)

Section properties.

(** Pages of at most 200 rows tile the listing: a client that starts at
    page 0 and follows the next page reads every row once, in order, and
    stops. *)
Theorem CreatePagination_tiles {A} size (l : list A) :
  (1 <= size <= maxOffsetFilterPageSize)%Z -> (Z.of_nat (length l) < 2 ^ 62)%Z ->
  walk_pages (S (length l)) size 0 l = Some l.
Proof.
  unfold maxOffsetFilterPageSize. intros Hs Hl. rewrite walk_pages_from by lia. done.
Qed.

(** A larger page size is cut to 200 rows while the offsets still advance
    by the size that was asked for: no page has the rows between 200 and that
    size. *)
Theorem CreatePagination_oversized_skips size page total i :
  (maxOffsetFilterPageSize < size)%Z -> (0 <= page)%Z -> (size * page < 2 ^ 63)%Z ->
  (maxOffsetFilterPageSize <= i < size)%Z ->
  let '(_, _, p) := CreatePagination (Some size) (Some page) total in
  ~ (Offset p <= i < Offset p + Limit p)%Z.
Proof.
  unfold maxOffsetFilterPageSize. intros Hs Hp Hb Hi. simpl. unfold NewOffsetFilter, maxOffsetFilterPageSize.
  rewrite int64_id by nia.
  rewrite (proj2 (Z.leb_gt size 0)), (proj2 (Z.ltb_lt 200 size)), (proj2 (Z.ltb_ge (size * page) 0)) by nia.
  simpl. destruct (decide (page = 0)%Z) as [->|]; [lia|]. assert (1 <= page)%Z by lia. nia.
Qed.

(** The resource listing asks for one row more than a page to learn
    whether there is a next page; for page sizes below 200 a client that
    follows the pages reads every row once, in order, and stops. *)
Theorem resource_pages_tile {A} size (l : list A) :
  (1 <= size < maxOffsetFilterPageSize)%Z -> (Z.of_nat (length l) < 2 ^ 62)%Z ->
  walk_resources (S (length l)) size 0 l = Some l.
Proof.
  unfold maxOffsetFilterPageSize. intros Hs Hl. rewrite walk_resources_from by lia. done.
Qed.

(** With a page size of 200 or more the extra row is never fetched: no
    next page is announced, whatever the number of resources, and the client
    sees at most 200 of them. *)
Theorem resource_pages_end_early {A} size page (l : list A) :
  (maxOffsetFilterPageSize <= size < 2 ^ 62)%Z -> (0 <= page)%Z -> (size * page < 2 ^ 63)%Z ->
  let '(currentPage, expected, p) := CreatePaginationWithoutTotal (Some size) (Some page) in
  let '(nextPage, res) := getNextPageAndResources currentPage expected (page_rows p l) in
  nextPage = None /\ (length res <= 200)%nat.
Proof.
  unfold maxOffsetFilterPageSize. intros Hs Hp Hb. simpl. unfold NewOffsetFilter, maxOffsetFilterPageSize.
  rewrite (int64_id (size + 1)) by lia. rewrite int64_id by nia.
  rewrite (proj2 (Z.leb_gt (size + 1) 0)), (proj2 (Z.ltb_lt 200 (size + 1))),
    (proj2 (Z.ltb_ge (size * page) 0)) by nia.
  unfold getNextPageAndResources. rewrite page_rows_nat by nia.
  rewrite length_take, length_drop. rewrite (proj2 (Z.eqb_neq _ (size + 1))) by lia.
  rewrite andb_false_r. split; [done|]. rewrite length_take. lia.
Qed.

Lemma index_of_lookup x l i : index_of x l = Some i -> l !! i = Some x.
Proof.
  revert i. induction l as [|y l IH]; simpl; intros i Hi; [done|].
  case_decide; simplify_eq; [done|]. destruct (index_of x l) as [k|]; simplify_eq/=. by apply IH.
Qed.

(** The next token, on every branch. *)
Lemma NextEntitlementToken_spec kind tok i :
  entitlementResources !! i = Some kind -> str_forall is_ascii tok = true ->
  exists t, NextEntitlementToken kind tok = Ok t /\
    if decide (tok = "" /\ i = 6%nat) then t = ""
    else t <> "" /\ exists kind', DecodeEntitlementToken t = Ok (tok, kind') /\
         entitlementResources !! (if decide (tok = "") then S i else i) = Some kind'.
Proof.
  intros Hk Hasc. assert (i < 7)%nat as Hi by (apply lookup_lt_Some in Hk; exact Hk).
  assert (index_of kind entitlementResources = Some i) as Hix.
  { do 7 (destruct i as [|i]; [simplify_eq/=; by vm_compute|]). lia. }
  assert (forall j k, entitlementResources !! j = Some k -> str_forall is_ascii k = true /\ k <> "") as Hall.
  { intros j k Hj. apply list_elem_of_lookup_2 in Hj. revert k Hj. apply Forall_forall.
    by apply (bool_decide_unpack _). }
  assert (forall k, str_forall is_ascii k = true -> k <> "" ->
    exists t, MarshalToken (MkCombo k tok) = Ok t /\ t <> "" /\ DecodeEntitlementToken t = Ok (tok, k)) as Hmk.
  { intros k Hka Hkn. unfold MarshalToken. rewrite decide_False by done. eexists; split; [done|].
    assert (MarshalToken (MkCombo k tok) = Ok (b64_encode (combo_json (MkCombo k tok)))) as Hm
      by (unfold MarshalToken; by rewrite decide_False).
    by rewrite (DecodeEntitlementToken_Marshal (MkCombo k tok) _ Hka Hasc Hm). }
  unfold NextEntitlementToken. destruct (decide (tok = "")) as [->|Hne].
  - rewrite Hix. destruct (entitlementResources !! S i) as [k|] eqn:Hnext.
    + destruct (Hall _ _ Hnext) as [Hka Hkn]. destruct (Hmk k Hka Hkn) as (t & Hm & Ht & Hd).
      exists t. rewrite Hm. split; [done|]. rewrite decide_False.
      * split; [done|]. by exists k.
      * intros [_ ->]. by vm_compute in Hnext.
    + exists "". split; [done|]. rewrite decide_True; [done|]. split; [done|].
      apply lookup_ge_None in Hnext. change (length entitlementResources) with 7%nat in Hnext. lia.
  - destruct (Hall _ _ Hk) as [Hka Hkn]. destruct (Hmk kind Hka Hkn) as (t & Hm & Ht & Hd).
    exists t. rewrite Hm. split; [done|]. rewrite decide_False by (intros [? _]; done).
    split; [done|]. by exists kind.
Qed.

(** Entitlement tokens: for a kind of the list and an OpenFGA token, the
    next token decodes to that token and kind while the kind has more pages
    and to the first page of the following kind when it has none; the empty
    token comes only after the last kind. *)
Theorem NextEntitlementToken_decodes kind tok i :
  entitlementResources !! i = Some kind -> str_forall is_ascii tok = true ->
  exists t, NextEntitlementToken kind tok = Ok t /\
    if decide (tok = "" /\ i = 6%nat) then t = ""
    else t <> "" /\ exists kind', DecodeEntitlementToken t = Ok (tok, kind') /\
         entitlementResources !! (if decide (tok = "") then S i else i) = Some kind'.
Proof. apply NextEntitlementToken_spec. Qed.

(** A client that follows the tokens from the empty one visits the seven
    resource kinds once each, in their order, and is then told to stop. *)
Theorem entitlement_walk_complete : walk_kinds 7 "" = Ok entitlementResources.
Proof. by vm_compute. Qed.

End properties.
