(* ===== verification/TagResolver.v ===== *)
(** * TagResolver: JAAS tags and OpenFGA entities
    ([internal/jimm/permissions/tagresolver.go], [permissionmanager.go]).

    A tag such as [group-devs#member] or [model-<uuid>] names an entity; the
    resolver finds its UUID in the database.  [uuid.Parse] of the package
    [github.com/google/uuid] is the parameter [uuid_Parse]. *)

From Stdlib Require Import Ascii.
From S2P Require Import Prelude Errors Regexp Names AuthModel RefServer OpenFGA Dbmodel Users Database.

(** Whether [uuid.Parse] accepts the text. *)
Class UUIDParse := uuid_Parse : string -> bool.

(** ** [permissionmanager.go] *)

Record PermissionManager := MkManager { jimmUUID : string; jimmTag : Tag }.

(** The first three arguments say whether the pointers are set. *)
Definition NewManager (store authSvc groupFetcher : bool) (uuid : string) (tag : Tag)
    : outcome PermissionManager :=
  if negb store then Err (New "permission store cannot be nil")
  else if negb authSvc then Err (New "permission authorisation service cannot be nil")
  else if negb groupFetcher then Err (New "permission group fetcher cannot be nil")
  else Ok (MkManager uuid tag).

(** ** [tagresolver.go] *)

Definition jimmControllerName := "jimm".

(** Groups: alphanumeric characters; a hyphen; one or more characters other
    than a hash; then a hash with letters, or the end of the text. *)
Definition jujuURIMatcher : re :=
  Seqs [Grp 1 (Star is_alnum); Lit "-"; Grp 2 (Plus (not_char "#"));
        Alt (Seq (Lit "#") (Grp 3 (Plus is_letter))) Eot].

(** Two groups [.+] around a slash; the dot matches all but a newline. *)
Definition newline : ascii := Ascii.ascii_of_nat 10.
Definition modelOwnerAndNameMatcher : re :=
  Seqs [Grp 1 (Plus (not_char newline)); Lit "/"; Grp 2 (Plus (not_char newline))].

Record tagResolver := MkResolver { resourceUUID : string; trailer : string; tr_relation : string }.

Definition newTagResolver `{UUIDParse} (tag : string) : outcome (tagResolver * string) :=
  match FindStringSubmatch jujuURIMatcher 3 tag with
  | [_; tagKind; id; rel] =>
      let '(resourceUUID, trailer) := if uuid_Parse id then (id, "") else ("", id) in
      match ParseRelation rel with
      | Ok relation => Ok (MkResolver resourceUUID trailer relation, tagKind)
      | _ => Err (Codef CodeBadRequest "failed to parse relation" [])
      end
  | _ => Err (Codef CodeBadRequest "tag is not properly formatted" [])
  end.

(** [res := kind + "-" + id], with the relation of the tag. *)
Definition tagToString (tag : Entity) (kind id : string) : string :=
  let res := kind +:+ "-" +:+ id in
  if decide (ERelation tag <> "") then res +:+ "#" +:+ ERelation tag else res.

Section resolver.
Context {T : Type -> Type} `{Gorm T} `{JujuNames} `{UUIDParse}.

Definition fetchError (what id : string) (err : gerror) : gerror :=
  Errorf ("failed to fetch " +:+ what +:+ " information: %s: %w") [ArgS id; ArgE err].

Definition ToJAASTag (j : PermissionManager) (tag : Entity) (resolveUUIDs : bool) : M (Db T) string :=
  if negb resolveUUIDs then mret (tagToString tag (EKind tag) (EID tag))
  else if decide (EKind tag = UserTagKind) then mret (tagToString tag UserTagKind (EID tag))
  else if decide (EKind tag = ControllerTagKind) then
    if decide (EID tag = Id (jimmTag j)) then mret "controller-jimm"
    else
      controller ← map_err (fetchError "controller" (EID tag))
                     (GetController (controllerOf "" (EID tag)));
      mret (tagToString tag ControllerTagKind (c_Name controller))
  else if decide (EKind tag = ModelTagKind) then
    model ← map_err (fetchError "model" (EID tag)) (GetModel (modelOf "" (Some (EID tag)) ""));
    mret (tagToString tag ModelTagKind (m_OwnerIdentityName model +:+ "/" +:+ m_Name model))
  else if decide (EKind tag = ApplicationOfferTagKind) then
    ao ← map_err (fetchError "application offer" (EID tag))
           (GetApplicationOffer (offerOf "" (EID tag)));
    mret (tagToString tag ApplicationOfferTagKind (ao_URL ao))
  else if decide (EKind tag = GroupTagKind) then
    group ← map_err (fetchError "group" (EID tag)) (GetGroup (MkGroup 0 0 0 "" (EID tag)));
    mret (tagToString tag GroupTagKind (g_Name group))
  else if decide (EKind tag = IdPGroupTagKind) then mret (tagToString tag IdPGroupTagKind (EID tag))
  else if decide (EKind tag = RoleTagKind) then
    role ← map_err (fetchError "role" (EID tag)) (GetRole (MkRole 0 0 0 "" (EID tag)));
    mret (tagToString tag RoleTagKind (r_Name role))
  else if decide (EKind tag = CloudTagKind) then
    cloud ← map_err (fetchError "cloud" (EID tag)) (GetCloud (cloudOf (EID tag)));
    mret (tagToString tag CloudTagKind (cl_Name cloud))
  else throw (Errorf "unexpected tag kind: %v" [ArgS (EKind tag)]).

(** [ofganames.ConvertTagWithRelation(tag, t.relation)] of a constructor that
    may panic. *)
Definition entityOf (t : tagResolver) (tag : outcome Tag) : outcome Entity :=
  x ← tag; Ok (ConvertTagWithRelation x (tr_relation t)).

Definition userTag (t : tagResolver) : outcome Entity :=
  if IsValidUser (trailer t) then entityOf t (NewUserTag (trailer t))
  else Err (New "invalid user").

Definition groupTag (t : tagResolver) : M (Db T) Entity :=
  if decide (resourceUUID t <> "") then lift (entityOf t (NewGroupTag (resourceUUID t)))
  else
    entry ← map_err (fun _ => Errorf "group %s not found" [ArgS (trailer t)])
              (GetGroup (MkGroup 0 0 0 (trailer t) ""));
    lift (entityOf t (Group_ResourceTag entry)).

Definition idpGroupTag (t : tagResolver) : outcome Entity :=
  let idpGroupID := if decide (trailer t = "") then resourceUUID t else trailer t in
  if IsValidIdPGroupId idpGroupID then Ok (MkEntity IdPGroupTagKind idpGroupID (tr_relation t))
  else Err (New "invalid idp group").

Definition controllerTag (t : tagResolver) (jimmUUID : string) : M (Db T) Entity :=
  if decide (resourceUUID t <> "") then lift (entityOf t (NewControllerTag (resourceUUID t)))
  else if decide (trailer t = jimmControllerName) then lift (entityOf t (NewControllerTag jimmUUID))
  else
    controller ← map_err (fun _ => New "controller not found")
                   (GetController (controllerOf (trailer t) ""));
    lift (entityOf t (Controller_ResourceTag controller)).

Definition roleTag (t : tagResolver) : M (Db T) Entity :=
  if decide (resourceUUID t <> "") then lift (entityOf t (NewRoleTag (resourceUUID t)))
  else
    entry ← map_err (fun _ => Errorf "role %s not found" [ArgS (trailer t)])
              (GetRole (MkRole 0 0 0 (trailer t) ""));
    lift (entityOf t (Role_ResourceTag entry)).

Definition modelTag (t : tagResolver) : M (Db T) Entity :=
  if decide (resourceUUID t <> "") then lift (entityOf t (NewModelTag (resourceUUID t)))
  else
    match FindStringSubmatch modelOwnerAndNameMatcher 2 (trailer t) with
    | [_; owner; name] =>
        model ← map_err (fun _ => New "model not found") (GetModel (modelOf name None owner));
        lift (entityOf t (Model_ResourceTag model))
    | _ => throw (New "model name format incorrect, expected <model-owner>/<model-name>")
    end.

Definition applicationOfferTag (t : tagResolver) : M (Db T) Entity :=
  if decide (resourceUUID t <> "") then lift (entityOf t (NewApplicationOfferTag (resourceUUID t)))
  else
    offer ← map_err (fun _ => New "application offer not found")
              (GetApplicationOffer (offerOf (trailer t) ""));
    lift (entityOf t (Offer_ResourceTag offer)).

Definition cloudTag (t : tagResolver) : M (Db T) Entity :=
  if decide (resourceUUID t <> "") then lift (entityOf t (NewCloudTag (resourceUUID t)))
  else
    cloud ← map_err (fun _ => New "cloud not found") (GetCloud (cloudOf (trailer t)));
    lift (entityOf t (Cloud_ResourceTag cloud)).

Definition resolveTag (jimmUUID tag : string) : M (Db T) Entity :=
  '(resolver, tagKind) ← lift (wrap_err (fun err => Errorf "failed to setup tag resolver: %w" [ArgE err])
                                 (newTagResolver tag));
  if decide (tagKind = UserTagKind) then lift (userTag resolver)
  else if decide (tagKind = GroupTagKind) then groupTag resolver
  else if decide (tagKind = IdPGroupTagKind) then lift (idpGroupTag resolver)
  else if decide (tagKind = RoleTagKind) then roleTag resolver
  else if decide (tagKind = ControllerTagKind) then controllerTag resolver jimmUUID
  else if decide (tagKind = ModelTagKind) then modelTag resolver
  else if decide (tagKind = ApplicationOfferTagKind) then applicationOfferTag resolver
  else if decide (tagKind = CloudTagKind) then cloudTag resolver
  else throw (Codef CodeBadRequest "failed to map tag, unknown kind: %s" [ArgS tagKind]).

(** [strings.SplitN(key, "-", 2)] has one part when there is no hyphen. *)
Definition parseAndValidateTag (j : PermissionManager) (key : string) : M (Db T) Entity :=
  match cut "-" key with
  | None => map_err (fun err => Codef CodeFailedToParseTupleKey "%w" [ArgE err]) (lift (BlankKindTag key))
  | Some _ => map_err (fun err => Codef CodeFailedToResolveTupleResource "%w" [ArgE err])
                (resolveTag (jimmUUID j) key)
  end.

End resolver.

(** ** Facts about the tag syntax *)

(** The relation specifier at the end of a tag. *)
Definition rel_suffix (rel : string) : string := if decide (rel = "") then "" else "#" +:+ rel.

Lemma tagToString_split tag kind id :
  tagToString tag kind id = kind +:+ String "-" (id +:+ rel_suffix (ERelation tag)).
Proof.
  unfold tagToString, rel_suffix. destruct (decide (ERelation tag = "")) as [He|He].
  - rewrite (decide_False (P := ERelation tag <> "")) by tauto. by rewrite str_app_nil_r.
  - rewrite (decide_True (P := ERelation tag <> "")) by done. by rewrite <- str_app_assoc.
Qed.

(** The end of the pattern, on the end of a tag. *)
Lemma uri_suffix_match {R} full rel c (k : string -> caps -> option R) :
  str_forall is_letter rel = true ->
  exists c', (forall n, n <> 3%nat -> group n c' = group n c) /\ (group 3 c = "" -> group 3 c' = rel) /\
    forall r, k "" c' = Some r ->
      mtch full (Alt (Seq (Lit "#") (Grp 3 (Plus is_letter))) Eot) (rel_suffix rel) c k = Some r.
Proof.
  intros Hr. unfold rel_suffix. destruct (decide (rel = "")) as [->|Hne].
  - exists c. split_and!; [done|done|]. intros r Hk. by simpl.
  - exists ((3%nat, rel) :: c). split_and!; [| |].
    + intros n Hn. unfold group. simpl. by rewrite bool_decide_eq_false_2 by congruence.
    + intros _. unfold group. simpl. done.
    + intros r Hk. cbn [mtch Lit]. cbn [String.append]. rewrite bool_decide_eq_true_2 by done.
      assert (mtch full (Plus is_letter) (rel +:+ "") c
                (fun s' c' => k s' ((3%nat, consumed (rel +:+ "") s') :: c')) = Some r) as Hm.
      { apply mtch_plus_greedy; try done. by rewrite consumed_app. }
      rewrite str_app_nil_r in Hm. cbn [mtch Plus] in Hm |- *. by rewrite Hm.
Qed.

(** A tag is split into its kind, its identifier and its relation. *)
Lemma uri_groups kind id rel :
  str_forall is_alnum kind = true -> str_forall (not_char "#") id = true -> id <> "" ->
  str_forall is_letter rel = true ->
  exists w, FindStringSubmatch jujuURIMatcher 3 (kind +:+ String "-" (id +:+ rel_suffix rel))
            = [w; kind; id; rel].
Proof.
  intros Hk Hi Hne Hr. unfold FindStringSubmatch.
  set (s := kind +:+ String "-" (id +:+ rel_suffix rel)).
  enough (exists w c, search (String.length s) jujuURIMatcher s = Some (w, c) /\
            group 1 c = kind /\ group 2 c = id /\ group 3 c = rel) as (w & c & -> & <- & <- & <-)
    by (by exists w).
  set (c2 := [(2%nat, id); (1%nat, kind)]).
  set (kfin := fun (s' : string) (c : caps) => Some (consumed s s', c)).
  destruct (uri_suffix_match (String.length s) rel c2 kfin Hr) as (c' & Hold & H3 & Hm).
  exists (consumed s ""), c'. rewrite (Hold 1%nat), (Hold 2%nat), H3 by done.
  split_and!; try done. apply search_here. fold kfin. cbn [jujuURIMatcher Seqs mtch].
  apply star_greedy; [done|done|]. unfold s. rewrite consumed_app. cbn [Lit mtch].
  rewrite bool_decide_eq_true_2 by done.
  apply (mtch_plus_greedy (String.length s) (not_char "#") id); [done|done| |].
  { unfold rel_suffix. by case_decide. }
  rewrite consumed_app. fold c2. apply Hm. done.
Qed.

Lemma str_forall_is_alnum_no_hyphen s : str_forall is_alnum s = true -> str_forall (not_char "-") s = true.
Proof.
  apply str_forall_impl. intros c. destruct c as [[] [] [] [] [] [] [] []]; vm_compute; auto.
Qed.

(** A parsed tag string: what [newTagResolver] finds in it. *)
Lemma newTagResolver_tag `{UUIDParse} kind id rel :
  str_forall is_alnum kind = true -> str_forall (not_char "#") id = true -> id <> "" ->
  str_forall is_letter rel = true -> rel ∈ allRelations ->
  newTagResolver (kind +:+ String "-" (id +:+ rel_suffix rel)) =
  Ok (if uuid_Parse id then MkResolver id "" rel else MkResolver "" id rel, kind).
Proof.
  intros Hk Hi Hne Hr Hrel. unfold newTagResolver.
  destruct (uri_groups kind id rel Hk Hi Hne Hr) as [w ->].
  assert (ParseRelation rel = Ok rel) as ->.
  { clear Hr. revert rel Hrel. apply Forall_forall. repeat constructor. }
  by destruct (uuid_Parse id).
Qed.

(** ** Lookups keep the tables *)

(** What every function of the resolver does to the database. *)
Definition reads {T : Type -> Type} `{Gorm T} {A} (d : Db T) (o : outcome A) (d' : Db T) : Prop :=
  answered o /\ tables d' = tables d.

Section reads.
Context {T : Type -> Type} `{GormLaws T} `{JujuNames} `{UUIDParse}.
Implicit Types d : Db T.

Lemma reads_refl {A} (o : outcome A) d : answered o -> reads d o d.
Proof. done. Qed.

Lemma wp_reads_bind {A B} (m : M (Db T) A) (k : A -> M (Db T) B) d :
  wp m (reads d) d -> (forall a d', wp (k a) (reads d') d') -> wp (m ≫= k) (reads d) d.
Proof.
  intros Hm Hk. apply wp_bind. eapply wp_mono; [exact Hm|].
  intros [a|e|s|] d1 [Ha Ht]; simpl; [|unfold reads, answered in *; split; congruence..].
  eapply wp_mono; [apply Hk|]. intros o' d2 [Ha2 Ht2]. split; [done|congruence].
Qed.

Lemma wp_reads_map_err {A} f (m : M (Db T) A) d :
  wp m (reads d) d -> wp (map_err f m) (reads d) d.
Proof.
  intros Hm. apply wp_map_err. eapply wp_mono; [exact Hm|]. intros [] d' [Ha Ht]; by split.
Qed.

Lemma wp_reads_ready d : wp ready (reads d) d.
Proof. unfold wp, ready. by destruct (db_configured d), (db_migrated d). Qed.

Lemma GetGroup_reads g d : wp (GetGroup g) (reads d) d.
Proof. eapply wp_mono; [apply GetGroup_wp|]. intros o d' (Ha & Ht & _). done. Qed.
Lemma GetRole_reads r d : wp (GetRole r) (reads d) d.
Proof. eapply wp_mono; [apply GetRole_wp|]. intros o d' (Ha & Ht & _). done. Qed.

(** The lookups of resources share their shape. *)
Lemma lookup_reads {R} (p : outcome (R -> bool)) nf
    (get : Db T -> T R) (put : T R -> Db T -> Db T) dest d :
  answered p -> (forall t d, rows t = rows (get d) -> tables (put t d) = tables d) ->
  wp (p ← lift p; map_err nf (zoom get put (gorm_first (fun r => dest r && p r)))) (reads d) d.
Proof.
  intros Hp Hput. apply wp_reads_bind; [by apply wp_lift|]. intros q d1.
  apply wp_reads_map_err, wp_zoom. eapply wp_mono; [apply law_first|].
  intros o t (Ht & Ha & _). split; [done|by apply Hput].
Qed.

Lemma put_controllers_tables t d : rows t = rows (db_controllers d) -> tables (put_controllers t d) = tables d.
Proof. unfold tables. simpl. by intros ->. Qed.
Lemma put_models_tables t d : rows t = rows (db_models d) -> tables (put_models t d) = tables d.
Proof. unfold tables. simpl. by intros ->. Qed.
Lemma put_offers_tables t d : rows t = rows (db_offers d) -> tables (put_offers t d) = tables d.
Proof. unfold tables. simpl. by intros ->. Qed.
Lemma put_clouds_tables t d : rows t = rows (db_clouds d) -> tables (put_clouds t d) = tables d.
Proof. unfold tables. simpl. by intros ->. Qed.
Local Hint Resolve put_controllers_tables put_models_tables put_offers_tables put_clouds_tables : jimm.

Lemma GetController_reads c d : wp (GetController c) (reads d) d.
Proof.
  unfold GetController. apply wp_reads_bind; [apply wp_reads_ready|]. intros _ d1.
  do 2 try case_decide; (apply (lookup_reads (Ok _)) || apply (lookup_reads (Err _))); auto with jimm; done.
Qed.

Lemma GetModel_reads m d : wp (GetModel m) (reads d) d.
Proof.
  unfold GetModel. apply wp_reads_bind; [apply wp_reads_ready|]. intros _ d1.
  apply wp_reads_bind; [apply wp_reads_ready|]. intros _ d2.
  destruct (m_UUID m); [apply (lookup_reads (Ok _)); auto with jimm; done|].
  do 3 try case_decide; (apply (lookup_reads (Ok _)) || apply (lookup_reads (Err _))); auto with jimm; done.
Qed.

Lemma GetApplicationOffer_reads o d : wp (GetApplicationOffer o) (reads d) d.
Proof.
  unfold GetApplicationOffer. apply wp_reads_bind; [apply wp_reads_ready|]. intros _ d1.
  do 2 try case_decide; (apply (lookup_reads (Ok _)) || apply (lookup_reads (Err _))); auto with jimm; done.
Qed.

Lemma GetCloud_reads c d : wp (GetCloud c) (reads d) d.
Proof.
  unfold GetCloud. apply wp_reads_bind; [apply wp_reads_ready|]. intros _ d1.
  apply (lookup_reads (Ok (fun r => bool_decide (cl_Name r = cl_Name c)))); auto with jimm; done.
Qed.

End reads.

#[export] Hint Resolve GetGroup_reads GetRole_reads GetController_reads GetModel_reads
  GetApplicationOffer_reads GetCloud_reads wp_reads_map_err reads_refl : jimm.

Section resolver_reads.
Context {T : Type -> Type} `{GormLaws T} `{JujuNames} `{UUIDParse}.
Implicit Types d : Db T.

Lemma entityOf_answered t tag : answered tag -> answered (entityOf t tag).
Proof. by destruct tag. Qed.
Lemma NewJujuTag_answered k i : answered (NewJujuTag k i).
Proof. unfold NewJujuTag. by destruct (ValidTagId k i). Qed.
Lemma NewUserTag_answered n : answered (NewUserTag n).
Proof. unfold NewUserTag. by destruct (IsValidUser n). Qed.
Lemma NewGroupTag_answered n : answered (NewGroupTag n).
Proof. unfold NewGroupTag. by case_decide. Qed.
Lemma NewRoleTag_answered n : answered (NewRoleTag n).
Proof. unfold NewRoleTag. by case_decide. Qed.
Lemma Model_ResourceTag_answered m : answered (Model_ResourceTag m).
Proof. unfold Model_ResourceTag. destruct (m_UUID m); [apply NewJujuTag_answered|done]. Qed.

Hint Resolve entityOf_answered NewJujuTag_answered NewUserTag_answered NewGroupTag_answered
  NewRoleTag_answered Model_ResourceTag_answered : jimm.

Lemma wp_reads_lift {A} (o : outcome A) d : answered o -> wp (lift o) (reads d) d.
Proof. by intros. Qed.
Hint Resolve wp_reads_lift : jimm.

(** A lookup followed by the conversion of the row it found. *)
Lemma wp_reads_entity {R} (m : M (Db T) R) f t d :
  wp m (reads d) d -> (forall r, answered (f r)) ->
  wp (r ← m; lift (entityOf t (f r))) (reads d) d.
Proof. intros Hm Hf. apply wp_reads_bind; [done|]. auto with jimm. Qed.

Ltac resolve_reads :=
  first [ apply wp_reads_lift; first [by auto with jimm | apply entityOf_answered, NewJujuTag_answered]
        | apply wp_reads_entity; [auto with jimm | intros ?; first [by auto with jimm | apply NewJujuTag_answered]] ].

Lemma resolver_reads t uuid d :
  wp (groupTag t) (reads d) d /\ wp (roleTag t) (reads d) d /\ wp (controllerTag t uuid) (reads d) d /\
  wp (modelTag t) (reads d) d /\ wp (applicationOfferTag t) (reads d) d /\ wp (cloudTag t) (reads d) d.
Proof.
  unfold groupTag, roleTag, controllerTag, modelTag, applicationOfferTag, cloudTag.
  split_and!; case_decide; try resolve_reads.
  - apply wp_reads_entity; [auto with jimm|intros; apply NewGroupTag_answered].
  - apply wp_reads_entity; [auto with jimm|intros; apply NewRoleTag_answered].
  - case_decide; resolve_reads.
  - destruct (FindStringSubmatch _ _ _) as [|? [|? [|? [|? ?]]]]; try done. resolve_reads.
Qed.

Lemma userTag_answered t : answered (userTag t).
Proof. unfold userTag. destruct (IsValidUser _); auto with jimm. done. Qed.
Lemma idpGroupTag_answered t : answered (idpGroupTag t).
Proof. unfold idpGroupTag. case_decide; by destruct (IsValidIdPGroupId _). Qed.

Lemma newTagResolver_answered tag : answered (newTagResolver tag).
Proof.
  unfold newTagResolver. destruct (FindStringSubmatch _ _ _) as [|? [|? [|? [|? [|? ?]]]]]; try done.
  destruct (uuid_Parse _); by destruct (ParseRelation _).
Qed.

Lemma resolveTag_reads uuid tag d : wp (resolveTag uuid tag) (reads d) d.
Proof.
  unfold resolveTag. apply wp_reads_bind.
  { apply wp_reads_lift. pose proof (newTagResolver_answered tag). by destruct (newTagResolver tag). }
  intros [t kind] d1. destruct (resolver_reads t uuid d1) as (? & ? & ? & ? & ? & ?).
  repeat case_decide; try done; apply wp_reads_lift; auto using userTag_answered, idpGroupTag_answered.
Qed.

(** Parsing a tag only reads the database, and always ends. *)
Lemma parseAndValidateTag_reads j key d : wp (parseAndValidateTag j key) (reads d) d.
Proof.
  unfold parseAndValidateTag. destruct (cut "-" key); apply wp_reads_map_err; [apply resolveTag_reads|].
  apply wp_reads_lift. unfold BlankKindTag. by case_decide.
Qed.

Lemma ToJAASTag_reads j e b d : wp (ToJAASTag j e b) (reads d) d.
Proof.
  unfold ToJAASTag. repeat case_match; try done;
    (apply wp_reads_bind; [auto with jimm|by intros]).
Qed.

End resolver_reads.

(** ** Properties *)

Section properties.
Context {T : Type -> Type} `{GormLaws T} `{JujuNames} `{UUIDParse}.
Implicit Types d : Db T.

(** Entities named by a UUID, in the form the constructors accept. *)
Definition uuid_entity (e : Entity) : Prop :=
  uuid_Parse (EID e) = true /\ EID e <> "" /\ str_forall (not_char "#") (EID e) = true /\
  ((EKind e ∈ [ControllerTagKind; ModelTagKind; ApplicationOfferTagKind] /\
    ValidTagId (EKind e) (EID e) = true) \/
   (EKind e = GroupTagKind /\ IsValidGroupId (EID e) = true) \/
   (EKind e = RoleTagKind /\ IsValidRoleId (EID e) = true)).

(** Users, with the names that [names.UserTag] keeps as they are. *)
Definition user_named (e : Entity) : Prop :=
  EKind e = UserTagKind /\ uuid_Parse (EID e) = false /\ EID e <> "" /\ EID e <> EveryoneUser /\
  str_forall (not_char "#") (EID e) = true /\ IsValidUser (EID e) = true /\ UserTagId (EID e) = EID e.

Definition plain_relation (r : string) : Prop := str_forall is_letter r = true /\ r ∈ allRelations.

(** The resolver that [resolveTag] picks for a kind. *)
Definition resolve_kind (j : PermissionManager) (kind : string) (t : tagResolver) : M (Db T) Entity :=
  if decide (kind = UserTagKind) then lift (userTag t)
  else if decide (kind = GroupTagKind) then groupTag t
  else if decide (kind = IdPGroupTagKind) then lift (idpGroupTag t)
  else if decide (kind = RoleTagKind) then roleTag t
  else if decide (kind = ControllerTagKind) then controllerTag t (jimmUUID j)
  else if decide (kind = ModelTagKind) then modelTag t
  else if decide (kind = ApplicationOfferTagKind) then applicationOfferTag t
  else if decide (kind = CloudTagKind) then cloudTag t
  else throw (Codef CodeBadRequest "failed to map tag, unknown kind: %s" [ArgS kind]).

Lemma parse_of_tag j kind id rel d :
  str_forall is_alnum kind = true -> str_forall (not_char "#") id = true -> id <> "" ->
  plain_relation rel ->
  parseAndValidateTag j (kind +:+ String "-" (id +:+ rel_suffix rel)) d =
  map_err (fun err => Codef CodeFailedToResolveTupleResource "%w" [ArgE err])
    (resolve_kind j kind (if uuid_Parse id then MkResolver id "" rel else MkResolver "" id rel)) d.
Proof.
  intros Hk Hi Hne [Hr Hrel]. unfold parseAndValidateTag.
  rewrite cut_app by (by apply str_forall_is_alnum_no_hyphen). unfold resolveTag.
  by rewrite newTagResolver_tag.
Qed.

(** A tag with a UUID is resolved by the constructor alone. *)
Lemma resolve_uuid j kind id rel d (new : string -> outcome Tag) :
  id <> "" ->
  (kind = GroupTagKind /\ new = NewGroupTag) \/ (kind = RoleTagKind /\ new = NewRoleTag) \/
  (kind ∈ [ControllerTagKind; ModelTagKind; ApplicationOfferTagKind; CloudTagKind] /\
   new = NewJujuTag kind) ->
  resolve_kind j kind (MkResolver id "" rel) d = (d, entityOf (MkResolver id "" rel) (new id)).
Proof.
  intros Hne Hk. rewrite !elem_of_cons, elem_of_nil in Hk.
  destruct Hk as [[-> ->]|[[-> ->]|[[->|[->|[->|[->|[]]]]] ->]]].
  - change (groupTag (MkResolver id "" rel) d = (d, entityOf (MkResolver id "" rel) (NewGroupTag id))).
    unfold groupTag. by rewrite decide_True.
  - change (roleTag (MkResolver id "" rel) d = (d, entityOf (MkResolver id "" rel) (NewRoleTag id))).
    unfold roleTag. by rewrite decide_True.
  - change (controllerTag (MkResolver id "" rel) (jimmUUID j) d
            = (d, entityOf (MkResolver id "" rel) (NewControllerTag id))).
    unfold controllerTag. by rewrite decide_True.
  - change (modelTag (MkResolver id "" rel) d = (d, entityOf (MkResolver id "" rel) (NewModelTag id))).
    unfold modelTag. by rewrite decide_True.
  - change (applicationOfferTag (MkResolver id "" rel) d
            = (d, entityOf (MkResolver id "" rel) (NewApplicationOfferTag id))).
    unfold applicationOfferTag. by rewrite decide_True.
  - change (cloudTag (MkResolver id "" rel) d = (d, entityOf (MkResolver id "" rel) (NewCloudTag id))).
    unfold cloudTag. by rewrite decide_True.
Qed.

Lemma ToJAASTag_raw j e d :
  ToJAASTag j e false d =
  (d, Ok (EKind e +:+ String "-" (EID e +:+ rel_suffix (ERelation e)))).
Proof. unfold ToJAASTag. cbn. by rewrite tagToString_split. Qed.

(** The constructors of the tags return the entity they are given. *)
Lemma uuid_tag_entity e (new : string -> outcome Tag) :
  EKind e <> UserTagKind -> new (EID e) = Ok (MkTag (EKind e) (EID e)) ->
  entityOf (MkResolver (EID e) "" (ERelation e)) (new (EID e)) = Ok e.
Proof.
  intros Hk ->. unfold entityOf, ConvertTagWithRelation, ConvertTag, ConvertGenericTag. simpl.
  rewrite decide_False by tauto. by destruct e.
Qed.

Lemma uuid_entity_resolves j e d :
  uuid_entity e -> plain_relation (ERelation e) ->
  parseAndValidateTag j (EKind e +:+ String "-" (EID e +:+ rel_suffix (ERelation e))) d = (d, Ok e).
Proof.
  intros (Hu & Hne & Hh & Hkind) Hrel.
  assert (str_forall is_alnum (EKind e) = true) as Ha.
  { destruct Hkind as [[Hk _]|[[-> _]|[-> _]]]; try done.
    revert Hk. generalize (EKind e). apply Forall_forall. repeat constructor. }
  rewrite parse_of_tag by done. rewrite Hu.
  unfold map_err. destruct Hkind as [[Hk Hv]|[[Hk Hv]|[Hk Hv]]].
  - assert (EKind e <> UserTagKind) as Hnu.
    { intros He. rewrite He in Hk. repeat (apply elem_of_cons in Hk as [Hk|Hk]; [by vm_compute in Hk|]).
      by apply elem_of_nil in Hk. }
    rewrite (resolve_uuid _ _ _ _ _ (NewJujuTag (EKind e))) by (done || set_solver).
    rewrite (uuid_tag_entity e (NewJujuTag (EKind e)) Hnu); [done|]. unfold NewJujuTag. by rewrite Hv.
  - rewrite (resolve_uuid _ _ _ _ _ NewGroupTag) by auto.
    rewrite (uuid_tag_entity e NewGroupTag); [done|by rewrite Hk|]. rewrite Hk. by apply NewGroupTag_valid.
  - rewrite (resolve_uuid _ _ _ _ _ NewRoleTag) by auto.
    rewrite (uuid_tag_entity e NewRoleTag); [done|by rewrite Hk|]. rewrite Hk. by apply NewRoleTag_valid.
Qed.

Lemma user_named_resolves j e d :
  user_named e -> plain_relation (ERelation e) ->
  parseAndValidateTag j (EKind e +:+ String "-" (EID e +:+ rel_suffix (ERelation e))) d = (d, Ok e).
Proof.
  intros (Hk & Hu & Hne & Hev & Hh & Hv & Hid) Hrel.
  rewrite parse_of_tag by (done || by rewrite Hk). rewrite Hu, Hk.
  change (resolve_kind j UserTagKind ?t) with (lift (W := Db T) (userTag t)).
  unfold map_err, userTag, lift. cbn -[entityOf]. rewrite Hv. unfold NewUserTag. rewrite Hv, Hid.
  cbn -[ConvertTagWithRelation]. unfold ConvertTagWithRelation, ConvertTag, ConvertGenericTag.
  simpl. rewrite decide_False by (intros [_ ?]; done). destruct e; simpl in *; by subst.
Qed.

(** Printing an OpenFGA entity as a JAAS tag and parsing the tag gives
    the entity back, for users and for controllers, models, offers, groups and
    roles with a UUID, with or without a relation; no database row is needed
    or changed. *)
Theorem ToJAASTag_parse_roundtrip j e d :
  uuid_entity e \/ user_named e -> plain_relation (ERelation e) ->
  exists s, ToJAASTag j e false d = (d, Ok s) /\ parseAndValidateTag j s d = (d, Ok e).
Proof.
  intros He Hrel. eexists; split; [apply ToJAASTag_raw|].
  destruct He as [He|He]; [by apply uuid_entity_resolves|by apply user_named_resolves].
Qed.

(** A group tag whose identifier [uuid.Parse] accepts but that is not in
    the canonical lower-case form makes the resolver panic. *)
Theorem group_uuid_panics j id rel d :
  uuid_Parse id = true -> id <> "" -> str_forall (not_char "#") id = true ->
  IsValidGroupId id = false -> plain_relation rel ->
  exists msg, parseAndValidateTag j (GroupTagKind +:+ String "-" (id +:+ rel_suffix rel)) d = (d, Panic msg).
Proof.
  intros Hu Hne Hh Hv Hrel. rewrite parse_of_tag by done. rewrite Hu. unfold map_err.
  rewrite (resolve_uuid _ _ _ _ _ NewGroupTag) by auto.
  destruct (NewGroupTag_invalid id Hv) as [msg ->]. by eexists.
Qed.

(** The group row that a lookup by UUID or by name finds. *)
Lemma GetGroup_unique g lookup d d' g' :
  unique_rows (rows (db_groups d)) -> g ∈ rows (db_groups d) ->
  (g_UUID lookup = g_UUID g /\ g_UUID g <> "") \/ (g_Name lookup = g_Name g /\ g_Name g <> "") ->
  GetGroup lookup d = (d', Ok g') -> g' = g.
Proof.
  intros [_ Huniq] Hin Hkey Hget.
  destruct (wp_elim _ _ _ _ _ (GetGroup_wp lookup d) Hget) as (_ & _ & Hg).
  destruct (Hg g' eq_refl) as [Hin' Hw]. apply Huniq; try done. simpl.
  unfold group_where in Hw. rewrite !andb_true_iff, !orb_true_iff, !bool_decide_eq_true in Hw.
  destruct Hw as [[_ Hu] Hn]. apply orb_true_iff. rewrite !bool_decide_eq_true. naive_solver congruence.
Qed.

(** The readable tag of a group, with its name looked up in the database,
    resolves to the same group again, as long as the names are unique and the
    name is not itself a UUID or contains a hash. *)
Theorem group_name_roundtrip j g rel d d1 s d2 e :
  db_ok d -> g ∈ rows (db_groups d) -> IsValidGroupId (g_UUID g) = true ->
  g_Name g <> "" -> str_forall (not_char "#") (g_Name g) = true -> uuid_Parse (g_Name g) = false ->
  plain_relation rel ->
  ToJAASTag j (MkEntity GroupTagKind (g_UUID g) rel) true d = (d1, Ok s) ->
  parseAndValidateTag j s d1 = (d2, Ok e) ->
  s = GroupTagKind +:+ String "-" (g_Name g +:+ rel_suffix rel) /\
  e = MkEntity GroupTagKind (g_UUID g) rel /\ tables d2 = tables d.
Proof.
  intros Hok Hin Hv Hne Hh Hnu Hrel Hto Hparse.
  pose proof (wp_elim _ _ _ _ _ (ToJAASTag_reads _ _ _ _) Hto) as [_ Ht1].
  pose proof (wp_elim _ _ _ _ _ (parseAndValidateTag_reads _ _ _) Hparse) as [_ Ht2].
  assert (rows (db_groups d1) = rows (db_groups d)) as Hrows by (unfold tables in Ht1; congruence).
  assert (unique_rows (rows (db_groups d))) as Hu by apply Hok.
  pose proof (IsValidGroupId_nonempty _ Hv) as Hune.
  change ((map_err (fetchError "group" (g_UUID g)) (GetGroup (MkGroup 0 0 0 "" (g_UUID g))) ≫= fun group =>
    mret (tagToString (MkEntity GroupTagKind (g_UUID g) rel) GroupTagKind (g_Name group))) d = (d1, Ok s)) in Hto.
  unfold mbind, M_bind, map_err in Hto.
  destruct (GetGroup _ d) as [d1' [g1| | |]] eqn:Hg1; try done.
  assert (g1 = g) as -> by (refine (GetGroup_unique g _ _ _ _ Hu Hin _ Hg1); by left).
  unfold mret, M_ret in Hto. injection Hto as -> <-. rewrite tagToString_split in Hparse |- *. cbn [ERelation] in *.
  rewrite parse_of_tag in Hparse by done. rewrite Hnu in Hparse.
  change (resolve_kind j GroupTagKind ?t) with (groupTag (T := T) t) in Hparse.
  unfold map_err, groupTag in Hparse. rewrite decide_False in Hparse by (simpl; tauto). cbn [trailer] in Hparse.
  unfold mbind, M_bind, map_err in Hparse.
  destruct (GetGroup _ d1) as [d2' [g2| | |]] eqn:Hg2; try done.
  assert (g2 = g) as -> by (refine (GetGroup_unique g _ _ _ _ _ _ _ Hg2); rewrite ?Hrows; [done..|by right]).
  unfold lift, entityOf, Group_ResourceTag in Hparse. rewrite NewGroupTag_valid in Hparse by done.
  cbn in Hparse. injection Hparse as -> <-. split_and!; [done|done|congruence].
Qed.

End properties.
