(* ===== verification/Access.v ===== *)
(** * Access: grants, revocations and permission checks
    ([internal/jimm/permissions/access.go]).

    The functions of the permission manager run on a [World]: the
    authorisation service and the database.  Each states its guards in the
    order of the code; [Unauthorized] is the error with the code for
    unauthorized access.  Loops over pages take fuel; the theorems show that a
    fuel above the number of stored tuples is enough. *)

From S2P Require Import Prelude Errors Regexp Names AuthModel RefServer OpenFGA Dbmodel Users Database TagResolver.

Module Perm.

(** ** Access strings and relations *)

Definition OfferAdminAccess := "admin".
Definition OfferConsumeAccess := "consume".
Definition OfferReadAccess := "read".

Definition ToOfferAccessString (relation : string) : string :=
  if decide (relation = AdministratorRelation) then OfferAdminAccess
  else if decide (relation = ConsumerRelation) then OfferConsumeAccess
  else if decide (relation = ReaderRelation) then OfferReadAccess
  else "".

Definition ToCloudAccessString (relation : string) : string :=
  if decide (relation = AdministratorRelation) then "admin"
  else if decide (relation = CanAddModelRelation) then "add-model"
  else "".

Definition ToModelAccessString (relation : string) : string :=
  if decide (relation = AdministratorRelation) then "admin"
  else if decide (relation = WriterRelation) then "write"
  else if decide (relation = ReaderRelation) then "read"
  else "".

Definition ToControllerAccessString (relation : string) : string :=
  if decide (relation = AdministratorRelation) then "superuser" else "login".

Definition ToControllerRelation (accessLevel : string) : outcome string :=
  if decide (accessLevel = "superuser") then Ok AdministratorRelation
  else Err (New "unknown controller access").

Definition ToCloudRelation (accessLevel : string) : outcome string :=
  if decide (accessLevel = "admin") then Ok AdministratorRelation
  else if decide (accessLevel = "add-model") then Ok CanAddModelRelation
  else Err (New "unknown cloud access").

Definition ToModelRelation (accessLevel : string) : outcome string :=
  if decide (accessLevel = "admin") then Ok AdministratorRelation
  else if decide (accessLevel = "write") then Ok WriterRelation
  else if decide (accessLevel = "read") then Ok ReaderRelation
  else Err (New "unknown model access").

Definition ToOfferRelation (accessLevel : string) : outcome string :=
  if decide (accessLevel = "") then Ok NoRelation
  else if decide (accessLevel = OfferAdminAccess) then Ok AdministratorRelation
  else if decide (accessLevel = OfferConsumeAccess) then Ok ConsumerRelation
  else if decide (accessLevel = OfferReadAccess) then Ok ReaderRelation
  else Err (New "unknown application offer access").

Definition determineAccessLevelAfterGrant (currentAccessLevel grantAccessLevel : string) : string :=
  if decide (currentAccessLevel = OfferAdminAccess) then OfferAdminAccess
  else if decide (currentAccessLevel = OfferConsumeAccess) then
    if decide (grantAccessLevel = OfferAdminAccess) then OfferAdminAccess else OfferConsumeAccess
  else if decide (currentAccessLevel = OfferReadAccess) then
    if decide (grantAccessLevel = OfferAdminAccess) then OfferAdminAccess
    else if decide (grantAccessLevel = OfferConsumeAccess) then OfferConsumeAccess
    else OfferReadAccess
  else grantAccessLevel.

Section access.
Context {F : Type} `{OFGAServer F} {T : Type -> Type} `{Gorm T} `{JujuNames} `{Hash} `{GroupFetcher} `{UUIDParse}.
Implicit Types (j : PermissionManager) (user : User).


Definition GetUserControllerAccess user (controller : Tag) : M (World F T) string :=
  accessLevel ← fga (GetControllerAccess user controller);
  mret (ToControllerAccessString accessLevel).
Definition GetUserCloudAccess user (cloud : Tag) : M (World F T) string :=
  accessLevel ← fga (GetCloudAccess user cloud);
  mret (ToCloudAccessString accessLevel).
Definition GetUserModelAccess user (model : Tag) : M (World F T) string :=
  accessLevel ← fga (GetModelAccess user model);
  mret (ToModelAccessString accessLevel).
Definition GetUserApplicationOfferAccess user (offer : Tag) : M (World F T) string :=
  accessLevel ← fga (GetApplicationOfferAccess user offer);
  mret (ToOfferAccessString accessLevel).

(** [targetUser.SetTag(ut); j.store.GetIdentity(ctx, targetUser)] and the
    OpenFGA user of the identity. *)
Definition getTargetUser (ut : Tag) : M (World F T) User :=
  targetUser ← db (GetIdentity (Identity_SetTag zeroIdentity ut));
  mret (NewUser targetUser).

Definition GrantAuditLogAccess j user (targetUserTag : Tag) : M (World F T) unit :=
  access ← fga (GetControllerAccess user (jimmTag j));
  if decide (access <> AdministratorRelation) then throw Unauthorized else
  targetUser ← getTargetUser targetUserTag;
  fga (SetControllerAccess targetUser (jimmTag j) AuditLogViewerRelation).

Definition RevokeAuditLogAccess j user (targetUserTag : Tag) : M (World F T) unit :=
  access ← fga (GetControllerAccess user (jimmTag j));
  if decide (access <> AdministratorRelation) then throw Unauthorized else
  targetUser ← getTargetUser targetUserTag;
  fga (UnsetAuditLogViewerAccess targetUser (jimmTag j)).

Definition unrecognizedAccess (access : string) (_ : gerror) : gerror :=
  Codef CodeBadRequest "failed to recognize given access: %q" [ArgS access].

(** [if !allowed { return unauthorized }]. *)
Definition require (allowed : bool) : M (World F T) unit :=
  match allowed with true => mret tt | false => throw Unauthorized end.

(** ** Clouds *)

Definition GrantCloudAccess user (ct ut : Tag) (access : string) : M (World F T) unit :=
  targetRelation ← map_err (unrecognizedAccess access) (lift (ToCloudRelation access));
  isCloudAdministrator ← fga (IsAdministrator user ct);
  _ ← require isCloudAdministrator;
  targetOfgaUser ← getTargetUser ut;
  currentRelation ← fga (GetCloudAccess targetOfgaUser ct);
  let set := map_err (fun err => Errorf "failed to set cloud access: %w" [ArgE err])
               (fga (SetCloudAccess targetOfgaUser ct targetRelation)) in
  if decide (targetRelation = CanAddModelRelation) then
    if decide (currentRelation = NoRelation) then set else mret tt
  else if decide (targetRelation = AdministratorRelation) then
    if decide (currentRelation = NoRelation \/ currentRelation = CanAddModelRelation) then set
    else mret tt
  else set.

Definition RevokeCloudAccess (fuel : nat) user (ct ut : Tag) (access : string) : M (World F T) unit :=
  targetRelation ← map_err (unrecognizedAccess access) (lift (ToCloudRelation access));
  isCloudAdministrator ← fga (IsAdministrator user ct);
  _ ← require isCloudAdministrator;
  targetOfgaUser ← getTargetUser ut;
  currentRelation ← fga (GetCloudAccess targetOfgaUser ct);
  let unset relationsToRevoke :=
    map_err (fun err => Errorf "failed to unset cloud access: %w" [ArgE err])
      (fga (UnsetCloudAccess fuel targetOfgaUser ct relationsToRevoke)) in
  if decide (targetRelation = CanAddModelRelation) then
    if decide (currentRelation = NoRelation) then mret tt
    else unset [CanAddModelRelation; AdministratorRelation]
  else if decide (targetRelation = AdministratorRelation) then
    if decide (currentRelation = NoRelation \/ currentRelation = CanAddModelRelation) then mret tt
    else unset [AdministratorRelation]
  else unset [].

(** ** Models *)

Definition GrantModelAccess user (mt ut : Tag) (access : string) : M (World F T) unit :=
  targetRelation ← map_err (unrecognizedAccess access) (lift (ToModelRelation access));
  modelAdmin ← fga (HasModelRelation user mt AdministratorRelation);
  _ ← require modelAdmin;
  targetOfgaUser ← getTargetUser ut;
  currentRelation ← fga (GetModelAccess targetOfgaUser mt);
  let set := map_err (fun err => Errorf "failed to set model access: %w" [ArgE err])
               (fga (SetModelAccess targetOfgaUser mt targetRelation)) in
  if decide (targetRelation = ReaderRelation) then
    if decide (currentRelation = NoRelation) then set else mret tt
  else if decide (targetRelation = WriterRelation) then
    if decide (currentRelation = NoRelation \/ currentRelation = ReaderRelation) then set
    else mret tt
  else if decide (targetRelation = AdministratorRelation) then
    if decide (currentRelation = NoRelation \/ currentRelation = ReaderRelation \/
               currentRelation = WriterRelation) then set
    else mret tt
  else set.

(** The switch of [RevokeModelAccess]: nothing to do, or the relation to set
    and the relations to revoke. *)
Definition revokeModelPlan (targetRelation currentRelation : string) : option (string * list string) :=
  if decide (targetRelation = ReaderRelation) then
    if decide (currentRelation = NoRelation) then None
    else Some (NoRelation, [ReaderRelation; WriterRelation; AdministratorRelation])
  else if decide (targetRelation = WriterRelation) then
    if decide (currentRelation = NoRelation \/ currentRelation = ReaderRelation) then None
    else if decide (currentRelation = AdministratorRelation)
    then Some (ReaderRelation, [WriterRelation; AdministratorRelation])
    else Some (ReaderRelation, [WriterRelation; AdministratorRelation])
  else if decide (targetRelation = AdministratorRelation) then
    if decide (currentRelation = NoRelation \/ currentRelation = ReaderRelation \/
               currentRelation = WriterRelation) then None
    else Some (WriterRelation, [AdministratorRelation])
  else Some (NoRelation, []).

Definition RevokeModelAccess (fuel : nat) user (mt ut : Tag) (access : string) : M (World F T) unit :=
  targetRelation ← map_err (unrecognizedAccess access) (lift (ToModelRelation access));
  modelAdmin ← fga (HasModelRelation user mt AdministratorRelation);
  _ ← require modelAdmin;
  targetOfgaUser ← getTargetUser ut;
  currentRelation ← fga (GetModelAccess targetOfgaUser mt);
  match revokeModelPlan targetRelation currentRelation with
  | None => mret tt
  | Some (relationToSet, relationsToRevoke) =>
      _ ← (if decide (relationToSet <> NoRelation) then
             map_err (fun err => Errorf "failed to set model access: %w" [ArgE err])
               (fga (SetModelAccess targetOfgaUser mt relationToSet))
           else mret tt);
      map_err (fun err => Errorf "failed to unset model access: %w" [ArgE err])
        (fga (UnsetModelAccess fuel targetOfgaUser mt relationsToRevoke))
  end.

(** ** Application offers *)

Definition GrantOfferAccess user (offerURL : string) (ut : Tag) (access : string) : M (World F T) unit :=
  identity ← lift (NewIdentity (Id ut));
  offer ← db (GetApplicationOffer (offerOf offerURL ""));
  offerTag ← lift (Offer_ResourceTag offer);
  isOfferAdmin ← fga (IsAdministrator user offerTag);
  _ ← require isOfferAdmin;
  let targetUser := NewUser identity in
  currentRelation ← fga (GetApplicationOfferAccess targetUser offerTag);
  let currentAccessLevel := ToOfferAccessString currentRelation in
  let targetAccessLevel := determineAccessLevelAfterGrant currentAccessLevel access in
  if decide (targetAccessLevel <> currentAccessLevel) then
    relation ← lift (ToOfferRelation targetAccessLevel);
    fga (SetApplicationOfferAccess targetUser offerTag relation)
  else mret tt.

Definition stillHasAccess (targetRelation currentRelation : string) : bool :=
  if decide (targetRelation = AdministratorRelation) then
    bool_decide (currentRelation = AdministratorRelation)
  else if decide (targetRelation = ConsumerRelation) then
    bool_decide (currentRelation ∈ [AdministratorRelation; ConsumerRelation])
  else if decide (targetRelation = ReaderRelation) then
    bool_decide (currentRelation ∈ [AdministratorRelation; ConsumerRelation; ReaderRelation])
  else false.

Definition RevokeOfferAccess user (offerURL : string) (ut : Tag) (access : string) : M (World F T) unit :=
  identity ← lift (NewIdentity (Id ut));
  offer ← db (GetApplicationOffer (offerOf offerURL ""));
  offerTag ← lift (Offer_ResourceTag offer);
  isOfferAdmin ← fga (IsAdministrator user offerTag);
  _ ← require isOfferAdmin;
  let targetUser := NewUser identity in
  targetRelation ← lift (ToOfferRelation access);
  _ ← map_err (fun err => Errorf "failed to unset given access: %w" [ArgE err])
        (fga (UnsetApplicationOfferAccess targetUser offerTag targetRelation));
  currentRelation ← fga (GetApplicationOfferAccess targetUser offerTag);
  match stillHasAccess targetRelation currentRelation with
  | true => throw (New "unable to completely revoke given access due to other relations; try to remove them as well")
  | false => mret tt
  end.

(** ** Sessions *)

Definition GetJimmControllerAccess j user (tag : Tag) : M (World F T) string :=
  if decide (u_Name user = Id tag) then
    mret (if JimmAdmin user then "superuser" else "login")
  else if negb (JimmAdmin user) then throw Unauthorized
  else
    targetUser ← lift (NewUserFromTag tag);
    isAdmin ← map_err (fun err => Errorf "failed to check access rights: %w" [ArgE err])
                (fga (IsAdministrator targetUser (jimmTag j)));
    mret (match isAdmin with true => "superuser" | false => "login" end).

(** The arguments and results of [CheckPermission]: the map [cachedPerms] is
    changed in place, so its contents after the call are part of the result;
    the returned map is that map, or nil.  [desiredPerms] is given as the list
    of its entries in the order of the iteration, which Go leaves open. *)
Record permissionCheck := MkCheck { pc_key : string; pc_value : string; pc_tag : Tag; pc_relation : string }.
Record PermResult := MkPermResult {
  cached : gmap string string; returned : option (gmap string string); perm_err : option gerror;
}.

Definition goany_type (v : goany) : string :=
  match v with
  | AnyString _ => "string"
  | AnyInt _ => "int"
  | AnyBool _ => "bool"
  | AnyOther t => t
  end.

(** The first loop: the checks to make, or how the function returns. *)
Fixpoint collectChecks (cachedPerms : gmap string string) (desired : list (string * goany))
    : list permissionCheck + (bool * gerror) :=
  match desired with
  | [] => inl []
  | (key, val) :: desired =>
      match cachedPerms !! key with
      | Some _ => collectChecks cachedPerms desired
      | None =>
          match val with
          | AnyString stringVal =>
              match juju_ParseTag key with
              | Ok tag =>
                  match ConvertJujuRelation stringVal with
                  | Ok relation =>
                      match collectChecks cachedPerms desired with
                      | inl checks => inl (MkCheck key stringVal tag relation :: checks)
                      | inr r => inr r
                      end
                  | Err err => inr (true, Errorf "failed to parse relation %s: %w" [ArgS stringVal; ArgE err])
                  | _ => inr (true, New "unreachable")
                  end
              | _ => inr (true, Errorf "failed to parse tag %s" [ArgS key])
              end
          | _ => inr (false, Errorf "failed to get permission assertion: expected %T, got %T"
                               [ArgT "string"; ArgT (goany_type val)])
          end
      end
  end.

(** The last loop: permissions are cached in order until one is missing. *)
Fixpoint cacheAllowed (allowed : gmap string bool) (batch : list (permissionCheck * string))
    (cachedPerms : gmap string string) : PermResult :=
  match batch with
  | [] => MkPermResult cachedPerms (Some cachedPerms) None
  | (check, id) :: batch =>
      if default false (allowed !! id)
      then cacheAllowed allowed batch (<[pc_key check := pc_value check]> cachedPerms)
      else MkPermResult cachedPerms (Some cachedPerms)
             (Some (Errorf "missing permission for %s:%s" [ArgS (pc_key check); ArgS (pc_value check)]))
  end.

Definition CheckPermission user (cachedPerms : gmap string string) (desiredPerms : list (string * goany))
    : M (World F T) PermResult :=
  let fail err := MkPermResult cachedPerms (Some cachedPerms) (Some err) in
  match collectChecks cachedPerms desiredPerms with
  | inr (true, err) => mret (fail err)
  | inr (false, err) => mret (MkPermResult cachedPerms None (Some err))
  | inl [] => mret (MkPermResult cachedPerms (Some cachedPerms) None)
  | inl checks =>
      match ContextualTuples user with
      | Err err => mret (fail err)
      | Panic s => panic s
      | OutOfFuel => diverge
      | Ok contextualTuples =>
          object ← lift (user_entity user);
          let ids := (fun i : nat => pretty (Z.of_nat i)) <$> seq 0 (length checks) in
          let batch := zip_with (fun check id =>
            MkTWC (MkTuple (Some object) (pc_relation check) (Some (ConvertGenericTag (pc_tag check))))
                  id contextualTuples) checks ids in
          res ← try (fga (BatchCheckRelations batch));
          match res with
          | inr err => mret (fail err)
          | inl allowed => mret (cacheAllowed allowed (zip checks ids) cachedPerms)
          end
      end
  end.

(** ** Cleanup *)

(** Whether resolving an end of the tuple fails with a not-found error; a
    missing end is a nil pointer. *)
Definition endMissing j (end_ : option Entity) : M (World F T) bool :=
  match end_ with
  | None => panic "invalid memory address or nil pointer dereference"
  | Some e =>
      res ← try (db (ToJAASTag j e true));
      mret (match res with
            | inr err => bool_decide (ErrorCode err = CodeNotFound)
            | inl _ => false
            end)
  end.

Fixpoint orphanedTuples j (tuples : list Tuple) : M (World F T) (list Tuple) :=
  match tuples with
  | [] => mret []
  | tuple :: tuples =>
      objectMissing ← endMissing j (Object tuple);
      orphaned ← (match objectMissing with
                  | true => mret true
                  | false => endMissing j (Target tuple)
                  end);
      rest ← orphanedTuples j tuples;
      mret (match orphaned with true => tuple :: rest | false => rest end)
  end.

(** [done n] says whether the context is cancelled after the [n]th page. *)
Fixpoint OpenFGACleanup_loop (fuel : nat) (done : nat -> bool) (n : nat) j (continuationToken : string)
    : M (World F T) unit :=
  match fuel with
  | 0%nat => diverge
  | S fuel =>
      '(tuples, continuationToken) ←
        fga (ReadRelatedObjects (MkTuple None "" None) 20 continuationToken);
      orphans ← orphanedTuples j tuples;
      _ ← (if decide (0 < length orphans)%nat then
             _ ← try (fga (RemoveRelation orphans)); mret tt
           else mret tt);
      if decide (continuationToken = "") then mret tt
      else if done n then mret tt
      else OpenFGACleanup_loop fuel done (S n) j continuationToken
  end.
Definition OpenFGACleanup (fuel : nat) (done : nat -> bool) j : M (World F T) unit :=
  OpenFGACleanup_loop fuel done 0 j "".

End access.

(** ** Facts *)

(** The tuples of the authorisation service. *)
Definition w_tuples {F} `{OFGAServer F} {T} (w : World F T) : gset Tuple := srv_tuples (w_fga w).

(** The OpenFGA entity of a user tag. *)
Definition subject `{JujuNames} (ut : Tag) : outcome Entity :=
  tag ← NewUserTag (Id ut); Ok (ConvertTag tag).

Section facts.
Context {F : Type} `{OFGALaws F} {T : Type -> Type} `{GormLaws T} `{JujuNames}.
Implicit Types (w : World F T) (u user : User).

(** A stored identity without session groups is its entity. *)
Lemma NewUser_entity i ut : i_Name i = Id ut -> user_entity (NewUser i) = subject ut.
Proof. intros Hn. unfold user_entity, subject, Identity_ResourceTag. simpl. by rewrite Hn. Qed.

Lemma NewUser_access i ut e X r g :
  i_Name i = Id ut -> subject ut = Ok e -> has_access X (NewUser i) r g <-> holds X e r g.
Proof.
  intros Hn He. rewrite (has_access_iff X (NewUser i) e []); [|by rewrite (NewUser_entity i ut)|done].
  simpl. by rewrite union_empty_r_L.
Qed.

Lemma subject_kind ut e : subject ut = Ok e -> EKind e = UserTagKind /\ ERelation e = "".
Proof.
  intros He. apply (user_entity_kind (NewUser (with_Name zeroIdentity (Id ut)))).
  by rewrite (NewUser_entity _ ut).
Qed.

Lemma wp_fga {A} (m : M F A) Q w :
  wp m (fun o f => Q o (MkWorld f (w_db w))) (w_fga w) -> wp (fga m) Q w.
Proof. exact (wp_zoom w_fga (fun f w => MkWorld f (w_db w)) m Q w). Qed.

Lemma wp_db {A} (m : M (Db T) A) Q w :
  wp m (fun o d => Q o (MkWorld (w_fga w) d)) (w_db w) -> wp (db m) Q w.
Proof. exact (wp_zoom w_db (fun d w => MkWorld (w_fga w) d) m Q w). Qed.

(** An operation that reads the authorisation service. *)
Lemma wp_fga_read {A} (m : M F A) (P : outcome A -> Prop) Q w :
  wp m (fun o f => srv_tuples f = w_tuples w /\ answered o /\ P o) (w_fga w) ->
  (forall o w', w_tuples w' = w_tuples w -> w_db w' = w_db w -> answered o -> P o -> Q o w') ->
  wp (fga m) Q w.
Proof.
  intros Hm HQ. apply wp_fga. eapply wp_mono; [exact Hm|]. intros o f (HT & Ha & HP). by apply HQ.
Qed.

Lemma getTargetUser_wp ut w :
  db_ok (w_db w) ->
  wp (getTargetUser ut) (fun o w' => answered o /\ w_tuples w' = w_tuples w /\ db_ok (w_db w') /\
    forall u, o = Ok u -> exists i, u = NewUser i /\ i_Name i = Id ut) w.
Proof.
  intros (Hg & Hr & Hi). unfold getTargetUser. apply wp_bind, wp_db.
  eapply wp_mono; [by apply GetIdentity_wp|]. intros o d (Ha & Hg' & Hr' & Hi' & Ho).
  assert (db_ok d) by (unfold db_ok; rewrite Hg', Hr'; by split_and!).
  destruct o as [i| | |]; simpl; [wp_value|by split_and!..]. split_and!; try done.
  intros u Hu. apply (inj Ok) in Hu as <-. exists i. by destruct Ho as (_ & ? & _).
Qed.

(** What the guards of a grant or revocation establish: a failing guard
    leaves everything as it was. *)
Lemma guarded_wp rel errf user g ut (k : string -> User -> M (World F T) unit) w Q :
  db_ok (w_db w) -> answered rel ->
  (forall o w', answered o -> o <> Ok tt -> w_tuples w' = w_tuples w -> db_ok (w_db w') -> Q o w') ->
  (forall r i w', rel = Ok r -> has_access (w_tuples w) user AdministratorRelation (ConvertTag g) ->
     i_Name i = Id ut -> w_tuples w' = w_tuples w -> db_ok (w_db w') -> wp (k r (NewUser i)) Q w') ->
  wp (r ← map_err errf (lift rel);
      allowed ← fga (checkRelation user g AdministratorRelation);
      _ ← require allowed;
      targetUser ← getTargetUser ut;
      k r targetUser) Q w.
Proof.
  intros Hdb Hrel Hfail Hk. apply wp_bind, wp_map_err, wp_lift.
  destruct rel as [r|e|s|]; simpl; [|by apply Hfail..|done].
  apply wp_bind. eapply wp_fga_read.
  { eapply wp_mono; [apply checkRelation_wp|]. intros o f (HT & Ha & Hb).
    split_and!; [exact HT|done|exact Hb]. }
  intros o w1 HT1 Hd1 Ha Hb. destruct o as [[]|e|s|]; simpl; try (apply Hfail; by rewrite ?Hd1).
  apply wp_bind. wp_value. apply wp_bind. eapply wp_mono; [apply getTargetUser_wp; by rewrite Hd1|].
  intros o w2 (Ha2 & HT2 & Hd2 & Hu). destruct o as [u|e|s|]; simpl; try (apply Hfail; congruence || done).
  destruct (Hu u eq_refl) as (i & -> & Hi). apply Hk; try done; [|congruence].
  by apply (Hb true).
Qed.

End facts.

(** ** Specification of grants and revocations *)

Definition model_levels : list string := [AdministratorRelation; WriterRelation; ReaderRelation].
Definition cloud_levels : list string := [AdministratorRelation; CanAddModelRelation].

(** The rank of a relation in a descending list of levels; no relation has
    rank 0. *)
Fixpoint rank (levels : list string) (r : string) : nat :=
  match levels with
  | [] => 0%nat
  | l :: levels => if decide (l = r) then S (length levels) else rank levels r
  end.

(** The access a service reports for a user: a failing service reports none. *)
Definition reported `{JujuNames} (X : gset Tuple) (e : Entity) (g : Entity) (levels : list string) (c : string) : Prop :=
  c = NoRelation \/
  (c ∈ levels /\ holds X e c g /\ forall r, r ∈ levels -> (rank levels c < rank levels r)%nat -> ~ holds X e r g).

(** A grant adds the tuple unless the reported level is as high. *)
Definition granted (levels : list string) (e g : Entity) (r c : string) (X : gset Tuple) : gset Tuple :=
  if (rank levels r <=? rank levels c)%nat then X else X ∪ {[edge e r g]}.

(** A revocation removes the direct tuples of the level and above, and leaves
    the level below it, if there is one. *)
Definition revoked (levels : list string) (e g : Entity) (below r c : string) (X : gset Tuple) : gset Tuple :=
  if (rank levels c <? rank levels r)%nat then X
  else (if decide (below = NoRelation) then X else X ∪ {[edge e below g]})
       ∖ list_to_set ((fun l => edge e l g) <$> filter (fun l => (rank levels r <= rank levels l)%nat) levels).

(** The level that Juju leaves a model user after a revocation. *)
Definition level_below (r : string) : string :=
  if decide (r = AdministratorRelation) then WriterRelation
  else if decide (r = WriterRelation) then ReaderRelation
  else NoRelation.

(** In a list without duplicates, what ranks higher comes before. *)
Lemma rank_before pre c post r :
  NoDup (pre ++ c :: post) -> r ∈ pre ++ c :: post ->
  (rank (pre ++ c :: post) c < rank (pre ++ c :: post) r)%nat -> r ∈ pre.
Proof.
  intros Hnd Hr' Hlt. apply elem_of_app in Hr' as [?|Hin]; [done|exfalso].
  assert (forall l x y, x ∉ l -> rank (l ++ y) x = rank y x) as Hskip.
  { intros l x y. induction l as [|a l IH]; intros Hx; [done|]. simpl.
    rewrite decide_False by set_solver. apply IH. set_solver. }
  assert (forall l x, (rank l x <= length l)%nat) as Hle.
  { intros l x. induction l; simpl; [done|]. case_decide; simpl; lia. }
  apply NoDup_app in Hnd as (_ & Hdis & Hnd).
  rewrite (Hskip pre c), (Hskip pre r) in Hlt by (intros Hp; by eapply Hdis; [exact Hp|set_solver]).
  simpl in Hlt. rewrite decide_True in Hlt by done.
  case_decide; [lia|]. specialize (Hle post r). lia.
Qed.

Section grants.
Context {F : Type} `{OFGALaws F} {T : Type -> Type} `{GormLaws T} `{JujuNames}.
Implicit Types (w : World F T) (user : User).

(** The level that the ladder functions report of a target user. *)
Lemma current_wp levels i ut e g (k : string -> M (World F T) unit) w Q :
  i_Name i = Id ut -> subject ut = Ok e -> NoDup levels ->
  (forall o w', answered o -> o <> Ok tt -> w_tuples w' = w_tuples w -> w_db w' = w_db w -> Q o w') ->
  (forall c w', w_tuples w' = w_tuples w -> w_db w' = w_db w ->
     reported (w_tuples w) e (ConvertTag g) levels c -> wp (k c) Q w') ->
  wp (c ← fga (access_ladder (NewUser i) g levels); k c) Q w.
Proof.
  intros Hi He Hnd Hfail Hk. apply wp_bind. eapply wp_fga_read.
  { eapply wp_mono; [apply access_ladder_wp|]. intros o f (HT & Ha & Hr).
    split_and!; [exact HT|done|exact Hr]. }
  intros o w1 HT Hd Ha Hr. destruct o as [c|err|s|]; simpl; try (by apply Hfail).
  apply Hk; [done|done|]. destruct (Hr c eq_refl) as [?|(pre & post & Hlv & Hacc & Hno)]; [by left|right].
  split_and!; [rewrite Hlv; set_solver|by apply (NewUser_access i ut e _ _ _ Hi He)|].
  intros r Hr' Hlt Hh. apply (Hno r); [|by apply (NewUser_access i ut e _ _ _ Hi He)].
  subst levels. by eapply rank_before.
Qed.
Lemma ToModelRelation_level access r : ToModelRelation access = Ok r -> r ∈ model_levels.
Proof. unfold ToModelRelation, model_levels. intros Hr. repeat case_decide; simplify_eq; set_solver. Qed.
Lemma ToModelRelation_answered access : answered (ToModelRelation access).
Proof. unfold ToModelRelation. by repeat case_decide. Qed.
Lemma ToCloudRelation_level access r : ToCloudRelation access = Ok r -> r ∈ cloud_levels.
Proof. unfold ToCloudRelation, cloud_levels. intros Hr. repeat case_decide; simplify_eq; set_solver. Qed.
Lemma ToCloudRelation_answered access : answered (ToCloudRelation access).
Proof. unfold ToCloudRelation. by repeat case_decide. Qed.

(** What a call that ends in [o] did to the tuples. *)
Definition set_post (Y : gset Tuple) (X : gset Tuple) (o : outcome unit) (w' : World F T) : Prop :=
  answered o /\ w_tuples w' = match o with Ok _ => Y | _ => X end.

Lemma set_wp f i ut e g r w :
  i_Name i = Id ut -> subject ut = Ok e ->
  wp (map_err f (fga (setAccess (NewUser i) g r))) (fun o w' =>
    set_post (w_tuples w ∪ {[edge e r (ConvertTag g)]}) (w_tuples w) o w' /\ w_db w' = w_db w) w.
Proof.
  intros Hi He. apply wp_map_err, wp_fga.
  eapply wp_mono; [apply (setAccess_wp (NewUser i) e); by rewrite (NewUser_entity i ut)|].
  intros o f' [Ha Hs]. unfold set_post. split; [|done]. split; [by destruct o|]. by destruct o.
Qed.

Lemma unset_wp f fuel i ut e g rs w :
  i_Name i = Id ut -> subject ut = Ok e -> (size (w_tuples w) < fuel)%nat ->
  wp (map_err f (fga (unsetMultipleResourceAccesses fuel (NewUser i) g rs 0))) (fun o w' =>
    set_post (w_tuples w ∖ list_to_set ((fun r => edge e r (ConvertTag g)) <$> rs)) (w_tuples w) o w' /\
    w_db w' = w_db w) w.
Proof.
  intros Hi He Hf. apply wp_map_err, wp_fga.
  eapply wp_mono; [apply (unsetMultiple_wp _ (NewUser i) e); [by rewrite (NewUser_entity i ut)|done]|].
  intros o f' [Ha Hs]. unfold set_post. split; [|done]. split; [by destruct o|]. by destruct o.
Qed.

End grants.

(** The cases of a relation that is one of the model or cloud levels. *)
Ltac case_levels Hin :=
  unfold model_levels, cloud_levels in Hin;
  repeat (apply elem_of_cons in Hin as [->|Hin]); [..|by apply elem_of_nil in Hin].

Section switches.

Lemma grant_model_switch {A} r c (set skip : A) :
  r ∈ model_levels -> c = NoRelation \/ c ∈ model_levels ->
  (if decide (r = ReaderRelation) then
     if decide (c = NoRelation) then set else skip
   else if decide (r = WriterRelation) then
     if decide (c = NoRelation \/ c = ReaderRelation) then set else skip
   else if decide (r = AdministratorRelation) then
     if decide (c = NoRelation \/ c = ReaderRelation \/ c = WriterRelation) then set else skip
   else set)
  = if (rank model_levels r <=? rank model_levels c)%nat then skip else set.
Proof. intros Hr Hc. case_levels Hr; (destruct Hc as [->|Hc]; [|case_levels Hc]); reflexivity. Qed.

Lemma grant_cloud_switch {A} r c (set skip : A) :
  r ∈ cloud_levels -> c = NoRelation \/ c ∈ cloud_levels ->
  (if decide (r = CanAddModelRelation) then
     if decide (c = NoRelation) then set else skip
   else if decide (r = AdministratorRelation) then
     if decide (c = NoRelation \/ c = CanAddModelRelation) then set else skip
   else set)
  = if (rank cloud_levels r <=? rank cloud_levels c)%nat then skip else set.
Proof. intros Hr Hc. case_levels Hr; (destruct Hc as [->|Hc]; [|case_levels Hc]); reflexivity. Qed.

(** The relations at a level and above, in the order of the code. *)
Definition model_revoked (r : string) : list string :=
  if decide (r = ReaderRelation) then [ReaderRelation; WriterRelation; AdministratorRelation]
  else if decide (r = WriterRelation) then [WriterRelation; AdministratorRelation]
  else [AdministratorRelation].

Lemma revoke_model_switch r c :
  r ∈ model_levels -> c = NoRelation \/ c ∈ model_levels ->
  revokeModelPlan r c =
  if (rank model_levels c <? rank model_levels r)%nat then None
  else Some (level_below r, model_revoked r).
Proof. intros Hr Hc. case_levels Hr; (destruct Hc as [->|Hc]; [|case_levels Hc]); reflexivity. Qed.

Definition cloud_revoked (r : string) : list string :=
  if decide (r = CanAddModelRelation) then [CanAddModelRelation; AdministratorRelation]
  else [AdministratorRelation].

Lemma revoke_cloud_switch {A} r c (unset : list string -> A) (skip : A) :
  r ∈ cloud_levels -> c = NoRelation \/ c ∈ cloud_levels ->
  (if decide (r = CanAddModelRelation) then
     if decide (c = NoRelation) then skip else unset [CanAddModelRelation; AdministratorRelation]
   else if decide (r = AdministratorRelation) then
     if decide (c = NoRelation \/ c = CanAddModelRelation) then skip else unset [AdministratorRelation]
   else unset [])
  = if (rank cloud_levels c <? rank cloud_levels r)%nat then skip else unset (cloud_revoked r).
Proof. intros Hr Hc. case_levels Hr; (destruct Hc as [->|Hc]; [|case_levels Hc]); reflexivity. Qed.

Lemma model_revoked_set (e g : Entity) r :
  r ∈ model_levels ->
  list_to_set ((fun l => edge e l g) <$> model_revoked r) =@{gset Tuple}
  list_to_set ((fun l => edge e l g) <$> filter (fun l => (rank model_levels r <= rank model_levels l)%nat) model_levels).
Proof. intros Hr. case_levels Hr; simpl; set_solver. Qed.

Lemma cloud_revoked_set (e g : Entity) r :
  r ∈ cloud_levels ->
  list_to_set ((fun l => edge e l g) <$> cloud_revoked r) =@{gset Tuple}
  list_to_set ((fun l => edge e l g) <$> filter (fun l => (rank cloud_levels r <= rank cloud_levels l)%nat) cloud_levels).
Proof. intros Hr. case_levels Hr; simpl; set_solver. Qed.

(** A reported level at least as high as another one gives the latter. *)
Lemma reported_model `{JujuNames} X e g c r :
  EKind g = ModelTagKind -> r ∈ model_levels -> reported X e g model_levels c ->
  (rank model_levels r <= rank model_levels c)%nat -> holds X e r g.
Proof.
  intros Hk Hr Hc Hle. destruct Hc as [->|(Hc & Hh & _)]; [case_levels Hr; vm_compute in Hle; lia|].
  revert Hh. apply holds_model_le; [done|].
  case_levels Hr; case_levels Hc; vm_compute in Hle; try lia; set_solver.
Qed.

Lemma reported_cloud `{JujuNames} X e g c r :
  EKind g = CloudTagKind -> r ∈ cloud_levels -> reported X e g cloud_levels c ->
  (rank cloud_levels r <= rank cloud_levels c)%nat -> holds X e r g.
Proof.
  intros Hk Hr Hc Hle. destruct Hc as [->|(Hc & Hh & _)]; [case_levels Hr; vm_compute in Hle; lia|].
  case_levels Hr; case_levels Hc; vm_compute in Hle; try lia; try done. by apply cloud_access_ordered.
Qed.

Lemma reported_cases `{JujuNames} X e g levels c :
  reported X e g levels c -> c = NoRelation \/ c ∈ levels.
Proof. intros [?|(? & _)]; auto. Qed.

End switches.

(** ** Properties of grants and revocations *)

Section grant_properties.
Context {F : Type} `{OFGALaws F} {T : Type -> Type} `{GormLaws T} `{JujuNames}.
Implicit Types (w : World F T) (user : User).

(** The outcome of a grant: a success needs an administrator and leaves the
    target with the relation; a failure changes no tuple. *)
Definition grant_post levels rel user (g : Entity) (e : Entity) (X : gset Tuple)
    (o : outcome unit) (w' : World F T) : Prop :=
  answered o /\ db_ok (w_db w') /\
  match o with
  | Ok _ => has_access X user AdministratorRelation g /\
      exists r c, rel = Ok r /\ reported X e g levels c /\
        w_tuples w' = granted levels e g r c X /\ holds (w_tuples w') e r g
  | _ => w_tuples w' = X
  end.

(** The outcome of a revocation: a success needs an administrator and removes
    the direct tuples of the level and above; a failure changes nothing, or
    leaves the tuple of the level below that was set first. *)
Definition revoke_post levels (below : string -> string) rel user (g : Entity) (e : Entity) (X : gset Tuple)
    (o : outcome unit) (w' : World F T) : Prop :=
  answered o /\ db_ok (w_db w') /\
  match o with
  | Ok _ => has_access X user AdministratorRelation g /\
      exists r c, rel = Ok r /\ reported X e g levels c /\
        w_tuples w' = revoked levels e g (below r) r c X
  | _ => w_tuples w' = X \/ exists r, rel = Ok r /\ below r <> NoRelation /\
           w_tuples w' = X ∪ {[edge e (below r) g]}
  end.

Lemma grant_fail levels rel user g e X o w' :
  answered o -> o <> Ok tt -> w_tuples w' = X -> db_ok (w_db w') -> grant_post levels rel user g e X o w'.
Proof. intros. split_and!; try done. by destruct o as [[]| | |]. Qed.

Lemma revoke_fail levels below rel user g e X o w' :
  answered o -> o <> Ok tt -> w_tuples w' = X -> db_ok (w_db w') -> revoke_post levels below rel user g e X o w'.
Proof. intros. split_and!; try done. destruct o as [[]| | |]; by auto. Qed.

(** The end of a grant, once the current level is known. *)
Lemma grant_tail levels rel user g e f i ut r c X w :
  rel = Ok r -> has_access X user AdministratorRelation (ConvertTag g) ->
  reported X e (ConvertTag g) levels c -> w_tuples w = X -> db_ok (w_db w) ->
  i_Name i = Id ut -> subject ut = Ok e ->
  ((rank levels r <= rank levels c)%nat -> holds X e r (ConvertTag g)) ->
  holds (X ∪ {[edge e r (ConvertTag g)]}) e r (ConvertTag g) ->
  wp (if (rank levels r <=? rank levels c)%nat then mret tt
      else map_err f (fga (setAccess (NewUser i) g r)))
     (grant_post levels rel user (ConvertTag g) e X) w.
Proof.
  intros Hr Hadm Hrep HT Hd Hi He Hold Hnew. destruct (_ <=? _)%nat eqn:Hle.
  - wp_value. split_and!; [done|done|done|]. exists r, c. unfold granted. rewrite Hle.
    split_and!; try done. rewrite HT. apply Hold. by apply Nat.leb_le.
  - eapply wp_mono; [by apply (set_wp _ i ut e)|]. intros o w3 [[Ha HT3] Hd3].
    split_and!; [done|by rewrite Hd3|]. destruct o as [[]| | |]; [|by rewrite HT3, HT..].
    split; [done|]. exists r, c. unfold granted. rewrite Hle, HT3, HT. by split_and!.
Qed.

Lemma GrantModelAccess_wp user mt ut e access w :
  db_ok (w_db w) -> subject ut = Ok e -> Kind mt = ModelTagKind ->
  wp (GrantModelAccess user mt ut access)
     (grant_post model_levels (ToModelRelation access) user (ConvertTag mt) e (w_tuples w)) w.
Proof.
  intros Hdb He Hk. destruct (subject_kind _ _ He) as [Hek Her]. unfold GrantModelAccess, HasModelRelation.
  apply guarded_wp; [done|apply ToModelRelation_answered|intros; by apply grant_fail|].
  intros r i w1 Hr Hadm Hi HT1 Hd1. pose proof (ToModelRelation_level _ _ Hr) as Hlv.
  apply (current_wp model_levels i ut e mt); [done|done|by apply (bool_decide_unpack _)| |].
  { intros o w2 Ha Hne HT2 Hd2. apply grant_fail; [done|done|congruence|by rewrite Hd2]. }
  intros c w2 HT2 Hd2 Hrep. rewrite HT1 in Hrep, HT2. cbn zeta.
  rewrite grant_model_switch by (done || by eapply reported_cases).
  apply (grant_tail _ _ _ _ _ _ i ut); try done; [by rewrite Hd2|by apply reported_model|].
  case_levels Hlv; (eapply (holds_granted _ _ _ (ConvertTag mt)); [done|done|simpl; by rewrite Hk|done|set_solver]).
Qed.

Lemma GrantCloudAccess_wp user ct ut e access w :
  db_ok (w_db w) -> subject ut = Ok e -> Kind ct = CloudTagKind ->
  wp (GrantCloudAccess user ct ut access)
     (grant_post cloud_levels (ToCloudRelation access) user (ConvertTag ct) e (w_tuples w)) w.
Proof.
  intros Hdb He Hk. destruct (subject_kind _ _ He) as [Hek Her]. unfold GrantCloudAccess, IsAdministrator.
  apply guarded_wp; [done|apply ToCloudRelation_answered|intros; by apply grant_fail|].
  intros r i w1 Hr Hadm Hi HT1 Hd1. pose proof (ToCloudRelation_level _ _ Hr) as Hlv.
  apply (current_wp cloud_levels i ut e ct); [done|done|by apply (bool_decide_unpack _)| |].
  { intros o w2 Ha Hne HT2 Hd2. apply grant_fail; [done|done|congruence|by rewrite Hd2]. }
  intros c w2 HT2 Hd2 Hrep. rewrite HT1 in Hrep, HT2. cbn zeta.
  rewrite grant_cloud_switch by (done || by eapply reported_cases).
  apply (grant_tail _ _ _ _ _ _ i ut); try done; [by rewrite Hd2|by apply reported_cloud|].
  case_levels Hlv; (eapply (holds_granted _ _ _ (ConvertTag ct)); [done|done|simpl; by rewrite Hk|done|set_solver]).
Qed.

(** Setting the level below, when there is one. *)
Definition with_below (e g : Entity) (below : string) (X : gset Tuple) : gset Tuple :=
  if decide (below = NoRelation) then X else X ∪ {[edge e below g]}.

Lemma downgrade_wp f i ut e g below w :
  i_Name i = Id ut -> subject ut = Ok e ->
  wp (if decide (below <> NoRelation) then map_err f (fga (setAccess (NewUser i) g below)) else mret tt)
     (fun o w' => set_post (with_below e (ConvertTag g) below (w_tuples w)) (w_tuples w) o w' /\
                  w_db w' = w_db w) w.
Proof.
  intros Hi He. unfold with_below. destruct (decide (below = NoRelation)) as [Hb|Hb].
  - rewrite decide_False by tauto. wp_value. by split.
  - rewrite decide_True by done. by apply (set_wp _ i ut e).
Qed.

Lemma with_below_size e g below X : (size (with_below e g below X) <= S (size X))%nat.
Proof.
  unfold with_below. case_decide; [lia|].
  rewrite size_union_alt. etrans; [apply Nat.add_le_mono_l, (subseteq_size _ {[edge e below g]}); set_solver|].
  rewrite size_singleton. lia.
Qed.

(** The end of a revocation, once the relations to revoke are known. *)
Lemma revoke_tail levels below rel user g e f f' fuel i ut r c rs X w :
  rel = Ok r -> has_access X user AdministratorRelation (ConvertTag g) ->
  reported X e (ConvertTag g) levels c -> w_tuples w = X -> db_ok (w_db w) ->
  i_Name i = Id ut -> subject ut = Ok e -> (S (size X) < fuel)%nat ->
  (rank levels c <? rank levels r)%nat = false ->
  list_to_set ((fun l => edge e l (ConvertTag g)) <$> rs) =@{gset Tuple}
    list_to_set ((fun l => edge e l (ConvertTag g)) <$>
                 filter (fun l => (rank levels r <= rank levels l)%nat) levels) ->
  wp (_ ← (if decide (below r <> NoRelation) then map_err f (fga (setAccess (NewUser i) g (below r)))
           else mret tt);
      map_err f' (fga (unsetMultipleResourceAccesses fuel (NewUser i) g rs 0)))
     (revoke_post levels below rel user (ConvertTag g) e X) w.
Proof.
  intros Hr Hadm Hrep HT Hd Hi He Hf Hlt Hset. apply wp_bind.
  eapply wp_mono; [by apply (downgrade_wp _ i ut e)|]. rewrite HT. intros o w3 [[Ha HT3] Hd3].
  destruct o as [[]|err|p|]; simpl; [|by apply revoke_fail; rewrite ?Hd3..].
  eapply wp_mono.
  { apply (unset_wp _ _ i ut e); [done|done|]. rewrite HT3.
    eapply Nat.le_lt_trans; [apply with_below_size|done]. }
  intros o w4 [[Ha4 HT4] Hd4]. split_and!; [done|by rewrite Hd4, Hd3|].
  assert (o <> Ok tt -> w_tuples w4 = with_below e (ConvertTag g) (below r) X) as Hno
    by (destruct o as [[]| | |]; [done|by rewrite HT4, HT3..]).
  destruct o as [[]|err|p|].
  1: { split; [done|]. exists r, c. unfold revoked. rewrite Hlt, HT4, HT3, Hset. by split_and!. }
  all: rewrite Hno by done; unfold with_below; case_decide; [by left|right]; exists r; by split_and!.
Qed.

Lemma RevokeModelAccess_wp fuel user mt ut e access w :
  db_ok (w_db w) -> subject ut = Ok e -> (S (size (w_tuples w)) < fuel)%nat ->
  wp (RevokeModelAccess fuel user mt ut access)
     (revoke_post model_levels level_below (ToModelRelation access) user (ConvertTag mt) e (w_tuples w)) w.
Proof.
  intros Hdb He Hf. unfold RevokeModelAccess, HasModelRelation.
  apply guarded_wp; [done|apply ToModelRelation_answered|intros; by apply revoke_fail|].
  intros r i w1 Hr Hadm Hi HT1 Hd1. pose proof (ToModelRelation_level _ _ Hr) as Hlv.
  apply (current_wp model_levels i ut e mt); [done|done|by apply (bool_decide_unpack _)| |].
  { intros o w2 Ha Hne HT2 Hd2. apply revoke_fail; [done|done|congruence|by rewrite Hd2]. }
  intros c w2 HT2 Hd2 Hrep. rewrite HT1 in Hrep, HT2.
  rewrite revoke_model_switch by (done || by eapply reported_cases).
  destruct (_ <? _)%nat eqn:Hlt.
  { wp_value. split_and!; [done|by rewrite Hd2|done|]. exists r, c. unfold revoked. by rewrite Hlt. }
  apply (revoke_tail _ level_below _ _ _ _ _ _ _ i ut r c); try done; [by rewrite Hd2|].
  by apply model_revoked_set.
Qed.

Lemma RevokeCloudAccess_wp fuel user ct ut e access w :
  db_ok (w_db w) -> subject ut = Ok e -> (S (size (w_tuples w)) < fuel)%nat ->
  wp (RevokeCloudAccess fuel user ct ut access)
     (revoke_post cloud_levels (fun _ => NoRelation) (ToCloudRelation access) user (ConvertTag ct) e (w_tuples w)) w.
Proof.
  intros Hdb He Hf. unfold RevokeCloudAccess, IsAdministrator.
  apply guarded_wp; [done|apply ToCloudRelation_answered|intros; by apply revoke_fail|].
  intros r i w1 Hr Hadm Hi HT1 Hd1. pose proof (ToCloudRelation_level _ _ Hr) as Hlv.
  apply (current_wp cloud_levels i ut e ct); [done|done|by apply (bool_decide_unpack _)| |].
  { intros o w2 Ha Hne HT2 Hd2. apply revoke_fail; [done|done|congruence|by rewrite Hd2]. }
  intros c w2 HT2 Hd2 Hrep. rewrite HT1 in Hrep, HT2. cbn zeta.
  rewrite (revoke_cloud_switch r c (fun rs =>
    map_err (fun err => Errorf "failed to unset cloud access: %w" [ArgE err])
      (fga (UnsetCloudAccess fuel (NewUser i) ct rs)))) by (done || by eapply reported_cases).
  destruct (_ <? _)%nat eqn:Hlt.
  { wp_value. split_and!; [done|by rewrite Hd2|done|]. exists r, c. unfold revoked. by rewrite Hlt. }
  apply (revoke_tail cloud_levels (fun _ => NoRelation) _ user ct e (fun e => e) _ fuel i ut r c); try done;
    [by rewrite Hd2|]. by apply cloud_revoked_set.
Qed.

End grant_properties.

(** ** Application offers *)

Definition offer_levels : list string := [AdministratorRelation; ConsumerRelation; ReaderRelation].
Definition offer_accesses : list string := [OfferAdminAccess; OfferConsumeAccess; OfferReadAccess].

Section offers.

Lemma grant_offer_switch {W} r c access (set : string -> M W unit) :
  access ∈ offer_accesses -> ToOfferRelation access = Ok r -> c = NoRelation \/ c ∈ offer_levels ->
  (if decide (determineAccessLevelAfterGrant (ToOfferAccessString c) access <> ToOfferAccessString c)
   then relation ← lift (ToOfferRelation (determineAccessLevelAfterGrant (ToOfferAccessString c) access));
        set relation
   else mret tt)
  = if (rank offer_levels r <=? rank offer_levels c)%nat then mret tt else set r.
Proof.
  unfold offer_accesses, offer_levels. intros Ha Hr Hc.
  repeat (apply elem_of_cons in Ha as [->|Ha]); [..|by apply elem_of_nil in Ha];
    apply (inj Ok) in Hr as <-;
    (destruct Hc as [->|Hc]; [|repeat (apply elem_of_cons in Hc as [->|Hc]); [..|by apply elem_of_nil in Hc]]);
    reflexivity.
Qed.

Lemma reported_offer `{JujuNames} X e g c r :
  EKind g = ApplicationOfferTagKind -> r ∈ offer_levels -> reported X e g offer_levels c ->
  (rank offer_levels r <= rank offer_levels c)%nat -> holds X e r g.
Proof.
  intros Hk Hr Hc Hle. destruct (offer_access_ordered X e g Hk) as [Hac Hcr].
  unfold offer_levels in Hr. destruct Hc as [->|(Hc & Hh & _)].
  - repeat (apply elem_of_cons in Hr as [->|Hr]); [..|by apply elem_of_nil in Hr]; vm_compute in Hle; lia.
  - unfold offer_levels in Hc.
    repeat (apply elem_of_cons in Hr as [->|Hr]); [..|by apply elem_of_nil in Hr];
    repeat (apply elem_of_cons in Hc as [->|Hc]);
      try (by apply elem_of_nil in Hc); vm_compute in Hle; try lia; auto.
Qed.

Lemma ToOfferRelation_level access r :
  access ∈ offer_accesses -> ToOfferRelation access = Ok r -> r ∈ offer_levels.
Proof.
  unfold offer_accesses. intros Ha Hr.
  repeat (apply elem_of_cons in Ha as [->|Ha]); [..|by apply elem_of_nil in Ha];
    apply (inj Ok) in Hr as <-; unfold offer_levels; set_solver.
Qed.

Lemma ToOfferRelation_answered access : answered (ToOfferRelation access).
Proof. unfold ToOfferRelation. by repeat case_decide. Qed.

Context {F : Type} `{OFGALaws F} {T : Type -> Type} `{GormLaws T} `{JujuNames} `{Hash}.
Implicit Types (w : World F T) (user : User).

Lemma GetApplicationOffer_wp url d :
  wp (GetApplicationOffer (offerOf url "")) (fun o d' => answered o /\ tables d' = tables d /\
    forall a, o = Ok a -> a ∈ rows (db_offers d) /\ ao_URL a = url) d.
Proof.
  unfold GetApplicationOffer. apply wp_ready; [|by intros e _]. intros _ _.
  rewrite decide_False by (simpl; tauto). simpl. apply wp_bind.
  destruct (decide (url <> "")); wp_value; [|done].
  apply wp_map_err, wp_zoom. eapply wp_mono; [apply law_first|]. intros o t' (Ht & Ha & Ho).
  unfold tables. simpl. rewrite Ht. split_and!; [by destruct o|done|].
  intros a Hoa. destruct o; simplify_eq. destruct Ho as [Hin Hp].
  apply bool_decide_eq_true in Hp. done.
Qed.

(** The guards that the two offer functions share. *)
Lemma offer_guard_wp user url ut i (k : User -> Tag -> M (World F T) unit) w Q :
  NewIdentity (Id ut) = Ok i ->
  (forall o w', answered o -> o <> Ok tt -> w_tuples w' = w_tuples w -> tables (w_db w') = tables (w_db w) -> Q o w') ->
  (forall a g w', a ∈ rows (db_offers (w_db w)) -> ao_URL a = url -> Offer_ResourceTag a = Ok g ->
     has_access (w_tuples w) user AdministratorRelation (ConvertTag g) ->
     w_tuples w' = w_tuples w -> tables (w_db w') = tables (w_db w) -> wp (k (NewUser i) g) Q w') ->
  wp (identity ← lift (NewIdentity (Id ut));
      offer ← db (GetApplicationOffer (offerOf url ""));
      offerTag ← lift (Offer_ResourceTag offer);
      allowed ← fga (IsAdministrator user offerTag);
      _ ← require allowed;
      k (NewUser identity) offerTag) Q w.
Proof.
  intros -> Hfail Hk. apply wp_bind. wp_value. apply wp_bind, wp_db.
  eapply wp_mono; [apply GetApplicationOffer_wp|]. intros o d (Ha & Ht & Ho).
  destruct o as [a|e|s|]; simpl; try (by apply Hfail). destruct (Ho a eq_refl) as [Hin Hurl].
  apply wp_bind. wp_value. pose proof (NewJujuTag_answered ApplicationOfferTagKind (ao_UUID a)) as Hat.
  unfold Offer_ResourceTag, NewApplicationOfferTag in *.
  destruct (NewJujuTag ApplicationOfferTagKind (ao_UUID a)) as [g|e|s|] eqn:Hg; simpl; try (by apply Hfail).
  apply wp_bind. eapply wp_fga_read.
  { eapply wp_mono; [apply checkRelation_wp|]. intros o f (HT & Ha' & Hb). split_and!; [exact HT|done|exact Hb]. }
  intros o w1 HT1 Hd1 Ha1 Hb. simpl in Hd1, HT1, Hb.
  destruct o as [[]|e|s|]; simpl; try (apply Hfail; by rewrite ?Hd1).
  apply wp_bind. wp_value. apply (Hk a g); try done; [|by rewrite Hd1]. by apply (Hb true).
Qed.

End offers.

(** ** Properties *)

Section properties.
Context {F : Type} `{OFGALaws F} {T : Type -> Type} `{GormLaws T} `{JujuNames} `{Hash}.
Implicit Types (w : World F T) (user : User).

(** C8.  [GrantModelAccess] implements the abstract grant: it ends; a success
    means that the caller administers the model, adds at most the one tuple
    (none when the level reported for the target is as high), removes nothing,
    and leaves the target user with the granted relation in the authorisation
    model; a failure, in particular an unauthorized caller or an unknown access
    string, changes no tuple. *)
Theorem GrantModelAccess_refines user mt ut e access w w' o :
  db_ok (w_db w) -> subject ut = Ok e -> Kind mt = ModelTagKind ->
  GrantModelAccess user mt ut access w = (w', o) ->
  grant_post model_levels (ToModelRelation access) user (ConvertTag mt) e (w_tuples w) o w'.
Proof. intros Hdb He Hk Hrun. exact (wp_elim _ _ _ _ _ (GrantModelAccess_wp _ _ _ _ _ _ Hdb He Hk) Hrun). Qed.


(** [GrantCloudAccess] implements the abstract grant on clouds. *)
Theorem GrantCloudAccess_refines user ct ut e access w w' o :
  db_ok (w_db w) -> subject ut = Ok e -> Kind ct = CloudTagKind ->
  GrantCloudAccess user ct ut access w = (w', o) ->
  grant_post cloud_levels (ToCloudRelation access) user (ConvertTag ct) e (w_tuples w) o w'.
Proof. intros Hdb He Hk Hrun. exact (wp_elim _ _ _ _ _ (GrantCloudAccess_wp _ _ _ _ _ _ Hdb He Hk) Hrun). Qed.

(** [RevokeCloudAccess] implements the abstract revocation on clouds,
    which leaves no level below: revoking add-model also removes
    administrator. *)
Theorem RevokeCloudAccess_refines fuel user ct ut e access w w' o :
  db_ok (w_db w) -> subject ut = Ok e -> (S (size (w_tuples w)) < fuel)%nat ->
  RevokeCloudAccess fuel user ct ut access w = (w', o) ->
  revoke_post cloud_levels (fun _ => NoRelation) (ToCloudRelation access) user (ConvertTag ct) e (w_tuples w) o w'.
Proof. intros Hdb He Hf Hrun. exact (wp_elim _ _ _ _ _ (RevokeCloudAccess_wp _ _ _ _ _ _ _ Hdb He Hf) Hrun). Qed.

(** A failing authorisation service is not reported by a revocation:
    when the check of the target's access fails, [RevokeModelAccess] returns
    success and has removed nothing. *)
Theorem RevokeModelAccess_masks_failure fuel user mt ut access r w f1 d i f2 err :
  ToModelRelation access = Ok r ->
  checkRelation user mt AdministratorRelation (w_fga w) = (f1, Ok true) ->
  GetIdentity (Identity_SetTag zeroIdentity ut) (w_db w) = (d, Ok i) ->
  checkRelation (NewUser i) mt AdministratorRelation f1 = (f2, Err err) ->
  RevokeModelAccess fuel user mt ut access w = (MkWorld f2 d, Ok tt) /\
  srv_tuples f2 = w_tuples w.
Proof.
  intros Hr Hc Hi Ht. split.
  - unfold RevokeModelAccess, HasModelRelation, getTargetUser, GetModelAccess, IsAdministrator, fga, db, zoom,
      access_step, mbind, M_bind, map_err, lift, mret, M_ret, try.
    rewrite Hr, Hc. simpl. rewrite Hi. simpl. rewrite Ht. simpl.
    rewrite revoke_model_switch by (auto; by eapply ToModelRelation_level).
    pose proof (ToModelRelation_level _ _ Hr) as Hl. by case_levels Hl.
  - destruct (wp_elim _ _ _ _ _ (checkRelation_wp user mt AdministratorRelation (w_fga w)) Hc) as (HT1 & _).
    destruct (wp_elim _ _ _ _ _ (checkRelation_wp (NewUser i) mt AdministratorRelation f1) Ht) as (HT2 & _).
    unfold w_tuples. congruence.
Qed.

(** [GrantOfferAccess] implements the abstract grant on the offer that
    has the URL: a success means that the caller administers the offer and
    leaves the target with the granted relation, adding at most one tuple; a
    failure changes nothing. *)
Theorem GrantOfferAccess_refines user url ut i e access r w w' o :
  NewIdentity (Id ut) = Ok i -> user_entity (NewUser i) = Ok e ->
  access ∈ offer_accesses -> ToOfferRelation access = Ok r ->
  GrantOfferAccess user url ut access w = (w', o) ->
  o <> OutOfFuel /\ tables (w_db w') = tables (w_db w) /\
  match o with
  | Ok _ => exists a g c, a ∈ rows (db_offers (w_db w)) /\ ao_URL a = url /\ Offer_ResourceTag a = Ok g /\
      has_access (w_tuples w) user AdministratorRelation (ConvertTag g) /\
      reported (w_tuples w) e (ConvertTag g) offer_levels c /\
      w_tuples w' = granted offer_levels e (ConvertTag g) r c (w_tuples w) /\
      holds (w_tuples w') e r (ConvertTag g)
  | _ => w_tuples w' = w_tuples w
  end.
Proof.
  intros Hn He Hacc Hr. set (ut' := MkTag UserTagKind (i_Name i)).
  assert (subject ut' = Ok e) as Hs by (by rewrite <- (NewUser_entity i ut')).
  pose proof (ToOfferRelation_level _ _ Hacc Hr) as Hlv. destruct (subject_kind _ _ Hs) as [Hek Her].
  revert w' o. apply wp_run. unfold GrantOfferAccess. cbn zeta.
  apply (offer_guard_wp user url ut i (fun targetUser offerTag =>
    currentRelation ← fga (GetApplicationOfferAccess targetUser offerTag);
    if decide (determineAccessLevelAfterGrant (ToOfferAccessString currentRelation) access
               <> ToOfferAccessString currentRelation) then
      relation ← lift (ToOfferRelation
        (determineAccessLevelAfterGrant (ToOfferAccessString currentRelation) access));
      fga (SetApplicationOfferAccess targetUser offerTag relation)
    else mret tt)); [done| |].
  { intros o' w1 Ha Hne HT Hd. split_and!; try done. by destruct o' as [[]| | |]. }
  intros a g w1 Hin Hurl Hg Hadm HT1 Hd1.
  assert (Kind g = ApplicationOfferTagKind) as Hk.
  { unfold Offer_ResourceTag, NewApplicationOfferTag, NewJujuTag in Hg.
    destruct (ValidTagId _ _); [|done]. by apply (inj Ok) in Hg as <-. }
  apply (current_wp offer_levels i ut' e g); [done|done|by apply (bool_decide_unpack _)| |].
  { intros o' w2 Ha Hne HT2 Hd2. split_and!; [done|by rewrite Hd2|]. rewrite <- HT1, <- HT2.
    by destruct o' as [[]| | |]. }
  intros c w2 HT2 Hd2 Hrep. rewrite HT1 in Hrep, HT2.
  rewrite (grant_offer_switch r c access (fun relation => fga (SetApplicationOfferAccess (NewUser i) g relation)))
    by (done || by eapply reported_cases).
  assert (forall X, edge e r (ConvertTag g) ∈ X -> holds X e r (ConvertTag g)) as Hgr.
  { intros X HX. unfold offer_levels in Hlv.
    repeat (apply elem_of_cons in Hlv as [->|Hlv]); [..|by apply elem_of_nil in Hlv];
    (eapply (holds_granted _ _ _ (ConvertTag g)); [done|done|simpl; by rewrite Hk|done|done]). }
  destruct (_ <=? _)%nat eqn:Hle.
  - wp_value. split_and!; [done|by rewrite Hd2|]. exists a, g, c. unfold granted. rewrite Hle, HT2.
    split_and!; try done. eapply reported_offer; try done. by apply Nat.leb_le.
  - apply wp_fga. eapply wp_mono; [apply (setAccess_wp (NewUser i) e); done|].
    intros o' f' [Ha Hs']. split_and!; [done|simpl; by rewrite Hd2|].
    change (srv_tuples (w_fga w2)) with (w_tuples w2) in Hs'. rewrite HT2 in Hs'. destruct o' as [[]| | |]; try done.
    exists a, g, c. unfold granted. rewrite Hle. split_and!; try done.
    apply Hgr. unfold w_tuples. simpl. rewrite Hs'. set_solver.
Qed.

Lemma stillHasAccess_rank r c :
  r ∈ offer_levels -> c = NoRelation \/ c ∈ offer_levels -> stillHasAccess r c = false ->
  (rank offer_levels c < rank offer_levels r)%nat.
Proof.
  unfold offer_levels. intros Hr Hc.
  repeat (apply elem_of_cons in Hr as [->|Hr]); [..|by apply elem_of_nil in Hr];
    (destruct Hc as [->|Hc]; [|repeat (apply elem_of_cons in Hc as [->|Hc]); [..|by apply elem_of_nil in Hc]]);
    vm_compute; intros; (done || lia).
Qed.

(** [RevokeOfferAccess] removes exactly the target's direct tuple; it
    reports success only when the caller administers the offer and the access
    reported for the target afterwards is below the revoked one, and never
    touches another tuple. *)
Theorem RevokeOfferAccess_sound user url ut i e access r w w' o :
  NewIdentity (Id ut) = Ok i -> user_entity (NewUser i) = Ok e ->
  access ∈ offer_accesses -> ToOfferRelation access = Ok r ->
  RevokeOfferAccess user url ut access w = (w', o) ->
  o <> OutOfFuel /\ tables (w_db w') = tables (w_db w) /\
  ((o <> Ok tt /\ w_tuples w' = w_tuples w) \/
   exists a g, a ∈ rows (db_offers (w_db w)) /\ ao_URL a = url /\ Offer_ResourceTag a = Ok g /\
     has_access (w_tuples w) user AdministratorRelation (ConvertTag g) /\
     w_tuples w' = w_tuples w ∖ {[edge e r (ConvertTag g)]} /\
     (o = Ok tt -> exists c, reported (w_tuples w') e (ConvertTag g) offer_levels c /\
        (rank offer_levels c < rank offer_levels r)%nat)).
Proof.
  intros Hn He Hacc Hr. set (ut' := MkTag UserTagKind (i_Name i)).
  assert (subject ut' = Ok e) as Hs by (by rewrite <- (NewUser_entity i ut')).
  pose proof (ToOfferRelation_level _ _ Hacc Hr) as Hlv.
  revert w' o. apply wp_run. unfold RevokeOfferAccess. cbn zeta.
  apply (offer_guard_wp user url ut i (fun targetUser offerTag =>
    targetRelation ← lift (ToOfferRelation access);
    _ ← map_err (fun err => Errorf "failed to unset given access: %w" [ArgE err])
          (fga (UnsetApplicationOfferAccess targetUser offerTag targetRelation));
    currentRelation ← fga (GetApplicationOfferAccess targetUser offerTag);
    match stillHasAccess targetRelation currentRelation with
    | true => throw (New "unable to completely revoke given access due to other relations; try to remove them as well")
    | false => mret tt
    end)); [done| |].
  { intros o' w1 Ha Hne HT Hd. split_and!; try done. by left. }
  intros a g w1 Hin Hurl Hg Hadm HT1 Hd1. rewrite Hr. apply wp_bind. wp_value.
  apply wp_bind, wp_map_err, wp_fga. eapply wp_mono; [apply (unsetAccess_wp (NewUser i) e); done|].
  intros o' f' [Ha Hs']. change (srv_tuples (w_fga w1)) with (w_tuples w1) in Hs'. rewrite HT1 in Hs'.
  destruct o' as [[]|err|p|]; simpl; [|split_and!; [done|done|by left]..].
  apply (current_wp offer_levels i ut' e g); [done|done|by apply (bool_decide_unpack _)| |].
  { intros o' w3 Ha3 Hne HT3 Hd3. split_and!; [done|by rewrite Hd3|].
    right. exists a, g. split_and!; try done. by rewrite HT3. }
  intros c w3 HT3 Hd3 Hrep. destruct (stillHasAccess r c) eqn:Hst; wp_value;
    (split_and!; [done|by rewrite Hd3|right; exists a, g]).
  - split_and!; try done. by rewrite HT3.
  - split_and!; try done; [by rewrite HT3|]. intros _. exists c. rewrite HT3.
    split; [done|]. apply stillHasAccess_rank; [done|by eapply reported_cases|done].
Qed.

(** The guard of the audit log functions. *)
Lemma audit_guard_wp j user ut (k : User -> M (World F T) unit) w Q :
  db_ok (w_db w) ->
  (forall o w', answered o -> o <> Ok tt -> w_tuples w' = w_tuples w -> db_ok (w_db w') -> Q o w') ->
  (forall i w', has_access (w_tuples w) user AdministratorRelation (ConvertTag (jimmTag j)) ->
     i_Name i = Id ut -> w_tuples w' = w_tuples w -> db_ok (w_db w') -> wp (k (NewUser i)) Q w') ->
  wp (access ← fga (GetControllerAccess user (jimmTag j));
      if decide (access <> AdministratorRelation) then throw Unauthorized
      else targetUser ← getTargetUser ut; k targetUser) Q w.
Proof.
  intros Hdb Hfail Hk. apply wp_bind. eapply wp_fga_read.
  { eapply wp_mono; [apply (access_ladder_wp user (jimmTag j) [AdministratorRelation])|].
    intros o f (HT & Ha & Hr). split_and!; [exact HT|done|exact Hr]. }
  intros o w1 HT1 Hd1 Ha1 Hr. destruct o as [c|e|s|]; simpl; try (apply Hfail; by rewrite ?Hd1).
  destruct (decide (c <> AdministratorRelation)) as [Hc|Hc]; [apply wp_throw, Hfail; by rewrite ?Hd1|].
  apply dec_stable in Hc. subst c. apply wp_bind.
  eapply wp_mono; [apply getTargetUser_wp; by rewrite Hd1|]. intros o w2 (Ha2 & HT2 & Hd2 & Hu).
  destruct o as [u|e|s|]; simpl; try (apply Hfail; congruence || done).
  destruct (Hu u eq_refl) as (i & -> & Hi). apply Hk; try done; [|congruence].
  destruct (Hr _ eq_refl) as [?|(pre & post & Hlv & Hacc & _)]; [done|exact Hacc].
Qed.

(** Only a JIMM administrator grants or revokes audit log access: a
    successful call was made by an administrator of the JIMM controller and
    adds, or removes, exactly the target's tuple; any other call changes no
    tuple. *)
Theorem AuditLogAccess_admin_only (revoke : bool) j user ut e w w' o :
  db_ok (w_db w) -> subject ut = Ok e ->
  (if revoke then RevokeAuditLogAccess j user ut else GrantAuditLogAccess j user ut) w = (w', o) ->
  let t := edge e AuditLogViewerRelation (ConvertTag (jimmTag j)) in
  o <> OutOfFuel /\ db_ok (w_db w') /\
  match o with
  | Ok _ => has_access (w_tuples w) user AdministratorRelation (ConvertTag (jimmTag j)) /\
            w_tuples w' = if revoke then w_tuples w ∖ {[t]} else w_tuples w ∪ {[t]}
  | _ => w_tuples w' = w_tuples w
  end.
Proof.
  intros Hdb He. revert w' o. destruct revoke; apply wp_run; apply audit_guard_wp; try done;
    try (intros o w1 Ha Hne HT Hd; split_and!; try done; by destruct o as [[]| | |]);
    intros i w1 Hadm Hi HT1 Hd1; apply wp_fga; eapply wp_mono.
  - apply (unsetAccess_wp (NewUser i) e). by rewrite (NewUser_entity i ut).
  - intros o f [Ha Hs]. change (srv_tuples (w_fga w1)) with (w_tuples w1) in Hs. rewrite HT1 in Hs.
    split_and!; try done. by destruct o.
  - apply (setAccess_wp (NewUser i) e). by rewrite (NewUser_entity i ut).
  - intros o f [Ha Hs]. change (srv_tuples (w_fga w1)) with (w_tuples w1) in Hs. rewrite HT1 in Hs.
    split_and!; try done. by destruct o.
Qed.

(** Access strings and relations convert into each other without loss:
    printing a relation of a resource kind and parsing the string gives the
    relation, and every accepted string is the print of its relation. *)
Theorem access_strings_roundtrip :
  (forall r, r ∈ model_levels -> ToModelRelation (ToModelAccessString r) = Ok r) /\
  (forall r, r ∈ cloud_levels -> ToCloudRelation (ToCloudAccessString r) = Ok r) /\
  (forall r, r ∈ offer_levels -> ToOfferRelation (ToOfferAccessString r) = Ok r) /\
  (forall a r, ToModelRelation a = Ok r -> ToModelAccessString r = a) /\
  (forall a r, ToCloudRelation a = Ok r -> ToCloudAccessString r = a) /\
  (forall a r, ToOfferRelation a = Ok r -> ToOfferAccessString r = a) /\
  (forall a r, ToControllerRelation a = Ok r -> ToControllerAccessString r = a).
Proof.
  split_and!.
  1-3: apply Forall_forall; repeat constructor.
  - unfold ToModelRelation. intros a r Hr. repeat case_decide; simplify_eq; done.
  - unfold ToCloudRelation. intros a r Hr. repeat case_decide; simplify_eq; done.
  - unfold ToOfferRelation. intros a r Hr. repeat case_decide; simplify_eq; done.
  - unfold ToControllerRelation. intros a r Hr. repeat case_decide; simplify_eq; done.
Qed.

(** The offer access after a grant is the higher of the current and the
    granted level, for every pair of levels (no access included). *)
Theorem determineAccessLevelAfterGrant_max cur g :
  cur ∈ "" :: offer_accesses -> g ∈ "" :: offer_accesses ->
  determineAccessLevelAfterGrant cur g =
  if (rank offer_accesses cur <? rank offer_accesses g)%nat then g else cur.
Proof.
  intros Hc Hg. unfold offer_accesses in Hc, Hg.
  repeat (apply elem_of_cons in Hc as [->|Hc]); try (by apply elem_of_nil in Hc);
    repeat (apply elem_of_cons in Hg as [->|Hg]); try (by apply elem_of_nil in Hg); reflexivity.
Qed.

(** The checks that the first loop collects. *)
Definition check_of (cached : gmap string string) (desired : list (string * goany)) (c : permissionCheck) : Prop :=
  (pc_key c, AnyString (pc_value c)) ∈ desired /\ cached !! pc_key c = None /\
  juju_ParseTag (pc_key c) = Ok (pc_tag c) /\ ConvertJujuRelation (pc_value c) = Ok (pc_relation c).

Lemma collectChecks_sound (cachedPerms : gmap string string) desired checks :
  collectChecks cachedPerms desired = inl checks ->
  (forall c, c ∈ checks -> check_of cachedPerms desired c) /\
  (forall k x, (k, x) ∈ desired -> is_Some (cachedPerms !! k) \/ exists c, c ∈ checks /\ pc_key c = k).
Proof.
  revert checks. induction desired as [|[key val] desired IH]; intros checks Hc.
  - simpl in Hc. simplify_eq. split; intros *; by rewrite elem_of_nil.
  - simpl in Hc. destruct (cachedPerms !! key) as [v|] eqn:Hkey.
    + destruct (IH _ Hc) as [Hs Hcov]. split.
      * intros c Hin. destruct (Hs c Hin) as (? & ?). split; [set_solver|done].
      * intros k x [[= -> ->]|Hin]%elem_of_cons; [left; by eexists|eauto].
    + destruct val as [sv| | |]; try done. destruct (juju_ParseTag key) as [tag| | |] eqn:Htag; try done.
      destruct (ConvertJujuRelation sv) as [rel| | |] eqn:Hrel; try done.
      destruct (collectChecks cachedPerms desired) as [checks'|] eqn:Hrest; [|done].
      injection Hc as <-. destruct (IH _ eq_refl) as [Hs Hcov]. split.
      * intros c [->|Hin]%elem_of_cons; [split_and!; try done; simpl; set_solver|].
        destruct (Hs c Hin) as (? & ?). split; [set_solver|done].
      * intros k x [[= -> ->]|Hin]%elem_of_cons; [right; eexists; split; [by left|done]|].
        destruct (Hcov k x Hin) as [?|(c & Hin' & <-)]; [by left|right]. exists c. split; [set_solver|done].
Qed.

(** The last loop caches what is allowed, and everything when it succeeds. *)
Lemma cacheAllowed_sound allowed batch (cachedPerms : gmap string string) :
  let res := cacheAllowed allowed batch cachedPerms in
  (forall k v, cached res !! k = Some v -> cachedPerms !! k = Some v \/
     exists c id, (c, id) ∈ batch /\ pc_key c = k /\ pc_value c = v /\ allowed !! id = Some true) /\
  (forall k v, (forall c id, (c, id) ∈ batch -> pc_key c <> k) -> cachedPerms !! k = Some v ->
     cached res !! k = Some v) /\
  (perm_err res = None -> forall c id, (c, id) ∈ batch -> is_Some (cached res !! pc_key c)) /\
  (forall k, is_Some (cachedPerms !! k) -> is_Some (cached res !! k)).
Proof.
  revert cachedPerms. induction batch as [|[c id] batch IH]; intros cachedPerms; cbn zeta.
  - simpl. split_and!; auto. intros _ c id. by rewrite elem_of_nil.
  - simpl. destruct (allowed !! id) as [[]|] eqn:Hid; simpl; [|split_and!; auto; done..].
    destruct (IH (<[pc_key c:=pc_value c]> cachedPerms)) as (I1 & I2 & I3 & I4). split_and!.
    + intros k v Hk. destruct (I1 k v Hk) as [Hins|(c' & id' & Hin & ?)].
      * apply lookup_insert_Some in Hins as [[<- <-]|[_ ?]]; [right|by left]. exists c, id. set_solver.
      * right. exists c', id'. set_solver.
    + intros k v Hno Hk. apply I2; [set_solver|]. rewrite lookup_insert_ne; [done|]. apply (Hno c id). set_solver.
    + intros Herr c' id' [[= -> ->]|Hin]%elem_of_cons; [|by eapply I3].
      apply I4. rewrite lookup_insert_eq. by eexists.
    + intros k [v Hk]. apply I4. destruct (decide (pc_key c = k)) as [->|Hne].
      * rewrite lookup_insert_eq. by eexists.
      * rewrite lookup_insert_ne by done. by eexists.
Qed.

(** The correlation ids: the decimal numbers of the positions. *)
Definition itoas (n : nat) : list string := (fun i : nat => pretty (Z.of_nat i)) <$> seq 0 n.

Lemma itoas_NoDup n : NoDup (itoas n).
Proof.
  unfold itoas. apply NoDup_fmap_2; [|apply NoDup_seq]. intros x y Hxy.
  apply (inj pretty) in Hxy. lia.
Qed.

Definition permission_batch (object : Entity) (ctx : list Tuple) (checks : list permissionCheck) (ids : list string) :=
  zip_with (fun check id =>
    MkTWC (MkTuple (Some object) (pc_relation check) (Some (ConvertGenericTag (pc_tag check)))) id ctx) checks ids.

Lemma permission_batch_ids object ctx checks :
  CorrelationId <$> permission_batch object ctx checks (itoas (length checks)) = itoas (length checks).
Proof.
  unfold permission_batch. apply fmap_zip_with_r; [done|].
  unfold itoas. rewrite length_fmap, length_seq. lia.
Qed.

(** What one run of [CheckPermission] says about the cache. *)
Definition cache_sound (X : gset Tuple) (user : User) (old : gmap string string)
    (desired : list (string * goany)) (res : PermResult) : Prop :=
  (forall k v, old !! k = Some v -> cached res !! k = Some v) /\
  (forall k v, cached res !! k = Some v -> old !! k = Some v \/
     ((k, AnyString v) ∈ desired /\ exists tag r, juju_ParseTag k = Ok tag /\
        ConvertJujuRelation v = Ok r /\ has_access X user r (ConvertGenericTag tag))) /\
  (perm_err res = None -> forall k x, (k, x) ∈ desired -> is_Some (cached res !! k)).

Lemma cache_sound_same X user old desired ret err :
  cache_sound X user old desired (MkPermResult old ret (Some err)).
Proof. split_and!; by auto. Qed.

Lemma CheckPermission_wp user old desired w :
  wp (CheckPermission user old desired) (fun o w' => w_tuples w' = w_tuples w /\ answered o /\
    forall res, o = Ok res -> cache_sound (w_tuples w) user old desired res) w.
Proof.
  assert (forall ret err w1 o, w_tuples w1 = w_tuples w -> o = Ok (MkPermResult old ret (Some err)) ->
    w_tuples w1 = w_tuples w /\ answered o /\
    forall res, o = Ok res -> cache_sound (w_tuples w) user old desired res) as Hfail.
  { intros ret err w1 o HT ->. split_and!; [done|done|]. intros res' Hr. apply (inj Ok) in Hr as <-.
    apply cache_sound_same. }
  unfold CheckPermission. destruct (collectChecks old desired) as [checks|[[] err]] eqn:Hcol;
    [|wp_value; by eapply Hfail..].
  destruct (collectChecks_sound _ _ _ Hcol) as [Hchk Hcov]. destruct checks as [|c0 checks'] eqn:Hcs.
  { wp_value. split_and!; [done|done|]. intros res' Hr. apply (inj Ok) in Hr as <-. split_and!; auto. simpl.
    intros _ k x Hk. destruct (Hcov k x Hk) as [?|(c & Hin & _)]; [done|by apply elem_of_nil in Hin]. }
  rewrite <- Hcs in *. clear c0 checks' Hcs.
  pose proof (ContextualTuples_answered user) as Hca.
  destruct (ContextualTuples user) as [ctx|err|p|] eqn:Hctx; [|wp_value; by eapply Hfail|by wp_value|done].
  apply wp_bind. wp_value. destruct (user_entity_cases user) as [[e He]|[p He]]; rewrite He; simpl; [|done].
  fold (itoas (length checks)). fold (permission_batch e ctx checks (itoas (length checks))).
  set (batch := permission_batch _ _ _ _). apply wp_bind, wp_try, wp_fga.
  eapply wp_mono; [apply BatchCheckRelations_wp; unfold batch; rewrite permission_batch_ids; apply itoas_NoDup|].
  intros o f (HT & Ha & Hm). destruct o as [m|err|p|]; simpl; [|wp_value; by eapply Hfail|done..].
  wp_value. split_and!; [exact HT|done|]. intros res' Hr. apply (inj Ok) in Hr as <-.
  destruct (Hm m eq_refl) as [_ Hans].
  destruct (cacheAllowed_sound m (zip checks (itoas (length checks))) old) as (C1 & C2 & C3 & C4).
  assert (forall c id, (c, id) ∈ zip checks (itoas (length checks)) -> check_of old desired c /\
     (m !! id = Some true -> has_access (w_tuples w) user (pc_relation c) (ConvertGenericTag (pc_tag c)))) as Hb.
  { intros c id Hin. split; [apply Hchk; by eapply elem_of_zip_l|]. intros Htrue.
    apply elem_of_lookup_zip_with in Hin as (n & c' & id' & [= <- <-] & Hc & Hid).
    assert (MkTWC (MkTuple (Some e) (pc_relation c) (Some (ConvertGenericTag (pc_tag c)))) id ctx ∈ batch) as Hin.
    { apply elem_of_lookup_zip_with. by exists n, c, id. }
    destruct (Hans _ Hin) as (b & Hb & (o & g & Ho & Hg & Hiff)). simpl in *. simplify_eq.
    apply (has_access_iff _ _ o ctx); [done|done|]. by apply Hiff. }
  split_and!.
  - intros k v Hk. apply C2; [|done]. intros c id Hin <-. destruct (Hb c id Hin) as [(_ & Hnone & _) _]. congruence.
  - intros k v Hk. destruct (C1 k v Hk) as [?|(c & id & Hin & <- & <- & Hid)]; [by left|right].
    destruct (Hb c id Hin) as [(Hdes & _ & Htag & Hrel) Hacc]. split; [done|]. exists (pc_tag c), (pc_relation c). auto.
  - intros Herr k x Hk. destruct (Hcov k x Hk) as [?|(c & Hin & <-)]; [by apply C4|].
    apply list_elem_of_lookup in Hin as [n Hn].
    assert (is_Some (itoas (length checks) !! n)) as [id Hid].
    { apply lookup_lt_is_Some. unfold itoas. rewrite length_fmap, length_seq. by eapply lookup_lt_Some. }
    apply (C3 Herr c id). apply elem_of_lookup_zip_with. by exists n, c, id.
Qed.

(** [CheckPermission] only caches permissions that the user has: every
    entry of the cache after the call was there before or is a desired
    permission that holds in the authorisation model (session groups
    included); old entries stay; and a call without error has cached every
    desired permission.  Nothing is written to the authorisation service. *)
Theorem CheckPermission_cache_sound user old desired w w' res :
  CheckPermission user old desired w = (w', Ok res) ->
  w_tuples w' = w_tuples w /\ cache_sound (w_tuples w) user old desired res.
Proof.
  intros Hrun. destruct (wp_elim _ _ _ _ _ (CheckPermission_wp _ _ _ _) Hrun) as (HT & _ & Hres). auto.
Qed.

End properties.

(** ** Cleanup *)

(** No row of the database has the key of the entity. *)
Definition entity_missing {T : Type -> Type} `{Gorm T} (j : PermissionManager) (d : Db T) (e : Entity) : Prop :=
  (EKind e = ControllerTagKind /\ EID e <> Id (jimmTag j) /\
     Forall (fun r => c_UUID r <> EID e) (rows (db_controllers d))) \/
  (EKind e = ModelTagKind /\ Forall (fun r => m_UUID r <> Some (EID e)) (rows (db_models d))) \/
  (EKind e = ApplicationOfferTagKind /\ Forall (fun r => ao_UUID r <> EID e) (rows (db_offers d))) \/
  (EKind e = GroupTagKind /\ Forall (fun r => g_UUID r <> EID e) (rows (db_groups d))) \/
  (EKind e = RoleTagKind /\ Forall (fun r => r_UUID r <> EID e) (rows (db_roles d))) \/
  (EKind e = CloudTagKind /\ Forall (fun r => cl_Name r <> EID e) (rows (db_clouds d))).

(** A tuple with an end that is missing from the database. *)
Definition orphan {T : Type -> Type} `{Gorm T} j (d : Db T) (t : Tuple) : Prop :=
  exists e, (Object t = Some e \/ Target t = Some e) /\ entity_missing j d e.

Section cleanup.
Context {F : Type} `{OFGALaws F} {T : Type -> Type} `{GormLaws T} `{JujuNames} `{UUIDParse}.
Implicit Types (w : World F T) (d : Db T).

(** The translations of a lookup's error that keep not-found errors. *)
Definition keeps_not_found (nf : gerror -> gerror) : Prop :=
  forall e, ErrorCode e = "" -> ErrorCode (nf e) = CodeNotFound -> e = ErrRecordNotFound.

Lemma dbError_keeps : keeps_not_found dbError.
Proof.
  intros e He. unfold dbError. rewrite He.
  destruct (is_ErrRecordNotFound e) eqn:Hnf.
  - intros _. unfold is_ErrRecordNotFound in Hnf. destruct e; try done.
    apply bool_decide_eq_true in Hnf. by subst.
  - case_decide; [rewrite ErrorCode_Codef by done; by intros|].
    change (ErrorCode (Codef "" "%w" [ArgE e])) with (ErrorCode e). by rewrite He.
Qed.

Lemma notFoundError_keeps nf : keeps_not_found (notFoundError nf).
Proof.
  intros e He. unfold notFoundError. case_decide as Hc; [|done]. intros _. by apply dbError_keeps.
Qed.

(** A computation that reports not found only when [P] holds. *)
Definition missing_if {A} (P : Prop) (o : outcome A) (_ : Db T) : Prop :=
  forall e, o = Err e -> ErrorCode e = CodeNotFound -> P.

(** A lookup that reports not found has looked at every row. *)
Lemma first_missing {R} (get : Db T -> T R) put p nf (P : Prop) d :
  keeps_not_found nf -> (Forall (fun r => p r = false) (rows (get d)) -> P) ->
  wp (map_err nf (zoom get put (gorm_first p))) (missing_if P) d.
Proof.
  intros Hnf HP. apply wp_map_err, wp_zoom. eapply wp_mono; [apply law_first|].
  intros o t (Ht & _ & Ho). destruct o as [r|e|s|]; simpl; try done.
  intros e' He'. injection He' as <-. intros Hc. apply HP, Ho, Hnf; [|done]. by destruct Ho as (_ & _ & ?).
Qed.

Lemma ready_missing {A} (k : M (Db T) A) (P : Prop) d :
  wp k (missing_if P) d -> wp (ready ≫= fun _ => k) (missing_if P) d.
Proof.
  intros Hk. apply wp_ready; [done|]. intros e He e' He'. injection He' as <-.
  destruct He as [-> | ->]; by intros.
Qed.

Lemma GetGroup_missing id d :
  wp (GetGroup (MkGroup 0 0 0 "" id)) (missing_if (Forall (fun r => g_UUID r <> id) (rows (db_groups d)))) d.
Proof.
  unfold GetGroup. apply ready_missing. case_decide as Hid.
  { wp_value. intros e He. injection He as <-. by vm_compute. }
  apply first_missing; [apply dbError_keeps|]. intros Hall. eapply Forall_impl; [exact Hall|].
  intros r Hr He. unfold group_where in Hr. simpl in Hr. rewrite He, (bool_decide_eq_true_2 (id = id)) in Hr by done.
  by rewrite orb_true_r in Hr.
Qed.

Lemma GetRole_missing id d :
  wp (GetRole (MkRole 0 0 0 "" id)) (missing_if (Forall (fun r => r_UUID r <> id) (rows (db_roles d)))) d.
Proof.
  unfold GetRole. apply ready_missing. case_decide as Hid.
  { wp_value. intros e He. injection He as <-. by vm_compute. }
  apply first_missing; [apply dbError_keeps|]. intros Hall. eapply Forall_impl; [exact Hall|].
  intros r Hr He. unfold role_where in Hr. simpl in Hr. rewrite He, (bool_decide_eq_true_2 (id = id)) in Hr by done.
  by rewrite orb_true_r in Hr.
Qed.

Lemma GetController_missing id d :
  wp (GetController (controllerOf "" id)) (missing_if (Forall (fun r => c_UUID r <> id) (rows (db_controllers d)))) d.
Proof.
  unfold GetController. apply ready_missing. simpl. apply wp_bind. destruct (decide (id <> "")).
  - wp_value. apply first_missing; [apply notFoundError_keeps|]. intros Hall. eapply Forall_impl; [exact Hall|].
    intros r Hr. by apply bool_decide_eq_false in Hr.
  - wp_value. intros e He. injection He as <-. by vm_compute.
Qed.

Lemma GetModel_missing id d :
  wp (GetModel (modelOf "" (Some id) "")) (missing_if (Forall (fun r => m_UUID r <> Some id) (rows (db_models d)))) d.
Proof.
  unfold GetModel. apply ready_missing, ready_missing. simpl. apply wp_bind. wp_value.
  apply first_missing; [apply notFoundError_keeps|]. intros Hall. eapply Forall_impl; [exact Hall|].
  intros r Hr. simpl in Hr. rewrite andb_true_r in Hr. by apply bool_decide_eq_false in Hr.
Qed.

Lemma GetApplicationOffer_missing id d :
  wp (GetApplicationOffer (offerOf "" id)) (missing_if (Forall (fun r => ao_UUID r <> id) (rows (db_offers d)))) d.
Proof.
  unfold GetApplicationOffer. apply ready_missing. simpl. apply wp_bind. destruct (decide (id <> "")).
  - wp_value. apply first_missing; [apply notFoundError_keeps|]. intros Hall. eapply Forall_impl; [exact Hall|].
    intros r Hr. by apply bool_decide_eq_false in Hr.
  - wp_value. intros e He. injection He as <-. by vm_compute.
Qed.

Lemma GetCloud_missing name d :
  wp (GetCloud (cloudOf name)) (missing_if (Forall (fun r => cl_Name r <> name) (rows (db_clouds d)))) d.
Proof.
  unfold GetCloud. apply ready_missing, first_missing; [apply notFoundError_keeps|].
  intros Hall. eapply Forall_impl; [exact Hall|]. intros r Hr. by apply bool_decide_eq_false in Hr.
Qed.

(** The lookup of [ToJAASTag] for one kind. *)
Lemma fetch_missing {R A} (m : M (Db T) R) what id (g : R -> A) (P Q : Prop) d :
  what ∈ ["controller"; "model"; "application offer"; "group"; "role"; "cloud"] ->
  wp m (missing_if P) d -> (P -> Q) ->
  wp (r ← map_err (fetchError what id) m; mret (g r)) (missing_if Q) d.
Proof.
  intros Hw Hm HPQ. apply wp_bind, wp_map_err. eapply wp_mono; [exact Hm|].
  intros [r|e|s|] d' Hmiss; simpl; try done. intros e' He'. injection He' as <-. intros Hc.
  apply HPQ, (Hmiss e eq_refl).
  repeat (apply elem_of_cons in Hw as [->|Hw]; [exact Hc|]). by apply elem_of_nil in Hw.
Qed.

Lemma ToJAASTag_missing j e d :
  wp (ToJAASTag j e true) (missing_if (entity_missing j d e)) d.
Proof.
  unfold ToJAASTag, entity_missing. simpl.
  repeat case_decide; try (wp_value; intros e' He'; (discriminate He' || (injection He' as <-; by vm_compute))).
  - eapply fetch_missing; [set_solver|apply GetController_missing|tauto].
  - eapply fetch_missing; [set_solver|apply GetModel_missing|tauto].
  - eapply fetch_missing; [set_solver|apply GetApplicationOffer_missing|tauto].
  - eapply fetch_missing; [set_solver|apply GetGroup_missing|tauto].
  - eapply fetch_missing; [set_solver|apply GetRole_missing|tauto].
  - eapply fetch_missing; [set_solver|apply GetCloud_missing|tauto].
Qed.

Lemma entity_missing_tables j d d' e : tables d' = tables d -> entity_missing j d' e -> entity_missing j d e.
Proof. unfold tables, entity_missing. intros Ht. by injection Ht as -> -> _ -> -> -> ->. Qed.

(** The cleanup reads the database and the tuples. *)
Definition scans {A} (P : A -> Prop) w (o : outcome A) (w' : World F T) : Prop :=
  w_fga w' = w_fga w /\ tables (w_db w') = tables (w_db w) /\ forall a, o = Ok a -> P a.

Lemma scans_bind {A B} (m : M (World F T) A) (k : A -> M (World F T) B) P Q w :
  wp m (scans P w) w ->
  (forall a w', P a -> w_fga w' = w_fga w -> tables (w_db w') = tables (w_db w) -> wp (k a) (scans Q w') w') ->
  wp (m ≫= k) (scans Q w) w.
Proof.
  intros Hm Hk. apply wp_bind. eapply wp_mono; [exact Hm|]. intros o w1 (Hf & Ht & HP).
  destruct o as [a|e|s|]; simpl; [|by split_and!..].
  eapply wp_mono; [apply Hk; auto|]. intros o w2 (Hf2 & Ht2 & HQ). split_and!; [congruence..|done].
Qed.

Lemma endMissing_wp j end_ w :
  wp (endMissing j end_) (scans (fun b => b = true -> exists e, end_ = Some e /\ entity_missing j (w_db w) e) w) w.
Proof.
  unfold endMissing. destruct end_ as [e|]; [|by wp_value]. apply wp_bind, wp_try, wp_db.
  eapply wp_mono; [apply wp_and; [apply ToJAASTag_reads|apply ToJAASTag_missing]|].
  intros o d [[Ha Ht] Hm]. destruct o as [x|err|s|]; simpl; [| |by split_and!..]; wp_value;
    (split_and!; [done|done|]; intros b Hb; apply (inj Ok) in Hb as <-; intros Hc); [done|].
  apply bool_decide_eq_true in Hc. exists e. split; [done|]. by apply (Hm err).
Qed.

Lemma orphanedTuples_wp j tuples w :
  wp (orphanedTuples j tuples) (scans (Forall (orphan j (w_db w))) w) w.
Proof.
  revert w. induction tuples as [|t tuples IH]; intros w.
  - wp_value. split_and!; [done|done|]. intros l Hl. apply (inj Ok) in Hl as <-. constructor.
  - cbn [orphanedTuples]. eapply scans_bind; [apply endMissing_wp|]. intros ob w1 Hob Hf1 Ht1.
    eapply (scans_bind _ _ (fun b => b = true -> orphan j (w_db w) t)).
    { destruct ob.
      - wp_value. split_and!; [done|done|]. intros _ _ _. destruct (Hob eq_refl) as (e & He & Hm).
        exists e. auto.
      - eapply wp_mono; [apply endMissing_wp|]. intros o w2 (Hf2 & Ht2 & Hb). split_and!; [done|done|].
        intros b Hob' Hbt. destruct (Hb b Hob' Hbt) as (e & He & Hm). exists e.
        split; [auto|]. by eapply entity_missing_tables. }
    intros b w2 Hb Hf2 Ht2. eapply (scans_bind _ _ (Forall (orphan j (w_db w)))).
    { eapply wp_mono; [apply IH|]. intros o w3 (Hf3 & Ht3 & Hl). split_and!; [done|done|].
      intros l Hok. eapply Forall_impl; [by apply Hl|]. intros x (e & He & Hm). exists e.
      split; [done|]. eapply entity_missing_tables; [|exact Hm]. congruence. }
    intros l w3 Hl Hf3 Ht3. wp_value. split_and!; [done|done|]. intros l' Hl'. apply (inj Ok) in Hl' as <-.
    destruct b; [constructor; auto|done].
Qed.

(** What the cleanup has done to the tuples, at any point. *)
Definition cleaned j w (w' : World F T) : Prop :=
  tables (w_db w') = tables (w_db w) /\ w_tuples w' ⊆ w_tuples w /\
  forall t, t ∈ w_tuples w -> t ∉ w_tuples w' -> orphan j (w_db w) t.

Lemma cleaned_trans j w w1 w2 : cleaned j w w1 -> cleaned j w1 w2 -> cleaned j w w2.
Proof.
  intros (Ht1 & Hs1 & Ho1) (Ht2 & Hs2 & Ho2). split_and!; [congruence|set_solver|].
  intros t Hin Hout. destruct (decide (t ∈ w_tuples w1)) as [Hin1|Hout1]; [|auto].
  destruct (Ho2 t Hin1 Hout) as (e & He & Hm). exists e. split; [done|]. by eapply entity_missing_tables.
Qed.

Lemma cleaned_same j w w' : tables (w_db w') = tables (w_db w) -> w_tuples w' = w_tuples w -> cleaned j w w'.
Proof. intros Ht HT. split_and!; [done|by rewrite HT|]. rewrite HT. done. Qed.

Lemma ReadRelatedObjects_tuples flt ps tok f :
  wp (ReadRelatedObjects flt ps tok) (fun _ f' => srv_tuples f' = srv_tuples f) f.
Proof.
  unfold ReadRelatedObjects, getRelatedObjects. apply wp_bind. eapply wp_mono; [apply law_find|].
  intros [[l ct]| | |] f1 (HT & _); simpl; try done. unfold wp, mbind, M_bind, lift. by destruct (mapM _ l).
Qed.

Lemma OpenFGACleanup_loop_wp fuel dn n j tok w :
  wp (OpenFGACleanup_loop fuel dn n j tok) (fun _ w' => cleaned j w w') w.
Proof.
  revert n tok w. induction fuel as [|fuel IH]; intros n tok w; [by apply cleaned_same|].
  cbn [OpenFGACleanup_loop]. apply wp_bind, wp_fga. eapply wp_mono; [apply ReadRelatedObjects_tuples|].
  intros o f HT. destruct o as [[tuples ct]|e|s|]; simpl; try (by apply cleaned_same).
  apply wp_bind. eapply wp_mono; [apply orphanedTuples_wp|]. intros o w1 (Hf1 & Ht1 & Hor). simpl in Hf1, Ht1.
  assert (w_tuples w1 = w_tuples w) as HT1 by (unfold w_tuples; by rewrite Hf1).
  destruct o as [orphans|e|s|]; simpl; try (by apply cleaned_same). specialize (Hor _ eq_refl). simpl in Hor.
  apply wp_bind. eapply (wp_mono _ (fun _ w' => cleaned j w w')).
  { destruct (decide (0 < length orphans)%nat); [|wp_value; by apply cleaned_same].
    apply wp_bind, wp_try, wp_fga. unfold RemoveRelation. eapply wp_mono; [apply law_remove|].
    intros o f2 [_ Hs]. change (srv_tuples (w_fga w1)) with (w_tuples w1) in Hs. rewrite HT1 in Hs.
    destruct o as [[]|e|s|]; simpl; try wp_value; try (by apply cleaned_same).
    split_and!; [done|unfold w_tuples at 1; simpl; rewrite Hs; set_solver|].
    intros t Hin Hout. unfold w_tuples in Hout. simpl in Hout. rewrite Hs in Hout.
    rewrite Forall_forall in Hor. apply Hor. set_solver. }
  intros o w2 Hcl. destruct o as [[]|e|s|]; simpl; try done.
  destruct (decide (ct = "")); [done|]. destruct (dn n); [done|].
  eapply wp_mono; [apply IH|]. intros o3 w3 Hcl3. by eapply cleaned_trans; [exact Hcl|exact Hcl3].
Qed.

(** [OpenFGACleanup], however far it gets, removes only orphaned tuples:
    every tuple that is gone has an end of a kind kept in the database whose
    key no row has; no tuple is added and the database is unchanged. *)
Theorem OpenFGACleanup_only_orphans fuel dn j w w' o :
  OpenFGACleanup fuel dn j w = (w', o) ->
  tables (w_db w') = tables (w_db w) /\ w_tuples w' ⊆ w_tuples w /\
  forall t, t ∈ w_tuples w -> t ∉ w_tuples w' -> orphan j (w_db w) t.
Proof. intros Hrun. exact (wp_elim _ _ _ _ _ (OpenFGACleanup_loop_wp fuel dn 0 j "" w) Hrun). Qed.

End cleanup.

End Perm.
