(* ===== verification/Relations.v ===== *)
(** * Relations: the relation API of the permission manager
    ([internal/jimm/permissions/relations.go]).

    Tuples arrive as strings; they are parsed with the tag resolver, each is
    authorised, and only then written in batches.  The functions run on a
    [World] as those of [Access]. *)

From Stdlib Require Import Ascii.
From S2P Require Import Prelude Errors Regexp Names AuthModel RefServer OpenFGA Dbmodel Users Database Encoding Pagination TagResolver Access.

Module Rel.
Import Perm.

Definition BATCH_SIZE_OPENFGA : nat := 100.

Definition resourceAdminRelations : list string :=
  [AdministratorRelation; ReaderRelation; WriterRelation; ConsumerRelation; CanAddModelRelation;
   AuditLogViewerRelation].

Definition grantableObjectKinds : list string :=
  [UserTagKind; GroupTagKind; IdPGroupTagKind; RoleTagKind].

(** [apiparams.RelationshipTuple]. *)
Record RelationshipTuple := MkRelTuple { rt_Object : string; rt_Relation : string; rt_TargetObject : string }.

(** [openfga.CheckResult]. *)
Record CheckResult := MkResult { Allowed : bool; cr_Error : option gerror }.

Definition nilPointer : string := "invalid memory address or nil pointer dereference".

Section relations.
Context {F : Type} `{OFGAServer F} {T : Type -> Type} `{Gorm T} `{JujuNames} `{Hash} `{GroupFetcher} `{UUIDParse}.
Implicit Types (j : PermissionManager) (user : User).

Definition openFGAFailed (err : gerror) : gerror := Codef CodeOpenFGARequestFailed "%w" [ArgE err].

Definition authorizeRelationTargetAdmin user (tuple : Tuple) : M (World F T) unit :=
  if JimmAdmin user then mret tt
  else if decide (Relation tuple ∉ resourceAdminRelations) then throw Unauthorized
  else match Object tuple with
  | None => throw (Codef CodeBadRequest "object not specified" [])
  | Some object =>
      if decide (EKind object ∉ grantableObjectKinds) then throw Unauthorized
      else match Target tuple with
      | None => panic nilPointer
      | Some target =>
          if decide (EKind target ∈ [ControllerTagKind; ModelTagKind; ApplicationOfferTagKind; CloudTagKind])
          then
            contextualTuples ← lift (ContextualTuples user);
            subject ← lift (user_entity user);
            allowed ← map_err openFGAFailed
              (fga (CheckRelation (MkTuple (Some subject) AdministratorRelation (Some target))
                      false contextualTuples));
            match allowed with true => mret tt | false => throw Unauthorized end
          else throw Unauthorized
      end
  end.

Definition parseTagError (msg key : string) (err : gerror) : gerror :=
  Codef CodeFailedToParseTupleKey "%s %s: %s" [ArgS msg; ArgS key; ArgS (Error err)].

Definition parseTuple j (tuple : RelationshipTuple) : M (World F T) Tuple :=
  relation ← map_err (fun err => Codef CodeBadRequest "%w" [ArgE err])
               (lift (ParseRelation (rt_Relation tuple)));
  if decide (rt_TargetObject tuple = "")
  then throw (Codef CodeBadRequest "target object not specified" [])
  else
    target ← map_err (parseTagError "failed to parse tuple target object key" (rt_TargetObject tuple))
               (db (parseAndValidateTag j (rt_TargetObject tuple)));
    if decide (rt_Object tuple <> "") then
      objectTag ← map_err (parseTagError "failed to parse tuple object key" (rt_Object tuple))
                    (db (parseAndValidateTag j (rt_Object tuple)));
      mret (MkTuple (Some objectTag) relation (Some target))
    else mret (MkTuple None relation (Some target)).

Definition parseTuples j (tuples : list RelationshipTuple) : M (World F T) (list Tuple) :=
  map_range tuples (parseTuple j).

(** [logUserUpdates] only writes log lines; it reads the kind of each object. *)
Definition logUserUpdates (tuples : list Tuple) : M (World F T) unit :=
  for_range tuples (fun tuple => match Object tuple with Some _ => mret tt | None => panic nilPointer end).

(** The common shape of [AddRelation] and [RemoveRelation]. *)
Definition updateRelations (update : list Tuple -> M F unit) j user (tuples : list RelationshipTuple)
    : M (World F T) unit :=
  parsedTuples ← parseTuples j tuples;
  _ ← for_range parsedTuples (authorizeRelationTargetAdmin user);
  for_range (batches BATCH_SIZE_OPENFGA parsedTuples) (fun batch =>
    _ ← map_err openFGAFailed (fga (update batch));
    logUserUpdates batch).
Definition AddRelation := updateRelations OpenFGA.AddRelation.
Definition RemoveRelation := updateRelations OpenFGA.RemoveRelation.

Definition userCheckingSelf user (tuple : Tuple) : bool :=
  match Object tuple with
  | Some o => bool_decide (EKind o = UserTagKind) && bool_decide (EID o = u_Name user)
  | None => false
  end.

Definition parseAndAuthorizeRelationCheck j user (tuple : RelationshipTuple) : M (World F T) Tuple :=
  parsedTuple ← parseTuple j tuple;
  if userCheckingSelf user parsedTuple then mret parsedTuple
  else _ ← authorizeRelationTargetAdmin user parsedTuple; mret parsedTuple.

(** The session whose groups a check uses: the target user's, when the object
    is another user. *)
Definition sessionTuples user (tuple : Tuple) : outcome (list Tuple) :=
  match Object tuple with
  | Some o =>
      if decide (EKind o = UserTagKind /\ u_Name user <> EID o) then
        tag ← NewUserTag (EID o);
        targetUser ← NewUserFromTag tag;
        ContextualTuples targetUser
      else ContextualTuples user
  | None => ContextualTuples user
  end.

Definition CheckRelation j user (tuple : RelationshipTuple) (trace : bool) : M (World F T) bool :=
  parsedTuple ← parseAndAuthorizeRelationCheck j user tuple;
  contextualTuples ← lift (sessionTuples user parsedTuple);
  map_err openFGAFailed (fga (OpenFGA.CheckRelation parsedTuple trace contextualTuples)).

(** The first loop of [CheckRelations]: parse errors are stored in the result
    of their tuple; the other tuples become checks. *)
Fixpoint collectRelationChecks j user (contextualTuples : list Tuple) (i : nat) (tuples : list RelationshipTuple)
    (results : list CheckResult) (parsed : list TupleWithCorrelationId) (resultIndex : gmap string nat)
    : M (World F T) (list CheckResult * list TupleWithCorrelationId * gmap string nat) :=
  match tuples with
  | [] => mret (results, parsed, resultIndex)
  | tuple :: tuples =>
      res ← try (parseAndAuthorizeRelationCheck j user tuple);
      match res with
      | inr err =>
          collectRelationChecks j user contextualTuples (S i) tuples
            (<[i := MkResult false (Some err)]> results) parsed resultIndex
      | inl parsedTuple =>
          let correlationID := pretty (Z.of_nat i) in
          collectRelationChecks j user contextualTuples (S i) tuples results
            (parsed ++ [MkTWC parsedTuple correlationID contextualTuples])
            (<[correlationID := i]> resultIndex)
      end
  end.

(** [results[resultIndex[id]] = f id] for each check. *)
Definition storeResults (resultIndex : gmap string nat) (f : string -> CheckResult -> CheckResult)
    (parsed : list TupleWithCorrelationId) (results : list CheckResult) : list CheckResult :=
  foldl (fun results tuple => alter (f (CorrelationId tuple))
                                (default 0%nat (resultIndex !! CorrelationId tuple)) results) results parsed.

Definition CheckRelations j user (tuples : list RelationshipTuple) : M (World F T) (list CheckResult) :=
  let results := replicate (length tuples) (MkResult false None) in
  contextualTuples ← (if decide (0 < length tuples)%nat then lift (ContextualTuples user) else mret []);
  '(results, parsedTuples, resultIndex) ← collectRelationChecks j user contextualTuples 0 tuples results [] ∅;
  if decide (length parsedTuples = 0%nat) then mret results
  else
    allowed ← try (fga (BatchCheckRelations parsedTuples));
    mret (match allowed with
          | inr err => storeResults resultIndex
              (fun _ r => MkResult (Allowed r) (Some (openFGAFailed err))) parsedTuples results
          | inl allowed => storeResults resultIndex
              (fun id r => MkResult (default false (allowed !! id)) (cr_Error r)) parsedTuples results
          end).

(** [pageSize] is an int32. *)
Definition int32 (z : Z) : Z := ((z + 2 ^ 31) mod 2 ^ 32 - 2 ^ 31)%Z.

Fixpoint getObjectRelationsPage_loop (fuel : nat) j (object : Entity) (relation : string) (pageSize : Z)
    (nextToken : string) (responseTuples : list Tuple) : M (World F T) (list Tuple * string) :=
  match fuel with
  | 0%nat => diverge
  | S fuel =>
      '(continuationToken, kind) ← lift (DecodeEntitlementToken nextToken);
      target ← db (parseAndValidateTag j kind);
      '(t, continuationToken) ←
        fga (ReadRelatedObjects (MkTuple (Some object) relation (Some target)) pageSize continuationToken);
      let responseTuples := responseTuples ++ t in
      let pageSize := int32 (pageSize - int32 (Z.of_nat (length t))) in
      nextToken ← lift (NextEntitlementToken kind continuationToken);
      if decide ((pageSize <= 0)%Z \/ nextToken = "") then mret (responseTuples, nextToken)
      else getObjectRelationsPage_loop fuel j object relation pageSize nextToken responseTuples
  end.

Definition getObjectRelationsPage (fuel : nat) j (object relation : string) (pageSize : Z) (entitlementToken : string)
    : M (World F T) (list Tuple * string) :=
  obj ← db (parseAndValidateTag j object);
  getObjectRelationsPage_loop fuel j obj relation pageSize entitlementToken [].

Definition listObjectRelations (fuel : nat) j user (object relation : string) (pageSize : Z) (entitlementToken : string)
    : M (World F T) (list Tuple * string) :=
  if negb (JimmAdmin user) then throw Unauthorized
  else
    '(responseTuples, nextToken) ← getObjectRelationsPage fuel j object relation pageSize entitlementToken;
    if decide (Z.of_nat (length responseTuples) = pageSize /\ nextToken <> "") then
      '(nextTuples, _) ← map_err (fun err =>
          Errorf "error getting next page to verify it cointains something: %w" [ArgE err])
          (getObjectRelationsPage fuel j object relation 1 nextToken);
      mret (responseTuples, match nextTuples with [] => "" | _ => nextToken end)
    else mret (responseTuples, nextToken).

Definition ListObjectRelations (fuel : nat) j user (object : string) (pageSize : Z) (entitlementToken : string) :=
  listObjectRelations fuel j user object "" pageSize entitlementToken.

Definition ListRelationshipTuples (fuel : nat) j user (tuple : RelationshipTuple) (pageSize : Z)
    (continuationToken : string) : M (World F T) (list Tuple * string) :=
  if negb (JimmAdmin user) then throw Unauthorized
  else if decide (rt_TargetObject tuple = "" /\ rt_Object tuple <> "") then
    relation ← map_err (fun err => Codef CodeBadRequest "%w" [ArgE err])
                 (lift (ParseRelation (rt_Relation tuple)));
    listObjectRelations fuel j user (rt_Object tuple) relation pageSize continuationToken
  else
    parsedTuple ← (if decide (rt_TargetObject tuple <> "") then parseTuple j tuple
                   else mret (MkTuple None "" None));
    fga (ReadRelatedObjects parsedTuple pageSize continuationToken).

End relations.

(** ** Specification *)

(** Who may write a tuple: a JIMM administrator, or an administrator of the
    target, for an access relation granted to a user, group or role. *)
Definition may_manage `{JujuNames} (X : gset Tuple) (user : User) (t : Tuple) : Prop :=
  JimmAdmin user = true \/
  (Relation t ∈ resourceAdminRelations /\ exists o g, Object t = Some o /\ Target t = Some g /\
     EKind o ∈ grantableObjectKinds /\
     EKind g ∈ [ControllerTagKind; ModelTagKind; ApplicationOfferTagKind; CloudTagKind] /\
     has_access X user AdministratorRelation g).

(** A step that leaves the tuples and the tables as they are. *)
Definition keeps {F} `{OFGAServer F} {T} `{Gorm T} {A} (w : World F T) (P : A -> Prop)
    (o : outcome A) (w' : World F T) : Prop :=
  w_tuples w' = w_tuples w /\ tables (w_db w') = tables (w_db w) /\ answered o /\ forall a, o = Ok a -> P a.

Section facts.
Context {F : Type} `{OFGALaws F} {T : Type -> Type} `{GormLaws T} `{JujuNames} `{Hash} `{GroupFetcher} `{UUIDParse}.
Implicit Types (w : World F T) (user : User).

Lemma keeps_bind {A B} (m : M (World F T) A) (k : A -> M (World F T) B) P Q w :
  wp m (keeps w P) w ->
  (forall a w', P a -> w_tuples w' = w_tuples w -> tables (w_db w') = tables (w_db w) -> wp (k a) (keeps w' Q) w') ->
  wp (m ≫= k) (keeps w Q) w.
Proof.
  intros Hm Hk. apply wp_bind. eapply wp_mono; [exact Hm|]. intros o w1 (HT & Ht & Ha & HP).
  destruct o as [a|e|s|]; simpl; [|by split_and!..].
  eapply wp_mono; [by apply Hk; auto|]. intros o w2 (HT2 & Ht2 & Ha2 & HQ). split_and!; [congruence..|done|done].
Qed.

Lemma keeps_map_err {A} f (m : M (World F T) A) P w : wp m (keeps w P) w -> wp (map_err f m) (keeps w P) w.
Proof.
  intros Hm. apply wp_map_err. eapply wp_mono; [exact Hm|]. intros [] w' (HT & Ht & Ha & HP); by split_and!.
Qed.

Lemma keeps_ret {A} (a : A) (P : A -> Prop) w : P a -> wp (mret a) (keeps w P) w.
Proof. intros. wp_value. split_and!; try done. intros b Hb. by apply (inj Ok) in Hb as <-. Qed.

Lemma keeps_lift {A} (o : outcome A) (P : A -> Prop) w :
  answered o -> (forall a, o = Ok a -> P a) -> wp (lift o) (keeps w P) w.
Proof. intros. by wp_value. Qed.

Lemma keeps_parse j key w : wp (db (parseAndValidateTag j key)) (keeps w (fun _ => True)) w.
Proof.
  apply wp_db. eapply wp_mono; [apply parseAndValidateTag_reads|]. intros o d [Ha Ht]. by split_and!.
Qed.

(** The authorisation of one tuple. *)
Lemma authorize_wp user t w :
  wp (authorizeRelationTargetAdmin user t) (keeps w (fun _ => may_manage (w_tuples w) user t)) w.
Proof.
  unfold authorizeRelationTargetAdmin. destruct (JimmAdmin user) eqn:Hj; [apply keeps_ret; by left|].
  destruct (decide (Relation t ∉ resourceAdminRelations)) as [|Hr]; [by wp_value|]. apply dec_stable in Hr.
  destruct (Object t) as [o|] eqn:Ho; [|by wp_value].
  destruct (decide (EKind o ∉ grantableObjectKinds)) as [|Hk]; [by wp_value|]. apply dec_stable in Hk.
  destruct (Target t) as [g|] eqn:Hg; [|by wp_value].
  destruct (decide (EKind g ∈ _)) as [Hgk|]; [|by wp_value].
  eapply (keeps_bind _ _ (fun ctx => ContextualTuples user = Ok ctx)).
  { apply keeps_lift; [apply ContextualTuples_answered|done]. }
  intros ctx w1 Hctx HT1 Ht1. eapply (keeps_bind _ _ (fun e => user_entity user = Ok e)).
  { apply keeps_lift; [|done]. destruct (user_entity_cases user) as [[e ->]|[p ->]]; done. }
  intros e w2 He HT2 Ht2.
  eapply (keeps_bind _ _ (fun b => b = true -> has_access (w_tuples w) user AdministratorRelation g)).
  { apply keeps_map_err, wp_fga. eapply wp_mono; [apply CheckRelation_wp|].
    intros o' f (HT & Ha & Hb). split_and!; [done..|]. intros b -> ->.
    destruct (Hb true eq_refl) as (x & y & Hx & Hy & Hiff). simpl in *. simplify_eq.
    apply (has_access_iff _ _ x ctx); [done|done|]. rewrite <- HT1, <- HT2. by apply Hiff. }
  intros b w3 Hb HT3 Ht3. destruct b; [|by wp_value]. apply keeps_ret. right. split; [done|].
  exists o, g. split_and!; auto.
Qed.

Lemma ParseRelation_answered r : answered (ParseRelation r).
Proof. unfold ParseRelation. by repeat case_decide. Qed.
Lemma ParseRelation_same s r : ParseRelation s = Ok r -> r = s.
Proof. unfold ParseRelation. intros Hr. repeat case_decide; by simplify_eq. Qed.

Lemma parseTuple_wp j rt w : wp (parseTuple j rt) (keeps w (fun t => Relation t = rt_Relation rt /\ is_Some (Target t))) w.
Proof.
  unfold parseTuple. eapply (keeps_bind _ _ (fun r => r = rt_Relation rt)).
  { apply keeps_map_err, keeps_lift; [apply ParseRelation_answered|apply ParseRelation_same]. }
  intros r w1 -> HT1 Ht1. case_decide; [by wp_value|].
  eapply keeps_bind; [apply keeps_map_err, keeps_parse|]. intros g w2 _ HT2 Ht2.
  case_decide; [|by apply keeps_ret].
  eapply keeps_bind; [apply keeps_map_err, keeps_parse|]. intros o w3 _ HT3 Ht3. by apply keeps_ret.
Qed.

Lemma keeps_map_range {A B} (xs : list A) (body : A -> M (World F T) B) (P : A -> B -> Prop) w0 w :
  (forall x w, tables (w_db w) = tables (w_db w0) -> wp (body x) (keeps w (P x)) w) ->
  tables (w_db w) = tables (w_db w0) -> wp (map_range xs body) (keeps w (Forall2 P xs)) w.
Proof.
  intros Hb. revert w. induction xs as [|x xs IH]; intros w Hw; [by apply keeps_ret|]. simpl.
  eapply keeps_bind; [by apply Hb|]. intros y w1 Hy _ Ht1. eapply keeps_bind; [apply IH; congruence|].
  intros ys w2 Hys _ _. apply keeps_ret. by constructor.
Qed.

(** What the code makes of a requested tuple, with the tables of [w]. *)
Definition parsed_as j w (rt : RelationshipTuple) (t : Tuple) : Prop :=
  Relation t = rt_Relation rt /\ is_Some (Target t) /\
  exists w0 w1, tables (w_db w0) = tables (w_db w) /\ parseTuple j rt w0 = (w1, Ok t).

Lemma parsed_as_wp j rt w0 w :
  tables (w_db w) = tables (w_db w0) -> wp (parseTuple j rt) (keeps w (parsed_as j w0 rt)) w.
Proof.
  intros Ht. apply wp_run. intros w' o Hrun.
  destruct (wp_elim _ _ _ _ _ (parseTuple_wp j rt w) Hrun) as (HT & Htab & Ha & Hr). split_and!; [done..|].
  intros t ->. destruct (Hr t eq_refl) as [Hrel Htgt]. split_and!; [done|done|]. by exists w, w'.
Qed.

Lemma keeps_for_range {A} (xs : list A) (body : A -> M (World F T) unit) (P : A -> Prop) X w :
  w_tuples w = X ->
  (forall x w, w_tuples w = X -> wp (body x) (keeps w (fun _ => P x)) w) ->
  wp (for_range xs body) (keeps w (fun _ => Forall P xs)) w.
Proof.
  intros HX Hb. revert w HX. induction xs as [|x xs IH]; intros w HX; [by apply keeps_ret|]. simpl.
  eapply keeps_bind; [by apply Hb|]. intros [] w1 Hx HT1 _.
  eapply wp_mono; [apply IH; congruence|]. intros o w2 (HT2 & Ht2 & Ha & HF).
  split_and!; try done. intros a Ha'. constructor; [done|by eapply HF].
Qed.

(** How a successful update of a batch changes the tuples. *)
Class BatchUpdate (update : list Tuple -> M F unit) (act : gset Tuple -> list Tuple -> gset Tuple) := {
  act_nil X : act X [] = X;
  act_app X a b : act X (a ++ b) = act (act X a) b;
  act_run ts f : wp (update ts) (fun o f' => answered o /\
    srv_tuples f' = match o with Ok _ => act (srv_tuples f) ts | _ => srv_tuples f end) f;
}.

#[export] Instance add_update : BatchUpdate OpenFGA.AddRelation (fun X ts => X ∪ list_to_set ts).
Proof. split; [intros; set_solver|intros; rewrite list_to_set_app_L; set_solver|intros; apply law_add]. Qed.
#[export] Instance remove_update : BatchUpdate OpenFGA.RemoveRelation (fun X ts => X ∖ list_to_set ts).
Proof. split; [intros; set_solver|intros; rewrite list_to_set_app_L; set_solver|intros; apply law_remove]. Qed.

Lemma logUserUpdates_wp ts w :
  wp (logUserUpdates ts) (fun o w' => w' = w /\ answered o) w.
Proof.
  unfold logUserUpdates. induction ts as [|t ts IH]; [by wp_value|]. simpl. apply wp_bind.
  destruct (Object t); wp_value; simpl; [exact IH|done].
Qed.

(** The batches that were written are the first ones, all of them on success. *)
Lemma batch_loop_wp update act `{!BatchUpdate update act} bs w :
  wp (for_range bs (fun batch => _ ← map_err openFGAFailed (fga (update batch)); logUserUpdates batch))
     (fun o w' => answered o /\ w_db w' = w_db w /\ exists pre post, bs = pre ++ post /\
        w_tuples w' = act (w_tuples w) (mjoin pre) /\ (o = Ok tt -> post = [])) w.
Proof.
  revert w. induction bs as [|b bs IH]; intros w.
  - wp_value. split_and!; try done. exists [], []. by rewrite act_nil.
  - cbn [for_range]. apply wp_bind, wp_bind, wp_map_err, wp_fga. eapply wp_mono; [apply act_run|].
    intros o f [Ha Hs]. change (srv_tuples (w_fga w)) with (w_tuples w) in Hs.
    assert (forall o' : outcome unit, answered o' -> o' <> Ok tt -> srv_tuples f = w_tuples w ->
      answered o' /\ w_db (MkWorld f (w_db w)) = w_db w /\ exists pre post, b :: bs = pre ++ post /\
        w_tuples (MkWorld f (w_db w)) = act (w_tuples w) (mjoin pre) /\ (o' = Ok tt -> post = [])) as Hstop.
    { intros o' Ha' Hne HT. split_and!; try done. exists [], (b :: bs). rewrite act_nil. by split_and!. }
    destruct o as [[]|e|s|]; simpl; [|by apply Hstop..]. eapply wp_mono; [apply logUserUpdates_wp|].
    intros o w1 [-> Ha1]. destruct o as [[]|e|s|]; simpl.
    2-4: split_and!; try done; exists [b], bs; split_and!; try done;
      unfold w_tuples at 1; simpl; by rewrite app_nil_r, Hs.
    eapply wp_mono; [apply IH|]. intros o w2 (Ha2 & Hd2 & pre & post & -> & HT2 & Hok).
    split_and!; [done|done|]. exists (b :: pre), post. split_and!; [done| |done].
    rewrite HT2. unfold w_tuples at 1. simpl. by rewrite Hs, act_app.
Qed.

End facts.

Section updates.
Context {F : Type} `{OFGALaws F} {T : Type -> Type} `{GormLaws T} `{JujuNames} `{Hash} `{GroupFetcher} `{UUIDParse}.
Implicit Types (w : World F T) (user : User).

(** The written tuples are the first of the requested ones, as the resolver
    reads them; all of them on success. *)
Definition written_of j w (tuples : list RelationshipTuple) (o : outcome unit) (written : list Tuple) : Prop :=
  (written = [] /\ o <> Ok tt) \/
  exists rest, Forall2 (parsed_as j w) tuples (written ++ rest) /\ (o = Ok tt -> rest = []).

(** What an update does: it writes tuples that the caller may manage. *)
Definition update_post (act : gset Tuple -> list Tuple -> gset Tuple) j user (tuples : list RelationshipTuple)
    w (o : outcome unit) w' : Prop :=
  exists written, w_tuples w' = act (w_tuples w) written /\ Forall (may_manage (w_tuples w) user) written /\
    written_of j w tuples o written.

Lemma updateRelations_wp update act `{!BatchUpdate update act} j user tuples w :
  wp (updateRelations update j user tuples) (fun o w' => answered o /\ tables (w_db w') = tables (w_db w) /\
    update_post act j user tuples w o w') w.
Proof.
  unfold updateRelations.
  assert (forall (o : outcome unit) w', answered o -> o <> Ok tt -> tables (w_db w') = tables (w_db w) ->
    w_tuples w' = w_tuples w -> answered o /\ tables (w_db w') = tables (w_db w) /\
    update_post act j user tuples w o w') as Hfail.
  { intros o w' Ha Hne Ht HT. split_and!; try done. exists []. rewrite act_nil, HT. split_and!; [done|done|by left]. }
  apply wp_bind. eapply wp_mono; [apply (keeps_map_range _ _ (parsed_as j w) w); [|done]; intros; by apply parsed_as_wp|].
  intros o w1 (HT1 & Ht1 & Ha1 & HP). destruct o as [parsed|e|s|]; simpl; try (by apply Hfail).
  specialize (HP _ eq_refl). apply wp_bind. eapply wp_mono.
  { apply (keeps_for_range _ _ (may_manage (w_tuples w) user) (w_tuples w)); [done|].
    intros t w2 HT2. rewrite <- HT2. apply authorize_wp. }
  intros o w2 (HT2 & Ht2 & Ha2 & Hauth). destruct o as [[]|e|s|]; simpl; try (apply Hfail; congruence || done).
  specialize (Hauth _ eq_refl). eapply wp_mono; [by apply batch_loop_wp|].
  intros o w3 (Ha3 & Hd3 & pre & post & Hb & HT3 & Hok). split_and!; [done|congruence|].
  assert (parsed = mjoin pre ++ mjoin post) as Hsplit.
  { rewrite <- (batches_join BATCH_SIZE_OPENFGA parsed) by (unfold BATCH_SIZE_OPENFGA; lia).
    rewrite Hb. clear. induction pre as [|p pre IH]; simpl; [done|]. by rewrite IH, app_assoc. }
  exists (mjoin pre). split_and!; [congruence| |].
  - rewrite Hsplit in Hauth. by apply Forall_app in Hauth as [? _].
  - right. exists (mjoin post). rewrite <- Hsplit. split; [done|]. intros Ho. by rewrite (Hok Ho).
Qed.

(** ** Confinement

    Two sets of tuples that agree on the targets that a user does not
    administer give the same relations to these targets. *)

(** The user administers the target, counting its session's groups. *)
Definition administers (X : gset Tuple) (user : User) (g : Entity) : Prop :=
  has_access X user AdministratorRelation g.

Lemma membership_kind k r d k' m :
  lookup_def k r = Some d -> TyUserset k' m ∈ rd_direct d -> lookup_def k' AdministratorRelation = None.
Proof.
  intros Hd Hin.
  apply (lookup_def_check (fun _ _ d => forallb (fun rs =>
    match rs with TyUserset k' _ => bool_decide (lookup_def k' AdministratorRelation = None) | _ => true end)
    (rd_direct d))) in Hd; [|by vm_compute].
  rewrite forallb_forall in Hd. apply list_elem_of_In, Hd in Hin. by apply bool_decide_eq_true in Hin.
Qed.

Lemma from_administrator k r d r' c :
  lookup_def k r = Some d -> (r', c) ∈ rd_from d -> r = AdministratorRelation /\ r' = AdministratorRelation.
Proof.
  intros Hd Hin.
  apply (lookup_def_check (fun _ r d => forallb (fun p =>
    bool_decide (r = AdministratorRelation /\ p.1 = AdministratorRelation)) (rd_from d))) in Hd; [|by vm_compute].
  rewrite forallb_forall in Hd. apply list_elem_of_In, Hd in Hin. by apply bool_decide_eq_true in Hin.
Qed.

(** Nobody administers a group or a role. *)
Lemma no_group_administrator X user k i :
  lookup_def k AdministratorRelation = None -> ~ administers X user (MkEntity k i "").
Proof.
  intros Hd (e & ctx & He & _ & Hh). destruct (user_entity_kind _ _ He) as [Hk Hr].
  inversion Hh as [| ? ? ? d Hd' | ? ? ? d Hd' | ? ? ? d ? ? ? Hd' | ? ? ? d ? Hd' | ? ? ? d ? ? ? ? Hd'];
    simplify_eq/=; congruence.
Qed.

Lemma holds_confined X A B user v r g :
  (forall o r g, ~ administers X user g -> edge o r g ∈ A <-> edge o r g ∈ X) ->
  (forall o r g, ~ administers X user g -> edge o r g ∈ B <-> edge o r g ∈ X) ->
  ~ administers X user g -> holds A v r g -> holds B v r g.
Proof.
  intros HA HB Hn Hh.
  assert (forall o r g, ~ administers X user g -> edge o r g ∈ A -> edge o r g ∈ B) as HAB
    by (intros o' r' g' Hn' Hin; apply HB, HA; done).
  induction Hh as [|o r t d Hd Hin|o r t d Hd Ho Hin|o r t d k i m Hd Hin Hty Hsub IH
                  |o r t d r' Hd Hin Hsub IH|o r t d r' c p dc Hd Hf Hdc Hin Hall Hsub IH].
  - by constructor.
  - eapply holds_direct; eauto.
  - eapply holds_public; eauto.
  - eapply holds_userset; [done|by apply HAB|done|]. apply IH.
    apply no_group_administrator. by eapply membership_kind.
  - eapply holds_computed; eauto.
  - eapply (holds_from _ _ _ _ _ r' c p); eauto. apply IH. intros (e & ctx & He & Hc & Hadm). apply Hn.
    exists e, ctx. split_and!; [done|done|]. destruct (from_administrator _ _ _ _ _ Hd Hf) as [-> ->].
    eapply (holds_from _ _ _ _ _ AdministratorRelation c p); eauto.
    apply elem_of_union_l. by apply HA.
Qed.

End updates.

(** ** Properties *)

Section properties.
Context {F : Type} `{OFGALaws F} {T : Type -> Type} `{GormLaws T} `{JujuNames} `{Hash} `{GroupFetcher} `{UUIDParse}.
Implicit Types (w : World F T) (user : User).

(** The two update operations and their effect on the set of tuples. *)
Definition update_run (remove : bool) j user tuples : M (World F T) unit :=
  if remove then RemoveRelation j user tuples else AddRelation j user tuples.
Definition update_act (remove : bool) (X : gset Tuple) (ts : list Tuple) : gset Tuple :=
  if remove then X ∖ list_to_set ts else X ∪ list_to_set ts.

Lemma update_run_post remove j user tuples w w' o :
  update_run remove j user tuples w = (w', o) ->
  answered o /\ tables (w_db w') = tables (w_db w) /\
  update_post (update_act remove) j user tuples w o w'.
Proof.
  destruct remove; intros Hrun.
  - exact (wp_elim _ _ _ _ _ (updateRelations_wp OpenFGA.RemoveRelation _ j user tuples w) Hrun).
  - exact (wp_elim _ _ _ _ _ (updateRelations_wp OpenFGA.AddRelation _ j user tuples w) Hrun).
Qed.

(** C7.  [AddRelation] and [RemoveRelation] end and change only tuples that
    the caller may manage: a JIMM administrator any, another user only access
    relations between a user, group or role and a resource it administers.
    On success every requested tuple, as the resolver reads it, was written; the batches written before a
    failure are a prefix, and the database is unchanged. *)
Theorem relation_updates_authorised remove j user tuples w w' o :
  update_run remove j user tuples w = (w', o) ->
  o <> OutOfFuel /\ tables (w_db w') = tables (w_db w) /\
  exists written, w_tuples w' = update_act remove (w_tuples w) written /\
    Forall (may_manage (w_tuples w) user) written /\
    written_of j w tuples o written.
Proof. intros Hrun. exact (update_run_post _ _ _ _ _ _ _ Hrun). Qed.

(** A user that is not a JIMM administrator never changes the structure:
    the relations that attach models, clouds and offers to controllers and
    models, and the memberships of groups and roles, are the same after any
    call of [AddRelation] or [RemoveRelation]. *)
Theorem structure_admin_only remove j user tuples w w' o s r g :
  JimmAdmin user = false -> update_run remove j user tuples w = (w', o) ->
  r ∈ [ControllerRelation; ModelRelation; MemberRelation; AssigneeRelation] ->
  edge s r g ∈ w_tuples w' <-> edge s r g ∈ w_tuples w.
Proof.
  intros Hj Hrun Hr. destruct (update_run_post _ _ _ _ _ _ _ Hrun) as (_ & _ & written & -> & Hm & _).
  assert (edge s r g ∉ written) as Hno.
  { intros Hin. rewrite Forall_forall in Hm. destruct (Hm _ Hin) as [?|[Hrel _]]; [congruence|].
    simpl in Hrel. clear - Hr Hrel. revert Hrel. unfold resourceAdminRelations.
    repeat (apply elem_of_cons in Hr as [->|Hr]; [by apply (bool_decide_unpack (_ ∉ _))|]).
    by apply elem_of_nil in Hr. }
  unfold update_act. destruct remove; set_solver.
Qed.

(** C1.  Confinement: whatever a user that is not a JIMM administrator writes
    or removes, nobody's relations change on a resource that this user does
    not administer. *)
Theorem relation_updates_confined remove j user tuples w w' o v r g :
  JimmAdmin user = false -> update_run remove j user tuples w = (w', o) ->
  ~ administers (w_tuples w) user g ->
  holds (w_tuples w') v r g <-> holds (w_tuples w) v r g.
Proof.
  intros Hj Hrun Hn. destruct (update_run_post _ _ _ _ _ _ _ Hrun) as (_ & _ & written & HX' & Hm & _).
  assert (forall o r g, ~ administers (w_tuples w) user g ->
    edge o r g ∈ w_tuples w' <-> edge o r g ∈ w_tuples w) as Hagree.
  { intros o' r' g' Hn'. rewrite HX'. assert (edge o' r' g' ∉ written) as Hno.
    { intros Hin. rewrite Forall_forall in Hm. destruct (Hm _ Hin) as [?|(_ & x & y & _ & Hy & _ & _ & Hadm)];
        [congruence|]. simpl in Hy. simplify_eq. done. }
    unfold update_act. destruct remove; set_solver. }
  split; apply (holds_confined (w_tuples w) _ _ user); done.
Qed.

(** ** Checks *)

Lemma keeps_authorized_check j user rt w :
  wp (parseAndAuthorizeRelationCheck j user rt) (keeps w (fun t => Relation t = rt_Relation rt /\
    (userCheckingSelf user t = true \/ may_manage (w_tuples w) user t))) w.
Proof.
  unfold parseAndAuthorizeRelationCheck. eapply keeps_bind; [apply parseTuple_wp|].
  intros t w1 [Hr _] HT1 _. destruct (userCheckingSelf user t) eqn:Hs; [apply keeps_ret; auto|].
  eapply keeps_bind; [apply authorize_wp|]. intros [] w2 Hm _ _. apply keeps_ret. rewrite HT1 in Hm. auto.
Qed.

(** [CheckRelation] answers truthfully and only to those who may ask: a
    successful call is about the caller itself or a tuple it may manage, its
    answer is that of the authorisation model with the identity-provider
    groups of the session it is about (the target user's when the object is
    another user), and it changes nothing. *)
Theorem CheckRelation_sound j user rt trace w w' b :
  CheckRelation j user rt trace w = (w', Ok b) ->
  w_tuples w' = w_tuples w /\ tables (w_db w') = tables (w_db w) /\
  exists t ctx, Relation t = rt_Relation rt /\
    (userCheckingSelf user t = true \/ may_manage (w_tuples w) user t) /\
    sessionTuples user t = Ok ctx /\ check_answer (w_tuples w) t ctx b.
Proof.
  unfold CheckRelation. intros Hrun. unfold mbind, M_bind in Hrun.
  destruct (parseAndAuthorizeRelationCheck j user rt w) as [w1 o1] eqn:Hp.
  destruct (wp_elim _ _ _ _ _ (keeps_authorized_check j user rt w) Hp) as (HT1 & Ht1 & _ & HP).
  destruct o1 as [t|e|s|]; try done. destruct (HP t eq_refl) as [Hr Hauth].
  unfold lift in Hrun. destruct (sessionTuples user t) as [ctx|e|s|] eqn:Hs; try done.
  unfold map_err, fga, zoom in Hrun. destruct (OpenFGA.CheckRelation t trace ctx (w_fga w1)) as [f o] eqn:Hc.
  destruct (wp_elim _ _ _ _ _ (CheckRelation_wp t trace ctx (w_fga w1)) Hc) as (HT & _ & Hb).
  destruct o as [b'|e|s|]; try done. injection Hrun as <- <-. unfold w_tuples at 1. simpl.
  change (srv_tuples (w_fga w1)) with (w_tuples w1) in *. rewrite HT1 in *.
  split_and!; [done|done|]. exists t, ctx. split_and!; auto.
Qed.

(** *** Batched checks *)

Definition itoa (k : nat) : string := pretty (Z.of_nat k).

Lemma itoa_inj k k' : itoa k = itoa k' -> k = k'.
Proof. unfold itoa. intros Hk. apply (inj pretty) in Hk. lia. Qed.

(** The results after storing the answers of the checks. *)
Lemma storeResults_lookup idx f parsed results k :
  NoDup (CorrelationId <$> parsed) ->
  (forall c, c ∈ parsed -> exists n, CorrelationId c = itoa n /\ idx !! itoa n = Some n) ->
  storeResults idx f parsed results !! k =
  (if decide (itoa k ∈ (CorrelationId <$> parsed)) then f (itoa k) else fun r => r) <$> results !! k.
Proof.
  unfold storeResults. revert results. induction parsed as [|c parsed IH]; intros results Hnd Hid.
  - cbn [foldl]. rewrite decide_False by (apply not_elem_of_nil). by destruct (results !! k).
  - cbn [foldl]. destruct (Hid c) as (n & Hn & Hidx); [set_solver|]. cbn in Hnd.
    apply NoDup_cons in Hnd as [Hc Hnd]. rewrite IH; [|done|set_solver]. rewrite Hn, Hidx. simpl.
    destruct (decide (k = n)) as [->|Hne].
    + rewrite list_lookup_alter_eq, decide_False by (by rewrite <- Hn).
      rewrite decide_True by (rewrite Hn; set_solver). by destruct (results !! n).
    + rewrite list_lookup_alter_ne by done.
      assert (itoa k <> itoa n) by (intros Hk; by apply itoa_inj in Hk).
      destruct (decide (itoa k ∈ (CorrelationId <$> parsed))) as [Hin|Hin].
      * by rewrite decide_True by set_solver.
      * rewrite decide_False; [done|]. rewrite Hn. set_solver.
Qed.

Lemma storeResults_length idx f parsed results : length (storeResults idx f parsed results) = length results.
Proof.
  unfold storeResults. revert results. induction parsed as [|c parsed IH]; intros results; [done|].
  cbn [foldl]. by rewrite IH, length_alter.
Qed.

(** The state of the first loop after [i] tuples: each has an error in its
    result or is one of the checks. *)
Definition collected (good : nat -> Tuple -> Prop) (ctx : list Tuple) (n i : nat) (results : list CheckResult)
    (parsed : list TupleWithCorrelationId) (idx : gmap string nat) : Prop :=
  length results = n /\ NoDup (CorrelationId <$> parsed) /\
  (forall k, (k < n)%nat -> results !! k = Some (MkResult false None) \/
     (k < i)%nat /\ (itoa k ∉ (CorrelationId <$> parsed)) /\ exists e, results !! k = Some (MkResult false (Some e))) /\
  (forall c, c ∈ parsed -> exists k, (k < i)%nat /\ CorrelationId c = itoa k /\ idx !! itoa k = Some k /\
     ContextualTuples_of c = ctx /\ good k (twc_Tuple c)) /\
  (forall k, (k < i)%nat -> results !! k = Some (MkResult false None) -> itoa k ∈ (CorrelationId <$> parsed)).

(** The check of the [k]th tuple is one that the caller may make. *)
Definition good_check (X : gset Tuple) user (all : list RelationshipTuple) (k : nat) (t : Tuple) : Prop :=
  exists rt, all !! k = Some rt /\ Relation t = rt_Relation rt /\
    (userCheckingSelf user t = true \/ may_manage X user t).

Lemma collected_error good ctx n i results parsed idx e :
  (i < n)%nat -> itoa i ∉ (CorrelationId <$> parsed) ->
  collected good ctx n i results parsed idx ->
  collected good ctx n (S i) (<[i := MkResult false (Some e)]> results) parsed idx.
Proof.
  intros Hlt Hfresh (Hlen & Hnd & Hres & Hchk & Hcov). split_and!; [by rewrite length_insert|done| | |].
  - intros k Hk. destruct (decide (k = i)) as [->|Hne].
    + right. rewrite list_lookup_insert_eq by lia. split_and!; [lia|done|by eexists].
    + rewrite list_lookup_insert_ne by done. destruct (Hres k Hk) as [?|(? & ?)]; [by left|right]. split; [lia|done].
  - intros c Hc. destruct (Hchk c Hc) as (k & Hk & ?). exists k. split; [lia|done].
  - intros k Hk Hr. destruct (decide (k = i)) as [->|Hne].
    + by rewrite list_lookup_insert_eq in Hr by lia.
    + rewrite list_lookup_insert_ne in Hr by done. apply Hcov; [lia|done].
Qed.

Lemma collected_check (good : nat -> Tuple -> Prop) ctx n i results parsed idx t :
  (i < n)%nat -> itoa i ∉ (CorrelationId <$> parsed) -> good i t ->
  collected good ctx n i results parsed idx ->
  collected good ctx n (S i) results (parsed ++ [MkTWC t (itoa i) ctx]) (<[itoa i := i]> idx).
Proof.
  intros Hlt Hfresh Hgood (Hlen & Hnd & Hres & Hchk & Hcov). unfold collected. rewrite fmap_app. split_and!; [done| | | |].
  - apply NoDup_app. split_and!; [done| |by apply NoDup_singleton]. simpl. set_solver.
  - intros k Hk. destruct (Hres k Hk) as [?|(Hki & Hno & He)]; [by left|right].
    split_and!; [lia| |done]. rewrite not_elem_of_app. split; [done|]. simpl.
    rewrite list_elem_of_singleton. intros Heq%itoa_inj. lia.
  - intros c [Hc|Hc]%elem_of_app.
    + destruct (Hchk c Hc) as (k & Hk & Hid & Hidx & Hctx & Hg). exists k. split_and!; try done; [lia|].
      rewrite lookup_insert_ne; [done|]. intros Heq%itoa_inj. lia.
    + apply list_elem_of_singleton in Hc as ->. exists i. rewrite lookup_insert_eq. by split_and!; [lia|..].
  - intros k Hk Hr. rewrite elem_of_app. destruct (decide (k = i)) as [->|Hne]; [right; simpl; set_solver|].
    left. apply Hcov; [lia|done].
Qed.

Lemma collectRelationChecks_wp j user ctx X all tuples i results parsed idx w :
  w_tuples w = X -> drop i all = tuples -> (i <= length all)%nat ->
  collected (good_check X user all) ctx (length all) i results parsed idx ->
  wp (collectRelationChecks j user ctx i tuples results parsed idx)
     (keeps w (fun '(results, parsed, idx) =>
        collected (good_check X user all) ctx (length all) (length all) results parsed idx)) w.
Proof.
  revert i results parsed idx w.
  induction tuples as [|rt tuples IH]; intros i results parsed idx w HX Hdrop Hi Hinv.
  - apply keeps_ret. enough (i = length all) by (by subst i).
    apply (f_equal length) in Hdrop. rewrite length_drop in Hdrop. simpl in Hdrop. lia.
  - cbn [collectRelationChecks].
    assert (all !! i = Some rt) as Hrt.
    { pose proof (lookup_drop all i 0) as Hl. rewrite Hdrop, Nat.add_0_r in Hl. done. }
    assert (i < length all)%nat as Hlt by (by eapply lookup_lt_Some).
    assert (drop (S i) all = tuples) as Hdrop' by (rewrite <- Nat.add_1_r, <- drop_drop, Hdrop; done).
    assert (itoa i ∉ (CorrelationId <$> parsed)) as Hfresh.
    { intros (c & Hc & Hin)%list_elem_of_fmap. destruct Hinv as (_ & _ & _ & Hchk & _).
      destruct (Hchk c Hin) as (k & Hk & Hc' & _). assert (i = k) by (apply itoa_inj; congruence). lia. }
    eapply (keeps_bind _ _ (fun res => match res with inl t => good_check X user all i t | inr _ => True end)).
    { apply wp_try. eapply wp_mono; [apply keeps_authorized_check|]. intros o w1 (HT & Ht & Ha & HP).
      split_and!; [done|done|by destruct o|]. intros r Hr. destruct o; simplify_eq/=; [|done].
      exists rt. split; [done|]. by apply HP. }
    intros res w1 Hgood HT1 _. destruct res as [t|err]; (apply IH; [congruence|done|lia|]).
    + by apply collected_check.
    + by apply collected_error.
Qed.

(** What one result says. *)
Definition result_ok (X : gset Tuple) user tuples (k : nat) (r : CheckResult) : Prop :=
  match cr_Error r with
  | Some _ => Allowed r = false
  | None => exists t ctx, good_check X user tuples k t /\ ContextualTuples user = Ok ctx /\
              check_answer X t ctx (Allowed r)
  end.

(** Results that are stored after the loop: for each check a failure, or the
    answer of the authorisation model. *)
Lemma stored_ok X user tuples ctx n res parsed idx f k r :
  collected (good_check X user tuples) ctx n n res parsed idx ->
  ((0 < n)%nat -> ContextualTuples user = Ok ctx) ->
  (forall c, c ∈ parsed -> exists b e, f (CorrelationId c) (MkResult false None) = MkResult b e /\
     match e with Some _ => b = false | None => check_answer X (twc_Tuple c) (ContextualTuples_of c) b end) ->
  storeResults idx f parsed res !! k = Some r -> result_ok X user tuples k r.
Proof.
  intros (Hlen & Hnd & Hres & Hchk & Hcov) Hctx Hf Hk.
  rewrite storeResults_lookup in Hk; [|done|].
  2: { intros c Hc. destruct (Hchk c Hc) as (m & _ & ? & ? & _). by exists m. }
  destruct (res !! k) as [r0|] eqn:Hr0; [|done]. simpl in Hk.
  assert (k < n)%nat as Hkn by (rewrite <- Hlen; by eapply lookup_lt_Some).
  destruct (Hres k Hkn) as [Hr|(_ & Hno & e & Hr)]; rewrite Hr0 in Hr; injection Hr as ->.
  - pose proof (Hcov k Hkn Hr0) as Hin. rewrite decide_True in Hk by done.
    apply list_elem_of_fmap in Hin as (c & Hid & Hc). destruct (Hchk c Hc) as (k' & _ & Hid' & _ & Hcc & Hg).
    assert (k' = k) as -> by (apply itoa_inj; congruence). destruct (Hf c Hc) as (b & e & Hfc & Hbe).
    rewrite Hid, Hfc in Hk. injection Hk as <-. unfold result_ok. simpl. destruct e; [done|].
    exists (twc_Tuple c), ctx. rewrite Hcc in Hbe. split_and!; [done|apply Hctx; lia|done].
  - rewrite decide_False in Hk by done. by injection Hk as <-.
Qed.

(** [CheckRelations] answers each tuple by itself: a tuple that could not
    be parsed or that the caller may not inspect keeps its error and is not
    allowed; every other result is the answer of the authorisation model to
    that tuple, with the groups of the caller's session, unless the batch
    failed.  Nothing is changed. *)
Theorem CheckRelations_sound j user tuples w w' results :
  CheckRelations j user tuples w = (w', Ok results) ->
  w_tuples w' = w_tuples w /\ tables (w_db w') = tables (w_db w) /\ length results = length tuples /\
  forall k r, results !! k = Some r -> result_ok (w_tuples w) user tuples k r.
Proof.
  enough (wp (CheckRelations j user tuples) (keeps w (fun results => length results = length tuples /\
    forall k r, results !! k = Some r -> result_ok (w_tuples w) user tuples k r)) w) as Hwp.
  { intros Hrun. destruct (wp_elim _ _ _ _ _ Hwp Hrun) as (HT & Ht & _ & HP). by destruct (HP _ eq_refl). }
  unfold CheckRelations. cbn zeta.
  eapply (keeps_bind _ _ (fun ctx => (0 < length tuples)%nat -> ContextualTuples user = Ok ctx)).
  { case_decide; [|by apply keeps_ret]. apply keeps_lift; [apply ContextualTuples_answered|auto]. }
  intros ctx w1 Hctx HT1 _. eapply keeps_bind.
  { apply (collectRelationChecks_wp j user ctx (w_tuples w) tuples tuples 0); [done|done|lia|].
    split_and!; [by rewrite length_replicate|constructor| |set_solver|lia].
    intros k Hk. left. by apply lookup_replicate. }
  intros [[res parsed] idx] w2 Hcol HT2 _.
  assert (forall f, (forall c, c ∈ parsed -> exists b e, f (CorrelationId c) (MkResult false None) = MkResult b e /\
     match e with Some _ => b = false
     | None => check_answer (w_tuples w) (twc_Tuple c) (ContextualTuples_of c) b end) ->
     length (storeResults idx f parsed res) = length tuples /\
     forall k r, storeResults idx f parsed res !! k = Some r -> result_ok (w_tuples w) user tuples k r) as Hst.
  { intros f Hf. split; [rewrite storeResults_length; apply Hcol|]. intros k r. by eapply stored_ok. }
  destruct (decide (length parsed = 0%nat)) as [Hz|_].
  { apply keeps_ret. apply nil_length_inv in Hz as ->. apply (Hst (fun _ r => r)). set_solver. }
  eapply (keeps_bind _ _ (fun res => forall m, res = inl m -> forall c, c ∈ parsed ->
    exists b, m !! CorrelationId c = Some b /\ check_answer (w_tuples w) (twc_Tuple c) (ContextualTuples_of c) b)).
  { apply wp_try, wp_fga. eapply wp_mono; [apply BatchCheckRelations_wp, Hcol|].
    intros o f (HT & Ha & Hm). split_and!; [done|done|by destruct o|]. intros r Hr m ->.
    destruct o as [m'| | |]; simplify_eq. change (srv_tuples (w_fga w2)) with (w_tuples w2) in Hm.
    rewrite HT2, HT1 in Hm. by apply Hm. }
  intros [m|err] w3 Hans _ _; apply keeps_ret, Hst; intros c Hc.
  - destruct (Hans m eq_refl c Hc) as (b & Hb & Hck). exists b, None. by rewrite Hb.
  - by exists false, (Some (openFGAFailed err)).
Qed.

(** *** Pages of an object's relations *)

Lemma mapM_adaptor_length l l' : mapM publicAccessAdaptor l = Ok l' -> length l' = length l.
Proof.
  revert l'. induction l as [|t l IH]; intros l' Hm.
  - cbn in Hm. by apply (inj Ok) in Hm as <-.
  - cbn [mapM] in Hm. destruct (publicAccessAdaptor t) as [t'| | |]; try done. cbn in Hm.
    destruct (mapM publicAccessAdaptor l) as [k| | |]; try done. apply (inj Ok) in Hm as <-.
    simpl. by rewrite (IH k).
Qed.

Lemma keeps_ReadRelatedObjects flt ps tok w :
  wp (fga (ReadRelatedObjects flt ps tok)) (keeps w (fun '(l, ct) => ct <> "" -> length l = page_limit ps)) w.
Proof.
  apply wp_fga. unfold ReadRelatedObjects, getRelatedObjects. apply wp_bind. eapply wp_mono; [apply law_find|].
  intros o f (HT & Ha & Hp). destruct o as [[l ct]| | |]; simpl; [|by split_and!..].
  apply wp_bind. wp_value. pose proof (mapM_adaptor_answered l) as Hm.
  destruct (mapM publicAccessAdaptor l) as [l'| | |] eqn:Hl; simpl; [|by split_and!..].
  wp_value. split_and!; [done..|]. intros r Hr. apply (inj Ok) in Hr as <-. intros Hct.
  rewrite length_fmap, (mapM_adaptor_length _ _ Hl). destruct Hp as (_ & _ & _ & Hfull). auto.
Qed.

Lemma int32_id z : (- 2 ^ 31 <= z < 2 ^ 31)%Z -> int32 z = z.
Proof. intros Hz. unfold int32. rewrite Z.mod_small by lia. lia. Qed.

Lemma DecodeEntitlementToken_answered t : answered (DecodeEntitlementToken t).
Proof.
  unfold DecodeEntitlementToken. case_decide; [done|]. unfold UnmarshalToken, b64_decode.
  destruct (b64_quads _); simpl; [|done]. unfold json_Unmarshal.
  destruct (parse_json _) as [[]|]; simpl; try done. by destruct (foldl _ _ _) as [? []].
Qed.

Lemma NextEntitlementToken_answered k t : answered (NextEntitlementToken k t).
Proof. unfold NextEntitlementToken, MarshalToken. repeat (case_match; simpl; try done). Qed.

(** A full page ends the loop, and an exhausted kind moves on in the list of
    kinds: the loop runs once per kind at most. *)
Lemma getObjectRelationsPage_loop_wp fuel i j object relation ps token acc w :
  (0 <= ps < 2 ^ 31)%Z -> (7 - i < fuel)%nat ->
  (forall tok kind, DecodeEntitlementToken token = Ok (tok, kind) ->
     forall i', entitlementResources !! i' = Some kind -> (i <= i')%nat) ->
  wp (getObjectRelationsPage_loop fuel j object relation ps token acc) (keeps w (fun _ => True)) w.
Proof.
  revert i ps token acc w. induction fuel as [|fuel IH]; intros i ps token acc w Hps Hf Hdec; [lia|].
  cbn [getObjectRelationsPage_loop].
  eapply (keeps_bind _ _ (fun r => DecodeEntitlementToken token = Ok r)).
  { apply keeps_lift; [apply DecodeEntitlementToken_answered|done]. }
  intros [tok kind] w1 Hd _ _. eapply keeps_bind; [apply keeps_parse|]. intros g w2 _ _ _.
  eapply keeps_bind; [apply keeps_ReadRelatedObjects|]. intros [l ct] w3 Hlen _ _. cbn zeta.
  eapply (keeps_bind _ _ (fun n => NextEntitlementToken kind ct = Ok n)).
  { apply keeps_lift; [apply NextEntitlementToken_answered|done]. }
  intros next w4 Hnext _ _. destruct (decide _) as [|Hgo]; [by apply keeps_ret|].
  destruct (decide (ct = "")) as [->|Hct].
  - assert (is_Some (index_of kind entitlementResources)) as [i' Hix].
    { unfold NextEntitlementToken in Hnext. rewrite decide_True in Hnext by done.
      destruct (index_of kind entitlementResources); [by eexists|done]. }
    apply index_of_lookup in Hix. pose proof (Hdec _ _ Hd _ Hix) as Hle.
    assert (i' < 7)%nat by (apply lookup_lt_Some in Hix; exact Hix).
    apply (IH (S i)); [|lia|].
    + assert (forall z, (- 2 ^ 31 <= int32 z < 2 ^ 31)%Z) as Hb.
      { intros z. unfold int32. pose proof (Z.mod_pos_bound (z + 2 ^ 31) (2 ^ 32)). lia. }
      specialize (Hb (ps - int32 (Z.of_nat (length l)))%Z). lia.
    + intros tok' kind' Hd' i'' Hi''.
      destruct (NextEntitlementToken_spec kind "" i' Hix eq_refl) as (t & Ht & Hspec).
      assert (t = next) as -> by (apply (inj Ok); congruence).
      destruct (decide ("" = "" /\ i' = 6%nat)); [subst; tauto|].
      destruct Hspec as (_ & kind2 & Hd2 & Hk2). rewrite decide_True in Hk2 by done.
      assert (kind2 = kind') as -> by congruence.
      assert (i'' = S i'); [|lia]. eapply NoDup_lookup; [|exact Hi''|exact Hk2].
      by apply (bool_decide_unpack _).
  - exfalso. specialize (Hlen Hct). unfold page_limit in Hlen. apply Hgo. left.
    destruct (ps <=? 0)%Z eqn:Hz; rewrite Hlen.
    + apply Z.leb_le in Hz. rewrite (int32_id (Z.of_nat _)), int32_id by lia. lia.
    + apply Z.leb_gt in Hz. rewrite (int32_id (Z.of_nat _)), int32_id by lia. lia.
Qed.

(** C40.  Reading a page of an object's relations ends: whatever token the
    client sends, the loop over the resource kinds runs at most eight times,
    and it only reads. *)
Theorem getObjectRelationsPage_terminates j object relation ps token w w' o :
  (0 <= ps < 2 ^ 31)%Z -> getObjectRelationsPage 8 j object relation ps token w = (w', o) ->
  o <> OutOfFuel /\ w_tuples w' = w_tuples w /\ tables (w_db w') = tables (w_db w).
Proof.
  intros Hps Hrun.
  enough (wp (getObjectRelationsPage 8 j object relation ps token) (keeps w (fun _ => True)) w) as Hwp
    by (destruct (wp_elim _ _ _ _ _ Hwp Hrun) as (? & ? & ? & _); done).
  unfold getObjectRelationsPage. eapply keeps_bind; [apply keeps_parse|]. intros e w1 _ _ _.
  apply (getObjectRelationsPage_loop_wp 8 0); [done|lia|lia].
Qed.


(** *** Public access *)

Lemma everyone_resolves j (d : Db T) :
  uuid_Parse EveryoneUser = false -> IsValidUser EveryoneUser = true -> UserTagId EveryoneUser = EveryoneUser ->
  parseAndValidateTag j "user-everyone@external" d = (d, Ok (MkEntity UserTagKind "*" "")).
Proof.
  intros Hu Hv Hid.
  change "user-everyone@external" with (UserTagKind +:+ String "-"%char (EveryoneUser +:+ rel_suffix "")).
  rewrite parse_of_tag; [|done|done|done|split; [done|set_solver]]. rewrite Hu.
  change (resolve_kind j UserTagKind ?t) with (lift (W := Db T) (userTag t)).
  unfold map_err, userTag, lift. cbn -[entityOf EveryoneUser]. rewrite Hv. unfold NewUserTag. by rewrite Hv, Hid.
Qed.

(** A relation check about the public user makes the server panic: the
    tag user-everyone@external resolves to the wildcard, which is then used as
    a user name. *)
Theorem CheckRelation_everyone_panics j user rel target trace w d g :
  JimmAdmin user = true -> u_Name user <> "*" -> ParseRelation rel = Ok rel -> target <> "" ->
  uuid_Parse EveryoneUser = false -> IsValidUser EveryoneUser = true ->
  UserTagId EveryoneUser = EveryoneUser -> IsValidUser "*" = false ->
  parseAndValidateTag j target (w_db w) = (d, Ok g) ->
  exists w' msg, CheckRelation j user (MkRelTuple "user-everyone@external" rel target) trace w = (w', Panic msg).
Proof.
  intros Hadm Hname Hrel Htarget Hu Hv Hid Hstar Hg.
  unfold CheckRelation, parseAndAuthorizeRelationCheck, parseTuple, mbind, M_bind, map_err, lift.
  cbn [rt_Relation rt_TargetObject rt_Object]. rewrite Hrel, decide_False by done.
  unfold db, zoom. rewrite Hg. cbn [w_db]. rewrite decide_True by done. rewrite everyone_resolves by done.
  unfold mret, M_ret. unfold userCheckingSelf. cbn [Object EKind EID].
  rewrite (bool_decide_eq_false_2 ("*" = u_Name user)) by congruence. rewrite andb_false_r.
  unfold authorizeRelationTargetAdmin. rewrite Hadm. unfold mret, M_ret. unfold sessionTuples. cbn [Object EKind EID].
  rewrite decide_True by done. unfold NewUserTag. rewrite Hstar. by do 2 eexists.
Qed.

End properties.

End Rel.
