(* ===== verification/Managers.v ===== *)
(** * Managers: groups, roles and identities ([internal/jimm/group],
    [internal/jimm/role], [internal/jimm/identity]).

    The managers combine the database and the authorisation service: a group
    or a role is a row and the tuples that mention it.  Every operation first
    asks whether the caller is a JIMM administrator. *)

From S2P Require Import Prelude Errors Regexp Names AuthModel RefServer OpenFGA Dbmodel Users Database Encoding Pagination TagResolver Access.

(** The test at the start of the operations. *)
Definition admin_only {W A} (user : User) (m : M W A) : M W A :=
  if negb (JimmAdmin user) then throw Unauthorized else m.

(** A constructor with two pointers that must be set. *)
Definition NewStoreManager (what : string) (store authSvc : bool) : outcome unit :=
  if negb store then Err (New (what +:+ " store cannot be nil"))
  else if negb authSvc then Err (New (what +:+ " authorisation service cannot be nil"))
  else Ok tt.

Module GroupManager.
Section group.
Context {F : Type} `{OFGAServer F} {T : Type -> Type} `{Gorm T} `{UUIDs}.

Definition NewGroupManager := NewStoreManager "group".

Definition AddGroup (user : User) (name : string) : M (World F T) GroupEntry :=
  admin_only user (db (Database.AddGroup name)).
Definition CountGroups (user : User) : M (World F T) Z := admin_only user (db Database.CountGroups).
Definition getGroup (user : User) (group : GroupEntry) : M (World F T) GroupEntry :=
  admin_only user (db (GetGroup group)).
Definition GetGroupByUUID (user : User) (uuid : string) := getGroup user (MkGroup 0 0 0 "" uuid).
Definition GetGroupByName (user : User) (name : string) := getGroup user (MkGroup 0 0 0 name "").

(** The body runs on the transaction's handle. *)
Definition RenameGroup (user : User) (oldName newName : string) : M (World F T) unit :=
  admin_only user (db (Transaction (
    group ← GetGroup (MkGroup 0 0 0 oldName "");
    UpdateGroupName (g_UUID group) newName))).

(** The body of the transaction uses the store and not the transaction's
    handle: its statements are committed one by one. *)
Definition RemoveGroup (fuel : nat) (user : User) (name : string) : M (World F T) unit :=
  admin_only user (
    _ ← db ready;
    group ← db (GetGroup (MkGroup 0 0 0 name ""));
    _ ← db (db_RemoveGroup group);
    tag ← lift (Group_ResourceTag group);
    fga (OpenFGA.RemoveGroup fuel tag)).

Definition ListGroups (user : User) (p : LimitOffsetPagination) (match_ : string)
    : M (World F T) (list GroupEntry) :=
  admin_only user (db (Database.ListGroups (Limit p) (Offset p) match_)).
End group.
End GroupManager.

Module RoleManager.
Section role.
Context {F : Type} `{OFGAServer F} {T : Type -> Type} `{Gorm T} `{UUIDs}.

Definition NewRoleManager := NewStoreManager "role".

Definition AddRole (user : User) (roleName : string) : M (World F T) RoleEntry :=
  admin_only user (db (Database.AddRole roleName)).
Definition getRole (user : User) (role : RoleEntry) : M (World F T) RoleEntry :=
  admin_only user (db (GetRole role)).
Definition GetRoleByUUID (user : User) (uuid : string) := getRole user (MkRole 0 0 0 "" uuid).
Definition GetRoleByName (user : User) (name : string) := getRole user (MkRole 0 0 0 name "").

(** The tuples are removed before the row. *)
Definition RemoveRole (fuel : nat) (user : User) (roleName : string) : M (World F T) unit :=
  admin_only user (
    re ← db (GetRole (MkRole 0 0 0 roleName ""));
    tag ← lift (Role_ResourceTag re);
    _ ← fga (OpenFGA.RemoveRole fuel tag);
    db (db_RemoveRole re)).

Definition RenameRole (user : User) (oldName newName : string) : M (World F T) unit :=
  admin_only user (db (UpdateRoleName oldName newName)).
Definition ListRoles (user : User) (p : LimitOffsetPagination) (match_ : string)
    : M (World F T) (list RoleEntry) :=
  admin_only user (db (Database.ListRoles (Limit p) (Offset p) match_)).
Definition CountRoles (user : User) : M (World F T) Z := admin_only user (db Database.CountRoles).
End role.
End RoleManager.

Module IdentityManager.
Section identity.
Context {F : Type} {T : Type -> Type} `{Gorm T} `{Hash}.

Definition NewIdentityManager := NewStoreManager "identity".

Definition FetchIdentity (id : string) : M (World F T) User :=
  identity ← lift (NewIdentity id);
  row ← db (db_FetchIdentity identity);
  mret (NewUser row).

Definition ListIdentities (user : User) (p : LimitOffsetPagination) (match_ : string)
    : M (World F T) (list User) :=
  admin_only user (
    identities ← db (db_ListIdentities (Limit p) (Offset p) match_);
    mret (fmap (M:=list) NewUser identities)).

Definition CountIdentities (user : User) : M (World F T) Z := admin_only user (db db_CountIdentities).
End identity.
End IdentityManager.

(** ** Facts *)

Section facts.
Context {F : Type} `{OFGALaws F} {T : Type -> Type} `{GormLaws T} `{UUIDs}.
Implicit Types (w : World F T) (user : User).

Lemma admin_only_refused {A} user (m : M (World F T) A) w :
  JimmAdmin user = false -> admin_only user m w = (w, Err Unauthorized).
Proof. intros Hj. unfold admin_only. by rewrite Hj. Qed.

(** The group row of a name. *)
Lemma GetGroup_by_name name (d : Db T) :
  name <> "" ->
  wp (GetGroup (MkGroup 0 0 0 name "")) (fun o d' => answered o /\ tables d' = tables d /\
    forall g, o = Ok g -> g ∈ rows (db_groups d) /\ g_Name g = name) d.
Proof.
  intros Hn. eapply wp_mono; [apply GetGroup_wp|]. intros o d' (Ha & Ht & Hg). split_and!; [done|done|].
  intros g Ho. destruct (Hg g Ho) as [Hin Hw]. split; [done|]. unfold group_where in Hw. simpl in Hw.
  rewrite (bool_decide_eq_false_2 (name = "")) in Hw by done. simpl in Hw.
  by apply bool_decide_eq_true in Hw.
Qed.

(** The role row of a name. *)
Lemma GetRole_by_name name (d : Db T) :
  name <> "" ->
  wp (GetRole (MkRole 0 0 0 name "")) (fun o d' => answered o /\ tables d' = tables d /\
    forall g, o = Ok g -> g ∈ rows (db_roles d) /\ r_Name g = name) d.
Proof.
  intros Hn. eapply wp_mono; [apply GetRole_wp|]. intros o d' (Ha & Ht & Hg). split_and!; [done|done|].
  intros g Ho. destruct (Hg g Ho) as [Hin Hw]. split; [done|]. unfold role_where in Hw. simpl in Hw.
  rewrite (bool_decide_eq_false_2 (name = "")) in Hw by done. simpl in Hw.
  by apply bool_decide_eq_true in Hw.
Qed.

Lemma roles_of_tables (d d' : Db T) : tables d' = tables d -> rows (db_roles d') = rows (db_roles d).
Proof. unfold tables. congruence. Qed.

Lemma groups_of_tables (d d' : Db T) : tables d' = tables d -> rows (db_groups d') = rows (db_groups d).
Proof. unfold tables. congruence. Qed.

(** A name is the name of one row at most. *)
Lemma group_name_unique (d : Db T) g g' :
  db_ok d -> g ∈ rows (db_groups d) -> g' ∈ rows (db_groups d) -> g_Name g = g_Name g' -> g = g'.
Proof.
  intros [[_ Hu] _] Hg Hg' Hn. apply Hu; try done. simpl. apply orb_true_iff. left.
  by apply bool_decide_eq_true.
Qed.

Lemma db_RemoveGroup_keeps g (d : Db T) :
  wp (db_RemoveGroup g) (fun o d' => o <> Ok tt -> tables d' = tables d) d.
Proof.
  unfold db_RemoveGroup. case_decide; [by wp_value|]. apply wp_ready; [|done]. intros _ _.
  apply wp_map_err, wp_zoom. eapply wp_mono; [apply law_delete|]. intros o t [_ Ht] Hne.
  destruct o as [[]|e|s|]; simpl in *; try done; unfold tables; simpl; by rewrite Ht.
Qed.

End facts.

(** ** Properties *)

Section properties.
Context {F : Type} `{OFGALaws F} {T : Type -> Type} `{GormLaws T} `{UUIDs}.
Implicit Types (w : World F T) (user : User).

(** A caller that is not a JIMM administrator is refused by every
    operation on groups, roles and identities, and neither the database nor
    the authorisation service is touched. *)
Theorem managers_admin_only user w :
  JimmAdmin user = false ->
  (forall name, GroupManager.AddGroup user name w = (w, Err Unauthorized)) /\
  (forall group, GroupManager.getGroup user group w = (w, Err Unauthorized)) /\
  (forall a b, GroupManager.RenameGroup user a b w = (w, Err Unauthorized)) /\
  (forall fuel name, GroupManager.RemoveGroup fuel user name w = (w, Err Unauthorized)) /\
  (forall p m, GroupManager.ListGroups user p m w = (w, Err Unauthorized)) /\
  GroupManager.CountGroups user w = (w, Err Unauthorized) /\
  (forall name, RoleManager.AddRole user name w = (w, Err Unauthorized)) /\
  (forall role, RoleManager.getRole user role w = (w, Err Unauthorized)) /\
  (forall a b, RoleManager.RenameRole user a b w = (w, Err Unauthorized)) /\
  (forall fuel name, RoleManager.RemoveRole fuel user name w = (w, Err Unauthorized)) /\
  (forall p m, RoleManager.ListRoles user p m w = (w, Err Unauthorized)) /\
  RoleManager.CountRoles user w = (w, Err Unauthorized) /\
  (forall p m, IdentityManager.ListIdentities user p m w = (w, Err Unauthorized)) /\
  IdentityManager.CountIdentities user w = (w, Err Unauthorized) /\
  ErrorCode Unauthorized = CodeUnauthorized.
Proof. intros Hj. split_and!; intros; (by apply admin_only_refused) || done. Qed.

(** [RenameGroup] is atomic: on success exactly the group of the old name
    carries the new one, with its identifiers and all other groups unchanged,
    and names stay unique; on failure the table is as before.  The
    authorisation service is not involved: grants follow the UUID. *)
Theorem RenameGroup_atomic user oldName newName w w' o :
  db_ok (w_db w) -> oldName <> "" ->
  GroupManager.RenameGroup user oldName newName w = (w', o) ->
  o <> OutOfFuel /\ w_fga w' = w_fga w /\ db_ok (w_db w') /\
  match o with
  | Ok _ => exists g now, g ∈ rows (db_groups (w_db w)) /\ g_Name g = oldName /\
      rows (db_groups (w_db w')) =
        (fun r => if bool_decide (g_UUID r = g_UUID g)
                  then MkGroup (g_ID r) (g_CreatedAt r) now newName (g_UUID r) else r)
        <$> rows (db_groups (w_db w))
  | _ => tables (w_db w') = tables (w_db w)
  end.
Proof.
  intros Hok Hn. revert w' o. apply wp_run. unfold GroupManager.RenameGroup, admin_only.
  destruct (JimmAdmin user); [|by wp_value]. simpl. apply Perm.wp_db. unfold Transaction.
  apply wp_ready; [|by intros e _]. intros _ _. apply wp_rollback, wp_bind.
  eapply wp_mono; [by apply GetGroup_by_name|]. intros o d1 (Ha & Ht & Hg).
  destruct o as [g|e|s|]; simpl; try by split_and!. destruct (Hg g eq_refl) as [Hin Hname].
  pose proof (groups_of_tables _ _ Ht) as Hrows. pose proof (tables_ok _ _ Ht Hok) as Hok1.
  eapply wp_mono; [apply UpdateGroupName_wp; apply Hok1|]. intros o d2 (Ha2 & Hr2 & Hi2 & Hu2 & Hren).
  destruct o as [[]|e|s|]; simpl; try by split_and!. destruct Hren as [[now Hrows2] _].
  split_and!; try done.
  - destruct Hok1 as (_ & ? & ?). split_and!; [done|by rewrite Hr2|by rewrite Hi2].
  - exists g, now. by rewrite Hrows2, Hrows.
Qed.

(** What [RemoveGroup] does: the row goes first, then the tuples. *)
Definition remove_group_post (name : string) w (o : outcome unit) (w' : World F T) : Prop :=
  (o <> Ok tt /\ w_fga w' = w_fga w /\ tables (w_db w') = tables (w_db w)) \/
  (exists g, g ∈ rows (db_groups (w_db w)) /\ g_Name g = name /\
     rows (db_groups (w_db w')) = filter (fun r => g_ID r <> g_ID g) (rows (db_groups (w_db w))) /\
     ((o <> Ok tt /\ w_fga w' = w_fga w) \/
      exists tag, Group_ResourceTag g = Ok tag /\
        let gone := removed_any (group_filters tag) (Perm.w_tuples w) in
        Perm.w_tuples w ∖ gone ⊆ Perm.w_tuples w' /\ Perm.w_tuples w' ⊆ Perm.w_tuples w /\
        (o = Ok tt -> Perm.w_tuples w' = Perm.w_tuples w ∖ gone))).

(** What [RemoveRole] does: the tuples go first, then the row. *)
Definition remove_role_post (name : string) w (o : outcome unit) (w' : World F T) : Prop :=
  (o <> Ok tt /\ w_fga w' = w_fga w /\ rows (db_roles (w_db w')) = rows (db_roles (w_db w))) \/
  (exists re tag, re ∈ rows (db_roles (w_db w)) /\ r_Name re = name /\ Role_ResourceTag re = Ok tag /\
     let gone := removed_any (role_filters tag) (Perm.w_tuples w) in
     Perm.w_tuples w ∖ gone ⊆ Perm.w_tuples w' /\ Perm.w_tuples w' ⊆ Perm.w_tuples w /\
     (o <> Ok tt -> rows (db_roles (w_db w')) = rows (db_roles (w_db w))) /\
     (o = Ok tt -> Perm.w_tuples w' = Perm.w_tuples w ∖ gone /\
        rows (db_roles (w_db w')) = filter (fun r => r_ID r <> r_ID re) (rows (db_roles (w_db w))))).

Lemma RemoveGroup_wp fuel user name w :
  name <> "" -> (size (Perm.w_tuples w) < fuel)%nat ->
  (forall flt, (size (public_matching flt (Perm.w_tuples w)) < 50)%nat) ->
  wp (GroupManager.RemoveGroup fuel user name) (fun o w' => answered o /\ remove_group_post name w o w') w.
Proof.
  intros Hn Hf Hpub. unfold GroupManager.RemoveGroup, admin_only.
  destruct (JimmAdmin user); simpl; [|wp_value; split; [done|by left]].
  apply wp_bind, Perm.wp_db. eapply wp_mono; [apply wp_reads_ready|]. intros o d0 [Ha0 Ht0].
  destruct o as [[]|e|s|]; simpl; [|split; [done|by left]..|done].
  apply wp_bind, Perm.wp_db. simpl. eapply wp_mono; [by apply GetGroup_by_name|]. intros o d1 (Ha & Ht1 & Hg).
  assert (tables d1 = tables (w_db w)) as Ht by congruence.
  destruct o as [g|e|s|]; simpl; [|split; [done|by left]..|done].
  destruct (Hg g eq_refl) as [Hin Hname]. rewrite (groups_of_tables _ _ Ht0) in Hin.
  apply wp_bind, Perm.wp_db. simpl. eapply wp_mono.
  { apply wp_and; [apply (db_RemoveGroup_wp g)|]. apply (db_RemoveGroup_keeps g). }
  intros o d2 [(Ha2 & _ & _ & Hrows) Hkeep]. rewrite (groups_of_tables _ _ Ht) in Hrows.
  destruct o as [[]|e|s|]; simpl; [|split; [done|left; split_and!; [done|done|etrans; [by apply Hkeep|done]]]..|done].
  apply wp_bind. wp_value. unfold Group_ResourceTag. pose proof (NewGroupTag_answered (g_UUID g)) as Hat.
  destruct (NewGroupTag (g_UUID g)) as [tag|e|s|] eqn:Htag; simpl;
    [|split; [done|right; exists g; split_and!; try done; by left]..|done].
  assert (Kind tag = GroupTagKind) as Hk.
  { unfold NewGroupTag in Htag. case_decide; [done|]. by apply (inj Ok) in Htag as <-. }
  apply Perm.wp_fga. simpl. eapply wp_mono; [apply (remove_userset_wp fuel tag MemberRelation); [by rewrite Hk|done|apply Hpub]|].
  intros o f (Ha3 & Hlo & Hhi & Hok). split; [done|right]. exists g. split_and!; try done. right.
  exists tag. by split_and!.
Qed.

(** [RemoveGroup] ends; a success removes exactly the row of the name and
    the tuples of the group (see [OpenFGA.RemoveGroup]); a failure changes
    nothing, or has removed the row while tuples of the group may be left. *)
Theorem RemoveGroup_effect fuel user name w w' o :
  name <> "" -> (size (Perm.w_tuples w) < fuel)%nat ->
  (forall flt, (size (public_matching flt (Perm.w_tuples w)) < 50)%nat) ->
  GroupManager.RemoveGroup fuel user name w = (w', o) ->
  o <> OutOfFuel /\ remove_group_post name w o w'.
Proof. intros Hn Hf Hp Hrun. exact (wp_elim _ _ _ _ _ (RemoveGroup_wp _ _ _ _ Hn Hf Hp) Hrun). Qed.

(** A removal that fails in the authorisation service cannot be repeated:
    the row is gone, so removing the group again fails before it reaches the
    tuples that were left. *)
Theorem RemoveGroup_not_repeatable fuel fuel' user name w w1 e w2 o2 :
  db_ok (w_db w) -> name <> "" -> (size (Perm.w_tuples w) < fuel)%nat ->
  (forall flt, (size (public_matching flt (Perm.w_tuples w)) < 50)%nat) ->
  GroupManager.RemoveGroup fuel user name w = (w1, Err e) -> tables (w_db w1) <> tables (w_db w) ->
  GroupManager.RemoveGroup fuel' user name w1 = (w2, o2) ->
  o2 <> Ok tt /\ Perm.w_tuples w2 = Perm.w_tuples w1.
Proof.
  intros Hok Hn Hf Hp H1st Hch.
  destruct (wp_elim _ _ _ _ _ (RemoveGroup_wp _ _ _ _ Hn Hf Hp) H1st) as [_ [(_ & _ & ?)|(g & Hin & Hname & Hrows & _)]];
    [done|]. clear H1st Hch. revert w2 o2. apply wp_run. unfold GroupManager.RemoveGroup, admin_only.
  destruct (JimmAdmin user); simpl; [|by wp_value].
  apply wp_bind, Perm.wp_db. eapply wp_mono; [apply wp_reads_ready|]. intros o d0 [Ha0 Ht0].
  destruct o as [[]|e'|s|]; simpl; [|done..].
  apply wp_bind, Perm.wp_db. simpl. eapply wp_mono; [by apply GetGroup_by_name|]. intros o d1 (Ha & Ht1 & Hg).
  destruct o as [g'|e'|s|]; simpl; [|done..]. exfalso. destruct (Hg g' eq_refl) as [Hin' Hname'].
  rewrite (groups_of_tables _ _ Ht0), Hrows in Hin'. apply list_elem_of_filter in Hin' as [Hid Hin'].
  apply Hid. f_equal. by apply (group_name_unique (w_db w)); try done; congruence.
Qed.

(** [RemoveRole] ends and removes the tuples first: whatever happens, the
    only tuples that go are those of the role of that name; a success has
    removed all of these and exactly the role's row; a failure leaves every
    role in place, so the call can be repeated. *)
Theorem RemoveRole_effect fuel user name w w' o :
  name <> "" -> (size (Perm.w_tuples w) < fuel)%nat ->
  (forall flt, (size (public_matching flt (Perm.w_tuples w)) < 50)%nat) ->
  RoleManager.RemoveRole fuel user name w = (w', o) ->
  o <> OutOfFuel /\ remove_role_post name w o w'.
Proof.
  intros Hn Hf Hpub. revert w' o. apply wp_run. unfold RoleManager.RemoveRole, admin_only.
  destruct (JimmAdmin user); simpl; [|wp_value; split; [done|by left]].
  apply wp_bind, Perm.wp_db. eapply wp_mono; [by apply GetRole_by_name|]. intros o d1 (Ha & Ht & Hg).
  pose proof (roles_of_tables _ _ Ht) as Hrows.
  destruct o as [re|e|s|]; simpl; [|split; [done|by left]..|done].
  destruct (Hg re eq_refl) as [Hin Hname].
  apply wp_bind. wp_value. unfold Role_ResourceTag. pose proof (NewRoleTag_answered (r_UUID re)) as Hat.
  destruct (NewRoleTag (r_UUID re)) as [tag|e|s|] eqn:Htag; simpl; [|split; [done|by left]..|done].
  assert (Kind tag = RoleTagKind) as Hk.
  { unfold NewRoleTag in Htag. case_decide; [done|]. by apply (inj Ok) in Htag as <-. }
  apply wp_bind, Perm.wp_fga. simpl.
  eapply wp_mono; [apply (remove_userset_wp fuel tag AssigneeRelation); [by rewrite Hk|done|apply Hpub]|].
  intros o f (Ha3 & Hlo & Hhi & Hok).
  destruct o as [[]|e|s|]; simpl; [|split; [done|right; exists re, tag; by split_and!]..|done].
  apply Perm.wp_db. simpl. eapply wp_mono; [apply (db_RemoveRole_wp re)|]. intros o d2 (Ha2 & _ & _ & Hr2).
  split; [by destruct o|right]. exists re, tag. rewrite Hrows in Hr2. do 3 (split; [done|]).
  intros gone. split_and!; [done|done|intros Hne; simpl; by destruct o as [[]|e|s|]|].
  intros ->. split; [by apply Hok|done].
Qed.

End properties.
