(* ===== verification/JujuDb.v ===== *)
(** * JujuDb: the tables of models, offers and credentials
    ([internal/db/model.go], [applicationoffer.go], [cloudcredential.go]).

    The operations that the Juju manager uses, with the associations that a
    lookup preloads and the cascades of the schema in [internal/dbmodel/sql]:
    deleting a model deletes its offers, user mappings and SSH keys.  The times of these
    rows are not kept; nothing reads them.  The lemmas say what each operation
    does to the tables, on success and on failure. *)

From S2P Require Import Prelude Errors Regexp Names AuthModel RefServer OpenFGA Dbmodel Users Database TagResolver.

(** ** Rows *)

Definition model_with_ID (i : Z) (m : Model) : Model :=
  MkModel i (m_Name m) (m_UUID m) (m_OwnerIdentityName m) (m_ControllerID m) (m_CloudRegionID m)
    (m_CloudCredentialID m) (m_Life m) (m_MigrationMode m).
#[export] Instance Model_row : Row Model := {|
  row_id := m_ID;
  row_created i _ := model_with_ID i;
  row_touched _ m := m;
  row_conflict a b := bool_decide (m_OwnerIdentityName a = m_OwnerIdentityName b /\ m_Name a = m_Name b) ||
                      bool_decide (is_Some (m_UUID a) /\ m_UUID a = m_UUID b);
|}.
#[export] Instance ApplicationOffer_row : Row ApplicationOffer := {|
  row_id := ao_ID;
  row_created i _ o := MkOffer i (ao_ModelID o) (ao_Name o) (ao_UUID o) (ao_URL o);
  row_touched _ o := o;
  row_conflict a b := bool_decide (ao_UUID a = ao_UUID b) || bool_decide (ao_URL a = ao_URL b);
|}.
Definition controller_with_ID (i : Z) (c : Controller) : Controller :=
  MkController i (c_Name c) (c_UUID c) (c_AgentVersion c) (c_CACertificate c) (c_PublicAddress c) (c_TLSHostname c)
    (c_CloudName c) (c_CloudRegion c) (c_Deprecated c) (c_Addresses c) (c_UnavailableSince c).
#[export] Instance Controller_row : Row Controller := {|
  row_id := c_ID;
  row_created i _ := controller_with_ID i;
  row_touched _ c := c;
  row_conflict a b := bool_decide (c_Name a = c_Name b);
|}.
#[export] Instance CloudCredential_row : Row CloudCredential := {|
  row_id := cc_ID;
  row_created i _ c := MkCredential i (cc_Name c) (cc_CloudName c) (cc_OwnerIdentityName c) (cc_AuthType c) (cc_Valid c);
  row_touched _ c := c;
  row_conflict a b := bool_decide (cc_CloudName a = cc_CloudName b /\ cc_OwnerIdentityName a = cc_OwnerIdentityName b /\
                                   cc_Name a = cc_Name b);
|}.

Definition cloud_with_ID (i : Z) (c : Cloud) : Cloud :=
  MkCloud i (cl_Name c) (cl_Type c) (cl_HostCloudRegion c) (cl_AuthTypes c) (cl_Endpoints c) (cl_CACertificates c)
    (cl_SkipTLSVerify c) (cl_Config c).
#[export] Instance Cloud_row : Row Cloud := {|
  row_id := cl_ID;
  row_created i _ := cloud_with_ID i;
  row_touched _ c := c;
  row_conflict a b := bool_decide (cl_Name a = cl_Name b);
|}.
#[export] Instance CloudRegion_row : Row CloudRegion := {|
  row_id := reg_ID;
  row_created i _ r := MkRegion i (reg_CloudName r) (reg_Name r) (reg_Endpoints r) (reg_Config r) (reg_Virtual r);
  row_touched _ r := r;
  row_conflict a b := bool_decide (reg_CloudName a = reg_CloudName b /\ reg_Name a = reg_Name b);
|}.
#[export] Instance Priority_row : Row CloudRegionControllerPriority := {|
  row_id := crp_ID;
  row_created i _ p := MkPriority i (crp_CloudRegionID p) (crp_ControllerID p) (crp_Priority p);
  row_touched _ p := p;
  row_conflict _ _ := false;
|}.
#[export] Instance CloudDefaults_row : Row CloudDefaults := {|
  row_id := cd_ID;
  row_created i _ c := MkDefaults i (cd_IdentityName c) (cd_CloudID c) (cd_Region c) (cd_Defaults c);
  row_touched _ c := c;
  row_conflict a b := bool_decide (cd_IdentityName a = cd_IdentityName b /\ cd_CloudID a = cd_CloudID b /\ cd_Region a = cd_Region b);
|}.
#[export] Instance SSHKey_row : Row SSHKey := {|
  row_id := sk_ID;
  row_created i _ k := MkSSHKey i (sk_IdentityName k) (sk_ModelUUID k) (sk_PublicKey k) (sk_MD5Fingerprint k) (sk_KeyComment k);
  row_touched _ k := k;
  row_conflict a b := bool_decide (sk_IdentityName a = sk_IdentityName b /\ sk_PublicKey a = sk_PublicKey b /\
                                   sk_ModelUUID a = sk_ModelUUID b);
|}.

(** A model with the associations that [preloadModel] loads. *)
Record LoadedModel := MkLoaded {
  lm_Model : Model;
  lm_Owner : Identity;
  lm_Controller : Controller;
  lm_Region : CloudRegion;
  lm_Cloud : Cloud;
  lm_Credential : CloudCredential;
}.
(** An offer with its model and the controller of that model. *)
Record LoadedOffer := MkLoadedOffer { lo_Offer : ApplicationOffer; lo_Model : Model; lo_Controller : Controller }.

Section db.
Context {T : Type -> Type} `{Gorm T}.

(** A [Find] without [Order]. *)
Definition find_all {R} (p : R -> bool) : M (T R) (list R) := gorm_find p (fun _ => "") None None.

(** [Preload] through a column that is not the key. *)
Definition preload_by {R} (table : M (T R) (list R) -> M (Db T) (list R)) (p : R -> bool) (zero : R) : M (Db T) R :=
  found ← table (find_all p);
  mret (hd zero found).

(** ** Models ([model.go]) *)

Definition preloadModel (m : Model) : M (Db T) LoadedModel :=
  owner ← preload_by identities_tbl (fun u => live u && bool_decide (i_Name u = m_OwnerIdentityName m)) zeroIdentity;
  controller ← preload controllers_tbl c_ID (m_ControllerID m) zeroController;
  region ← preload regions_tbl reg_ID (m_CloudRegionID m) zeroRegion;
  cloud ← preload_by clouds_tbl (fun c => bool_decide (cl_Name c = reg_CloudName region)) zeroCloud;
  credential ← preload credentials_tbl cc_ID (m_CloudCredentialID m) zeroCredential;
  mret (MkLoaded m owner controller region cloud credential).

Definition modelNotFound : gerror := Codef CodeNotFound "model not found" [].

Definition LoadModel (m : Model) : M (Db T) LoadedModel :=
  row ← GetModel m;
  map_err (notFoundError modelNotFound) (preloadModel row).

Definition db_AddModel (m : Model) : M (Db T) Model :=
  _ ← ready;
  map_err dbError (models_tbl (gorm_create m)).

(** [Save] creates a row when the model has no key. *)
Definition db_UpdateModel (m : Model) : M (Db T) Model :=
  _ ← ready;
  map_err dbError (models_tbl (gorm_save m)).

(** One statement: the rows of the models, and what refers to them. *)
Definition delete_models (p : Model -> bool) : M (Db T) unit :=
  rollback (
    gone ← models_tbl (find_all p);
    _ ← models_tbl (gorm_delete_where p);
    _ ← offers_tbl (gorm_delete_where (fun o => bool_decide (ao_ModelID o ∈ fmap (M:=list) m_ID gone)));
    _ ← mappings_tbl (gorm_delete_where (fun u => bool_decide (um_ModelUUID u <> None /\ um_ModelUUID u ∈ fmap (M:=list) m_UUID gone)));
    sshkeys_tbl (gorm_delete_where (fun k => bool_decide (Some (sk_ModelUUID k) ∈ fmap (M:=list) m_UUID gone)))).

Definition db_DeleteModel (m : Model) : M (Db T) unit :=
  _ ← ready;
  match m_UUID m with
  | Some uuid => map_err dbError (delete_models (fun r => by_key m_ID m r && bool_decide (m_UUID r = Some uuid)))
  | None =>
      if decide (m_ID m <> 0%Z)
      then map_err dbError (delete_models (fun r => by_key m_ID m r && bool_decide (m_ID r = m_ID m)))
      else throw (Codef CodeBadRequest "missing id or uuid" [])
  end.

(** The models that [ForEachModel] passes to its function. *)
Definition AllModels : M (Db T) (list LoadedModel) :=
  _ ← ready;
  map_err dbError (found ← models_tbl (find_all (fun _ => true)); map_range found preloadModel).

Definition GetModelsByUUID (modelUUIDs : list string) : M (Db T) (list LoadedModel) :=
  _ ← ready;
  map_err (fun err => let err := dbError err in
             if decide (ErrorCode err = CodeNotFound) then modelNotFound else dbError err)
    (found ← models_tbl (find_all (fun m => match m_UUID m with Some u => bool_decide (u ∈ modelUUIDs) | None => false end));
     map_range found preloadModel).

(** The models that use a credential, with their controllers. *)
Definition GetModelsUsingCredential (credentialID : Z) : M (Db T) (list (Model * Controller)) :=
  _ ← ready;
  map_err dbError (found ← models_tbl (find_all (fun m => bool_decide (m_CloudCredentialID m = credentialID)));
    map_range found (fun m => c ← preload controllers_tbl c_ID (m_ControllerID m) zeroController; mret (m, c))).

Definition GetModelsByController (ctl : Controller) : M (Db T) (list Model) :=
  _ ← ready;
  map_err dbError (models_tbl (find_all (fun m => bool_decide (m_ControllerID m = c_ID ctl)))).

Definition CountModelsByController (ctl : Controller) : M (Db T) Z :=
  _ ← ready;
  map_err dbError (models_tbl (gorm_count (fun m => bool_decide (m_ControllerID m = c_ID ctl)))).

(** ** Offers ([applicationoffer.go]) *)

Definition offerNotFound : gerror := Codef CodeNotFound "application offer not found" [].

Definition LoadOffer (o : ApplicationOffer) : M (Db T) LoadedOffer :=
  row ← GetApplicationOffer o;
  map_err (notFoundError offerNotFound)
    (model ← preload models_tbl m_ID (ao_ModelID row) zeroModel;
     controller ← preload controllers_tbl c_ID (m_ControllerID model) zeroController;
     mret (MkLoadedOffer row model controller)).

Definition AddApplicationOffer (o : ApplicationOffer) : M (Db T) ApplicationOffer :=
  _ ← ready;
  map_err dbError (offers_tbl (gorm_create o)).

Definition DeleteApplicationOffer (o : ApplicationOffer) : M (Db T) unit :=
  _ ← ready;
  map_err dbError (offers_tbl (gorm_delete o)).

(** ** Credentials ([cloudcredential.go], [identity.go]) *)

Definition Path (c : CloudCredential) : string :=
  cc_CloudName c +:+ "/" +:+ cc_OwnerIdentityName c +:+ "/" +:+ cc_Name c.

Definition credentialNotFound (c : CloudCredential) : gerror :=
  Codef CodeNotFound "cloudcredential %q not found" [ArgS (Path c)].

Definition GetCloudCredential (c : CloudCredential) : M (Db T) CloudCredential :=
  _ ← ready;
  if decide (cc_CloudName c = "" \/ cc_OwnerIdentityName c = "" \/ cc_Name c = "") then throw (credentialNotFound c) else
  map_err (notFoundError (credentialNotFound c))
    (credentials_tbl (gorm_first (fun r => by_key cc_ID c r && row_conflict r c))).

Definition GetIdentityCloudCredentials (u : Identity) (cloud : string) : M (Db T) (list CloudCredential) :=
  if decide (i_Name u = "" \/ cloud = "") then throw (Codef CodeNotFound "cloudcredential not found" []) else
  _ ← ready;
  credentials_tbl (find_all (fun c => bool_decide (cc_CloudName c = cloud /\ cc_OwnerIdentityName c = i_Name u))).

End db.

(** ** What the operations do to the tables *)

(** The tables that an operation on models, or on offers, leaves alone. *)
Definition apart_models {T : Type -> Type} `{Gorm T} (d : Db T) :=
  (rows (db_groups d), rows (db_roles d), rows (db_identities d), rows (db_controllers d),
   rows (db_offers d), rows (db_clouds d), rows (db_mappings d), rows (db_credentials d), rows (db_defaults d), more_tables d).
Definition apart_offers {T : Type -> Type} `{Gorm T} (d : Db T) :=
  (rows (db_groups d), rows (db_roles d), rows (db_identities d), rows (db_controllers d),
   rows (db_models d), rows (db_clouds d), rows (db_mappings d), rows (db_credentials d), rows (db_defaults d), more_tables d).
(** The tables that the deletion of models does not reach. *)
Definition apart_deletion {T : Type -> Type} `{Gorm T} (d : Db T) :=
  (rows (db_groups d), rows (db_roles d), rows (db_identities d), rows (db_controllers d),
   rows (db_clouds d), rows (db_credentials d), rows (db_defaults d),
   (rows (db_regions d), rows (db_priorities d), rows (db_bootstraps d), rows (db_migrations d), rows (db_profiles d), rows (db_audit d))).

(** A read whose value has a property. *)
Definition sees {T : Type -> Type} `{Gorm T} {A} (P : A -> Prop) (d : Db T) (o : outcome A) (d' : Db T) : Prop :=
  reads d o d' /\ forall a, o = Ok a -> P a.

Section facts.
Context {T : Type -> Type} `{GormLaws T}.
Implicit Types d : Db T.

Lemma wp_sees_bind {A B} (P : A -> Prop) (Q : B -> Prop) (m : M (Db T) A) (k : A -> M (Db T) B) d :
  wp m (sees P d) d -> (forall a d', tables d' = tables d -> P a -> wp (k a) (sees Q d') d') ->
  wp (m ≫= k) (sees Q d) d.
Proof.
  intros Hm Hk. apply wp_bind. eapply wp_mono; [exact Hm|].
  intros [a|e|s|] d1 [[Ha Ht] HP]; cbn [bind_post]; [|by (split; [split|])..].
  eapply wp_mono; [by apply Hk, HP|]. intros o' d2 [[Ha2 Ht2] HQ]. split; [split; [done|congruence]|done].
Qed.

Lemma wp_sees_ret {A} (P : A -> Prop) a d : P a -> wp (mret a) (sees P d) d.
Proof. intros HP. wp_value. split; [done|]. intros a' Ha. by apply (inj Ok) in Ha as <-. Qed.

Lemma wp_sees_map_err {A} (P : A -> Prop) f (m : M (Db T) A) d : wp m (sees P d) d -> wp (map_err f m) (sees P d) d.
Proof.
  intros Hm. apply wp_map_err. eapply wp_mono; [exact Hm|]. intros [] d' [[Ha Ht] HP]; (split; [by split|done]).
Qed.

Lemma wp_sees_ready {A} (P : A -> Prop) (k : M (Db T) A) d :
  wp k (sees P d) d -> wp (ready ≫= fun _ => k) (sees P d) d.
Proof. intros Hk. apply wp_ready; [by intros|]. intros e _. by split. Qed.

(** Tables as parts of the database. *)
Definition part {R} (get : Db T -> T R) (put : T R -> Db T -> Db T) : Prop :=
  forall t d, rows t = rows (get d) -> tables (put t d) = tables d.

Lemma part_identities : part db_identities put_identities.
Proof. intros t d. unfold tables. simpl. by intros ->. Qed.
Lemma part_controllers : part db_controllers put_controllers.
Proof. intros t d. unfold tables. simpl. by intros ->. Qed.
Lemma part_models : part db_models put_models.
Proof. intros t d. unfold tables. simpl. by intros ->. Qed.
Lemma part_offers : part db_offers put_offers.
Proof. intros t d. unfold tables. simpl. by intros ->. Qed.
Lemma part_clouds : part db_clouds put_clouds.
Proof. intros t d. unfold tables. simpl. by intros ->. Qed.
Lemma part_credentials : part db_credentials put_credentials.
Proof. intros t d. unfold tables. simpl. by intros ->. Qed.
Lemma part_defaults : part db_defaults put_defaults.
Proof. intros t d. unfold tables. simpl. by intros ->. Qed.
Lemma part_regions : part db_regions put_regions.
Proof. intros t d Ht. unfold tables, more_tables, put_regions, db_regions at 1. simpl. by rewrite Ht. Qed.
Lemma part_priorities : part db_priorities put_priorities.
Proof. intros t d Ht. unfold tables, more_tables, put_priorities, db_priorities at 1. simpl. by rewrite Ht. Qed.

Lemma find_wp {R} (get : Db T -> T R) put p key d :
  part get put ->
  wp (zoom get put (gorm_find p key None None)) (sees (fun l => forall x, x ∈ l <-> x ∈ rows (get d) /\ p x = true) d) d.
Proof.
  intros Hput. apply wp_zoom. eapply wp_mono; [apply law_find_rows|]. intros o t (Hrows & Ha & Hl).
  split; [by split; [|apply Hput]|]. intros l ->. specialize (Hl l eq_refl). unfold page_of in Hl. subst l.
  intros x. rewrite (law_order key _), list_elem_of_filter. tauto.
Qed.

Lemma first_wp {R} (get : Db T -> T R) put p d :
  part get put -> wp (zoom get put (gorm_first p)) (sees (fun r => r ∈ rows (get d) /\ p r = true) d) d.
Proof.
  intros Hput. apply wp_zoom. eapply wp_mono; [apply law_first|]. intros o t (Hrows & Ha & Ho).
  split; [by split; [|apply Hput]|]. intros r ->. done.
Qed.

(** The row that a preload finds, or the zero value. *)
Lemma preload_sees {R} (get : Db T -> T R) put key id zero d :
  part get put -> wp (preload (zoom get put) key id zero) (sees (loaded key (rows (get d)) id zero) d) d.
Proof.
  intros Hput. eapply wp_mono; [apply preload_wp|]. intros o d' (Ha & Hd & Hl). split; [|done]. split; [done|].
  destruct Hd as [->|(t & Ht & ->)]; [done|by apply Hput].
Qed.

Lemma preload_by_sees {R} (get : Db T -> T R) put p zero d :
  part get put -> wp (preload_by (zoom get put) p zero) (sees (fun r => (r ∈ rows (get d) /\ p r = true) \/ r = zero) d) d.
Proof.
  intros Hput. unfold preload_by. eapply wp_sees_bind; [by apply find_wp|]. intros l d' _ Hl. apply wp_sees_ret.
  destruct l as [|r l]; simpl; [by right|]. left. apply Hl, elem_of_cons. by left.
Qed.

(** What a lookup of a model finds. *)
Definition model_loaded d (lm : LoadedModel) : Prop :=
  lm_Model lm ∈ rows (db_models d) /\
  loaded c_ID (rows (db_controllers d)) (m_ControllerID (lm_Model lm)) zeroController (lm_Controller lm) /\
  loaded cc_ID (rows (db_credentials d)) (m_CloudCredentialID (lm_Model lm)) zeroCredential (lm_Credential lm) /\
  ((lm_Owner lm ∈ rows (db_identities d) /\ i_Name (lm_Owner lm) = m_OwnerIdentityName (lm_Model lm)) \/ lm_Owner lm = zeroIdentity).

Lemma tables_eq d d' :
  tables d' = tables d ->
  rows (db_identities d') = rows (db_identities d) /\ rows (db_controllers d') = rows (db_controllers d) /\
  rows (db_models d') = rows (db_models d) /\ rows (db_offers d') = rows (db_offers d) /\
  rows (db_clouds d') = rows (db_clouds d) /\ rows (db_mappings d') = rows (db_mappings d) /\
  rows (db_credentials d') = rows (db_credentials d).
Proof. unfold tables. intros Ht. by simplify_eq. Qed.

Lemma preloadModel_sees m d :
  m ∈ rows (db_models d) -> wp (preloadModel m) (sees (fun lm => model_loaded d lm /\ lm_Model lm = m) d) d.
Proof.
  intros Hin. unfold preloadModel.
  eapply wp_sees_bind; [apply preload_by_sees, part_identities|]. intros owner d1 Ht1 Ho. cbv beta in Ho.
  eapply wp_sees_bind; [apply preload_sees, part_controllers|]. intros ctl d2 Ht2 Hc.
  eapply wp_sees_bind; [apply preload_sees, part_regions|]. intros region d2' Ht2' _.
  eapply wp_sees_bind; [apply preload_by_sees, part_clouds|]. intros cloud d3 Ht3 _.
  eapply wp_sees_bind; [apply preload_sees, part_credentials|]. intros cred d4 Ht4 Hcc.
  apply wp_sees_ret. split; [|done]. apply tables_eq in Ht1 as (Hi & Hct & _ & _ & _ & _ & Hcr).
  apply tables_eq in Ht2 as (_ & _ & _ & _ & _ & _ & Hcr2). apply tables_eq in Ht2' as (_ & _ & _ & _ & _ & _ & Hcr2').
  apply tables_eq in Ht3 as (_ & _ & _ & _ & _ & _ & Hcr3). rewrite Hct in Hc. rewrite Hcr3, Hcr2', Hcr2, Hcr in Hcc. split_and!; [done|done|done|]. simpl.
  destruct Ho as [[Hr Hp]|Hz]; [left|by right]. split; [done|].
  apply andb_true_iff in Hp as [_ Hp]. by apply bool_decide_eq_true in Hp.
Qed.

Lemma model_loaded_tables d d' lm : tables d' = tables d -> model_loaded d' lm -> model_loaded d lm.
Proof. intros (Hi & Hc & Hm & _ & _ & _ & Hcc)%tables_eq. unfold model_loaded. by rewrite Hi, Hc, Hm, Hcc. Qed.

Lemma wp_sees_mono {A} (P Q : A -> Prop) (m : M (Db T) A) d :
  wp m (sees P d) d -> (forall a, P a -> Q a) -> wp m (sees Q d) d.
Proof. intros Hm HPQ. eapply wp_mono; [exact Hm|]. intros o d' [Hr HP]. split; auto. Qed.

Lemma GetModel_sees m d :
  wp (GetModel m) (sees (fun r => r ∈ rows (db_models d) /\ forall u, m_UUID m = Some u -> m_UUID r = Some u) d) d.
Proof.
  unfold GetModel. apply wp_sees_ready, wp_sees_ready.
  assert (forall p, (forall r u, p r = true -> m_UUID m = Some u -> m_UUID r = Some u) ->
    wp (map_err (notFoundError (Codef CodeNotFound "model not found" [])) (models_tbl (gorm_first (fun r => by_key m_ID m r && p r))))
       (sees (fun r => r ∈ rows (db_models d) /\ forall u, m_UUID m = Some u -> m_UUID r = Some u) d) d) as Hfirst.
  { intros p Hp. apply wp_sees_map_err. eapply wp_sees_mono; [apply first_wp, part_models|].
    intros r [Hin Hr]. apply andb_true_iff in Hr as [_ Hr]. split; [done|]. intros u. by apply Hp. }
  apply wp_bind. destruct (m_UUID m) as [uuid|].
  - wp_value. apply Hfirst. intros r u Hp [= <-]. apply andb_true_iff in Hp as [Hp _]. by apply bool_decide_eq_true in Hp.
  - repeat case_decide; wp_value; try (apply Hfirst; done). by split.
Qed.

Lemma LoadModel_sees m d :
  wp (LoadModel m) (sees (fun lm => model_loaded d lm /\ forall u, m_UUID m = Some u -> m_UUID (lm_Model lm) = Some u) d) d.
Proof.
  unfold LoadModel. eapply wp_sees_bind; [apply GetModel_sees|]. intros r d1 Ht [Hin Hu]. apply wp_sees_map_err.
  eapply wp_sees_mono; [apply preloadModel_sees|].
  - apply tables_eq in Ht as (_ & _ & -> & _). done.
  - intros lm [Hl Hm]. rewrite Hm. split; [|done]. by apply (model_loaded_tables d d1).
Qed.

Lemma GetApplicationOffer_sees o d :
  wp (GetApplicationOffer o) (sees (fun r => r ∈ rows (db_offers d) /\
    (ao_UUID o <> "" -> ao_UUID r = ao_UUID o) /\ (ao_UUID o = "" -> ao_URL r = ao_URL o)) d) d.
Proof.
  unfold GetApplicationOffer. apply wp_sees_ready, wp_bind.
  repeat case_decide; wp_value; [..|by split]; apply wp_sees_map_err; (eapply wp_sees_mono; [apply first_wp, part_offers|]);
    intros r [Hin Hr]; apply andb_true_iff in Hr as [_ Hr%bool_decide_eq_true]; by split_and!.
Qed.

(** What a lookup of an offer finds. *)
Definition offer_loaded d (lo : LoadedOffer) : Prop :=
  lo_Offer lo ∈ rows (db_offers d) /\
  loaded m_ID (rows (db_models d)) (ao_ModelID (lo_Offer lo)) zeroModel (lo_Model lo) /\
  loaded c_ID (rows (db_controllers d)) (m_ControllerID (lo_Model lo)) zeroController (lo_Controller lo).

Lemma LoadOffer_sees o d :
  wp (LoadOffer o) (sees (fun lo => offer_loaded d lo /\ (ao_UUID o <> "" -> ao_UUID (lo_Offer lo) = ao_UUID o) /\
    (ao_UUID o = "" -> ao_URL (lo_Offer lo) = ao_URL o)) d) d.
Proof.
  unfold LoadOffer. eapply wp_sees_bind; [apply GetApplicationOffer_sees|]. intros r d1 Ht1 (Hin & Hu & Hl).
  apply wp_sees_map_err. eapply wp_sees_bind; [apply preload_sees, part_models|]. intros m d2 Ht2 Hm.
  eapply wp_sees_bind; [apply preload_sees, part_controllers|]. intros c d3 _ Hc. apply wp_sees_ret.
  apply tables_eq in Ht1 as (_ & Hc1 & Hm1 & _). apply tables_eq in Ht2 as (_ & Hc2 & _).
  rewrite Hm1 in Hm. rewrite Hc2, Hc1 in Hc. by split_and!.
Qed.

(** The tables apart from one are some of the tables. *)
Ltac by_tables Ht := unfold tables, more_tables in Ht; unfold more_tables; simplify_eq;
  repeat match goal with H : rows _ = rows _ |- _ => rewrite H; clear H end; done.
Lemma apart_models_tables d d' : tables d' = tables d -> apart_models d' = apart_models d.
Proof. intros Ht. unfold apart_models. by_tables Ht. Qed.
Lemma apart_offers_tables d d' : tables d' = tables d -> apart_offers d' = apart_offers d.
Proof. intros Ht. unfold apart_offers. by_tables Ht. Qed.

(** Reads of lists. *)
Lemma map_range_sees {A B} (P : A -> Prop) (Q : A -> B -> Prop) (f : A -> M (Db T) B) l d :
  Forall P l ->
  (forall a d', P a -> tables d' = tables d -> wp (f a) (sees (Q a) d') d') ->
  wp (map_range l f) (sees (Forall2 Q l) d) d.
Proof.
  intros HP Hf. assert (forall d', tables d' = tables d -> wp (map_range l f) (sees (Forall2 Q l) d') d') as Hgo; [|by apply Hgo].
  induction HP as [|a l Ha _ IH]; intros d' Ht; simpl; [by apply wp_sees_ret|].
  eapply wp_sees_bind; [by apply Hf|]. intros b d1 Ht1 Hb.
  eapply wp_sees_bind; [apply IH; congruence|]. intros bs d2 _ Hbs. apply wp_sees_ret. by constructor.
Qed.

Lemma preload_models_sees l d :
  Forall (fun m => m ∈ rows (db_models d)) l ->
  wp (map_range l preloadModel) (sees (Forall2 (fun m lm => model_loaded d lm /\ lm_Model lm = m) l) d) d.
Proof.
  intros Hl. eapply map_range_sees; [exact Hl|]. intros m d' Hm Ht.
  eapply wp_sees_mono; [apply preloadModel_sees|].
  - apply tables_eq in Ht as (_ & _ & -> & _). done.
  - intros lm [Hlm Heq]. split; [|done]. by apply (model_loaded_tables d d').
Qed.

Lemma loaded_models_sees p d :
  wp (found ← models_tbl (find_all p); map_range found preloadModel)
     (sees (Forall (fun lm => model_loaded d lm /\ p (lm_Model lm) = true)) d) d.
Proof.
  eapply wp_sees_bind; [apply find_wp, part_models|]. intros l d1 Ht Hl.
  eapply wp_sees_mono; [apply preload_models_sees|].
  - apply Forall_forall. intros m Hm. apply tables_eq in Ht as (_ & _ & -> & _). by apply Hl.
  - intros lms Hlms. apply Forall_forall. intros lm (i & Hi)%list_elem_of_lookup.
    destruct (Forall2_lookup_r _ _ _ _ _ Hlms Hi) as (m & Hm & Hlm & Heq). cbv beta in *. rewrite Heq.
    split; [by apply (model_loaded_tables d d1)|]. apply Hl. by apply list_elem_of_lookup_2 in Hm.
Qed.

Lemma AllModels_sees d : wp AllModels (sees (Forall (model_loaded d)) d) d.
Proof.
  unfold AllModels. apply wp_sees_ready, wp_sees_map_err. eapply wp_sees_mono; [apply loaded_models_sees|].
  intros l Hl. eapply Forall_impl; [exact Hl|]. by intros lm [? _].
Qed.

Lemma GetModelsByUUID_sees uuids d :
  wp (GetModelsByUUID uuids) (sees (Forall (fun lm => model_loaded d lm /\
    exists u, m_UUID (lm_Model lm) = Some u /\ u ∈ uuids)) d) d.
Proof.
  unfold GetModelsByUUID. apply wp_sees_ready, wp_sees_map_err. eapply wp_sees_mono; [apply loaded_models_sees|].
  intros l Hl. eapply Forall_impl; [exact Hl|]. intros lm [Hlm Hp]. split; [done|].
  destruct (m_UUID (lm_Model lm)) as [u|]; [|done]. exists u. split; [done|]. by apply bool_decide_eq_true in Hp.
Qed.

(** Writes. *)
Lemma db_AddModel_wp m d :
  unique_rows (rows (db_models d)) ->
  wp (db_AddModel m) (fun o d' => answered o /\ apart_models d' = apart_models d /\
    match o with
    | Ok m' => inserted m m' (rows (db_models d)) (rows (db_models d'))
    | _ => rows (db_models d') = rows (db_models d)
    end) d.
Proof.
  intros Hu. unfold db_AddModel. apply wp_ready; [intros _ _|by intros e _]. apply wp_map_err, wp_zoom.
  eapply wp_mono; [by apply law_create|]. intros [] t [Ha Ho]; by split_and!.
Qed.

Lemma db_UpdateModel_wp m d :
  unique_rows (rows (db_models d)) ->
  wp (db_UpdateModel m) (fun o d' => answered o /\ apart_models d' = apart_models d /\
    match o with
    | Ok m' => saved m m' (rows (db_models d)) (rows (db_models d'))
    | _ => rows (db_models d') = rows (db_models d)
    end) d.
Proof.
  intros Hu. unfold db_UpdateModel. apply wp_ready; [intros _ _|by intros e _]. apply wp_map_err, wp_zoom.
  eapply wp_mono; [by apply law_save|]. intros [] t [Ha Ho]; by split_and!.
Qed.

Lemma AddApplicationOffer_wp o d :
  unique_rows (rows (db_offers d)) ->
  wp (AddApplicationOffer o) (fun r d' => answered r /\ apart_offers d' = apart_offers d /\
    match r with
    | Ok o' => inserted o o' (rows (db_offers d)) (rows (db_offers d'))
    | _ => rows (db_offers d') = rows (db_offers d)
    end) d.
Proof.
  intros Hu. unfold AddApplicationOffer. apply wp_ready; [intros _ _|by intros e _]. apply wp_map_err, wp_zoom.
  eapply wp_mono; [by apply law_create|]. intros [] t [Ha Ho]; by split_and!.
Qed.

Lemma DeleteApplicationOffer_wp o d :
  wp (DeleteApplicationOffer o) (fun r d' => answered r /\ apart_offers d' = apart_offers d /\
    match r with
    | Ok _ => rows (db_offers d') = filter (fun x => ao_ID x <> ao_ID o) (rows (db_offers d))
    | _ => rows (db_offers d') = rows (db_offers d)
    end) d.
Proof.
  unfold DeleteApplicationOffer. apply wp_ready; [intros _ _|by intros e _]. apply wp_map_err, wp_zoom.
  eapply wp_mono; [apply law_delete|]. intros [] t [Ha Ho]; split_and!; try done. apply Ho.
Qed.

(** The rows left when the models that satisfy [p] are gone. *)
Definition gone_models (p : Model -> bool) d : list Model := filter (fun m => p m = true) (rows (db_models d)).
Definition deleted_models (p : Model -> bool) d d' : Prop :=
  apart_deletion d' = apart_deletion d /\
  rows (db_models d') = filter (fun m => p m = false) (rows (db_models d)) /\
  rows (db_offers d') = filter (fun o => ao_ModelID o ∉ m_ID <$> gone_models p d) (rows (db_offers d)) /\
  rows (db_mappings d') =
    filter (fun u => um_ModelUUID u = None \/ um_ModelUUID u ∉ m_UUID <$> gone_models p d) (rows (db_mappings d)) /\
  rows (db_sshkeys d') = filter (fun k => Some (sk_ModelUUID k) ∉ m_UUID <$> gone_models p d) (rows (db_sshkeys d)).

Lemma delete_where_wp {R} `{Row R} (get : Db T -> T R) put p Q d :
  (forall o t, answered o -> rows t = match o with Ok _ => filter (fun x => p x = false) (rows (get d)) | _ => rows (get d) end ->
     Q o (put t d)) ->
  wp (zoom get put (gorm_delete_where p)) Q d.
Proof. intros HQ. apply wp_zoom. eapply wp_mono; [apply law_delete_where|]. intros o t [Ha Ht]. by apply HQ. Qed.

Lemma delete_models_wp p d :
  wp (delete_models p) (fun o d' => answered o /\
    match o with Ok _ => deleted_models p d d' | _ => tables d' = tables d end) d.
Proof.
  apply wp_rollback, wp_bind. eapply wp_mono; [apply find_wp, part_models|].
  intros o d1 [[Ha Ht] Hl]. destruct o as [gone|e|m|]; cbn [bind_post]; [|done..]. specialize (Hl gone eq_refl).
  apply wp_bind, delete_where_wp. intros o t2 Ha2 Ht2. destruct o as [[]|e|m|]; cbn [bind_post]; [|done..].
  apply wp_bind, delete_where_wp. intros o t3 Ha3 Ht3. destruct o as [[]|e|m|]; cbn [bind_post]; [|done..].
  apply wp_bind, delete_where_wp. intros o t4 Ha4 Ht4. destruct o as [[]|e|m|]; cbn [bind_post]; [|done..].
  apply delete_where_wp. intros o t5 Ha5 Ht5. split; [done|]. destruct o as [[]|e|m|]; [|done..].
  unfold deleted_models, apart_deletion. simpl in *. rewrite Ht2, Ht3, Ht4.
  unfold put_sshkeys, db_sshkeys, db_regions, db_priorities, db_bootstraps, db_migrations, db_profiles, db_audit in *.
  simpl in *. rewrite Ht5. unfold tables, more_tables in Ht.
  unfold db_sshkeys, db_regions, db_priorities, db_bootstraps, db_migrations, db_profiles, db_audit in Ht. simplify_eq.
  assert (forall x, x ∈ gone <-> x ∈ gone_models p d) as Hg.
  { intros x. unfold gone_models. rewrite Hl, list_elem_of_filter. tauto. }
  split_and!; [congruence|congruence|..].
  - replace (rows (db_offers d1)) with (rows (db_offers d)) by done. apply list_filter_iff. intros x. rewrite bool_decide_eq_false, !list_elem_of_fmap.
    setoid_rewrite Hg. done.
  - replace (rows (db_mappings d1)) with (rows (db_mappings d)) by done. apply list_filter_iff. intros x. rewrite bool_decide_eq_false, !list_elem_of_fmap.
    setoid_rewrite Hg. destruct (um_ModelUUID x); naive_solver.
  - replace (rows (more_sshkeys (db_more d1))) with (rows (more_sshkeys (db_more d))) by done. apply list_filter_iff. intros x.
    rewrite bool_decide_eq_false, !list_elem_of_fmap. setoid_rewrite Hg. done.
Qed.

(** The models that a deletion removes. *)
Definition deletes (m r : Model) : bool :=
  by_key m_ID m r && match m_UUID m with Some u => bool_decide (m_UUID r = Some u) | None => bool_decide (m_ID r = m_ID m) end.

Lemma db_DeleteModel_wp m d :
  wp (db_DeleteModel m) (fun o d' => answered o /\
    match o with Ok _ => deleted_models (deletes m) d d' | _ => tables d' = tables d end) d.
Proof.
  unfold db_DeleteModel, deletes. apply wp_ready; [intros _ _|by intros e _].
  destruct (m_UUID m); [|case_decide; [|by wp_value]]; apply wp_map_err;
    (eapply wp_mono; [apply delete_models_wp|]); intros [] d' [Ha Ho]; by split.
Qed.

End facts.
