(* ===== verification/CloudDb.v ===== *)
(** * CloudDb: the tables of controllers, clouds, credentials, defaults and migrations
    ([internal/db/controller.go], [cloud.go], [cloudcredential.go],
    [clouddefaults.go], [controller_bootstrap.go], [modelmigration.go]).

    A lookup returns the row with the associations that it preloads.  The
    foreign keys of the schema in [internal/dbmodel/sql] are part of the
    statements that delete: a reference with [ON DELETE CASCADE] deletes the
    referring rows, any other reference makes the statement fail.  An insert
    with [ON CONFLICT DO UPDATE] writes over the row that it conflicts with. *)

From S2P Require Import Prelude Errors Regexp Names AuthModel RefServer OpenFGA Dbmodel Users Database TagResolver JujuDb.

#[export] Instance ControllerBootstrap_row : Row ControllerBootstrap := {|
  row_id := cb_ID;
  row_created i _ b := MkBootstrap i (cb_Name b) (cb_CloudName b) (cb_CloudRegion b) (cb_JobID b);
  row_touched _ b := b;
  row_conflict a b := bool_decide (cb_Name a = cb_Name b) || bool_decide (is_Some (cb_JobID a) /\ cb_JobID a = cb_JobID b);
|}.
#[export] Instance IncomingModelMigration_row : Row IncomingModelMigration := {|
  row_id := im_ID;
  row_created i now m := MkMigration i now (im_ModelUUID m) (im_TargetControllerID m) (im_UserMapping m);
  row_touched _ m := m;
  row_conflict a b := bool_decide (im_ModelUUID a = im_ModelUUID b);
|}.

(** ** Rows with their associations *)

(** An entry of [Controller.CloudRegions]. *)
Record LoadedPriority := MkLoadedPriority {
  lp_Priority : CloudRegionControllerPriority; lp_CloudRegion : CloudRegion; lp_Cloud : Cloud;
}.
Record LoadedController := MkLoadedController { lc_Controller : Controller; lc_CloudRegions : list LoadedPriority }.

(** A region with its controllers; its cloud is the zero value when the region
    was loaded as a part of a cloud. *)
Record LoadedRegion := MkLoadedRegion {
  lr_Region : CloudRegion; lr_Cloud : Cloud; lr_Controllers : list (CloudRegionControllerPriority * Controller);
}.
Record LoadedCloud := MkLoadedCloud { lcl_Cloud : Cloud; lcl_Regions : list LoadedRegion }.

Definition zeroLoadedRegion : LoadedRegion := MkLoadedRegion zeroRegion zeroCloud [].

(** [Cloud.Region]. *)
Definition Cloud_Region (name : string) (c : LoadedCloud) : LoadedRegion :=
  default zeroLoadedRegion (List.find (fun r => bool_decide (reg_Name (lr_Region r) = name)) (lcl_Regions c)).

Definition pgForeignKeyViolation := "23503".
Definition foreignKeyViolation : gerror := ErrForeign "" pgForeignKeyViolation "violates foreign key constraint".

Section db.
Context {T : Type -> Type} `{Gorm T}.

(** A reference without cascade. *)
Definition unreferenced {R} (table : M (T R) (list R) -> M (Db T) (list R)) (p : R -> bool) : M (Db T) unit :=
  found ← table (find_all p);
  match found with [] => mret tt | _ => throw foreignKeyViolation end.

(** [ON CONFLICT (...) DO UPDATE]: [merge old new] is what is stored. *)
Definition upsert {R} `{Row R} (table : forall A, M (T R) A -> M (Db T) A) (merge : R -> R -> R) (r : R) : M (Db T) R :=
  rollback (
    found ← table _ (find_all (row_conflict r));
    match found with
    | old :: _ => table _ (gorm_save (merge old r))
    | [] => table _ (gorm_create r)
    end).

(** ** Controllers ([controller.go]) *)

Definition preloadController (c : Controller) : M (Db T) LoadedController :=
  priorities ← priorities_tbl (find_all (fun p => bool_decide (crp_ControllerID p = c_ID c)));
  regions ← map_range priorities (fun p =>
    region ← preload regions_tbl reg_ID (crp_CloudRegionID p) zeroRegion;
    cloud ← preload_by clouds_tbl (fun cl => bool_decide (cl_Name cl = reg_CloudName region)) zeroCloud;
    mret (MkLoadedPriority p region cloud));
  mret (MkLoadedController c regions).

Definition controllerNotFound : gerror := Codef CodeNotFound "controller not found" [].

(** [GetController], with its preloads. *)
Definition LoadController (c : Controller) : M (Db T) LoadedController :=
  row ← GetController c;
  map_err (notFoundError controllerNotFound) (preloadController row).

(** [regions]: the keys of the regions of [CloudRegions], with the priorities. *)
Definition AddController (c : Controller) (regions : list (Z * Z)) : M (Db T) Controller :=
  _ ← ready;
  map_err dbError (rollback (
    c ← controllers_tbl (gorm_create c);
    _ ← for_range regions (fun p => _ ← priorities_tbl (gorm_create (MkPriority 0 p.1 (c_ID c) p.2)); mret tt);
    mret c)).

Definition UpdateController (c : Controller) : M (Db T) Controller :=
  if decide (c_ID c = 0%Z) then throw controllerNotFound else
  _ ← ready;
  map_err dbError (controllers_tbl (gorm_save c)).

(** Two statements; the second finds nothing more to delete. *)
Definition DeleteController (c : Controller) : M (Db T) unit :=
  if decide (c_ID c = 0%Z) then throw controllerNotFound else
  _ ← ready;
  _ ← map_err (notFoundError controllerNotFound) (rollback (
    _ ← unreferenced models_tbl (fun m => bool_decide (m_ControllerID m = c_ID c));
    _ ← unreferenced migrations_tbl (fun m => bool_decide (im_TargetControllerID m = c_ID c));
    _ ← controllers_tbl (gorm_delete c);
    priorities_tbl (gorm_delete_where (fun p => bool_decide (crp_ControllerID p = c_ID c)))));
  controllers_tbl (gorm_delete c).

(** The controllers that [ForEachController] passes to its function. *)
Definition AllControllers : M (Db T) (list LoadedController) :=
  _ ← ready;
  map_err dbError (found ← controllers_tbl (gorm_find (fun _ => true) c_Name None None); map_range found preloadController).

Definition CountControllers : M (Db T) Z :=
  _ ← ready;
  map_err dbError (controllers_tbl (gorm_count (fun _ => true))).

(** ** Clouds ([cloud.go]) *)

Definition preloadRegion (cloud : Cloud) (r : CloudRegion) : M (Db T) LoadedRegion :=
  priorities ← priorities_tbl (find_all (fun p => bool_decide (crp_CloudRegionID p = reg_ID r)));
  controllers ← map_range priorities (fun p =>
    c ← preload controllers_tbl c_ID (crp_ControllerID p) zeroController; mret (p, c));
  mret (MkLoadedRegion r cloud controllers).

Definition preloadCloud (c : Cloud) : M (Db T) LoadedCloud :=
  regions ← regions_tbl (find_all (fun r => bool_decide (reg_CloudName r = cl_Name c)));
  regions ← map_range regions (preloadRegion zeroCloud);
  mret (MkLoadedCloud c regions).

Definition cloudNotFound (c : Cloud) : gerror := Codef CodeNotFound "cloud %q not found" [ArgS (cl_Name c)].

(** [GetCloud], with its preloads. *)
Definition LoadCloud (c : Cloud) : M (Db T) LoadedCloud :=
  row ← GetCloud c;
  map_err (notFoundError (cloudNotFound c)) (preloadCloud row).

(** The errors of the query are not translated. *)
Definition GetClouds : M (Db T) (list LoadedCloud) :=
  _ ← ready;
  found ← clouds_tbl (find_all (fun _ => true));
  map_range found preloadCloud.

(** The cloud with its [Regions] and their [Controllers]; the rows come back
    with their keys. *)
Definition create_region (c : Cloud) (lr : LoadedRegion) : M (Db T) LoadedRegion :=
  let r := lr_Region lr in
  r ← regions_tbl (gorm_create (MkRegion 0 (cl_Name c) (reg_Name r) (reg_Endpoints r) (reg_Config r) (reg_Virtual r)));
  controllers ← map_range (lr_Controllers lr) (fun pc =>
    p ← priorities_tbl (gorm_create (MkPriority 0 (reg_ID r) (crp_ControllerID pc.1) (crp_Priority pc.1))); mret (p, pc.2));
  mret (MkLoadedRegion r (lr_Cloud lr) controllers).

Definition AddCloud (c : LoadedCloud) : M (Db T) LoadedCloud :=
  _ ← ready;
  map_err (fun err => let err := dbError err in
             if decide (ErrorCode err = CodeAlreadyExists) then Codef CodeAlreadyExists "cloud %q already exists" [ArgS (cl_Name (lcl_Cloud c))] else err)
    (rollback (
      row ← clouds_tbl (gorm_create (lcl_Cloud c));
      regions ← map_range (lcl_Regions c) (create_region row);
      mret (MkLoadedCloud row regions))).

(** Deleting regions deletes their priorities; a region of a model stays. *)
Definition delete_regions (p : CloudRegion -> bool) : M (Db T) unit :=
  gone ← regions_tbl (find_all p);
  let ids := fmap (M:=list) reg_ID gone in
  _ ← unreferenced models_tbl (fun m => bool_decide (m_CloudRegionID m ∈ ids));
  _ ← regions_tbl (gorm_delete_where p);
  priorities_tbl (gorm_delete_where (fun x => bool_decide (crp_CloudRegionID x ∈ ids))).

(** [UpdateCloud]: the cloud, the given regions and their controllers are
    saved and the other regions of the cloud are deleted. *)
Definition save_region (c : Cloud) (lr : LoadedRegion) : M (Db T) unit :=
  let r := lr_Region lr in
  r ← regions_tbl (gorm_save (MkRegion (reg_ID r) (cl_Name c) (reg_Name r) (reg_Endpoints r) (reg_Config r) (reg_Virtual r)));
  for_range (lr_Controllers lr) (fun pc =>
    _ ← priorities_tbl (gorm_save (MkPriority (crp_ID pc.1) (reg_ID r) (crp_ControllerID pc.1) (crp_Priority pc.1))); mret tt).

Definition db_UpdateCloud (c : LoadedCloud) : M (Db T) unit :=
  _ ← ready;
  map_err dbError (rollback (
    row ← clouds_tbl (gorm_save (lcl_Cloud c));
    _ ← for_range (lcl_Regions c) (save_region row);
    let names := fmap (M:=list) (fun lr => reg_Name (lr_Region lr)) (lcl_Regions c) in
    delete_regions (fun r => bool_decide (reg_CloudName r = cl_Name row /\ reg_Name r ∉ names)))).

Definition AddCloudRegion (r : CloudRegion) : M (Db T) CloudRegion :=
  _ ← ready;
  map_err (fun err => let err := dbError err in
             if decide (ErrorCode err = CodeAlreadyExists)
             then Codef CodeAlreadyExists "cloud-region %s/%s already exists" [ArgS (reg_CloudName r); ArgS (reg_Name r)] else err)
    (regions_tbl (gorm_create r)).

(** A region of a cloud that satisfies a condition. *)
Definition findRegion (p : Cloud -> bool) (regionName : string) : M (Db T) LoadedRegion :=
  _ ← ready;
  map_err dbError (
    clouds ← clouds_tbl (find_all p);
    r ← regions_tbl (gorm_first (fun r => bool_decide (reg_CloudName r ∈ fmap (M:=list) cl_Name clouds /\ reg_Name r = regionName)));
    cloud ← preload_by clouds_tbl (fun cl => bool_decide (cl_Name cl = reg_CloudName r)) zeroCloud;
    preloadRegion cloud r).
Definition FindRegionByCloudType (providerType regionName : string) : M (Db T) LoadedRegion :=
  findRegion (fun c => bool_decide (cl_Type c = providerType)) regionName.
Definition FindRegionByCloudName (cloudName regionName : string) : M (Db T) LoadedRegion :=
  findRegion (fun c => bool_decide (cl_Name c = cloudName)) regionName.

(** Deleting a cloud deletes its regions and credentials; a controller, a
    default or a model that refers to them keeps it. *)
Definition DeleteCloud (c : Cloud) : M (Db T) unit :=
  _ ← ready;
  map_err dbError (rollback (
    gone ← clouds_tbl (find_all (fun r => bool_decide (cl_ID r = cl_ID c)));
    let names := fmap (M:=list) cl_Name gone in
    _ ← unreferenced controllers_tbl (fun x => bool_decide (c_CloudName x ∈ names));
    _ ← unreferenced defaults_tbl (fun x => bool_decide (cd_CloudID x ∈ fmap (M:=list) cl_ID gone));
    credentials ← credentials_tbl (find_all (fun x => bool_decide (cc_CloudName x ∈ names)));
    _ ← unreferenced models_tbl (fun m => bool_decide (m_CloudCredentialID m ∈ fmap (M:=list) cc_ID credentials));
    _ ← clouds_tbl (gorm_delete c);
    _ ← delete_regions (fun r => bool_decide (reg_CloudName r ∈ names));
    credentials_tbl (gorm_delete_where (fun x => bool_decide (cc_CloudName x ∈ names))))).

Definition DeleteCloudRegionControllerPriority (p : CloudRegionControllerPriority) : M (Db T) unit :=
  _ ← ready;
  map_err dbError (priorities_tbl (gorm_delete p)).

(** ** Credentials ([cloudcredential.go]) *)

Definition SetCloudCredential (c : CloudCredential) : M (Db T) CloudCredential :=
  _ ← ready;
  if decide (cc_CloudName c = "" \/ cc_OwnerIdentityName c = "" \/ cc_Name c = "")
  then throw (Codef CodeBadRequest "invalid cloudcredential tag %q" [ArgS (Path c)]) else
  map_err dbError (upsert (@credentials_tbl T) (fun old new =>
    MkCredential (cc_ID old) (cc_Name old) (cc_CloudName old) (cc_OwnerIdentityName old) (cc_AuthType new) (cc_Valid new)) c).

(** The credentials that [ForEachCloudCredential] passes to its function, with
    their clouds. *)
Definition with_cloud (c : CloudCredential) : M (Db T) (CloudCredential * Cloud) :=
  cloud ← preload_by clouds_tbl (fun cl => bool_decide (cl_Name cl = cc_CloudName c)) zeroCloud; mret (c, cloud).
Definition UserCloudCredentials (identityName cloud : string) : M (Db T) (list (CloudCredential * Cloud)) :=
  _ ← ready;
  map_err dbError (
    found ← credentials_tbl (find_all (fun c => bool_decide (cc_OwnerIdentityName c = identityName) &&
                                                (bool_decide (cloud = "") || bool_decide (cc_CloudName c = cloud))));
    map_range found with_cloud).
Definition GetAllCloudCredentials : M (Db T) (list CloudCredential) :=
  _ ← ready;
  map_err dbError (credentials_tbl (find_all (fun _ => true))).

(** [GetCloudCredential], with the cloud that it preloads. *)
Definition LoadCloudCredential (c : CloudCredential) : M (Db T) (CloudCredential * Cloud) :=
  row ← GetCloudCredential c;
  map_err (notFoundError (credentialNotFound c)) (with_cloud row).

Definition DeleteCloudCredential (c : CloudCredential) : M (Db T) unit :=
  _ ← ready;
  map_err dbError (rollback (
    _ ← unreferenced models_tbl (fun m => bool_decide (m_CloudCredentialID m = cc_ID c));
    credentials_tbl (gorm_delete c))).

(** ** Defaults ([clouddefaults.go]) *)

(** The cloud is given by its key, or by its name when the key is 0. *)
Definition GetCloudDefaults (identityName : string) (cloudID : Z) (cloudName region : string) : M (Db T) CloudDefaults :=
  _ ← ready;
  map_err (notFoundError (Codef CodeNotFound "cloudregiondefaults not found" []))
    (clouds ← clouds_tbl (find_all (fun c => if decide (cloudID <> 0%Z) then bool_decide (cl_ID c = cloudID)
                                             else bool_decide (cl_Name c = cloudName)));
     defaults_tbl (gorm_first (fun r => bool_decide (cd_IdentityName r = identityName /\ cd_Region r = region /\
                                                     cd_CloudID r ∈ fmap (M:=list) cl_ID clouds)))).

Definition with_Defaults (m : gmap string goany) (c : CloudDefaults) : CloudDefaults :=
  MkDefaults (cd_ID c) (cd_IdentityName c) (cd_CloudID c) (cd_Region c) m.
Definition put_defaults_row (c : CloudDefaults) : M (Db T) unit :=
  _ ← map_err dbError (upsert (@defaults_tbl T) (fun old new => with_Defaults (cd_Defaults new) old) c);
  mret tt.

(** New values are written over the stored ones. *)
Definition SetCloudDefaults (d : CloudDefaults) : M (Db T) unit :=
  _ ← ready;
  Transaction (
    r ← try (GetCloudDefaults (cd_IdentityName d) (cd_CloudID d) "" (cd_Region d));
    match r with
    | inl old => put_defaults_row (with_Defaults (cd_Defaults d ∪ cd_Defaults old) old)
    | inr err =>
        if decide (ErrorCode err = CodeNotFound)
        then _ ← map_err dbError (defaults_tbl (gorm_create d)); mret tt
        else throw err
    end).

Definition UnsetCloudDefaults (identityName cloudName region : string) (keys : list string) : M (Db T) unit :=
  _ ← ready;
  Transaction (
    old ← GetCloudDefaults identityName 0 cloudName region;
    put_defaults_row (with_Defaults (foldl (fun m k => delete k m) (cd_Defaults old) keys) old)).

Definition db_ModelDefaultsForCloud (identityName cloudName : string) : M (Db T) (list CloudDefaults) :=
  _ ← ready;
  map_err dbError (
    clouds ← clouds_tbl (find_all (fun c => bool_decide (cl_Name c = cloudName)));
    defaults_tbl (find_all (fun r => bool_decide (cd_IdentityName r = identityName /\ cd_CloudID r ∈ fmap (M:=list) cl_ID clouds)))).

(** ** Bootstraps ([controller_bootstrap.go]) *)

Definition bootstrapNotFound : gerror := Codef CodeNotFound "controller bootstrap not found" [].

Definition AddControllerBootstrap (b : ControllerBootstrap) : M (Db T) ControllerBootstrap :=
  _ ← ready;
  map_err dbError (bootstraps_tbl (gorm_create b)).

Definition GetControllerBootstrap (b : ControllerBootstrap) : M (Db T) ControllerBootstrap :=
  _ ← ready;
  p ← (if decide (cb_ID b <> 0%Z) then mret (fun r => bool_decide (cb_ID r = cb_ID b))
       else match cb_JobID b with
            | Some id => mret (fun r => bool_decide (cb_JobID r = Some id))
            | None => if decide (cb_Name b <> "") then mret (fun r => bool_decide (cb_Name r = cb_Name b))
                      else throw (Codef CodeBadRequest "controller bootstrap id, job id, or name must be provided" [])
            end);
  map_err (notFoundError bootstrapNotFound) (bootstraps_tbl (gorm_first p)).

Definition UpdateControllerBootstrap (b : ControllerBootstrap) : M (Db T) ControllerBootstrap :=
  if decide (cb_ID b = 0%Z) then throw bootstrapNotFound else
  _ ← ready;
  map_err dbError (bootstraps_tbl (gorm_save b)).

Definition DeleteControllerBootstrap (b : ControllerBootstrap) : M (Db T) unit :=
  if decide (cb_ID b = 0%Z) then throw bootstrapNotFound else
  _ ← ready;
  map_err dbError (bootstraps_tbl (gorm_delete b)).

Definition ListControllerBootstraps : M (Db T) (list ControllerBootstrap) :=
  _ ← ready;
  map_err dbError (bootstraps_tbl (gorm_find (fun _ => true) cb_Name None None)).

(** ** Incoming migrations ([modelmigration.go])

    The lock on the row is free: the transactions run one after the other. *)

Definition migrationNotFound : gerror := Codef CodeNotFound "model migration not found" [].
Definition migrationOf (uuid : string) : IncomingModelMigration := MkMigration 0 0 (Some uuid) 0 ∅.

(** The row and its [TargetController]. *)
Definition preloadMigration (m : IncomingModelMigration) : M (Db T) (IncomingModelMigration * Controller) :=
  c ← preload controllers_tbl c_ID (im_TargetControllerID m) zeroController; mret (m, c).

Definition GetIncomingModelMigrationWithLock (m : IncomingModelMigration) : M (Db T) (IncomingModelMigration * Controller) :=
  match im_ModelUUID m with
  | None => throw (Codef CodeBadRequest "missing uuid" [])
  | Some uuid =>
      map_err (notFoundError migrationNotFound)
        (row ← migrations_tbl (gorm_first (fun r => bool_decide (im_ModelUUID r = Some uuid))); preloadMigration row)
  end.
Definition GetIncomingModelMigration (m : IncomingModelMigration) : M (Db T) (IncomingModelMigration * Controller) :=
  _ ← ready;
  GetIncomingModelMigrationWithLock m.

(** [Save] writes every column of the given row, [CreatedAt] too. *)
Definition AddOrUpdateIncomingModelMigration (m : IncomingModelMigration) : M (Db T) unit :=
  _ ← ready;
  Transaction (
    r ← try (GetIncomingModelMigrationWithLock (MkMigration 0 0 (im_ModelUUID m) 0 ∅));
    m ← (match r with
         | inl (found, _) => mret (MkMigration (im_ID found) (im_CreatedAt m) (im_ModelUUID m) (im_TargetControllerID m) (im_UserMapping m))
         | inr err => if decide (ErrorCode err <> CodeNotFound) then throw err else mret m
         end);
    _ ← map_err dbError (migrations_tbl (gorm_save m));
    mret tt).

Definition DeleteIncomingModelMigration (m : IncomingModelMigration) : M (Db T) unit :=
  _ ← ready;
  map_err dbError (migrations_tbl (gorm_delete m)).

Definition GetIncomingModelMigrationsCreatedBefore (createBefore : Z) : M (Db T) (list (IncomingModelMigration * Controller)) :=
  _ ← ready;
  map_err dbError (
    found ← migrations_tbl (find_all (fun r => (im_CreatedAt r <? createBefore)%Z));
    map_range found preloadMigration).

End db.

(** ** What the operations find *)

(** A controller or a cloud as a lookup loads it. *)
Definition controller_loaded {T : Type -> Type} `{Gorm T} (d : Db T) (lc : LoadedController) : Prop :=
  lc_Controller lc ∈ rows (db_controllers d) /\
  Forall (fun lp => lp_Priority lp ∈ rows (db_priorities d) /\ crp_ControllerID (lp_Priority lp) = c_ID (lc_Controller lc) /\
            loaded reg_ID (rows (db_regions d)) (crp_CloudRegionID (lp_Priority lp)) zeroRegion (lp_CloudRegion lp))
    (lc_CloudRegions lc).

(** Equations between tables, row by row. *)
Ltac all_tables :=
  unfold tables, more_tables, put_regions, put_priorities, db_regions, db_priorities, db_bootstraps, db_migrations,
    db_sshkeys, db_profiles, db_audit in *; simpl in *; simplify_eq;
  repeat match goal with H : rows _ = rows _ |- _ => rewrite H in *; clear H end.

Section facts.
Context {T : Type -> Type} `{GormLaws T}.
Implicit Types d : Db T.

Lemma tables_more d d' :
  tables d' = tables d ->
  rows (db_regions d') = rows (db_regions d) /\ rows (db_priorities d') = rows (db_priorities d) /\
  rows (db_defaults d') = rows (db_defaults d) /\ rows (db_sshkeys d') = rows (db_sshkeys d) /\
  rows (db_migrations d') = rows (db_migrations d) /\ rows (db_bootstraps d') = rows (db_bootstraps d).
Proof. unfold tables, more_tables. intros Ht. by simplify_eq. Qed.

Lemma preloadController_sees c d :
  c ∈ rows (db_controllers d) ->
  wp (preloadController c) (sees (fun lc => controller_loaded d lc /\ lc_Controller lc = c) d) d.
Proof.
  intros Hc. unfold preloadController. eapply wp_sees_bind; [apply find_wp, part_priorities|]. intros ps d1 Ht1 Hps.
  eapply wp_sees_bind.
  - apply (map_range_sees (fun p => p ∈ rows (db_priorities d) /\ crp_ControllerID p = c_ID c)
             (fun p lp => lp_Priority lp = p /\ loaded reg_ID (rows (db_regions d)) (crp_CloudRegionID p) zeroRegion (lp_CloudRegion lp))).
    { apply Forall_forall. intros p [Hp Hk%bool_decide_eq_true]%Hps. done. }
    intros p d2 _ Ht2. eapply wp_sees_bind; [apply preload_sees, part_regions|]. intros r d3 Ht3 Hr.
    eapply wp_sees_bind; [apply preload_by_sees, part_clouds|]. intros cl d4 _ _. apply wp_sees_ret. split; [done|].
    simpl. apply tables_more in Ht2 as (Hr2 & _). apply tables_more in Ht1 as (Hr1 & _). by rewrite Hr2, Hr1 in Hr.
  - intros lps d2 _ Hl. apply wp_sees_ret. split; [|done]. split; [done|]. simpl. apply Forall_forall. intros lp (i & Hi)%list_elem_of_lookup.
    destruct (Forall2_lookup_r _ _ _ _ _ Hl Hi) as (p & Hp & <- & Hr). apply list_elem_of_lookup_2, Hps in Hp as [Hp Hk%bool_decide_eq_true].
    done.
Qed.

Lemma controller_loaded_tables d d' lc : tables d' = tables d -> controller_loaded d' lc -> controller_loaded d lc.
Proof.
  intros Ht. destruct (tables_eq _ _ Ht) as (_ & Hc & _). destruct (tables_more _ _ Ht) as (Hr & Hp & _).
  unfold controller_loaded. by rewrite Hc, Hr, Hp.
Qed.

Lemma AllControllers_sees d : wp AllControllers (sees (Forall (controller_loaded d)) d) d.
Proof.
  unfold AllControllers. apply wp_sees_ready, wp_sees_map_err. eapply wp_sees_bind; [apply find_wp, part_controllers|].
  intros l d1 Ht1 Hl. eapply wp_sees_mono.
  - apply (map_range_sees (fun c => c ∈ rows (db_controllers d)) (fun _ => controller_loaded d)).
    { apply Forall_forall. intros c Hc. by apply Hl. }
    intros c d2 Hc Ht2. assert (tables d2 = tables d) as Ht by congruence. eapply wp_sees_mono; [apply preloadController_sees|].
    { apply tables_eq in Ht as (_ & -> & _). done. }
    intros lc [Hlc _]. by eapply controller_loaded_tables.
  - intros lcs Hlcs. apply Forall_forall. intros lc (i & Hi)%list_elem_of_lookup.
    by destruct (Forall2_lookup_r _ _ _ _ _ Hlcs Hi) as (c & _ & ?).
Qed.

Lemma GetController_sees c d :
  wp (GetController c) (sees (fun r => r ∈ rows (db_controllers d) /\ (c_UUID c <> "" -> c_UUID r = c_UUID c) /\
    (c_UUID c = "" -> c_Name r = c_Name c)) d) d.
Proof.
  unfold GetController. apply wp_sees_ready, wp_bind.
  repeat case_decide; wp_value; [..|by split]; apply wp_sees_map_err; (eapply wp_sees_mono; [apply first_wp, part_controllers|]);
    intros r [Hin Hr]; apply andb_true_iff in Hr as [_ Hr%bool_decide_eq_true]; by split_and!.
Qed.

Lemma LoadController_sees c d :
  wp (LoadController c) (sees (fun lc => controller_loaded d lc /\ (c_UUID c <> "" -> c_UUID (lc_Controller lc) = c_UUID c) /\
    (c_UUID c = "" -> c_Name (lc_Controller lc) = c_Name c)) d) d.
Proof.
  unfold LoadController. eapply wp_sees_bind; [apply GetController_sees|]. intros r d1 Ht (Hin & Hu & Hn).
  apply wp_sees_map_err. eapply wp_sees_mono; [apply preloadController_sees|].
  - by destruct (tables_eq _ _ Ht) as (_ & -> & _).
  - intros lc [Hlc ->]. split; [|done]. by apply (controller_loaded_tables d d1).
Qed.

(** A region with the controllers that serve it, and a cloud with its regions. *)
Definition region_loaded d (lr : LoadedRegion) : Prop :=
  (forall p, p ∈ fst <$> lr_Controllers lr <-> p ∈ rows (db_priorities d) /\ crp_CloudRegionID p = reg_ID (lr_Region lr)) /\
  Forall (fun pc => loaded c_ID (rows (db_controllers d)) (crp_ControllerID pc.1) zeroController pc.2) (lr_Controllers lr).
Definition cloud_loaded d (lc : LoadedCloud) : Prop :=
  lcl_Cloud lc ∈ rows (db_clouds d) /\
  (forall r, r ∈ lr_Region <$> lcl_Regions lc <-> r ∈ rows (db_regions d) /\ reg_CloudName r = cl_Name (lcl_Cloud lc)) /\
  Forall (region_loaded d) (lcl_Regions lc).

Lemma region_loaded_tables d d' lr : tables d' = tables d -> region_loaded d' lr -> region_loaded d lr.
Proof.
  intros Ht. destruct (tables_eq _ _ Ht) as (_ & Hc & _). destruct (tables_more _ _ Ht) as (_ & Hp & _).
  unfold region_loaded. by rewrite Hc, Hp.
Qed.
Lemma cloud_loaded_tables d d' lc : tables d' = tables d -> cloud_loaded d' lc -> cloud_loaded d lc.
Proof.
  intros Ht. destruct (tables_eq _ _ Ht) as (_ & _ & _ & _ & Hcl & _). destruct (tables_more _ _ Ht) as (Hr & _).
  unfold cloud_loaded. rewrite Hcl, Hr. intros (? & ? & Hf). split_and!; [done..|].
  eapply Forall_impl; [exact Hf|]. intros lr. by apply region_loaded_tables.
Qed.

(** The images of a list that was preloaded element by element. *)
Lemma Forall2_image {A B} (g : B -> A) (P : B -> Prop) (l : list A) (k : list B) :
  Forall2 (fun a b => g b = a /\ P b) l k -> g <$> k = l /\ Forall P k.
Proof. induction 1 as [|a b l k [<- HP] _ [<- IH]]; [done|]. by split; [|constructor]. Qed.

Lemma preloadRegion_sees cloud r d :
  wp (preloadRegion cloud r) (sees (fun lr => lr_Region lr = r /\ lr_Cloud lr = cloud /\ region_loaded d lr) d) d.
Proof.
  unfold preloadRegion. eapply wp_sees_bind; [apply find_wp, part_priorities|]. intros ps d1 Ht1 Hps.
  eapply wp_sees_bind.
  - apply (map_range_sees (fun _ => True)
      (fun p pc => pc.1 = p /\ loaded c_ID (rows (db_controllers d)) (crp_ControllerID pc.1) zeroController pc.2)).
    { by apply Forall_true. }
    intros p d2 _ Ht2. eapply wp_sees_bind; [apply preload_sees, part_controllers|]. intros c d3 _ Hc. apply wp_sees_ret. split; [done|].
    destruct (tables_eq _ _ Ht2) as (_ & H2 & _). destruct (tables_eq _ _ Ht1) as (_ & H3 & _). by rewrite H2, H3 in Hc.
  - intros cs d2 _ Hcs'. destruct (Forall2_image fst _ _ _ Hcs') as [Himg Hcs]. apply wp_sees_ret. split_and!; [done..|]. split; [|done].
    cbv beta in Hps. intros p. cbn [lr_Controllers lr_Region]. rewrite Himg, Hps, bool_decide_eq_true. done.
Qed.

Lemma preloadCloud_sees c d :
  c ∈ rows (db_clouds d) -> wp (preloadCloud c) (sees (fun lc => cloud_loaded d lc /\ lcl_Cloud lc = c) d) d.
Proof.
  intros Hc. unfold preloadCloud. eapply wp_sees_bind; [apply find_wp, part_regions|]. intros rs d1 Ht1 Hrs.
  eapply wp_sees_bind.
  - apply (map_range_sees (fun _ => True) (fun r lr => lr_Region lr = r /\ region_loaded d lr)); [by apply Forall_true|].
    intros r d2 _ Ht2. eapply wp_sees_mono; [apply preloadRegion_sees|]. intros lr (-> & _ & Hlr). split; [done|].
    apply (region_loaded_tables d d2); [congruence|done].
  - intros lrs d2 _ Hlrs'. destruct (Forall2_image lr_Region _ _ _ Hlrs') as [Himg Hlrs]. apply wp_sees_ret. split; [|done]. split_and!; [done| |done].
    cbv beta in Hrs. intros r. cbn [lcl_Regions lcl_Cloud]. rewrite Himg, Hrs, bool_decide_eq_true. done.
Qed.

Lemma LoadCloud_sees c d :
  wp (LoadCloud c) (sees (fun lc => cloud_loaded d lc /\ cl_Name (lcl_Cloud lc) = cl_Name c) d) d.
Proof.
  unfold LoadCloud, GetCloud. eapply wp_sees_bind.
  - apply wp_sees_ready, wp_sees_map_err, first_wp, part_clouds.
  - intros r d1 Ht [Hin [_ Hn%bool_decide_eq_true]%andb_true_iff]. apply wp_sees_map_err.
    eapply wp_sees_mono; [apply preloadCloud_sees|].
    + by destruct (tables_eq _ _ Ht) as (_ & _ & _ & _ & -> & _).
    + intros lc [Hlc ->]. split; [|done]. by apply (cloud_loaded_tables d d1).
Qed.

Lemma GetClouds_sees d : wp GetClouds (sees (Forall (cloud_loaded d)) d) d.
Proof.
  unfold GetClouds. apply wp_sees_ready. eapply wp_sees_bind; [apply find_wp, part_clouds|]. intros l d1 Ht1 Hl. cbv beta in Hl.
  eapply wp_sees_mono.
  - apply (map_range_sees (fun c => c ∈ rows (db_clouds d)) (fun c lc => lcl_Cloud lc = c /\ cloud_loaded d lc)).
    { apply Forall_forall. intros c Hc. by apply Hl. }
    intros c d2 Hc Ht2. assert (tables d2 = tables d) as Ht by congruence. eapply wp_sees_mono; [apply preloadCloud_sees|].
    { by destruct (tables_eq _ _ Ht) as (_ & _ & _ & _ & -> & _). }
    intros lc [Hlc Heq]. split; [done|]. by apply (cloud_loaded_tables d d2).
  - intros lcs Hlcs. by destruct (Forall2_image lcl_Cloud _ _ _ Hlcs).
Qed.

Lemma CountControllers_sees d : wp CountControllers (sees (fun _ => True) d) d.
Proof.
  unfold CountControllers. apply wp_sees_ready, wp_sees_map_err, wp_zoom. eapply wp_mono; [apply law_count|].
  intros o t (Ht & Ha & _). split; [|done]. split; [done|]. by apply part_controllers.
Qed.

Lemma GetCloudDefaults_sees identity id name region d :
  wp (GetCloudDefaults identity id name region) (sees (fun r => r ∈ rows (db_defaults d) /\ cd_IdentityName r = identity /\ cd_Region r = region) d) d.
Proof.
  unfold GetCloudDefaults. apply wp_sees_ready, wp_sees_map_err. eapply wp_sees_bind; [apply find_wp, part_clouds|]. intros cs d1 Ht _.
  eapply wp_sees_mono; [apply first_wp, part_defaults|]. intros r [Hin (Hi & Hr & _)%bool_decide_eq_true].
  split_and!; [|done|done]. by destruct (tables_more _ _ Ht) as (_ & _ & <- & _).
Qed.

Lemma GetIdentityCloudCredentials_sees u cloud d :
  wp (GetIdentityCloudCredentials u cloud) (sees (Forall (fun c => c ∈ rows (db_credentials d) /\ cc_CloudName c = cloud /\
    cc_OwnerIdentityName c = i_Name u)) d) d.
Proof.
  unfold GetIdentityCloudCredentials. case_decide; [by wp_value; split|]. apply wp_sees_ready. eapply wp_sees_mono; [apply find_wp, part_credentials|].
  intros l Hl. apply Forall_forall. intros c [Hin [Hc Ho]%bool_decide_eq_true]%Hl. done.
Qed.

(** A statement that is undone when it fails. *)
Definition yields {A} (P : A -> Db T -> Prop) (o : outcome A) d : Prop := answered o /\ forall a, o = Ok a -> P a d.

Lemma yields_bind {A B} (P : A -> Db T -> Prop) (Q : B -> Db T -> Prop) (m : M (Db T) A) (k : A -> M (Db T) B) d :
  wp m (yields P) d -> (forall a d', P a d' -> wp (k a) (yields Q) d') -> wp (m ≫= k) (yields Q) d.
Proof.
  intros Hm Hk. apply wp_bind. eapply wp_mono; [exact Hm|]. intros [a|e|x|] d' [Ha HP]; cbn [bind_post]; [|done..]. by apply Hk, HP.
Qed.
Lemma yields_sees {A} (P : A -> Prop) (m : M (Db T) A) d :
  wp m (sees P d) d -> wp m (yields (fun a d' => tables d' = tables d /\ P a)) d.
Proof. intros Hm. eapply wp_mono; [exact Hm|]. intros o d' [[Ha Ht] HP]. split; [done|]. intros a Hoa. split; [done|by apply HP]. Qed.
Lemma yields_delete_where {R} `{Row R} (get : Db T -> T R) put p d :
  wp (zoom get put (gorm_delete_where p))
     (yields (fun _ d' => exists t, d' = put t d /\ rows t = filter (fun x => p x = false) (rows (get d)))) d.
Proof. apply delete_where_wp. intros o t Ha Ht. split; [done|]. intros a ->. by exists t. Qed.
Lemma yields_delete {R} `{Row R} (get : Db T -> T R) put r d :
  wp (zoom get put (gorm_delete r))
     (yields (fun _ d' => exists t, d' = put t d /\ row_id r <> 0%Z /\ rows t = filter (fun x => row_id x <> row_id r) (rows (get d)))) d.
Proof.
  apply wp_zoom. eapply wp_mono; [apply law_delete|]. intros o t [Ha Ho]. split; [done|]. intros a ->. exists t. by split.
Qed.
Lemma yields_rollback {A} (P : A -> Db T -> Prop) (m : M (Db T) A) d :
  wp m (yields P) d -> wp (rollback m) (fun o d' => answered o /\ match o with Ok a => P a d' | _ => d' = d end) d.
Proof. intros Hm. apply wp_rollback. eapply wp_mono; [exact Hm|]. intros [] d' [Ha HP]; split; auto. Qed.

Lemma unreferenced_yields {R} (get : Db T -> T R) put p d :
  part get put ->
  wp (unreferenced (zoom get put) p) (yields (fun _ d' => tables d' = tables d /\ Forall (fun x => p x = false) (rows (get d)))) d.
Proof.
  intros Hput. unfold unreferenced. eapply yields_bind; [by apply yields_sees, find_wp|].
  intros [|x l] d' [Ht Hl]; wp_value; split; try done. intros a _. split; [done|]. apply Forall_forall. intros x Hx.
  destruct (p x) eqn:Hp; [|done]. exfalso. apply (not_elem_of_nil x). by apply Hl.
Qed.

(** What the deletion of a cloud leaves: the cloud with its regions, their
    priorities and its credentials is gone, and no row that stays refers to
    one of them. *)
Definition apart_cloud d :=
  (rows (db_groups d), rows (db_roles d), rows (db_identities d), rows (db_controllers d), rows (db_models d),
   rows (db_offers d), rows (db_mappings d), rows (db_defaults d),
   (rows (db_bootstraps d), rows (db_migrations d), rows (db_sshkeys d), rows (db_profiles d), rows (db_audit d))).
Definition gone_names (c : Cloud) d : list string := cl_Name <$> filter (fun x => cl_ID x = cl_ID c) (rows (db_clouds d)).
Definition gone_regions (names : list string) d : list Z := reg_ID <$> filter (fun r => reg_CloudName r ∈ names) (rows (db_regions d)).
Definition deleted_cloud (c : Cloud) d d' : Prop :=
  let names := gone_names c d in
  apart_cloud d' = apart_cloud d /\
  rows (db_clouds d') = filter (fun x => cl_ID x <> cl_ID c) (rows (db_clouds d)) /\
  rows (db_regions d') = filter (fun r => reg_CloudName r ∉ names) (rows (db_regions d)) /\
  rows (db_priorities d') = filter (fun p => crp_CloudRegionID p ∉ gone_regions names d) (rows (db_priorities d)) /\
  rows (db_credentials d') = filter (fun x => cc_CloudName x ∉ names) (rows (db_credentials d)) /\
  Forall (fun m => m_CloudRegionID m ∉ gone_regions names d) (rows (db_models d)) /\
  Forall (fun x => c_CloudName x ∉ names) (rows (db_controllers d)).

Lemma elem_image {A B} (f : A -> B) (P : A -> Prop) `{forall x, Decision (P x)} (l k : list A) b :
  (forall x, x ∈ l <-> x ∈ k /\ P x) -> b ∈ f <$> l <-> b ∈ f <$> filter P k.
Proof. intros Hl. rewrite !list_elem_of_fmap. setoid_rewrite list_elem_of_filter. setoid_rewrite Hl. naive_solver. Qed.

Lemma filter_all {A} (P : A -> Prop) `{forall x, Decision (P x)} (l : list A) : (forall x, P x) -> filter P l = l.
Proof. intros HP. induction l as [|x l IH]; [done|]. by rewrite filter_cons_True, IH. Qed.

Lemma list_filter_all_on {A} (P : A -> Prop) `{forall x, Decision (P x)} (l : list A) : (forall x, x ∈ l -> P x) -> filter P l = l.
Proof.
  intros HP. induction l as [|x l IH]; [done|]. rewrite filter_cons_True by (apply HP; by constructor). f_equal.
  apply IH. intros y Hy. apply HP. by constructor.
Qed.

Lemma filter_iff_false {A} (p : A -> bool) (P : A -> Prop) `{forall x, Decision (P x)} (l : list A) :
  (forall x, p x = false <-> P x) -> filter (fun x => p x = false) l = filter P l.
Proof. intros HP. by apply list_filter_iff. Qed.

Lemma delete_regions_yields p d :
  wp (delete_regions p) (yields (fun _ d' =>
    let ids := reg_ID <$> filter (fun r => p r = true) (rows (db_regions d)) in
    exists tr tp d1, tables d1 = tables d /\ d' = put_priorities tp (put_regions tr d1) /\
      rows tr = filter (fun r => p r = false) (rows (db_regions d)) /\
      rows tp = filter (fun x => crp_CloudRegionID x ∉ ids) (rows (db_priorities d)) /\
      Forall (fun m => m_CloudRegionID m ∉ ids) (rows (db_models d)))) d.
Proof.
  unfold delete_regions. eapply yields_bind; [apply yields_sees, find_wp, part_regions|]. intros gone d1 [Ht1 Hg]. cbv beta in Hg.
  eapply yields_bind; [apply unreferenced_yields, part_models|]. intros _ d2 [Ht2 Hm].
  eapply yields_bind; [apply yields_delete_where|]. intros _ d3 (tr & -> & Htr).
  eapply wp_mono; [apply yields_delete_where|]. intros o d4 [Ha Hd4]. split; [done|]. intros a ->.
  destruct (Hd4 a eq_refl) as (tp & -> & Htp). exists tr, tp, d2. split_and!; [congruence|done|..].
  - rewrite Htr. destruct (tables_more _ _ Ht2) as (-> & _). by destruct (tables_more _ _ Ht1) as (-> & _).
  - rewrite Htp. unfold put_regions, db_priorities. simpl. change (more_priorities (db_more d2)) with (db_priorities d2).
    destruct (tables_more _ _ Ht2) as (_ & -> & _). destruct (tables_more _ _ Ht1) as (_ & -> & _).
    apply filter_iff_false. intros x. rewrite bool_decide_eq_false. by rewrite (elem_image reg_ID _ _ _ _ Hg).
  - destruct (tables_eq _ _ Ht1) as (_ & _ & Hm1 & _). rewrite Hm1 in Hm.
    eapply Forall_impl; [exact Hm|]. intros m Hid%bool_decide_eq_false. by rewrite (elem_image reg_ID _ _ _ _ Hg) in Hid.
Qed.

Lemma DeleteCloud_wp c d :
  wp (DeleteCloud c) (fun o d' => answered o /\ match o with Ok _ => deleted_cloud c d d' | _ => tables d' = tables d end) d.
Proof.
  unfold DeleteCloud. apply wp_ready; [intros _ _|by intros e _]. apply wp_map_err.
  eapply wp_mono; [apply (yields_rollback (fun _ d' => deleted_cloud c d d'))|].
  2: { intros [] d' [Ha Hd]; (split; [done|]); try done; by rewrite Hd. }
  eapply yields_bind; [apply yields_sees, find_wp, part_clouds|]. intros gone d1 [Ht1 Hg]. cbv beta in Hg.
  assert (forall n, n ∈ cl_Name <$> gone <-> n ∈ gone_names c d) as Hnames.
  { intros n. apply elem_image. intros x. by rewrite Hg, bool_decide_eq_true. }
  eapply yields_bind; [apply unreferenced_yields, part_controllers|]. intros _ d2 [Ht2 Hctl].
  eapply yields_bind; [apply unreferenced_yields, part_defaults|]. intros _ d3 [Ht3 _].
  eapply yields_bind; [apply yields_sees, find_wp, part_credentials|]. intros creds d4 [Ht4 _].
  eapply yields_bind; [apply unreferenced_yields, part_models|]. intros _ d5 [Ht5 _].
  assert (tables d5 = tables d) as Ht by congruence. clear Ht3 Ht4 Ht5.
  eapply yields_bind; [apply yields_delete|]. intros _ d6 (tc & -> & _ & Htc).
  eapply yields_bind; [apply delete_regions_yields|]. intros _ d7 (tr & tp & d8 & Ht8 & -> & Htr & Htp & Hmod).
  eapply wp_mono; [apply yields_delete_where|]. intros o d9 [Ha Hd9]. split; [done|]. intros a ->.
  destruct (Hd9 a eq_refl) as (tk & -> & Htk). clear Hd9 Ha a.
  assert (forall n, n ∉ cl_Name <$> gone <-> n ∉ gone_names c d) as Hnames' by (intros n; by rewrite Hnames).
  assert (forall n, n ∈ reg_ID <$> filter (fun r => bool_decide (reg_CloudName r ∈ cl_Name <$> gone) = true) (rows (db_regions d)) <->
                    n ∈ gone_regions (gone_names c d) d) as Hids.
  { intros n. unfold gone_regions. apply elem_image. intros x. rewrite list_elem_of_filter, bool_decide_eq_true, Hnames. tauto. }
  assert (Forall (fun x => c_CloudName x ∉ gone_names c d) (rows (db_controllers d))) as Hctl'.
  { destruct (tables_eq _ _ Ht1) as (_ & <- & _). eapply Forall_impl; [exact Hctl|]. intros x Hx%bool_decide_eq_false. by apply Hnames'. }
  clear Hctl Hnames Hg Ht1 Ht2. unfold deleted_cloud, apart_cloud, gone_regions in *. all_tables.
  split_and!; [done|congruence|..|done].
  - rewrite Htr. apply filter_iff_false. intros x. by rewrite bool_decide_eq_false.
  - rewrite Htp. apply list_filter_iff. intros x. by rewrite Hids.
  - rewrite Htk. apply filter_iff_false. intros x. by rewrite bool_decide_eq_false.
  - eapply Forall_impl; [exact Hmod|]. intros x Hx. by rewrite <- Hids.
Qed.

Lemma deleted_cloud_tables c d d1 d' : tables d1 = tables d -> deleted_cloud c d1 d' -> deleted_cloud c d d'.
Proof. intros Ht. unfold deleted_cloud, apart_cloud, gone_regions, gone_names in *. all_tables. done. Qed.

(** The tables that an operation on priorities leaves alone. *)
Definition apart_priorities d :=
  (rows (db_groups d), rows (db_roles d), rows (db_identities d), rows (db_controllers d), rows (db_models d),
   rows (db_offers d), rows (db_clouds d), rows (db_mappings d), rows (db_credentials d), rows (db_defaults d),
   (rows (db_regions d), rows (db_bootstraps d), rows (db_migrations d), rows (db_sshkeys d), rows (db_profiles d), rows (db_audit d))).
Lemma apart_priorities_tables d d' : tables d' = tables d -> apart_priorities d' = apart_priorities d.
Proof. intros Ht. unfold apart_priorities. all_tables. done. Qed.

Lemma DeletePriority_wp p d :
  wp (DeleteCloudRegionControllerPriority p) (fun o d' => answered o /\ apart_priorities d' = apart_priorities d /\
    rows (db_priorities d') = match o with
                              | Ok _ => filter (fun x => crp_ID x <> crp_ID p) (rows (db_priorities d))
                              | _ => rows (db_priorities d) end) d.
Proof.
  unfold DeleteCloudRegionControllerPriority. apply wp_ready; [intros _ _|by intros e _]. apply wp_map_err, wp_zoom.
  eapply wp_mono; [apply law_delete|]. intros [] t [Ha Ho]; split_and!; try done. apply Ho.
Qed.

(** Credentials *)

Definition apart_credentials d :=
  (rows (db_groups d), rows (db_roles d), rows (db_identities d), rows (db_controllers d), rows (db_models d),
   rows (db_offers d), rows (db_clouds d), rows (db_mappings d), rows (db_defaults d), more_tables d).
Lemma apart_credentials_tables d d' : tables d' = tables d -> apart_credentials d' = apart_credentials d.
Proof. intros Ht. unfold apart_credentials. all_tables. done. Qed.

Lemma LoadCloudCredential_sees c d :
  wp (LoadCloudCredential c) (sees (fun r => r.1 ∈ rows (db_credentials d) /\ row_conflict r.1 c = true) d) d.
Proof.
  unfold LoadCloudCredential, GetCloudCredential. eapply wp_sees_bind.
  { apply wp_sees_ready. case_decide; [by wp_value; split|]. apply wp_sees_map_err, first_wp, part_credentials. }
  intros r d1 Ht [Hin [_ Hc]%andb_true_iff]. apply wp_sees_map_err. unfold with_cloud.
  eapply wp_sees_bind; [apply preload_by_sees, part_clouds|]. intros cl d2 _ _. by apply wp_sees_ret.
Qed.

Lemma GetModelsUsingCredential_sees id d :
  wp (GetModelsUsingCredential id) (sees (fun l => forall m, m ∈ fst <$> l <-> m ∈ rows (db_models d) /\ m_CloudCredentialID m = id) d) d.
Proof.
  unfold GetModelsUsingCredential. apply wp_sees_ready, wp_sees_map_err. eapply wp_sees_bind; [apply find_wp, part_models|].
  intros l d1 Ht Hl. cbv beta in Hl. eapply wp_sees_mono.
  - apply (map_range_sees (fun _ => True) (fun m mc => mc.1 = m /\ True)); [by apply Forall_true|].
    intros m d2 _ _. eapply wp_sees_bind; [apply preload_sees, part_controllers|]. intros c d3 _ _. by apply wp_sees_ret.
  - intros k Hk m. destruct (Forall2_image fst _ _ _ Hk) as [Himg _]. rewrite Himg, Hl, bool_decide_eq_true. done.
Qed.

Lemma DeleteCloudCredential_wp c d :
  wp (DeleteCloudCredential c) (fun o d' => answered o /\ match o with
    | Ok _ => apart_credentials d' = apart_credentials d /\
              rows (db_credentials d') = filter (fun x => cc_ID x <> cc_ID c) (rows (db_credentials d)) /\
              Forall (fun m => m_CloudCredentialID m <> cc_ID c) (rows (db_models d))
    | _ => tables d' = tables d end) d.
Proof.
  unfold DeleteCloudCredential. apply wp_ready; [intros _ _|by intros e _]. apply wp_map_err.
  eapply wp_mono; [apply (yields_rollback (fun _ d' => apart_credentials d' = apart_credentials d /\
              rows (db_credentials d') = filter (fun x => cc_ID x <> cc_ID c) (rows (db_credentials d)) /\
              Forall (fun m => m_CloudCredentialID m <> cc_ID c) (rows (db_models d))))|].
  2: { intros [] d' [Ha Hd]; (split; [done|]); try done; by rewrite Hd. }
  eapply yields_bind; [apply unreferenced_yields, part_models|]. intros _ d1 [Ht Hm].
  eapply wp_mono; [apply yields_delete|]. intros o d2 [Ha Hd]. split; [done|]. intros a ->. destruct (Hd a eq_refl) as (t & -> & _ & Hrows).
  destruct (tables_eq _ _ Ht) as (_ & _ & _ & _ & _ & _ & Hc). rewrite Hc in Hrows. split_and!; [|exact Hrows|].
  - by apply (apart_credentials_tables d d1).
  - eapply Forall_impl; [exact Hm|]. by intros m Hid%bool_decide_eq_false.
Qed.

(** The credential of a path is stored with its new columns, the others are
    as before. *)
Definition credentials_ok (l : list CloudCredential) : Prop := unique_rows l /\ Forall (fun c => cc_ID c <> 0%Z) l.
Definition stored_credential (c r : CloudCredential) (l l' : list CloudCredential) : Prop :=
  r ∈ l' /\ row_conflict r c = true /\ cc_AuthType r = cc_AuthType c /\ cc_Valid r = cc_Valid c /\
  forall x, row_conflict x c = false -> x ∈ l <-> x ∈ l'.

Lemma credential_conflict (a b : CloudCredential) :
  row_conflict a b = true <-> cc_CloudName a = cc_CloudName b /\ cc_OwnerIdentityName a = cc_OwnerIdentityName b /\ cc_Name a = cc_Name b.
Proof. simpl. apply bool_decide_eq_true. Qed.

Lemma replaced_credential (old m : CloudCredential) l :
  unique_rows l -> old ∈ l -> cc_ID m = cc_ID old -> row_conflict m old = true ->
  m ∈ (fun x => if decide (cc_ID x = cc_ID m) then m else x) <$> l /\
  forall x, row_conflict x old = false -> x ∈ l <-> x ∈ (fun x => if decide (cc_ID x = cc_ID m) then m else x) <$> l.
Proof.
  intros [Hnd _] Hold Hid Hmo. split.
  - apply list_elem_of_fmap. exists old. by rewrite decide_True.
  - intros x Hx. rewrite list_elem_of_fmap. split.
    + intros Hin. exists x. split; [|done]. case_decide as Hk; [|done]. exfalso. rewrite Hid in Hk.
      enough (x = old) as -> by (by rewrite (proj2 (credential_conflict old old)) in Hx).
      apply list_elem_of_lookup in Hin as [i Hi], Hold as [k Hk']. assert (i = k) as <-; [|congruence].
      eapply (NoDup_lookup (cc_ID <$> l)); [done|by rewrite list_lookup_fmap, Hi|]. rewrite list_lookup_fmap, Hk'. simpl. by f_equal.
    + intros (y & -> & Hy). case_decide; [congruence|done].
Qed.

Lemma conflict_swap (a b c : CloudCredential) : row_conflict a b = true -> row_conflict c a = row_conflict c b.
Proof. intros (H1' & H2' & H3')%credential_conflict. simpl. by rewrite H1', H2', H3'. Qed.

Lemma SetCloudCredential_wp c d :
  credentials_ok (rows (db_credentials d)) ->
  wp (SetCloudCredential c) (fun o d' => answered o /\ apart_credentials d' = apart_credentials d /\
    match o with
    | Ok r => stored_credential c r (rows (db_credentials d)) (rows (db_credentials d'))
    | _ => rows (db_credentials d') = rows (db_credentials d)
    end) d.
Proof.
  intros [Hu Hnz]. unfold SetCloudCredential. apply wp_ready; [intros _ _|by intros e _]. case_decide; [by wp_value|].
  apply wp_map_err. unfold upsert. apply wp_rollback, wp_bind. eapply wp_mono; [apply find_wp, part_credentials|].
  intros o d1 [[Ha Ht] Hl]. destruct (tables_eq _ _ Ht) as (_ & _ & _ & _ & _ & _ & Hc). pose proof (apart_credentials_tables _ _ Ht) as Hap.
  destruct o as [[|old l]|e|x|]; cbn [bind_post]; [| |by split_and!..|done]; specialize (Hl _ eq_refl); cbv beta in Hl.
  - apply wp_zoom. eapply wp_mono; [apply law_create; by rewrite Hc|]. intros o t [Ha2 Ho].
    destruct o as [r|e|x|]; split_and!; try done. simpl. rewrite Hc in Ho. destruct Ho as ((i & now & Hi & ->) & -> & _).
    split_and!; [set_solver| |done..|].
    + apply credential_conflict. done.
    + intros x Hx. rewrite elem_of_app, list_elem_of_singleton. split; [by left|]. intros [?| ->]; [done|].
      by rewrite (proj2 (credential_conflict _ _)) in Hx.
  - assert (old ∈ rows (db_credentials d) /\ row_conflict c old = true) as [Hin Hco] by (apply Hl; by constructor).
    set (m := MkCredential _ _ _ _ _ _). apply wp_zoom. eapply wp_mono; [apply (law_save m); by rewrite Hc|]. intros o t [Ha2 Ho].
    destruct o as [r|e|x|]; split_and!; try done. simpl. rewrite Hc in Ho. unfold saved in Ho.
    rewrite decide_False in Ho by (rewrite Forall_forall in Hnz; exact (Hnz old Hin)).
    rewrite decide_True in Ho by (apply list_elem_of_fmap; by exists old). destruct Ho as ([now ->] & _ & ->).
    destruct (replaced_credential old m _ Hu Hin eq_refl) as [Hm Hx]; [by apply credential_conflict|].
    assert (row_conflict m c = true) as Hmc by (apply credential_conflict in Hco as (? & ? & ?); by apply credential_conflict).
    split_and!; [exact Hm|exact Hmc|done..|]. intros x Hxc. apply Hx. by rewrite <- (conflict_swap c old x Hco).
Qed.

(** Identities *)

Definition apart_identities d :=
  (rows (db_groups d), rows (db_roles d), rows (db_controllers d), rows (db_models d),
   rows (db_offers d), rows (db_clouds d), rows (db_mappings d), rows (db_credentials d), rows (db_defaults d), more_tables d).
Lemma apart_identities_tables d d' : tables d' = tables d -> apart_identities d' = apart_identities d.
Proof. intros Ht. unfold apart_identities. all_tables. done. Qed.

Lemma GetIdentity_keeps u d :
  unique_rows (rows (db_identities d)) ->
  wp (GetIdentity u) (fun o d' => answered o /\ apart_identities d' = apart_identities d /\
    (forall x, x ∈ rows (db_identities d) -> x ∈ rows (db_identities d')) /\
    forall i, o = Ok i -> i_Name i = i_Name u) d.
Proof.
  intros Hu. unfold GetIdentity. case_decide; [by wp_value; split_and!|]. apply wp_ready; [intros _ _|by intros e _; split_and!].
  apply wp_bind, wp_zoom. eapply wp_mono; [by apply law_create_nothing|]. intros [[i|]|e|x|] t [Ha Ht]; simpl in *.
  - wp_value. destruct Ht as ((k & now & Hk & ->) & Ht & _). simpl. rewrite Ht. split_and!; [done|done|set_solver|].
    intros i' Hi. by apply (inj Ok) in Hi as <-.
  - destruct Ht as [Ht _]. apply wp_zoom. eapply wp_mono; [apply law_first|]. intros o t2 (Ht2 & Ha2 & Ho). simpl in *. rewrite Ht2, Ht.
    split_and!; [done|done|done|]. intros i ->. destruct Ho as [_ [_ Hn%bool_decide_eq_true]%andb_true_iff]. done.
  - rewrite Ht. by split_and!.
  - rewrite Ht. by split_and!.
  - done.
Qed.

End facts.
