(* ===== verification/JujuBase.v ===== *)
(** * JujuBase: the Juju manager and the controllers it talks to
    ([internal/jimm/juju/juju.go], [utils.go], [interface.go]).

    The manager works on the authorisation service, the database and the Juju
    controllers.  The controllers are reached through the interfaces [Dialer]
    and [API]; they and the store of secrets are the class [Controllers] on a
    state [C] of their own: a call may change it and may fail.  [Info] is data
    that JIMM passes on without reading it.

    The lemmas of this file are about steps that only read: [quiet] says that
    the tuples, the tables and the controllers are as before. *)

From S2P Require Import Prelude Errors Regexp Names AuthModel RefServer OpenFGA Dbmodel Users Database TagResolver Access JujuDb CloudDb.

(** ** Data of the controllers *)

Record UserInfo := MkUserInfo { ui_UserName : string; ui_Access : string }.

(** [names.CloudCredentialTag]. *)
Record CredTag := MkCredTag { ct_Cloud : string; ct_Owner : string; ct_Name : string }.

(** [jujuclient.ModelInfo]; [mi_MigrationStatus] is the end of a migration. *)
Record ModelInfo (Info : Type) := MkModelInfo {
  mi_Name : string; mi_UUID : string; mi_Owner : string; mi_Life : string;
  mi_Cloud : string; mi_CloudRegion : string; mi_CloudCredential : string; mi_ControllerUUID : string;
  mi_Users : list UserInfo; mi_Machines : list Info; mi_MigrationStatus : option (option Z); mi_Rest : Info;
}.
Arguments MkModelInfo {Info}.
Arguments mi_Name {Info}. Arguments mi_UUID {Info}. Arguments mi_Owner {Info}. Arguments mi_Life {Info}.
Arguments mi_Cloud {Info}. Arguments mi_CloudRegion {Info}. Arguments mi_CloudCredential {Info}.
Arguments mi_ControllerUUID {Info}. Arguments mi_Users {Info}. Arguments mi_Machines {Info}.
Arguments mi_MigrationStatus {Info}. Arguments mi_Rest {Info}.

(** [base.ModelStatus]: what the controller says, or the fallback. *)
Record ModelStatus_ (Info : Type) := MkModelStatus {
  ms_UUID : string; ms_Life : string; ms_Owner : string; ms_Rest : option Info;
}.
Arguments MkModelStatus {Info}. Arguments ms_UUID {Info}. Arguments ms_Life {Info}. Arguments ms_Owner {Info}.
Arguments ms_Rest {Info}.

(** [crossmodel.ApplicationOfferDetails]. *)
Record OfferDetails (Info : Type) := MkOfferDetails {
  od_OfferUUID : string; od_OfferName : string; od_OfferURL : string;
  od_Connections : list Info; od_Users : list UserInfo; od_Rest : Info;
}.
Arguments MkOfferDetails {Info}. Arguments od_OfferUUID {Info}. Arguments od_OfferName {Info}.
Arguments od_OfferURL {Info}. Arguments od_Connections {Info}. Arguments od_Users {Info}. Arguments od_Rest {Info}.

(** [jujuparams.ExternalControllerInfo] and [ConsumeOfferDetails]. *)
Record ExternalControllerInfo := MkExternal {
  ex_ControllerTag : string; ex_Alias : string; ex_Addrs : list string; ex_CACert : string;
}.
Record ConsumeDetails (Info : Type) := MkConsume {
  cd_Offer : OfferDetails Info; cd_ControllerInfo : option ExternalControllerInfo; cd_Macaroon : Info;
}.
Arguments MkConsume {Info}. Arguments cd_Offer {Info}. Arguments cd_ControllerInfo {Info}. Arguments cd_Macaroon {Info}.

(** [jujuclient.OfferParams] and [CreateModelArgs]. *)
Record OfferParams := MkOfferParams {
  op_ModelUUID : string; op_Owner : string; op_OfferName : string;
  op_Application : string; op_Desc : string; op_Endpoints : list string;
}.
(** [crossmodel.ApplicationOfferFilter]; the other conditions are its text. *)
Record OfferFilter := MkOfferFilter { of_OwnerName : string; of_ModelName : string; of_Rest : string }.
Record CreateModelArgs := MkCreateModel {
  ca_Name : string; ca_Owner : string; ca_Config : gmap string goany;
  ca_Cloud : string; ca_CloudRegion : string; ca_CloudCredentialTag : Tag;
}.
(** [jujuparams.TaggedCredential]. *)
Record TaggedCredential := MkTagged { tc_Tag : string; tc_AuthType : string; tc_Attributes : gmap string string }.
(** [jujuparams.UpdateCredentialModelResult] and [UpdateCredentialResult]. *)
Record CredentialModel (Info : Type) := MkCredentialModel { cm_Model : Info; cm_Errors : list gerror }.
Arguments MkCredentialModel {Info}. Arguments cm_Model {Info}. Arguments cm_Errors {Info}.
Record UpdateCredentialResult (Info : Type) := MkUpdateResult { ur_Models : list (CredentialModel Info); ur_Error : option gerror }.
Arguments MkUpdateResult {Info}. Arguments ur_Models {Info}. Arguments ur_Error {Info}.
(** [jujuparams.CredentialContent]: the name and the attributes. *)
Record CredentialContent := MkContent { cr_Name : string; cr_Attributes : gmap string string }.

(** [jujucloud.Region] and [jujucloud.Cloud]. *)
Record JujuRegion := MkJujuRegion { jr_Name : string; jr_Endpoints : Endpoints }.
Record JujuCloud := MkJujuCloud {
  jc_Name : string; jc_Type : string; jc_HostCloudRegion : string; jc_AuthTypes : list string; jc_Endpoints : Endpoints;
  jc_Regions : list JujuRegion; jc_CACertificates : list string; jc_SkipTLSVerify : bool;
  jc_Config : option (gmap string goany); jc_RegionConfig : gmap string (gmap string goany);
}.
(** [jujuparams.MigrationTargetInfo] and [MigrationSpec], and the
    [MigrationSpec] of the controller client. *)
Record MigrationTargetInfo := MkTarget {
  mt_ControllerTag : string; mt_ControllerAlias : string; mt_Addrs : list string; mt_CACert : string;
  mt_AuthTag : string; mt_Password : string; mt_Macaroons : string;
}.
Record MigrationSpec := MkSpec { sp_ModelTag : string; sp_TargetInfo : MigrationTargetInfo }.
Record ClientMigrationSpec (Info : Type) := MkClientSpec {
  cms_ModelUUID : string; cms_TargetControllerUUID : string; cms_TargetControllerAlias : string; cms_TargetAddrs : list string;
  cms_TargetCACert : string; cms_TargetUser : string; cms_TargetPassword : string; cms_TargetMacaroons : option Info;
}.
Arguments MkClientSpec {Info}. Arguments cms_ModelUUID {Info}.
(** [jujuparams.MigrationModelInfo]; a version is its text. *)
Record MigrationModelInfo := MkMigrationInfo {
  mm_UUID : string; mm_OwnerTag : string; mm_Name : string; mm_AgentVersion : string; mm_ControllerAgentVersion : string;
  mm_ModelDescription : string;
}.

(** [DestroyModel]'s optional flags and durations. *)
Record DestroyArgs := MkDestroyArgs {
  da_destroyStorage : option bool; da_force : option bool; da_maxWait : option Z; da_timeout : option Z;
}.
(** [UpgradeModel]'s arguments; a version is its text. *)
Record UpgradeArgs := MkUpgradeArgs { ua_version : string; ua_stream : string; ua_ignoreAgentVersions : bool; ua_dryRun : bool }.

(** [base.UserModelSummary] and [base.UserModel]. *)
Record ModelSummary (Info : Type) := MkSummary {
  su_Name : string; su_UUID : string; su_ControllerUUID : string; su_ProviderType : string;
  su_Cloud : string; su_CloudRegion : string; su_CloudCredential : string; su_Owner : string;
  su_Life : string; su_ModelUserAccess : string; su_Status : string; su_Rest : option Info;
}.
Arguments MkSummary {Info}. Arguments su_Name {Info}. Arguments su_UUID {Info}. Arguments su_ControllerUUID {Info}.
Arguments su_ModelUserAccess {Info}. Arguments su_Status {Info}. Arguments su_Rest {Info}. Arguments su_Owner {Info}.
Record UserModel (Info : Type) := MkUserModel { usm_UUID : string; usm_Owner : string; usm_Rest : Info }.
Arguments MkUserModel {Info}. Arguments usm_UUID {Info}. Arguments usm_Owner {Info}. Arguments usm_Rest {Info}.

(** ** A stable sort, the highest first ([sort.SliceStable]) *)

Fixpoint insert_desc {A} (key : A -> Z) (x : A) (l : list A) : list A :=
  match l with
  | [] => [x]
  | y :: l' => if (key y <=? key x)%Z then x :: l else y :: insert_desc key x l'
  end.
Definition sort_desc {A} (key : A -> Z) (l : list A) : list A := foldr (insert_desc key) [] l.

Lemma sort_desc_perm {A} (key : A -> Z) l : Permutation (sort_desc key l) l.
Proof.
  induction l as [|x l IH]; [done|]. simpl. etrans; [|by apply Permutation_skip].
  generalize (sort_desc key l). clear. intros l. induction l as [|y l IH]; [done|]. simpl. case_match; [done|].
  etrans; [by apply Permutation_skip|apply Permutation_swap].
Qed.

(** The first element has the highest key. *)
Lemma sort_desc_head {A} (key : A -> Z) l x l' :
  sort_desc key l = x :: l' -> Forall (fun y => (key y <= key x)%Z) l.
Proof.
  assert (forall x l x' l', insert_desc key x l = x' :: l' -> (key x <= key x')%Z /\
    forall y l'', l = y :: l'' -> (key y <= key x')%Z) as Hins.
  { intros z [|y k] z' k' Hk; simpl in Hk; [by simplify_eq|]. case_match eqn:Hle; simplify_eq; (split; [lia|]); intros; simplify_eq; lia. }
  revert x l'. induction l as [|z l IH]; intros x l' Hl; [done|]. simpl in Hl. destruct (Hins _ _ _ _ Hl) as [Hz Hy].
  constructor; [done|]. destruct (sort_desc key l) as [|y k] eqn:Hs.
  - pose proof (sort_desc_perm key l) as Hp. rewrite Hs in Hp. by apply Permutation_nil in Hp as ->.
  - eapply Forall_impl; [by eapply IH|]. intros w Hw. specialize (Hy _ _ eq_refl). simpl in Hw. lia.
Qed.

(** ** The controllers and the credential store *)

Definition of_sum {A} (r : A + gerror) : outcome A := match r with inl a => Ok a | inr e => Err e end.

(** A call returns a value or an error. *)
Definition Call (C A : Type) : Type := C -> C * (A + gerror).

Class Controllers (C : Type) := {
  Conn : Type;
  Info : Type;
  (** [Dialer]; the user may be nil. *)
  DialControllerAsSuperuser : option User -> Controller -> Call C Conn;
  DialControllerAsService : Controller -> Call C Conn;
  DialModelAsService : Controller -> Tag -> Call C Conn;
  (** [API] *)
  api_ModelInfo : Conn -> Tag -> Call C (ModelInfo Info);
  api_ModelStatus : Conn -> Tag -> Call C (ModelStatus_ Info);
  api_DestroyModel : Conn -> Tag -> DestroyArgs -> Call C unit;
  api_DumpModel : Conn -> Tag -> bool -> Call C Info;
  api_DumpModelDB : Conn -> Tag -> Call C Info;
  api_AbortModelUpgrade : Conn -> string -> Call C unit;
  api_UpgradeModel : Conn -> string -> UpgradeArgs -> Call C string;
  api_ValidateModelUpgrade : Conn -> Tag -> bool -> Call C unit;
  api_ControllerModelUUID : Conn -> Call C string;
  api_ChangeModelCredential : Conn -> Tag -> CredTag -> Call C unit;
  api_UpdateCloudsCredentialForce : Conn -> TaggedCredential -> Call C (list (UpdateCredentialResult Info));
  api_CreateModel : Conn -> CreateModelArgs -> Call C (ModelInfo Info);
  api_GrantJIMMModelAdmin : Conn -> Tag -> Call C unit;
  api_Offer : Conn -> OfferParams -> Call C unit;
  api_GetApplicationOffer : Conn -> string -> Call C (OfferDetails Info);
  api_GetApplicationOfferConsumeDetails : Conn -> string -> Call C (ConsumeDetails Info);
  api_FindApplicationOffers : Conn -> list OfferFilter -> Call C (list (OfferDetails Info));
  api_ListApplicationOffers : Conn -> list OfferFilter -> Call C (list (OfferDetails Info));
  api_DestroyApplicationOffer : Conn -> string -> bool -> Call C unit;
  api_ListModelSummaries : Conn -> Call C (list (ModelSummary Info));
  api_ListModels : Conn -> Call C (list (UserModel Info));
  api_AddCloud : Conn -> Tag -> JujuCloud -> bool -> Call C unit;
  api_Cloud : Conn -> Tag -> Call C JujuCloud;
  api_Clouds : Conn -> Call C (list (Tag * JujuCloud));
  api_CloudSpec : Conn -> Call C (string * string);
  api_RemoveCloud : Conn -> Tag -> Call C unit;
  api_UpdateCloud : Conn -> Tag -> JujuCloud -> Call C unit;
  api_RevokeCredential : Conn -> CredTag -> Call C unit;
  api_CheckCredentialModels : Conn -> TaggedCredential -> Call C (list (UpdateCredentialResult Info));
  api_CredentialContents : Conn -> string -> string -> bool -> Call C (list (option CredentialContent + gerror));
  api_ControllerConfig : Conn -> Call C Info;
  api_Status : Conn -> list string -> Call C Info;
  (** [controllerclient.Client.InitiateMigration] on a connection. *)
  client_InitiateMigration : Conn -> ClientMigrationSpec Info -> Call C string;
  json_Macaroons : string -> Info + gerror;
  api_Abort : Conn -> string -> Call C unit;
  api_Activate : Conn -> string -> Info -> list string -> Call C unit;
  api_AdoptResources : Conn -> string -> string -> Call C unit;
  api_CheckMachines : Conn -> string -> Call C (list gerror);
  api_Import : Conn -> string -> Call C unit;
  api_LatestLogTime : Conn -> string -> Call C Z;
  api_Prechecks : Conn -> MigrationModelInfo -> Call C unit;
  (** The answer to the login of a connection: the tag of the controller, if
      it can be parsed, its version and its addresses. *)
  login_ControllerTag : Conn -> option string;
  login_ServerVersion : Conn -> string;
  login_Servers : Conn -> list (list (string * Z));
  (** [time.Now] *)
  time_Now : C -> Z;
  (** [jujuparams.ErrCode] and [cloudcred.IsVisibleAttribute]. *)
  juju_ErrCode : gerror -> string;
  IsVisibleAttribute : string -> string -> string -> bool;
  (** [names.IsValidModelName], [IsValidCloudCredential] *)
  IsValidModelName : string -> bool;
  IsValidCloudCredential : string -> bool;
  (** The parts of the tag [names.NewCloudCredentialTag(id)]. *)
  CloudCredentialTag : string -> CredTag;
  (** [params.Error.UnmarshalInfo] into a [RedirectErrorInfo]: the alias of
      the controller. *)
  UnmarshalRedirect : list (string * goany) -> string + gerror;
  (** [credentials.CredentialStore] *)
  cs_Get : Tag -> C -> gmap string string + gerror;
  cs_Put : Tag -> gmap string string -> Call C unit;
  cs_GetControllerCredentials : string -> C -> (string * string) + gerror;
  cs_PutControllerCredentials : string -> string -> string -> Call C unit;
  (** [MigrationTokenGenerator] *)
  NewMigrationToken : string -> list string -> Call C string;
  (** [rand.Shuffle] of a slice; the result is a permutation of it. *)
  rand_Shuffle {A} : list A -> C -> list A;
  law_Shuffle {A} (l : list A) c : Permutation (rand_Shuffle l c) l;
  (** [crossmodel.OfferURL.String] *)
  OfferURL_String : string -> string -> string -> string;
}.

(** [JujuManager], as far as the code reads it: whether a dialler is set, and
    the settings. *)
Record JujuManager := MkJujuManager { jm_Dialer : bool; jm_resourceTag : Tag; jm_ReservedCloudNames : list string }.

Section manager.
Context {F : Type} `{OFGAServer F} {T : Type -> Type} `{Gorm T} {C : Type} `{Controllers C} `{JujuNames} `{Hash}.

Definition JW : Type := World F T * C.
Definition world {A} : M (World F T) A -> M JW A := zoom fst (fun w s => (w, snd s)).
Definition ctl {A} (m : Call C A) : M JW A := fun s =>
  match m (snd s) with
  | (c, inl a) => ((fst s, c), Ok a)
  | (c, inr e) => ((fst s, c), Err e)
  end.
Definition jdb {A} (m : M (Db T) A) : M JW A := world (db m).
Definition jfga {A} (m : M F A) : M JW A := world (fga m).
(** A read of the controllers' side. *)
Definition ctl_read {A} (f : C -> A + gerror) : M JW A := fun s => (s, of_sum (f (snd s))).

(** ** [juju.go] *)

Definition noDialer : gerror := Codef CodeConnectionFailed "no dialer configured" [].

Definition dialControllerAsSuperuser (j : JujuManager) (user : option User) (c : Controller) : M JW Conn :=
  if jm_Dialer j then ctl (DialControllerAsSuperuser user c) else throw noDialer.
Definition dialControllerAsService (j : JujuManager) (c : Controller) : M JW Conn :=
  if jm_Dialer j then ctl (DialControllerAsService c) else throw noDialer.

Definition dialModelAsService (j : JujuManager) (c : Controller) (modelTag : Tag) : M JW Conn :=
  if jm_Dialer j then ctl (DialModelAsService c modelTag) else throw noDialer.

(** What [Dialer.dial] ([jujuclient/dial.go]) stores in the controller. *)
Definition dialed (conn : Conn) (c : Controller) : Controller :=
  MkController (c_ID c) (c_Name c) (default (c_UUID c) (login_ControllerTag conn))
    (if decide (login_ServerVersion conn <> "") then login_ServerVersion conn else c_AgentVersion c)
    (c_CACertificate c) (c_PublicAddress c) (c_TLSHostname c) (c_CloudName c) (c_CloudRegion c) (c_Deprecated c)
    (login_Servers conn) (c_UnavailableSince c).

(** ** [utils.go] *)

Definition everyoneUser : User := NewUser (with_Name zeroIdentity EveryoneUser).

Definition checkJimmAdmin (user : User) : M JW unit :=
  if JimmAdmin user then mret tt else throw Unauthorized.

Definition checkControllerAdminAccess (user : User) (c : Controller) : M JW unit :=
  tag ← lift (Controller_ResourceTag c);
  isAdministrator ← jfga (IsAdministrator user tag);
  if (isAdministrator : bool) then mret tt else throw Unauthorized.

Definition getControllerByName (controllerName : string) : M JW Controller :=
  map_err (fun err => Errorf "failed to get controller %q: %w" [ArgS controllerName; ArgE err])
          (jdb (GetController (controllerOf controllerName ""))).

(** [CloudCredential.ResourceTag]. *)
Definition Credential_ResourceTag (c : CloudCredential) : outcome Tag := NewJujuTag "cloudcred" (Path c).

End manager.
Arguments JW : clear implicits.

(** ** Steps that only read *)

Section facts.
Context {F : Type} `{OFGALaws F} {T : Type -> Type} `{GormLaws T} {C : Type} `{Controllers C} `{JujuNames} `{Hash}.
Implicit Types s : JW F T C.

Lemma wp_jworld {A} (m : M (World F T) A) Q s :
  wp m (fun o w => Q o (w, snd s)) (fst s) -> wp (world (C:=C) m) Q s.
Proof. exact (wp_zoom fst (fun w s => (w, snd s)) m Q s). Qed.
Lemma wp_ctl {A} (m : Call C A) (Q : outcome A -> JW F T C -> Prop) s :
  (forall c a, m (snd s) = (c, inl a) -> Q (Ok a) (fst s, c)) ->
  (forall c e, m (snd s) = (c, inr e) -> Q (Err e) (fst s, c)) -> wp (ctl m) Q s.
Proof. intros Ha He. unfold wp, ctl. destruct (m (snd s)) as [c [a|e]]; auto. Qed.
Lemma wp_jdb {A} (m : M (Db T) A) Q s :
  wp m (fun o d => Q o (MkWorld (w_fga (fst s)) d, snd s)) (w_db (fst s)) -> wp (jdb (C:=C) m) Q s.
Proof. intros Hm. by apply wp_jworld, Perm.wp_db. Qed.
Lemma wp_jfga {A} (m : M F A) Q s :
  wp m (fun o f => Q o (MkWorld f (w_db (fst s)), snd s)) (w_fga (fst s)) -> wp (jfga (C:=C) m) Q s.
Proof. intros Hm. by apply wp_jworld, Perm.wp_fga. Qed.

Definition j_tuples s : gset Tuple := Perm.w_tuples (fst s).
Definition j_tables s := tables (w_db (fst s)).

(** The same tuples and rows. *)
Definition same s s' : Prop := j_tuples s' = j_tuples s /\ j_tables s' = j_tables s.
(** The same tuples and rows, and the controllers are untouched. *)
Definition still s s' : Prop := same s s' /\ snd s' = snd s.

#[export] Instance same_equivalence : Equivalence same.
Proof. split; unfold same; red; intuition congruence. Qed.
#[export] Instance still_equivalence : Equivalence still.
Proof. split; unfold still, same; red; intuition congruence. Qed.

(** A step whose result has a property and that changes nothing, [R] being
    [still] or [same]. *)
Definition finds (R : JW F T C -> JW F T C -> Prop) {A} (P : A -> Prop) s (o : outcome A) s' : Prop :=
  answered o /\ R s s' /\ forall a, o = Ok a -> P a.

Lemma wp_finds_bind {A B} R (P : A -> Prop) (m : M (JW F T C) A) (k : A -> M (JW F T C) B) Q s :
  wp m (finds R P s) s ->
  (forall a s', R s s' -> P a -> wp (k a) Q s') ->
  (forall o s', answered o -> R s s' -> (forall b, o <> Ok b) -> Q o s') ->
  wp (m ≫= k) Q s.
Proof.
  intros Hm Hk Hf. apply wp_bind. eapply wp_mono; [exact Hm|].
  intros [a|e|x|] s1 (Ha & HR & HP); cbn [bind_post]; [|by apply Hf..]. by apply Hk, HP.
Qed.

Lemma finds_jdb {A} (P : A -> Prop) (m : M (Db T) A) s :
  wp m (sees P (w_db (fst s))) (w_db (fst s)) -> wp (jdb m) (finds still P s) s.
Proof.
  intros Hm. apply wp_jdb. eapply wp_mono; [exact Hm|]. intros o d [[Ha Ht] HP]. split_and!; [done|by split|done].
Qed.

(** A check of a relation. *)
Lemma finds_check u g r s :
  wp (jfga (checkRelation u g r)) (finds still (fun b : bool => b = true <-> has_access (j_tuples s) u r (ConvertTag g)) s) s.
Proof.
  apply wp_jfga. eapply wp_mono; [apply checkRelation_wp|]. intros o f (HT & Ha & Hb). split_and!; [done| |intros b ->; by apply Hb].
  split; [|done]. split; [exact HT|done].
Qed.

Lemma finds_lift R `{!Reflexive R} {A} (P : A -> Prop) (o : outcome A) s :
  answered o -> (forall a, o = Ok a -> P a) -> wp (lift o) (finds R P s) s.
Proof. intros Ha HP. wp_value. by split_and!. Qed.

(** A call of a controller. *)
Lemma finds_ctl {A} (m : Call C A) s : wp (ctl m) (finds same (fun _ => True) s) s.
Proof. apply wp_ctl; intros; by split_and!. Qed.

Lemma finds_dial j u c s : wp (dialControllerAsSuperuser j u c) (finds same (fun _ => True) s) s.
Proof. unfold dialControllerAsSuperuser. destruct (jm_Dialer j); [apply finds_ctl|]. wp_value. by split_and!. Qed.

Lemma finds_service j c s : wp (dialControllerAsService j c) (finds same (fun _ => True) s) s.
Proof. unfold dialControllerAsService. destruct (jm_Dialer j); [apply finds_ctl|]. wp_value. by split_and!. Qed.
Lemma finds_ctl_read {A} (f : C -> A + gerror) s : wp (ctl_read f) (finds still (fun a => f (snd s) = inl a) s) s.
Proof.
  unfold ctl_read, wp. split_and!; [by destruct (f _)|done|]. intros a. destruct (f (snd s)); [|done]. intros Ha. by apply (inj Ok) in Ha as ->.
Qed.

(** Sequences of such steps. *)
Lemma finds_bind R `{!Transitive R} {A B} (P : A -> Prop) (Q : B -> Prop) (m : M (JW F T C) A) (k : A -> M (JW F T C) B) s :
  wp m (finds R P s) s -> (forall a s', R s s' -> P a -> wp (k a) (finds R Q s') s') ->
  wp (m ≫= k) (finds R Q s) s.
Proof.
  intros Hm Hk. eapply wp_finds_bind; [exact Hm|..].
  - intros a s1 Hs1 Ha. eapply wp_mono; [by apply Hk|]. intros o s2 (Hans & Hs2 & HQ). split_and!; [done|by etrans|done].
  - intros o s1 Hans Hs1 Hn. split_and!; [done|done|]. intros b ->. by destruct (Hn b).
Qed.
Lemma finds_ret R `{!Reflexive R} {A} (P : A -> Prop) a s : P a -> wp (mret a) (finds R P s) s.
Proof. intros HP. wp_value. split_and!; [done|done|]. intros b Hb. by apply (inj Ok) in Hb as <-. Qed.
Lemma finds_throw R `{!Reflexive R} {A} (P : A -> Prop) e s : wp (throw (A:=A) e) (finds R P s) s.
Proof. wp_value. by split_and!. Qed.
Lemma finds_map_err R {A} (P : A -> Prop) f (m : M (JW F T C) A) s :
  wp m (finds R P s) s -> wp (map_err f m) (finds R P s) s.
Proof.
  intros Hm. apply wp_map_err. eapply wp_mono; [exact Hm|]. intros [] s' (Ha & HR & HP); by split_and!.
Qed.
Lemma finds_try R {A} (P : A -> Prop) (m : M (JW F T C) A) s :
  wp m (finds R P s) s -> wp (try m) (finds R (fun r => forall a, r = inl a -> P a) s) s.
Proof.
  intros Hm. apply wp_try. eapply wp_mono; [exact Hm|].
  intros [] s' (Ha & HR & HP); (split_and!; [done|done|]); intros r Hr; try done; apply (inj Ok) in Hr as <-; [|done].
  intros b [= <-]. by apply HP.
Qed.
Lemma finds_mono R {A} (P Q : A -> Prop) (m : M (JW F T C) A) s :
  wp m (finds R P s) s -> (forall a, P a -> Q a) -> wp m (finds R Q s) s.
Proof. intros Hm HPQ. eapply wp_mono; [exact Hm|]. intros o s' (Ha & HR & HP). split_and!; auto. Qed.
Lemma finds_still {A} (P : A -> Prop) (m : M (JW F T C) A) s : wp m (finds still P s) s -> wp m (finds same P s) s.
Proof. intros Hm. eapply wp_mono; [exact Hm|]. intros o s' (Ha & [HR _] & HP). by split_and!. Qed.

(** A sequence of such steps before a change: a postcondition that holds when
    nothing changed and the caller got an error. *)
Definition absorbs {B} (Q : outcome B -> JW F T C -> Prop) s : Prop :=
  forall o s', o <> OutOfFuel -> same s s' -> (forall b, o <> Ok b) -> Q o s'.

Lemma wp_same_bind {A B} (P : A -> Prop) (m : M (JW F T C) A) (k : A -> M (JW F T C) B) Q s s0 :
  absorbs Q s -> same s s0 -> wp m (finds same P s0) s0 ->
  (forall a s', same s0 s' -> same s s' -> P a -> wp (k a) Q s') -> wp (m ≫= k) Q s0.
Proof.
  intros HQ Hs Hm Hk. eapply wp_finds_bind; [exact Hm|..].
  - intros a s1 Hs1 Ha. apply Hk; [done|by etrans|done].
  - intros o s1 Ha Hs1 Hn. apply HQ; [done|by etrans|done].
Qed.

(** The users that the authorisation service lists; [*] is the user
    everyone. *)
Definition listed_user (e : Entity) : option User :=
  match NewIdentity (if decide (EID e = "*") then EveryoneUser else EID e) with
  | Ok identity => Some (NewUser identity) | _ => None end.

Lemma finds_users g r s :
  wp (jfga (ListUsersWithAccess g r)) (finds still (fun l => forall u, u ∈ l ->
    exists e, u = listed_user e /\ EKind e = UserTagKind /\ holds (j_tuples s) e r (ConvertTag g)) s) s.
Proof.
  apply wp_jfga. unfold ListUsersWithAccess. apply wp_bind. eapply wp_mono; [apply law_users|].
  intros o f (HT & Ha & Hl). destruct o as [l|e|x|]; cbn [bind_post]; try wp_value;
    (split_and!; [exact Ha || done|by split; [split|]|]); intros us Hus; [|done..].
  apply (inj Ok) in Hus as <-. intros u (e & -> & He)%list_elem_of_fmap. exists e.
  destruct (Hl l e eq_refl He) as (g' & Hg & Hk & Hh). simpl in Hg, Hh. simplify_eq. done.
Qed.

(** A level that is reported is one the user has. *)
Lemma finds_ladder user g rs s :
  wp (jfga (access_ladder user g rs)) (finds still (fun r => r = NoRelation \/
    (r ∈ rs /\ has_access (j_tuples s) user r (ConvertTag g))) s) s.
Proof.
  apply wp_jfga. eapply wp_mono; [apply access_ladder_wp|]. intros o f (HT & Ha & Hr).
  split_and!; [exact Ha|by split; [split|]|]. intros r ->. destruct (Hr r eq_refl) as [->|(pre & post & Hrs & Hacc & _)]; [by left|right].
  split; [|done]. rewrite Hrs. set_solver.
Qed.

Lemma finds_cloud_access user g s :
  wp (world (Perm.GetUserCloudAccess user g)) (finds still (fun a =>
    (a = "admin" -> has_access (j_tuples s) user AdministratorRelation (ConvertTag g)) /\
    (a <> "" -> has_access (j_tuples s) user AdministratorRelation (ConvertTag g) \/
                has_access (j_tuples s) user CanAddModelRelation (ConvertTag g))) s) s.
Proof.
  apply wp_jworld. unfold Perm.GetUserCloudAccess. apply wp_bind, Perm.wp_fga.
  eapply wp_mono; [apply (access_ladder_wp user g [AdministratorRelation; CanAddModelRelation])|]. intros o f (HT & Ha & Hr).
  destruct o as [r|e|x|]; cbn [bind_post]; try wp_value; (split_and!; [exact Ha || done|by split; [split|]|]);
    intros a Hres; [|done..]. apply (inj Ok) in Hres as <-.
  destruct (Hr r eq_refl) as [->|(pre & post & Hrs & Hacc & _)]; [by split|].
  assert (r ∈ [AdministratorRelation; CanAddModelRelation]) as Hin by (rewrite Hrs; apply elem_of_app; right; constructor).
  rewrite !elem_of_cons in Hin. destruct Hin as [->|[->|Hin]]; [split; auto..|by apply elem_of_nil in Hin]. by intros.
Qed.

(** A tag of a row. *)
Lemma finds_tag R `{!Reflexive R} k i s : wp (lift (NewJujuTag k i)) (finds R (fun t => t = MkTag k i) s) s.
Proof.
  apply finds_lift; [done|apply NewJujuTag_answered|]. unfold NewJujuTag. intros t. destruct (ValidTagId k i); [|done].
  intros Ht. by apply (inj Ok) in Ht.
Qed.

(** ** Refusals *)

(** Nothing happened, and the caller was told. *)
Definition refused s {A} (o : outcome A) s' : Prop := still s s' /\ forall a, o <> Ok a.

Lemma refused_trans s s1 {A} (o : outcome A) s' : still s s1 -> refused s1 o s' -> refused s o s'.
Proof. intros Hs1 [Hs2 Ho]. split; [by etrans|done]. Qed.

Lemma refused_bind {A B} (m : M (JW F T C) A) (k : A -> M (JW F T C) B) s :
  wp m (refused s) s -> wp (m ≫= k) (refused s) s.
Proof.
  intros Hm. apply wp_bind. eapply wp_mono; [exact Hm|].
  intros [a|e|x|] s' [Hs Ho]; cbn [bind_post]; [by destruct (Ho a)|by split..].
Qed.

(** A step that finds something, before the refusal. *)
Lemma refused_after {A B} (P : A -> Prop) (m : M (JW F T C) A) (k : A -> M (JW F T C) B) s :
  wp m (finds still P s) s -> (forall a s', still s s' -> P a -> wp (k a) (refused s') s') ->
  wp (m ≫= k) (refused s) s.
Proof.
  intros Hm Hk. eapply wp_finds_bind; [exact Hm|..].
  - intros a s1 Hs Ha. eapply wp_mono; [by apply Hk|]. intros o s2. by apply refused_trans.
  - intros o s1 _ Hs Ho. by split.
Qed.

End facts.
