(* ===== verification/JujuModels.v ===== *)
(** * JujuModels: models ([internal/jimm/juju/model.go], [model_poller.go]).

    Every operation on an existing model, with the cleanup of models that are
    gone from their controller and the states of a migration.  Connections are
    closed by the code at the end of each operation; closing has no effect on
    the modelled state.  Callbacks of [doModel] get the model and the
    connection.  Where the code contacts several controllers in parallel the
    model does it one after the other. *)

From S2P Require Import Prelude Errors Regexp Names AuthModel RefServer OpenFGA Dbmodel Users Database TagResolver Access JujuDb JujuBase.

Module Models.

Definition Dying := "dying".
Definition Alive := "alive".
Definition CodeRedirect := "redirection required".

Definition nilPointer : string := "invalid memory address or nil pointer dereference".

(** ** [dbmodel/model.go] *)

(** [m.SetTag(mt)] on a zero model. *)
Definition SetTag (mt : Tag) : Model := modelOf "" (Some (Id mt)) "".

Definition with_Life (l : string) (m : Model) : Model :=
  MkModel (m_ID m) (m_Name m) (m_UUID m) (m_OwnerIdentityName m) (m_ControllerID m) (m_CloudRegionID m)
    (m_CloudCredentialID m) l (m_MigrationMode m).
Definition with_migration (mode : string) (controllerID : Z) (m : Model) : Model :=
  MkModel (m_ID m) (m_Name m) (m_UUID m) (m_OwnerIdentityName m) controllerID (m_CloudRegionID m)
    (m_CloudCredentialID m) (m_Life m) mode.
Definition with_CloudCredential (id : Z) (m : Model) : Model :=
  MkModel (m_ID m) (m_Name m) (m_UUID m) (m_OwnerIdentityName m) (m_ControllerID m) (m_CloudRegionID m)
    id (m_Life m) (m_MigrationMode m).

Definition MigrationFailed (m : Model) : Model := with_migration MigrationModeNone (m_ControllerID m) m.
Definition InternalMigrationSuccess (controllerID : Z) (m : Model) : Model := with_migration MigrationModeNone controllerID m.
Definition SetInternalMigration (m : Model) : Model := with_migration MigrationModeMigrateInternal (m_ControllerID m) m.
Definition SetExternalMigration (m : Model) : Model := with_migration MigrationModeExporting (m_ControllerID m) m.

Section ops.
Context {F : Type} `{OFGAServer F} {T : Type -> Type} `{Gorm T} {C : Type} `{Controllers C} `{JujuNames} `{Hash}.
Implicit Types (j : JujuManager) (user : User) (mt : Tag) (lm : LoadedModel).
Local Abbreviation JM := (M (JW F T C)).

Definition MergeModelSummaryFromController lm (s : ModelSummary Info) (maskingControllerUUID access : string)
    : outcome (ModelSummary Info) :=
  credential ← Credential_ResourceTag (lm_Credential lm);
  Ok (MkSummary (m_Name (lm_Model lm)) (default "" (m_UUID (lm_Model lm)))
    (if decide (maskingControllerUUID <> "") then maskingControllerUUID else c_UUID (lm_Controller lm))
    (cl_Type (lm_Cloud lm)) (cl_Name (lm_Cloud lm)) (reg_Name (lm_Region lm)) (Id credential)
    (i_Name (lm_Owner lm)) (m_Life (lm_Model lm)) access (su_Status s) (su_Rest s)).

(** ** Permissions and deletion *)

Definition GetModel_ (uuid : string) : JM LoadedModel :=
  map_err (fun err => Errorf "failed to get model: %w" [ArgE err])
    (jdb (LoadModel (modelOf "" (if decide (uuid = "") then None else Some uuid) ""))).

Definition addModelPermissions (owner : User) mt (ct : Tag) : JM unit :=
  _ ← jfga (AddControllerModel ct mt);
  jfga (SetModelAccess owner mt AdministratorRelation).

Definition deleteModel (fuel : nat) mt : JM unit :=
  _ ← jdb (db_DeleteModel (SetTag mt));
  jfga (RemoveModel fuel mt).

(** ** [model_poller.go] *)

Definition maybeCleanupModel (fuel : nat) (errFromAPI : gerror) (m : Model) : JM unit :=
  if decide (ErrorCode errFromAPI = CodeNotFound \/ ErrorCode errFromAPI = CodeUnauthorized) then
    if decide (m_Life m <> Dying) then mret tt else
    tag ← lift (Model_ResourceTag m);
    map_err (fun err => Errorf "failed to delete model: %w" [ArgE err]) (deleteModel fuel tag)
  else mret tt.

(** The errors of the last two steps wrap the error of the controller. *)
Definition checkModelMigratedInternal (errFromAPI : gerror) (m : Model) : JM Model :=
  if decide (ErrorCode errFromAPI <> CodeRedirect) then throw errFromAPI else
  match ErrorInfo errFromAPI with
  | None => throw (Errorf "missing error info in redirect error: %w" [ArgE errFromAPI])
  | Some errInfo =>
      alias ← map_err (fun err => Errorf "cannot unmarshal redirect error info: %w" [ArgE err]) (lift (of_sum (UnmarshalRedirect errInfo)));
      controller ← map_err (fun _ => Errorf "failed to get controller %q: %w" [ArgS alias; ArgE errFromAPI])
        (jdb (GetController (controllerOf alias "")));
      map_err (fun _ => Errorf "failed to update model after migration: %w" [ArgE errFromAPI])
        (jdb (db_UpdateModel (InternalMigrationSuccess (c_ID controller) m)))
  end.

(** ** Information on a model *)

Definition internalError : gerror := New "internal server error".
Definition unsupportedMode : gerror := New "model in unsupported migration mode".

(** Returns the model as it is in the database afterwards. *)
Definition reactToModelInfoError (fuel : nat) j (user : option User) (errFromAPI : gerror) lm
    : JM (ModelInfo Info * LoadedModel) :=
  let mode := m_MigrationMode (lm_Model lm) in
  if decide (mode = MigrationModeNone) then
    _ ← map_err (fun _ => internalError) (maybeCleanupModel fuel errFromAPI (lm_Model lm));
    throw errFromAPI
  else if decide (mode = MigrationModeMigrateInternal) then
    m ← map_err (fun _ => internalError) (checkModelMigratedInternal errFromAPI (lm_Model lm));
    lm ← jdb (LoadModel m);
    api ← dialControllerAsSuperuser j user (lm_Controller lm);
    tag ← lift (Model_ResourceTag (lm_Model lm));
    info ← ctl (api_ModelInfo api tag);
    mret (info, lm)
  else if decide (mode = MigrationModeExporting \/ mode = MigrationModeImporting) then throw errFromAPI
  else throw unsupportedMode.

Definition reactToModelInfoSuccess lm (info : ModelInfo Info) : JM (ModelInfo Info * LoadedModel) :=
  let mode := m_MigrationMode (lm_Model lm) in
  if decide (mode ∈ [MigrationModeNone; MigrationModeExporting; MigrationModeImporting]) then mret (info, lm)
  else if decide (mode = MigrationModeMigrateInternal) then
    match mi_MigrationStatus info with
    | Some (Some _) =>
        m ← map_err (fun err => Errorf "failed to update model after failed migration: %w" [ArgE err])
          (jdb (db_UpdateModel (MigrationFailed (lm_Model lm))));
        mret (info, MkLoaded m (lm_Owner lm) (lm_Controller lm) (lm_Region lm) (lm_Cloud lm) (lm_Credential lm))
    | _ => mret (info, lm)
    end
  else throw unsupportedMode.

Definition modelInfo (fuel : nat) j (user : option User) lm (api : Conn) : JM (ModelInfo Info * LoadedModel) :=
  tag ← lift (Model_ResourceTag (lm_Model lm));
  r ← try (ctl (api_ModelInfo api tag));
  match r with
  | inl info => reactToModelInfoSuccess lm info
  | inr errFromAPI => reactToModelInfoError fuel j user errFromAPI lm
  end.

(** The users with access to a resource, each with the first of the given
    relations that lists it; a user without identity is a nil pointer. *)
Fixpoint recordUsers (access : string) (found : list (option User)) (userAccess : gmap string string)
    : outcome (gmap string string) :=
  match found with
  | [] => Ok userAccess
  | None :: _ => Panic nilPointer
  | Some u :: found =>
      recordUsers access found (match userAccess !! u_Name u with Some _ => userAccess | None => <[u_Name u := access]> userAccess end)
  end.
Fixpoint usersWithAccess (toString : string -> string) (resource : Tag) (relations : list string) (userAccess : gmap string string)
    : JM (gmap string string) :=
  match relations with
  | [] => mret userAccess
  | relation :: relations =>
      found ← jfga (ListUsersWithAccess resource relation);
      userAccess ← lift (recordUsers (toString relation) found userAccess);
      usersWithAccess toString resource relations userAccess
  end.

Definition mergeModelInfo user (info : ModelInfo Info) lm : JM (ModelInfo Info) :=
  credential ← lift (Credential_ResourceTag (lm_Credential lm));
  tag ← lift (Model_ResourceTag (lm_Model lm));
  userAccess ← usersWithAccess Perm.ToModelAccessString tag [AdministratorRelation; WriterRelation; ReaderRelation] ∅;
  modelAccess ← world (Perm.GetUserModelAccess user tag);
  let users := List.filter (fun u => Contains (ui_UserName u) "@" &&
      (bool_decide (modelAccess = "admin") || bool_decide (ui_UserName u = u_Name user) ||
       bool_decide (ui_UserName u = EveryoneUser)))
    (fmap (M:=list) (fun p : string * string => MkUserInfo p.1 p.2) (map_to_list userAccess)) in
  mret (MkModelInfo (mi_Name info) (mi_UUID info) (i_Name (lm_Owner lm)) (mi_Life info) (mi_Cloud info) (mi_CloudRegion info)
    (Id credential) (c_UUID (lm_Controller lm)) users
    (if decide (modelAccess <> "admin" /\ modelAccess <> "write") then [] else mi_Machines info)
    (mi_MigrationStatus info) (mi_Rest info)).

Definition ModelInfo_ (fuel : nat) j user mt : JM (ModelInfo Info) :=
  lm ← jdb (LoadModel (SetTag mt));
  r ← try (jfga (IsModelReader user mt));
  match r with
  | inl true =>
      api ← dialControllerAsSuperuser j (Some user) (lm_Controller lm);
      '(info, lm) ← modelInfo fuel j (Some user) lm api;
      mergeModelInfo user info lm
  | _ => throw Unauthorized
  end.

Definition fallbackModelStatus (m : Model) : ModelStatus_ Info :=
  MkModelStatus (default "" (m_UUID m)) (m_Life m) (m_OwnerIdentityName m) None.

Definition ModelStatus (fuel : nat) j user mt : JM (ModelStatus_ Info) :=
  lm ← jdb (LoadModel (SetTag mt));
  hasAccess ← jfga (HasModelRelation user mt AdministratorRelation);
  if negb hasAccess then throw Unauthorized else
  api ← dialControllerAsSuperuser j (Some user) (lm_Controller lm);
  r ← try (ctl (api_ModelStatus api mt));
  match r with
  | inl ms => mret ms
  | inr err =>
      _ ← try (maybeCleanupModel fuel err (lm_Model lm));
      if decide (ErrorCode err = CodeNotFound \/ ErrorCode err = CodeUnauthorized)
      then mret (fallbackModelStatus (lm_Model lm)) else throw err
  end.

(** ** Polling *)

(** The models of one controller; errors are logged. *)
Definition pollModels (fuel : nat) j (models : list LoadedModel) : JM unit :=
  match models with
  | [] => mret tt
  | lm :: _ =>
      r ← try (dialControllerAsService j (lm_Controller lm));
      match r with
      | inl api => for_range models (fun m => _ ← try (modelInfo fuel j None m api); mret tt)
      | inr _ => mret tt
      end
  end.

(** The models by the UUID of their controller, in the order of the models. *)
Definition groupModels (models : list LoadedModel) : list (list LoadedModel) :=
  (fun uuid => List.filter (fun m => bool_decide (c_UUID (lm_Controller m) = uuid)) models)
    <$> remove_dups ((fun m => c_UUID (lm_Controller m)) <$> models).

Definition PollModels (fuel : nat) j : JM unit :=
  models ← jdb AllModels;
  for_range (groupModels models) (fun group => _ ← try (pollModels fuel j group); mret tt).

(** ** Listings *)

(** [forEachController]: every controller is contacted, and the first error
    returned. *)
Fixpoint forEachController j (controllers : list Controller) (f : Controller -> Conn -> JM unit) : JM unit :=
  match controllers with
  | [] => mret tt
  | c :: controllers =>
      r ← try (api ← dialControllerAsService j c; f c api);
      match r with
      | inl _ => forEachController j controllers f
      | inr err => _ ← try (forEachController j controllers f); throw err
      end
  end.

Fixpoint listUserModelAccess_loop user (relations : list string) (access : gmap string string) : JM (gmap string string) :=
  match relations with
  | [] => mret access
  | relation :: relations =>
      uuids ← jfga (ListModels user relation);
      listUserModelAccess_loop user relations
        (foldl (fun acc uuid => <[uuid := Perm.ToModelAccessString relation]> acc) access (uuids : list string))
  end.
Definition listUserModelAccess user : JM (gmap string string) :=
  listUserModelAccess_loop user [ReaderRelation; WriterRelation; AdministratorRelation] ∅.

(** The controllers of the models, each once. *)
Fixpoint uniqueControllers {K} `{EqDecision K} (key : LoadedModel -> K) (seen : list K) (models : list LoadedModel)
    : list Controller :=
  match models with
  | [] => []
  | m :: models =>
      if decide (key m ∈ seen) then uniqueControllers key seen models
      else lm_Controller m :: uniqueControllers key (key m :: seen) models
  end.

(** Collecting what the controllers return; a parallel run appends in some
    order. *)
Fixpoint collect {A} j (controllers : list Controller) (query : Conn -> Call C (list A)) : JM (list A * option gerror) :=
  match controllers with
  | [] => mret ([], None)
  | c :: controllers =>
      r ← try (api ← dialControllerAsService j c; ctl (query api));
      '(rest, err) ← collect j controllers query;
      mret (match r with inl results => (results ++ rest, err) | inr e => (rest, Some e) end)
  end.

Definition ListModelSummaries j user (maskingControllerUUID : string) : JM (list (ModelSummary Info)) :=
  modelAccess ← listUserModelAccess user;
  if decide (modelAccess = ∅) then mret [] else
  dbModels ← jdb (GetModelsByUUID (fmap (M:=list) fst (map_to_list modelAccess)));
  '(results, _) ← collect j (uniqueControllers (fun m => c_UUID (lm_Controller m)) [] dbModels) api_ListModelSummaries;
  let summaries := foldl (fun (acc : gmap string (ModelSummary Info)) s => <[su_UUID s := s]> acc) ∅ results in
  lift (mapM (fun lm =>
    let uuid := default "" (m_UUID (lm_Model lm)) in
    let found := summaries !! uuid in
    s ← MergeModelSummaryFromController lm
          (default (MkSummary "" "" "" "" "" "" "" "" "" "" "" None) found) maskingControllerUUID (default "" (modelAccess !! uuid));
    Ok (match found with
        | Some _ => s
        | None => MkSummary (su_Name s) (su_UUID s) (su_ControllerUUID s) (su_ProviderType _ s) (su_Cloud _ s)
                    (su_CloudRegion _ s) (su_CloudCredential _ s) (su_Owner s) (su_Life _ s) (su_ModelUserAccess s)
                    "unavailable" (su_Rest s)
        end)) dbModels).

Definition ListModels_ j user : JM (list (UserModel Info)) :=
  uuids ← map_err (fun err => Errorf "failed to list user models: %v" [ArgE err]) (jfga (ListModels user ReaderRelation));
  models ← map_err (fun err => Errorf "failed to get models by uuid: %v" [ArgE err]) (jdb (GetModelsByUUID uuids));
  let modelsMap := foldl (fun (acc : gmap string Model) lm => <[default "" (m_UUID (lm_Model lm)) := lm_Model lm]> acc) ∅ models in
  '(found, err) ← collect j (uniqueControllers (fun m => m_ControllerID (lm_Model m)) [] models) api_ListModels;
  match err with
  | Some e => throw (Errorf "failed to list models: %v" [ArgE e])
  | None => mret (omap (M:=list) (fun um => (fun m => MkUserModel (usm_UUID um) (m_OwnerIdentityName m) (usm_Rest um))
                                     <$> (modelsMap !! usm_UUID um)) found)
  end.

Fixpoint forUserModels user (f : LoadedModel -> string -> JM unit) (models : list LoadedModel) : JM unit :=
  match models with
  | [] => mret tt
  | lm :: models =>
      tag ← lift (Model_ResourceTag (lm_Model lm));
      access ← world (Perm.GetUserModelAccess user tag);
      _ ← (if decide (access = "read" \/ access = "write" \/ access = "admin") then f lm access else mret tt);
      forUserModels user f models
  end.
Definition ForEachUserModel user (f : LoadedModel -> string -> JM unit) : JM unit :=
  models ← jdb AllModels;
  forUserModels user f models.

Definition ForEachModel user (f : LoadedModel -> string -> JM unit) : JM unit :=
  if negb (JimmAdmin user) then throw Unauthorized else
  models ← jdb AllModels;
  for_range models (fun lm => f lm "admin").

(** ** Operations on one model *)

Definition doModel {A} j user mt (requireRelation : string) (f : LoadedModel -> Conn -> JM A) : JM A :=
  lm ← jdb (LoadModel (SetTag mt));
  hasAccess ← jfga (HasModelRelation user mt requireRelation);
  if negb hasAccess then throw Unauthorized else
  api ← dialControllerAsSuperuser j (Some user) (lm_Controller lm);
  f lm api.
Definition doModelAdmin {A} j user mt (f : LoadedModel -> Conn -> JM A) : JM A := doModel j user mt AdministratorRelation f.

Definition DestroyModel (fuel : nat) j user mt (args : DestroyArgs) : JM unit :=
  doModelAdmin j user mt (fun lm api =>
    m ← jdb (db_UpdateModel (with_Life Dying (lm_Model lm)));
    r ← try (ctl (api_DestroyModel api mt args));
    match r with
    | inl _ => mret tt
    | inr err =>
        if decide (ErrorCode err = CodeNotFound) then deleteModel fuel mt else
        _ ← try (jdb (db_UpdateModel (with_Life Alive m)));
        throw err
    end).

Definition DumpModel j user mt (simplified : bool) : JM Info :=
  doModelAdmin j user mt (fun _ api => ctl (api_DumpModel api mt simplified)).
Definition DumpModelDB j user mt : JM Info :=
  doModelAdmin j user mt (fun _ api => ctl (api_DumpModelDB api mt)).
Definition AbortModelUpgrade j user mt : JM unit :=
  doModel j user mt WriterRelation (fun _ api => ctl (api_AbortModelUpgrade api (Id mt))).
Definition UpgradeModel j user mt (args : UpgradeArgs) : JM string :=
  doModel j user mt WriterRelation (fun _ api => ctl (api_UpgradeModel api (Id mt) args)).
Definition ValidateModelUpgrade j user mt (force : bool) : JM unit :=
  doModelAdmin j user mt (fun _ api => ctl (api_ValidateModelUpgrade api mt force)).

(** The caller is checked by the facade. *)
Definition UpgradeController j user (controllerName : string) (args : UpgradeArgs) : JM string :=
  controller ← getControllerByName controllerName;
  api ← dialControllerAsSuperuser j (Some user) controller;
  uuid ← map_err (fun err => Codef CodeServerError "failed to get controller model UUID on controller %q: %w"
                               [ArgS controllerName; ArgE err]) (ctl (api_ControllerModelUUID api));
  ctl (api_UpgradeModel api uuid args).

(** ** Credentials of a model ([cloudcredential.go]) *)

Definition getCloudCredentialAttributes (cred : CloudCredential) : JM (gmap string string) :=
  tag ← lift (Credential_ResourceTag cred);
  ctl_read (cs_Get tag).

Definition forceUpdateControllerCloudCredential (cred : CloudCredential) (attrs : gmap string string) (api : Conn)
    : JM (list (CredentialModel Info)) :=
  tag ← lift (Credential_ResourceTag cred);
  out ← ctl (api_UpdateCloudsCredentialForce api (MkTagged (TagString tag) (cc_AuthType cred) attrs));
  match out with
  | [] => mret []
  | r :: _ => match ur_Error r with Some err => throw err | None => mret (ur_Models r) end
  end.

Definition ChangeModelCredential j user mt (cred : CredTag) : JM unit :=
  _ ← (if JimmAdmin user then mret tt else
       tag ← lift (Identity_ResourceTag (u_Identity user));
       if decide (Id tag <> ct_Owner cred) then throw Unauthorized else mret tt);
  credential ← jdb (GetCloudCredential (MkCredential 0 (ct_Name cred) (ct_Cloud cred) (ct_Owner cred) "" None));
  attrs ← getCloudCredentialAttributes credential;
  lm ← doModelAdmin j user mt (fun lm api =>
         _ ← forceUpdateControllerCloudCredential credential attrs api;
         _ ← ctl (api_ChangeModelCredential api mt cred);
         mret lm);
  _ ← jdb (db_UpdateModel (with_CloudCredential (cc_ID credential) (lm_Model lm)));
  mret tt.

(** ** Commands on a model *)

Inductive model_cmd :=
| CmdInfo (fuel : nat)
| CmdStatus (fuel : nat)
| CmdDestroy (fuel : nat) (args : DestroyArgs)
| CmdDump (simplified : bool)
| CmdDumpDB
| CmdAbortUpgrade
| CmdUpgrade (args : UpgradeArgs)
| CmdValidateUpgrade (force : bool)
| CmdChangeCredential (cred : CredTag).

Definition needed (cmd : model_cmd) : string :=
  match cmd with
  | CmdInfo _ => ReaderRelation
  | CmdAbortUpgrade | CmdUpgrade _ => WriterRelation
  | _ => AdministratorRelation
  end.

(** The result is dropped. *)
Definition run_cmd j user mt (cmd : model_cmd) : JM unit :=
  match cmd with
  | CmdInfo fuel => _ ← ModelInfo_ fuel j user mt; mret tt
  | CmdStatus fuel => _ ← ModelStatus fuel j user mt; mret tt
  | CmdDestroy fuel args => DestroyModel fuel j user mt args
  | CmdDump simplified => _ ← DumpModel j user mt simplified; mret tt
  | CmdDumpDB => _ ← DumpModelDB j user mt; mret tt
  | CmdAbortUpgrade => AbortModelUpgrade j user mt
  | CmdUpgrade args => _ ← UpgradeModel j user mt args; mret tt
  | CmdValidateUpgrade force => ValidateModelUpgrade j user mt force
  | CmdChangeCredential cred => ChangeModelCredential j user mt cred
  end.

End ops.

Section facts.
Context {F : Type} `{OFGALaws F} {T : Type -> Type} `{GormLaws T} {C : Type} `{Controllers C} `{JujuNames} `{Hash}.
Implicit Types (j : JujuManager) (user : User) (mt : Tag) (lm : LoadedModel) (s : JW F T C).

(** ** Who may run a command *)

(** The user lacks the relation, or there is no such model. *)
Definition denied user (r : string) mt s : Prop :=
  ~ has_access (j_tuples s) user r (ConvertTag mt) \/
  Forall (fun m => m_UUID m <> Some (Id mt)) (rows (db_models (w_db (fst s)))).

Lemma denied_still user r mt s s' : still s s' -> denied user r mt s -> denied user r mt s'.
Proof.
  intros [[HT Ht] _]. unfold denied. rewrite HT.
  destruct (tables_eq _ _ Ht) as (_ & _ & -> & _). done.
Qed.

(** The two guards of the commands. *)
Lemma guard_denied {A} user r mt (k : LoadedModel -> bool -> M (JW F T C) A) s :
  denied user r mt s ->
  (forall lm s', wp (k lm false) (refused s') s') ->
  wp (lm ← jdb (LoadModel (SetTag mt)); b ← jfga (checkRelation user mt r); k lm b) (refused s) s.
Proof.
  intros Hd Hk. eapply refused_after; [apply finds_jdb, LoadModel_sees|]. intros lm s1 Hs1 [Hlm Hu].
  eapply refused_after; [apply finds_check|]. intros b s2 Hs2 Hb.
  destruct Hd as [Hd|Hd].
  - destruct b; [|apply Hk]. exfalso. apply Hd. destruct Hs1 as [[<- _] _]. by apply Hb.
  - exfalso. rewrite Forall_forall in Hd. apply (Hd (lm_Model lm)); [apply Hlm|]. by apply Hu.
Qed.

Lemma doModel_denied {A} j user mt r (f : LoadedModel -> Conn -> M (JW F T C) A) s :
  denied user r mt s -> wp (doModel j user mt r f) (refused s) s.
Proof.
  intros Hd. unfold doModel. apply (guard_denied user r mt); [done|].
  intros lm s'. simpl. by wp_value.
Qed.

Lemma ModelInfo_denied fuel j user mt s :
  denied user ReaderRelation mt s -> wp (ModelInfo_ fuel j user mt) (refused s) s.
Proof.
  intros Hd. unfold ModelInfo_. eapply refused_after; [apply finds_jdb, LoadModel_sees|]. intros lm s1 Hs1 [Hlm Hu].
  apply wp_bind, wp_try. eapply wp_mono; [apply finds_check|]. intros o s2 (_ & Hs2 & Hb).
  destruct Hd as [Hd|Hd].
  - destruct o as [[]|e|x|]; cbn [bind_post]; [|wp_value; by split|wp_value; by split|by split|by split].
    exfalso. apply Hd. destruct Hs1 as [[<- _] _]. by apply (Hb true eq_refl).
  - exfalso. rewrite Forall_forall in Hd. apply (Hd (lm_Model lm)); [apply Hlm|]. by apply Hu.
Qed.

Lemma GetCloudCredential_sees c (d : Db T) :
  wp (GetCloudCredential c) (sees (fun r => r ∈ rows (db_credentials d) /\ row_conflict r c = true) d) d.
Proof.
  unfold GetCloudCredential. apply wp_sees_ready. case_decide; [wp_value; by split|]. apply wp_sees_map_err.
  eapply wp_sees_mono; [apply first_wp, part_credentials|]. intros r [Hin Hp]. split; [done|].
  by apply andb_true_iff in Hp as [_ Hp].
Qed.

Lemma ChangeModelCredential_denied j user mt cred s :
  denied user AdministratorRelation mt s -> wp (ChangeModelCredential j user mt cred) (refused s) s.
Proof.
  intros Hd. unfold ChangeModelCredential.
  apply (refused_after (fun _ => True)).
  { destruct (JimmAdmin user); [wp_value; by split_and!|]. apply wp_bind. wp_value.
    pose proof (NewUserTag_answered (i_Name (u_Identity user))) as Ha. unfold Identity_ResourceTag.
    destruct (NewUserTag _); cbn [bind_post]; [case_decide; wp_value|..]; by split_and!. }
  intros _ s1 Hs1 _. eapply refused_after; [apply finds_jdb, GetCloudCredential_sees|]. intros credential s2 Hs2 _.
  apply (refused_after (fun _ => True)).
  { unfold getCloudCredentialAttributes. apply wp_bind. wp_value. pose proof (NewJujuTag_answered "cloudcred" (Path credential)) as Ha. unfold Credential_ResourceTag.
    destruct (NewJujuTag _ _); cbn [bind_post]; [|by split_and!..]. unfold ctl_read, wp. split_and!; [by destruct (cs_Get _ _)|done|done]. }
  intros attrs s3 Hs3 _. apply refused_bind. apply doModel_denied. eapply denied_still; [|exact Hd]. by do 2 (etrans; [done|]).
Qed.

(** C16.  A command on a model (information, status, destruction, dumps,
    upgrades, a change of credential) by a user that lacks the relation it
    needs, or on a model that is not in the database, fails; it changes no
    tuple and no row and contacts no controller. *)
Theorem model_commands_guarded j user mt cmd s s' o :
  denied user (needed cmd) mt s -> run_cmd j user mt cmd s = (s', o) ->
  still s s' /\ o <> Ok tt.
Proof.
  intros Hd Hrun. cut (wp (run_cmd j user mt cmd) (refused s) s).
  { intros Hwp. destruct (wp_elim _ _ _ _ _ Hwp Hrun) as [Hs Ho]. split; [done|apply Ho]. }
  clear Hrun. destruct cmd; simpl in Hd |- *;
    first [by apply doModel_denied | by apply refused_bind, doModel_denied | by apply refused_bind, ModelInfo_denied
          | by apply ChangeModelCredential_denied].
Qed.

(** Callbacks that only talk to the controllers. *)
Lemma forEachController_finds j cs (f : Controller -> Conn -> M (JW F T C) unit) s :
  (forall c api s', wp (f c api) (finds same (fun _ => True) s') s') ->
  wp (forEachController j cs f) (finds same (fun _ => True) s) s.
Proof.
  intros Hf. revert s. induction cs as [|c cs IH]; intros s; simpl; [by apply (finds_ret same)|].
  eapply (finds_bind same); [apply finds_try; eapply (finds_bind same); [apply finds_service|intros api s1 _ _; apply Hf]|].
  intros [[]|err] s1 _ _; [apply IH|]. eapply (finds_bind same); [apply finds_try, IH|]. intros r s2 _ _. apply (finds_throw same).
Qed.

(** ** Destruction *)

(** The rows of models as the database keeps them. *)
Definition models_ok (d : Db T) : Prop :=
  unique_rows (rows (db_models d)) /\ Forall (fun m => m_ID m <> 0%Z) (rows (db_models d)).

(** The rows with a new version of one of them. *)
Definition replaced (m' : Model) (l : list Model) : list Model :=
  (fun x => if decide (m_ID x = m_ID m') then m' else x) <$> l.

Lemma same_key (m x : Model) d : models_ok d -> m ∈ rows (db_models d) -> x ∈ rows (db_models d) -> m_ID x = m_ID m -> x = m.
Proof.
  intros [[Hnd _] _] (i & Hi)%list_elem_of_lookup (k & Hk)%list_elem_of_lookup Heq.
  assert (i = k) as <-; [|congruence].
  apply (NoDup_lookup (m_ID <$> rows (db_models d)) i k (m_ID m)); [done|by rewrite list_lookup_fmap, Hi|].
  rewrite list_lookup_fmap, Hk. simpl. by f_equal.
Qed.

Lemma saved_replaces m' r (l l' : list Model) :
  m_ID m' <> 0%Z -> m_ID m' ∈ m_ID <$> l -> saved m' r l l' -> r = m' /\ l' = replaced m' l /\ unique_rows l'.
Proof.
  intros Hid Hin. unfold saved, replaced. simpl. rewrite decide_False by done. rewrite decide_True by done.
  intros ([now ->] & Hu & ->). done.
Qed.

Lemma UpdateModel_replaces m' (d : Db T) :
  models_ok d -> m_ID m' ∈ m_ID <$> rows (db_models d) ->
  wp (db_UpdateModel m') (fun o d' => answered o /\ apart_models d' = apart_models d /\
    match o with
    | Ok r => r = m' /\ rows (db_models d') = replaced m' (rows (db_models d)) /\ models_ok d'
    | _ => rows (db_models d') = rows (db_models d)
    end) d.
Proof.
  intros [Hu Hnz] Hin. assert (m_ID m' <> 0%Z) as Hid.
  { apply list_elem_of_fmap in Hin as (x & -> & Hx). rewrite Forall_forall in Hnz. by apply Hnz. }
  eapply wp_mono; [by apply db_UpdateModel_wp|]. intros o d' (Ha & Hap & Ho). split_and!; [done..|].
  destruct o as [r|e|x|]; [|done..]. destruct (saved_replaces _ _ _ _ Hid Hin Ho) as (-> & Hl & Hu').
  split_and!; [done|done|]. split; [done|]. rewrite Hl. unfold replaced. apply Forall_fmap, Forall_forall.
  intros x Hx. simpl. case_decide; [done|]. rewrite Forall_forall in Hnz. by apply Hnz.
Qed.

(** What a deletion leaves. *)
Definition delete_post mt s (o : outcome unit) s' : Prop :=
  snd s' = snd s /\
  ((same s s' /\ o <> Ok tt) \/
   (deleted_models (deletes (SetTag mt)) (w_db (fst s)) (w_db (fst s')) /\
    let gone := removed_any (model_filters mt) (j_tuples s) in
    j_tuples s ∖ gone ⊆ j_tuples s' /\ j_tuples s' ⊆ j_tuples s /\ (o = Ok tt -> j_tuples s' = j_tuples s ∖ gone))).

(** Enough fuel to remove the tuples of a model, and few public ones. *)
Definition removable_model (fuel : nat) mt s : Prop :=
  Kind mt = ModelTagKind /\ (size (j_tuples s) < fuel)%nat /\
  (size (public_matching (MkTuple None "" (Some (ConvertTag mt))) (j_tuples s)) < 50)%nat.

Lemma deleteModel_wp fuel mt s :
  removable_model fuel mt s -> wp (deleteModel fuel mt) (fun o s' => o <> OutOfFuel /\ delete_post mt s o s') s.
Proof.
  intros (Hk & Hf & Hp). unfold deleteModel. apply wp_bind, wp_jdb. eapply wp_mono; [apply db_DeleteModel_wp|].
  intros o d [Ha Hd]. destruct o as [[]|e|x|]; cbn [bind_post].
  2-4: (split; [apply Ha || done|]; split; [done|]; left; split; [split; [done|exact Hd]|done]).
  apply wp_jfga, wp_run. intros f o Hrun.
  destruct (RemoveModel_exact fuel mt _ f o Hk Hf Hp Hrun) as (Ho & Hlo & Hhi & Hok). split; [done|]. split; [done|].
  right. by split_and!.
Qed.

(** The ends of a destruction that was allowed: the life of the model is
    changed, or the model is deleted; nothing else. *)
Definition destroy_end mt s (m : Model) (o : outcome unit) s' : Prop :=
  let d := w_db (fst s) in
  (exists life, j_tuples s' = j_tuples s /\ apart_models (w_db (fst s')) = apart_models d /\
     rows (db_models (w_db (fst s'))) = replaced (with_Life life m) (rows (db_models d)) /\
     life ∈ [Dying; Alive] /\ (o = Ok tt -> life = Dying)) \/
  (exists s1, j_tuples s1 = j_tuples s /\ apart_models (w_db (fst s1)) = apart_models d /\
     rows (db_models (w_db (fst s1))) = replaced (with_Life Dying m) (rows (db_models d)) /\
     delete_post mt s1 o s').

Definition destroy_post user mt s (o : outcome unit) s' : Prop :=
  (same s s' /\ forall a, o <> Ok a) \/
  (has_access (j_tuples s) user AdministratorRelation (ConvertTag mt) /\
   exists m, m ∈ rows (db_models (w_db (fst s))) /\ m_UUID m = Some (Id mt) /\ destroy_end mt s m o s').

Lemma replaced_twice (m' m'' : Model) l : m_ID m'' = m_ID m' -> replaced m'' (replaced m' l) = replaced m'' l.
Proof.
  intros Hid. unfold replaced. rewrite <- list_fmap_compose. apply list_fmap_ext. intros i x _. simpl.
  destruct (decide (m_ID x = m_ID m')) as [Hx|Hx]; [|done]. rewrite !decide_True by congruence. done.
Qed.

Lemma replaced_key (m' : Model) l : m_ID <$> replaced m' l = m_ID <$> l.
Proof.
  unfold replaced. rewrite <- list_fmap_compose. apply list_fmap_ext. intros i x _. unfold compose. case_decide; congruence.
Qed.

Lemma revive_wp mt m err s s1 :
  m ∈ rows (db_models (w_db (fst s))) -> models_ok (w_db (fst s1)) ->
  j_tuples s1 = j_tuples s -> apart_models (w_db (fst s1)) = apart_models (w_db (fst s)) ->
  rows (db_models (w_db (fst s1))) = replaced (with_Life Dying m) (rows (db_models (w_db (fst s)))) ->
  wp (_ ← try (jdb (db_UpdateModel (with_Life Alive (with_Life Dying m)))); throw err) (fun o s' => o <> OutOfFuel /\ destroy_end mt s m o s') s1.
Proof.
  intros Hin Hok Ht Ha Hr. apply wp_bind, wp_try, wp_jdb. eapply wp_mono; [apply UpdateModel_replaces; [done|]|].
  { rewrite Hr, replaced_key. by apply list_elem_of_fmap_2 with (f := m_ID) in Hin. }
  intros o d (Hans & Hap & Ho).
  assert (forall life o, o <> OutOfFuel -> o <> Ok tt -> life ∈ [Dying; Alive] ->
    rows (db_models d) = replaced (with_Life life m) (rows (db_models (w_db (fst s)))) ->
    o <> OutOfFuel /\ destroy_end mt s m o (MkWorld (w_fga (fst s1)) d, snd s1)) as Hend.
  { intros life o' Hne Hno Hl Hd. split; [done|]. left. exists life. split_and!; [exact Ht|by etrans|done|done|done]. }
  destruct o as [r|e|x|]; cbn [bind_post]; try wp_value.
  - destruct Ho as (_ & Hd & _). apply (Hend Alive); [done|done|by repeat constructor|]. rewrite Hd, Hr. by apply replaced_twice.
  - apply (Hend Dying); [done|done|by repeat constructor|]. congruence.
  - apply (Hend Dying); [done|done|by repeat constructor|]. congruence.
  - done.
Qed.

Lemma destroy_wp fuel mt args api m s :
  models_ok (w_db (fst s)) -> removable_model fuel mt s -> m ∈ rows (db_models (w_db (fst s))) ->
  wp (m' ← jdb (db_UpdateModel (with_Life Dying m));
      r ← try (ctl (api_DestroyModel api mt args));
      match r with
      | inl _ => mret tt
      | inr err =>
          if decide (ErrorCode err = CodeNotFound) then deleteModel fuel mt else
          _ ← try (jdb (db_UpdateModel (with_Life Alive m')));
          throw err
      end) (fun o s' => o <> OutOfFuel /\ ((same s s' /\ forall a, o <> Ok a) \/ destroy_end mt s m o s')) s.
Proof.
  intros Hok Hrm Hin. apply wp_bind, wp_jdb. eapply wp_mono; [apply UpdateModel_replaces; [done|]|].
  { by apply list_elem_of_fmap_2 with (f := m_ID) in Hin. }
  intros o d (Hans & Hap & Ho). destruct o as [r|e|x|]; cbn [bind_post].
  2-4: (split; [exact Hans || done|]; left; split; [split; [done|]|done]; unfold j_tables, tables; unfold apart_models in Hap; simpl; congruence).
  destruct Ho as (-> & Hd & Hok'). set (s1 := (MkWorld (w_fga (fst s)) d, snd s)).
  apply wp_bind, wp_try, wp_ctl; intros c a _; cbn [bind_post].
  - wp_value. split; [done|]. right. left. exists Dying. split_and!; [done|done|done|by repeat constructor|done].
  - case_decide; eapply wp_mono; [apply (deleteModel_wp fuel mt (fst s1, c)); exact Hrm| | |].
    + intros o s' [Ho Hdel]. split; [done|]. right. right. exists (fst s1, c). by split_and!.
    + by apply (revive_wp mt m a s (fst s1, c)).
    + intros o s' [Ho Hend]. split; [done|by right].
Qed.

Lemma models_ok_same s s' : same s s' -> models_ok (w_db (fst s)) -> models_ok (w_db (fst s')).
Proof. intros [_ (_ & _ & Hm & _)%tables_eq]. unfold models_ok. by rewrite Hm. Qed.

Lemma destroy_end_same s s1 mt m o s' : same s s1 -> destroy_end mt s1 m o s' -> destroy_end mt s m o s'.
Proof.
  intros [HT Ht]. destruct (tables_eq _ _ Ht) as (_ & _ & Hm & _). unfold destroy_end.
  by rewrite (apart_models_tables _ _ Ht), HT, Hm.
Qed.


(** ** The users of a resource *)

(** The access of a user that is listed is one it has. *)
Definition listed (TS : gset Tuple) (toString : string -> string) (relations : list string) (g : Tag) (name access : string) : Prop :=
  exists r e u, r ∈ relations /\ access = toString r /\ listed_user e = Some u /\ u_Name u = name /\
    EKind e = UserTagKind /\ holds TS e r (ConvertTag g).

Lemma recordUsers_spec access found (m : gmap string string) :
  answered (recordUsers access found m) /\
  forall m', recordUsers access found m = Ok m' -> forall name a, m' !! name = Some a ->
    m !! name = Some a \/ (a = access /\ exists u, Some u ∈ found /\ u_Name u = name).
Proof.
  revert m. induction found as [|[u|] found IH]; intros m; simpl; [|split; [apply IH|]|done].
  { split; [done|]. intros m' Hm'. apply (inj Ok) in Hm' as <-. by left. }
  intros m' Hm' name a Ha. destruct (proj2 (IH _) m' Hm' name a Ha) as [Hm|(-> & v & Hv & Hn)].
  - destruct (m !! u_Name u) eqn:Hu; [by left|].
    destruct (decide (u_Name u = name)) as [<-|Hne]; [|rewrite lookup_insert_ne in Hm by done; by left].
    rewrite lookup_insert_eq in Hm. simplify_eq. right. split; [done|]. exists u. split; [by constructor|done].
  - right. split; [done|]. exists v. split; [by constructor|done].
Qed.

Lemma usersWithAccess_finds toString g rs m s :
  wp (usersWithAccess toString g rs m) (finds still (fun m' => forall name a, m' !! name = Some a ->
    m !! name = Some a \/ listed (j_tuples s) toString rs g name a) s) s.
Proof.
  revert m s. induction rs as [|r rs IH]; intros m s; simpl; [by apply (finds_ret still); auto|].
  eapply (finds_bind still); [apply finds_users|]. intros found s1 Hs1 Hfound.
  destruct (recordUsers_spec (toString r) found m) as [Hans Hrec].
  eapply (finds_bind still (fun m1 => recordUsers (toString r) found m = Ok m1)); [by apply (finds_lift still)|].
  intros m1 s2 Hs2 Hm1. pose proof (Hrec m1 Hm1) as Hm1'. clear Hm1. rename Hm1' into Hm1.
  eapply finds_mono; [apply IH|]. intros m2 Hm2 name a Ha.
  assert (j_tuples s2 = j_tuples s) as HT by (destruct Hs1 as [[? _] _], Hs2 as [[? _] _]; congruence). rewrite HT in Hm2.
  destruct (Hm2 name a Ha) as [Hm|(r' & e & u & Hr' & Hrest)].
  - destruct (Hm1 name a Hm) as [?|(-> & u & Hu & Hn)]; [by left|right].
    destruct (Hfound _ Hu) as (e & He & Hk & Hh). exists r, e, u. split_and!; [by constructor|done..].
  - right. exists r', e, u. split; [by constructor|done].
Qed.

Definition model_relations : list string := [AdministratorRelation; WriterRelation; ReaderRelation].

(** A level that is reported is one the user has. *)
Lemma finds_model_access user g s :
  wp (world (Perm.GetUserModelAccess user g)) (finds still (fun a =>
    (a = "admin" -> has_access (j_tuples s) user AdministratorRelation (ConvertTag g)) /\
    (a = "write" -> has_access (j_tuples s) user WriterRelation (ConvertTag g))) s) s.
Proof.
  apply wp_jworld. unfold Perm.GetUserModelAccess. apply wp_bind, Perm.wp_fga.
  eapply wp_mono; [apply (access_ladder_wp user g model_relations)|]. intros o f (HT & Ha & Hr).
  destruct o as [r|e|x|]; cbn [bind_post]; try wp_value; (split_and!; [exact Ha || done|by split; [split|]|]);
    intros a Hres; [|done..]. apply (inj Ok) in Hres as <-.
  destruct (Hr r eq_refl) as [->|(pre & post & Hrs & Hacc & _)]; [by split|].
  assert (r ∈ model_relations) as Hin by (rewrite Hrs; apply elem_of_app; right; constructor).
  unfold model_relations in Hin. rewrite !elem_of_cons in Hin.
  destruct Hin as [->|[->|[->|Hin]]]; [by split..|by apply elem_of_nil in Hin].
Qed.

(** What a caller may learn of a model: the users and their access are true,
    and only an administrator sees others than itself and everyone; machines
    are shown with write access only. *)
Definition info_confined user mt s (info : ModelInfo Info) : Prop :=
  let TS := j_tuples s in
  (forall ui, ui ∈ mi_Users info ->
     listed TS Perm.ToModelAccessString model_relations mt (ui_UserName ui) (ui_Access ui) /\
     (has_access TS user AdministratorRelation (ConvertTag mt) \/ ui_UserName ui = u_Name user \/ ui_UserName ui = EveryoneUser)) /\
  (mi_Machines info <> [] -> has_access TS user AdministratorRelation (ConvertTag mt) \/
                             has_access TS user WriterRelation (ConvertTag mt)).

Lemma finds_model_tag m uuid s :
  m_UUID m = Some uuid -> wp (lift (Model_ResourceTag m)) (finds still (fun tag => tag = MkTag ModelTagKind uuid) s) s.
Proof.
  intros Hu. apply (finds_lift still); [apply Model_ResourceTag_answered|]. intros tag. unfold Model_ResourceTag. rewrite Hu.
  unfold NewModelTag, NewJujuTag. destruct (ValidTagId _ _); [|done]. intros Ht. by apply (inj Ok) in Ht as <-.
Qed.

Lemma mergeModelInfo_finds user info lm s uuid :
  m_UUID (lm_Model lm) = Some uuid ->
  wp (mergeModelInfo user info lm) (finds still (info_confined user (MkTag ModelTagKind uuid) s) s) s.
Proof.
  intros Huuid. unfold mergeModelInfo.
  eapply (finds_bind still (fun _ => True)); [by apply (finds_lift still); [apply NewJujuTag_answered|]|]. intros cred s1 Hs1 _.
  eapply (finds_bind still); [apply (finds_model_tag _ _ _ Huuid)|].
  intros tag s2 Hs2 ->. eapply (finds_bind still); [apply usersWithAccess_finds|]. intros users s3 Hs3 Husers.
  eapply (finds_bind still); [apply finds_model_access|]. intros a s4 Hs4 [Hadmin Hwrite]. apply (finds_ret still).
  assert (j_tuples s2 = j_tuples s) as HT2 by (destruct Hs1 as [[? _] _], Hs2 as [[? _] _]; congruence).
  assert (j_tuples s3 = j_tuples s) as HT3 by (destruct Hs3 as [[? _] _]; congruence).
  rewrite HT2 in Husers. rewrite HT3 in Hadmin, Hwrite. split; simpl.
  - intros ui [Hin Hf]%list_elem_of_In%filter_In. apply list_elem_of_In, list_elem_of_fmap in Hin as ([name acc] & -> & Hp).
    apply elem_of_map_to_list in Hp. simpl in *. split; [by destruct (Husers _ _ Hp) as [?%lookup_empty_Some|]|].
    apply andb_true_iff in Hf as [_ Hf]. rewrite !orb_true_iff, !bool_decide_eq_true in Hf. naive_solver.
  - case_decide as Ha; [done|]. intros _. destruct (decide (a = "admin")); [left|right]; [by apply Hadmin|apply Hwrite].
    apply dec_stable. tauto.
Qed.

Lemma reactToModelInfoSuccess_wp lm info s :
  models_ok (w_db (fst s)) -> lm_Model lm ∈ rows (db_models (w_db (fst s))) ->
  wp (reactToModelInfoSuccess lm info) (fun o s' => forall r, o = Ok r ->
    j_tuples s' = j_tuples s /\ m_UUID (lm_Model (snd r)) = m_UUID (lm_Model lm)) s.
Proof.
  intros Hok Hin. unfold reactToModelInfoSuccess.
  assert (forall s', j_tuples s' = j_tuples s -> forall r, Ok (info, lm) = Ok r ->
    j_tuples s' = j_tuples s /\ m_UUID (lm_Model (snd r)) = m_UUID (lm_Model lm)) as Hret.
  { intros s' HT r Hr. by apply (inj Ok) in Hr as <-. }
  case_decide; [wp_value; by apply Hret|]. case_decide; [|by wp_value].
  destruct (mi_MigrationStatus info) as [[n|]|]; [|wp_value; by apply Hret..].
  apply wp_bind, wp_map_err, wp_jdb. eapply wp_mono; [apply UpdateModel_replaces; [done|]|].
  { by apply list_elem_of_fmap_2 with (f := m_ID) in Hin. }
  intros o d (_ & _ & Ho). destruct o as [m|e|x|]; cbn [bind_post]; [|done..]. destruct Ho as (-> & _ & _).
  wp_value. intros r Hr. by apply (inj Ok) in Hr as <-.
Qed.

Lemma checkModelMigratedInternal_wp err m s :
  models_ok (w_db (fst s)) -> m ∈ rows (db_models (w_db (fst s))) ->
  wp (checkModelMigratedInternal err m) (fun o s' => forall m', o = Ok m' ->
    j_tuples s' = j_tuples s /\ m_UUID m' = m_UUID m) s.
Proof.
  intros Hok Hin. unfold checkModelMigratedInternal. case_decide; [by wp_value|].
  destruct (ErrorInfo err) as [info|]; [|by wp_value]. apply wp_bind, wp_map_err. wp_value.
  destruct (UnmarshalRedirect info) as [alias|e]; cbn [bind_post of_sum]; [|done].
  apply wp_bind, wp_map_err, wp_jdb. eapply wp_mono; [apply GetController_reads|].
  intros o d [_ Ht]. destruct o as [c|e|x|]; cbn [bind_post]; [|done..].
  apply wp_map_err, wp_jdb. destruct (tables_eq _ _ Ht) as (_ & _ & Hm & _).
  eapply wp_mono; [apply UpdateModel_replaces; simpl|].
  { unfold models_ok. by rewrite Hm. }
  { rewrite Hm. by apply list_elem_of_fmap_2 with (f := m_ID) in Hin. }
  intros o d' (_ & _ & Ho). destruct o as [m'|e|x|]; [|done..]. destruct Ho as (-> & _ & _).
  intros m' Hm'. by apply (inj Ok) in Hm' as <-.
Qed.

Lemma modelInfo_wp fuel j u lm api s uuid :
  models_ok (w_db (fst s)) -> lm_Model lm ∈ rows (db_models (w_db (fst s))) -> m_UUID (lm_Model lm) = Some uuid ->
  wp (modelInfo fuel j u lm api) (fun o s' => forall r, o = Ok r ->
    j_tuples s' = j_tuples s /\ m_UUID (lm_Model (snd r)) = Some uuid) s.
Proof.
  intros Hok Hin Hu. unfold modelInfo. apply wp_bind. wp_value. unfold Model_ResourceTag. rewrite Hu.
  unfold NewModelTag, NewJujuTag. destruct (ValidTagId _ _); cbn [bind_post]; [|done].
  apply wp_bind, wp_try, wp_ctl; intros c a _; cbn [bind_post].
  { rewrite <- Hu. by apply (reactToModelInfoSuccess_wp lm a (fst s, c)). }
  unfold reactToModelInfoError. case_decide.
  { apply wp_bind, wp_map_err, wp_any. intros [] s'; cbn [bind_post]; try wp_value; done. }
  case_decide; [|by case_decide; wp_value]. apply wp_bind, wp_map_err.
  eapply wp_mono; [by apply checkModelMigratedInternal_wp|]. intros o s1 Ho.
  destruct o as [m|e|x|]; cbn [bind_post]; [|done..]. destruct (Ho m eq_refl) as [HT1 Hm].
  apply (wp_finds_bind still (fun lm => m_UUID (lm_Model lm) = Some uuid)); [|intros lm' s2 Hs2 Hlm'|naive_solver].
  { apply finds_jdb. eapply wp_sees_mono; [apply LoadModel_sees|]. intros lm' [_ Hlm']. apply Hlm'. congruence. }
  eapply wp_finds_bind; [apply finds_dial|intros api' s3 Hs3 _|naive_solver].
  apply wp_bind. wp_value. destruct (Model_ResourceTag _); cbn [bind_post]; [|done..].
  eapply wp_finds_bind; [apply finds_ctl|intros info s4 Hs4 _|naive_solver]. wp_value.
  intros r Hr. apply (inj Ok) in Hr as <-. split; [|done].
  destruct Hs2 as [[HT2 _] _], Hs3 as [HT3 _], Hs4 as [HT4 _]. etrans; [exact HT4|]. by rewrite HT3, HT2.
Qed.

(** The information on a model goes only to a user that may read it, and
    shows only what the user may see: every user listed really has the access
    shown, a user that does not administer the model sees only itself and
    everyone, and machines only with write access.  No tuple changes. *)
Theorem ModelInfo_confined fuel j user uuid s s' info :
  models_ok (w_db (fst s)) ->
  ModelInfo_ fuel j user (MkTag ModelTagKind uuid) s = (s', Ok info) ->
  j_tuples s' = j_tuples s /\
  has_access (j_tuples s) user ReaderRelation (MkEntity ModelTagKind uuid "") /\
  info_confined user (MkTag ModelTagKind uuid) s info.
Proof.
  set (mt := MkTag ModelTagKind uuid). intros Hok Hrun.
  cut (wp (ModelInfo_ fuel j user mt) (fun o s' => forall info, o = Ok info -> j_tuples s' = j_tuples s /\
    has_access (j_tuples s) user ReaderRelation (ConvertTag mt) /\ info_confined user mt s info) s).
  { intros Hwp. exact (wp_elim _ _ _ _ _ Hwp Hrun info eq_refl). }
  clear Hrun info. unfold ModelInfo_. eapply wp_finds_bind; [apply finds_jdb, LoadModel_sees| |naive_solver].
  intros lm s1 [Hs1 _] [[Hin _] Hu]. apply wp_bind, wp_try. eapply wp_mono; [apply finds_check|].
  intros o s2 (_ & [Hs2 _] & Hb). destruct o as [b|e|x|]; cbn [bind_post]; try wp_value; [|done..].
  destruct b; [|by wp_value]. assert (same s s2) as Hs02 by by etrans.
  eapply wp_finds_bind; [apply finds_dial| |naive_solver]. intros api s3 Hs3 _. assert (same s s3) as Hs03 by by etrans.
  apply wp_bind. eapply wp_mono; [apply (modelInfo_wp _ _ _ _ _ _ uuid)|].
  { by apply (models_ok_same s). }
  { destruct (tables_eq _ _ (proj2 Hs03)) as (_ & _ & -> & _). done. }
  { by apply Hu. }
  intros o s4 Ho. destruct o as [[info lm']|e|x|]; cbn [bind_post]; [|done..]. destruct (Ho _ eq_refl) as [HT4 Hu'].
  eapply wp_mono; [by apply mergeModelInfo_finds|]. intros o s5 (_ & [[HT5 _] _] & Hinfo) info' ->.
  specialize (Hinfo info' eq_refl). assert (j_tuples s4 = j_tuples s) as HT by (destruct Hs03; congruence).
  split_and!; [congruence| |by unfold info_confined in *; rewrite HT in Hinfo].
  destruct Hs1 as [<- _]. by apply (Hb true).
Qed.

End facts.
End Models.
