(* ===== verification/ControllerDb.v ===== *)
(** * ControllerDb: what the operations on controllers, bootstraps and
    migrations do to the tables.

    The lemmas that the transactions of [JujuControllers] and [JujuMigration]
    share: deletions of several models compose, a controller goes with its
    priorities, and the rows that clouds are added to are kept apart from the
    others. *)

From S2P Require Import Prelude Errors Regexp Names AuthModel RefServer OpenFGA Dbmodel Users Database TagResolver Access JujuDb CloudDb JujuBase JujuModels.

Section facts.
Context {T : Type -> Type} `{GormLaws T}.
Implicit Types d : Db T.

(** ** Models of a controller *)

Lemma GetModelsByController_sees c d :
  wp (GetModelsByController c) (sees (fun l => forall m, m ∈ l <-> m ∈ rows (db_models d) /\ m_ControllerID m = c_ID c) d) d.
Proof.
  unfold GetModelsByController. apply wp_sees_ready, wp_sees_map_err. eapply wp_sees_mono; [apply find_wp, part_models|].
  intros l Hl m. cbv beta in Hl. by rewrite Hl, bool_decide_eq_true.
Qed.

Lemma deleted_none d : deleted_models (fun _ => false) d d.
Proof.
  unfold deleted_models, gone_models. assert (filter (fun m : Model => false = true) (rows (db_models d)) = []) as ->.
  { induction (rows (db_models d)) as [|x l IH]; [done|]. by rewrite filter_cons_False. }
  simpl. split_and!; [done|symmetry; apply filter_all; naive_solver set_solver..].
Qed.

Lemma filter_filter {A} (P Q R : A -> Prop) `{!forall x, Decision (P x), !forall x, Decision (Q x), !forall x, Decision (R x)} (l : list A) :
  (forall x, R x <-> P x /\ Q x) -> filter Q (filter P l) = filter R l.
Proof.
  intros HR. induction l as [|x l IH]; [done|]. destruct (decide (P x)) as [HP|HP].
  - rewrite (filter_cons_True P) by done. destruct (decide (Q x)).
    + rewrite !filter_cons_True; [by f_equal|by apply HR|done].
    + rewrite !filter_cons_False; [done|naive_solver|done].
  - rewrite (filter_cons_False P) by done. rewrite (filter_cons_False R); [done|naive_solver].
Qed.

Lemma filter_ext_on {A} (P Q : A -> Prop) `{!forall x, Decision (P x), !forall x, Decision (Q x)} (l : list A) :
  (forall x, x ∈ l -> P x <-> Q x) -> filter P l = filter Q l.
Proof.
  induction l as [|x l IH]; intros Hl; [done|]. assert (filter P l = filter Q l) as Heq by (apply IH; set_solver).
  destruct (decide (P x)) as [HP|HP].
  - rewrite !filter_cons_True; [by rewrite Heq|apply Hl; [constructor|done]|done].
  - rewrite !filter_cons_False; [done|rewrite <- Hl; [done|constructor]|done].
Qed.

(** Deletions one after the other are one deletion. *)
Lemma deleted_models_trans p q d d1 d2 :
  deleted_models p d d1 -> deleted_models q d1 d2 -> deleted_models (fun m => p m || q m) d d2.
Proof.
  intros (Ha1 & Hm1 & Ho1 & Hu1 & Hk1) (Ha2 & Hm2 & Ho2 & Hu2 & Hk2).
  assert (forall (B : Type) (f : Model -> B) b, b ∈ f <$> gone_models (fun m => p m || q m) d <->
    b ∈ f <$> gone_models p d \/ b ∈ f <$> gone_models q d1) as Hg.
  { intros B f b. unfold gone_models. rewrite !list_elem_of_fmap. setoid_rewrite list_elem_of_filter. rewrite Hm1.
    setoid_rewrite list_elem_of_filter. setoid_rewrite orb_true_iff. split.
    - intros (m & -> & Hpq & Hin). destruct (p m) eqn:Hp; [left|right]; naive_solver.
    - naive_solver. }
  split; [congruence|]. rewrite Hm2, Ho2, Hu2, Hk2, Hm1, Ho1, Hu1, Hk1. split_and!; apply filter_filter; intros x.
  - by rewrite orb_false_iff.
  - rewrite Hg. tauto.
  - rewrite Hg. naive_solver.
  - rewrite Hg. tauto.
Qed.

Lemma deleted_models_ext p q d d' :
  (forall m, m ∈ rows (db_models d) -> p m = q m) -> deleted_models p d d' -> deleted_models q d d'.
Proof.
  intros Hpq (Ha & Hm & Ho & Hu & Hk).
  assert (gone_models q d = gone_models p d) as Hg.
  { unfold gone_models. apply filter_ext_on. intros x Hx. by rewrite Hpq. }
  unfold deleted_models. rewrite Hg. split_and!; [done|rewrite Hm|done..].
  apply filter_ext_on. intros x Hx. by rewrite Hpq.
Qed.

Lemma deleted_models_tables p d d1 d' : tables d1 = tables d -> deleted_models p d1 d' -> deleted_models p d d'.
Proof.
  intros Ht. unfold deleted_models, gone_models, apart_deletion. all_tables. done.
Qed.

Lemma delete_models_range ms d :
  wp (for_range ms (fun m => db_DeleteModel m)) (yields (fun _ d' => deleted_models (fun x => existsb (fun m => deletes m x) ms) d d')) d.
Proof.
  revert d. induction ms as [|m ms IH]; intros d; simpl.
  { wp_value. split; [done|]. intros a _. apply deleted_none. }
  eapply (yields_bind (fun _ d' => deleted_models (deletes m) d d')).
  { eapply wp_mono; [apply db_DeleteModel_wp|]. intros o d' [Ha Hd]. split; [done|]. by intros a ->. }
  intros _ d1 Hd1. eapply wp_mono; [apply IH|]. intros o d2 [Ha Hd2]. split; [done|]. intros a ->.
  by apply (deleted_models_trans _ _ d d1 d2 Hd1), (Hd2 a).
Qed.

(** The models that a controller has, all of them deleted. *)
Definition on_controller (c : Controller) (m : Model) : bool := bool_decide (m_ControllerID m = c_ID c).

Lemma delete_on_controller c ms d :
  Models.models_ok d -> (forall m, m ∈ ms <-> m ∈ rows (db_models d) /\ m_ControllerID m = c_ID c) ->
  forall d', deleted_models (fun x => existsb (fun m => deletes m x) ms) d d' -> deleted_models (on_controller c) d d'.
Proof.
  intros Hok Hms d'. apply deleted_models_ext. intros x Hx. unfold on_controller. symmetry. case_bool_decide as Hc; symmetry.
  - apply existsb_exists. exists x. split; [by apply list_elem_of_In, Hms|]. unfold deletes, by_key.
    rewrite (bool_decide_eq_true_2 (m_ID x = m_ID x)) by done. rewrite orb_true_r. simpl.
    destruct (m_UUID x) eqn:Hu; [by apply bool_decide_eq_true_2|done].
  - apply not_true_is_false. intros (m & Hm & Hd)%existsb_exists. apply list_elem_of_In, Hms in Hm as [Hm Hmc].
    apply andb_true_iff in Hd as [Hk _]. unfold by_key in Hk. rewrite bool_decide_eq_false_2 in Hk.
    + simpl in Hk. apply bool_decide_eq_true in Hk. rewrite (Models.same_key m x d) in Hc; [by destruct Hc|done..].
    + destruct Hok as [_ Hnz]. rewrite Forall_forall in Hnz. by apply Hnz.
Qed.

(** ** Controllers *)

Definition apart_controllers d :=
  (rows (db_groups d), rows (db_roles d), rows (db_identities d), rows (db_models d),
   rows (db_offers d), rows (db_clouds d), rows (db_mappings d), rows (db_credentials d), rows (db_defaults d),
   (rows (db_regions d), rows (db_bootstraps d), rows (db_migrations d), rows (db_sshkeys d), rows (db_profiles d), rows (db_audit d))).
Lemma apart_controllers_tables d d' : tables d' = tables d -> apart_controllers d' = apart_controllers d.
Proof. intros Ht. unfold apart_controllers. all_tables. done. Qed.

Definition deleted_controller (c : Controller) d d' : Prop :=
  apart_controllers d' = apart_controllers d /\
  rows (db_controllers d') = filter (fun x => c_ID x <> c_ID c) (rows (db_controllers d)) /\
  rows (db_priorities d') = filter (fun p => crp_ControllerID p <> c_ID c) (rows (db_priorities d)) /\
  Forall (fun m => m_ControllerID m <> c_ID c) (rows (db_models d)).

Lemma part_migrations : part (T:=T) db_migrations put_migrations.
Proof. intros t d Ht. all_tables. done. Qed.

Lemma DeleteController_yields c d :
  wp (DeleteController c) (yields (fun _ d' => deleted_controller c d d')) d.
Proof.
  unfold DeleteController. case_decide as Hid; [wp_value; by split|]. apply wp_ready; [intros _ _|by intros e _; split].
  eapply (yields_bind (fun _ d' => deleted_controller c d d')).
  - apply wp_map_err. eapply wp_mono; [apply (yields_rollback (fun _ d' => deleted_controller c d d'))|].
    2: { intros o d' [Ha Hd]. split; [by destruct o|]. intros a Hok. by destruct o. }
    eapply yields_bind; [apply unreferenced_yields, part_models|]. intros _ d1 [Ht1 Hm].
    eapply yields_bind; [apply unreferenced_yields, part_migrations|]. intros _ d2 [Ht2 _].
    eapply yields_bind; [apply yields_delete|]. intros _ d3 (t3 & -> & _ & Hr3).
    eapply wp_mono; [apply yields_delete_where|]. intros o d4 [Ha Hd]. split; [done|]. intros a ->. destruct (Hd a eq_refl) as (t4 & -> & Hr4).
    unfold deleted_controller. rewrite Ht1 in Ht2. simpl in *. destruct (tables_eq _ _ Ht2) as (_ & Hc & _). destruct (tables_more _ _ Ht2) as (_ & Hp & _).
    rewrite Hc in Hr3. unfold db_priorities in *. simpl in *. rewrite Hp in Hr4. split_and!; [|done|rewrite Hr4|].
    + by apply (apart_controllers_tables d d2).
    + apply list_filter_iff. intros x. by rewrite bool_decide_eq_false.
    + eapply Forall_impl; [exact Hm|]. by intros m Hd'%bool_decide_eq_false.
  - intros _ d1 (Hap & Hc & Hp & Hm). eapply wp_mono; [apply yields_delete|]. intros o d2 [Ha Hd]. split; [done|]. intros a ->.
    destruct (Hd a eq_refl) as (t & -> & _ & Hr). split_and!; [exact Hap| |exact Hp|exact Hm]. simpl. rewrite Hr, Hc.
    apply filter_filter. intros x. simpl. tauto.
Qed.

(** ** Adding clouds and their regions *)

Definition adding_ok d : Prop :=
  unique_rows (rows (db_clouds d)) /\ unique_rows (rows (db_regions d)) /\ unique_rows (rows (db_priorities d)).

Definition apart_adding d :=
  (rows (db_groups d), rows (db_roles d), rows (db_identities d), rows (db_controllers d), rows (db_models d),
   rows (db_offers d), rows (db_mappings d), rows (db_credentials d), rows (db_defaults d),
   (rows (db_bootstraps d), rows (db_migrations d), rows (db_sshkeys d), rows (db_profiles d), rows (db_audit d))).

(** Clouds, regions and priorities were added, and nothing else changed. *)
Definition adds d d' : Prop :=
  adding_ok d' /\ apart_adding d' = apart_adding d /\ rows (db_clouds d) `prefix_of` rows (db_clouds d') /\
  rows (db_regions d) `prefix_of` rows (db_regions d') /\ rows (db_priorities d) `prefix_of` rows (db_priorities d').

Lemma adds_refl d d' : adding_ok d -> tables d' = tables d -> adds d d'.
Proof. intros (Hc & Hr & Hp) Ht. unfold adds, adding_ok, apart_adding in *. all_tables. split_and!; done || reflexivity. Qed.
Lemma adds_trans d d1 d2 : adds d d1 -> adds d1 d2 -> adds d d2.
Proof. intros (_ & Ha1 & Hc1 & Hr1 & Hp1) (Hok & Ha2 & Hc2 & Hr2 & Hp2). split_and!; [done|congruence|by etrans..]. Qed.

(** Steps that only add, whatever their outcome. *)
Definition only_adds {A} (m : M (Db T) A) : Prop :=
  forall d, adding_ok d -> wp m (fun o d' => answered o /\ adds d d') d.

Lemma only_adds_bind {A B} (m : M (Db T) A) (k : A -> M (Db T) B) :
  only_adds m -> (forall a, only_adds (k a)) -> only_adds (m ≫= k).
Proof.
  intros Hm Hk d Hok. apply wp_bind. eapply wp_mono; [by apply Hm|]. intros [a|e|x|] d1 [Ha Hd1]; cbn [bind_post]; [|done..].
  eapply wp_mono; [apply Hk; apply Hd1|]. intros o d2 [Ha2 Hd2]. split; [done|by apply (adds_trans d d1)].
Qed.
Lemma only_adds_ret {A} (a : A) : only_adds (mret a).
Proof. intros d Hok. wp_value. split; [done|by apply adds_refl]. Qed.
Lemma only_adds_throw {A} e : only_adds (throw (A:=A) e).
Proof. intros d Hok. wp_value. split; [done|by apply adds_refl]. Qed.
Lemma only_adds_try {A} (m : M (Db T) A) : only_adds m -> only_adds (try m).
Proof. intros Hm d Hok. apply wp_try. eapply wp_mono; [by apply Hm|]. by intros [] d1 [Ha Hd]. Qed.
Lemma only_adds_map_err {A} f (m : M (Db T) A) : only_adds m -> only_adds (map_err f m).
Proof. intros Hm d Hok. apply wp_map_err. eapply wp_mono; [by apply Hm|]. by intros [] d1 [Ha Hd]. Qed.
Lemma only_adds_rollback {A} (m : M (Db T) A) : only_adds m -> only_adds (rollback m).
Proof.
  intros Hm d Hok. apply wp_rollback. eapply wp_mono; [by apply Hm|]. intros o d1 [Ha Hd]. split; [done|].
  destruct o; [done|by apply adds_refl..].
Qed.
Lemma only_adds_ready {A} (m : M (Db T) A) : only_adds m -> only_adds (ready ≫= fun _ => m).
Proof. intros Hm d Hok. apply wp_ready; [intros _ _; by apply Hm|]. intros e _. split; [done|by apply adds_refl]. Qed.
Lemma only_adds_sees {A} (P : A -> Db T -> Prop) (m : M (Db T) A) : (forall d, wp m (sees (fun a => P a d) d) d) -> only_adds m.
Proof. intros Hm d Hok. eapply wp_mono; [apply Hm|]. intros o d1 [[Ha Ht] _]. split; [done|by apply adds_refl]. Qed.
Lemma only_adds_for {A} (xs : list A) (body : A -> M (Db T) unit) : (forall x, only_adds (body x)) -> only_adds (for_range xs body).
Proof. intros Hb. induction xs as [|x xs IH]; [apply only_adds_ret|]. apply only_adds_bind; [apply Hb|intros _; exact IH]. Qed.
Lemma only_adds_map {A B} (xs : list A) (body : A -> M (Db T) B) : (forall x, only_adds (body x)) -> only_adds (map_range xs body).
Proof.
  intros Hb. induction xs as [|x xs IH]; [apply only_adds_ret|]. apply only_adds_bind; [apply Hb|intros y].
  apply only_adds_bind; [exact IH|intros ys; apply only_adds_ret].
Qed.

Lemma inserted_prefix {R} `{Row R} (r r' : R) l l' : inserted r r' l l' -> l `prefix_of` l' /\ unique_rows l'.
Proof. intros (_ & -> & Hu). split; [by exists [r']|done]. Qed.

Lemma create_adds {R} `{Row R} (get : Db T -> T R) put r :
  (forall d, adding_ok d -> unique_rows (rows (get d))) ->
  (forall d t, adding_ok d -> unique_rows (rows t) -> rows (get d) `prefix_of` rows t -> adds d (put t d)) ->
  only_adds (zoom get put (gorm_create r)).
Proof.
  intros Hu Hput d Hok. apply wp_zoom. eapply wp_mono; [by apply law_create, Hu|]. intros o t [Ha Ho]. split; [done|].
  destruct o; [destruct (inserted_prefix _ _ _ _ Ho); by apply Hput|apply Hput; [done|rewrite Ho; by apply Hu|by rewrite Ho]..].
Qed.

Ltac adds_one := unfold adds, adding_ok, apart_adding, put_regions, put_priorities, db_regions, db_priorities, db_bootstraps,
  db_migrations, db_sshkeys, db_profiles, db_audit; simpl; intros; destruct_and?; split_and?; done || reflexivity.

Lemma create_cloud_adds c : only_adds (clouds_tbl (gorm_create c)).
Proof. apply create_adds; adds_one. Qed.
Lemma create_region_row_adds r : only_adds (regions_tbl (gorm_create r)).
Proof. apply create_adds; adds_one. Qed.
Lemma create_priority_adds p : only_adds (priorities_tbl (gorm_create p)).
Proof. apply create_adds; adds_one. Qed.

Lemma AddCloud_adds c : only_adds (AddCloud (T:=T) c).
Proof.
  apply only_adds_ready, only_adds_map_err, only_adds_rollback, only_adds_bind; [apply create_cloud_adds|]. intros row.
  apply only_adds_bind; [apply only_adds_map|intros; apply only_adds_ret]. intros lr.
  apply only_adds_bind; [apply create_region_row_adds|]. intros r.
  apply only_adds_bind; [apply only_adds_map|intros; apply only_adds_ret]. intros pc.
  apply only_adds_bind; [apply create_priority_adds|intros; apply only_adds_ret].
Qed.

Lemma AddCloudRegion_adds r : only_adds (AddCloudRegion (T:=T) r).
Proof. apply only_adds_ready, only_adds_map_err, create_region_row_adds. Qed.

Lemma LoadCloud_adds c : only_adds (LoadCloud (T:=T) c).
Proof. eapply only_adds_sees. intros d. apply LoadCloud_sees. Qed.

(** ** A new controller *)

Definition apart_new_controller d :=
  (rows (db_groups d), rows (db_roles d), rows (db_identities d), rows (db_models d),
   rows (db_offers d), rows (db_mappings d), rows (db_credentials d), rows (db_defaults d),
   (rows (db_bootstraps d), rows (db_migrations d), rows (db_sshkeys d), rows (db_profiles d), rows (db_audit d))).

(** A row for the controller; clouds, regions and priorities were added. *)
Definition new_controller (c c' : Controller) d d' : Prop :=
  inserted c c' (rows (db_controllers d)) (rows (db_controllers d')) /\ apart_new_controller d' = apart_new_controller d /\
  rows (db_clouds d) `prefix_of` rows (db_clouds d') /\ rows (db_regions d) `prefix_of` rows (db_regions d') /\
  rows (db_priorities d) `prefix_of` rows (db_priorities d').

Lemma new_controller_adds c c' d d1 d2 :
  (adds d d1 /\ new_controller c c' d1 d2) \/ (new_controller c c' d d1 /\ adds d1 d2) -> new_controller c c' d d2.
Proof.
  unfold new_controller, adds, apart_adding, apart_new_controller. intros [[Ha Hn]|[Hn Ha]]; destruct_and?; simplify_eq;
    (split_and!; [congruence..|by etrans|by etrans|by etrans]).
Qed.

Lemma AddController_yields c regions d :
  unique_rows (rows (db_controllers d)) -> adding_ok d ->
  wp (CloudDb.AddController c regions) (yields (fun c' d' => new_controller c c' d d')) d.
Proof.
  intros Hu Hok. unfold AddController. apply wp_ready; [intros _ _|by intros e _; split]. apply wp_map_err.
  eapply wp_mono; [apply (yields_rollback (fun c' d' => new_controller c c' d d'))|].
  2: { intros o d' [Ha Hd]. split; [by destruct o|]. intros a Hoka. destruct o; [|done..]. by apply (inj Ok) in Hoka as <-. }
  eapply (yields_bind (fun c' d' => adding_ok d' /\ new_controller c c' d d')).
  { apply wp_zoom. eapply wp_mono; [by apply law_create|]. intros o t [Ha Ho]. split; [done|]. intros c' ->. by split. }
  intros c' d1 [Hok1 Hnew].
  eapply (yields_bind (fun _ d' => adds d1 d')).
  { eapply wp_mono; [apply only_adds_for; [|done]|]; [|intros o d2 [Ha Hd2]; by split]. intros p.
    apply only_adds_bind; [apply create_priority_adds|intros; apply only_adds_ret]. }
  intros _ d2 Hd2. wp_value. split; [done|]. intros a Hoka. apply (inj Ok) in Hoka as <-.
  apply (new_controller_adds c c' d d1 d2). by right.
Qed.

(** ** Nothing found *)

Lemma dbError_only_NotFound e : ErrorCode e = "" -> ErrorCode (dbError e) = CodeNotFound -> e = ErrRecordNotFound.
Proof.
  intros He. unfold dbError. case_decide as Hs; [done|]. destruct (is_ErrRecordNotFound e) eqn:Hn.
  - intros _. destruct e as [| |m| |]; try done. simpl in Hn. apply bool_decide_eq_true in Hn as ->. done.
  - rewrite He. simpl. rewrite He. done.
Qed.

Lemma notFoundError_only nf e : ErrorCode e = "" -> ErrorCode nf = CodeNotFound -> ErrorCode (notFoundError nf e) = CodeNotFound -> e = ErrRecordNotFound.
Proof.
  intros He Hnf. unfold notFoundError. case_decide as Hd; [by intros _; apply dbError_only_NotFound|]. intros Hc. by destruct Hd.
Qed.

(** A first row, or none; the error of the latter is the only one with the
    code not-found. *)
Lemma first_absent {R} (get : Db T -> T R) put p nf d :
  part get put -> ErrorCode nf = CodeNotFound ->
  wp (map_err (notFoundError nf) (zoom get put (gorm_first p))) (fun o d' => answered o /\ tables d' = tables d /\
    match o with
    | Ok r => r ∈ rows (get d) /\ p r = true
    | Err e => ErrorCode e = CodeNotFound -> Forall (fun r => p r = false) (rows (get d))
    | _ => True
    end) d.
Proof.
  intros Hpart Hnf. apply wp_map_err, wp_zoom. eapply wp_mono; [apply law_first|]. intros o t (Ht & Ha & Ho).
  split; [by destruct o|]. split; [by apply Hpart|]. destruct o as [r|e|x|]; try done.
  intros Hc. destruct Ho as (Hall & _ & Hcode). apply Hall. by apply (notFoundError_only nf).
Qed.

Lemma GetController_finds name d :
  wp (GetController (controllerOf name "")) (fun o d' => answered o /\ tables d' = tables d /\
    match o with
    | Err e => ErrorCode e = CodeNotFound -> Forall (fun c => c_Name c <> name) (rows (db_controllers d))
    | _ => True
    end) d.
Proof.
  unfold GetController. simpl. apply wp_ready; [intros _ _|by intros e [He|He]; (split_and!; [done|done|]); rewrite He].
  apply wp_bind. case_decide; wp_value; [|by split_and!]. cbn [bind_post].
  eapply wp_mono; [apply first_absent; [apply part_controllers|done]|].
  intros o d1 (Ha & Ht & Ho). split_and!; [done..|]. destruct o as [c|e|x|]; try done.
  intros Hc. eapply Forall_impl; [by apply Ho|]. by intros c Hb%bool_decide_eq_false.
Qed.

(** ** Bootstraps *)

Lemma part_bootstraps : part (T:=T) db_bootstraps put_bootstraps.
Proof. intros t d Ht. all_tables. done. Qed.

Definition bootstrapOf (name : string) : ControllerBootstrap := MkBootstrap 0 name "" "" None.

Lemma GetControllerBootstrap_finds name d :
  wp (GetControllerBootstrap (bootstrapOf name)) (fun o d' => answered o /\ tables d' = tables d /\
    match o with
    | Ok b => b ∈ rows (db_bootstraps d) /\ cb_Name b = name
    | Err e => ErrorCode e = CodeNotFound -> Forall (fun b => cb_Name b <> name) (rows (db_bootstraps d))
    | _ => True
    end) d.
Proof.
  unfold GetControllerBootstrap. simpl. apply wp_ready; [intros _ _|].
  2: { intros e [He|He]; (split_and!; [done|done|]); by rewrite He. }
  case_decide as Hn; [|wp_value; by split_and!]. eapply wp_mono; [apply first_absent; [apply part_bootstraps|done]|].
  intros o d1 (Ha & Ht & Ho). split_and!; [done..|]. destruct o as [b|e|x|]; try done.
  - destruct Ho as [Hb Hname%bool_decide_eq_true]. done.
  - intros Hc. eapply Forall_impl; [by apply Ho|]. by intros b Hb%bool_decide_eq_false.
Qed.

Definition apart_bootstraps d :=
  (rows (db_groups d), rows (db_roles d), rows (db_identities d), rows (db_controllers d), rows (db_models d),
   rows (db_offers d), rows (db_clouds d), rows (db_mappings d), rows (db_credentials d), rows (db_defaults d),
   (rows (db_regions d), rows (db_priorities d), rows (db_migrations d), rows (db_sshkeys d), rows (db_profiles d), rows (db_audit d))).
Lemma apart_bootstraps_tables d d' : tables d' = tables d -> apart_bootstraps d' = apart_bootstraps d.
Proof. intros Ht. unfold apart_bootstraps. all_tables. done. Qed.

(** The name was free, or reserved by the job, and the reservation is gone. *)
Definition claimed (jobID : option Z) (name : string) d d' : Prop :=
  apart_bootstraps d' = apart_bootstraps d /\
  ((rows (db_bootstraps d') = rows (db_bootstraps d) /\ Forall (fun b => cb_Name b <> name) (rows (db_bootstraps d))) \/
   exists b, b ∈ rows (db_bootstraps d) /\ cb_Name b = name /\ is_Some jobID /\ cb_JobID b = jobID /\
     rows (db_bootstraps d') = filter (fun x => cb_ID x <> cb_ID b) (rows (db_bootstraps d))).

Lemma DeleteControllerBootstrap_yields b d :
  wp (DeleteControllerBootstrap b) (yields (fun _ d' => apart_bootstraps d' = apart_bootstraps d /\
    rows (db_bootstraps d') = filter (fun x => cb_ID x <> cb_ID b) (rows (db_bootstraps d)))) d.
Proof.
  unfold DeleteControllerBootstrap. case_decide; [wp_value; by split|]. apply wp_ready; [intros _ _|by intros e _; split].
  apply wp_map_err. eapply wp_mono; [apply yields_delete|]. intros o d' [Ha Hd]. split; [by destruct o|].
  intros a Hok. destruct o as [u| | |]; try done. destruct (Hd u eq_refl) as (t & -> & _ & Hr). done.
Qed.

End facts.
