(* ===== verification/JujuOffers.v ===== *)
(** * JujuOffers: application offers ([internal/jimm/juju/applicationoffer.go]).

    Creating, reading, finding and destroying the offers of applications, and
    the users that may see them.  An offer lives on the controller of its
    model; JIMM keeps a row and the tuples of its access.  Where the code
    queries several controllers in parallel the model does it one after the
    other. *)

From S2P Require Import Prelude Errors GoStrings Regexp Names AuthModel RefServer OpenFGA Dbmodel Users Database TagResolver Access JujuDb CloudDb JujuBase JujuModels.

Module Offers.

Record AddApplicationOfferParams := MkAddOffer {
  ap_ModelTag : Tag;
  ap_OwnerTag : string;   (* the identifier of the tag *)
  ap_OfferName : string;
  ap_ApplicationName : string;
  ap_ApplicationDescription : string;
  ap_Endpoints : list (string * string);  (* a map, in the order of its iteration *)
}.

Definition noApplicationOfferAccessError : gerror := ErrSentinel "no application offer access".
(** [stderrors.Is(err, noApplicationOfferAccessError)]. *)
Definition is_noAccess (err : gerror) : bool :=
  match err with ErrSentinel text => bool_decide (text = "no application offer access") | _ => false end.

Section ops.
Context {F : Type} `{OFGAServer F} {T : Type -> Type} `{Gorm T} {C : Type} `{Controllers C} `{JujuNames} `{Hash}.
Implicit Types (j : JujuManager) (user : User).
Local Abbreviation JM := (M (JW F T C)).

(** ** Deletion *)

(** An error of the authorisation service is logged. *)
Definition deleteApplicationOffer (fuel : nat) (offer : ApplicationOffer) : JM unit :=
  _ ← jdb (DeleteApplicationOffer offer);
  tag ← lift (Offer_ResourceTag offer);
  _ ← try (jfga (RemoveApplicationOffer fuel tag));
  mret tt.

(** ** Creation *)

(** [errors.ErrorCode(err) == errors.CodeNotFound] gives a new error. *)
Definition model_lookup (tag : Tag) : JM LoadedModel :=
  map_err (fun err => if decide (ErrorCode err = CodeNotFound) then modelNotFound else err)
          (jdb (LoadModel (Models.SetTag tag))).

(** The name of an offer that exists in the database is free when the
    controller does not know the offer. *)
Definition free_name (fuel : nat) j user lm (url : string) : JM unit :=
  r ← try (jdb (LoadOffer (offerOf url "")));
  match r with
  | inl offerCheck =>
      checkAPI ← dialControllerAsSuperuser j (Some user) (lm_Controller lm);
      c ← try (ctl (api_GetApplicationOffer checkAPI url));
      match c with
      | inl _ => throw (Codef CodeAlreadyExists "offer %s already exists, please use a different name" [ArgS url])
      | inr controllerErr =>
          if decide (ErrorCode controllerErr <> CodeNotFound) then throw controllerErr
          else deleteApplicationOffer fuel (lo_Offer offerCheck)
      end
  | inr err => if decide (ErrorCode err <> CodeNotFound) then throw err else mret tt
  end.

Definition create_on_controller (api : Conn) (params : OfferParams) (url : string) : JM (OfferDetails Info) :=
  _ ← map_err (fun err => if Contains (Error err) "application offer already exists"
                          then Codef CodeAlreadyExists "%w" [ArgE err] else err)
        (ctl (api_Offer api params));
  map_err (fun err => Errorf "failed to fetch details of the created application offer: %w" [ArgE err])
    (ctl (api_GetApplicationOffer api url)).

(** Errors of the authorisation service are logged. *)
Definition offer_permissions (model : Model) (doc : ApplicationOffer) (ownerId : string) : JM unit :=
  modelTag ← lift (Model_ResourceTag model);
  offerTag ← lift (Offer_ResourceTag doc);
  _ ← try (jfga (AddModelApplicationOffer modelTag offerTag));
  identity ← lift (NewIdentity ownerId);
  _ ← try (jfga (SetApplicationOfferAccess (NewUser identity) offerTag AdministratorRelation));
  _ ← try (jfga (SetApplicationOfferAccess everyoneUser offerTag ReaderRelation));
  mret tt.

Definition offer_owner user (offer : AddApplicationOfferParams) : outcome string :=
  if decide (ap_OwnerTag offer = "") then tag ← Identity_ResourceTag (u_Identity user); Ok (Id tag)
  else Ok (ap_OwnerTag offer).

(** The offer on the controller, its row and its tuples. *)
Definition store_offer (api : Conn) user (p : AddApplicationOfferParams) (m : Model) (url : string) : JM unit :=
  owner ← lift (offer_owner user p);
  created ← create_on_controller api
    (MkOfferParams (Id (ap_ModelTag p)) owner (ap_OfferName p) (ap_ApplicationName p)
       (ap_ApplicationDescription p) (fmap (M:=list) fst (ap_Endpoints p))) url;
  doc ← map_err (fun err => Errorf "failed to store the created application offer: %w" [ArgE err])
    (jdb (Transaction (AddApplicationOffer
       (MkOffer 0 (m_ID m) (od_OfferName created) (od_OfferUUID created) (od_OfferURL created)))));
  offer_permissions m doc owner.

Definition Offer (fuel : nat) j user (offer : AddApplicationOfferParams) : JM unit :=
  lm ← model_lookup (ap_ModelTag offer);
  modelTag ← lift (Model_ResourceTag (lm_Model lm));
  isAdmin ← map_err (fun err => Errorf "failed administrator check: %w" [ArgE err]) (jfga (IsAdministrator user modelTag));
  if negb isAdmin then throw Unauthorized else
  let url := OfferURL_String (m_OwnerIdentityName (lm_Model lm)) (m_Name (lm_Model lm)) (ap_OfferName offer) in
  _ ← free_name fuel j user lm url;
  api ← dialControllerAsSuperuser j (Some user) (lm_Controller lm);
  store_offer api user offer (lm_Model lm) url.

(** ** Access *)

Definition checkFailed {A} : JM A -> JM A := map_err (fun err => Errorf "openfga check failed: %w" [ArgE err]).

Definition getUserOfferAccess user (offerTag : Tag) : JM string :=
  isOfferAdmin ← checkFailed (jfga (IsAdministrator user offerTag));
  if (isOfferAdmin : bool) then mret Perm.OfferAdminAccess else
  isOfferConsumer ← checkFailed (jfga (IsApplicationOfferConsumer user offerTag));
  if (isOfferConsumer : bool) then mret Perm.OfferConsumeAccess else
  isOfferReader ← checkFailed (jfga (IsApplicationOfferReader user offerTag));
  if (isOfferReader : bool) then mret Perm.OfferReadAccess else mret "".

(** The loop keeps the first access of a user, which is never empty. *)
Definition offer_relations : list string := [AdministratorRelation; ConsumerRelation; ReaderRelation].

Definition listApplicationOfferUsers (offer : Tag) (userName : string) (adminAccess : bool) : JM (list UserInfo) :=
  users ← Models.usersWithAccess Perm.ToOfferAccessString offer offer_relations ∅;
  mret (List.filter (fun u => adminAccess || bool_decide (ui_UserName u = EveryoneUser) || bool_decide (ui_UserName u = userName))
    (fmap (M:=list) (fun p : string * string => MkUserInfo p.1 p.2) (map_to_list users))).

Definition with_Users (users : list UserInfo) (connections : list Info) (d : OfferDetails Info) : OfferDetails Info :=
  MkOfferDetails (od_OfferUUID d) (od_OfferName d) (od_OfferURL d) connections users (od_Rest d).

Definition enrichOfferDetails user (d : OfferDetails Info) : JM (OfferDetails Info) :=
  if negb (ValidTagId ApplicationOfferTagKind (od_OfferUUID d)) then throw (New "invalid application offer UUID") else
  offerTag ← lift (NewApplicationOfferTag (od_OfferUUID d));
  accessLevel ← getUserOfferAccess user offerTag;
  if decide (accessLevel = "") then throw noApplicationOfferAccessError else
  users ← listApplicationOfferUsers offerTag (u_Name user) (bool_decide (accessLevel = "admin"));
  mret (with_Users users (if decide (accessLevel <> "admin") then [] else od_Connections d) d).

(** ** Reading *)

(** The lookups that give a new error when nothing is found. *)
Definition offer_lookup (url : string) : JM LoadedOffer :=
  map_err (fun err => if decide (ErrorCode err = CodeNotFound) then offerNotFound else err)
          (jdb (LoadOffer (offerOf url ""))).

(** [details] holds the URL of the offer and is completed. *)
Definition GetApplicationOfferConsumeDetails j user (offerURL : string) : JM (ConsumeDetails Info) :=
  lo ← offer_lookup offerURL;
  tag ← lift (Offer_ResourceTag (lo_Offer lo));
  accessLevel ← getUserOfferAccess user tag;
  if decide (accessLevel = Perm.OfferReadAccess) then throw Unauthorized
  else if decide (accessLevel <> Perm.OfferAdminAccess /\ accessLevel <> Perm.OfferConsumeAccess)
  then throw (Codef CodeNotFound "not found" []) else
  api ← dialControllerAsSuperuser j (Some user) (lo_Controller lo);
  details ← ctl (api_GetApplicationOfferConsumeDetails api offerURL);
  users ← listApplicationOfferUsers tag (u_Name user) (bool_decide (accessLevel = Perm.OfferAdminAccess));
  controllerTag ← lift (Controller_ResourceTag (lo_Controller lo));
  info ← lift (if decide (c_PublicAddress (lo_Controller lo) <> "")
    then Ok (MkExternal (TagString controllerTag) (c_Name (lo_Controller lo)) [c_PublicAddress (lo_Controller lo)] "")
    else match cd_ControllerInfo details with
         | None => Panic Models.nilPointer
         | Some ci => Ok (MkExternal (TagString controllerTag) (c_Name (lo_Controller lo)) (ex_Addrs ci) (ex_CACert ci))
         end);
  mret (MkConsume (with_Users users (od_Connections (cd_Offer details)) (cd_Offer details)) (Some info) (cd_Macaroon details)).

Definition GetApplicationOffer (fuel : nat) j user (offerURL : string) : JM (OfferDetails Info) :=
  lo ← offer_lookup offerURL;
  tag ← lift (Offer_ResourceTag (lo_Offer lo));
  reader ← jfga (IsApplicationOfferReader user tag);
  if negb reader then throw offerNotFound else
  api ← dialControllerAsSuperuser j (Some user) (lo_Controller lo);
  r ← try (ctl (api_GetApplicationOffer api offerURL));
  match r with
  | inl offerDetails => enrichOfferDetails user offerDetails
  | inr err =>
      if decide (ErrorCode err <> CodeNotFound) then throw err else
      _ ← try (deleteApplicationOffer fuel (lo_Offer lo));
      throw offerNotFound
  end.

(** ** Finding *)

(** The offers of one controller; those the user has no access to are left
    out.  *)
Fixpoint enrich_all user (found : list (OfferDetails Info)) : JM (list (OfferDetails Info)) :=
  match found with
  | [] => mret []
  | d :: found =>
      r ← try (enrichOfferDetails user d);
      match r with
      | inl d => rest ← enrich_all user found; mret (d :: rest)
      | inr err => if is_noAccess err then enrich_all user found else throw err
      end
  end.

Definition query_controller j user (query : Conn -> Call C (list (OfferDetails Info))) (c : Controller)
    : JM (list (OfferDetails Info)) :=
  api ← dialControllerAsSuperuser j (Some user) c;
  r ← try (ctl (query api));
  match r with
  | inl found => enrich_all user found
  | inr err => if decide (ErrorCode err = CodeNotFound) then mret [] else throw err
  end.

(** The other controllers run on when one fails; the callers drop the offers
    of a run that failed. *)
Fixpoint queryControllersForOffers j user (controllers : list Controller) (query : Conn -> Call C (list (OfferDetails Info)))
    : JM (list (OfferDetails Info)) :=
  match controllers with
  | [] => mret []
  | c :: controllers =>
      r ← try (query_controller j user query c);
      match r with
      | inl offers => rest ← queryControllersForOffers j user controllers query; mret (offers ++ rest)
      | inr err => _ ← try (queryControllersForOffers j user controllers query); throw err
      end
  end.

(** A map from the identifiers of controllers; later entries win. *)
Definition by_ID (controllers : list Controller) : list Controller :=
  fmap (M:=list) snd (map_to_list (foldl (fun (acc : gmap Z Controller) c => <[c_ID c := c]> acc) ∅ controllers)).

Definition noFilter : gerror := Codef CodeBadRequest "at least one filter must be specified" [].

Definition FindApplicationOffers j user (filters : list OfferFilter) : JM (list (OfferDetails Info)) :=
  if decide (filters = []) then throw noFilter else
  controllers ← jdb AllControllers;
  queryControllersForOffers j user (by_ID (fmap (M:=list) lc_Controller controllers)) (fun api => api_FindApplicationOffers api filters).

(** The owner that is filled in is only used for the lookup: [f] is a copy of
    the filter. *)
Definition filter_controller user (f : OfferFilter) : JM Controller :=
  if decide (of_ModelName f = "") then throw (New "application offer filter must specify a model name") else
  let owner := if decide (of_OwnerName f = "") then u_Name user else of_OwnerName f in
  lm ← jdb (LoadModel (modelOf (of_ModelName f) None owner));
  mret (lm_Controller lm).

Definition ListApplicationOffers j user (filters : list OfferFilter) : JM (list (OfferDetails Info)) :=
  if decide (filters = []) then throw noFilter else
  controllers ← map_range filters (filter_controller user);
  queryControllersForOffers j user (by_ID controllers) (fun api => api_ListApplicationOffers api filters).

(** ** Destruction *)

Definition doApplicationOfferAdmin {A} j user (offerURL : string) (f : LoadedOffer -> Conn -> JM A) : JM A :=
  lo ← jdb (LoadOffer (offerOf offerURL ""));
  tag ← lift (Offer_ResourceTag (lo_Offer lo));
  isOfferAdmin ← jfga (IsAdministrator user tag);
  if negb isOfferAdmin then throw Unauthorized else
  api ← dialControllerAsSuperuser j (Some user) (lo_Controller lo);
  f lo api.

Definition DestroyOffer (fuel : nat) j user (offerURL : string) (force : bool) : JM unit :=
  doApplicationOfferAdmin j user offerURL (fun lo api =>
    _ ← ctl (api_DestroyApplicationOffer api offerURL force);
    deleteApplicationOffer fuel (lo_Offer lo)).

(** ** Commands on an offer *)

Inductive offer_cmd :=
| CmdOffer (fuel : nat) (offer : AddApplicationOfferParams)
| CmdConsumeDetails (offerURL : string)
| CmdGetOffer (fuel : nat) (offerURL : string)
| CmdDestroyOffer (fuel : nat) (offerURL : string) (force : bool).

(** The result is dropped. *)
Definition run_offer j user (cmd : offer_cmd) : JM unit :=
  match cmd with
  | CmdOffer fuel offer => Offer fuel j user offer
  | CmdConsumeDetails url => _ ← GetApplicationOfferConsumeDetails j user url; mret tt
  | CmdGetOffer fuel url => _ ← GetApplicationOffer fuel j user url; mret tt
  | CmdDestroyOffer fuel url force => DestroyOffer fuel j user url force
  end.

End ops.

Section facts.
Context {F : Type} `{OFGALaws F} {T : Type -> Type} `{GormLaws T} {C : Type} `{Controllers C} `{JujuNames} `{Hash}.
Implicit Types (j : JujuManager) (user : User) (s : JW F T C).

(** ** Who may run a command *)

Definition offer_entity (uuid : string) : Entity := MkEntity ApplicationOfferTagKind uuid "".

Lemma finds_offer_tag o s :
  wp (lift (Offer_ResourceTag o)) (finds still (fun tag => tag = MkTag ApplicationOfferTagKind (ao_UUID o)) s) s.
Proof.
  apply (finds_lift still); [apply NewJujuTag_answered|]. intros tag. unfold Offer_ResourceTag, NewApplicationOfferTag, NewJujuTag.
  destruct (ValidTagId _ _); [|done]. intros Ht. by apply (inj Ok) in Ht as <-.
Qed.

(** The level that is reported is the highest one the user has. *)
Definition offer_level (TS : gset Tuple) user (g : Entity) (level : string) : Prop :=
  let has r := has_access TS user r g in
  (level = Perm.OfferAdminAccess /\ has AdministratorRelation) \/
  (level = Perm.OfferConsumeAccess /\ ~ has AdministratorRelation /\ has ConsumerRelation) \/
  (level = Perm.OfferReadAccess /\ ~ has AdministratorRelation /\ ~ has ConsumerRelation /\ has ReaderRelation) \/
  (level = "" /\ ~ has AdministratorRelation /\ ~ has ConsumerRelation /\ ~ has ReaderRelation).

Lemma getUserOfferAccess_finds user g s :
  wp (getUserOfferAccess user g) (finds still (offer_level (j_tuples s) user (ConvertTag g)) s) s.
Proof.
  unfold getUserOfferAccess, checkFailed.
  eapply (finds_bind still); [apply finds_map_err, finds_check|]. intros b1 s1 [[HT1 _] _] Hb1.
  destruct b1; [apply (finds_ret still); left; split; [done|by apply Hb1]|].
  assert (~ has_access (j_tuples s) user AdministratorRelation (ConvertTag g)) as Hn1 by (intros ?%Hb1; done).
  eapply (finds_bind still); [apply finds_map_err, finds_check|]. intros b2 s2 [[HT2 _] _] Hb2. rewrite HT1 in Hb2.
  destruct b2; [apply (finds_ret still); right; left; split_and!; [done|done|by apply Hb2]|].
  assert (~ has_access (j_tuples s) user ConsumerRelation (ConvertTag g)) as Hn2 by (intros ?%Hb2; done).
  eapply (finds_bind still); [apply finds_map_err, finds_check|]. intros b3 s3 _ Hb3. rewrite HT2, HT1 in Hb3.
  destruct b3; apply (finds_ret still); right; right; [left; split_and!; [done..|by apply Hb3]|right].
  split_and!; [done..|]. intros ?%Hb3; done.
Qed.

(** The user has the relation to an offer of that URL. *)
Definition offer_granted user (r url : string) s : Prop :=
  exists o, o ∈ rows (db_offers (w_db (fst s))) /\ ao_URL o = url /\
    has_access (j_tuples s) user r (offer_entity (ao_UUID o)).

(** Creating an offer needs the administration of an existing model,
    destroying it the administration of the offer, reading it the reader
    relation, and its details for consumers the consumer relation or the
    administration. *)
Definition offer_denied user (cmd : offer_cmd) s : Prop :=
  match cmd with
  | CmdOffer _ p => forall m, m ∈ rows (db_models (w_db (fst s))) -> m_UUID m = Some (Id (ap_ModelTag p)) ->
      ~ has_access (j_tuples s) user AdministratorRelation (MkEntity ModelTagKind (Id (ap_ModelTag p)) "")
  | CmdConsumeDetails url => ~ offer_granted user AdministratorRelation url s /\ ~ offer_granted user ConsumerRelation url s
  | CmdGetOffer _ url => ~ offer_granted user ReaderRelation url s
  | CmdDestroyOffer _ url _ => ~ offer_granted user AdministratorRelation url s
  end.

(** The lookup of an offer and its tag. *)
Lemma offer_tag_refused {A} (look : M (JW F T C) LoadedOffer) url (k : LoadedOffer -> Tag -> M (JW F T C) A) s :
  wp look (finds still (fun lo => offer_loaded (w_db (fst s)) lo /\ ao_URL (lo_Offer lo) = url) s) s ->
  (forall lo s', still s s' -> lo_Offer lo ∈ rows (db_offers (w_db (fst s))) -> ao_URL (lo_Offer lo) = url ->
     wp (k lo (MkTag ApplicationOfferTagKind (ao_UUID (lo_Offer lo)))) (refused s') s') ->
  wp (lo ← look; tag ← lift (Offer_ResourceTag (lo_Offer lo)); k lo tag) (refused s) s.
Proof.
  intros Hlook Hk. eapply refused_after; [exact Hlook|]. intros lo s1 Hs1 [[Hin _] Hurl].
  eapply refused_after; [apply finds_offer_tag|]. intros tag s2 Hs2 ->. apply Hk; [by etrans|done|done].
Qed.

Lemma LoadOffer_finds url s :
  wp (jdb (LoadOffer (offerOf url ""))) (finds still (fun lo => offer_loaded (w_db (fst s)) lo /\ ao_URL (lo_Offer lo) = url) s) s.
Proof. apply finds_jdb. eapply wp_sees_mono; [apply LoadOffer_sees|]. intros lo (Hlo & _ & Hu). split; [done|by apply Hu]. Qed.

Lemma offer_lookup_finds url s :
  wp (offer_lookup url) (finds still (fun lo => offer_loaded (w_db (fst s)) lo /\ ao_URL (lo_Offer lo) = url) s) s.
Proof. apply finds_map_err, LoadOffer_finds. Qed.

Lemma Offer_denied fuel j user p s :
  offer_denied user (CmdOffer fuel p) s -> wp (Offer fuel j user p) (refused s) s.
Proof.
  intros Hd. unfold Offer, model_lookup. eapply refused_after; [apply finds_map_err, finds_jdb, LoadModel_sees|].
  intros lm s1 Hs1 [[Hin _] Hu]. specialize (Hu _ eq_refl).
  eapply refused_after; [apply (Models.finds_model_tag _ _ _ Hu)|].
  intros tag s2 Hs2 ->. eapply refused_after; [apply finds_map_err, finds_check|]. intros b s3 _ Hb.
  destruct b; [|by wp_value]. exfalso. apply (Hd (lm_Model lm) Hin Hu).
  assert (j_tuples s2 = j_tuples s) as <- by (destruct Hs1 as [[? _] _], Hs2 as [[? _] _]; congruence). by apply Hb.
Qed.

(** Creating, reading or destroying an offer, or getting its details for
    a consumer, fails for a user without the relation that the command needs;
    no tuple and no row changes and no controller is contacted. *)
Theorem offer_commands_guarded j user cmd s s' o :
  offer_denied user cmd s -> run_offer j user cmd s = (s', o) -> still s s' /\ o <> Ok tt.
Proof.
  intros Hd Hrun. cut (wp (run_offer j user cmd) (refused s) s).
  { intros Hwp. destruct (wp_elim _ _ _ _ _ Hwp Hrun) as [Hs Ho]. split; [done|apply Ho]. }
  clear Hrun. destruct cmd as [fuel p|url|fuel url|fuel url force]; simpl in Hd |- *.
  - by apply (Offer_denied fuel).
  - apply refused_bind, (offer_tag_refused _ url); [apply offer_lookup_finds|]. intros lo s1 [[HT _] _] Hin Hurl.
    eapply refused_after; [apply getUserOfferAccess_finds|]. rewrite HT. intros level s2 _ Hl.
    destruct Hd as [Hd1 Hd2]. case_decide; [by wp_value|]. case_decide as Hlev; [by wp_value|].
    destruct Hl as [[-> Ha]|[(-> & _ & Hc)|[(-> & _)|(-> & _)]]]; [destruct Hd1; by exists (lo_Offer lo)|destruct Hd2; by exists (lo_Offer lo)|done|].
    destruct Hlev. by split.
  - apply refused_bind, (offer_tag_refused _ url); [apply offer_lookup_finds|]. intros lo s1 [[HT _] _] Hin Hurl.
    eapply refused_after; [apply finds_check|]. rewrite HT. intros b s2 _ Hb.
    destruct b; [|by wp_value]. destruct Hd. exists (lo_Offer lo). split_and!; [done|done|by apply Hb].
  - unfold DestroyOffer, doApplicationOfferAdmin. apply (offer_tag_refused _ url); [apply LoadOffer_finds|]. intros lo s1 [[HT _] _] Hin Hurl.
    eapply refused_after; [apply finds_check|]. rewrite HT. intros b s2 _ Hb.
    destruct b; [|by wp_value]. destruct Hd. exists (lo_Offer lo). split_and!; [done|done|by apply Hb].
Qed.

(** ** What a caller sees of offers *)

Definition users_confined (TS : gset Tuple) user (g : Tag) (users : list UserInfo) : Prop :=
  forall ui, ui ∈ users ->
    Models.listed TS Perm.ToOfferAccessString offer_relations g (ui_UserName ui) (ui_Access ui) /\
    (has_access TS user AdministratorRelation (ConvertTag g) \/ ui_UserName ui = u_Name user \/ ui_UserName ui = EveryoneUser).

Lemma listApplicationOfferUsers_finds user g admin s :
  (admin = true -> has_access (j_tuples s) user AdministratorRelation (ConvertTag g)) ->
  wp (listApplicationOfferUsers g (u_Name user) admin) (finds still (users_confined (j_tuples s) user g) s) s.
Proof.
  intros Hadmin. unfold listApplicationOfferUsers. eapply (finds_bind still); [apply Models.usersWithAccess_finds|].
  intros users s1 _ Husers. apply (finds_ret still).
  intros ui [Hin Hf]%list_elem_of_In%filter_In. apply list_elem_of_In, list_elem_of_fmap in Hin as ([name acc] & -> & Hp).
  apply elem_of_map_to_list in Hp. simpl in *. split; [by destruct (Husers _ _ Hp) as [?%lookup_empty_Some|]|].
  rewrite !orb_true_iff, !bool_decide_eq_true in Hf. naive_solver.
Qed.

(** The user has some access to the offer, sees true and confined users, and
    connections only as an administrator. *)
Definition offer_confined (TS : gset Tuple) user (d : OfferDetails Info) : Prop :=
  let g := MkTag ApplicationOfferTagKind (od_OfferUUID d) in
  (exists r, r ∈ offer_relations /\ has_access TS user r (ConvertTag g)) /\
  users_confined TS user g (od_Users d) /\
  (od_Connections d <> [] -> has_access TS user AdministratorRelation (ConvertTag g)).

Lemma enrichOfferDetails_finds user d s :
  wp (enrichOfferDetails user d) (finds still (fun d' => od_OfferUUID d' = od_OfferUUID d /\ offer_confined (j_tuples s) user d') s) s.
Proof.
  unfold enrichOfferDetails. destruct (negb _); [by apply (finds_throw still)|].
  apply (finds_bind still (fun tag => tag = MkTag ApplicationOfferTagKind (od_OfferUUID d))).
  { apply (finds_offer_tag (offerOf "" (od_OfferUUID d))). }
  intros tag s1 [[HT1 _] _] ->. eapply (finds_bind still); [apply getUserOfferAccess_finds|]. rewrite HT1.
  intros level s2 [[HT2 _] _] Hl. case_decide as Hne; [by apply (finds_throw still)|].
  assert (level = "admin" -> has_access (j_tuples s) user AdministratorRelation (offer_entity (od_OfferUUID d))) as Hadmin.
  { intros ->. destruct Hl as [[_ ?]|[(? & _)|[(? & _)|(? & _)]]]; done. }
  eapply (finds_bind still); [apply (listApplicationOfferUsers_finds user)|].
  { rewrite HT2, HT1. intros Ha%bool_decide_eq_true. by apply Hadmin. }
  rewrite HT2, HT1. intros users s3 _ Hu. apply (finds_ret still). split; [done|]. split_and!; simpl.
  - unfold offer_relations. destruct Hl as [[_ ?]|[(_ & _ & ?)|[(_ & _ & _ & ?)|(? & _)]]]; [| | |done];
      eexists; (split; [|eassumption]); by repeat constructor.
  - exact Hu.
  - case_decide as Ha; [done|]. intros _. by apply Hadmin.
Qed.

Lemma enrich_all_finds user found s :
  wp (enrich_all user found) (finds still (Forall (offer_confined (j_tuples s) user)) s) s.
Proof.
  revert s. induction found as [|d found IH]; intros s; simpl; [by apply (finds_ret still)|].
  eapply (finds_bind still); [apply finds_try, enrichOfferDetails_finds|]. intros r s1 [[HT1 _] _] Hr.
  specialize (IH s1). rewrite HT1 in IH. destruct r as [d'|err].
  - eapply (finds_bind still); [apply IH|]. intros rest s2 _ Hrest. apply (finds_ret still). constructor; [by apply Hr|done].
  - destruct (is_noAccess err); [exact IH|by apply (finds_throw still)].
Qed.

Lemma queryControllersForOffers_finds j user controllers query s :
  wp (queryControllersForOffers j user controllers query) (finds same (Forall (offer_confined (j_tuples s) user)) s) s.
Proof.
  revert s. induction controllers as [|c controllers IH]; intros s; simpl; [by apply (finds_ret same)|].
  assert (wp (query_controller j user query c) (finds same (Forall (offer_confined (j_tuples s) user)) s) s) as Hc.
  { unfold query_controller. eapply (finds_bind same); [apply finds_dial|]. intros api s1 [HT1 _] _.
    eapply (finds_bind same); [apply finds_try, finds_ctl|]. intros r s2 [HT2 _] _. destruct r as [found|err].
    - apply finds_still. rewrite <- HT1, <- HT2. apply enrich_all_finds.
    - case_decide; [by apply (finds_ret same)|by apply (finds_throw same)]. }
  eapply (finds_bind same); [apply finds_try, Hc|]. intros r s1 [HT1 _] Hr. specialize (IH s1). rewrite HT1 in IH.
  destruct r as [offers|err].
  - eapply (finds_bind same); [apply IH|]. intros rest s2 _ Hrest. apply (finds_ret same). apply Forall_app. by split; [apply Hr|].
  - eapply (finds_bind same); [apply finds_try, IH|]. intros _ s2 _ _. by apply (finds_throw same).
Qed.

Lemma filter_controllers_finds user filters s :
  wp (map_range filters (filter_controller user)) (finds still (fun _ => True) s) s.
Proof.
  revert s. induction filters as [|f filters IH]; intros s; simpl; [by apply (finds_ret still)|].
  eapply (finds_bind still (fun _ => True)).
  - unfold filter_controller. case_decide; [by apply (finds_throw still)|].
    eapply (finds_bind still); [apply finds_jdb, LoadModel_sees|]. intros lm s1 _ _. by apply (finds_ret still).
  - intros c s1 _ _. eapply (finds_bind still); [apply IH|]. intros cs s2 _ _. by apply (finds_ret still).
Qed.

Lemma find_offers_finds j user filters s :
  wp (FindApplicationOffers j user filters) (finds same (Forall (offer_confined (j_tuples s) user)) s) s /\
  wp (ListApplicationOffers j user filters) (finds same (Forall (offer_confined (j_tuples s) user)) s) s.
Proof.
  unfold FindApplicationOffers, ListApplicationOffers. split; (case_decide; [by apply (finds_throw same)|]).
  - eapply (finds_bind same); [apply finds_still, finds_jdb, AllControllers_sees|]. intros cs s1 [HT1 _] _.
    rewrite <- HT1. apply queryControllersForOffers_finds.
  - eapply (finds_bind same); [apply finds_still, filter_controllers_finds|]. intros cs s1 [HT1 _] _.
    rewrite <- HT1. apply queryControllersForOffers_finds.
Qed.

(** Finding and listing offers change no tuple and no row,
    and give only offers that the user has some access to; every user shown
    with an offer has the access shown, a user that does not administer the
    offer sees only itself and everyone, and no connections. *)
Theorem found_offers_confined j user filters s :
  let find := FindApplicationOffers j user filters s in
  let list := ListApplicationOffers j user filters s in
  same s (fst find) /\ same s (fst list) /\
  forall ds, snd find = Ok ds \/ snd list = Ok ds -> Forall (offer_confined (j_tuples s) user) ds.
Proof.
  destruct (find_offers_finds j user filters s) as [Hfind Hlist]. unfold wp in Hfind, Hlist.
  destruct (FindApplicationOffers _ _ _ _) as [s1 o1], (ListApplicationOffers _ _ _ _) as [s2 o2].
  destruct Hfind as (Ha1 & Hs1 & Hf), Hlist as (Ha2 & Hs2 & Hl).
  split_and!; [done..|]. intros ds [Hds|Hds]; [by apply Hf|by apply Hl].
Qed.

(** ** Deletion *)

(** The tuples on an offer that a removal reaches: all but those of [user:*]. *)
Definition offer_filter (uuid : string) : Tuple := MkTuple None "" (Some (offer_entity uuid)).

(** The row is gone, and no tuple but those on the offer. *)
Definition offer_deleted (r : ApplicationOffer) s s' : Prop :=
  let d := w_db (fst s) in let d' := w_db (fst s') in
  apart_offers d' = apart_offers d /\
  rows (db_offers d') = filter (fun x => ao_ID x <> ao_ID r) (rows (db_offers d)) /\
  j_tuples s ∖ removed (offer_filter (ao_UUID r)) (j_tuples s) ⊆ j_tuples s' /\ j_tuples s' ⊆ j_tuples s.

(** Enough fuel to remove the tuples of an offer, and few of [user:*] on it. *)
Definition removable_offer (fuel : nat) (uuid : string) s : Prop :=
  (size (j_tuples s) < fuel)%nat /\ (size (public_matching (offer_filter uuid) (j_tuples s)) < 50)%nat.

Lemma deleteApplicationOffer_wp fuel r s :
  removable_offer fuel (ao_UUID r) s ->
  wp (deleteApplicationOffer fuel r) (fun o s' => o <> OutOfFuel /\ snd s' = snd s /\
    ((same s s' /\ o <> Ok tt) \/ offer_deleted r s s')) s.
Proof.
  intros [Hf Hp]. unfold deleteApplicationOffer. apply wp_bind, wp_jdb.
  eapply wp_mono; [apply DeleteApplicationOffer_wp|]. intros o d (Ha & Hap & Ho).
  assert (forall f, j_tuples s ∖ removed (offer_filter (ao_UUID r)) (j_tuples s) ⊆ srv_tuples f -> srv_tuples f ⊆ j_tuples s ->
    o = Ok tt -> offer_deleted r s (MkWorld f d, snd s)) as Hdel.
  { intros f Hlo Hhi ->. by split_and!. }
  destruct o as [[]|e|x|]; cbn [bind_post].
  2-4: (split_and!; [exact Ha || done|done|left]; split; [|done]; split; [done|];
        unfold j_tables, tables; unfold apart_offers in Hap; simpl; congruence).
  apply wp_bind. wp_value. unfold Offer_ResourceTag, NewApplicationOfferTag, NewJujuTag.
  destruct (ValidTagId _ _); cbn [bind_post].
  2: { split_and!; [done|done|right]. apply Hdel; [set_solver|done|done]. }
  apply wp_bind, wp_try, wp_jfga. eapply wp_mono.
  { apply (removeTuples_wp fuel (offer_filter (ao_UUID r))); [done| |exact Hp].
    pose proof (removed_size (offer_filter (ao_UUID r)) (j_tuples s)). eapply Nat.le_lt_trans; [eassumption|exact Hf]. }
  intros o f (Ha2 & Hlo & Hhi & _). specialize (Hdel f Hlo Hhi eq_refl).
  destruct o as [[]|e|x|]; cbn [bind_post]; try wp_value; (split_and!; [exact Ha2 || done|done|by right]).
Qed.

Lemma removable_offer_same s s' fuel uuid : same s s' -> removable_offer fuel uuid s -> removable_offer fuel uuid s'.
Proof. intros [HT _]. unfold removable_offer. by rewrite HT. Qed.

Lemma offer_deleted_same s s1 r s' : same s s1 -> offer_deleted r s1 s' -> offer_deleted r s s'.
Proof.
  intros [HT Ht]. destruct (tables_eq _ _ Ht) as (_ & _ & _ & Ho & _). unfold offer_deleted.
  by rewrite HT, Ho, (apart_offers_tables _ _ Ht).
Qed.

(** The end of a destruction that was allowed; the tuples of [user:*] stay. *)
Definition destroyed user url s s' : Prop :=
  exists r, r ∈ rows (db_offers (w_db (fst s))) /\ ao_URL r = url /\
    has_access (j_tuples s) user AdministratorRelation (offer_entity (ao_UUID r)) /\ offer_deleted r s s' /\
    forall t, t ∈ j_tuples s -> is_public t = true -> t ∈ j_tuples s'.

(** Destroying an offer ends, and either nothing changed and the caller
    got an error, or the user administers the offer, its row is deleted and no
    tuple is touched but those on the offer.  The tuple that lets everyone
    read the offer is one that the removal does not reach: it stays. *)
Theorem DestroyOffer_effect fuel j user url force s s' o :
  (forall r, r ∈ rows (db_offers (w_db (fst s))) -> ao_URL r = url -> removable_offer fuel (ao_UUID r) s) ->
  DestroyOffer fuel j user url force s = (s', o) ->
  o <> OutOfFuel /\
  ((same s s' /\ o <> Ok tt) \/ destroyed user url s s').
Proof.
  intros Hrm. set (Q := fun (o : outcome unit) s' => o <> OutOfFuel /\ ((same s s' /\ o <> Ok tt) \/ destroyed user url s s')).
  refine (wp_elim _ Q _ _ _ _). assert (absorbs Q s) as HQ by (intros o1 s1 Ho Hs Hn; split; [done|by left]).
  unfold DestroyOffer, doApplicationOfferAdmin.
  eapply (wp_same_bind _ _ _ _ s); [done|done|apply finds_still, LoadOffer_finds|]. intros lo s1 Hs1 _ [[Hin _] Hurl].
  eapply (wp_same_bind _ _ _ _ s); [done|done|apply finds_still, finds_offer_tag|]. intros tag s2 _ [HT Ht] ->.
  eapply (wp_same_bind _ _ _ _ s); [done|done|apply finds_still, finds_check|]. rewrite HT. intros b s3 _ Hs3 Hb.
  destruct b; simpl; [|wp_value; by apply HQ].
  eapply (wp_same_bind _ _ _ _ s); [done|done|apply finds_dial|]. intros api s4 _ Hs4 _.
  eapply (wp_same_bind _ _ _ _ s); [done|done|apply finds_ctl|]. intros [] s5 _ Hs5 _.
  eapply wp_mono; [apply deleteApplicationOffer_wp, (removable_offer_same s); auto|].
  intros o1 s6 (Ho & _ & [[Hs6 Hn]|Hdel]); (split; [done|]); [left; split; [by etrans|done]|right].
  apply (offer_deleted_same s) in Hdel; [|done]. exists (lo_Offer lo). split_and!; [done|done|by apply Hb|done|].
  intros t Hin' Hpub. apply Hdel. apply elem_of_difference. split; [done|]. unfold removed. rewrite elem_of_filter.
  unfold removable. rewrite Hpub, andb_false_r. by intros [? _].
Qed.

(** ** Creation *)

(** The tuples that a new offer may bring: its model, its owner, everyone. *)
Definition offer_tuple (modelUUID owner offerUUID : string) (t : Tuple) : Prop :=
  t = edge (MkEntity ModelTagKind modelUUID "") ModelRelation (offer_entity offerUUID) \/
  (exists i e, NewIdentity owner = Ok i /\ user_entity (NewUser i) = Ok e /\ t = edge e AdministratorRelation (offer_entity offerUUID)) \/
  (exists e, user_entity everyoneUser = Ok e /\ t = edge e ReaderRelation (offer_entity offerUUID)).

(** The tuples grew by such tuples at most; nothing else changed. *)
Definition granted_some (P : Tuple -> Prop) s s' : Prop :=
  w_db (fst s') = w_db (fst s) /\ snd s' = snd s /\ j_tuples s ⊆ j_tuples s' /\
  forall t, t ∈ j_tuples s' -> t ∈ j_tuples s \/ P t.

Lemma granted_some_refl P s : granted_some P s s.
Proof. split_and!; [done..|]. by left. Qed.
Lemma granted_some_trans P s s1 s2 : granted_some P s s1 -> granted_some P s1 s2 -> granted_some P s s2.
Proof.
  intros (Hd1 & Hc1 & Hs1 & Ht1) (Hd2 & Hc2 & Hs2 & Ht2). split_and!; [congruence|congruence|set_solver|].
  intros t [Ht|Ht]%Ht2; [by apply Ht1|by right].
Qed.

(** A grant whose error is logged. *)
Lemma try_grant_wp (P : Tuple -> Prop) (m : M F unit) t s (k : unit + gerror -> M (JW F T C) unit) Q :
  wp m (fun o f => answered o /\ srv_tuples f = match o with Ok _ => srv_tuples (w_fga (fst s)) ∪ {[t]} | _ => srv_tuples (w_fga (fst s)) end)
     (w_fga (fst s)) -> P t ->
  (forall x s', granted_some P s s' -> Q (Panic x) s') ->
  (forall r s', granted_some P s s' -> wp (k r) Q s') -> wp (try (jfga m) ≫= k) Q s.
Proof.
  intros Hm HP Hpanic Hk. apply wp_bind, wp_try, wp_jfga. eapply wp_mono; [exact Hm|].
  intros o f [Ha HT]. assert (granted_some P s (MkWorld f (w_db (fst s)), snd s)) as Hs.
  { split_and!; [done|done|..]; unfold j_tuples, Perm.w_tuples; simpl; rewrite HT; [destruct o; set_solver|].
    intros t' Ht. destruct o; [|by left..]. apply elem_of_union in Ht as [Ht|Ht%elem_of_singleton]; [by left|by right; subst]. }
  destruct o as [[]|e|x|]; cbn [bind_post]; [by apply Hk..|by apply Hpanic|by destruct Ha].
Qed.

Lemma set_access_wp (P : Tuple -> Prop) u r g s (k : unit + gerror -> M (JW F T C) unit) Q :
  (forall e, user_entity u = Ok e -> P (edge e r (ConvertTag g))) ->
  (forall x s', granted_some P s s' -> Q (Panic x) s') ->
  (forall x s', granted_some P s s' -> wp (k x) Q s') ->
  wp (try (jfga (setAccess u g r)) ≫= k) Q s.
Proof.
  intros HP Hpanic Hk. destruct (user_entity_cases u) as [[e He]|[x Hx]].
  - eapply try_grant_wp; [by apply setAccess_wp|by apply HP|done|done].
  - apply wp_bind, wp_try, wp_jfga. unfold setAccess.
    unfold user_entity in Hx. apply wp_bind. wp_value.
    destruct (Identity_ResourceTag (u_Identity u)); simpl in *; try done. cbn [bind_post]. apply Hpanic.
    destruct s as [[]]. apply granted_some_refl.
Qed.

Lemma offer_permissions_wp m uuid doc owner s :
  m_UUID m = Some uuid ->
  wp (offer_permissions m doc owner) (fun o s' => o <> OutOfFuel /\
    granted_some (offer_tuple uuid owner (ao_UUID doc)) s s') s.
Proof.
  intros Hu. unfold offer_permissions. apply wp_bind. wp_value. unfold Model_ResourceTag. rewrite Hu.
  unfold NewModelTag, NewJujuTag. destruct (ValidTagId _ _); cbn [bind_post]; [|split; [done|apply granted_some_refl]].
  apply wp_bind. wp_value. unfold Offer_ResourceTag, NewApplicationOfferTag, NewJujuTag.
  destruct (ValidTagId _ _); cbn [bind_post]; [|split; [done|apply granted_some_refl]].
  eapply (try_grant_wp (offer_tuple uuid owner (ao_UUID doc))); [apply setResourceAccess_wp|by left|by intros|].
  intros _ s1 Hs1. apply wp_bind. wp_value. destruct (NewIdentity owner) as [i|e|x|] eqn:Hi; cbn [bind_post]; [|done| |].
  2-3: by unfold NewIdentity in Hi; case_decide.
  apply (set_access_wp (offer_tuple uuid owner (ao_UUID doc))).
  { intros e He. right. left. by exists i, e. }
  { intros x s2 Hs2. split; [done|]. by eapply granted_some_trans. }
  intros _ s2 Hs2. apply (set_access_wp (offer_tuple uuid owner (ao_UUID doc))).
  { intros e He. right. right. by exists e. }
  { intros x s3 Hs3. split; [done|]. do 2 (eapply granted_some_trans; [eassumption|]). done. }
  intros _ s3 Hs3. wp_value. split; [done|]. do 2 (eapply granted_some_trans; [eassumption|]). done.
Qed.

(** The name is free, or an offer that the controller does not know is gone. *)
Definition freed (url : string) s s' : Prop :=
  same s s' \/ exists r, r ∈ rows (db_offers (w_db (fst s))) /\ ao_URL r = url /\ offer_deleted r s s'.

Lemma free_name_wp fuel j user lm url s :
  (forall r, r ∈ rows (db_offers (w_db (fst s))) -> ao_URL r = url -> removable_offer fuel (ao_UUID r) s) ->
  wp (free_name fuel j user lm url) (fun o s' => o <> OutOfFuel /\ freed url s s') s.
Proof.
  intros Hrm. set (Q := fun (o : outcome unit) s' => o <> OutOfFuel /\ freed url s s').
  assert (absorbs Q s) as HQ by (intros o s1 Ho Hs _; split; [done|by left]).
  unfold free_name. eapply (wp_same_bind _ _ _ _ s); [done|done|apply finds_still, finds_try, LoadOffer_finds|].
  intros r s1 _ Hs1 Hr. destruct r as [lo|err]; [|case_decide; wp_value; [by apply HQ|split; [done|by left]]].
  destruct (Hr lo eq_refl) as [[Hin _] Hurl].
  eapply (wp_same_bind _ _ _ _ s); [done|done|apply finds_dial|]. intros api s2 _ Hs2 _.
  eapply (wp_same_bind _ _ _ _ s); [done|done|apply finds_try, finds_ctl|]. intros c s3 _ Hs3 _.
  destruct c as [d|err]; [wp_value; by apply HQ|]. case_decide; [wp_value; by apply HQ|].
  eapply wp_mono; [apply deleteApplicationOffer_wp, (removable_offer_same s); auto|].
  intros o s4 (Ho & _ & [[Hs4 _]|Hdel]); (split; [done|]); [left; by etrans|right].
  exists (lo_Offer lo). split_and!; [done|done|]. by apply (offer_deleted_same s s3).
Qed.

(** What follows on the controller and in the database: nothing, or the row of
    the new offer of the model, with some of its tuples. *)
Definition offer_stored (m : Model) user p s (o : outcome unit) s' : Prop :=
  let d := w_db (fst s) in let d' := w_db (fst s') in
  (same s s' /\ o <> Ok tt) \/
  (exists owner doc0 doc, offer_owner user p = Ok owner /\ ao_ModelID doc0 = m_ID m /\
     inserted doc0 doc (rows (db_offers d)) (rows (db_offers d')) /\ apart_offers d' = apart_offers d /\
     j_tuples s ⊆ j_tuples s' /\
     forall t, t ∈ j_tuples s' -> t ∈ j_tuples s \/ offer_tuple (Id (ap_ModelTag p)) owner (ao_UUID doc) t).

Lemma store_offer_wp api user p m url s s0 :
  m_UUID m = Some (Id (ap_ModelTag p)) -> unique_rows (rows (db_offers (w_db (fst s)))) -> same s s0 ->
  wp (store_offer api user p m url) (fun o s' => o <> OutOfFuel /\ offer_stored m user p s o s') s0.
Proof.
  intros Hu Huniq Hs0. set (Q := fun (o : outcome unit) s' => o <> OutOfFuel /\ offer_stored m user p s o s').
  assert (absorbs Q s) as HQ by (intros o s1 Ho Hs Hn; split; [done|by left]).
  unfold store_offer. eapply (wp_same_bind (fun owner => offer_owner user p = Ok owner) _ _ _ s); [done|done| |].
  { apply (finds_lift same); [|done]. unfold offer_owner. case_decide; [|done].
    pose proof (NewUserTag_answered (i_Name (u_Identity user))) as Ha. unfold Identity_ResourceTag. by destruct (NewUserTag _). }
  intros owner s1 _ Hs1 Howner. eapply (wp_same_bind (fun _ => True) _ _ _ s); [done|done| |].
  { eapply (finds_bind same); [apply finds_map_err, finds_ctl|]. intros [] s2 _ _. apply finds_map_err, finds_ctl. }
  intros created s2 _ [HT Ht] _. destruct (tables_eq _ _ Ht) as (_ & _ & _ & Hoff & _).
  apply wp_bind, wp_map_err, wp_jdb. unfold Transaction. apply wp_ready; [intros _ _|].
  2: { intros e _. cbn [bind_post]. by apply HQ. }
  apply wp_rollback. eapply wp_mono; [apply AddApplicationOffer_wp; by rewrite Hoff|].
  intros o d (Ha & Hap & Ho). destruct o as [doc|e|x|]; cbn [bind_post]; [|apply HQ; [done|by split|done]..|by destruct Ha].
  eapply wp_mono; [by apply offer_permissions_wp|]. intros o s3 (Hans & Hd3 & _ & Hsub & Hnew). split; [done|right].
  eexists owner, (MkOffer 0 (m_ID m) _ _ _), doc. simpl in Hd3. split; [done|]. split; [done|].
  split; [rewrite Hd3, <- Hoff; exact Ho|].
  split_and!; [|by rewrite <- HT|intros t [Hin|Hin]%Hnew; [left; by rewrite <- HT|by right]].
  rewrite Hd3, Hap. by apply apart_offers_tables.
Qed.

(** The outcome of a creation. *)
Definition created_post user p s (o : outcome unit) s' : Prop :=
  (same s s' /\ o <> Ok tt) \/
  exists m s1, m ∈ rows (db_models (w_db (fst s))) /\ m_UUID m = Some (Id (ap_ModelTag p)) /\
    has_access (j_tuples s) user AdministratorRelation (MkEntity ModelTagKind (Id (ap_ModelTag p)) "") /\
    freed (OfferURL_String (m_OwnerIdentityName m) (m_Name m) (ap_OfferName p)) s s1 /\ offer_stored m user p s1 o s'.

Lemma freed_unique url s s1 :
  freed url s s1 -> unique_rows (rows (db_offers (w_db (fst s)))) -> unique_rows (rows (db_offers (w_db (fst s1)))).
Proof.
  intros [[_ Ht]|(r & _ & _ & _ & Hr & _)] Hu.
  - destruct (tables_eq _ _ Ht) as (_ & _ & _ & -> & _). done.
  - rewrite Hr. by apply unique_rows_filter.
Qed.

Lemma freed_same url s s1 s' : same s s1 -> freed url s1 s' -> freed url s s'.
Proof.
  intros Hs [Hs1|(r & Hin & Hurl & Hdel)]; [left; by etrans|right]. exists r.
  destruct (tables_eq _ _ (proj2 Hs)) as (_ & _ & _ & Ho & _). rewrite <- Ho. split_and!; [done|done|].
  by apply (offer_deleted_same s s1).
Qed.


End facts.
End Offers.
