(* ===== verification/JujuClouds.v ===== *)
(** * JujuClouds: clouds and their defaults ([internal/jimm/juju/cloud.go],
    [clouddefaults.go], [internal/dbmodel/cloud.go]).

    Adding a cloud to a controller, hosted clouds, updates and removals, and
    the defaults of a user for the models of a cloud.  Failures that the code
    only logs are dropped here too. *)

From Stdlib Require Import Ascii.
From S2P Require Import Prelude Errors GoStrings Regexp Names AuthModel RefServer OpenFGA Dbmodel Users Database TagResolver Access JujuDb CloudDb JujuBase JujuModels.

Module Clouds.

(** ** Conversions ([dbmodel/cloud.go]) *)

(** [jujuparams.Cloud]; its configurations are never nil maps of a region. *)
Record ParamsCloud := MkParamsCloud {
  pc_Type : string; pc_HostCloudRegion : string; pc_AuthTypes : list string; pc_Endpoints : Endpoints;
  pc_Regions : list JujuRegion; pc_CACertificates : list string; pc_SkipTLSVerify : bool;
  pc_Config : option (gmap string goany); pc_RegionConfig : gmap string (gmap string goany);
}.

(** [jujuparams.CloudDetails] and [CloudInfo]; the users are always nil. *)
Record CloudDetails := MkCloudDetails {
  cld_Type : string; cld_AuthTypes : list string; cld_Endpoints : Endpoints; cld_Regions : list JujuRegion;
}.

Definition ToJujuCloudRegion (r : CloudRegion) : JujuRegion := MkJujuRegion (reg_Name r) (reg_Endpoints r).

Definition FromJujuCloudRegion (jr : JujuRegion) (r : CloudRegion) : CloudRegion :=
  MkRegion (reg_ID r) (reg_CloudName r) (jr_Name jr) (jr_Endpoints jr) (reg_Config r) (reg_Virtual r).

Definition regions_of (c : LoadedCloud) : list CloudRegion := lr_Region <$> lcl_Regions c.

Definition ToJujuCloud (c : LoadedCloud) : ParamsCloud :=
  let cl := lcl_Cloud c in
  MkParamsCloud (cl_Type cl) (cl_HostCloudRegion cl) (cl_AuthTypes cl) (cl_Endpoints cl)
    (ToJujuCloudRegion <$> regions_of c) (cl_CACertificates cl) (cl_SkipTLSVerify cl) (cl_Config cl)
    (foldl (fun m r => match reg_Config r with Some cfg => <[reg_Name r := cfg]> m | None => m end) ∅ (regions_of c)).

Definition ToJujuCloudDetails (c : LoadedCloud) : CloudDetails :=
  let cl := lcl_Cloud c in
  MkCloudDetails (cl_Type cl) (cl_AuthTypes cl) (cl_Endpoints cl) (ToJujuCloudRegion <$> regions_of c).
Definition ToJujuCloudInfo (c : LoadedCloud) : CloudDetails * list UserInfo := (ToJujuCloudDetails c, []).

Definition with_Config (cfg : option (gmap string goany)) (r : CloudRegion) : CloudRegion :=
  MkRegion (reg_ID r) (reg_CloudName r) (reg_Name r) (reg_Endpoints r) cfg (reg_Virtual r).

Definition FromJujuCloud (cld : JujuCloud) (c : LoadedCloud) : LoadedCloud :=
  MkLoadedCloud
    (MkCloud (cl_ID (lcl_Cloud c)) (cl_Name (lcl_Cloud c)) (jc_Type cld) (jc_HostCloudRegion cld) (jc_AuthTypes cld)
       (jc_Endpoints cld) (jc_CACertificates cld) (jc_SkipTLSVerify cld) (jc_Config cld))
    (fmap (M:=list) (fun r =>
       let reg := Cloud_Region (jr_Name r) c in
       MkLoadedRegion (with_Config (jc_RegionConfig cld !! jr_Name r) (FromJujuCloudRegion r (lr_Region reg)))
         (lr_Cloud reg) (lr_Controllers reg)) (jc_Regions cld)).

(** [dbCloud.Name = name] and [dbCloud.Regions[i].Controllers = controllers]. *)
Definition with_cloud_Name (name : string) (c : LoadedCloud) : LoadedCloud :=
  let cl := lcl_Cloud c in
  MkLoadedCloud (MkCloud (cl_ID cl) name (cl_Type cl) (cl_HostCloudRegion cl) (cl_AuthTypes cl) (cl_Endpoints cl)
    (cl_CACertificates cl) (cl_SkipTLSVerify cl) (cl_Config cl)) (lcl_Regions c).
Definition with_Controllers (cs : list (CloudRegionControllerPriority * Controller)) (r : LoadedRegion) : LoadedRegion :=
  MkLoadedRegion (lr_Region r) (lr_Cloud r) cs.
Definition zeroLoadedCloud : LoadedCloud := MkLoadedCloud zeroCloud [].

Definition DefaultReservedCloudNames : list string :=
  ["aks"; "aws"; "aws-china"; "aws-gov"; "azure"; "azure-china"; "cloudsigma"; "ecs"; "eks"; "google"; "joyent";
   "localhost"; "oracle"; "oracle-classic"; "oracle-compute"; "rackspace"].
Definition DefaultCloudRegion := "default".
Definition indexOutOfRange : string := "index out of range [0] with length 0".

(** The controllers of the regions of a cloud, each once. *)
Fixpoint first_seen (seen : list Z) (l : list (CloudRegionControllerPriority * Controller)) : list Controller :=
  match l with
  | [] => []
  | pc :: l =>
      if decide (crp_ControllerID pc.1 ∈ seen) then first_seen seen l
      else pc.2 :: first_seen (crp_ControllerID pc.1 :: seen) l
  end.
Definition controllers_of (c : LoadedCloud) : list Controller := first_seen [] (mjoin (lr_Controllers <$> lcl_Regions c)).

Section ops.
Context {F : Type} `{OFGAServer F} {T : Type -> Type} `{Gorm T} {C : Type} `{Controllers C} `{JujuNames} `{Hash}.
Implicit Types (j : JujuManager) (user : User) (tag ct : Tag).
Local Abbreviation JM := (M (JW F T C)).

(** ** Lookups *)

Definition GetCloud_ user tag : JM LoadedCloud :=
  cl ← jdb (LoadCloud (cloudOf (Id tag)));
  accessLevel ← world (Perm.GetUserCloudAccess user tag);
  if decide (accessLevel = "") then throw Unauthorized else mret cl.

Fixpoint forUserClouds user (f : LoadedCloud -> JM unit) (clouds : list LoadedCloud) : JM unit :=
  match clouds with
  | [] => mret tt
  | cloud :: clouds =>
      tag ← lift (Cloud_ResourceTag (lcl_Cloud cloud));
      level ← jfga (GetCloudAccess user tag);
      _ ← (if decide (Perm.ToCloudAccessString level = "") then mret tt else f cloud);
      forUserClouds user f clouds
  end.

Definition ForEachUserCloud user (f : LoadedCloud -> JM unit) : JM unit :=
  ctrlCount ← map_err (fun err => Errorf "cannot get count controllers: %w" [ArgE err]) (jdb CountControllers);
  if decide (ctrlCount = 0%Z) then throw (New "no controllers registered") else
  clouds ← map_err (fun err => Errorf "cannot load clouds: %w" [ArgE err]) (jdb GetClouds);
  forUserClouds user f clouds.

Definition ForEachCloud user (f : LoadedCloud -> JM unit) : JM unit :=
  if negb (JimmAdmin user) then throw Unauthorized else
  clouds ← map_err (fun err => Errorf "cannot load clouds: %w" [ArgE err]) (jdb GetClouds);
  for_range clouds f.

(** ** Adding *)

Definition checkReservedCloudNames tag (reservedCloudNames : list string) : outcome unit :=
  let reservedNames := if decide (reservedCloudNames = []) then DefaultReservedCloudNames else reservedCloudNames in
  if decide (Id tag ∈ reservedNames) then Err (Codef CodeAlreadyExists "cloud %q already exists" [ArgS (Id tag)]) else Ok tt.

Definition addControllerCloud j (c : Controller) user tag (cloud : JujuCloud) (force : bool) : JM JujuCloud :=
  api ← dialControllerAsSuperuser j (Some user) c;
  r ← try (ctl (api_AddCloud api tag cloud force));
  _ ← match r with
      | inl _ => mret tt
      | inr err => if decide (juju_ErrCode err = CodeAlreadyExists) then mret tt else throw err
      end;
  ctl (api_Cloud api tag).

(** The rows of a controller that supports every region. *)
Definition supported_by (c : Controller) (cloud : LoadedCloud) : LoadedCloud :=
  MkLoadedCloud (lcl_Cloud cloud)
    (with_Controllers [(MkPriority 0 0 (c_ID c) CloudRegionControllerPrioritySupported, zeroController)] <$> lcl_Regions cloud).

Definition addCloudToDatabase j (controller : Controller) user tag (cloud : JujuCloud) (force : bool) : JM LoadedCloud :=
  let dbCloud := with_cloud_Name (Id tag) (FromJujuCloud cloud zeroLoadedCloud) in
  ccloud ← addControllerCloud j controller user tag cloud force;
  jdb (AddCloud (supported_by controller (FromJujuCloud ccloud dbCloud))).

Definition addCloudControllerRelation (cloud : Cloud) (c : Controller) : JM unit :=
  cloudTag ← lift (Cloud_ResourceTag cloud);
  controllerTag ← lift (Controller_ResourceTag c);
  jfga (AddCloudController cloudTag controllerTag).

Definition validateCloudRegion user (cloud : JujuCloud) (controllerName : string) : JM unit :=
  let host := jc_HostCloudRegion cloud in
  if decide (host = "") then mret tt else
  match cut "/" host with
  | Some (provider, regionName) =>
      if decide (provider = "") then throw (Codef CodeIncompatibleClouds "cloud host region %q has invalid cloud/region format" [ArgS host]) else
      region ← map_err (fun err => if decide (ErrorCode err = CodeNotFound)
                                   then Codef CodeIncompatibleClouds "unable to find cloud/region %q" [ArgS host] else err)
                 (jdb (FindRegionByCloudType provider regionName));
      cloudTag ← lift (Cloud_ResourceTag (lr_Cloud region));
      allowedAddModel ← jfga (IsAllowedAddModelToCloud user cloudTag);
      if negb allowedAddModel then throw (Codef CodeUnauthorized "missing access to %q" [ArgS host]) else
      if decide (cl_HostCloudRegion (lr_Cloud region) <> "") then throw (Codef CodeIncompatibleClouds "cloud already hosted %q" [ArgS host]) else
      if existsb (fun pc => bool_decide (c_Name pc.2 = controllerName)) (lr_Controllers region) then mret tt else throw controllerNotFound
  | None => throw (Codef CodeIncompatibleClouds "cloud host region %q has invalid cloud/region format" [ArgS host])
  end.

Definition AddCloudToController j user (controllerName : string) tag (cloud : JujuCloud) (force : bool) : JM unit :=
  controller ← getControllerByName controllerName;
  _ ← checkControllerAdminAccess user controller;
  _ ← lift (checkReservedCloudNames tag (jm_ReservedCloudNames j));
  _ ← validateCloudRegion user cloud controllerName;
  dbCloud ← addCloudToDatabase j controller user tag cloud force;
  addCloudControllerRelation (lcl_Cloud dbCloud) controller.

(** The regions of a cloud come without the cloud. *)
Definition determineHostCloudRegion (hostCloudRegion : string) : JM LoadedRegion :=
  if negb (Contains hostCloudRegion "/") then
    cl ← map_err (fun err => Errorf "unable to find host cloud %q: %w" [ArgS hostCloudRegion; ArgE err])
           (jdb (LoadCloud (cloudOf hostCloudRegion)));
    match lcl_Regions cl with
    | [region] => mret region
    | [] => throw (Codef CodeBadRequest "the host cloud %q does not have a valid region" [ArgS hostCloudRegion])
    | _ => throw (Codef CodeBadRequest
        "unable to determine a unique region for host cloud %q - consider specifying the host cloud region" [ArgS hostCloudRegion])
    end
  else
  match split_char "/" hostCloudRegion with
  | [name; regionName] =>
      if decide (name = "") then throw (Codef CodeBadRequest "invalid cloud/region format %q" [ArgS hostCloudRegion]) else
      r ← try (jdb (FindRegionByCloudType name regionName));
      match r with
      | inl region => mret region
      | inr _ =>
          map_err (fun err => if decide (ErrorCode err = CodeNotFound)
                              then Codef CodeNotFound "unable to find cloud/region %q" [ArgS hostCloudRegion] else err)
            (jdb (FindRegionByCloudName name regionName))
      end
  | _ => throw (Codef CodeBadRequest "invalid cloud/region format %q" [ArgS hostCloudRegion])
  end.

(** [shuffleRegionControllers] ([model.go]). *)
Definition shuffleRegionControllers (l : list (CloudRegionControllerPriority * Controller))
    : JM (list (CloudRegionControllerPriority * Controller)) :=
  fun s => (s, Ok (sort_desc (fun pc => crp_Priority pc.1) (rand_Shuffle l (snd s)))).

Definition AddHostedCloud j user tag (cloud : JujuCloud) (force : bool) : JM unit :=
  _ ← lift (checkReservedCloudNames tag (jm_ReservedCloudNames j));
  if decide (jc_Type cloud <> "kubernetes") then throw (Codef CodeIncompatibleClouds "unsupported cloud type %q" [ArgS (jc_Type cloud)]) else
  if decide (jc_HostCloudRegion cloud = "") then throw (Codef CodeCloudRegionRequired "cloud host region not specified" []) else
  region ← determineHostCloudRegion (jc_HostCloudRegion cloud);
  if decide (cl_HostCloudRegion (lr_Cloud region) <> "")
  then throw (Codef CodeIncompatibleClouds "cloud already hosted %q" [ArgS (jc_HostCloudRegion cloud)]) else
  dbCloud ← jdb (AddCloud (with_cloud_Name (Id tag) (FromJujuCloud cloud zeroLoadedCloud)));
  controllers ← shuffleRegionControllers (lr_Controllers region);
  controller ← lift (match controllers with pc :: _ => Ok pc.2 | [] => Panic indexOutOfRange end);
  ccloud ← addControllerCloud j controller user tag cloud force;
  let dbCloud := supported_by controller (FromJujuCloud ccloud dbCloud) in
  _ ← jdb (db_UpdateCloud dbCloud);
  cloudTag ← lift (Cloud_ResourceTag (lcl_Cloud dbCloud));
  controllerTag ← lift (Controller_ResourceTag controller);
  _ ← try (jfga (AddCloudController cloudTag controllerTag));
  _ ← try (jfga (SetCloudAccess user cloudTag AdministratorRelation));
  mret tt.

(** ** Administration *)

Definition doCloudAdmin {A} j user ct (f : LoadedCloud -> Conn -> JM A) : JM A :=
  c ← jdb (LoadCloud (cloudOf (Id ct)));
  tag ← lift (Cloud_ResourceTag (lcl_Cloud c));
  isCloudAdministrator ← jfga (IsAdministrator user tag);
  if negb isCloudAdministrator then throw Unauthorized else
  match lcl_Regions c with
  | r :: _ =>
      match lr_Controllers r with
      | (_, controller) :: _ =>
          api ← dialControllerAsSuperuser j (Some user) controller;
          f c api
      | [] => throw (Errorf "cloud administration not available for %s" [ArgS (Id ct)])
      end
  | [] => throw (Errorf "cloud administration not available for %s" [ArgS (Id ct)])
  end.

Definition RemoveCloud_ (fuel : nat) j user ct : JM unit :=
  doCloudAdmin j user ct (fun c api =>
    _ ← ctl (api_RemoveCloud api ct);
    _ ← map_err (fun err => Errorf "cannot update database after updating controller: %w" [ArgE err])
          (jdb (DeleteCloud (lcl_Cloud c)));
    _ ← try (jfga (RemoveCloud fuel ct));
    mret tt).

(** A region without controllers gets those of the cloud; the key of such a
    controller is filled in when the row is saved. *)
Definition with_default_controllers (cs : list Controller) (r : LoadedRegion) : LoadedRegion :=
  match lr_Controllers r with
  | [] => with_Controllers ((fun c => (MkPriority 0 0 (c_ID c) CloudRegionControllerPrioritySupported, c)) <$> cs) r
  | _ => r
  end.

Definition at_least_default (cloud : JujuCloud) : JujuCloud :=
  match jc_Regions cloud with
  | [] => MkJujuCloud (jc_Name cloud) (jc_Type cloud) (jc_HostCloudRegion cloud) (jc_AuthTypes cloud) (jc_Endpoints cloud)
            [MkJujuRegion DefaultCloudRegion noEndpoints] (jc_CACertificates cloud) (jc_SkipTLSVerify cloud) (jc_Config cloud)
            (jc_RegionConfig cloud)
  | _ => cloud
  end.

Definition UpdateCloud_ j user ct (cloud : JujuCloud) : JM unit :=
  let cloud := at_least_default cloud in
  c ← jdb (LoadCloud (cloudOf (Id ct)));
  tag ← lift (Cloud_ResourceTag (lcl_Cloud c));
  cloudAccess ← world (Perm.GetUserCloudAccess user tag);
  if decide (cloudAccess <> "admin") then throw Unauthorized else
  let controllers := controllers_of c in
  _ ← Models.forEachController j controllers (fun _ api => ctl (api_UpdateCloud api ct cloud));
  jdb (Transaction (
    c ← LoadCloud (cloudOf (Id ct));
    let c := FromJujuCloud cloud c in
    db_UpdateCloud (MkLoadedCloud (lcl_Cloud c) (with_default_controllers controllers <$> lcl_Regions c)))).

(** A map from the names of the controllers; later entries win. *)
Definition by_name (c : LoadedCloud) : gmap string Controller :=
  foldl (fun m pc => <[c_Name pc.2 := pc.2]> m) ∅ (mjoin (lr_Controllers <$> lcl_Regions c)).

Definition RemoveCloudFromController (fuel : nat) j user (controllerName : string) ct : JM unit :=
  cloud ← jdb (LoadCloud (cloudOf (Id ct)));
  isAdministrator ← map_err (fun _ => Unauthorized) (jfga (IsAdministrator user ct));
  if negb isAdministrator then throw Unauthorized else
  match by_name cloud !! controllerName with
  | None => throw (Codef CodeNotFound "cloud not hosted by controller" [])
  | Some controller =>
      api ← dialControllerAsSuperuser j (Some user) controller;
      _ ← ctl (api_RemoveCloud api ct);
      if decide (delete controllerName (by_name cloud) = ∅) then
        map_err (fun err => Errorf "failed to delete cloud after updating controller: %w" [ArgE err])
          (jdb (DeleteCloud (lcl_Cloud cloud)))
      else
      _ ← for_range (lcl_Regions cloud) (fun r => for_range (lr_Controllers r) (fun pc =>
            map_err (fun err => Errorf "cannot update database after updating controller: %w" [ArgE err])
              (jdb (DeleteCloudRegionControllerPriority pc.1))));
      _ ← try (jfga (RemoveCloud fuel ct));
      mret tt
  end.

(** ** Defaults ([clouddefaults.go]) *)

Definition agentVersionKey := "agent-version".

Definition SetModelDefaults (user : Identity) (cloudTag : Tag) (region : string) (configs : gmap string goany) : JM unit :=
  if decide (is_Some (configs !! agentVersionKey)) then throw (Codef CodeBadRequest "agent-version cannot have a default value" []) else
  cloud ← jdb (LoadCloud (cloudOf (Id cloudTag)));
  if bool_decide (region <> "") && negb (existsb (fun r => bool_decide (reg_Name r = region)) (regions_of cloud))
  then throw (Codef CodeNotFound "region not found" []) else
  jdb (SetCloudDefaults (MkDefaults 0 (i_Name user) (cl_ID (lcl_Cloud cloud)) region configs)).

Definition UnsetModelDefaults (user : Identity) (cloudTag : Tag) (region : string) (keys : list string) : JM unit :=
  jdb (UnsetCloudDefaults (i_Name user) (Id cloudTag) region keys).

(** [jujuparams.ModelDefaults]: the default, and the values by region. *)
Record ModelDefaults := MkModelDefaults { md_Default : option goany; md_Regions : list (string * goany) }.

Definition add_default (region : string) (acc : gmap string ModelDefaults) (kv : string * goany) : gmap string ModelDefaults :=
  let d := default (MkModelDefaults None []) (acc !! kv.1) in
  <[kv.1 := if decide (region = "") then MkModelDefaults (Some kv.2) (md_Regions d)
            else MkModelDefaults (md_Default d) (md_Regions d ++ [(region, kv.2)])]> acc.

Definition collect_defaults (defaults : list CloudDefaults) : gmap string ModelDefaults :=
  foldl (fun acc cd => foldl (add_default (cd_Region cd)) acc (map_to_list (cd_Defaults cd))) ∅ defaults.

Definition ModelDefaultsForCloud (user : Identity) (cloudTag : Tag) : JM (gmap string ModelDefaults) :=
  defaults ← jdb (db_ModelDefaultsForCloud (i_Name user) (Id cloudTag));
  mret (collect_defaults defaults).

(** ** Commands on a cloud *)

Inductive cloud_cmd :=
| CmdAddTo (controllerName : string) (cloud : JujuCloud) (force : bool)
| CmdRemove (fuel : nat)
| CmdUpdate (cloud : JujuCloud)
| CmdRemoveFrom (fuel : nat) (controllerName : string).

Definition run_cloud_cmd j user ct (cmd : cloud_cmd) : JM unit :=
  match cmd with
  | CmdAddTo controllerName cloud force => AddCloudToController j user controllerName ct cloud force
  | CmdRemove fuel => RemoveCloud_ fuel j user ct
  | CmdUpdate cloud => UpdateCloud_ j user ct cloud
  | CmdRemoveFrom fuel controllerName => RemoveCloudFromController fuel j user controllerName ct
  end.

End ops.

Section facts.
Context {F : Type} `{OFGALaws F} {T : Type -> Type} `{GormLaws T} {C : Type} `{Controllers C} `{JujuNames} `{Hash}.
Implicit Types (j : JujuManager) (user : User) (ct : Tag) (s : JW F T C).

(** ** Who may change a cloud *)

(** The user does not administer the cloud, or there is no such cloud. *)
Definition denied_cloud user ct s : Prop :=
  ~ has_access (j_tuples s) user AdministratorRelation (ConvertTag ct) \/
  Forall (fun c => cl_Name c <> Id ct) (rows (db_clouds (w_db (fst s)))).

Lemma cloud_denied {A} user ct (k : LoadedCloud -> M (JW F T C) A) s :
  denied_cloud user ct s ->
  (forall lc s', cl_Name (lcl_Cloud lc) = Id ct -> ~ has_access (j_tuples s') user AdministratorRelation (ConvertTag ct) ->
     wp (k lc) (refused s') s') ->
  wp (jdb (LoadCloud (cloudOf (Id ct))) ≫= k) (refused s) s.
Proof.
  intros Hd Hk. eapply refused_after; [apply finds_jdb, LoadCloud_sees|]. intros lc s1 [[HT _] _] [(Hin & _) Hn].
  destruct Hd as [Hd|Hd]; [apply Hk; [done|by rewrite HT]|]. exfalso. rewrite Forall_forall in Hd. by apply (Hd _ Hin).
Qed.

Lemma admin_denied {A} user g (k : bool -> M (JW F T C) A) s :
  ~ has_access (j_tuples s) user AdministratorRelation (ConvertTag g) ->
  (forall s', wp (k false) (refused s') s') -> wp (jfga (IsAdministrator user g) ≫= k) (refused s) s.
Proof.
  intros Hd Hk. eapply refused_after; [apply finds_check|]. intros b s1 Hs1 Hb. destruct b; [|apply Hk].
  exfalso. by apply Hd, Hb.
Qed.

Lemma cloud_tag ct : Kind ct = CloudTagKind -> MkTag CloudTagKind (Id ct) = ct.
Proof. intros <-. by destruct ct. Qed.

Lemma doCloudAdmin_denied {A} j user ct (f : LoadedCloud -> Conn -> M (JW F T C) A) s :
  Kind ct = CloudTagKind -> denied_cloud user ct s -> wp (doCloudAdmin j user ct f) (refused s) s.
Proof.
  intros Hk Hd. apply (cloud_denied user ct); [done|]. intros lc s1 Hn Hno. eapply refused_after; [apply (finds_tag still)|].
  intros t s2 [[HT _] _] ->. rewrite Hn, (cloud_tag ct Hk). apply admin_denied; [by rewrite HT|]. intros s3. simpl. by wp_value.
Qed.

(** A cloud is added by an administrator of the controller, under a name that
    is not reserved; the other commands are for administrators of the cloud. *)
Definition denied_cmd j user ct (cmd : cloud_cmd) s : Prop :=
  match cmd with
  | CmdAddTo controllerName _ _ =>
      Forall (fun c => c_Name c = controllerName ->
                ~ has_access (j_tuples s) user AdministratorRelation (ConvertTag (MkTag ControllerTagKind (c_UUID c))))
        (rows (db_controllers (w_db (fst s)))) \/
      checkReservedCloudNames ct (jm_ReservedCloudNames j) <> Ok tt
  | _ => denied_cloud user ct s
  end.

Lemma AddCloudToController_denied j user controllerName ct cloud force s :
  denied_cmd j user ct (CmdAddTo controllerName cloud force) s ->
  wp (AddCloudToController j user controllerName ct cloud force) (refused s) s.
Proof.
  intros Hd. unfold AddCloudToController, getControllerByName. eapply refused_after; [apply finds_map_err, finds_jdb, GetController_sees|].
  intros c s1 [[HT _] _] (Hin & _ & Hn). specialize (Hn eq_refl). simpl in Hn, Hd. rewrite Forall_forall in Hd. unfold checkControllerAdminAccess.
  apply (refused_after (fun _ => has_access (j_tuples s1) user AdministratorRelation (ConvertTag (MkTag ControllerTagKind (c_UUID c))))).
  { eapply (finds_bind still); [apply (finds_tag still)|]. intros t s2 [[HT2 _] _] ->. eapply (finds_bind still); [apply finds_check|].
    intros b s3 _ Hb. destruct b; [|apply (finds_throw still)]. apply (finds_ret still). rewrite <- HT2. by apply Hb. }
  intros _ s2 _ Hacc. destruct Hd as [Hd|Hd]; [exfalso; apply (Hd c Hin Hn); by rewrite <- HT|].
  apply refused_bind. wp_value. split; [done|]. intros [] Ho. by apply Hd.
Qed.

(** Removing a cloud, updating it, or removing it from a controller, by a
    user that does not administer the cloud or for a cloud that is not in the
    database, fails, and so does adding a cloud to a controller that the user
    does not administer or under a reserved name; no tuple and no row changes
    and no controller is contacted. *)
Theorem cloud_commands_guarded j user ct cmd s s' o :
  Kind ct = CloudTagKind -> denied_cmd j user ct cmd s -> run_cloud_cmd j user ct cmd s = (s', o) ->
  still s s' /\ o <> Ok tt.
Proof.
  intros Hk Hd Hrun. cut (wp (run_cloud_cmd j user ct cmd) (refused s) s).
  { intros Hwp. destruct (wp_elim _ _ _ _ _ Hwp Hrun) as [Hs Ho]. split; [done|apply Ho]. }
  clear Hrun. destruct cmd as [name cloud force|fuel|cloud|fuel name]; simpl;
    [by apply AddCloudToController_denied|by apply doCloudAdmin_denied|..]; apply (cloud_denied user ct); try done; intros lc s1 Hn Hno.
  - eapply refused_after; [apply (finds_tag still)|]. intros t s2 [[HT _] _] ->. rewrite Hn, (cloud_tag ct Hk).
    eapply refused_after; [apply finds_cloud_access|]. intros a s3 [[HT3 _] _] [Ha _]. case_decide as Hadm; [by wp_value|].
    exfalso. apply Hno. rewrite <- HT. apply Ha. destruct (decide (a = "admin")); [done|by destruct Hadm].
  - apply (refused_after (fun b : bool => b = true <-> has_access (j_tuples s1) user AdministratorRelation (ConvertTag ct))).
    { apply finds_map_err, finds_check. }
    intros [] s2 Hs2 Hb; [exfalso; by apply Hno, Hb|]. simpl. by wp_value.
Qed.

(** ** Conversions *)

Lemma region_configs (cfg : gmap string (gmap string goany)) (l : list CloudRegion) (m0 : gmap string (gmap string goany)) k :
  Forall (fun r => reg_Config r = cfg !! reg_Name r) l ->
  foldl (fun m r => match reg_Config r with Some c => <[reg_Name r := c]> m | None => m end) m0 l !! k
  = if decide (k ∈ reg_Name <$> l /\ is_Some (cfg !! k)) then cfg !! k else m0 !! k.
Proof.
  intros Hl. revert m0. induction Hl as [|r l Hr Hl IH]; intros m0; [by rewrite decide_False by set_solver|].
  cbn [foldl]. rewrite IH. rewrite Hr. destruct (decide (k ∈ reg_Name <$> l /\ is_Some (cfg !! k))) as [Hin|Hout].
  - rewrite decide_True; [done|]. set_solver.
  - destruct (decide (k = reg_Name r)) as [->|Hne].
    + destruct (cfg !! reg_Name r) as [c|] eqn:Hc.
      * rewrite lookup_insert_eq, decide_True; [done|]. split; [set_solver|by eexists].
      * rewrite decide_False; [done|]. intros [_ [? ?]]. done.
    + rewrite decide_False by set_solver. destruct (cfg !! reg_Name r); [by rewrite lookup_insert_ne|done].
Qed.

Lemma find_image {A B} (f : A -> B) (p : B -> bool) l : List.find p (f <$> l) = f <$> List.find (p ∘ f) l.
Proof. induction l as [|x l IH]; [done|]. simpl. unfold compose. by destruct (p (f x)). Qed.

Lemma Cloud_Region_From name cld c :
  Cloud_Region name (FromJujuCloud cld c) = default zeroLoadedRegion ((fun r =>
    let reg := Cloud_Region (jr_Name r) c in
    MkLoadedRegion (with_Config (jc_RegionConfig cld !! jr_Name r) (FromJujuCloudRegion r (lr_Region reg))) (lr_Cloud reg) (lr_Controllers reg))
    <$> List.find (fun r => bool_decide (jr_Name r = name)) (jc_Regions cld)).
Proof. unfold Cloud_Region at 1, FromJujuCloud. cbn [lcl_Regions]. rewrite find_image. done. Qed.

(** The definition of a cloud that a client reads back is the one that
    was stored, as long as only regions of the cloud are configured; a region
    that the cloud already had keeps its key and its controllers. *)
Theorem cloud_roundtrip cld c :
  (forall k, is_Some (jc_RegionConfig cld !! k) -> k ∈ jr_Name <$> jc_Regions cld) ->
  ToJujuCloud (FromJujuCloud cld c) =
    MkParamsCloud (jc_Type cld) (jc_HostCloudRegion cld) (jc_AuthTypes cld) (jc_Endpoints cld) (jc_Regions cld)
      (jc_CACertificates cld) (jc_SkipTLSVerify cld) (jc_Config cld) (jc_RegionConfig cld) /\
  forall name, name ∈ jr_Name <$> jc_Regions cld ->
    let r := Cloud_Region name (FromJujuCloud cld c) in
    reg_Name (lr_Region r) = name /\ reg_ID (lr_Region r) = reg_ID (lr_Region (Cloud_Region name c)) /\
    lr_Controllers r = lr_Controllers (Cloud_Region name c).
Proof.
  intros Hcfg. split.
  - unfold ToJujuCloud, FromJujuCloud, regions_of. simpl. rewrite <- !list_fmap_compose. f_equal.
    + rewrite <- (list_fmap_id (jc_Regions cld)) at 2. apply list_fmap_ext. by intros i [].
    + apply map_eq. intros k. rewrite (region_configs (jc_RegionConfig cld)) by (apply Forall_fmap, Forall_forall; done).
      rewrite <- list_fmap_compose. case_decide as Hk; [done|]. rewrite lookup_empty. destruct (jc_RegionConfig cld !! k) eqn:Hl; [|done].
      destruct Hk. split; [apply Hcfg|]; by eexists.
  - intros name (jr & -> & Hjr)%list_elem_of_fmap. rewrite Cloud_Region_From.
    destruct (List.find _ (jc_Regions cld)) as [jr'|] eqn:Hf; simpl.
    + apply List.find_some in Hf as [_ Hn%bool_decide_eq_true]. by rewrite Hn.
    + exfalso. apply list_elem_of_In in Hjr. apply (List.find_none _ _ Hf) in Hjr.
      by rewrite bool_decide_eq_true_2 in Hjr.
Qed.

(** ** Removal *)

(** The clouds as the database keeps them. *)
Definition clouds_ok (d : Db T) : Prop :=
  unique_rows (rows (db_clouds d)) /\ Forall (fun c => cl_ID c <> 0%Z) (rows (db_clouds d)).

(** Enough fuel to remove the tuples of a cloud, and few public ones. *)
Definition cloud_filter ct : Tuple := MkTuple None "" (Some (ConvertTag ct)).
Definition removable_cloud (fuel : nat) ct s : Prop :=
  Kind ct = CloudTagKind /\ (size (j_tuples s) < fuel)%nat /\ (size (public_matching (cloud_filter ct) (j_tuples s)) < 50)%nat.

(** What is left when the cloud is gone from the database: some or all of its
    tuples are gone too. *)
Definition cloud_gone ct (c : Cloud) s s' : Prop :=
  deleted_cloud c (w_db (fst s)) (w_db (fst s')) /\
  j_tuples s ∖ removed (cloud_filter ct) (j_tuples s) ⊆ j_tuples s' /\ j_tuples s' ⊆ j_tuples s.

Lemma drop_tuples_wp fuel ct s :
  removable_cloud fuel ct s ->
  wp (_ ← try (jfga (RemoveCloud fuel ct)); mret tt) (fun o s' => o <> OutOfFuel /\ w_db (fst s') = w_db (fst s) /\ snd s' = snd s /\
    j_tuples s ∖ removed (cloud_filter ct) (j_tuples s) ⊆ j_tuples s' /\ j_tuples s' ⊆ j_tuples s /\ forall e, o <> Err e) s.
Proof.
  intros (Hk & Hf & Hp). apply wp_bind, wp_try, wp_jfga. unfold RemoveCloud. eapply wp_mono.
  { apply (removeTuples_wp fuel (cloud_filter ct)); [done| |exact Hp].
    pose proof (removed_size (cloud_filter ct) (j_tuples s)). eapply Nat.le_lt_trans; [eassumption|exact Hf]. }
  intros o f (Ha & Hlo & Hhi & _). destruct o as [[]|e|x|]; cbn [bind_post]; try wp_value; split_and!; try done; exact Ha.
Qed.

Lemma removable_cloud_same fuel ct s s' : j_tuples s' = j_tuples s -> removable_cloud fuel ct s -> removable_cloud fuel ct s'.
Proof. unfold removable_cloud. by intros ->. Qed.

Definition remove_post user ct s (o : outcome unit) s' : Prop :=
  o <> OutOfFuel /\
  ((same s s' /\ o <> Ok tt) \/
   (has_access (j_tuples s) user AdministratorRelation (ConvertTag ct) /\
    exists c, c ∈ rows (db_clouds (w_db (fst s))) /\ cl_Name c = Id ct /\ cloud_gone ct c s s')).

(** Removing a cloud never gets stuck.  Either nothing changed and the
    caller got an error, or the caller administers the cloud and the database
    has lost exactly the cloud, its regions, the priorities of those and its
    credentials, none of which a remaining model or controller refers to; the
    tuples that went are tuples of the cloud. *)
Theorem RemoveCloud_effect fuel j user ct s s' o :
  removable_cloud fuel ct s -> RemoveCloud_ fuel j user ct s = (s', o) -> remove_post user ct s o s'.
Proof.
  intros Hrm Hrun. refine (wp_elim _ (remove_post user ct s) _ _ _ _ Hrun). clear Hrun s' o.
  assert (absorbs (remove_post user ct s) s) as HQ. { intros o s' Ho Hs Hn. split; [done|left]. split; [done|apply Hn]. }
  unfold RemoveCloud_, doCloudAdmin. eapply (wp_same_bind _ _ _ _ s); [done|done|apply finds_still, finds_jdb, LoadCloud_sees|].
  intros lc s1 _ Hs1 [(Hin & _) Hn]. eapply (wp_same_bind _ _ _ _ s); [done|done|apply (finds_tag same)|].
  intros t s2 _ Hs2 ->. simpl in Hn. rewrite Hn, cloud_tag by apply Hrm.
  eapply (wp_same_bind _ _ _ _ s); [done|done|apply finds_still, finds_check|]. intros b s3 _ Hs3 Hb.
  destruct b; simpl; [|wp_value; by apply HQ]. assert (has_access (j_tuples s) user AdministratorRelation (ConvertTag ct)) as Hacc.
  { destruct Hs2 as [<- _]. by apply Hb. }
  destruct (lcl_Regions lc) as [|r rs]; [wp_value; by apply HQ|]. destruct (lr_Controllers r) as [|[p c] cs]; [wp_value; by apply HQ|].
  eapply (wp_same_bind _ _ _ _ s); [done|done|apply finds_dial|]. intros api s4 _ Hs4 _.
  eapply (wp_same_bind _ _ _ _ s); [done|done|apply finds_ctl|]. intros [] s5 _ Hs5 _.
  apply wp_bind, wp_map_err, wp_jdb. eapply wp_mono; [apply DeleteCloud_wp|]. intros o d [Ha Hd].
  destruct o as [[]|e|x|]; cbn [bind_post]; [|apply HQ; [done|by etrans; [exact Hs5|]|done]..|done].
  eapply wp_mono; [apply (drop_tuples_wp fuel ct), (removable_cloud_same _ _ s); [apply Hs5|done]|].
  intros o s6 (Ho & Hd6 & _ & Hlo & Hhi & _). split; [done|right]. split; [done|]. exists (lcl_Cloud lc). split_and!; [|done|].
  - done.
  - destruct Hs5 as [HT5 Ht5]. change (j_tuples (_, snd s5)) with (j_tuples s5) in Hlo, Hhi. rewrite HT5 in Hlo, Hhi. split; [|done].
    rewrite Hd6. by apply (deleted_cloud_tables _ _ (w_db (fst s5))).
Qed.

(** ** Removal from one controller *)

(** Some of the priorities with the given keys are gone, all of them on
    success; nothing else changed. *)
Definition dropped (ids : list Z) s (o : outcome unit) s' : Prop :=
  o <> OutOfFuel /\ j_tuples s' = j_tuples s /\ apart_priorities (w_db (fst s')) = apart_priorities (w_db (fst s)) /\
  exists k, (forall i, i ∈ k -> i ∈ ids) /\ (o = Ok tt -> k = ids) /\
    rows (db_priorities (w_db (fst s'))) = filter (fun p => crp_ID p ∉ k) (rows (db_priorities (w_db (fst s)))).

Lemma drop_loop {A} (ids : A -> list Z) (body : A -> M (JW F T C) unit) l s :
  (forall a s, wp (body a) (dropped (ids a) s) s) -> wp (for_range l body) (dropped (mjoin (ids <$> l)) s) s.
Proof.
  intros Hb. revert s. induction l as [|a l IH]; intros s; simpl.
  - wp_value. split_and!; [done..|]. exists []. split_and!; [done..|]. symmetry. apply filter_all. set_solver.
  - apply wp_bind. eapply wp_mono; [apply Hb|]. intros o s1 (Ho & HT & Hap & k & Hk & Hall & Hrows).
    destruct o as [[]|e|x|]; cbn [bind_post].
    2,3,4: split_and!; [done..|]; exists k; split_and!; [set_solver|done|done].
    specialize (Hall eq_refl) as ->. eapply wp_mono; [apply IH|]. intros o s2 (Ho2 & HT2 & Hap2 & k2 & Hk2 & Hall2 & Hrows2).
    split_and!; [done|congruence|by etrans|]. exists (ids a ++ k2). split_and!; [set_solver|by intros ->%Hall2|].
    rewrite Hrows2, Hrows, list_filter_filter. apply list_filter_iff. set_solver.
Qed.

Lemma drop_priorities_wp (lc : LoadedCloud) err s :
  wp (for_range (lcl_Regions lc) (fun r => for_range (lr_Controllers r) (fun pc =>
        map_err err (jdb (DeleteCloudRegionControllerPriority pc.1)))))
     (dropped (mjoin ((fun r => crp_ID ∘ fst <$> lr_Controllers r) <$> lcl_Regions lc)) s) s.
Proof.
  apply drop_loop. clear s. intros r s. eapply wp_mono; [apply (drop_loop (fun pc => [crp_ID pc.1]))|].
  - clear s. intros [p c] s. apply wp_map_err, wp_jdb. eapply wp_mono; [apply DeletePriority_wp|]. intros o d (Ha & Hap & Hrows).
    destruct o as [[]|e|x|]; [|split_and!; try done; exists []; split_and!; [set_solver|done|]..|done].
    + split_and!; [done..|]. exists [crp_ID p]. split_and!; [done..|]. simpl. rewrite Hrows. apply list_filter_iff. set_solver.
    + simpl. rewrite Hrows. symmetry. apply filter_all. set_solver.
    + simpl. rewrite Hrows. symmetry. apply filter_all. set_solver.
  - intros o s'. enough (mjoin ((fun pc : CloudRegionControllerPriority * Controller => [crp_ID pc.1]) <$> lr_Controllers r)
                         = crp_ID ∘ fst <$> lr_Controllers r) as -> by done.
    induction (lr_Controllers r) as [|pc l IH]; [done|]. simpl. by f_equal.
Qed.

Definition priority_keys (lc : LoadedCloud) : list Z :=
  mjoin ((fun r => crp_ID ∘ fst <$> lr_Controllers r) <$> lcl_Regions lc).

(** The cloud is unhosted: no controller serves it any more. *)
Definition unhosted ct (lc : LoadedCloud) s (o : outcome unit) s' : Prop :=
  apart_priorities (w_db (fst s')) = apart_priorities (w_db (fst s)) /\
  (exists k : list Z, (forall i, i ∈ k -> i ∈ priority_keys lc) /\
     rows (db_priorities (w_db (fst s'))) = filter (fun p => crp_ID p ∉ k) (rows (db_priorities (w_db (fst s))))) /\
  j_tuples s ∖ removed (cloud_filter ct) (j_tuples s) ⊆ j_tuples s' /\ j_tuples s' ⊆ j_tuples s /\
  (o = Ok tt -> Forall (fun p => crp_CloudRegionID p ∉ reg_ID <$> regions_of lc) (rows (db_priorities (w_db (fst s'))))).

Definition remove_from_post user (controllerName : string) ct s (o : outcome unit) s' : Prop :=
  o <> OutOfFuel /\
  ((same s s' /\ o <> Ok tt) \/
   (has_access (j_tuples s) user AdministratorRelation (ConvertTag ct) /\
    exists lc, cloud_loaded (w_db (fst s)) lc /\ cl_Name (lcl_Cloud lc) = Id ct /\ is_Some (by_name lc !! controllerName) /\
      if decide (delete controllerName (by_name lc) = ∅)
      then deleted_cloud (lcl_Cloud lc) (w_db (fst s)) (w_db (fst s')) /\ j_tuples s' = j_tuples s
      else unhosted ct lc s o s')).

Lemma no_priority_left lc (d : Db T) :
  cloud_loaded d lc ->
  Forall (fun p => crp_CloudRegionID p ∉ reg_ID <$> regions_of lc) (filter (fun p => crp_ID p ∉ priority_keys lc) (rows (db_priorities d))).
Proof.
  intros (_ & _ & Hr). apply Forall_forall. intros p [Hk Hp]%list_elem_of_filter Hin. apply Hk. clear Hk. unfold regions_of in Hin.
  rewrite <- list_fmap_compose in Hin. apply list_elem_of_fmap in Hin as (lr & Hid & Hlr). rewrite Forall_forall in Hr.
  destruct (Hr lr Hlr) as [Hps _]. unfold priority_keys. rewrite list_elem_of_join. eexists. split; [|by apply list_elem_of_fmap; exists lr].
  rewrite list_fmap_compose. apply list_elem_of_fmap. exists p. split; [done|]. by apply Hps.
Qed.

(** Removing a cloud from one controller never gets stuck.  Either
    nothing changed and the caller got an error; or the caller administers the
    cloud, the controller is one of those that serve it, and: when it was the
    last one the cloud is deleted from the database and its tuples all stay;
    otherwise priorities of the cloud are deleted, on success those of every
    controller, with tuples of the cloud. *)
Theorem RemoveCloudFromController_effect fuel j user controllerName ct s s' o :
  removable_cloud fuel ct s -> RemoveCloudFromController fuel j user controllerName ct s = (s', o) ->
  remove_from_post user controllerName ct s o s'.
Proof.
  intros Hrm Hrun. refine (wp_elim _ (remove_from_post user controllerName ct s) _ _ _ _ Hrun). clear Hrun s' o.
  assert (absorbs (remove_from_post user controllerName ct s) s) as HQ. { intros o s' Ho Hs Hn. split; [done|left]. split; [done|apply Hn]. }
  unfold RemoveCloudFromController. eapply (wp_same_bind _ _ _ _ s); [done|done|apply finds_still, finds_jdb, LoadCloud_sees|].
  intros lc s1 _ Hs1 [Hlc Hn]. eapply (wp_same_bind _ _ _ _ s); [done|done|apply finds_map_err, finds_still, finds_check|].
  intros b s3 _ Hs3 Hb. destruct b; simpl; [|wp_value; by apply HQ].
  assert (has_access (j_tuples s) user AdministratorRelation (ConvertTag ct)) as Hacc by (destruct Hs1 as [<- _]; by apply Hb).
  destruct (by_name lc !! controllerName) as [c|] eqn:Hc; [|wp_value; by apply HQ].
  eapply (wp_same_bind _ _ _ _ s); [done|done|apply finds_dial|]. intros api s4 _ Hs4 _.
  eapply (wp_same_bind _ _ _ _ s); [done|done|apply finds_ctl|]. intros [] s5 _ Hs5 _. destruct Hs5 as [HT5 Ht5].
  case_decide as Hlast.
  - apply wp_map_err, wp_jdb. eapply wp_mono; [apply DeleteCloud_wp|]. intros o d [Ha Hd].
    destruct o as [[]|e|x|]; [|apply HQ; [done|split; simpl; [exact HT5|by etrans]|done]..|done].
    split; [done|right]. split; [done|]. exists lc. rewrite decide_True by done. split_and!; [done..| |done].
    by apply (deleted_cloud_tables _ _ (w_db (fst s5))).
  - assert (forall o s', dropped (priority_keys lc) s5 o s' -> o <> Ok tt -> remove_from_post user controllerName ct s o s') as Hstop.
    { intros o s' (Ho & HT & Hap & k & Hk & _ & Hrows) Hno. split; [done|right]. split; [done|]. exists lc. rewrite decide_False by done.
      destruct (tables_more _ _ Ht5) as (_ & Hp & _). rewrite Hp in Hrows. rewrite HT5 in HT. split_and!; [done..|]. split_and!; [|by exists k|set_solver..|done].
      rewrite Hap. by apply apart_priorities_tables. }
    apply wp_bind. eapply wp_mono; [apply drop_priorities_wp|]. intros o s6 Hdrop.
    destruct o as [[]|e|x|]; cbn [bind_post]; [|by apply Hstop..]. destruct Hdrop as (_ & HT6 & Hap6 & k & Hk & Hall & Hrows).
    specialize (Hall eq_refl). eapply wp_mono; [apply (drop_tuples_wp fuel ct), (removable_cloud_same _ _ s); [congruence|done]|].
    intros o s7 (Ho & Hd7 & _ & Hlo & Hhi & _). rewrite HT6, HT5 in Hlo, Hhi. split; [done|right]. split; [done|]. exists lc. rewrite decide_False by done.
    destruct (tables_more _ _ Ht5) as (_ & Hp & _). rewrite Hp in Hrows. subst k.
    split_and!; [done..|]. unfold unhosted. rewrite Hd7, Hrows. split_and!; [|by eexists; split; [exact Hk|]|done..|].
    + rewrite Hap6. by apply apart_priorities_tables.
    + intros _. by apply no_priority_left.
Qed.

End facts.

End Clouds.
