(* ===== verification/JujuCredentials.v ===== *)
(** * JujuCredentials: cloud credentials ([internal/jimm/juju/cloudcredential.go]).

    A credential is a row of the database; its attributes are in the store of
    secrets.  Updates are checked against the controllers that have models
    with the credential before they are stored, and a credential is revoked
    only when no model uses it.  Where the code contacts several controllers
    in parallel the model does it one after the other; what they return is
    appended in that order. *)

From S2P Require Import Prelude Errors Regexp Names AuthModel RefServer OpenFGA Dbmodel Users Database TagResolver Access JujuDb CloudDb JujuBase JujuModels JujuClouds.

Module Credentials.

(** [credential.SetTag(tag)] on a zero credential. *)
Definition SetTag (tag : CredTag) : CloudCredential := MkCredential 0 (ct_Name tag) (ct_Cloud tag) (ct_Owner tag) "" None.
Definition with_AuthType (a : string) (c : CloudCredential) : CloudCredential :=
  MkCredential (cc_ID c) (cc_Name c) (cc_CloudName c) (cc_OwnerIdentityName c) a (cc_Valid c).

(** [sort.Strings] *)
Fixpoint insert_string (x : string) (l : list string) : list string :=
  match l with
  | [] => [x]
  | y :: l' => if String.leb x y then x :: l else y :: insert_string x l'
  end.
Definition sort_strings (l : list string) : list string := foldr insert_string [] l.

Record UpdateCloudCredentialArgs := MkUpdateArgs {
  uc_CredentialTag : CredTag; uc_AuthType : string; uc_Attributes : gmap string string; uc_SkipCheck : bool; uc_SkipUpdate : bool;
}.

Section ops.
Context {F : Type} `{OFGAServer F} {T : Type -> Type} `{Gorm T} {C : Type} `{Controllers C} `{JujuNames} `{Hash}.
Implicit Types (j : JujuManager) (user : User) (tag : CredTag).
Local Abbreviation JM := (M (JW F T C)).
Local Abbreviation Models_ := (list (CredentialModel Info)).

Definition GetCloudCredential_ user tag : JM (CloudCredential * Cloud) :=
  if negb (JimmAdmin user) && bool_decide (u_Name user <> ct_Owner tag) then throw Unauthorized else
  jdb (LoadCloudCredential (SetTag tag)).

(** ** Revocation *)

(** The error of the controller is dropped when it is not-found. *)
Definition revokeOn tag (api : Conn) : JM unit :=
  r ← try (ctl (api_RevokeCredential api tag));
  match r with
  | inl _ => mret tt
  | inr err => if decide (ErrorCode err = CodeNotFound) then mret tt else throw err
  end.

Definition RevokeCloudCredential j (user : Identity) tag : JM unit :=
  if decide (i_Name user <> ct_Owner tag) then throw Unauthorized else
  r ← try (jdb (LoadCloudCredential (SetTag tag)));
  match r with
  | inr err => if decide (ErrorCode err = CodeNotFound) then mret tt else throw err
  | inl (credential, _) =>
      models ← jdb (GetModelsUsingCredential (cc_ID credential));
      if decide (models <> [])
      then throw (Codef CodeBadRequest "cloud credential still used by %d model(s)" [ArgD (Z.of_nat (length models))]) else
      cloud ← jdb (LoadCloud (cloudOf (cc_CloudName credential)));
      _ ← Models.forEachController j (Clouds.controllers_of cloud) (fun _ => revokeOn tag);
      map_err (fun err => Errorf "failed to revoke credential in local database: %w" [ArgE err])
        (jdb (DeleteCloudCredential credential))
  end.

(** ** Updates *)

(** Results and an error, as the code returns both. *)
Definition checkControllerCloudCredential (cred : CloudCredential) (attrs : gmap string string) (api : Conn)
    : JM (Models_ * option gerror) :=
  tag ← lift (Credential_ResourceTag cred);
  r ← try (ctl (api_CheckCredentialModels api (MkTagged (TagString tag) (cc_AuthType cred) attrs)));
  mret (match r with
        | inr err => ([], Some err)
        | inl [] => ([], None)
        | inl (out :: _) => (ur_Models out, ur_Error out)
        end).

(** [forEachController] with a callback that appends to the result. *)
Fixpoint gather j (controllers : list Controller) (f : Conn -> JM (Models_ * option gerror)) : JM (Models_ * option gerror) :=
  match controllers with
  | [] => mret ([], None)
  | c :: controllers =>
      r ← try (dialControllerAsService j c);
      '(found, err) ← match r with inl api => f api | inr err => mret ([], Some err) end;
      '(rest, err') ← gather j controllers f;
      mret (found ++ rest, match err with Some _ => err | None => err' end)
  end.

Definition updateCredential (credential : CloudCredential) (attr : gmap string string) : JM unit :=
  _ ← map_err (fun err => Errorf "failed to store credential id: %w" [ArgE err]) (jdb (SetCloudCredential credential));
  tag ← lift (Credential_ResourceTag credential);
  map_err (fun err => Errorf "failed to store credentials: %w" [ArgE err]) (ctl (cs_Put tag attr)).

(** A copy of the credential on one controller; the results are kept when the
    check was skipped. *)
Definition forceOn (credential : CloudCredential) (attrs : gmap string string) (keep : bool) (api : Conn) : JM (Models_ * option gerror) :=
  r ← try (Models.forceUpdateControllerCloudCredential credential attrs api);
  mret (match r with
        | inr err => ([], Some err)
        | inl models => (if keep then models else [], None)
        end).

(** The controllers of the models, each once. *)
Fixpoint model_controllers (seen : list Z) (models : list (Model * Controller)) : list Controller :=
  match models with
  | [] => []
  | mc :: models =>
      if decide (m_ControllerID mc.1 ∈ seen) then model_controllers seen models
      else mc.2 :: model_controllers (m_ControllerID mc.1 :: seen) models
  end.

Definition has_errors (result : Models_) : bool := existsb (fun r => bool_decide (cm_Errors r <> [])) result.

(** The owner, or a JIMM administrator on behalf of the owner, whose identity
    is created when it is missing. *)
Definition checkCredentialOwner user tag : JM unit :=
  userTag ← lift (Identity_ResourceTag (u_Identity user));
  if decide (Id userTag = ct_Owner tag) then mret tt else
  if negb (JimmAdmin user) then throw Unauthorized else
  _ ← jdb (GetIdentity (with_Name zeroIdentity (ct_Owner tag)));
  mret tt.

(** The stored credential, or the one that the tag names. *)
Definition currentCredential tag : JM CloudCredential :=
  r ← try (jdb (LoadCloudCredential (SetTag tag)));
  match r with
  | inl (c, _) => mret c
  | inr err => if decide (ErrorCode err = CodeNotFound) then mret (SetTag tag) else throw err
  end.

Definition storeAndPush j (args : UpdateCloudCredentialArgs) (credential : CloudCredential) (controllers : list Controller) (result : Models_)
    : JM (Models_ * option gerror) :=
  r ← try (updateCredential credential (uc_Attributes args));
  match r with
  | inr err => mret (result, Some err)
  | inl _ =>
      '(more, err) ← gather j controllers (forceOn credential (uc_Attributes args) (uc_SkipCheck args));
      mret (result ++ more, err)
  end.

Definition UpdateCloudCredential j user (args : UpdateCloudCredentialArgs) : JM (Models_ * option gerror) :=
  let tag := uc_CredentialTag args in
  _ ← checkCredentialOwner user tag;
  credential ← currentCredential tag;
  _ ← lift (NewCloudTag (cc_CloudName credential));
  _ ← jdb (LoadCloud (cloudOf (cc_CloudName credential)));
  models ← jdb (GetModelsUsingCredential (cc_ID credential));
  let controllers := model_controllers [] models in
  let credential := with_AuthType (uc_AuthType args) credential in
  '(result, err) ← (if uc_SkipCheck args then mret ([], None)
                    else gather j controllers (checkControllerCloudCredential credential (uc_Attributes args)));
  match err with
  | Some e => mret (result, Some e)
  | None =>
      if has_errors result || uc_SkipUpdate args then mret (result, None)
      else storeAndPush j args credential controllers result
  end.

(** ** Attributes *)

Definition GetCloudCredentialAttributes user (cred : CloudCredential * Cloud) (hidden : bool) : JM (gmap string string * list string) :=
  let '(c, cloud) := cred in
  let owner := bool_decide (u_Name user = cc_OwnerIdentityName c) in
  if negb (if hidden then owner else JimmAdmin user || owner) then throw Unauthorized else
  attrs ← Models.getCloudCredentialAttributes c;
  if decide (attrs = ∅) then mret (∅, []) else
  if hidden then mret (attrs, []) else
  let visible k := IsVisibleAttribute (cl_Type cloud) (cc_AuthType c) k in
  mret (filter (fun kv => visible kv.1 = true) attrs,
        sort_strings (fmap (M:=list) fst (map_to_list (filter (fun kv => visible kv.1 = false) attrs)))).

(** The callback stops the iteration with its error. *)
Definition ForEachUserCloudCredential (u : Identity) (cloud : string) (f : CloudCredential * Cloud -> JM unit) : JM unit :=
  found ← jdb (UserCloudCredentials (i_Name u) cloud);
  for_range found f.

(** The parts of a valid identifier are those it was made of. *)
Definition CopyCredential j (originalUser newUser : User) tag : JM (CredTag * (Models_ * option gerror)) :=
  '(credential, _) ← GetCloudCredential_ originalUser tag;
  attr ← Models.getCloudCredentialAttributes credential;
  let newCredID := ct_Cloud tag +:+ "/" +:+ u_Name newUser +:+ "/" +:+ ct_Name tag in
  if negb (IsValidCloudCredential newCredID)
  then throw (Errorf "new credential ID %s is not a valid cloud credential tag" [ArgS newCredID]) else
  let newTag := MkCredTag (ct_Cloud tag) (u_Name newUser) (ct_Name tag) in
  res ← UpdateCloudCredential j newUser (MkUpdateArgs newTag (cc_AuthType credential) attr false false);
  mret (newTag, res).

(** ** Recovery *)

(** The attributes among the results of a controller, and the last error. *)
Fixpoint scan_contents (name : string) (results : list (option CredentialContent + gerror)) (lastErr : option gerror)
    : gmap string string * option gerror :=
  match results with
  | [] => (∅, lastErr)
  | inr err :: results => scan_contents name results (Some err)
  | inl None :: results => scan_contents name results lastErr
  | inl (Some res) :: results =>
      if decide (cr_Name res <> name \/ cr_Attributes res = ∅) then scan_contents name results lastErr
      else (cr_Attributes res, lastErr)
  end.

Fixpoint recover_from j (owner : User) (c : CloudCredential) (models : list (Model * Controller)) (seen : list Z) (lastErr : option gerror)
    : JM (gmap string string * option gerror) :=
  match models with
  | [] => mret (∅, lastErr)
  | (_, controller) :: models =>
      if decide (c_ID controller ∈ seen) then recover_from j owner c models seen lastErr else
      let seen := c_ID controller :: seen in
      r ← try (dialControllerAsSuperuser j (Some owner) controller);
      match r with
      | inr err => recover_from j owner c models seen (Some err)
      | inl api =>
          r ← try (ctl (api_CredentialContents api (cc_CloudName c) (cc_Name c) true));
          match r with
          | inr err => recover_from j owner c models seen (Some err)
          | inl results =>
              let '(attrs, lastErr) := scan_contents (cc_Name c) results lastErr in
              if decide (attrs = ∅) then recover_from j owner c models seen lastErr else mret (attrs, lastErr)
          end
      end
  end.

Definition recoverCredential j (credential : CloudCredential) (dryRun : bool) : JM unit :=
  tag ← lift (Credential_ResourceTag credential);
  models ← jdb (GetModelsUsingCredential (cc_ID credential));
  if decide (models = [])
  then throw (Codef CodeNotFound "no models use credential attributes %q, cannot recover secrets" [ArgS (TagString tag)]) else
  ownerIdentity ← lift (NewIdentity (cc_OwnerIdentityName credential));
  '(attrs, lastErr) ← recover_from j (NewUser ownerIdentity) credential models [] None;
  if decide (attrs = ∅) then
    throw (match lastErr with
           | Some err => Codef CodeNotFound "could not recover credential secrets from any controller: %v" [ArgE err]
           | None => Codef CodeNotFound "credential secrets not found on any controller" []
           end)
  else if dryRun then mret tt else
  map_err (fun err => Errorf "failed to store recovered credentials: %w" [ArgE err]) (ctl (cs_Put tag attrs)).

Definition RecoverModelCredential j user tag (dryRun : bool) : JM unit :=
  _ ← checkJimmAdmin user;
  '(credential, _) ← jdb (LoadCloudCredential (SetTag tag));
  recoverCredential j credential dryRun.

(** One result for each credential: its tag and why it was not recovered. *)
Definition RecoverAllModelCredentials j user (dryRun : bool) : JM (list (Tag * option gerror)) :=
  _ ← checkJimmAdmin user;
  creds ← jdb GetAllCloudCredentials;
  map_range creds (fun cred =>
    tag ← lift (Credential_ResourceTag cred);
    r ← try (recoverCredential j cred dryRun);
    mret (tag, match r with inl _ => None | inr err => Some err end)).

End ops.

Section facts.
Context {F : Type} `{OFGALaws F} {T : Type -> Type} `{GormLaws T} {C : Type} `{Controllers C} `{JujuNames} `{Hash}.
Implicit Types (j : JujuManager) (user : User) (tag : CredTag) (s : JW F T C).

(** ** Attributes *)

Lemma getCloudCredentialAttributes_finds cred s :
  wp (Models.getCloudCredentialAttributes cred) (finds still (fun attrs =>
    exists t, Credential_ResourceTag cred = Ok t /\ cs_Get t (snd s) = inl attrs) s) s.
Proof.
  unfold Models.getCloudCredentialAttributes.
  eapply (finds_bind still (fun t => Credential_ResourceTag cred = Ok t)); [apply (finds_lift still); [apply NewJujuTag_answered|done]|].
  intros t s1 [_ Hs1] Ht. eapply finds_mono; [apply finds_ctl_read|]. intros a Ha. exists t. by rewrite <- Hs1.
Qed.

(** The attributes that are shown: all of the stored ones to the owner that
    asks for the hidden ones; otherwise the visible ones, and the names of the
    others. *)
Definition shown user (c : CloudCredential) (cloud : Cloud) (hidden : bool) (stored : gmap string string)
    (r : gmap string string * list string) : Prop :=
  let visible k := IsVisibleAttribute (cl_Type cloud) (cc_AuthType c) k in
  if hidden then u_Name user = cc_OwnerIdentityName c /\ r = (stored, [])
  else (JimmAdmin user = true \/ u_Name user = cc_OwnerIdentityName c) /\
    (forall k v, r.1 !! k = Some v <-> stored !! k = Some v /\ visible k = true) /\
    (forall k, k ∈ r.2 <-> is_Some (stored !! k) /\ visible k = false).

Lemma sort_strings_elem k l : k ∈ sort_strings l <-> k ∈ l.
Proof.
  induction l as [|x l IH]; [done|]. simpl. rewrite elem_of_cons, <- IH. generalize (sort_strings l). clear. intros l.
  induction l as [|y l IH]; simpl; [by rewrite list_elem_of_singleton; set_solver|]. case_match; set_solver.
Qed.

Lemma GetCloudCredentialAttributes_finds user c cloud hidden s :
  wp (GetCloudCredentialAttributes user (c, cloud) hidden) (finds still (fun r =>
    exists t stored, Credential_ResourceTag c = Ok t /\ cs_Get t (snd s) = inl stored /\ shown user c cloud hidden stored r) s) s.
Proof.
  unfold GetCloudCredentialAttributes. destruct (negb _) eqn:Hok; [apply (finds_throw still)|].
  apply negb_false_iff in Hok. eapply (finds_bind still); [apply getCloudCredentialAttributes_finds|].
  intros attrs s1 Hs1 (t & Ht & Hget). assert (forall r, shown user c cloud hidden attrs r -> exists t stored,
    Credential_ResourceTag c = Ok t /\ cs_Get t (snd s) = inl stored /\ shown user c cloud hidden stored r) as Hr by (intros r Hr; by exists t, attrs).
  unfold shown in Hr. destruct hidden.
  - apply bool_decide_eq_true in Hok. case_decide as He; apply (finds_ret still), Hr; [by subst|done].
  - assert (JimmAdmin user = true \/ u_Name user = cc_OwnerIdentityName c) as Hauth.
    { apply orb_true_iff in Hok as [?|?%bool_decide_eq_true]; auto. }
    clear Hok.
    case_decide as He; apply (finds_ret still), Hr.
    + subst. split_and!; [done|..]; intros; [rewrite lookup_empty; naive_solver|]. split; [set_solver|]. by intros [[? ?] _].
    + split_and!; [done|..]; simpl; [intros k v; by rewrite map_lookup_filter_Some|]. intros k. rewrite sort_strings_elem, list_elem_of_fmap. split.
      * intros ([k' v] & -> & [Hk Hv]%elem_of_map_to_list%map_lookup_filter_Some). split; [by eexists|done].
      * intros [[v Hk] Hv]. exists (k, v). split; [done|]. apply elem_of_map_to_list, map_lookup_filter_Some. done.
Qed.

(** The attributes of a credential are shown to its owner, and without
    the hidden ones to JIMM administrators too: hidden attributes are returned
    only to the owner, a redacted answer has exactly the visible attributes and
    lists exactly the names of the others; nothing changes. *)
Theorem GetCloudCredentialAttributes_confined user c cloud hidden s s' r :
  GetCloudCredentialAttributes user (c, cloud) hidden s = (s', Ok r) ->
  still s s' /\ exists t stored, Credential_ResourceTag c = Ok t /\ cs_Get t (snd s) = inl stored /\ shown user c cloud hidden stored r.
Proof.
  intros Hrun. destruct (wp_elim _ _ _ _ _ (GetCloudCredentialAttributes_finds user c cloud hidden s) Hrun) as (_ & Hs & Hr).
  split; [done|by apply Hr].
Qed.

(** ** Revocation *)

Definition revoke_post (user : Identity) tag s (o : outcome unit) s' : Prop :=
  o <> OutOfFuel /\
  ((same s s' /\ (o = Ok tt -> exists d err, LoadCloudCredential (SetTag tag) (w_db (fst s)) = (d, Err err) /\ ErrorCode err = CodeNotFound)) \/
   (o = Ok tt /\ i_Name user = ct_Owner tag /\ j_tuples s' = j_tuples s /\
    apart_credentials (w_db (fst s')) = apart_credentials (w_db (fst s)) /\
    exists c, c ∈ rows (db_credentials (w_db (fst s))) /\ row_conflict c (SetTag tag) = true /\
      Forall (fun m => m_CloudCredentialID m <> cc_ID c) (rows (db_models (w_db (fst s)))) /\
      rows (db_credentials (w_db (fst s'))) = filter (fun x => cc_ID x <> cc_ID c) (rows (db_credentials (w_db (fst s)))))).

Lemma revokeOn_finds tag api s : wp (revokeOn tag api) (finds same (fun _ => True) s) s.
Proof.
  unfold revokeOn. eapply (finds_bind same); [apply finds_try, finds_ctl|]. intros [[]|err] s1 _ _; [by apply (finds_ret same)|].
  case_decide; [by apply (finds_ret same)|apply (finds_throw same)].
Qed.

(** Revoking a credential either changes nothing, and then reports
    success only when there is no such credential, or deletes the row of that
    credential and nothing else; it is then the caller's own and no model uses
    it. *)
Theorem RevokeCloudCredential_effect j (user : Identity) tag s s' o :
  RevokeCloudCredential j user tag s = (s', o) -> revoke_post user tag s o s'.
Proof.
  intros Hrun. refine (wp_elim _ (revoke_post user tag s) _ _ _ _ Hrun). clear Hrun s' o.
  assert (absorbs (revoke_post user tag s) s) as HQ.
  { intros o s' Ho Hs Hn. split; [done|left]. split; [done|]. intros ->. by destruct (Hn tt). }
  unfold RevokeCloudCredential. case_decide as Hown; [by wp_value; apply HQ|]. apply wp_bind, wp_try, wp_jdb, wp_run.
  intros d o Hrun. destruct (wp_elim _ _ _ _ _ (LoadCloudCredential_sees _ _) Hrun) as [[Ha Ht] Hc].
  assert (same s (MkWorld (w_fga (fst s)) d, snd s)) as Hs1 by (by split).
  destruct o as [[c cl]|err|x|]; cbn [bind_post]; [|case_decide; wp_value; [|by apply HQ]|by apply HQ|done].
  2: { split; [done|left]. split; [done|]. intros _. by exists d, err. }
  destruct (Hc _ eq_refl) as [Hin Hpath]. simpl in Hin, Hpath.
  eapply (wp_same_bind _ _ _ _ s); [done|exact Hs1|apply finds_still, finds_jdb, GetModelsUsingCredential_sees|]. intros models s2 _ Hs2 _.
  destruct (decide (models <> [])); [by wp_value; apply HQ|].
  eapply (wp_same_bind _ _ _ _ s); [done|done|apply finds_still, finds_jdb, LoadCloud_sees|]. intros cloud s3 _ Hs3 _.
  eapply (wp_same_bind _ _ _ _ s); [done|done|apply Models.forEachController_finds; intros; apply revokeOn_finds|].
  intros [] s4 _ [HT4 Ht4] _. apply wp_map_err, wp_jdb. eapply wp_mono; [apply DeleteCloudCredential_wp|]. intros o d5 [Ha5 Hd5].
  destruct o as [[]|e|x|]; [|apply HQ; [done|by split; [|etrans]|done]..|done].
  destruct Hd5 as (Hap & Hrows & Hmod). destruct (tables_eq _ _ Ht4) as (_ & _ & Hm & _ & _ & _ & Hcr). rewrite Hcr in Hrows. rewrite Hm in Hmod.
  split; [done|right]. split_and!; [done|done|done| |by exists c]. simpl. rewrite Hap. by apply apart_credentials_tables.
Qed.

(** ** Updates *)

Local Abbreviation Models_ := (list (CredentialModel Info)).

Definition authorised user tag : Prop :=
  JimmAdmin user = true \/ exists t, Identity_ResourceTag (u_Identity user) = Ok t /\ Id t = ct_Owner tag.

(** All tables but those of identities and credentials. *)
Definition apart_store (d : Db T) :=
  (rows (db_groups d), rows (db_roles d), rows (db_controllers d), rows (db_models d),
   rows (db_offers d), rows (db_clouds d), rows (db_mappings d), rows (db_defaults d), more_tables d).
Definition steady s s' : Prop :=
  j_tuples s' = j_tuples s /\ apart_store (w_db (fst s')) = apart_store (w_db (fst s)) /\
  forall x, x ∈ rows (db_identities (w_db (fst s))) -> x ∈ rows (db_identities (w_db (fst s'))).
(** Nothing changed, except that an identity may have been created. *)
Definition grown s s' : Prop :=
  steady s s' /\ rows (db_credentials (w_db (fst s'))) = rows (db_credentials (w_db (fst s))).

#[export] Instance steady_preorder : PreOrder steady.
Proof. split; [done|]. intros s1 s2 s3 (H1' & H2' & H3') (H4' & H5' & H6'). split_and!; [congruence|by etrans|auto]. Qed.
#[export] Instance grown_preorder : PreOrder grown.
Proof. split; [done|]. intros s1 s2 s3 [H1' H2'] [H3' H4']. split; [by etrans|congruence]. Qed.

Lemma same_grown s s' : same s s' -> grown s s'.
Proof.
  intros [HT Ht]. destruct (tables_eq _ _ Ht) as (Hi & _ & _ & _ & _ & _ & Hc). split; [split_and!|done]; [done| |by rewrite Hi].
  unfold apart_store. unfold j_tables in Ht. clear - Ht. all_tables. done.
Qed.
Lemma finds_grown {A} (P : A -> Prop) (m : M (JW F T C) A) s : wp m (finds same P s) s -> wp m (finds grown P s) s.
Proof. intros Hm. eapply wp_mono; [exact Hm|]. intros o s' (Ha & Hs & HP). split_and!; [done|by apply same_grown|done]. Qed.

Lemma steady_credentials s d :
  apart_credentials d = apart_credentials (w_db (fst s)) -> steady s (MkWorld (w_fga (fst s)) d, snd s).
Proof.
  intros Hap. unfold apart_credentials in Hap. split_and!; simpl; [done|..].
  - clear - Hap. unfold apart_store. all_tables. done.
  - assert (rows (db_identities d) = rows (db_identities (w_db (fst s)))) as -> by congruence. done.
Qed.

Lemma checkCredentialOwner_finds user tag s :
  unique_rows (rows (db_identities (w_db (fst s)))) ->
  wp (checkCredentialOwner user tag) (finds grown (fun _ => authorised user tag) s) s.
Proof.
  intros Hu. unfold checkCredentialOwner.
  apply (wp_finds_bind still (fun t => Identity_ResourceTag (u_Identity user) = Ok t)).
  { apply (finds_lift still); [apply NewUserTag_answered|done]. }
  2: { intros o s' Ha Hs Hn. split_and!; [done|apply same_grown, Hs|]. intros b ->. by destruct (Hn b). }
  intros t s1 [[HT Ht] _] Htag. assert (grown s s1) as Hs1 by by apply same_grown.
  destruct (decide (Id t = ct_Owner tag)).
  { wp_value. split_and!; [done|done|]. intros _ _. right. by exists t. }
  destruct (JimmAdmin user) eqn:Hadm; simpl; [|wp_value; by split_and!].
  apply wp_bind, wp_jdb. eapply wp_mono; [apply GetIdentity_keeps; by destruct (tables_eq _ _ Ht) as (-> & _)|].
  intros o d (Ha & Hap & Hids & _). assert (grown s (MkWorld (w_fga (fst s1)) d, snd s1)) as Hg.
  { etrans; [exact Hs1|]. unfold apart_identities in Hap. split; [split_and!|]; simpl; [done| |done|by simplify_eq].
    clear - Hap. unfold apart_store. all_tables. done. }
  destruct o as [i|e|x|]; cbn [bind_post]; [wp_value|..]; (split_and!; [done|done|]); [|done..]. intros _ _. by left.
Qed.

Lemma currentCredential_finds tag s :
  wp (currentCredential tag) (finds same (fun c => row_conflict c (SetTag tag) = true) s) s.
Proof.
  unfold currentCredential. eapply (finds_bind same); [apply finds_try, finds_still, finds_jdb, LoadCloudCredential_sees|].
  intros [[c cl]|err] s1 _ Hc; [apply (finds_ret same); by destruct (Hc _ eq_refl)|].
  case_decide; [apply (finds_ret same); by apply credential_conflict|apply (finds_throw same)].
Qed.

Lemma gather_finds j cs f (P : Models_ * option gerror -> Prop) s :
  (forall e, P ([], e)) -> (forall a b e e', P (a, e) -> P (b, e') -> P (a ++ b, match e with Some _ => e | None => e' end)) ->
  (forall api s', wp (f api) (finds same P s') s') -> wp (gather j cs f) (finds same P s) s.
Proof.
  intros H0' Happ Hf. revert s. induction cs as [|c cs IH]; intros s; simpl; [by apply (finds_ret same)|].
  eapply (finds_bind same); [apply finds_try, finds_service|]. intros r s1 _ _.
  apply (finds_bind same P); [destruct r; [apply Hf|by apply (finds_ret same)]|]. intros [found err] s2 _ HP.
  eapply (finds_bind same); [apply IH|]. intros [rest err'] s3 _ HP'. apply (finds_ret same). by apply Happ.
Qed.

Lemma check_finds cred attrs api s :
  wp (checkControllerCloudCredential cred attrs api) (finds same (fun _ => True) s) s.
Proof.
  unfold checkControllerCloudCredential. eapply (finds_bind same); [by apply (finds_lift same (fun _ => True)); [apply NewJujuTag_answered|]|].
  intros t s1 _ _. eapply (finds_bind same); [apply finds_try, finds_ctl|]. intros r s2 _ _. by apply (finds_ret same).
Qed.

Lemma force_finds cred attrs keep api s :
  wp (forceOn cred attrs keep api) (finds same (fun r => keep = false -> r.1 = []) s) s.
Proof.
  unfold forceOn, Models.forceUpdateControllerCloudCredential.
  apply (finds_bind same (fun _ => True)); [|intros [] s1 _ _; apply (finds_ret same); [by destruct keep|done]].
  eapply finds_mono; [apply (finds_try same (fun _ => True))|done].
  eapply (finds_bind same); [by apply (finds_lift same (fun _ => True)); [apply NewJujuTag_answered|]|]. intros t s1 _ _.
  eapply (finds_bind same); [apply finds_ctl|]. intros [|r out] s2 _ _; [by apply (finds_ret same)|].
  destruct (ur_Error r); [apply (finds_throw same)|by apply (finds_ret same)].
Qed.

Definition update_post user (args : UpdateCloudCredentialArgs) s (o : outcome (Models_ * option gerror)) s' : Prop :=
  let tag := uc_CredentialTag args in
  o <> OutOfFuel /\ steady s s' /\ (forall r, o = Ok r -> authorised user tag) /\
  (rows (db_credentials (w_db (fst s'))) = rows (db_credentials (w_db (fst s))) \/
   (authorised user tag /\ uc_SkipUpdate args = false /\
    (exists c, c ∈ rows (db_clouds (w_db (fst s))) /\ cl_Name c = ct_Cloud tag) /\
    (exists c r, row_conflict c (SetTag tag) = true /\ cc_AuthType c = uc_AuthType args /\
       stored_credential c r (rows (db_credentials (w_db (fst s)))) (rows (db_credentials (w_db (fst s'))))) /\
    (uc_SkipCheck args = false -> forall result err, o = Ok (result, err) -> has_errors result = false))).

Lemma updateCredential_wp c attrs s :
  credentials_ok (rows (db_credentials (w_db (fst s)))) ->
  wp (updateCredential c attrs) (fun o s' => o <> OutOfFuel /\
    ((grown s s' /\ o <> Ok tt) \/
     (steady s s' /\ exists r, stored_credential c r (rows (db_credentials (w_db (fst s)))) (rows (db_credentials (w_db (fst s'))))))) s.
Proof.
  intros Hok. unfold updateCredential. apply wp_bind, wp_map_err, wp_jdb. eapply wp_mono; [by apply SetCloudCredential_wp|].
  intros o d (Ha & Hap & Ho). pose proof (steady_credentials s d Hap) as Hst.
  destruct o as [r|e|x|]; cbn [bind_post]; [|split; [done|]; left; by split..|done].
  apply (wp_finds_bind same (fun _ => True)).
  - apply (finds_lift same); [apply NewJujuTag_answered|done].
  - intros t s1 Hs1 _. apply wp_map_err. eapply wp_mono; [apply finds_ctl|]. intros o s2 (Ha2 & Hs2 & _).
    assert (steady s s2) as Hst2. { etrans; [exact Hst|]. apply (same_grown _ s2). by etrans. }
    assert (rows (db_credentials (w_db (fst s2))) = rows (db_credentials d)) as Hc.
    { destruct Hs1 as [_ Ht1], Hs2 as [_ Ht2]. destruct (tables_eq _ _ Ht1) as (_ & _ & _ & _ & _ & _ & H1').
      destruct (tables_eq _ _ Ht2) as (_ & _ & _ & _ & _ & _ & H2'). simpl in H1'. congruence. }
    rewrite Hc. destruct o; split; try done; right; split; try done; by exists r.
  - intros o s1 Ha1 Hs1 Hn. split; [done|right]. destruct Hs1 as [HT1 Ht1]. destruct (tables_eq _ _ Ht1) as (_ & _ & _ & _ & _ & _ & ->).
    split; [|by exists r]. etrans; [exact Hst|]. by apply (same_grown _ s1).
Qed.

Lemma storeAndPush_wp user j args c cs result s s0 :
  credentials_ok (rows (db_credentials (w_db (fst s)))) -> grown s s0 -> authorised user (uc_CredentialTag args) ->
  uc_SkipUpdate args = false -> (exists c, c ∈ rows (db_clouds (w_db (fst s))) /\ cl_Name c = ct_Cloud (uc_CredentialTag args)) ->
  row_conflict c (SetTag (uc_CredentialTag args)) = true -> cc_AuthType c = uc_AuthType args ->
  (uc_SkipCheck args = false -> has_errors result = false) ->
  wp (storeAndPush j args c cs result) (update_post user args s) s0.
Proof.
  intros Hok [Hst Hcr] Hauth Hupd Hcl Hpath Hat Herr. unfold storeAndPush.
  assert (forall o s1 s', o <> OutOfFuel -> same s1 s' ->
    (grown s0 s1 \/ (steady s0 s1 /\ exists r, stored_credential c r (rows (db_credentials (w_db (fst s0)))) (rows (db_credentials (w_db (fst s1)))))) ->
    (uc_SkipCheck args = false -> forall res err, o = Ok (res, err) -> has_errors res = false) -> update_post user args s o s') as Hdone.
  { intros o s1 s' Hfu Hs Hcase Hres. destruct (same_grown _ _ Hs) as [Hst' Hc']. split_and!; [done| |by intros|].
    - etrans; [exact Hst|]. by destruct Hcase as [[H1' _]|[H1' _]]; etrans.
    - rewrite Hc'. destruct Hcase as [[_ ->]|[_ [r Hr]]]; [by left|right]. rewrite Hcr in Hr. split_and!; [done..| |done]. by exists c, r. }
  apply wp_bind, wp_try. eapply wp_mono; [apply updateCredential_wp; by rewrite Hcr|]. intros o s1 [Hf Hcase].
  assert (grown s0 s1 \/ (steady s0 s1 /\ exists r, stored_credential c r (rows (db_credentials (w_db (fst s0)))) (rows (db_credentials (w_db (fst s1))))))
    as Hcase' by (destruct Hcase as [[? _]|?]; auto).
  destruct o as [[]|e|x|]; cbn [bind_post]; [|wp_value; apply (Hdone _ s1); [done..|]|by apply (Hdone _ s1)|done].
  2: { intros Hsk res err Hres. apply (inj Ok) in Hres. simplify_eq. by apply Herr. }
  eapply (wp_finds_bind same); [apply (gather_finds _ _ _ (fun r => uc_SkipCheck args = false -> r.1 = [])); [done| |intros; apply force_finds]|..].
  - intros a b e e' Ha Hb Hsk. simpl in *. by rewrite Ha, Hb.
  - intros [more err] s2 Hs2 Hmore. wp_value. apply (Hdone _ s1); [done..|]. intros Hsk res err' Hres. apply (inj Ok) in Hres. simplify_eq.
    simpl in Hmore. rewrite Hmore, app_nil_r by done. by apply Herr.
  - intros o s2 Ha Hs2 Hn. apply (Hdone _ s1); [done..|]. intros _ res err ->. by destruct (Hn (res, err)).
Qed.

Lemma wp_grown_bind {A} (P : A -> Prop) (m : M (JW F T C) A) (k : A -> M (JW F T C) (Models_ * option gerror)) user args s s0 :
  grown s s0 -> wp m (finds grown P s0) s0 ->
  (forall a s', grown s s' -> P a -> wp (k a) (update_post user args s) s') -> wp (m ≫= k) (update_post user args s) s0.
Proof.
  intros Hs Hm Hk. eapply wp_finds_bind; [exact Hm|..].
  - intros a s1 Hs1 Ha. apply Hk; [by etrans|done].
  - intros o s1 Ha Hs1 Hn. assert (grown s s1) as [Hst Hc] by by etrans. split_and!; [done|done| |by left]. intros r ->. by destruct (Hn r).
Qed.

(** C24.  Updating a credential never gets stuck.  Only its owner, or a JIMM
    administrator, gets an answer; whatever happens no tuple and no other row
    changes, except that an identity may be created; and the credential is
    stored only when an update was asked for, its cloud exists and, unless the
    check was skipped, no model reported an error.  The other credentials stay
    as they are. *)
Theorem UpdateCloudCredential_effect j user args s s' o :
  unique_rows (rows (db_identities (w_db (fst s)))) -> credentials_ok (rows (db_credentials (w_db (fst s)))) ->
  UpdateCloudCredential j user args s = (s', o) -> update_post user args s o s'.
Proof.
  intros Hu Hok Hrun. refine (wp_elim _ (update_post user args s) _ _ _ _ Hrun). clear Hrun s' o.
  eapply wp_grown_bind; [done|by apply checkCredentialOwner_finds|]. intros [] s1 Hs1 Hauth.
  eapply wp_grown_bind; [done|apply finds_grown, currentCredential_finds|]. intros c s2 Hs2 Hpath.
  eapply (wp_grown_bind (fun _ => True)); [done|apply finds_grown, (finds_lift same); [apply NewJujuTag_answered|done]|]. intros _ s3 Hs3 _.
  eapply wp_grown_bind; [done|apply finds_grown, finds_still, finds_jdb, LoadCloud_sees|]. intros lc s4 Hs4 [(Hin & _) Hn].
  eapply wp_grown_bind; [done|apply finds_grown, finds_still, finds_jdb, GetModelsUsingCredential_sees|]. intros models s5 Hs5 _.
  assert (exists c, c ∈ rows (db_clouds (w_db (fst s))) /\ cl_Name c = ct_Cloud (uc_CredentialTag args)) as Hcl.
  { exists (lcl_Cloud lc). destruct Hs3 as [(_ & Hap & _) _]. unfold apart_store in Hap. split.
    - assert (rows (db_clouds (w_db (fst s3))) = rows (db_clouds (w_db (fst s)))) as <- by congruence. done.
    - rewrite Hn. by apply credential_conflict in Hpath as (? & _). }
  eapply (wp_grown_bind (fun r => uc_SkipCheck args = true -> r = ([], None))); [done| |].
  { destruct (uc_SkipCheck args); [by apply (finds_ret grown)|]. apply finds_grown. eapply finds_mono; [apply (gather_finds _ _ _ (fun _ => True))|done]; [done..|].
    intros. apply check_finds. }
  intros [result err] s6 [Hst Hcr] Hres. assert (forall e, update_post user args s (Ok (result, e)) s6) as Hstop.
  { intros e. split_and!; [done|done|by intros|by left]. }
  destruct err as [e|]; [wp_value; apply Hstop|]. destruct (has_errors result) eqn:Herr; [wp_value; apply Hstop|].
  destruct (uc_SkipUpdate args) eqn:Hskip; [wp_value; apply Hstop|]. by apply storeAndPush_wp.
Qed.

End facts.

End Credentials.
