(* ===== verification/ModelBuilder.v ===== *)
(** * ModelBuilder: adding a model ([internal/jimm/juju/modelbuilder.go], [AddModel]
    of [model.go]).

    The builder is a record that its methods fill in one after the other; a
    method that fails stores the error, and the methods after it do nothing.
    [AddModel] picks a controller that the user may use and that serves the
    region, reserves the model in the database, creates it on the controller
    and grants access to the owner. *)

From S2P Require Import Prelude Errors Regexp Names AuthModel RefServer OpenFGA Dbmodel Users Database TagResolver Access JujuDb CloudDb JujuBase JujuModels JujuClouds JujuCredentials.

Module Builder.

Record candidateController := MkCandidate { cand_controller : LoadedController; cand_priority : Z }.

Record modelBuilder (Info : Type) := MkBuilder {
  b_err : option gerror; b_ofgaUser : option User; b_name : string; b_candidates : list candidateController;
  b_config : option (gmap string goany); b_owner : option Identity; b_credential : option CloudCredential;
  b_controller : option Controller; b_cloud : option LoadedCloud; b_cloudRegion : string; b_cloudRegionID : Z;
  b_cloudRegionVirtual : bool; b_model : option Model; b_modelInfo : option (ModelInfo Info);
}.
Arguments MkBuilder {Info}. Arguments b_err {Info}. Arguments b_ofgaUser {Info}. Arguments b_name {Info}.
Arguments b_candidates {Info}. Arguments b_config {Info}. Arguments b_owner {Info}. Arguments b_credential {Info}.
Arguments b_controller {Info}. Arguments b_cloud {Info}. Arguments b_cloudRegion {Info}. Arguments b_cloudRegionID {Info}.
Arguments b_cloudRegionVirtual {Info}. Arguments b_model {Info}. Arguments b_modelInfo {Info}.

Section fields.
Context {Info : Type}.
Implicit Types b : modelBuilder Info.

Definition newModelBuilder : modelBuilder Info := MkBuilder None None "" [] None None None None None "" 0 false None None.

Definition with_err (e : gerror) b :=
  MkBuilder (Some e) (b_ofgaUser b) (b_name b) (b_candidates b) (b_config b) (b_owner b) (b_credential b) (b_controller b)
    (b_cloud b) (b_cloudRegion b) (b_cloudRegionID b) (b_cloudRegionVirtual b) (b_model b) (b_modelInfo b).
Definition with_candidates cs b :=
  MkBuilder (b_err b) (b_ofgaUser b) (b_name b) cs (b_config b) (b_owner b) (b_credential b) (b_controller b)
    (b_cloud b) (b_cloudRegion b) (b_cloudRegionID b) (b_cloudRegionVirtual b) (b_model b) (b_modelInfo b).
Definition with_cloud c b :=
  MkBuilder (b_err b) (b_ofgaUser b) (b_name b) (b_candidates b) (b_config b) (b_owner b) (b_credential b) (b_controller b)
    (Some c) (b_cloudRegion b) (b_cloudRegionID b) (b_cloudRegionVirtual b) (b_model b) (b_modelInfo b).
Definition with_region name id virtual b :=
  MkBuilder (b_err b) (b_ofgaUser b) (b_name b) (b_candidates b) (b_config b) (b_owner b) (b_credential b) (b_controller b)
    (b_cloud b) name id virtual (b_model b) (b_modelInfo b).
Definition with_credential c b :=
  MkBuilder (b_err b) (b_ofgaUser b) (b_name b) (b_candidates b) (b_config b) (b_owner b) (Some c) (b_controller b)
    (b_cloud b) (b_cloudRegion b) (b_cloudRegionID b) (b_cloudRegionVirtual b) (b_model b) (b_modelInfo b).
Definition with_controller c b :=
  MkBuilder (b_err b) (b_ofgaUser b) (b_name b) (b_candidates b) (b_config b) (b_owner b) (b_credential b) (Some c)
    (b_cloud b) (b_cloudRegion b) (b_cloudRegionID b) (b_cloudRegionVirtual b) (b_model b) (b_modelInfo b).
Definition with_model m b :=
  MkBuilder (b_err b) (b_ofgaUser b) (b_name b) (b_candidates b) (b_config b) (b_owner b) (b_credential b) (b_controller b)
    (b_cloud b) (b_cloudRegion b) (b_cloudRegionID b) (b_cloudRegionVirtual b) (Some m) (b_modelInfo b).
Definition with_info (i : ModelInfo Info) b : modelBuilder Info :=
  MkBuilder (b_err b) (b_ofgaUser b) (b_name b) (b_candidates b) (b_config b) (b_owner b) (b_credential b) (b_controller b)
    (b_cloud b) (b_cloudRegion b) (b_cloudRegionID b) (b_cloudRegionVirtual b) (b_model b) (Some i).

(** ** The setters that only store *)

Definition if_ok b (k : modelBuilder Info) : modelBuilder Info := match b_err b with Some _ => b | None => k end.

Definition WithOwner (owner : Identity) b := if_ok b
  (MkBuilder (b_err b) (b_ofgaUser b) (b_name b) (b_candidates b) (b_config b) (Some owner) (b_credential b) (b_controller b)
    (b_cloud b) (b_cloudRegion b) (b_cloudRegionID b) (b_cloudRegionVirtual b) (b_model b) (b_modelInfo b)).
Definition WithAuthorizer (user : User) b := if_ok b
  (MkBuilder (b_err b) (Some user) (b_name b) (b_candidates b) (b_config b) (b_owner b) (b_credential b) (b_controller b)
    (b_cloud b) (b_cloudRegion b) (b_cloudRegionID b) (b_cloudRegionVirtual b) (b_model b) (b_modelInfo b)).
Definition WithName (name : string) b := if_ok b
  (MkBuilder (b_err b) (b_ofgaUser b) name (b_candidates b) (b_config b) (b_owner b) (b_credential b) (b_controller b)
    (b_cloud b) (b_cloudRegion b) (b_cloudRegionID b) (b_cloudRegionVirtual b) (b_model b) (b_modelInfo b)).
(** The given values are written over the earlier ones, whatever the error. *)
Definition WithConfig (cfg : gmap string goany) b :=
  MkBuilder (b_err b) (b_ofgaUser b) (b_name b) (b_candidates b) (Some (cfg ∪ default ∅ (b_config b))) (b_owner b) (b_credential b)
    (b_controller b) (b_cloud b) (b_cloudRegion b) (b_cloudRegionID b) (b_cloudRegionVirtual b) (b_model b) (b_modelInfo b).

(** ** The region *)

(** The first region of the cloud that a candidate supports. *)
Definition pick_region (c : LoadedCloud) (candidates : list candidateController) : string :=
  let supported := fmap (M:=list) (fun lp => reg_Name (lp_CloudRegion lp))
    (List.filter (fun lp => bool_decide (reg_CloudName (lp_CloudRegion lp) = cl_Name (lcl_Cloud c)))
       (mjoin (fmap (M:=list) (fun cand => lc_CloudRegions (cand_controller cand)) candidates))) in
  match List.find (fun r => bool_decide (reg_Name (lr_Region r) ∈ supported)) (lcl_Regions c) with
  | Some r => reg_Name (lr_Region r)
  | None => ""
  end.

(** The candidates that serve a region, with their priority there. *)
Definition serving (r : LoadedRegion) (candidates : list candidateController) : list candidateController :=
  omap (M:=list) (fun cand =>
    (fun pc => MkCandidate (cand_controller cand) (crp_Priority pc.1)) <$>
      List.find (fun pc : CloudRegionControllerPriority * Controller =>
                   bool_decide (crp_ControllerID pc.1 = c_ID (lc_Controller (cand_controller cand)))) (lr_Controllers r)) candidates.

Definition WithCloudRegion (region : string) b := if_ok b (
  match b_cloud b with
  | None => with_err (New "cloud not specified") b
  | Some c =>
      let region := if decide (region = "") then pick_region c (b_candidates b) else region in
      let r := Cloud_Region region c in
      if decide (reg_Name (lr_Region r) = "")
      then with_err (Codef CodeNotFound "cloud region %q not found in cloud %q" [ArgS region; ArgS (cl_Name (lcl_Cloud c))]) b
      else with_candidates (serving r (b_candidates b)) (with_region region (reg_ID (lr_Region r)) (reg_Virtual (lr_Region r)) b)
  end).
End fields.

Record ModelCreateArgs := MkModelArgs {
  ma_Name : string; ma_Owner : string; ma_Config : gmap string goany; ma_Cloud : Tag; ma_CloudRegion : string;
  ma_CloudCredential : option CredTag; ma_ControllerName : string;
}.

Section ops.
Context {F : Type} `{OFGAServer F} {T : Type -> Type} `{Gorm T} {C : Type} `{Controllers C} `{JujuNames} `{Hash}.
Local Abbreviation JM := (M (JW F T C)).
Local Abbreviation MB := (modelBuilder Info).
Implicit Types (j : JujuManager) (user : User) (b : MB).

Definition unless_failed b (m : JM MB) : JM MB := match b_err b with Some _ => mret b | None => m end.
Definition fail_with (e : gerror) b : JM MB := mret (with_err e b).
(** [if err != nil { b.err = wrap(err); return b }]. *)
Definition attempt {A} (m : JM A) (wrap : gerror -> gerror) b (k : A -> JM MB) : JM MB :=
  r ← try m;
  match r with inl a => k a | inr err => fail_with (wrap err) b end.
Definition authorized b (k : User -> JM MB) : JM MB :=
  match b_ofgaUser b with None => fail_with (New "authorizer not specified") b | Some u => k u end.

(** ** Controllers *)

Definition WithController (controllerName : string) b : JM MB :=
  unless_failed b (authorized b (fun u =>
    attempt (jdb (LoadController (controllerOf controllerName "")))
      (fun err => Errorf "controller %q not found: %w" [ArgS controllerName; ArgE err]) b (fun c =>
    attempt (tag ← lift (Controller_ResourceTag (lc_Controller c)); jfga (IsAllowedAddModelToController u tag))
      (fun err => Errorf "failed to verify permissions for adding model to controller: %w" [ArgE err]) b (fun ok =>
    if (ok : bool) then mret (with_candidates (b_candidates b ++ [MkCandidate c 0]) b)
    else fail_with (Codef CodeUnauthorized "not authorized to add model to controller %q" [ArgS controllerName]) b)))).

Fixpoint allowed_controllers user (cs : list LoadedController) : JM (list candidateController) :=
  match cs with
  | [] => mret []
  | c :: cs =>
      if c_Deprecated (lc_Controller c) then allowed_controllers user cs else
      tag ← lift (Controller_ResourceTag (lc_Controller c));
      ok ← map_err (fun err => Errorf "failed to verify permissions for adding model to controller: %v" [ArgE err])
             (jfga (IsAllowedAddModelToController user tag));
      rest ← allowed_controllers user cs;
      mret (if (ok : bool) then MkCandidate c 0 :: rest else rest)
  end.

Definition WithAnyController b : JM MB :=
  unless_failed b (authorized b (fun u =>
    attempt (cs ← jdb AllControllers; allowed_controllers u cs) (fun err => err) b (fun candidates =>
    let b := with_candidates candidates b in
    match candidates with
    | [] => fail_with (New "no available controllers - check permissions to controllers and list of available controllers") b
    | _ => mret b
    end))).

(** ** The cloud *)

(** [ForEachUserCloud] with a callback that collects. *)
Fixpoint accessible user (clouds : list LoadedCloud) : JM (list LoadedCloud) :=
  match clouds with
  | [] => mret []
  | cloud :: clouds =>
      tag ← lift (Cloud_ResourceTag (lcl_Cloud cloud));
      level ← jfga (GetCloudAccess user tag);
      rest ← accessible user clouds;
      mret (if decide (Perm.ToCloudAccessString level = "") then rest else cloud :: rest)
  end.
Definition userClouds user : JM (list LoadedCloud) :=
  ctrlCount ← map_err (fun err => Errorf "cannot get count controllers: %w" [ArgE err]) (jdb CountControllers);
  if decide (ctrlCount = 0%Z) then throw (New "no controllers registered") else
  clouds ← map_err (fun err => Errorf "cannot load clouds: %w" [ArgE err]) (jdb GetClouds);
  accessible user clouds.

Definition withImplicitCloud user b : JM MB :=
  unless_failed b (attempt (userClouds user) (fun err => err) b (fun clouds =>
    match clouds with
    | [] => fail_with (New "no available clouds") b
    | [c] => mret (with_cloud c b)
    | _ => fail_with (New "no cloud specified for model; please specify one") b
    end)).

Definition supports (c : LoadedCloud) (cand : candidateController) : bool :=
  existsb (fun lp => bool_decide (reg_CloudName (lp_CloudRegion lp) = cl_Name (lcl_Cloud c))) (lc_CloudRegions (cand_controller cand)).

Definition WithCloud user (cloud : Tag) b : JM MB :=
  unless_failed b (authorized b (fun u =>
    if decide (Id cloud = "") then withImplicitCloud user b else
    attempt (jdb (LoadCloud (cloudOf (Id cloud)))) (fun err => err) b (fun c =>
    attempt (tag ← lift (Cloud_ResourceTag (lcl_Cloud c)); jfga (IsAllowedAddModelToCloud u tag))
      (fun err => Errorf "failed to verify permissions for adding model to cloud: %w" [ArgE err]) b (fun ok =>
    if (ok : bool) then mret (with_candidates (List.filter (supports c) (b_candidates b)) (with_cloud c b))
    else fail_with (Codef CodeUnauthorized "not authorized to add model to cloud %q" [ArgS (Id cloud)]) b)))).

(** ** Credentials *)

(** A failed lookup stores the error and the credential that was asked for. *)
Definition WithCloudCredential (tag : CredTag) b : JM MB :=
  unless_failed b (
    if decide ((i_Name <$> b_owner b) <> Some (ct_Owner tag))
    then fail_with (Codef CodeUnauthorized "model owner doesn't match cloud-credential owner" []) b else
    r ← try (jdb (GetCloudCredential (Credentials.SetTag tag)));
    mret (match r with
          | inl c => with_credential c b
          | inr err => with_credential (Credentials.SetTag tag)
              (with_err (Errorf "failed to fetch cloud credentials %s: %w" [ArgS (Path (Credentials.SetTag tag)); ArgE err]) b)
          end)).

(** The first credential that is not known to be invalid. *)
Definition selectCloudCredentials b : JM CloudCredential :=
  match b_owner b, b_cloud b with
  | None, _ => throw (New "user not specified")
  | _, None => throw (New "cloud not specified")
  | Some owner, Some cloud =>
      credentials ← map_err (fun err => Errorf "failed to fetch user cloud credentials: %w" [ArgE err])
        (jdb (GetIdentityCloudCredentials owner (cl_Name (lcl_Cloud cloud))));
      match List.find (fun c => negb (bool_decide (cc_Valid c = Some false))) credentials with
      | Some c => mret c
      | None => throw (New "valid cloud credentials not found")
      end
  end.

(** ** Creation *)

(** [shuffleCandidateControllers] and the choice of the first. *)
Definition selectController b : JM Controller :=
  match b_candidates b with
  | [] => match b_cloud b with
          | None => lift (Panic Models.nilPointer)
          | Some c => throw (Errorf "unsupported cloud region %s/%s - confirm access to the cloud/controller"
                               [ArgS (cl_Name (lcl_Cloud c)); ArgS (b_cloudRegion b)])
          end
  | _ => fun s => (s, match sort_desc cand_priority (rand_Shuffle (b_candidates b) (snd s)) with
                      | c :: _ => Ok (lc_Controller (cand_controller c))
                      | [] => Panic Clouds.indexOutOfRange
                      end)
  end.

Definition CreateDatabaseModel b : JM MB :=
  unless_failed b (
    if decide (b_name b = "") then fail_with (New "model name not specified") b else
    match b_owner b with
    | None => fail_with (New "owner not specified") b
    | Some owner =>
        attempt (selectController b) (fun err => err) b (fun controller =>
        let b := with_controller controller b in
        attempt (match b_credential b with Some c => mret c | None => selectCloudCredentials b end)
          (fun err => Errorf "could not select cloud credentials: %w" [ArgE err]) b (fun credential =>
        let b := with_credential credential b in
        let m := MkModel 0 (b_name b) None (i_Name owner) (c_ID controller) (b_cloudRegionID b) (cc_ID credential) "" "" in
        r ← try (jdb (db_AddModel m));
        match r with
        | inl m => mret (with_model m b)
        | inr err =>
            fail_with (if decide (ErrorCode err = CodeAlreadyExists)
                       then Codef CodeAlreadyExists "model %s/%s already exists" [ArgS (i_Name owner); ArgS (b_name b)]
                       else Errorf "failed to store model information: %w" [ArgE err]) (with_model m b)
        end))
    end).

(** The failure of the deletion is only logged. *)
Definition Cleanup b : JM unit :=
  match b_err b, b_model b with
  | Some _, Some m => _ ← try (jdb (db_DeleteModel m)); mret tt
  | _, _ => mret tt
  end.

Definition jujuModelCreateArgs b : JM CreateModelArgs :=
  if decide (b_name b = "") then throw (New "model name not specified") else
  match b_owner b with None => throw (New "model owner not specified") | Some owner =>
  match b_cloud b with None => throw (New "cloud not specified") | Some cloud =>
  if decide (b_cloudRegionID b = 0%Z) then throw (New "cloud region not specified") else
  match b_credential b with None => throw (New "credentials not specified") | Some credential =>
  tag ← lift (Credential_ResourceTag credential);
  mret (MkCreateModel (b_name b) (i_Name owner) (default ∅ (b_config b)) (cl_Name (lcl_Cloud cloud))
          (if b_cloudRegionVirtual b then "" else b_cloudRegion b) tag)
  end end end.

Definition pushCredential (api : Conn) (cred : CloudCredential) : JM unit :=
  attrs ← Models.getCloudCredentialAttributes cred;
  _ ← Models.forceUpdateControllerCloudCredential cred attrs api;
  mret tt.

Definition createModelError (err : gerror) : gerror :=
  if decide (juju_ErrCode err = CodeAlreadyExists) then Codef CodeAlreadyExists "model name in use: %w" [ArgE err]
  else if decide (juju_ErrCode err = CodeUpgradeInProgress) then Errorf "upgrade in progress: %w" [ArgE err]
  else Codef CodeBadRequest "%w" [ArgE err].

Definition CreateControllerModel j b : JM MB :=
  unless_failed b (
    match b_model b, b_controller b with
    | None, _ => fail_with (New "model not specified") b
    | _, None => lift (Panic Models.nilPointer)
    | Some _, Some controller =>
        attempt (dialControllerAsSuperuser j (b_ofgaUser b) controller) (fun err => err) b (fun api =>
        attempt (match b_credential b with Some cred => pushCredential api cred | None => mret tt end)
          (fun err => Errorf "failed to update cloud credential: %w" [ArgE err]) b (fun _ =>
        attempt (jujuModelCreateArgs b) (fun err => err) b (fun args =>
        attempt (ctl (api_CreateModel api args)) createModelError b (fun info =>
        attempt (tag ← lift (NewModelTag (mi_UUID info)); ctl (api_GrantJIMMModelAdmin api tag)) (fun err => err) b (fun _ =>
        mret (with_info info b))))))
    end).

(** [FromJujuModelInfo]: the credential is parsed, and a bad one panics. *)
Definition FromJujuModelInfo (info : ModelInfo Info) (m : Model) : outcome Model :=
  if bool_decide (mi_CloudCredential info <> "") && negb (IsValidCloudCredential (mi_CloudCredential info))
  then Panic (sprintf "%q is not a valid cloud credential tag" [ArgS (mi_CloudCredential info)])
  else Ok (MkModel (m_ID m) (mi_Name info) (Some (mi_UUID info))
             (if decide (mi_Owner info <> "") then mi_Owner info else m_OwnerIdentityName m) (m_ControllerID m) (m_CloudRegionID m)
             (m_CloudCredentialID m) (mi_Life info) (m_MigrationMode m)).

(** The owner of the row is the one of its association. *)
Definition UpdateDatabaseModel b : JM MB :=
  unless_failed b (
    match b_model b, b_modelInfo b, b_controller b, b_credential b, b_owner b with
    | Some m, Some info, Some controller, Some credential, Some owner =>
        m ← lift (FromJujuModelInfo info m);
        let m := MkModel (m_ID m) (m_Name m) (m_UUID m) (i_Name owner) (c_ID controller) (b_cloudRegionID b) (cc_ID credential)
                   (m_Life m) (m_MigrationMode m) in
        let b := with_model m b in
        attempt (jdb (db_UpdateModel m)) (fun err => Errorf "failed to store model information: %w" [ArgE err]) b (fun m =>
        mret (with_model m b))
    | _, _, _, _, _ => lift (Panic Models.nilPointer)
    end).

(** ** [AddModel] *)

(** [if err := builder.Error(); err != nil { return err }]. *)
Definition checked {A} (b : MB) (k : JM A) : JM A := match b_err b with Some err => throw err | None => k end.

Definition cloudDefaults user (cloud : LoadedCloud) (region : string) : JM (gmap string goany) :=
  r ← try (jdb (GetCloudDefaults (u_Name user) 0 (cl_Name (lcl_Cloud cloud)) region));
  match r with
  | inl d => mret (cd_Defaults d)
  | inr err => if decide (ErrorCode err = CodeNotFound) then mret ∅ else throw (New "failed to fetch cloud defaults")
  end.

(** The steps up to the reservation in the database. *)
Definition prepare user (owner : Identity) (args : ModelCreateArgs) : JM MB :=
  let b := WithName (ma_Name args) (WithAuthorizer user (WithOwner owner newModelBuilder)) in
  checked b (
  b ← (if decide (ma_ControllerName args <> "") then WithController (ma_ControllerName args) b else WithAnyController b);
  checked b (
  b ← WithCloud user (ma_Cloud args) b;
  checked b (
  let b := WithCloudRegion (ma_CloudRegion args) b in
  checked b (
  cloud ← lift (match b_cloud b with Some c => Ok c | None => Panic Models.nilPointer end);
  defaults ← cloudDefaults user cloud "";
  regionDefaults ← cloudDefaults user cloud (b_cloudRegion b);
  let b := WithConfig (ma_Config args) (WithConfig regionDefaults (WithConfig defaults b)) in
  match ma_CloudCredential args with
  | Some cred => b ← WithCloudCredential cred b; checked b (mret b)
  | None => mret b
  end)))).

(** The creation on the controller and the update of the row, before the
    deferred [Cleanup]. *)
Definition create j b : JM MB :=
  b ← CreateControllerModel j b;
  UpdateDatabaseModel b.

Definition grantOwner (owner : Identity) b : JM (ModelInfo Info) :=
  match b_modelInfo b, b_controller b with
  | Some mi, Some controller =>
      modelTag ← lift (NewModelTag (mi_UUID mi));
      controllerTag ← lift (Controller_ResourceTag controller);
      _ ← Models.addModelPermissions (NewUser owner) modelTag controllerTag;
      mret mi
  | _, _ => lift (Panic Models.nilPointer)
  end.

Definition AddModel j user (args : ModelCreateArgs) : JM (ModelInfo Info) :=
  owner ← lift (NewIdentity (ma_Owner args));
  owner ← jdb (GetIdentity owner);
  if bool_decide (i_Name owner <> u_Name user) && negb (JimmAdmin user) then throw Unauthorized else
  b ← prepare user owner args;
  b ← CreateDatabaseModel b;
  checked b (
  b ← create j b;
  _ ← Cleanup b;
  checked b (grantOwner owner b)).

End ops.

Section facts.
Context {F : Type} `{OFGALaws F} {T : Type -> Type} `{GormLaws T} {C : Type} `{Controllers C} `{JujuNames} `{Hash}.
Local Abbreviation JM := (M (JW F T C)).
Local Abbreviation MB := (modelBuilder Info).
Implicit Types (j : JujuManager) (user : User) (b : MB) (s : JW F T C).

(** ** What the builder has established, relative to the state at its start *)

Definition controller_tag (c : Controller) : Entity := ConvertTag (MkTag ControllerTagKind (c_UUID c)).
Definition cloud_tag_ (c : Cloud) : Entity := ConvertTag (MkTag CloudTagKind (cl_Name c)).

(** A controller that the user may add models to, and a cloud. *)
Definition may_use s user (lc : LoadedController) : Prop :=
  controller_loaded (w_db (fst s)) lc /\ has_access (j_tuples s) user CanAddModelRelation (controller_tag (lc_Controller lc)).
Definition may_use_cloud s user (lc : LoadedCloud) : Prop :=
  cloud_loaded (w_db (fst s)) lc /\
  (has_access (j_tuples s) user CanAddModelRelation (cloud_tag_ (lcl_Cloud lc)) \/
   has_access (j_tuples s) user AdministratorRelation (cloud_tag_ (lcl_Cloud lc))).

(** The controller serves the region. *)
Definition serves (lr : LoadedRegion) (c : Controller) : Prop :=
  exists p, p ∈ fst <$> lr_Controllers lr /\ crp_ControllerID p = c_ID c.

Definition blank user owner b : Prop :=
  b_err b = None /\ b_ofgaUser b = Some user /\ b_owner b = Some owner /\ b_model b = None.
Definition with_controllers s user owner b : Prop :=
  blank user owner b /\ Forall (fun cand => may_use s user (cand_controller cand)) (b_candidates b).
Definition with_a_cloud s user owner b : Prop :=
  with_controllers s user owner b /\ exists lc, b_cloud b = Some lc /\ may_use_cloud s user lc.
Definition with_a_region s user owner b : Prop :=
  with_controllers s user owner b /\ exists lc lr, b_cloud b = Some lc /\ may_use_cloud s user lc /\ lr ∈ lcl_Regions lc /\
    b_cloudRegionID b = reg_ID (lr_Region lr) /\ Forall (fun cand => serves lr (lc_Controller (cand_controller cand))) (b_candidates b).

(** The result of a method, when it has not failed. *)
Definition okay (P : MB -> Prop) b : Prop := b_err b = None -> P b.

Lemma attempt_finds R `{!PreOrder R} {A} (Q : A -> Prop) (P : MB -> Prop) (m : JM A) wrap b (k : A -> JM MB) s :
  wp m (finds R Q s) s -> (forall a s', R s s' -> Q a -> wp (k a) (finds R (okay P) s') s') ->
  wp (attempt m wrap b k) (finds R (okay P) s) s.
Proof.
  intros Hm Hk. unfold attempt. eapply (finds_bind R); [by apply finds_try|]. intros [a|err] s1 Hs1 HQ; [by apply Hk, HQ|].
  apply (finds_ret R). done.
Qed.
Lemma fail_finds R `{!Reflexive R} P e b s : wp (fail_with e b) (finds R (okay P) s) s.
Proof. apply (finds_ret R). done. Qed.
Lemma unless_failed_finds R (P : MB -> Prop) b (m : JM MB) s :
  b_err b = None -> wp m (finds R P s) s -> wp (unless_failed b m) (finds R P s) s.
Proof. unfold unless_failed. by intros ->. Qed.
Lemma checked_finds R `{!Reflexive R} {A} (P : MB -> Prop) (Q : A -> Prop) b (k : JM A) s :
  okay P b -> (P b -> wp k (finds R Q s) s) -> wp (checked b k) (finds R Q s) s.
Proof. intros HP Hk. unfold checked. destruct (b_err b) eqn:He; [apply (finds_throw R)|]. by apply Hk, HP. Qed.

(** ** Controllers and clouds *)

Lemma same_base s0 s s' : same s0 s -> still s s' -> same s0 s'.
Proof. intros Hs [Hs' _]. by etrans. Qed.

Lemma allowed_finds s0 s user kind id :
  same s0 s ->
  wp (tag ← lift (NewJujuTag kind id); jfga (checkRelation user tag CanAddModelRelation))
     (finds still (fun ok : bool => ok = true -> has_access (j_tuples s0) user CanAddModelRelation (ConvertTag (MkTag kind id))) s) s.
Proof.
  intros Hs. eapply (finds_bind still); [apply (finds_tag still)|]. intros t s1 Hs1 ->. eapply finds_mono; [apply finds_check|].
  intros ok Hok ->. destruct (same_base _ _ _ Hs Hs1) as [<- _]. by apply Hok.
Qed.

Lemma WithController_finds s0 s user owner name b :
  same s0 s -> with_controllers s0 user owner b ->
  wp (WithController name b) (finds still (okay (with_controllers s0 user owner)) s) s.
Proof.
  intros Hs [(He & Hu & Ho & Hm) Hc]. unfold WithController, authorized. apply (unless_failed_finds still); [done|]. rewrite Hu.
  eapply (attempt_finds still); [apply finds_jdb, LoadController_sees|]. intros lc s1 Hs1 [Hlc _].
  eapply (attempt_finds still); [apply (allowed_finds s0); by eapply same_base|]. intros ok s2 _ Hok.
  destruct ok; [|apply (fail_finds still)]. apply (finds_ret still). intros _. split; [done|]. simpl.
  apply Forall_app. split; [done|]. apply Forall_singleton. split; [|by apply Hok].
  apply (controller_loaded_tables (w_db (fst s0)) (w_db (fst s))); [apply Hs|done].
Qed.

Lemma allowed_controllers_finds s0 s user cs :
  same s0 s -> Forall (controller_loaded (w_db (fst s0))) cs ->
  wp (allowed_controllers user cs) (finds still (Forall (fun cand => may_use s0 user (cand_controller cand))) s) s.
Proof.
  intros Hs Hcs. revert s Hs. induction Hcs as [|c cs Hc Hcs IH]; intros s Hs; simpl; [by apply (finds_ret still)|].
  destruct (c_Deprecated _); [by apply IH|]. eapply (finds_bind still); [apply (finds_tag still)|]. intros t s1 Hs1 ->.
  eapply (finds_bind still); [apply finds_map_err, finds_check|]. intros ok s2 Hs2 Hok.
  assert (same s0 s1) as H1' by by eapply same_base. eapply (finds_bind still); [apply IH; by eapply same_base|]. intros rest s3 _ Hrest.
  apply (finds_ret still). destruct ok; [|done]. constructor; [|done]. split; [done|]. destruct H1' as [<- _]. by apply Hok.
Qed.

Lemma WithAnyController_finds s0 s user owner b :
  same s0 s -> with_controllers s0 user owner b ->
  wp (WithAnyController b) (finds still (okay (with_controllers s0 user owner)) s) s.
Proof.
  intros Hs [(He & Hu & Ho & Hm) Hc]. unfold WithAnyController, authorized. apply (unless_failed_finds still); [done|]. rewrite Hu.
  eapply (attempt_finds still).
  { eapply (finds_bind still); [apply finds_jdb, AllControllers_sees|]. intros cs s1 Hs1 Hcs. apply (allowed_controllers_finds s0); [by eapply same_base|].
    eapply Forall_impl; [exact Hcs|]. intros lc. apply controller_loaded_tables, Hs. }
  intros cands s1 _ Hcands. destruct cands as [|cand cands]; [apply (fail_finds still)|]. by apply (finds_ret still).
Qed.

Lemma accessible_finds s0 s user cs :
  same s0 s -> Forall (cloud_loaded (w_db (fst s0))) cs ->
  wp (accessible user cs) (finds still (Forall (may_use_cloud s0 user)) s) s.
Proof.
  intros Hs Hcs. revert s Hs. induction Hcs as [|c cs Hc Hcs IH]; intros s Hs; simpl; [by apply (finds_ret still)|].
  eapply (finds_bind still); [apply (finds_tag still)|]. intros t s1 Hs1 ->.
  eapply (finds_bind still); [apply (finds_ladder user _ [AdministratorRelation; CanAddModelRelation])|]. intros level s2 Hs2 Hl.
  assert (same s0 s1) as H1' by by eapply same_base. eapply (finds_bind still); [apply IH; by eapply same_base|]. intros rest s3 _ Hrest.
  apply (finds_ret still). case_decide as Hlv; [done|]. constructor; [|done]. split; [done|]. destruct H1' as [<- _].
  destruct Hl as [->|[Hin Hacc]]; [by destruct Hlv|]. rewrite !elem_of_cons in Hin.
  destruct Hin as [->|[->|Hin]]; [by right|by left|by apply elem_of_nil in Hin].
Qed.

Lemma userClouds_finds s0 s user :
  same s0 s -> wp (userClouds user) (finds still (Forall (may_use_cloud s0 user)) s) s.
Proof.
  intros Hs. unfold userClouds. eapply (finds_bind still); [apply finds_map_err, finds_jdb, CountControllers_sees|]. intros n s1 Hs1 _.
  case_decide; [apply (finds_throw still)|]. assert (same s0 s1) as H1' by by eapply same_base.
  eapply (finds_bind still); [apply finds_map_err, finds_jdb, GetClouds_sees|]. intros cs s2 Hs2 Hcs.
  apply (accessible_finds s0); [by eapply same_base|]. eapply Forall_impl; [exact Hcs|]. intros lc. apply cloud_loaded_tables, H1'.
Qed.

Lemma WithCloud_finds s0 s user owner tag b :
  same s0 s -> with_controllers s0 user owner b ->
  wp (WithCloud user tag b) (finds still (okay (with_a_cloud s0 user owner)) s) s.
Proof.
  intros Hs Hw. pose proof Hw as [(He & Hu & Ho & Hm) Hc]. unfold WithCloud, authorized. apply (unless_failed_finds still); [done|]. rewrite Hu.
  destruct (decide (Id tag = "")).
  - unfold withImplicitCloud. apply (unless_failed_finds still); [done|]. eapply (attempt_finds still); [by apply (userClouds_finds s0)|].
    intros [|c [|c' cs]] s1 _ Hcs; [apply (fail_finds still)| |apply (fail_finds still)]. apply (finds_ret still). intros _.
    split; [done|]. exists c. split; [done|]. by apply Forall_inv in Hcs.
  - eapply (attempt_finds still); [apply finds_jdb, LoadCloud_sees|]. intros c s1 Hs1 [Hlc Hn].
    eapply (attempt_finds still); [apply (allowed_finds s0); by eapply same_base|]. intros ok s2 _ Hok.
    destruct ok; [|apply (fail_finds still)]. apply (finds_ret still). intros _. split; [split; [done|]|].
    + simpl. apply Forall_forall. intros cand Hin. rewrite Forall_forall in Hc. apply Hc.
      apply list_elem_of_In, List.filter_In in Hin as [Hin _]. by apply list_elem_of_In.
    + exists c. split; [done|]. split; [|left; by apply Hok]. apply (cloud_loaded_tables _ (w_db (fst s))); [apply Hs|done].
Qed.

Lemma find_region name c : reg_Name (lr_Region (Cloud_Region name c)) <> "" -> Cloud_Region name c ∈ lcl_Regions c.
Proof.
  unfold Cloud_Region. destruct (List.find _ _) as [r|] eqn:Hf; [|done]. intros _. apply List.find_some in Hf as [Hin _].
  by apply list_elem_of_In.
Qed.

Lemma WithCloudRegion_ok s0 user owner region b :
  with_a_cloud s0 user owner b -> okay (with_a_region s0 user owner) (WithCloudRegion region b).
Proof.
  intros [[(He & Hu & Ho & Hm) Hc] (lc & Hb & Hlc)]. unfold WithCloudRegion, if_ok. rewrite He, Hb.
  set (name := if decide (region = "") then _ else region). destruct (decide (reg_Name _ = "")) as [|Hn]; [done|]. intros _.
  set (lr := Cloud_Region name lc) in *.
  assert (forall cand', cand' ∈ serving lr (b_candidates b) -> exists cand, cand ∈ b_candidates b /\ cand_controller cand' = cand_controller cand /\
    serves lr (lc_Controller (cand_controller cand))) as Hserving.
  { intros cand' (cand & Hin & Hf)%list_elem_of_omap. exists cand. destruct (List.find _ _) as [pc|] eqn:Hpc; [|done]. simpl in Hf. simplify_eq.
    apply List.find_some in Hpc as [Hpc Hid%bool_decide_eq_true]. split_and!; [done|done|]. exists pc.1. split; [|done].
    apply list_elem_of_fmap. exists pc. split; [done|by apply list_elem_of_In]. }
  split.
  - split; [done|]. apply Forall_forall. intros cand' (cand & Hin & -> & _)%Hserving. rewrite Forall_forall in Hc. by apply Hc.
  - exists lc, lr. split_and!; [done|done|by apply find_region|done|]. apply Forall_forall. intros cand' (cand & _ & -> & Hs)%Hserving. done.
Qed.

Lemma cloudDefaults_finds user c region s : wp (cloudDefaults user c region) (finds still (fun _ => True) s) s.
Proof.
  unfold cloudDefaults. eapply (finds_bind still); [apply finds_try, finds_jdb, GetCloudDefaults_sees|]. intros [d|err] s1 _ _; [by apply (finds_ret still)|].
  case_decide; [by apply (finds_ret still)|apply (finds_throw still)].
Qed.

Lemma WithCloudCredential_finds s0 s user owner tag b :
  with_a_region s0 user owner b -> wp (WithCloudCredential tag b) (finds still (okay (with_a_region s0 user owner)) s) s.
Proof.
  intros Hb. unfold WithCloudCredential. apply (unless_failed_finds still); [apply Hb|]. case_decide; [apply (fail_finds still)|].
  eapply (finds_bind still); [apply finds_try, finds_jdb, Models.GetCloudCredential_sees|]. intros [c|err] s1 _ _; apply (finds_ret still); [intros _; exact Hb|done].
Qed.

Lemma prepare_finds s user owner args :
  wp (prepare user owner args) (finds still (with_a_region s user owner) s) s.
Proof.
  unfold prepare. set (b0 := WithName _ _). assert (with_controllers s user owner b0) as Hb0 by (split; [done|constructor]).
  apply (checked_finds still (with_controllers s user owner)); [done|intros _].
  apply (finds_bind still (okay (with_controllers s user owner))).
  { case_decide; [by apply (WithController_finds s)|by apply (WithAnyController_finds s)]. }
  intros b1 s1 Hs1 Hb1. eapply (checked_finds still); [exact Hb1|clear Hb1; intros Hb1].
  eapply (finds_bind still); [apply (WithCloud_finds s); [apply Hs1|exact Hb1]|]. intros b2 s2 Hs2 Hb2.
  eapply (checked_finds still); [exact Hb2|clear Hb2; intros Hb2].
  eapply (checked_finds still); [by apply WithCloudRegion_ok|intros Hb3].
  pose proof Hb3 as [_ (lc & lr & Hcl & _)]. rewrite Hcl.
  apply (finds_bind still (fun _ => True)); [by apply (finds_lift still)|]. intros cl s3 _ _.
  eapply (finds_bind still); [apply cloudDefaults_finds|]. intros d1 s4 _ _.
  eapply (finds_bind still); [apply cloudDefaults_finds|]. intros d2 s5 _ _.
  set (b3 := WithCloudRegion _ b2) in *. set (b4 := WithConfig _ _). assert (with_a_region s user owner b4) as Hb4 by exact Hb3.
  destruct (ma_CloudCredential args) as [cred|]; [|by apply (finds_ret still)].
  eapply (finds_bind still); [by apply WithCloudCredential_finds|]. intros b5 s6 _ Hb5.
  eapply (checked_finds still); [exact Hb5|clear Hb5; intros Hb5]. by apply (finds_ret still).
Qed.

(** ** Creation *)

Lemma selectController_finds b s :
  wp (selectController b) (finds still (fun c => exists cand, cand ∈ b_candidates b /\ lc_Controller (cand_controller cand) = c) s) s.
Proof.
  unfold selectController. destruct (b_candidates b) as [|cand cands] eqn:Hc.
  { destruct (b_cloud b); [apply (finds_throw still)|]. by apply (finds_lift still). }
  unfold wp. destruct (sort_desc _ _) as [|c l] eqn:Hs; split_and!; try done. intros c' Hc'. apply (inj Ok) in Hc' as <-. exists c. split; [|done].
  pose proof (sort_desc_perm cand_priority (rand_Shuffle (cand :: cands) (snd s))) as Hp. rewrite Hs in Hp.
  rewrite <- (law_Shuffle (cand :: cands) (snd s)), <- Hp. by constructor.
Qed.

(** What was chosen for the model. *)
Definition chosen s0 user owner b (c : Controller) : Prop :=
  b_controller b = Some c /\ b_owner b = Some owner /\ b_ofgaUser b = Some user /\
  (exists ld, lc_Controller ld = c /\ may_use s0 user ld) /\
  exists lc lr, may_use_cloud s0 user lc /\ lr ∈ lcl_Regions lc /\ b_cloudRegionID b = reg_ID (lr_Region lr) /\ serves lr c.

Definition models_of s : list Model := rows (db_models (w_db (fst s))).

(** The model [m] is reserved as the last row. *)
Definition reserved s0 user owner b (m : Model) s : Prop :=
  b_model b = Some m /\ models_of s = models_of s0 ++ [m] /\ Models.models_ok (w_db (fst s)) /\ exists c, chosen s0 user owner b c.

Lemma candidate_chosen s0 user owner b b' cand :
  with_a_region s0 user owner b -> cand ∈ b_candidates b ->
  b_controller b' = Some (lc_Controller (cand_controller cand)) -> b_owner b' = b_owner b -> b_ofgaUser b' = b_ofgaUser b ->
  b_cloudRegionID b' = b_cloudRegionID b -> chosen s0 user owner b' (lc_Controller (cand_controller cand)).
Proof.
  intros [[(_ & Hu & Ho & _) Hc] (lc & lr & _ & Hlc & Hlr & Hid & Hserv)] Hin Hb' Ho' Hu' Hid'.
  rewrite Forall_forall in Hc, Hserv. split_and!; [done|congruence|congruence|by exists (cand_controller cand); split; [|apply Hc]|].
  exists lc, lr. split_and!; [done|done|congruence|by apply Hserv].
Qed.

Lemma selectCloudCredentials_finds b s : wp (selectCloudCredentials b) (finds still (fun _ => True) s) s.
Proof.
  unfold selectCloudCredentials. destruct (b_owner b), (b_cloud b); try apply (finds_throw still).
  eapply (finds_bind still); [apply finds_map_err, finds_jdb, GetIdentityCloudCredentials_sees|]. intros cs s1 _ _.
  destruct (List.find _ _); [by apply (finds_ret still)|apply (finds_throw still)].
Qed.

(** Up to the insertion nothing changes. *)
Definition reserve_post s0 user owner (o : outcome MB) s : Prop :=
  o <> OutOfFuel /\ j_tuples s = j_tuples s0 /\
  ((models_of s = models_of s0 /\ forall b, o = Ok b -> b_err b <> None) \/
   exists b m, o = Ok b /\ b_err b = None /\ reserved s0 user owner b m s).

Lemma reserve_same s0 user owner (o : outcome MB) s :
  o <> OutOfFuel -> same s0 s -> (forall b, o = Ok b -> b_err b <> None) -> reserve_post s0 user owner o s.
Proof.
  intros Ho [HT Ht] Hb. split_and!; [done|done|left]. split; [|done]. by destruct (tables_eq _ _ Ht) as (_ & _ & Hm & _).
Qed.

Lemma attempt_reserve {A} (Q : A -> Prop) (m : JM A) wrap b (k : A -> JM MB) s0 user owner s :
  same s0 s -> wp m (finds still Q s) s ->
  (forall a s', same s0 s' -> Q a -> wp (k a) (reserve_post s0 user owner) s') ->
  wp (attempt m wrap b k) (reserve_post s0 user owner) s.
Proof.
  intros Hs Hm Hk. unfold attempt. eapply wp_finds_bind; [by apply finds_try|..].
  - intros [a|err] s1 Hs1 HQ; [apply Hk; [by eapply same_base|by apply HQ]|]. wp_value. apply reserve_same; [done|by eapply same_base|].
    intros b' Hb'. by apply (inj Ok) in Hb' as <-.
  - intros o s1 Ha Hs1 Hn. apply reserve_same; [done|by eapply same_base|]. intros b' ->. by destruct (Hn b').
Qed.

Lemma fail_reserve s0 user owner e b s : same s0 s -> wp (fail_with e b) (reserve_post s0 user owner) s.
Proof. intros Hs. wp_value. apply reserve_same; [done|done|]. intros b' Hb'. by apply (inj Ok) in Hb' as <-. Qed.

Lemma CreateDatabaseModel_wp s0 s user owner b :
  same s0 s -> Models.models_ok (w_db (fst s0)) -> with_a_region s0 user owner b ->
  wp (CreateDatabaseModel b) (reserve_post s0 user owner) s.
Proof.
  intros Hs Hok Hb. pose proof Hb as [[(He & Hu & Ho & Hm) Hc] _]. unfold CreateDatabaseModel, unless_failed. rewrite He, Ho.
  destruct (decide (b_name b = "")); [by apply fail_reserve|].
  eapply attempt_reserve; [done|apply selectController_finds|]. intros c s1 Hs1 (cand & Hcand & <-).
  eapply (attempt_reserve (fun _ => True)); [done| |].
  { simpl. destruct (b_credential b); [by apply (finds_ret still)|apply selectCloudCredentials_finds]. }
  intros cred s2 [HT2 Ht2] _. set (b2 := with_credential _ _). set (m0 := MkModel _ _ _ _ _ _ _ _ _).
  destruct (tables_eq _ _ Ht2) as (_ & _ & Hrows & _).
  apply wp_bind, wp_try, wp_jdb. eapply wp_mono; [apply db_AddModel_wp; rewrite Hrows; apply Hok|]. intros o d (Ha & Hap & Hrow).
  assert (forall (o : outcome MB) b', rows (db_models d) = rows (db_models (w_db (fst s2))) -> o <> OutOfFuel -> (forall b, o = Ok b -> b_err b <> None) ->
    reserve_post s0 user owner o (MkWorld (w_fga (fst s2)) d, snd s2)) as Hfail.
  { intros o' b' Hr Ho' Hb'. split_and!; [done|done|left]. split; [|done]. unfold models_of. simpl. congruence. }
  destruct o as [m|err|x|]; cbn [bind_post].
  - wp_value. split_and!; [done|done|right]. exists (with_model m b2), m. split_and!; [done|done|]. rewrite Hrows in Hrow.
    destruct Hrow as ((i & now & Hi & Hm') & Hrow & Huni). split_and!; [done|done|split; [done|]|].
    + simpl. rewrite Hrow. apply Forall_app. split; [apply Hok|]. apply Forall_singleton. by subst m.
    + eexists. by eapply (candidate_chosen s0 user owner b).
  - wp_value. apply (Hfail _ b2); [done|done|]. intros b' Hb'. by apply (inj Ok) in Hb' as <-.
  - by apply (Hfail _ b2).
  - done.
Qed.

(** The steps on the controller only add the information it returns. *)
Definition kept b b' : Prop :=
  b_model b' = b_model b /\ b_controller b' = b_controller b /\ b_owner b' = b_owner b /\ b_ofgaUser b' = b_ofgaUser b /\
  b_cloudRegionID b' = b_cloudRegionID b /\ b_credential b' = b_credential b.

Lemma attempt_keeps {A} (m : JM A) wrap b (k : A -> JM MB) s :
  wp m (finds same (fun _ => True) s) s -> (forall a s', wp (k a) (finds same (kept b) s') s') ->
  wp (attempt m wrap b k) (finds same (kept b) s) s.
Proof.
  intros Hm Hk. unfold attempt. eapply (finds_bind same); [by apply finds_try|]. intros [a|err] s1 Hs1 _; [apply Hk|]. by apply (finds_ret same).
Qed.

Lemma pushCredential_finds api cred s : wp (pushCredential api cred) (finds same (fun _ => True) s) s.
Proof.
  unfold pushCredential. eapply (finds_bind same); [apply finds_still, Credentials.getCloudCredentialAttributes_finds|]. intros attrs s1 _ _.
  apply (finds_bind same (fun _ => True)); [|intros; by apply (finds_ret same)]. unfold Models.forceUpdateControllerCloudCredential.
  eapply (finds_bind same); [by apply (finds_lift same (fun _ => True)); [apply NewJujuTag_answered|]|]. intros t s2 _ _.
  eapply (finds_bind same); [apply finds_ctl|]. intros [|r out] s3 _ _; [by apply (finds_ret same)|].
  destruct (ur_Error r); [apply (finds_throw same)|by apply (finds_ret same)].
Qed.

Lemma jujuModelCreateArgs_finds b s : wp (jujuModelCreateArgs b) (finds same (fun _ => True) s) s.
Proof.
  unfold jujuModelCreateArgs. case_decide; [apply (finds_throw same)|].
  destruct (b_owner b); [|apply (finds_throw same)]. destruct (b_cloud b); [|apply (finds_throw same)].
  destruct (decide (b_cloudRegionID b = 0%Z)); [apply (finds_throw same)|]. destruct (b_credential b); [|apply (finds_throw same)].
  eapply (finds_bind same); [by apply (finds_lift same (fun _ => True)); [apply NewJujuTag_answered|]|]. intros. by apply (finds_ret same).
Qed.

Lemma CreateControllerModel_finds j b s : wp (CreateControllerModel j b) (finds same (kept b) s) s.
Proof.
  unfold CreateControllerModel, unless_failed. destruct (b_err b); [by apply (finds_ret same)|].
  destruct (b_model b), (b_controller b); try (by apply (finds_ret same)); [|by apply (finds_lift same)].
  apply attempt_keeps; [apply finds_dial|]. intros api s1. apply attempt_keeps.
  { destruct (b_credential b); [apply pushCredential_finds|by apply (finds_ret same)]. }
  intros _ s2. apply attempt_keeps; [apply jujuModelCreateArgs_finds|]. intros args s3. apply attempt_keeps; [apply finds_ctl|].
  intros info s4. apply attempt_keeps; [|intros; by apply (finds_ret same)].
  eapply (finds_bind same); [apply (finds_tag same)|]. intros t s5 _ _. apply finds_ctl.
Qed.

(** The row of the new model, when everything went well. *)
Definition described s0 user owner b (mi : ModelInfo Info) (m : Model) : Prop :=
  b_modelInfo b = Some mi /\ m_UUID m = Some (mi_UUID mi) /\ m_Name m = mi_Name mi /\ m_OwnerIdentityName m = i_Name owner /\
  m_CloudRegionID m = b_cloudRegionID b /\ exists c, chosen s0 user owner b c /\ m_ControllerID m = c_ID c.

(** After the creation: a described row, or the reserved row and an error. *)
Definition create_post s0 user owner (m : Model) (o : outcome MB) s : Prop :=
  o <> OutOfFuel /\ j_tuples s = j_tuples s0 /\ Models.models_ok (w_db (fst s)) /\
  ((models_of s = models_of s0 ++ [m] /\ forall b, o = Ok b -> b_err b <> None /\ exists m', b_model b = Some m' /\ m_ID m' = m_ID m) \/
   exists b mi m', o = Ok b /\ b_err b = None /\ models_of s = models_of s0 ++ [m'] /\ described s0 user owner b mi m').

Lemma replaced_last (m m' : Model) l :
  unique_rows (l ++ [m]) -> m_ID m' = m_ID m -> Models.replaced m' (l ++ [m]) = l ++ [m'].
Proof.
  intros [Hnd _] Hid. unfold Models.replaced. rewrite fmap_app. simpl. rewrite decide_True by done. f_equal.
  rewrite fmap_app in Hnd. apply NoDup_app in Hnd as (_ & Hd & _).
  etrans; [|apply list_fmap_id]. apply list_fmap_ext. intros i x Hx. simpl. rewrite decide_False; [done|].
  intros Heq. apply (Hd (m_ID x)); [apply list_elem_of_fmap; exists x; split; [done|by eapply list_elem_of_lookup_2]|].
  simpl. rewrite Heq, Hid. by constructor.
Qed.

Lemma UpdateDatabaseModel_wp s0 s user owner b m :
  j_tuples s = j_tuples s0 -> reserved s0 user owner b m s ->
  wp (UpdateDatabaseModel b) (create_post s0 user owner m) s.
Proof.
  intros HT (Hbm & Hrows & Hok & c & Hch). pose proof Hch as (Hbc & Hbo & _).
  assert (forall o : outcome MB, o <> OutOfFuel -> (forall b, o = Ok b -> b_err b <> None /\ exists m', b_model b = Some m' /\ m_ID m' = m_ID m) ->
    create_post s0 user owner m o s) as Hstop.
  { intros o Ho Hb. split_and!; [done|done|done|]. left. by split. }
  unfold UpdateDatabaseModel, unless_failed. destruct (b_err b) eqn:He.
  { wp_value. apply Hstop; [done|]. intros b' Hb'. apply (inj Ok) in Hb' as <-. split; [by rewrite He|]. by exists m. }
  rewrite Hbm, Hbc, Hbo. destruct (b_modelInfo b) as [info|] eqn:Hi; [|wp_value; by apply Hstop].
  destruct (b_credential b) as [cred|] eqn:Hcr; [|wp_value; by apply Hstop].
  apply wp_bind. wp_value. unfold FromJujuModelInfo. destruct (_ && _); cbn [bind_post]; [by apply Hstop|]. simpl.
  set (m1 := MkModel (m_ID m) _ _ _ _ _ _ _ _). set (b1 := with_model m1 b).
  apply wp_bind, wp_try, wp_jdb. eapply wp_mono; [apply Models.UpdateModel_replaces; [done|]|].
  { change (m_ID m1) with (m_ID m). fold (models_of s). rewrite Hrows, fmap_app. apply elem_of_app. right. by constructor. }
  intros o d (Ha & Hap & Ho). fold (models_of s) in Ho. rewrite Hrows in Ho. destruct o as [r|err|x|]; cbn [bind_post].
  - destruct Ho as (-> & Hd & Hok'). rewrite replaced_last in Hd; [|rewrite <- Hrows; apply Hok|done]. wp_value.
    split_and!; [done|done|done|]. right. exists (with_model m1 b1), info, m1. split_and!; [done|done|done|]. split_and!; [done..|]. by exists c.
  - wp_value. split_and!; [done|done|unfold Models.models_ok; simpl; rewrite Ho, <- Hrows; apply Hok|]. left. split; [done|].
    intros b' Hb'. apply (inj Ok) in Hb' as <-. split; [done|]. by exists m1.
  - split_and!; [done|done|unfold Models.models_ok; simpl; rewrite Ho, <- Hrows; apply Hok|]. by left.
  - done.
Qed.

Lemma reserved_same s0 user owner b b' m s s' :
  same s s' -> kept b b' -> reserved s0 user owner b m s -> reserved s0 user owner b' m s'.
Proof.
  intros Hs (Hm & Hc & Ho & Hu & Hid & _) (Hbm & Hrows & Hok & c & Hch). split_and!; [congruence| |by apply (Models.models_ok_same s)|].
  - destruct Hs as [_ Ht]. destruct (tables_eq _ _ Ht) as (_ & _ & H1' & _). unfold models_of in *. congruence.
  - exists c. unfold chosen in *. by rewrite Hc, Ho, Hu, Hid.
Qed.

Lemma create_wp j s0 s user owner b m :
  j_tuples s = j_tuples s0 -> reserved s0 user owner b m s -> wp (create j b) (create_post s0 user owner m) s.
Proof.
  intros HT Hres. unfold create. eapply wp_finds_bind; [apply CreateControllerModel_finds|..].
  - intros b' s1 Hs1 Hk. apply UpdateDatabaseModel_wp; [destruct Hs1; congruence|by eapply reserved_same].
  - intros o s1 Ha Hs1 Hn. destruct (reserved_same s0 user owner b b m s s1 Hs1) as (_ & Hrows & Hok & _); [done|done|].
    split_and!; [done|destruct Hs1; congruence|done|]. left. split; [done|]. intros b' ->. by destruct (Hn b').
Qed.

Lemma Cleanup_wp s0 s b m m' :
  b_err b <> None -> b_model b = Some m' -> m_ID m' = m_ID m -> Models.models_ok (w_db (fst s)) -> models_of s = models_of s0 ++ [m] ->
  wp (Cleanup b) (fun o s' => o <> OutOfFuel /\ j_tuples s' = j_tuples s /\
    (models_of s' = models_of s0 \/ models_of s' = models_of s0 ++ [m])) s.
Proof.
  intros He Hbm Hid [[Hnd _] Hnz] Hrows. unfold Cleanup. destruct (b_err b); [|done]. rewrite Hbm.
  apply wp_bind, wp_try, wp_jdb. eapply wp_mono; [apply db_DeleteModel_wp|]. intros o d [Ha Hd].
  assert (match o with Ok _ => models_of (MkWorld (w_fga (fst s)) d, snd s) = models_of s0 \/ models_of (MkWorld (w_fga (fst s)) d, snd s) = models_of s0 ++ [m]
          | _ => models_of (MkWorld (w_fga (fst s)) d, snd s) = models_of s0 ++ [m] end) as Hcase.
  { destruct o as [[]|e|x|]; [|by rewrite <- Hrows; destruct (tables_eq _ _ Hd) as (_ & _ & ? & _)..].
    destruct Hd as (_ & Hd & _). fold (models_of s) in Hd, Hnd, Hnz. unfold models_of at 1 3. simpl. rewrite Hd. rewrite Hrows in Hd, Hnd, Hnz |- *.
    rewrite filter_app. assert (filter (fun x => deletes m' x = false) (models_of s0) = models_of s0) as ->.
    { apply list_filter_all_on. intros x Hx. unfold deletes, by_key. rewrite Hid.
      rewrite fmap_app in Hnd. apply NoDup_app in Hnd as (_ & Hnd & _). apply Forall_app in Hnz as [_ Hnz%Forall_inv].
      rewrite bool_decide_eq_false_2 by exact Hnz. rewrite bool_decide_eq_false_2; [done|]. intros Heq.
      apply (Hnd (m_ID x)); [by apply list_elem_of_fmap; exists x|]. simpl. rewrite Heq. by constructor. }
    destruct (decide (deletes m' m = false)); [right; by rewrite filter_cons_True|left]. rewrite filter_cons_False by done. by rewrite app_nil_r. }
  destruct o as [[]|e|x|]; cbn [bind_post]; try wp_value; split_and!; try done; auto.
Qed.

(** ** Permissions *)

Definition model_edges (c : Controller) (ut : Tag) (mi : ModelInfo Info) : gset Tuple :=
  {[grant_edge (MkTag ControllerTagKind (c_UUID c)) (MkTag ModelTagKind (mi_UUID mi)) ControllerRelation;
    grant_edge ut (MkTag ModelTagKind (mi_UUID mi)) AdministratorRelation]}.

Lemma grantOwner_wp owner b mi c s :
  b_modelInfo b = Some mi -> b_controller b = Some c ->
  wp (grantOwner owner b) (fun o s' => o <> OutOfFuel /\ w_db (fst s') = w_db (fst s) /\ j_tuples s ⊆ j_tuples s' /\
    forall mi', o = Ok mi' -> mi' = mi /\ exists ut, Identity_ResourceTag owner = Ok ut /\ j_tuples s' = j_tuples s ∪ model_edges c ut mi) s.
Proof.
  intros Hi Hc. unfold grantOwner. rewrite Hi, Hc. unfold Models.addModelPermissions, AddControllerModel, SetModelAccess, setAccess.
  assert (forall o : outcome (ModelInfo Info), o <> OutOfFuel -> (forall mi', o <> Ok mi') -> o <> OutOfFuel /\ w_db (fst s) = w_db (fst s) /\
    j_tuples s ⊆ j_tuples s /\ forall mi', o = Ok mi' -> mi' = mi /\ exists ut, Identity_ResourceTag owner = Ok ut /\ j_tuples s = j_tuples s ∪ model_edges c ut mi)
    as Hstop by (intros o Ho Hn; split_and!; [done|done|done|]; intros mi' ->; by destruct (Hn mi')).
  apply wp_bind. wp_value. unfold NewModelTag, Controller_ResourceTag, NewControllerTag, NewJujuTag.
  destruct (ValidTagId ModelTagKind _); cbn [bind_post]; [|by apply Hstop]. apply wp_bind. wp_value.
  destruct (ValidTagId ControllerTagKind _); cbn [bind_post]; [|by apply Hstop]. apply wp_bind, wp_bind, wp_jfga.
  eapply wp_mono; [apply setResourceAccess_wp|]. intros o f [Ha HT]. destruct o as [[]|e|x|]; cbn [bind_post].
  2-4: (split_and!; [apply Ha || done|done|unfold j_tuples, Perm.w_tuples; simpl; rewrite HT; done|by intros]).
  apply wp_jfga. simpl. apply wp_bind. wp_value. pose proof (NewUserTag_answered (i_Name owner)) as Hua. unfold Identity_ResourceTag.
  destruct (NewUserTag (i_Name owner)) as [ut|e|x|]; cbn [bind_post].
  2-4: (split_and!; [apply Hua || done|done|unfold j_tuples, Perm.w_tuples; simpl; rewrite HT; set_solver|by intros]).
  eapply wp_mono; [apply setResourceAccess_wp|]. intros o f2 [Ha2 HT2]. rewrite HT in HT2. destruct o as [[]|e|x|]; cbn [bind_post].
  - wp_value. split_and!; [done|done|unfold j_tuples, Perm.w_tuples; simpl; rewrite HT2; set_solver|]. intros mi' Hmi. apply (inj Ok) in Hmi as <-.
    split; [done|]. exists ut. split; [done|]. unfold j_tuples, Perm.w_tuples, model_edges. simpl. rewrite HT2. set_solver.
  - split_and!; [done|done|unfold j_tuples, Perm.w_tuples; simpl; rewrite HT2; set_solver|by intros].
  - split_and!; [done|done|unfold j_tuples, Perm.w_tuples; simpl; rewrite HT2; set_solver|by intros].
  - done.
Qed.

(** ** [AddModel] *)

(** The new model of a user: who owns it, where it runs and why it may. *)
Definition placed s user (args : ModelCreateArgs) (mi : ModelInfo Info) s' : Prop :=
  exists owner m c ut,
    (exists i, NewIdentity (ma_Owner args) = Ok i /\ i_Name owner = i_Name i) /\
    (i_Name owner = u_Name user \/ JimmAdmin user = true) /\
    models_of s' = models_of s ++ [m] /\ m_UUID m = Some (mi_UUID mi) /\ m_OwnerIdentityName m = i_Name owner /\ m_ControllerID m = c_ID c /\
    (exists ld, lc_Controller ld = c /\ may_use s user ld) /\
    (exists lc lr, may_use_cloud s user lc /\ lr ∈ lcl_Regions lc /\ m_CloudRegionID m = reg_ID (lr_Region lr) /\ serves lr c) /\
    Identity_ResourceTag owner = Ok ut /\ j_tuples s' = j_tuples s ∪ model_edges c ut mi.

Definition add_model_post user (args : ModelCreateArgs) s (o : outcome (ModelInfo Info)) s' : Prop :=
  o <> OutOfFuel /\ j_tuples s ⊆ j_tuples s' /\
  (models_of s' = models_of s \/ exists m, models_of s' = models_of s ++ [m]) /\
  forall mi, o = Ok mi -> placed s user args mi s'.

Lemma may_use_apart s s1 user ld lc :
  j_tuples s1 = j_tuples s -> apart_identities (w_db (fst s1)) = apart_identities (w_db (fst s)) ->
  (may_use s1 user ld -> may_use s user ld) /\ (may_use_cloud s1 user lc -> may_use_cloud s user lc).
Proof.
  intros HT Hap. unfold may_use, may_use_cloud, controller_loaded, cloud_loaded, region_loaded. rewrite HT. clear HT.
  unfold apart_identities in Hap. generalize dependent (w_db (fst s1)). intros d1 Hap. all_tables. done.
Qed.

Lemma failed_post user args s s' (o : outcome (ModelInfo Info)) :
  o <> OutOfFuel -> j_tuples s' = j_tuples s -> (models_of s' = models_of s \/ exists m, models_of s' = models_of s ++ [m]) ->
  (forall mi, o <> Ok mi) -> add_model_post user args s o s'.
Proof. intros Ho HT Hm Hn. split_and!; [done|by rewrite HT|done|]. intros mi ->. by destruct (Hn mi). Qed.

(** The last steps, from the reservation on. *)
Lemma finish_wp j s s1 s2 user args owner b :
  j_tuples s1 = j_tuples s -> apart_identities (w_db (fst s1)) = apart_identities (w_db (fst s)) ->
  (exists i, NewIdentity (ma_Owner args) = Ok i /\ i_Name owner = i_Name i) -> (i_Name owner = u_Name user \/ JimmAdmin user = true) ->
  (exists m, reserved s1 user owner b m s2) -> j_tuples s2 = j_tuples s1 ->
  wp (b ← create j b; _ ← Cleanup b; checked b (grantOwner owner b)) (add_model_post user args s) s2.
Proof.
  intros HT1 Hap Hown Hauth [m Hres] HT2. assert (models_of s1 = models_of s) as Hms.
  { unfold models_of. unfold apart_identities in Hap. congruence. }
  apply wp_bind. eapply wp_mono; [by apply (create_wp j s1)|]. intros o s3 (Ho & HT3 & Hok & Hcase).
  destruct Hcase as [[Hrows Hb]|(b' & mi & m' & -> & He & Hrows & Hdesc)]; rewrite Hms in Hrows.
  - assert (forall (o : outcome (ModelInfo Info)), o <> OutOfFuel -> (forall mi, o <> Ok mi) -> add_model_post user args s o s3) as Hstop.
    { intros o' Ho' Hn. apply failed_post; [done|congruence|by right; exists m|done]. }
    destruct o as [b'|e|x|]; cbn [bind_post]; [|by apply Hstop..].
    destruct (Hb b' eq_refl) as (He & m' & Hbm & Hid). apply wp_bind.
    eapply wp_mono; [apply (Cleanup_wp s s3 b' m m'); done|]. intros o s4 (Ho4 & HT4 & Hm4).
    assert (forall (o : outcome (ModelInfo Info)), o <> OutOfFuel -> (forall mi, o <> Ok mi) -> add_model_post user args s o s4) as Hstop'.
    { intros o' Ho' Hn. apply failed_post; [done|congruence| |done]. destruct Hm4; [by left|right; by exists m]. }
    destruct o as [[]|e|x|]; cbn [bind_post]; [|by apply Hstop'..]. unfold checked. destruct (b_err b'); [|done]. wp_value. by apply Hstop'.
  - cbn [bind_post]. unfold Cleanup, checked. rewrite He. apply wp_bind. wp_value.
    destruct Hdesc as (Hi & Huuid & _ & Hown' & Hreg & c & Hch & Hcid). pose proof Hch as (Hbc & _ & _ & (ld & Hld & Huse) & lc & lr & Hcl & Hlr & Hid & Hserv).
    destruct (may_use_apart s s1 user ld lc HT1 Hap) as [HA HB].
    eapply wp_mono; [by apply (grantOwner_wp owner b' mi c)|]. intros o s4 (Ho4 & Hd4 & Hsub & Hres4).
    assert (models_of s4 = models_of s ++ [m']) as Hm4 by (unfold models_of; rewrite Hd4; done).
    assert (j_tuples s3 = j_tuples s) as HT by congruence. rewrite HT in Hsub. split_and!; [done|done|right; by exists m'|].
    intros mi' Hmi. destruct (Hres4 mi' Hmi) as (-> & ut & Hut & HT'). exists owner, m', c, ut. rewrite <- HT.
    split_and!; [done|done|done|done|done|done|exists ld; split; [done|by apply HA]| |done|done].
    exists lc, lr. split_and!; [by apply HB|done|congruence|done].
Qed.

(** C19.  Adding a model never gets stuck, removes no tuple and changes no
    other model: it adds at most one row.  When it succeeds, that row is the
    new model, owned by the caller or, for a JIMM administrator, by the given
    owner; it is on a controller and in a region of a cloud that the caller
    may add models to, the controller serves the region, and the new tuples are
    the model's link to its controller and the owner's administration. *)
Theorem AddModel_placed j user args s s' o :
  unique_rows (rows (db_identities (w_db (fst s)))) -> Models.models_ok (w_db (fst s)) ->
  AddModel j user args s = (s', o) -> add_model_post user args s o s'.
Proof.
  intros Hu Hok Hrun. refine (wp_elim _ (add_model_post user args s) _ _ _ _ Hrun). clear Hrun s' o. unfold AddModel.
  assert (forall o : outcome (ModelInfo Info), o <> OutOfFuel -> (forall mi, o <> Ok mi) -> add_model_post user args s o s) as Hstop.
  { intros o Ho Hn. apply failed_post; [done|done|by left|done]. }
  apply wp_bind. wp_value. destruct (NewIdentity (ma_Owner args)) as [i|e|x|] eqn:Hi; cbn [bind_post]; [|by apply Hstop..|].
  2: { unfold NewIdentity in Hi. by case_decide. }
  apply wp_bind, wp_jdb. eapply wp_mono; [by apply GetIdentity_keeps|]. intros o d (Ha & Hap & _ & Hname).
  set (s1 := (MkWorld (w_fga (fst s)) d, snd s)). assert (models_of s1 = models_of s) as Hms.
  { unfold models_of. unfold apart_identities in Hap. simpl. congruence. }
  assert (forall (o : outcome (ModelInfo Info)) s', o <> OutOfFuel -> j_tuples s' = j_tuples s1 -> models_of s' = models_of s1 -> (forall mi, o <> Ok mi) ->
    add_model_post user args s o s') as Hstop1.
  { intros o' s' Ho' HT Hm Hn. apply failed_post; [done|done|left; congruence|done]. }
  destruct o as [owner|e|x|]; cbn [bind_post]; [|by apply Hstop1..|done].
  destruct (bool_decide (i_Name owner <> u_Name user) && negb (JimmAdmin user)) eqn:Hauth; [wp_value; by apply Hstop1|].
  assert (i_Name owner = u_Name user \/ JimmAdmin user = true) as Hauth'.
  { apply andb_false_iff in Hauth as [Hn%bool_decide_eq_false|Hn%negb_false_iff]; [left; by destruct (decide (i_Name owner = u_Name user))|by right]. }
  assert (forall s', same s1 s' -> j_tuples s' = j_tuples s1 /\ models_of s' = models_of s1) as Hsame.
  { intros s' [HT Ht]. split; [done|]. by destruct (tables_eq _ _ Ht) as (_ & _ & ? & _). }
  eapply wp_finds_bind; [apply prepare_finds|..].
  2: { intros o s' Ha' [Hs _] Hn. apply Hsame in Hs as [? ?]. by apply Hstop1. }
  intros b s2 [Hs2 _] Hb. apply wp_bind. eapply wp_mono; [apply (CreateDatabaseModel_wp s1); [done| |exact Hb]|].
  { unfold Models.models_ok. fold (models_of s1). rewrite Hms. done. }
  intros o s3 (Ho & HT3 & [[Hm3 Herr]|(b' & m & -> & Hb' & Hres)]).
  - destruct o as [b'|e|x|]; cbn [bind_post]; [|by apply Hstop1..]. unfold checked. destruct (b_err b') eqn:He; [|by destruct (Herr b' eq_refl)].
    wp_value. by apply Hstop1.
  - cbn [bind_post]. unfold checked. rewrite Hb'. apply (finish_wp j s s1 s3); [done|done|by exists i; split; [|apply Hname]|done|by exists m|done].
Qed.

End facts.

End Builder.
