(* ===== verification/JujuControllers.v ===== *)
(** * JujuControllers: controllers and the migration of models between them
    ([internal/jimm/juju/controller.go], [jimm.go], [types.go],
    [dbmodel/controller.go]).

    Adding a controller is a transaction on the database between a dialogue
    with the controller and the new tuples; removing one is a transaction on
    the database.  The migration mode of a model is a small state machine:
    [initiateMigration] takes a model that is in no migration into one and
    brings it back when the controller refuses. *)

From Stdlib Require Import Ascii.
From S2P Require Import Prelude Errors GoStrings Regexp Names AuthModel RefServer OpenFGA Dbmodel Users Database TagResolver Access JujuDb CloudDb JujuBase JujuModels ControllerDb JujuOffers JujuClouds JujuCredentials ModelBuilder.

Module Ctl.

(** ** Descriptions of controllers ([dbmodel/controller.go]) *)

Record ControllerInfo := MkControllerInfo {
  ci_Name : string; ci_UUID : string; ci_PublicAddress : string; ci_APIAddresses : list string; ci_CACertificate : string;
  ci_CloudTag : string; ci_CloudRegion : string; ci_AgentVersion : string; ci_Status : string; ci_Since : option Z;
}.

(** [net.JoinHostPort] and [strconv.Itoa]. *)
Definition JoinHostPort (host : string) (port : Z) : string :=
  if Contains host ":" then "[" +:+ host +:+ "]:" +:+ pretty port else host +:+ ":" +:+ pretty port.

(** [ControllerConnectionDetails] *)
Record ConnectionDetails := MkDetails {
  dt_ControllerUUID : string; dt_CACertificate : string; dt_PublicAddress : string; dt_TLSHostname : string;
  dt_Addresses : list (list (string * Z));
}.
Definition toControllerConnectionDetails (c : Controller) : ConnectionDetails :=
  MkDetails (c_UUID c) (c_CACertificate c) (c_PublicAddress c) (c_TLSHostname c) (c_Addresses c).

Record ControllerCreds := MkCreds { AdminIdentityName : string; AdminPassword : string }.

(** [apiparams.ModelControllerInfo] *)
Record ModelControllerInfo := MkModelController {
  mc_ModelName : string; mc_ModelUUID : string; mc_ControllerName : string; mc_ControllerUUID : string;
}.
Definition model_controller (lm : LoadedModel) : ModelControllerInfo :=
  MkModelController (m_Name (lm_Model lm)) (default "" (m_UUID (lm_Model lm))) (c_Name (lm_Controller lm)) (c_UUID (lm_Controller lm)).

Section info.
Context `{JujuNames}.

Definition ToControllerInfo (c : Controller) : outcome ControllerInfo :=
  cloudTag ← NewCloudTag (c_CloudName c);
  Ok (MkControllerInfo (c_Name c) (c_UUID c) (c_PublicAddress c)
        (fmap (M:=list) (fun hp => JoinHostPort hp.1 hp.2) (mjoin (c_Addresses c))) (c_CACertificate c)
        (TagString cloudTag) (c_CloudRegion c) (c_AgentVersion c)
        (match c_UnavailableSince c with
         | Some _ => "unavailable"
         | None => if c_Deprecated c then "deprecated" else "available"
         end) (c_UnavailableSince c)).

(** A pending bootstrap; the record of the details is the same. *)
Definition Bootstrap_ToControllerInfo (b : ControllerBootstrap) : outcome ControllerInfo :=
  cloudTag ← (if decide (cb_CloudName b <> "") then t ← NewCloudTag (cb_CloudName b); Ok (TagString t) else Ok "");
  Ok (MkControllerInfo (cb_Name b) "" "" [] "" cloudTag (cb_CloudRegion b) "" "bootstrapping" None).
End info.

Section ops.
Context {F : Type} `{OFGAServer F} {T : Type -> Type} `{Gorm T} {C : Type} `{Controllers C} `{JujuNames} `{Hash}.
Implicit Types (j : JujuManager) (user : User) (mt : Tag).
Local Abbreviation JM := (M (JW F T C)).
Local Abbreviation DM := (M (Db T)).

(** ** Adding a controller *)

Definition convertJujuCloudsToDbClouds (clouds : list (Tag * JujuCloud)) : list LoadedCloud :=
  (fun tc => Clouds.with_cloud_Name (Id tc.1) (Clouds.FromJujuCloud tc.2 Clouds.zeroLoadedCloud)) <$> clouds.

(** The transactor ([addControllerTransactor]). *)
Definition addCloud (jujuCloud : LoadedCloud) : DM LoadedCloud :=
  r ← try (LoadCloud (lcl_Cloud jujuCloud));
  match r with
  | inl cloud => mret cloud
  | inr err =>
      if decide (ErrorCode err <> CodeNotFound) then throw err else
      r ← try (AddCloud jujuCloud);
      match r with
      | inl cloud => mret cloud
      | inr err => if decide (ErrorCode err <> CodeAlreadyExists) then throw err else mret jujuCloud
      end
  end.

Definition addCloudRegions (cloud : LoadedCloud) (regions : list LoadedRegion) : DM unit :=
  for_range regions (fun lr =>
    let reg := lr_Region lr in
    if decide (reg_ID (lr_Region (Cloud_Region (reg_Name reg) cloud)) <> 0%Z) then mret tt else
    _ ← AddCloudRegion (MkRegion (reg_ID reg) (cl_Name (lcl_Cloud cloud)) (reg_Name reg) (reg_Endpoints reg) (reg_Config reg) (reg_Virtual reg));
    mret tt).

(** The entries that are appended to [CloudRegions]: the key of the region and
    the priority. *)
Definition setCloudRegionControllerPriorities (c : Controller) (cloud : LoadedCloud) (regions : list LoadedRegion) : list (Z * Z) :=
  (fun cr =>
     let reg := Cloud_Region (reg_Name (lr_Region cr)) cloud in
     (reg_ID (lr_Region reg),
      if decide (cl_Name (lcl_Cloud cloud) = c_CloudName c /\ reg_Name (lr_Region cr) = c_CloudRegion c)
      then CloudRegionControllerPriorityDeployed else CloudRegionControllerPrioritySupported)) <$> regions.

Definition controllerExists (name : string) : gerror := Codef CodeAlreadyExists "controller %q already exists" [ArgS name].
Definition bootstrapping (name : string) : gerror := Codef CodeInProgress "controller %q is bootstrapping" [ArgS name].

(** The reserved name belongs to the job that runs the code. *)
Definition claimReservation (jobID : option Z) (name : string) : DM unit :=
  r ← try (GetControllerBootstrap (bootstrapOf name));
  match r with
  | inl reservation =>
      if bool_decide (is_Some jobID) && bool_decide (is_Some (cb_JobID reservation)) && bool_decide (cb_JobID reservation = jobID)
      then DeleteControllerBootstrap reservation
      else throw (bootstrapping name)
  | inr err => if decide (ErrorCode err <> CodeNotFound) then throw err else mret tt
  end.

Definition addOneCloud (c : Controller) (jujuCloud : LoadedCloud) : DM (list (Z * Z)) :=
  addedCloud ← addCloud jujuCloud;
  _ ← addCloudRegions addedCloud (lcl_Regions jujuCloud);
  addedCloud ← LoadCloud (lcl_Cloud addedCloud);
  mret (setCloudRegionControllerPriorities c addedCloud (lcl_Regions jujuCloud)).

(** A controller of this name, as an error. *)
Definition absent (name : string) : DM unit :=
  r ← try (GetController (controllerOf name ""));
  match r with
  | inl _ => throw (controllerExists name)
  | inr err => if decide (ErrorCode err <> CodeNotFound) then throw err else mret tt
  end.

Definition Run (jobID : option Z) (jujuClouds : list LoadedCloud) (c : Controller) : DM Controller :=
  _ ← absent (c_Name c);
  _ ← claimReservation jobID (c_Name c);
  regions ← map_range jujuClouds (addOneCloud c);
  CloudDb.AddController c (mjoin regions).

Definition addControllerTx (jobID : option Z) (jujuClouds : list LoadedCloud) (c : Controller) : JM Controller :=
  jdb (Transaction (Run jobID jujuClouds c)).

(** A cloud without regions gets a virtual one. *)
Definition defaultRegion (cloud : LoadedCloud) : LoadedCloud :=
  match lcl_Regions cloud with
  | [] => MkLoadedCloud (lcl_Cloud cloud)
            [MkLoadedRegion (MkRegion 0 (cl_Name (lcl_Cloud cloud)) "default" noEndpoints None true) zeroCloud []]
  | _ => cloud
  end.
Definition with_CloudRegion (cloudName region : string) (c : Controller) : Controller :=
  MkController (c_ID c) (c_Name c) (c_UUID c) (c_AgentVersion c) (c_CACertificate c) (c_PublicAddress c) (c_TLSHostname c)
    cloudName region (c_Deprecated c) (c_Addresses c) (c_UnavailableSince c).

(** The checks before the controller is contacted; a bootstrap job skips
    them. *)
Definition nameIsFree (jobID : option Z) (name : string) : JM unit :=
  match jobID with
  | Some _ => mret tt
  | None =>
      _ ← jdb (absent name);
      r ← try (jdb (GetControllerBootstrap (bootstrapOf name)));
      match r with
      | inl _ => throw (bootstrapping name)
      | inr err => if decide (ErrorCode err <> CodeNotFound) then throw err else mret tt
      end
  end.

(** Errors of the authorisation service are logged. *)
Definition controllerPermissions j (specName : string) (clouds : list LoadedCloud) (c : Controller) : JM unit :=
  _ ← for_range clouds (fun cloud =>
    _ ← (if decide (cl_Name (lcl_Cloud cloud) = specName) then
           tag ← lift (Cloud_ResourceTag (lcl_Cloud cloud));
           _ ← try (jfga (SetCloudAccess everyoneUser tag CanAddModelRelation));
           mret tt
         else mret tt);
    tag ← lift (Cloud_ResourceTag (lcl_Cloud cloud));
    controllerTag ← lift (Controller_ResourceTag c);
    _ ← try (jfga (AddCloudController tag controllerTag));
    mret tt);
  controllerTag ← lift (Controller_ResourceTag c);
  _ ← try (jfga (OpenFGA.AddController (jm_resourceTag j) controllerTag));
  mret tt.

(** What the controller says of itself, and the clouds that it knows. *)
Definition describe (api : Conn) (c : Controller) : JM (string * list LoadedCloud * Controller) :=
  '(specName, specRegion) ← map_err (fun err => Errorf "failed to get model summary: %v" [ArgE err]) (ctl (api_CloudSpec api));
  clouds ← map_err (fun err => Errorf "failed to fetch controller clouds: %w" [ArgE err]) (ctl (api_Clouds api));
  let dbClouds := convertJujuCloudsToDbClouds clouds in
  let virtual := existsb (fun cloud => bool_decide (lcl_Regions cloud = []) && bool_decide (cl_Name (lcl_Cloud cloud) = specName)) dbClouds in
  mret (specName, defaultRegion <$> dbClouds, with_CloudRegion specName (if virtual then "default" else specRegion) c).

Definition AddController_ j (jobID : option Z) user (c : Controller) (creds : ControllerCreds) : JM unit :=
  _ ← nameIsFree jobID (c_Name c);
  api ← map_err (fun err => Errorf "failed to dial the controller: %v" [ArgE err]) (dialControllerAsSuperuser j (Some user) c);
  '(specName, dbClouds, c) ← describe api (dialed api c);
  _ ← map_err (fun err => Errorf "failed to store controller credentials: %w" [ArgE err])
        (ctl (cs_PutControllerCredentials (c_Name c) (AdminIdentityName creds) (AdminPassword creds)));
  c ← map_err (fun err => if decide (ErrorCode err = CodeAlreadyExists) then controllerExists (c_Name c)
                          else Errorf "failed to add controller: %w" [ArgE err])
        (addControllerTx jobID dbClouds c);
  controllerPermissions j specName dbClouds c.

(** ** Information on controllers ([jimm.go]) *)

Definition permissionCheckFailed : gerror := New "error checking user permissions for controller".

Definition ControllerInfo_ user (name : string) : JM Controller :=
  c ← jdb (GetController (controllerOf name ""));
  tag ← lift (Controller_ResourceTag c);
  canAddModel ← map_err (fun _ => permissionCheckFailed) (jfga (IsAllowedAddModelToController user tag));
  if (canAddModel : bool) then mret c else throw Unauthorized.

Definition ControllerModelCount (c : Controller) : JM Z :=
  models ← jdb (GetModelsByController c);
  mret (Z.of_nat (length models)).

Definition GetControllerBootstrap_ (name : string) : JM ControllerBootstrap := jdb (GetControllerBootstrap (bootstrapOf name)).
Definition ListControllerBootstraps_ : JM (list ControllerBootstrap) := jdb ListControllerBootstraps.

(** A controller whose check fails is left out. *)
Fixpoint visible_controllers user (cs : list LoadedController) : JM (list Controller) :=
  match cs with
  | [] => mret []
  | c :: cs =>
      tag ← lift (Controller_ResourceTag (lc_Controller c));
      r ← try (jfga (IsAllowedAddModelToController user tag));
      rest ← visible_controllers user cs;
      mret (match r with inl true => lc_Controller c :: rest | _ => rest end)
  end.
Definition ListControllers user : JM (list Controller) :=
  controllers ← jdb AllControllers;
  visible_controllers user controllers.

Definition with_Deprecated (b : bool) (c : Controller) : Controller :=
  MkController (c_ID c) (c_Name c) (c_UUID c) (c_AgentVersion c) (c_CACertificate c) (c_PublicAddress c) (c_TLSHostname c)
    (c_CloudName c) (c_CloudRegion c) b (c_Addresses c) (c_UnavailableSince c).

Definition SetControllerDeprecated user (controllerName : string) (deprecated : bool) : JM unit :=
  if negb (JimmAdmin user) then throw Unauthorized else
  _ ← jdb (Transaction (
    c ← GetController (controllerOf controllerName "");
    UpdateController (with_Deprecated deprecated c)));
  mret tt.

(** The caller is checked by the facade. *)
Definition RemoveController (controllerName : string) (force : bool) : JM unit :=
  jdb (Transaction (
    c ← GetController (controllerOf controllerName "");
    models ← GetModelsByController c;
    if bool_decide (models <> []) && negb force then throw (Codef CodeStillAlive "controller still has models" []) else
    _ ← for_range models (fun m => db_DeleteModel m);
    DeleteController c)).

Definition FullModelStatus j user mt (patterns : list string) : JM Info :=
  if negb (JimmAdmin user) then throw Unauthorized else
  lm ← jdb (LoadModel (Models.SetTag mt));
  api ← dialModelAsService j (lm_Controller lm) mt;
  ctl (api_Status api patterns).

Definition ControllerConfig j user (controllerName : string) : JM Info :=
  controller ← getControllerByName controllerName;
  api ← dialControllerAsSuperuser j (Some user) controller;
  ctl (api_ControllerConfig api).

Definition ControllerDetailsForModel (modelUUID : string) : JM ConnectionDetails :=
  lm ← map_err (fun err => if decide (ErrorCode err = CodeNotFound) then Codef CodeNotFound "migrating model %q not found" [ArgS modelUUID] else err)
         (jdb (LoadModel (modelOf "" (Some modelUUID) "")));
  mret (toControllerConnectionDetails (lm_Controller lm)).

(** The qualifier is the model that the lookup starts from. *)
Definition ModelControllerInfo_ user (model : Model) : JM ModelControllerInfo :=
  if bool_decide (m_UUID model = None) && (bool_decide (m_OwnerIdentityName model = "") || bool_decide (m_Name model = ""))
  then throw (Codef CodeBadRequest "either model uuid or both model name and owner must be provided" []) else
  lm ← jdb (LoadModel model);
  tag ← lift (Model_ResourceTag (lm_Model lm));
  ok ← map_err (fun _ => New "error checking user permissions for model") (jfga (IsModelAdmin user tag));
  if (ok : bool) then mret (model_controller lm) else throw Unauthorized.

Definition ListModelControllerInfo user : JM (list ModelControllerInfo) :=
  uuids ← map_err (fun err => Errorf "failed to list user models: %w" [ArgE err]) (jfga (ListModels user ReaderRelation));
  if decide (uuids = []) then mret [] else
  models ← map_err (fun err => Errorf "failed to get models by uuid: %w" [ArgE err]) (jdb (GetModelsByUUID uuids));
  mret (model_controller <$> models).

(** ** Importing a model that is already on a controller *)

(** [modelImporter]: the row that is built, the description of the model, its
    owner and its offers. *)
Record modelImporter := MkImporter {
  im_model : Model; im_controller : Controller; im_owner : Identity; im_modelInfo : ModelInfo Info;
  im_originalOwner : Tag; im_offersToAdd : list (OfferDetails Info);
}.

Definition fetchModelInfo j user (controllerName : string) mt : JM modelImporter :=
  controller ← getControllerByName controllerName;
  api ← map_err (fun err => Errorf "failed to dial the controller: %w" [ArgE err]) (dialControllerAsSuperuser j (Some user) controller);
  info ← ctl (api_ModelInfo api mt);
  originalOwner ← lift (NewUserTag (mi_Owner info));
  offers ← ctl (api_ListApplicationOffers api [MkOfferFilter (Id originalOwner) (mi_Name info) ""]);
  m ← lift (Builder.FromJujuModelInfo info zeroModel);
  mret (MkImporter (Models.with_migration (m_MigrationMode m) (c_ID controller) m) controller zeroIdentity info originalOwner offers).

Definition with_Owner (owner : string) (m : Model) : Model :=
  MkModel (m_ID m) (m_Name m) (m_UUID m) owner (m_ControllerID m) (m_CloudRegionID m) (m_CloudCredentialID m) (m_Life m) (m_MigrationMode m).
Definition with_Region (id : Z) (m : Model) : Model :=
  MkModel (m_ID m) (m_Name m) (m_UUID m) (m_OwnerIdentityName m) (m_ControllerID m) id (m_CloudCredentialID m) (m_Life m) (m_MigrationMode m).
Definition with_im_model (m : Model) (i : modelImporter) : modelImporter :=
  MkImporter m (im_controller i) (im_owner i) (im_modelInfo i) (im_originalOwner i) (im_offersToAdd i).

Definition setModelOwner (i : modelImporter) : JM modelImporter :=
  if IsLocal (im_originalOwner i) then throw (New "cannot import model from local user") else
  owner ← jdb (GetIdentity (Identity_SetTag zeroIdentity (im_originalOwner i)));
  mret (MkImporter (with_Owner (i_Name owner) (im_model i)) (im_controller i) owner (im_modelInfo i) (im_originalOwner i) (im_offersToAdd i)).

Definition importPermissions (i : modelImporter) : JM unit :=
  controllerTag ← lift (Controller_ResourceTag (im_controller i));
  modelTag ← lift (Model_ResourceTag (im_model i));
  _ ← Models.addModelPermissions (NewUser (im_owner i)) modelTag controllerTag;
  for_range (im_offersToAdd i) (fun offer =>
    offerTag ← lift (NewApplicationOfferTag (od_OfferUUID offer));
    jfga (AddModelApplicationOffer modelTag offerTag)).

Definition setCloudCredential (i : modelImporter) : JM modelImporter :=
  let id := mi_CloudCredential (im_modelInfo i) in
  if decide (id = "") then throw (Codef CodeNotFound "model has no cloud credential configured" []) else
  if negb (IsValidCloudCredential id) then throw (Codef CodeBadRequest "invalid model cloud credential %q" [ArgS id]) else
  let tag := CloudCredentialTag id in
  c ← map_err (fun err => if decide (ErrorCode err = CodeNotFound)
                          then Codef CodeNotFound "Failed to find cloud credential %q for user %s on cloud %s"
                                 [ArgS (ct_Name tag); ArgS (ct_Owner tag); ArgS (ct_Cloud tag)]
                          else err)
        (jdb (GetCloudCredential (Credentials.SetTag tag)));
  mret (with_im_model (Models.with_CloudCredential (cc_ID c) (im_model i)) i).

Definition setModelCloud (i : modelImporter) : JM modelImporter :=
  cloud ← jdb (LoadCloud (cloudOf (mi_Cloud (im_modelInfo i))));
  let region := mi_CloudRegion (im_modelInfo i) in
  cr ← (if decide (region <> "") then
          let cr := Cloud_Region region cloud in
          if decide (reg_Name (lr_Region cr) <> region) then throw (New "cloud region not found") else mret cr
        else match lcl_Regions cloud with
             | [cr] => mret cr
             | l => throw (Errorf "expected one cloud region, found %d" [ArgD (Z.of_nat (length l))])
             end);
  mret (with_im_model (with_Region (reg_ID (lr_Region cr)) (im_model i)) i).

(** The function of the transaction writes through the manager's own handle:
    what it wrote stays when it fails. *)
Definition save (i : modelImporter) : JM unit :=
  _ ← jdb ready;
  m ← map_err (fun err => if decide (ErrorCode err = CodeAlreadyExists)
                          then Codef CodeAlreadyExists "model %q already exists" [ArgS (m_Name (im_model i))] else err)
        (jdb (db_AddModel (im_model i)));
  for_range (im_offersToAdd i) (fun offer =>
    _ ← map_err (fun err => if decide (ErrorCode err = CodeAlreadyExists)
                            then Codef CodeAlreadyExists "offer with URL %s already exists" [ArgS (od_OfferURL offer)] else err)
          (jdb (AddApplicationOffer (MkOffer 0 (m_ID m) (od_OfferName offer) (od_OfferUUID offer) (od_OfferURL offer))));
    mret tt).

Definition ImportModel j user (controllerName : string) mt (newOwner : string) : JM unit :=
  _ ← checkJimmAdmin user;
  if decide (newOwner <> "") then throw (Codef CodeBadRequest "switching the imported model owner is no longer supported" []) else
  i ← fetchModelInfo j user controllerName mt;
  i ← setModelOwner i;
  _ ← importPermissions i;
  i ← setCloudCredential i;
  i ← setModelCloud i;
  save i.

(** ** Migrations *)

Definition UpdateMigratedModel j user mt (targetControllerName : string) : JM unit :=
  if negb (JimmAdmin user) then throw Unauthorized else
  lm ← map_err (fun err => if decide (ErrorCode err = CodeNotFound) then Codef CodeModelNotFound "model not found" [] else err)
         (jdb (LoadModel (Models.SetTag mt)));
  targetController ← map_err (fun err => if decide (ErrorCode err = CodeNotFound) then controllerNotFound else err)
         (jdb (GetController (controllerOf targetControllerName "")));
  api ← dialControllerAsService j targetController;
  _ ← ctl (api_ModelInfo api mt);
  _ ← map_err (fun err => Errorf "failed to update model: %w" [ArgE err])
        (jdb (db_UpdateModel (Models.InternalMigrationSuccess (c_ID targetController) (lm_Model lm))));
  mret tt.

Definition badRequest {A} : JM A -> JM A := map_err (fun err => Codef CodeBadRequest "%w" [ArgE err]).

(** The transaction that enters the migration. *)
Definition enterMigration mt (internalMigration : bool) : DM LoadedModel :=
  Transaction (
    lm ← LoadModel (Models.SetTag mt);
    if decide (m_MigrationMode (lm_Model lm) <> MigrationModeNone)
    then throw (Errorf "model is already in migration mode %q" [ArgS (m_MigrationMode (lm_Model lm))]) else
    m ← db_UpdateModel (if internalMigration then Models.SetInternalMigration (lm_Model lm) else Models.SetExternalMigration (lm_Model lm));
    mret (MkLoaded m (lm_Owner lm) (lm_Controller lm) (lm_Region lm) (lm_Cloud lm) (lm_Credential lm))).

(** [rollbackMigrationMode]: a failure is logged. *)
Definition rollbackMigrationMode (m : Model) : JM unit :=
  _ ← try (jdb (db_UpdateModel (Models.MigrationFailed m)));
  mret tt.

(** A step whose failure brings the mode back. *)
Definition or_rollback {A} (m : Model) (step : JM A) (wrap : gerror -> gerror) : JM A :=
  r ← try step;
  match r with
  | inl a => mret a
  | inr err => _ ← rollbackMigrationMode m; throw (wrap err)
  end.

(** The result is the identifier of the migration. *)
Definition initiateMigration j user (spec : MigrationSpec) (internalMigration : bool) : JM string :=
  mt ← badRequest (lift (ParseTagOfKind ModelTagKind (sp_ModelTag spec)));
  isAdministrator ← map_err (fun err => Codef CodeOpenFGARequestFailed "%w" [ArgE err]) (jfga (IsAdministrator user mt));
  if negb isAdministrator then throw Unauthorized else
  targetControllerTag ← badRequest (lift (ParseTagOfKind ControllerTagKind (mt_ControllerTag (sp_TargetInfo spec))));
  targetUserTag ← badRequest (lift (ParseTagOfKind UserTagKind (mt_AuthTag (sp_TargetInfo spec))));
  targetMacaroons ← (if decide (mt_Macaroons (sp_TargetInfo spec) = "") then mret None else
    ms ← map_err (fun _ => Codef CodeBadRequest "failed to unmarshal macaroons" []) (lift (of_sum (json_Macaroons (mt_Macaroons (sp_TargetInfo spec)))));
    mret (Some ms));
  lm ← map_err (fun err => Errorf "failed to update the model's migration mode: %v" [ArgE err])
         (jdb (enterMigration mt internalMigration));
  api ← or_rollback (lm_Model lm) (dialControllerAsService j (lm_Controller lm))
          (fun err => Errorf "failed to dial the controller: %w" [ArgE err]);
  or_rollback (lm_Model lm) (ctl (client_InitiateMigration api
    (MkClientSpec (Id mt) (Id targetControllerTag) (mt_ControllerAlias (sp_TargetInfo spec)) (mt_Addrs (sp_TargetInfo spec))
       (mt_CACert (sp_TargetInfo spec)) (Id targetUserTag) (mt_Password (sp_TargetInfo spec)) targetMacaroons))) (fun err => err).

Definition InitiateMigration j user (spec : MigrationSpec) : JM string := initiateMigration j user spec false.

Definition fillMigrationTarget (controllerName : string) : JM (MigrationTargetInfo * Z) :=
  c ← map_err (fun err => if decide (ErrorCode err = CodeNotFound) then controllerNotFound
                          else Errorf "failed to get controller with name %q: %w" [ArgS controllerName; ArgE err])
        (jdb (GetController (controllerOf controllerName "")));
  '(adminUser, adminPass) ← ctl_read (cs_GetControllerCredentials controllerName);
  if bool_decide (adminUser = "") || bool_decide (adminPass = "") then throw (New "missing target controller credentials") else
  info ← lift (ToControllerInfo c);
  controllerTag ← lift (Controller_ResourceTag c);
  userTag ← lift (NewUserTag adminUser);
  mret (MkTarget (TagString controllerTag) (c_Name c) (ci_APIAddresses info) (c_CACertificate c) (TagString userTag) adminPass "", c_ID c).

(** [uuid.Parse] decides whether the text is a UUID or an owner and a name. *)
Definition namedModel `{UUIDParse} (modelNameOrUUID : string) : outcome Model :=
  if uuid_Parse modelNameOrUUID then Ok (modelOf "" (Some modelNameOrUUID) "") else
  match split_char "/"%char modelNameOrUUID with
  | [owner; name] =>
      if negb (IsValidUser owner) then Err (New "invalid user name") else
      if negb (IsValidModelName name) then Err (New "invalid model name") else Ok (modelOf name None owner)
  | _ => Err (New "invalid model target")
  end.

Definition InitiateInternalMigration `{UUIDParse} j user (modelNameOrUUID targetController : string) : JM string :=
  '(migrationTarget, _) ← fillMigrationTarget targetController;
  m ← lift (namedModel modelNameOrUUID);
  lm ← jdb (LoadModel m);
  tag ← lift (Model_ResourceTag (lm_Model lm));
  initiateMigration j user (MkSpec (TagString tag) migrationTarget) true.

Definition PrepareModelMigration user (modelUUID targetControllerName : string) (userMapping : gmap string string) : JM string :=
  _ ← map_err (fun err => Errorf "failed to add incoming model migration details: %w" [ArgE err])
    (jdb (Transaction (
      c ← GetController (controllerOf targetControllerName "");
      r ← try (LoadModel (modelOf "" (Some modelUUID) ""));
      match r with
      | inl _ => throw (New "model migration for the specified model is already in progress/completed")
      | inr err =>
          if decide (ErrorCode err <> CodeNotFound) then throw err
          else AddOrUpdateIncomingModelMigration (MkMigration 0 0 (Some modelUUID) (c_ID c) userMapping)
      end)));
  map_err (fun err => Errorf "failed to generate migration token: %w" [ArgE err]) (ctl (NewMigrationToken (u_Name user) [])).

(** ** Versions *)

(** The zero version is [None]. *)
Definition EarliestControllerVersion `{JujuVersion} : JM (option Number) :=
  controllers ← jdb AllControllers;
  mret (foldl (fun (v : option Number) c =>
    if decide (c_AgentVersion (lc_Controller c) = "") then v else
    match version_Parse (c_AgentVersion (lc_Controller c)) with
    | Ok n => match v with Some m => if (version_Compare n m <? 0)%Z then Some n else v | None => Some n end
    | _ => v
    end) None controllers).

Definition ListMigrationTargets `{JujuVersion} mt : JM (list Controller) :=
  lm ← jdb (LoadModel (Models.SetTag mt));
  currentVersion ← lift (version_Parse (c_AgentVersion (lm_Controller lm)));
  region ← jdb (FindRegionByCloudName (reg_CloudName (lm_Region lm)) (reg_Name (lm_Region lm)));
  candidates ← lift (mapM (fun pc : CloudRegionControllerPriority * Controller =>
    v ← version_Parse (c_AgentVersion pc.2); Ok (pc.2, v)) (lr_Controllers region));
  mret (fmap (M:=list) fst (List.filter (fun cv : Controller * Number =>
    bool_decide (c_ID (lm_Controller lm) <> c_ID cv.1) && (version_Compare currentVersion cv.2 <=? 0)%Z) candidates)).

End ops.

Section facts.
Context {F : Type} `{OFGALaws F} {T : Type -> Type} `{GormLaws T} {C : Type} `{Controllers C} `{JujuNames} `{Hash}.
Implicit Types (s : JW F T C) (d : Db T) (j : JujuManager) (user : User) (mt : Tag).

(** ** Entering a migration *)

Definition entered (internalMigration : bool) (m : Model) : Model :=
  if internalMigration then Models.SetInternalMigration m else Models.SetExternalMigration m.
Lemma entered_ID b m : m_ID (entered b m) = m_ID m.
Proof. by destruct b. Qed.

(** The model of the tag, in no migration before, is in one now. *)
Definition in_migration (b : bool) mt m d d' : Prop :=
  m ∈ rows (db_models d) /\ m_UUID m = Some (Id mt) /\ m_MigrationMode m = MigrationModeNone /\
  apart_models d' = apart_models d /\ rows (db_models d') = Models.replaced (entered b m) (rows (db_models d)).

Lemma enterMigration_wp mt b d :
  Models.models_ok d ->
  wp (enterMigration mt b) (fun o d' => answered o /\
    match o with
    | Ok lm => exists m, lm_Model lm = entered b m /\ in_migration b mt m d d' /\ Models.models_ok d'
    | _ => tables d' = tables d
    end) d.
Proof.
  intros Hok. unfold enterMigration, Transaction. apply wp_ready; [|done]. intros _ _. apply wp_rollback.
  apply wp_bind. eapply wp_mono; [apply LoadModel_sees|]. intros [lm|e|x|] d1 [[Ha Ht] Hlm]; cbn [bind_post]; [|done..].
  destruct (Hlm lm eq_refl) as [[Hin _] Hu]. case_decide as Hmode; [by wp_value|].
  destruct (tables_eq _ _ Ht) as (_ & _ & Hm & _).
  assert (Models.models_ok d1) as Hok1 by (unfold Models.models_ok; by rewrite Hm).
  apply wp_bind. fold (entered b (lm_Model lm)). eapply wp_mono; [apply Models.UpdateModel_replaces; [done|]|].
  { rewrite entered_ID, Hm. by apply list_elem_of_fmap_2 with (f := m_ID) in Hin. }
  intros o d2 (Ha2 & Hap & Ho). rewrite (apart_models_tables _ _ Ht) in Hap. destruct o as [r|e|x|]; cbn [bind_post]; [|done..].
  destruct Ho as (-> & Hr & Hok2). wp_value. split; [done|]. exists (lm_Model lm). split; [done|]. split; [|done].
  rewrite Hm in Hr. split_and!; [done|by apply Hu| |done|done].
  destruct (decide (m_MigrationMode (lm_Model lm) = MigrationModeNone)); [done|by destruct Hmode].
Qed.

Lemma replaced_self m (l : list Model) : unique_rows l -> m ∈ l -> Models.replaced m l = l.
Proof.
  intros Hu Hin. etrans; [|apply list_fmap_id]. apply list_fmap_ext. intros i x Hx. simpl. case_decide as Hd; [|done].
  apply list_elem_of_lookup in Hin as [k Hk]. destruct Hu as [Hnd _].
  assert (i = k) as <-; [|congruence]. apply (NoDup_lookup (m_ID <$> l) i k (m_ID m)); [done| |].
  - by rewrite list_lookup_fmap, Hx; simpl; f_equal.
  - by rewrite list_lookup_fmap, Hk.
Qed.

(** After the rows of [s0] have changed to those of [s], nothing else has. *)
Definition migrating b mt m s0 s : Prop :=
  j_tuples s = j_tuples s0 /\ in_migration b mt m (w_db (fst s0)) (w_db (fst s)) /\ Models.models_ok (w_db (fst s)).

(** The mode is brought back: the tables are those before the migration,
    unless the database refuses the update. *)
Lemma rollbackMigrationMode_wp b mt m s0 s :
  Models.models_ok (w_db (fst s0)) -> migrating b mt m s0 s ->
  wp (rollbackMigrationMode (entered b m)) (fun o s' => o <> OutOfFuel /\ j_tuples s' = j_tuples s0 /\
    (same s0 s' \/ in_migration b mt m (w_db (fst s0)) (w_db (fst s')))) s.
Proof.
  intros [Hu0 _] (HT & (Hin & Hu & Hmode & Hap & Hrows) & Hok). unfold rollbackMigrationMode.
  assert (Models.MigrationFailed (entered b m) = m) as ->.
  { unfold Models.MigrationFailed, entered, Models.SetInternalMigration, Models.SetExternalMigration, Models.with_migration.
    destruct m; simpl in *. subst. by destruct b. }
  apply wp_bind, wp_try, wp_jdb. eapply wp_mono; [apply Models.UpdateModel_replaces; [done|]|].
  { rewrite Hrows, Models.replaced_key. by apply list_elem_of_fmap_2 with (f := m_ID) in Hin. }
  intros o d (Ha & Hap' & Ho). assert (apart_models d = apart_models (w_db (fst s0))) as Hap0 by congruence.
  destruct o as [r|e|x|]; cbn [bind_post]; try wp_value; (split; [done|]; split; [exact HT|]).
  - left. split; [exact HT|]. destruct Ho as (_ & Hr & _). rewrite Hrows, Models.replaced_twice, replaced_self in Hr; [|done|done|by rewrite entered_ID].
    unfold j_tables, tables. unfold apart_models in Hap0. cbn [w_db fst]. congruence.
  - right. split_and!; [done..|]. etrans; [exact Ho|exact Hrows].
  - right. split_and!; [done..|]. etrans; [exact Ho|exact Hrows].
  - done.
Qed.

Lemma or_rollback_wp {A} b mt m (step : M (JW F T C) A) wrap s0 s :
  Models.models_ok (w_db (fst s0)) -> migrating b mt m s0 s -> wp step (finds same (fun _ => True) s) s ->
  wp (or_rollback (entered b m) step wrap) (fun o s' => j_tuples s' = j_tuples s0 /\
    match o with
    | Ok _ => migrating b mt m s0 s'
    | _ => same s0 s' \/ in_migration b mt m (w_db (fst s0)) (w_db (fst s'))
    end) s.
Proof.
  intros Hok0 Hmig Hstep. unfold or_rollback. apply wp_bind, wp_try. eapply wp_mono; [exact Hstep|].
  assert (forall s1, same s s1 -> migrating b mt m s0 s1) as Hsame.
  { intros s1 [HT Ht]. destruct Hmig as (HT0 & (Hin & Hu & Hmode & Hap & Hrows) & Hok). destruct (tables_eq _ _ Ht) as (_ & _ & Hm & _).
    split_and!; [by rewrite HT| |by apply (Models.models_ok_same s)]. split_and!; [done..| |by rewrite Hm].
    by rewrite (apart_models_tables _ _ Ht). }
  intros o s1 (Ha & Hs1 & _). destruct (Hsame s1 Hs1) as (HT1 & Hin1 & Hok1). destruct o as [a|e|x|]; cbn [bind_post].
  - wp_value. split; [done|]. by split_and!.
  - apply wp_bind. eapply wp_mono; [by apply (rollbackMigrationMode_wp b mt m s0)|]. intros o s2 (Hne & HT2 & Hor).
    destruct o; cbn [bind_post]; try wp_value; done.
  - split; [done|by right].
  - done.
Qed.

Lemma wp_lift_bind {W A B} (o : outcome A) (k : A -> M W B) Q (s : W) :
  (forall a, o = Ok a -> wp (k a) Q s) -> (forall o', (forall b, o' <> Ok b) -> Q o' s) -> wp (lift o ≫= k) Q s.
Proof. intros Hk Hn. apply wp_bind. wp_value. destruct o; cbn [bind_post]; auto. Qed.

Lemma wp_map_lift_bind {W A B} f (o : outcome A) (k : A -> M W B) Q (s : W) :
  (forall a, o = Ok a -> wp (k a) Q s) -> (forall o', (forall b, o' <> Ok b) -> Q o' s) -> wp (map_err f (lift o) ≫= k) Q s.
Proof. intros Hk Hn. apply wp_bind, wp_map_err. wp_value. destruct o; cbn [bind_post]; auto. Qed.

Definition migration_post user (spec : MigrationSpec) (b : bool) s (o : outcome string) s' : Prop :=
  j_tuples s' = j_tuples s /\
  ((same s s' /\ forall id, o <> Ok id) \/
   exists mt m, ParseTagOfKind ModelTagKind (sp_ModelTag spec) = Ok mt /\
     has_access (j_tuples s) user AdministratorRelation (ConvertTag mt) /\
     in_migration b mt m (w_db (fst s)) (w_db (fst s'))).


(** ** Removing a controller *)

Definition remove_post (controllerName : string) (force : bool) s (o : outcome unit) s' : Prop :=
  let d := w_db (fst s) in
  o <> OutOfFuel /\ j_tuples s' = j_tuples s /\ snd s' = snd s /\
  ((same s s' /\ o <> Ok tt) \/
   exists c d1, c ∈ rows (db_controllers d) /\ c_Name c = controllerName /\
     (force = false -> Forall (fun m => m_ControllerID m <> c_ID c) (rows (db_models d))) /\
     deleted_models (on_controller c) d d1 /\ deleted_controller c d1 (w_db (fst s'))).

(** Removing a controller is all or nothing, contacts no controller and
    changes no tuple.  Either nothing changed and the caller got an error, or
    the rows that went are the controller of that name, its priorities and the
    models that it had, with their offers, user mappings and keys; without
    force it had no models.  What the authorisation service knows of them
    stays. *)
Theorem RemoveController_effect controllerName force s s' o :
  Models.models_ok (w_db (fst s)) -> RemoveController (C:=C) controllerName force s = (s', o) ->
  remove_post controllerName force s o s'.
Proof.
  intros Hok. refine (wp_elim _ (remove_post controllerName force s) _ _ _ _). unfold RemoveController. apply wp_jdb. unfold Transaction.
  apply wp_ready; [intros _ _|by intros e _; split_and!; [..|left]].
  eapply wp_mono; [apply (yields_rollback (fun _ d' => exists c d1, c ∈ rows (db_controllers (w_db (fst s))) /\ c_Name c = controllerName /\
     (force = false -> Forall (fun m => m_ControllerID m <> c_ID c) (rows (db_models (w_db (fst s))))) /\
     deleted_models (on_controller c) (w_db (fst s)) d1 /\ deleted_controller c d1 d'))|].
  2: { intros o1 d [Ha Hd]. split_and!; [by destruct o1|done|done|]. destruct o1 as [[]|e|x|]; [by right|left; by rewrite Hd..]. }
  eapply yields_bind; [apply yields_sees, GetController_sees|]. intros c d1 (Ht1 & Hc & _ & Hn). simpl in Hn.
  eapply yields_bind; [apply yields_sees, GetModelsByController_sees|]. intros ms d2 [Ht2 Hms]. rewrite Ht1 in Ht2.
  destruct (tables_eq _ _ Ht1) as (_ & _ & Hm1 & _). destruct (tables_eq _ _ Ht2) as (_ & _ & Hm2 & _). rewrite Hm1 in Hms.
  destruct (bool_decide (ms <> []) && negb force) eqn:Hforce; [wp_value; by split|].
  eapply yields_bind; [apply delete_models_range|]. intros u d3 Hd3. cbv beta in Hd3.
  eapply wp_mono; [apply DeleteController_yields|]. intros o1 d4 [Ha Hd4]. split; [done|]. intros a Hoka. cbv beta in Hd4.
  exists c, d3. split_and!; [done|by apply Hn| | |by apply (Hd4 a)].
  - intros ->. simpl in Hforce. rewrite andb_true_r in Hforce. apply bool_decide_eq_false in Hforce.
    apply Forall_forall. intros m Hm Hmc. assert (m ∈ ms) as Hin by by apply Hms. destruct ms; [by apply elem_of_nil in Hin|]. by destruct Hforce.
  - apply (delete_on_controller c ms); [done|done|]. by apply (deleted_models_tables _ (w_db (fst s)) d2).
Qed.

(** ** Adding a controller *)

Lemma addOneCloud_adds c cloud : only_adds (addOneCloud (T:=T) c cloud).
Proof.
  unfold addOneCloud. apply only_adds_bind.
  { apply only_adds_bind; [apply only_adds_try, LoadCloud_adds|]. intros [lc|e]; [apply only_adds_ret|].
    case_decide; [apply only_adds_throw|]. apply only_adds_bind; [apply only_adds_try, AddCloud_adds|].
    intros [lc|e']; [apply only_adds_ret|]. case_decide; [apply only_adds_throw|apply only_adds_ret]. }
  intros lc. apply only_adds_bind.
  { apply only_adds_for. intros lr. cbv zeta. case_decide; [apply only_adds_ret|]. apply only_adds_bind; [apply AddCloudRegion_adds|intros; apply only_adds_ret]. }
  intros _. apply only_adds_bind; [apply LoadCloud_adds|intros; apply only_adds_ret].
Qed.

Lemma absent_yields name d :
  wp (absent name) (yields (fun _ d' => tables d' = tables d /\ Forall (fun c => c_Name c <> name) (rows (db_controllers d)))) d.
Proof.
  unfold absent. apply wp_bind, wp_try. eapply wp_mono; [apply GetController_finds|].
  intros [c|e|x|] d1 (Ha & Ht & Ho); cbn [bind_post]; [wp_value; by split| |by split|by destruct Ha].
  case_decide as Hc; wp_value; split; try done. intros _ _. split; [done|]. apply Ho.
  destruct (decide (ErrorCode e = CodeNotFound)); [done|by destruct Hc].
Qed.

Lemma claimReservation_yields jobID name d :
  wp (claimReservation jobID name) (yields (fun _ d' => claimed jobID name d d')) d.
Proof.
  unfold claimReservation. apply wp_bind, wp_try. eapply wp_mono; [apply GetControllerBootstrap_finds|].
  intros [b|e|x|] d1 (Ha & Ht & Ho); cbn [bind_post]; [| |by split|by destruct Ha].
  - destruct (_ && _) eqn:Hb; [|wp_value; by split]. destruct Ho as [Hin Hname].
    apply andb_true_iff in Hb as [[Hj _]%andb_true_iff Hid%bool_decide_eq_true]. apply bool_decide_eq_true in Hj.
    eapply wp_mono; [apply DeleteControllerBootstrap_yields|]. intros o d2 [Ha2 Hd]. split; [done|]. intros a Hoa.
    destruct (Hd a Hoa) as [Hap Hr]. rewrite (apart_bootstraps_tables _ _ Ht) in Hap. split; [done|]. right. exists b.
    destruct (tables_more _ _ Ht) as (_ & _ & _ & _ & _ & Hbs). rewrite Hbs in Hr. done.
  - case_decide as Hc; wp_value; split; try done. intros _ _. split; [by apply apart_bootstraps_tables|]. left.
    destruct (tables_more _ _ Ht) as (_ & _ & _ & _ & _ & Hbs). split; [done|]. apply Ho.
    destruct (decide (ErrorCode e = CodeNotFound)); [done|by destruct Hc].
Qed.

(** What the transaction stores. *)
Definition stored (jobID : option Z) (c c' : Controller) d d' : Prop :=
  Forall (fun x => c_Name x <> c_Name c) (rows (db_controllers d)) /\
  exists d1, claimed jobID (c_Name c) d d1 /\ new_controller c c' d1 d'.

Definition addable d : Prop := unique_rows (rows (db_controllers d)) /\ adding_ok d.

Lemma Run_yields jobID clouds c d : addable d -> wp (Run jobID clouds c) (yields (fun c' d' => stored jobID c c' d d')) d.
Proof.
  intros [Hu Hok]. unfold Run. eapply yields_bind; [apply absent_yields|]. intros _ d1 [Ht1 Hfree].
  eapply yields_bind; [apply claimReservation_yields|]. intros u2 d2 Hcl. cbv beta in Hcl.
  assert (claimed jobID (c_Name c) d d2) as Hcl0.
  { unfold claimed in *. destruct (tables_more _ _ Ht1) as (_ & _ & _ & _ & _ & Hbs). by rewrite (apart_bootstraps_tables _ _ Ht1), Hbs in Hcl. }
  assert (addable d2) as [Hu2 Hok2].
  { destruct Hcl0 as [Hap _]. unfold apart_bootstraps in Hap. unfold addable, adding_ok in *. simplify_eq.
    destruct Hok as (? & ? & ?). split_and!; congruence. }
  eapply (yields_bind (fun _ d' => adds d2 d')).
  { eapply wp_mono; [by apply only_adds_map, Hok2; intros; apply addOneCloud_adds|]. intros o d3 [Ha Hd]. by split. }
  intros rs d3 Hadds. eapply wp_mono; [apply AddController_yields|].
  - destruct Hadds as (_ & Hap & _). unfold apart_adding in Hap. by simplify_eq; congruence.
  - by destruct Hadds.
  - intros o d4 [Ha Hd]. split; [done|]. intros c' Hoc. split; [done|]. exists d2. split; [done|].
    apply (new_controller_adds c c' d2 d3 d4). left. split; [done|by apply Hd].
Qed.

(** The tuples that a new controller brings: JIMM's to it, its own to a
    cloud, and everyone's right to add models to the cloud that it runs in. *)
Definition controller_tuple j (c : Controller) (t : Tuple) : Prop :=
  (exists ct, Controller_ResourceTag c = Ok ct /\ t = grant_edge (jm_resourceTag j) ct ControllerRelation) \/
  (exists ct name g, Controller_ResourceTag c = Ok ct /\ NewCloudTag name = Ok g /\ t = grant_edge ct g ControllerRelation) \/
  (exists e g, user_entity everyoneUser = Ok e /\ NewCloudTag (c_CloudName c) = Ok g /\ t = edge e CanAddModelRelation (ConvertTag g)).

(** The errors of the authorisation service are only logged. *)
Definition unrefused (o : outcome unit) : Prop := o <> OutOfFuel /\ forall e, o <> Err e.
Definition permitted j c s (o : outcome unit) s' : Prop := unrefused o /\ Offers.granted_some (controller_tuple j c) s s'.

Lemma permitted_from j c s s1 o s2 : Offers.granted_some (controller_tuple j c) s s1 -> permitted j c s1 o s2 -> permitted j c s o s2.
Proof. intros Hs [Ho Hs2]. split; [done|]. by eapply Offers.granted_some_trans. Qed.

(** A tag from a name of the database; an invalid name panics. *)
Lemma wp_tag {A} (tag : outcome Tag) (k : Tag -> M (JW F T C) A) Q s :
  tag <> OutOfFuel -> (forall e, tag <> Err e) -> (forall g, tag = Ok g -> wp (k g) Q s) -> (forall x, Q (Panic x) s) -> wp (lift tag ≫= k) Q s.
Proof. intros Hf He Hk Hp. apply wp_bind. wp_value. destruct tag as [g|e|x|]; cbn [bind_post]; [by apply Hk|by destruct (He e)|done|done]. Qed.

Lemma NewJujuTag_total k id : NewJujuTag k id <> OutOfFuel /\ forall e, NewJujuTag k id <> Err e.
Proof. unfold NewJujuTag. by destruct (ValidTagId _ _). Qed.

Lemma controllerPermissions_wp j specName clouds c s :
  c_CloudName c = specName -> wp (controllerPermissions j specName clouds c) (permitted j c s) s.
Proof.
  intros Hspec. unfold controllerPermissions. assert (forall s x, permitted j c s (Panic x) s) as Hpan.
  { split; [done|apply Offers.granted_some_refl]. }
  apply wp_bind. eapply (wp_mono _ (permitted j c s)).
  { revert s. induction clouds as [|cloud clouds IH]; intros s; [wp_value; split; [done|apply Offers.granted_some_refl]|].
    cbn [for_range]. apply wp_bind. apply (wp_mono _ (permitted j c s)).
    2: { intros [[]|e|x|] s1 Hs1; cbn [bind_post]; [|done..]. eapply wp_mono; [apply IH|]. intros o s2. apply permitted_from, Hs1. }
    assert (forall s, wp (tag ← lift (Cloud_ResourceTag (lcl_Cloud cloud)); controllerTag ← lift (Controller_ResourceTag c);
      _ ← try (jfga (AddCloudController tag controllerTag)); mret tt) (permitted j c s) s) as Hrest.
    { intros s1. apply wp_tag; [apply NewJujuTag_total..| |done]. intros g Hg. apply wp_tag; [apply NewJujuTag_total..| |done]. intros ct Hct.
      eapply (Offers.try_grant_wp (controller_tuple j c)); [apply setResourceAccess_wp| |by split|].
      - right. left. eexists ct, _, g. done.
      - intros _ s2 Hs2. wp_value. by split. }
    apply wp_bind. case_decide as Hname; [|wp_value; apply Hrest].
    apply wp_tag; [apply NewJujuTag_total..| |intros; apply Hpan]. intros g Hg.
    eapply (Offers.set_access_wp (controller_tuple j c)); [|by split|].
    - intros e He. right. right. exists e, g. rewrite Hspec, <- Hname. done.
    - intros _ s1 Hs1. wp_value. cbn [bind_post]. eapply wp_mono; [apply Hrest|]. intros o s2. by apply permitted_from. }
  intros [[]|e|x|] s1 Hs1; cbn [bind_post]; [|done..].
  apply wp_tag; [apply NewJujuTag_total..| |by intros; eapply permitted_from, Hpan; apply Hs1]. intros ct Hct.
  eapply (Offers.try_grant_wp (controller_tuple j c)); [apply setResourceAccess_wp|left; by exists ct|..].
  - intros x s2 Hs2. eapply permitted_from; [apply Hs1|by split].
  - intros _ s2 Hs2. wp_value. eapply permitted_from; [apply Hs1|by split].
Qed.

(** ** What an added controller leaves *)

Definition add_post j (jobID : option Z) (name : string) s (o : outcome unit) s' : Prop :=
  o <> OutOfFuel /\
  ((same s s' /\ o <> Ok tt) \/
   exists c c', (forall e, o <> Err e) /\ c_Name c = name /\ stored jobID c c' (w_db (fst s)) (w_db (fst s')) /\ j_tuples s ⊆ j_tuples s' /\
     forall t, t ∈ j_tuples s' -> t ∈ j_tuples s \/ controller_tuple j c' t).

Lemma describe_finds api c s :
  wp (describe api c) (finds same (fun r => c_Name r.2 = c_Name c /\ c_CloudName r.2 = r.1.1) s) s.
Proof.
  unfold describe. eapply (finds_bind same); [apply finds_map_err, finds_ctl|]. intros [n r] s1 _ _.
  eapply (finds_bind same); [apply finds_map_err, finds_ctl|]. intros clouds s2 _ _. by apply (finds_ret same).
Qed.

Lemma nameIsFree_finds jobID name s : wp (nameIsFree (C:=C) jobID name) (finds same (fun _ => True) s) s.
Proof.
  unfold nameIsFree. destruct jobID; [by apply (finds_ret same)|]. eapply (finds_bind same (fun _ => True)).
  { apply wp_jdb. unfold absent. apply wp_bind, wp_try. eapply wp_mono; [apply GetController_finds|].
    intros [] d (Ha & Ht & _); cbn [bind_post]; try case_decide; try wp_value; by split_and!. }
  intros _ s1 _ _. apply wp_bind, wp_try, wp_jdb. eapply wp_mono; [apply GetControllerBootstrap_finds|].
  intros [] d (Ha & Ht & _); cbn [bind_post]; try case_decide; try wp_value; by split_and!.
Qed.

Lemma AddController_wp j jobID user c creds s :
  addable (w_db (fst s)) -> wp (AddController_ j jobID user c creds) (add_post j jobID (c_Name c) s) s.
Proof.
  intros Hok. unfold AddController_.
  assert (absorbs (add_post j jobID (c_Name c) s) s) as HQ by (intros o1 s1 Ho Hs Hn; split; [done|by left]).
  eapply (wp_same_bind _ _ _ _ s); [done|done|apply nameIsFree_finds|]. intros _ s1 _ Hs1 _.
  eapply (wp_same_bind _ _ _ _ s); [done|done|apply finds_map_err, finds_dial|]. intros api s2 _ Hs2 _.
  eapply (wp_same_bind _ _ _ _ s); [done|done|apply describe_finds|]. intros [[specName clouds] c2] s3 _ Hs3 [Hn Hspec].
  assert (c_Name c2 = c_Name c) as Hname by done. rewrite <- Hname in HQ |- *. simpl in Hspec. cbv beta iota zeta.
  eapply (wp_same_bind _ _ _ _ s); [done|done|apply finds_map_err, finds_ctl|]. intros _ s4 _ [HT Ht] _.
  assert (j_tables s4 = j_tables s) as Hd by done. unfold j_tables in Hd.
  apply wp_bind, wp_map_err, wp_jdb. unfold Transaction. apply wp_ready; [intros _ _|by intros e _; apply HQ].
  eapply wp_mono; [apply yields_rollback, Run_yields|].
  { unfold addable, adding_ok in *. all_tables. done. }
  intros o1 d [Ha Hst]. destruct o1 as [c'|e|x|]; cbn [bind_post]; [|apply HQ; [done|by rewrite Hst|done]..|by destruct Ha].
  assert (stored jobID c2 c' (w_db (fst s)) d) as Hst0.
  { unfold stored, claimed in *. rewrite <- (apart_bootstraps_tables _ _ Hd). destruct (tables_more _ _ Hd) as (_ & _ & _ & _ & _ & <-).
    destruct (tables_eq _ _ Hd) as (_ & <- & _). done. }
  eapply wp_mono; [apply controllerPermissions_wp|].
  { destruct Hst as (_ & d1 & _ & ((i & now & _ & ->) & _) & _). exact Hspec. }
  intros o1 s5 [[Ho1 He1] (Hd5 & _ & Hsub & Hnew)]. split; [done|]. right. exists c2, c'. split; [done|]. split; [done|]. split; [by rewrite Hd5|].
  split; [by rewrite <- HT|]. intros t [Hin|Hin]%Hnew; [left; by rewrite <- HT|by right].
Qed.

(** C21.  Adding a controller always ends.  Either no row and no tuple has
    changed and the caller got an error, or one transaction stored the
    controller: no controller had its name, a reservation of the name, if
    there was one, belonged to the calling job and is gone, the controller's
    row is new, the caller got no error, clouds, regions and priorities were
    only added and no other table changed; and the tuples grew by those of the
    new controller at most, the only right for everyone being to add models to
    the cloud that the controller runs in. *)
Theorem AddController_effect j jobID user c creds s s' o :
  addable (w_db (fst s)) -> AddController_ j jobID user c creds s = (s', o) -> add_post j jobID (c_Name c) s o s'.
Proof. intros Hok. by apply (wp_elim _ (add_post j jobID (c_Name c) s)), AddController_wp. Qed.

(** The comment on [AddController] promises the code of the dial; the error
    that the caller gets has none. *)
Lemma AddController_loses_code j jobID user c creds s err c' :
  jm_Dialer j = true -> DialControllerAsSuperuser (Some user) c (snd s) = (c', inr err) ->
  exists e, snd (AddController_ j (Some jobID) user c creds s) = Err e /\ ErrorCode e = "".
Proof.
  intros Hd Hdial. exists (Errorf "failed to dial the controller: %v" [ArgE err]). split; [|done].
  unfold AddController_, nameIsFree, dialControllerAsSuperuser. rewrite Hd. unfold ctl, mbind, M_bind, mret, M_ret, map_err. by rewrite Hdial.
Qed.

End facts.

End Ctl.
