(* ===== verification/JujuMigration.v ===== *)
(** * JujuMigration: models that migrate into JIMM
    ([internal/jimm/juju/migrationtarget.go],
    [internal/description/description.go]).

    The source controller drives the migration: it asks for prechecks, imports
    the description of the model, activates the model or aborts.  JIMM keeps a
    row of the migration with a mapping of the local users of the source to
    external ones, rewrites the description with it, and passes each step on to
    the controller that the model goes to. *)

From S2P Require Import Prelude Errors GoStrings Regexp Names AuthModel RefServer OpenFGA Dbmodel Users Database TagResolver Access JujuDb CloudDb JujuBase JujuModels ControllerDb JujuOffers JujuClouds JujuCredentials ModelBuilder JujuControllers.

Module Migration.

(** ** Descriptions of models

    What the interfaces of [description.go] give: users, applications with
    their offers, and the credential of the model. *)

Record DescUser := MkDescUser { du_Name : Tag; du_Access : string }.
Record DescOffer := MkDescOffer { do_OfferUUID : string; do_OfferName : string; do_ACL : gmap string string }.
Record DescApplication := MkDescApplication { da_Name : string; da_Offers : list DescOffer }.
Record DescCredential := MkDescCredential {
  dc_Owner : string; dc_Cloud : string; dc_Name : string; dc_AuthType : string; dc_Attributes : gmap string string;
}.
Record CloudCredentialArgs := MkCredentialArgs {
  dca_Owner : Tag; dca_Cloud : Tag; dca_Name : string; dca_AuthType : string; dca_Attributes : gmap string string;
}.

(** The packages [juju/description], one per version of the format: a
    description is read and written, and its parts are read and set.
    [desc_ConfigString] is a text of the configuration of the model. *)
Class Descriptions := {
  Desc : Type;
  desc_Deserialize : Z -> string -> Desc + gerror;
  desc_Serialize : Desc -> string + gerror;
  desc_Owner : Desc -> Tag;
  desc_Users : Desc -> list DescUser;
  desc_CloudRegion : Desc -> string;
  desc_Applications : Desc -> list DescApplication;
  desc_CloudCredential : Desc -> option DescCredential;
  desc_ConfigString : Desc -> string -> option string;
  desc_SetOwner : Tag -> Desc -> Desc;
  desc_SetUsers : list DescUser -> Desc -> Desc;
  desc_SetCloudCredential : CloudCredentialArgs -> Desc -> Desc;
  (** [crossmodel.MakeURL] for an owner, a model and an offer, without a
      controller. *)
  MakeURL : string -> string -> string -> string;
}.

(** A setter sets its part and keeps the others. *)
Class DescriptionLaws `{Descriptions} := {
  law_SetOwner t d : desc_Owner (desc_SetOwner t d) = t /\ desc_CloudCredential (desc_SetOwner t d) = desc_CloudCredential d;
  law_SetUsers us d : desc_Users (desc_SetUsers us d) = us /\ desc_Owner (desc_SetUsers us d) = desc_Owner d /\
    desc_CloudCredential (desc_SetUsers us d) = desc_CloudCredential d;
  law_SetCloudCredential a d :
    desc_CloudCredential (desc_SetCloudCredential a d) =
      Some (MkDescCredential (Id (dca_Owner a)) (Id (dca_Cloud a)) (dca_Name a) (dca_AuthType a) (dca_Attributes a)) /\
    desc_Owner (desc_SetCloudCredential a d) = desc_Owner d /\ desc_Users (desc_SetCloudCredential a d) = desc_Users d;
}.

Section description.
Context `{Descriptions} `{JujuVersion}.

Definition latestDescriptionVersion : Z := 11.
Definition latestDescriptionTargetVersion := "999.0.0".

(** [version.MustParse] of a constant. *)
Definition MustParse (s : string) : outcome Number :=
  match version_Parse s with Err _ => Panic ("version " +:+ s) | o => o end.

(** [controllerVersion] is the text that was parsed, for the message. *)
Definition migrationDescriptionVersion (controllerVersion : string) (v : Number) : outcome Z :=
  v9 ← MustParse "3.6.9";
  if (version_Compare v v9 <? 0)%Z
  then Err (Errorf "unsupported controller version %s, must be at least 3.6.9" [ArgS controllerVersion]) else
  v12 ← MustParse "3.6.12";
  if (0 <=? version_Compare v v9)%Z && (version_Compare v v12 <=? 0)%Z then Ok 9%Z else
  v13 ← MustParse "3.6.13";
  v22 ← MustParse "3.6.22";
  if (0 <=? version_Compare v v13)%Z && (version_Compare v v22 <=? 0)%Z then Ok 10%Z else
  v23 ← MustParse "3.6.23";
  if (version_Compare v v23 =? 0)%Z then Ok 11%Z else Ok latestDescriptionVersion.

Definition Deserialize (raw : string) (controllerVersion : string) (v : Number) : outcome Desc :=
  version ← migrationDescriptionVersion controllerVersion v;
  match desc_Deserialize version raw with
  | inl d => Ok d
  | inr err =>
      if decide (version = 9%Z) then Err (Errorf "failed to deserialize v9 model description: %w" [ArgE err])
      else if decide (version = 10%Z) then Err (Errorf "failed to deserialize v10 model description: %w" [ArgE err])
      else Err (Errorf "failed to deserialize v11 model description: %w" [ArgE err])
  end.

Definition NameKey := "name".
Definition UUIDKey := "uuid".
Definition missingKey (key : string) : gerror := Errorf "model config must contain a string value for key %q" [ArgS key].

Definition TryDetermineModelUUID (raw : string) : outcome string :=
  v ← MustParse latestDescriptionTargetVersion;
  match Deserialize raw latestDescriptionTargetVersion v with
  | Ok d => match desc_ConfigString d UUIDKey with Some uuid => Ok uuid | None => Err (missingKey UUIDKey) end
  | Err err => Err (Errorf "failed to deserialize model description: %w" [ArgE err])
  | Panic x => Panic x
  | OutOfFuel => OutOfFuel
  end.
End description.

(** ** Mapping the users of the source *)

Section mapping.
Context `{Descriptions} `{JujuNames}.
Implicit Types (d : Desc) (userMapping : gmap string string).

Definition missing_users userMapping (us : list DescUser) : list string :=
  omap (M:=list) (fun u =>
    if decide (Id (du_Name u) = EveryoneUser) then None else
    match userMapping !! Id (du_Name u) with
    | Some _ => None
    | None => Some (sprintf "expected user %q who has %s access to the model" [ArgS (Id (du_Name u)); ArgS (du_Access u)])
    end) us.

Definition missing_consumers userMapping (o : DescOffer) : list string :=
  omap (M:=list) (fun ua : string * string =>
    if decide (ua.1 = EveryoneUser) then None else
    match userMapping !! ua.1 with
    | Some _ => None
    | None => Some (sprintf "expected user %q who has %s access to offer %q" [ArgS ua.1; ArgS ua.2; ArgS (do_OfferName o)])
    end) (map_to_list (do_ACL o)).

Definition missingUserMessages d userMapping : list string :=
  missing_users userMapping (desc_Users d) ++
  mjoin (fmap (M:=list) (fun app => mjoin (fmap (M:=list) (missing_consumers userMapping) (da_Offers app))) (desc_Applications d)).

Definition newline : string := String (Ascii.ascii_of_nat 10) "".

Definition validateUserMapping d userMapping : outcome unit :=
  match missingUserMessages d userMapping with
  | [] => Ok tt
  | msgs => Err (Errorf ("user mapping is missing the following users:" +:+ newline +:+ "%s") [ArgS (String.concat newline msgs)])
  end.

(** The owner of the model, and the description that the pointer holds. *)
Definition setMappedOwner d userMapping : outcome Desc :=
  if IsLocal (desc_Owner d) then
    match userMapping !! Id (desc_Owner d) with
    | None => Err (Errorf "no external user mapping found for local user %q" [ArgS (Id (desc_Owner d))])
    | Some newOwner => tag ← NewUserTag newOwner; Ok (desc_SetOwner tag d)
    end
  else Ok d.

Definition credentialOwner d (cred : DescCredential) userMapping : outcome Tag :=
  if negb (IsValidUser (dc_Owner cred)) then Err (Errorf "invalid cloud credential owner %q" [ArgS (dc_Owner cred)]) else
  ownerTag ← NewUserTag (dc_Owner cred);
  if IsLocal ownerTag then
    match userMapping !! Id ownerTag with
    | None => Err (Errorf "no external user mapping found for cloud credential local user %q" [ArgS (Id (desc_Owner d))])
    | Some newOwner => NewUserTag newOwner
    end
  else Ok ownerTag.

Definition modifyModelDescription d userMapping : outcome Desc :=
  d ← setMappedOwner d userMapping;
  let d := desc_SetUsers [] d in
  match desc_CloudCredential d with
  | None => Err (Errorf "model description must contain a cloud credential" [])
  | Some cred =>
      if negb (ValidTagId CloudTagKind (dc_Cloud cred)) then Err (Errorf "invalid cloud name %q" [ArgS (dc_Cloud cred)]) else
      cloudTag ← NewCloudTag (dc_Cloud cred);
      ownerTag ← credentialOwner d cred userMapping;
      Ok (desc_SetCloudCredential (MkCredentialArgs ownerTag cloudTag (dc_Name cred) (dc_AuthType cred) (dc_Attributes cred)) d)
  end.

(** The new owner, with the description. *)
Definition modifyMigrationInfo d userMapping : outcome (Tag * Desc) :=
  if negb (IsLocal (desc_Owner d)) then Ok (desc_Owner d, d) else
  match userMapping !! Id (desc_Owner d) with
  | None => Err (Errorf "no external user mapping found for local user %q" [ArgS (Id (desc_Owner d))])
  | Some newOwner =>
      if negb (IsValidUser newOwner)
      then Err (Errorf "invalid external user mapping %q for local user %q" [ArgS newOwner; ArgS (Id (desc_Owner d))]) else
      newOwnerTag ← NewUserTag newOwner;
      match modifyModelDescription d userMapping with
      | Ok d => Ok (newOwnerTag, d)
      | Err err => Err (Errorf "failed to modify model description: %w" [ArgE err])
      | Panic x => Panic x
      | OutOfFuel => OutOfFuel
      end
  end.
End mapping.

(** [MigratingModelInfo]; versions are their texts. *)
Record MigratingModelInfo := MkMigrating {
  mg_UUID : string; mg_Owner : Tag; mg_Name : string; mg_AgentVersion : string; mg_ControllerAgentVersion : string;
  mg_RawModelDescription : string;
}.

Section ops.
Context {F : Type} `{OFGAServer F} {T : Type -> Type} `{Gorm T} {C : Type} `{Controllers C} `{JujuNames} `{Hash}.
Context `{Descriptions} `{JujuVersion}.
Implicit Types (j : JujuManager) (user : User) (mt : Tag).
Local Abbreviation JM := (M (JW F T C)).
Local Abbreviation DM := (M (Db T)).

Definition TIMEOUT_PENDING_MIGRATION : Z := 24 * 60 * 60 * 1000000000.

Definition modelByUUID (modelUUID : string) : Model := Models.SetTag (MkTag ModelTagKind modelUUID).

Definition incoming (modelUUID : string) : JM (IncomingModelMigration * Controller) :=
  jdb (GetIncomingModelMigration (migrationOf modelUUID)).
Definition noMigration (modelUUID : string) (err : gerror) : gerror := Errorf "failed to get model migration %q: %w" [ArgS modelUUID; ArgE err].
Definition dialFailed (err : gerror) : gerror := Errorf "failed to dial controller: %w" [ArgE err].

(** Once the controller has aborted, the errors of JIMM's own state are
    logged. *)
Definition AbortMigration (fuel : nat) j user (modelUUID : string) : JM unit :=
  '(mig, c) ← map_err (noMigration modelUUID) (incoming modelUUID);
  api ← map_err dialFailed (dialControllerAsSuperuser j (Some user) c);
  _ ← map_err (fun err => Errorf "failed to abort migration: %w" [ArgE err]) (ctl (api_Abort api modelUUID));
  _ ← try (jdb (DeleteIncomingModelMigration mig));
  _ ← try (jdb (db_DeleteModel (modelByUUID modelUUID)));
  tag ← lift (Model_ResourceTag (modelByUUID modelUUID));
  _ ← try (jfga (RemoveModel fuel tag));
  mret tt.

Definition CheckMachines j user (modelUUID : string) : JM (list gerror) :=
  '(mig, c) ← map_err (noMigration modelUUID) (incoming modelUUID);
  api ← map_err dialFailed (dialControllerAsSuperuser j (Some user) c);
  map_err (fun err => Errorf "failed to check machines: %w" [ArgE err]) (ctl (api_CheckMachines api modelUUID)).

Definition ControllerDetailsForIncomingModel (modelUUID : string) : JM Ctl.ConnectionDetails :=
  '(mig, c) ← map_err (fun err => if decide (ErrorCode err = CodeNotFound)
                                  then Codef CodeNotFound "migrating model %q not found" [ArgS modelUUID]
                                  else Errorf "failed to get controller for model %q: %w" [ArgS modelUUID; ArgE err]) (incoming modelUUID);
  mret (Ctl.toControllerConnectionDetails c).

(** The version of the controller, and the description in its format. *)
Definition describedFor (raw : string) (c : Controller) : outcome Desc :=
  let v := c_AgentVersion c in
  match version_Parse v with
  | Ok n =>
      match Deserialize raw v n with
      | Err err => Err (Errorf "failed to deserialize model description: %w" [ArgE err])
      | o => o
      end
  | Err err => Err (Errorf "failed to parse target controller agent version %q: %w" [ArgS v; ArgE err])
  | Panic x => Panic x
  | OutOfFuel => OutOfFuel
  end.

(** A method of the credential of the description, nil when there is none. *)
Definition described_credential (d : Desc) : outcome DescCredential :=
  match desc_CloudCredential d with Some cred => Ok cred | None => Panic Models.nilPointer end.
Definition credential_lookup (d : Desc) (cred : DescCredential) : CloudCredential :=
  MkCredential 0 (dc_Name cred) (dc_Cloud cred) (Id (desc_Owner d)) "" None.

(** [ControllerAgentVersion] of the request is the version of the model. *)
Definition Prechecks j user (model : MigratingModelInfo) : JM unit :=
  '(mig, c) ← map_err (noMigration (mg_UUID model)) (incoming (mg_UUID model));
  d ← lift (describedFor (mg_RawModelDescription model) c);
  _ ← map_err (fun err => Errorf "failed to validate user mapping: %w" [ArgE err]) (lift (validateUserMapping d (im_UserMapping mig)));
  '(owner, d) ← map_err (fun err => Errorf "failed to modify migration info: %w" [ArgE err]) (lift (modifyMigrationInfo d (im_UserMapping mig)));
  cred ← lift (described_credential d);
  _ ← map_err (fun err => Errorf "failed to find region for cloud %q: %w" [ArgS (dc_Cloud cred); ArgE err])
        (jdb (FindRegionByCloudName (dc_Cloud cred) (desc_CloudRegion d)));
  _ ← jdb (GetCloudCredential (credential_lookup d cred));
  api ← map_err dialFailed (dialControllerAsSuperuser j (Some user) c);
  serialized ← map_err (fun err => Errorf "failed to serialize model description: %w" [ArgE err]) (lift (of_sum (desc_Serialize d)));
  map_err (fun err => Errorf "failed to run pre-checks for migration: %w" [ArgE err])
    (ctl (api_Prechecks api (MkMigrationInfo (mg_UUID model) (TagString owner) (mg_Name model) (mg_AgentVersion model)
                               (mg_AgentVersion model) serialized))).

Definition AdoptResources j user (modelUUID sourceControllerVersion : string) : JM unit :=
  lm ← map_err (fun err => Errorf "failed to get model migration for model %q: %w" [ArgS modelUUID; ArgE err]) (jdb (LoadModel (modelByUUID modelUUID)));
  api ← map_err dialFailed (dialControllerAsSuperuser j (Some user) (lm_Controller lm));
  map_err (fun err => Errorf "failed to adopt resources: %w" [ArgE err]) (ctl (api_AdoptResources api modelUUID sourceControllerVersion)).

Definition LatestLogTime j user (modelUUID : string) : JM Z :=
  lm ← map_err (fun err => Errorf "failed to get model %q: %w" [ArgS modelUUID; ArgE err]) (jdb (LoadModel (modelByUUID modelUUID)));
  api ← map_err dialFailed (dialControllerAsSuperuser j (Some user) (lm_Controller lm));
  map_err (fun err => Errorf "failed to get latest log time for model %q: %w" [ArgS modelUUID; ArgE err]) (ctl (api_LatestLogTime api modelUUID)).

(** *** Activation *)

Definition activated (m : Model) : Model := Models.with_Life Models.Alive (Models.with_migration MigrationModeNone (m_ControllerID m) m).

(** A local user that is mapped to nobody is skipped. *)
Definition addMappings (modelUUID : string) (mig : IncomingModelMigration) : DM unit :=
  for_range (map_to_list (im_UserMapping mig)) (fun le : string * string =>
    if decide (le.2 = "") then mret tt else
    _ ← map_err (fun err => Errorf "failed to add user mapping for model %q: %w" [ArgS modelUUID; ArgE err])
          (AddUserMapping (MkMapping 0 0 0 (im_ModelUUID mig) le.1 le.2));
    mret tt).

Definition activateModel (modelUUID : string) (mig : IncomingModelMigration) : DM unit :=
  Transaction (
    _ ← addMappings modelUUID mig;
    lm ← map_err (fun err => Errorf "failed to get model %q: %w" [ArgS modelUUID; ArgE err]) (LoadModel (modelByUUID modelUUID));
    _ ← map_err (fun err => Errorf "failed to update model %q: %w" [ArgS modelUUID; ArgE err])
          (db_UpdateModel (activated (lm_Model lm)));
    map_err (fun err => Errorf "failed to delete model migration for model %q: %w" [ArgS modelUUID; ArgE err])
      (DeleteIncomingModelMigration mig)).

Definition activationFailed (modelUUID : string) (err : gerror) : gerror := Errorf "failed to activate model %q: %w" [ArgS modelUUID; ArgE err].

Definition Activate j user mt (migrationInfo : Info) (relatedModels : list string) : JM unit :=
  '(mig, c) ← map_err (fun err => Errorf "failed to get model migration for model %q: %w" [ArgS (Id mt); ArgE err]) (incoming (Id mt));
  api ← map_err dialFailed (dialControllerAsSuperuser j (Some user) c);
  _ ← map_err (activationFailed (Id mt)) (ctl (api_Activate api (Id mt) migrationInfo relatedModels));
  map_err (activationFailed (Id mt)) (jdb (activateModel (Id mt) mig)).

(** *** Import *)

Definition describedOffers (d : Desc) : list DescOffer := mjoin (fmap (M:=list) da_Offers (desc_Applications d)).

Definition importOffer (d : Desc) (modelName : string) (m : Model) (offer : DescOffer) : DM ApplicationOffer :=
  let url := MakeURL (Id (desc_Owner d)) modelName (do_OfferName offer) in
  map_err (fun err => if decide (ErrorCode err = CodeAlreadyExists)
                      then Codef CodeAlreadyExists "offer with URL %s already exists" [ArgS url]
                      else Errorf "failed to add application offer %q: %w" [ArgS (do_OfferName offer); ArgE err])
    (AddApplicationOffer (MkOffer 0 (m_ID m) (do_OfferName offer) (do_OfferUUID offer) url)).

Definition importFromDescription (targetControllerID : Z) (d : Desc) : DM (Model * list ApplicationOffer) :=
  match desc_ConfigString d NameKey, desc_ConfigString d UUIDKey, desc_CloudCredential d with
  | None, _, _ => throw (missingKey NameKey)
  | _, None, _ => throw (missingKey UUIDKey)
  | _, _, None => throw (Errorf "model description must contain a cloud credential" [])
  | Some modelName, Some modelUUID, Some cred =>
      c ← GetCloudCredential (credential_lookup d cred);
      region ← FindRegionByCloudName (dc_Cloud cred) (desc_CloudRegion d);
      m ← map_err (fun err => Errorf "failed to add model %q: %w" [ArgS modelUUID; ArgE err])
            (db_AddModel (MkModel 0 modelName (Some modelUUID) (Id (desc_Owner d)) targetControllerID (reg_ID (lr_Region region))
               (cc_ID c) "" MigrationModeImporting));
      offers ← map_range (describedOffers d) (importOffer d modelName m);
      mret (m, offers)
  end.

Definition importTx (modelUUID raw : string) : DM (Model * list ApplicationOffer * Controller * Desc) :=
  Transaction (
    '(mig, c) ← map_err (fun err => Errorf "failed to get incoming model migration: %w" [ArgE err])
                  (GetIncomingModelMigrationWithLock (migrationOf modelUUID));
    d ← lift (describedFor raw c);
    d ← map_err (fun err => Errorf "failed to modify model description: %w" [ArgE err]) (lift (modifyModelDescription d (im_UserMapping mig)));
    '(m, offers) ← map_err (fun err => Errorf "failed to import model from description: %w" [ArgE err]) (importFromDescription (c_ID c) d);
    mret (m, offers, c, d)).

Definition addModelAndOfferPermissions user (m : Model) (offers : list ApplicationOffer) (ct : Tag) : JM unit :=
  modelTag ← lift (Model_ResourceTag m);
  _ ← map_err (fun err => Errorf "failed to add model permissions: %w" [ArgE err]) (Models.addModelPermissions user modelTag ct);
  for_range offers (fun offer =>
    offerTag ← lift (Offer_ResourceTag offer);
    map_err (fun err => Errorf "failed to add application offer permissions: %w" [ArgE err])
      (jfga (AddModelApplicationOffer modelTag offerTag))).

Definition Import j user (raw : string) : JM unit :=
  modelUUID ← map_err (fun err => Errorf "failed to determine model UUID: %w" [ArgE err]) (lift (TryDetermineModelUUID raw));
  '(m, offers, c, d) ← jdb (importTx modelUUID raw);
  controllerTag ← lift (Controller_ResourceTag c);
  _ ← map_err (fun err => Errorf "failed to add resource permissions: %w" [ArgE err]) (addModelAndOfferPermissions user m offers controllerTag);
  api ← map_err dialFailed (dialControllerAsSuperuser j (Some user) c);
  serialized ← map_err (fun err => Errorf "failed to serialize model description: %w" [ArgE err]) (lift (of_sum (desc_Serialize d)));
  map_err (fun err => Errorf "failed to import model: %w" [ArgE err]) (ctl (api_Import api serialized)).

(** *** Stale migrations *)

Definition cleanupTx (mig : IncomingModelMigration) : DM unit :=
  Transaction (
    _ ← DeleteIncomingModelMigration mig;
    _ ← DeleteUserMappingsByModelUUID (default "" (im_ModelUUID mig));
    db_DeleteModel (modelByUUID (default "" (im_ModelUUID mig)))).

Definition cleanupPartialModelMigration j (mc : IncomingModelMigration * Controller) : JM unit :=
  api ← map_err dialFailed (dialControllerAsService j mc.2);
  _ ← try (ctl (api_Abort api (default "" (im_ModelUUID mc.1))));
  jdb (cleanupTx mc.1).

Fixpoint cleanup_all j (migrations : list (IncomingModelMigration * Controller)) : JM (list gerror) :=
  match migrations with
  | [] => mret []
  | mc :: migrations =>
      r ← try (cleanupPartialModelMigration j mc);
      errs ← cleanup_all j migrations;
      mret (match r with
            | inl _ => errs
            | inr err => Errorf "failed to clean up model migration %q: %w" [ArgS (default "" (im_ModelUUID mc.1)); ArgE err] :: errs
            end)
  end.

(** [errors.Join]: no error without errors, otherwise their texts. *)
Definition Join (errs : list gerror) : outcome unit :=
  match errs with [] => Ok tt | _ => Err (ErrString (String.concat newline (Error <$> errs))) end.

Definition CleanupPartialModelMigrations j : JM unit :=
  now ← ctl_read (fun c => inl (time_Now c));
  migrations ← map_err (fun err => Errorf "failed to get incoming model migrations: %w" [ArgE err])
    (jdb (GetIncomingModelMigrationsCreatedBefore (now - TIMEOUT_PENDING_MIGRATION)%Z));
  errs ← cleanup_all j migrations;
  lift (Join errs).

End ops.

Section mapping_facts.
Context `{DescriptionLaws} `{JujuNames}.
Implicit Types (d : Desc) (userMapping : gmap string string).

(** Everyone that the description gives access to the model or to an offer
    has an entry. *)
Definition mapped userMapping (name : string) : Prop := name = EveryoneUser \/ is_Some (userMapping !! name).
Definition mapping_complete d userMapping : Prop :=
  (forall u, u ∈ desc_Users d -> mapped userMapping (Id (du_Name u))) /\
  forall app offer name, app ∈ desc_Applications d -> offer ∈ da_Offers app -> is_Some (do_ACL offer !! name) -> mapped userMapping name.

Lemma omap_nil {A B} (f : A -> option B) (l : list A) : omap f l = [] <-> forall x, x ∈ l -> f x = None.
Proof.
  split.
  - intros Hn x Hx. destruct (f x) as [y|] eqn:Hf; [|done]. exfalso. apply (not_elem_of_nil y). rewrite <- Hn.
    apply list_elem_of_omap. by exists x.
  - intros Hf. induction l as [|x l IH]; [done|]. simpl. rewrite (Hf x) by by left. apply IH. intros y Hy. apply Hf. by right.
Qed.

Lemma mjoin_nil {A B} (f : A -> list B) (l : list A) : mjoin (f <$> l) = [] <-> forall x, x ∈ l -> f x = [].
Proof.
  induction l as [|x l IH]; simpl; [split; [intros _ x Hx; by apply elem_of_nil in Hx|done]|].
  split.
  - intros [Hx Hl]%app_eq_nil y [->|Hy]%elem_of_cons; [done|]. by apply IH.
  - intros Hf. rewrite (Hf x) by by left. simpl. apply IH. intros y Hy. apply Hf. by right.
Qed.

Lemma skipped userMapping name (msg : string) :
  (if decide (name = EveryoneUser) then None else match userMapping !! name with Some _ => None | None => Some msg end) = None <->
  mapped userMapping name.
Proof.
  unfold mapped. case_decide as Hn; [by split; [left|]|]. destruct (userMapping !! name) eqn:Hm; split; try done; [by right|].
  by intros [?|[]].
Qed.

(** The mapping of users is accepted exactly when everyone that the
    description gives access to the model or to one of its offers has an
    entry, the wildcard user apart; it is refused with an error otherwise. *)
Theorem validateUserMapping_complete d userMapping :
  (validateUserMapping d userMapping = Ok tt <-> mapping_complete d userMapping) /\
  (validateUserMapping d userMapping = Ok tt \/ exists e, validateUserMapping d userMapping = Err e).
Proof.
  assert (missingUserMessages d userMapping = [] <-> mapping_complete d userMapping) as Hiff.
  { unfold missingUserMessages, mapping_complete. rewrite app_nil. unfold missing_users. rewrite omap_nil, mjoin_nil.
    setoid_rewrite mjoin_nil. unfold missing_consumers. setoid_rewrite omap_nil. setoid_rewrite skipped.
    split; intros [Hu Ho]; (split; [exact Hu|]).
    - intros app offer name Ha Hof [access Hname]. apply (Ho app Ha offer Hof (name, access)). by apply elem_of_map_to_list.
    - intros app Ha offer Hof [name access] Hin. apply elem_of_map_to_list in Hin. apply (Ho app offer name Ha Hof). by exists access. }
  unfold validateUserMapping. rewrite <- Hiff. destruct (missingUserMessages d userMapping); (split; [done|]); [by left|right; by eexists].
Qed.

(** Every entry names an external user, or nobody. *)
Definition external_mapping userMapping : Prop :=
  forall l e, userMapping !! l = Some e -> IsValidUser e = true -> IsLocal (MkTag UserTagKind (UserTagId e)) = false.

Lemma setMappedOwner_external d userMapping d1 :
  external_mapping userMapping -> setMappedOwner d userMapping = Ok d1 ->
  IsLocal (desc_Owner d1) = false /\ desc_CloudCredential d1 = desc_CloudCredential d /\
  (IsLocal (desc_Owner d) = false -> desc_Owner d1 = desc_Owner d).
Proof.
  intros Hext. unfold setMappedOwner. destruct (IsLocal (desc_Owner d)) eqn:Hl; [|by intros [= <-]].
  destruct (userMapping !! _) as [e|] eqn:He; [|done]. unfold NewUserTag. destruct (IsValidUser e) eqn:Hv; [|done].
  intros [= <-]. destruct (law_SetOwner (MkTag UserTagKind (UserTagId e)) d) as [-> ->]. split_and!; [by eapply Hext|done|done].
Qed.

Lemma credentialOwner_external d cred userMapping t :
  external_mapping userMapping -> credentialOwner d cred userMapping = Ok t -> IsLocal t = false.
Proof.
  intros Hext. unfold credentialOwner, NewUserTag. destruct (IsValidUser (dc_Owner cred)); [|done]. simpl.
  destruct (IsLocal _) eqn:Hl; [|by intros [= <-]]. destruct (userMapping !! _) as [e|] eqn:He; [|done].
  destruct (IsValidUser e) eqn:Hv; [|done]. intros [= <-]. by eapply Hext.
Qed.

(** With a mapping to external users, a rewritten description names no
    local user: its owner and the owner of its credential are external, the
    users of the source are gone, an external owner is kept, and the cloud,
    the name and the content of the credential are those of the source. *)
Theorem modifyModelDescription_external d userMapping d' :
  external_mapping userMapping -> modifyModelDescription d userMapping = Ok d' ->
  IsLocal (desc_Owner d') = false /\ desc_Users d' = [] /\
  (IsLocal (desc_Owner d) = false -> desc_Owner d' = desc_Owner d) /\
  exists cred cred', desc_CloudCredential d = Some cred /\ desc_CloudCredential d' = Some cred' /\
    IsLocal (MkTag UserTagKind (dc_Owner cred')) = false /\ dc_Cloud cred' = dc_Cloud cred /\ dc_Name cred' = dc_Name cred /\
    dc_AuthType cred' = dc_AuthType cred /\ dc_Attributes cred' = dc_Attributes cred.
Proof.
  intros Hext. unfold modifyModelDescription. destruct (setMappedOwner d userMapping) as [d1| | |] eqn:Hd1; try done.
  destruct (setMappedOwner_external d userMapping d1 Hext Hd1) as (Hown & Hcred & Hkeep). simpl.
  destruct (law_SetUsers [] d1) as (HU & HO & HC). rewrite HC, Hcred. destruct (desc_CloudCredential d) as [cred|]; [|done].
  unfold NewCloudTag, NewJujuTag. destruct (ValidTagId CloudTagKind (dc_Cloud cred)); [|done]. simpl.
  destruct (credentialOwner _ cred userMapping) as [t| | |] eqn:Ht; try done. intros [= <-].
  match goal with |- context [desc_SetCloudCredential ?a ?x] => destruct (law_SetCloudCredential a x) as (-> & -> & ->) end.
  rewrite HO, HU. split_and!; [done|done|done|]. eexists cred, _. split_and!; [done|done| |done..]. simpl.
  apply (credentialOwner_external _ _ _ _ Hext) in Ht. exact Ht.
Qed.

(** A mapping that skips the owner of the credential, as an empty entry means,
    makes the rewriting panic. *)
Lemma skipped_credential_owner_panics d userMapping cred :
  IsLocal (desc_Owner d) = false -> desc_CloudCredential d = Some cred -> ValidTagId CloudTagKind (dc_Cloud cred) = true ->
  IsValidUser (dc_Owner cred) = true -> IsLocal (MkTag UserTagKind (UserTagId (dc_Owner cred))) = true ->
  userMapping !! UserTagId (dc_Owner cred) = Some "" -> IsValidUser "" = false ->
  exists x, modifyModelDescription d userMapping = Panic x.
Proof.
  intros Hl Hc Hv Hu Hlo He Hempty. unfold modifyModelDescription, setMappedOwner, credentialOwner, NewCloudTag, NewJujuTag, NewUserTag.
  rewrite Hl. simpl. destruct (law_SetUsers [] d) as (_ & _ & ->). rewrite Hc, Hv. simpl. rewrite Hu. simpl. rewrite Hlo. simpl.
  rewrite He, Hempty. by eexists.
Qed.
End mapping_facts.

Section facts.
Context {F : Type} `{OFGALaws F} {T : Type -> Type} `{GormLaws T} {C : Type} `{Controllers C} `{JujuNames} `{Hash}.
Context `{Descriptions} `{JujuVersion}.
Implicit Types (s : JW F T C) (d : Db T) (j : JujuManager) (user : User) (mt : Tag).

Lemma yields_map_err {A} (P : A -> Db T -> Prop) f (m : M (Db T) A) d : wp m (yields P) d -> wp (map_err f m) (yields P) d.
Proof. intros Hm. apply wp_map_err. eapply wp_mono; [exact Hm|]. intros [] d' [Ha HP]; by split. Qed.

(** The row of the migration of a model, with its controller. *)
Definition migration_of d (modelUUID : string) (mc : IncomingModelMigration * Controller) : Prop :=
  mc.1 ∈ rows (db_migrations d) /\ im_ModelUUID mc.1 = Some modelUUID /\
  loaded c_ID (rows (db_controllers d)) (im_TargetControllerID mc.1) zeroController mc.2.

Lemma locked_migration_sees modelUUID d :
  wp (GetIncomingModelMigrationWithLock (migrationOf modelUUID)) (sees (migration_of d modelUUID) d) d.
Proof.
  unfold GetIncomingModelMigrationWithLock. simpl. apply wp_sees_map_err. eapply wp_sees_bind; [apply first_wp, part_migrations|].
  intros row d1 Ht [Hin Hu%bool_decide_eq_true]. unfold preloadMigration. eapply wp_sees_bind; [apply preload_sees, part_controllers|].
  intros c d2 Ht2 Hc. wp_value. split; [by split|]. intros mc Hmc. apply (inj Ok) in Hmc as <-. split_and!; [done|done|].
  simpl. destruct (tables_eq _ _ Ht) as (_ & <- & _). exact Hc.
Qed.

Lemma incoming_finds modelUUID s :
  wp (incoming (C:=C) modelUUID) (finds still (migration_of (w_db (fst s)) modelUUID) s) s.
Proof.
  apply finds_jdb. unfold GetIncomingModelMigration. apply wp_sees_ready, locked_migration_sees.
Qed.

(** ** Activation *)

Definition apart_mappings d :=
  (rows (db_groups d), rows (db_roles d), rows (db_identities d), rows (db_controllers d), rows (db_models d),
   rows (db_offers d), rows (db_clouds d), rows (db_credentials d), rows (db_defaults d), more_tables d).

(** A row for each entry that names someone. *)
Definition mapping_key (u : UserMapping) := (um_ModelUUID u, um_LocalUser u, um_ExternalUserName u).
Definition entries_of (uuid : option string) (entries : list (string * string)) : list (option string * string * string) :=
  (fun le : string * string => (uuid, le.1, le.2)) <$> filter (fun le : string * string => le.2 <> "") entries.
Definition mappings_added (uuid : option string) (entries : list (string * string)) d d' : Prop :=
  apart_mappings d' = apart_mappings d /\ unique_rows (rows (db_mappings d')) /\
  exists news, rows (db_mappings d') = rows (db_mappings d) ++ news /\ mapping_key <$> news = entries_of uuid entries.

Lemma mappings_added_cons uuid le entries d d1 d2 u :
  le.2 <> "" -> mapping_key u = (uuid, le.1, le.2) ->
  apart_mappings d1 = apart_mappings d -> rows (db_mappings d1) = rows (db_mappings d) ++ [u] ->
  mappings_added uuid entries d1 d2 -> mappings_added uuid (le :: entries) d d2.
Proof.
  intros Hne Hk Hap Hr (Hap2 & Hu & news & Hr2 & Hn). split_and!; [congruence|done|]. exists (u :: news).
  split; [by rewrite Hr2, Hr, <- (assoc_L (++))|]. unfold entries_of in *. rewrite filter_cons_True by done. rewrite !fmap_cons. by f_equal.
Qed.

Lemma addMappings_yields modelUUID mig d :
  unique_rows (rows (db_mappings d)) ->
  wp (addMappings modelUUID mig) (yields (fun _ d' => mappings_added (im_ModelUUID mig) (map_to_list (im_UserMapping mig)) d d')) d.
Proof.
  unfold addMappings. generalize (map_to_list (im_UserMapping mig)). intros entries. revert d.
  induction entries as [|le entries IH]; intros d Hu; cbn [for_range].
  { wp_value. split; [done|]. intros _ _. split_and!; [done|done|]. exists []. by rewrite app_nil_r. }
  case_decide as Hne.
  { apply wp_bind. wp_value. cbn [bind_post]. eapply wp_mono; [by apply IH|]. intros o d' [Ha Hd]. split; [done|]. intros a Hoa.
    destruct (Hd a Hoa) as (Hap & Hu' & news & Hr & Hn). split_and!; [done|done|]. exists news. split; [done|].
    unfold entries_of. rewrite filter_cons_False by (by intros Hc). exact Hn. }
  eapply (yields_bind (fun _ d' => exists u, mapping_key u = (im_ModelUUID mig, le.1, le.2) /\ apart_mappings d' = apart_mappings d /\
    rows (db_mappings d') = rows (db_mappings d) ++ [u] /\ unique_rows (rows (db_mappings d')))).
  { eapply yields_bind; [apply yields_map_err|intros u d' Hd'; wp_value; split; [done|]; intros _ _; exact Hd'].
    unfold AddUserMapping. apply wp_ready; [intros _ _|by intros e _; split]. apply yields_map_err, wp_zoom.
    eapply wp_mono; [by apply law_create|]. intros o t [Ha Ho]. split; [done|]. intros u ->.
    destruct Ho as ((i & now & _ & ->) & Hr & Hu'). eexists. split_and!; [|done|exact Hr|exact Hu']. done. }
  intros _ d1 (u & Hk & Hap & Hr & Hu1). eapply wp_mono; [by apply IH|]. intros o d2 [Ha Hd]. split; [done|]. intros a Hoa.
  by eapply mappings_added_cons; [..|by apply (Hd a)].
Qed.

Definition apart_activation d :=
  (rows (db_groups d), rows (db_roles d), rows (db_identities d), rows (db_controllers d),
   rows (db_offers d), rows (db_clouds d), rows (db_credentials d), rows (db_defaults d),
   (rows (db_regions d), rows (db_priorities d), rows (db_bootstraps d), rows (db_sshkeys d), rows (db_profiles d), rows (db_audit d))).

Definition model_activated (mig : IncomingModelMigration) (modelUUID : string) d d' : Prop :=
  apart_activation d' = apart_activation d /\
  (exists m, m ∈ rows (db_models d) /\ m_UUID m = Some modelUUID /\
     rows (db_models d') = Models.replaced (activated m) (rows (db_models d))) /\
  (exists news, rows (db_mappings d') = rows (db_mappings d) ++ news /\
     mapping_key <$> news = entries_of (im_ModelUUID mig) (map_to_list (im_UserMapping mig))) /\
  rows (db_migrations d') = filter (fun x => im_ID x <> im_ID mig) (rows (db_migrations d)).

Lemma activateModel_wp modelUUID mig d :
  Models.models_ok d -> unique_rows (rows (db_mappings d)) ->
  wp (activateModel modelUUID mig) (fun o d' => answered o /\ match o with Ok _ => model_activated mig modelUUID d d' | _ => d' = d end) d.
Proof.
  intros Hok Hu. unfold activateModel, Transaction. apply wp_ready; [intros _ _|by intros e _; split].
  apply (yields_rollback (fun _ d' => model_activated mig modelUUID d d')).
  eapply yields_bind; [by apply addMappings_yields|]. intros u1 d1 (Hap1 & _ & news & Hr1 & Hn). unfold apart_mappings in Hap1.
  eapply yields_bind; [apply yields_map_err, yields_sees, LoadModel_sees|]. intros lm d2 (Ht2 & (Hin & _) & Hlm).
  destruct (tables_eq _ _ Ht2) as (_ & _ & Hm2 & _).
  assert (rows (db_models d1) = rows (db_models d)) as Hm1 by congruence.
  eapply (yields_bind (fun _ d3 => apart_models d3 = apart_models d2 /\
    rows (db_models d3) = Models.replaced (activated (lm_Model lm)) (rows (db_models d)))).
  { apply yields_map_err. eapply wp_mono; [apply Models.UpdateModel_replaces|].
    - unfold Models.models_ok. by rewrite Hm2, Hm1.
    - rewrite Hm2. by apply list_elem_of_fmap_2 with (f := m_ID) in Hin.
    - intros o d3 (Ha & Hap & Ho). split; [done|]. intros a ->. destruct Ho as (_ & Hr & _). by rewrite Hm2, Hm1 in Hr. }
  intros u3 d3 [Hap3 Hr3]. unfold DeleteIncomingModelMigration. apply yields_map_err. apply wp_ready; [intros _ _|by intros e _; split].
  apply yields_map_err. eapply wp_mono; [apply yields_delete|]. intros o d4 [Ha Hd]. split; [done|]. intros a Hoa.
  destruct (Hd a Hoa) as (t & -> & _ & Hrm).
  assert (rows (db_mappings d3) = rows (db_mappings d) ++ news) as Hmap.
  { rewrite <- Hr1. unfold apart_models in Hap3. all_tables. done. }
  assert (rows (db_migrations d3) = rows (db_migrations d)) as Hmig.
  { unfold apart_models in Hap3. all_tables. done. }
  split_and!; [|exists (lm_Model lm)|exists news; split; [exact Hmap|exact Hn]|].
  - change (apart_activation d3 = apart_activation d). clear Hn Hr1 Hmap Hmig Hrm. unfold apart_activation, apart_models in *. all_tables. done.
  - rewrite <- Hm1. split_and!; [done|by apply Hlm|]. by rewrite Hm1.
  - unfold put_migrations, db_migrations at 1. simpl. rewrite Hrm, Hmig. done.
Qed.

Definition activate_post mt s (o : outcome unit) s' : Prop :=
  o <> OutOfFuel /\ j_tuples s' = j_tuples s /\
  ((same s s' /\ o <> Ok tt) \/
   (o = Ok tt /\ exists mig, mig ∈ rows (db_migrations (w_db (fst s))) /\ im_ModelUUID mig = Some (Id mt) /\
      model_activated mig (Id mt) (w_db (fst s)) (w_db (fst s')))).

(** Activating a migrated model is all or nothing and changes no tuple.
    Either the tables are as before and the caller got an error, or it got
    none and there was a migration of the model: the model is alive and in no
    migration, the local users have the mappings of the migration, those that
    are mapped to nobody excepted, the row of the migration is gone, and
    nothing else changed. *)
Theorem Activate_effect j user mt info related s s' o :
  Models.models_ok (w_db (fst s)) -> unique_rows (rows (db_mappings (w_db (fst s)))) ->
  Activate j user mt info related s = (s', o) -> activate_post mt s o s'.
Proof.
  intros Hok Hu. refine (wp_elim _ (activate_post mt s) _ _ _ _). unfold Activate.
  assert (absorbs (activate_post mt s) s) as HQ.
  { intros o1 s1 Ho Hs Hn. split; [done|]. split; [apply Hs|by left]. }
  eapply (wp_same_bind _ _ _ _ s); [done|done|apply finds_still, finds_map_err, incoming_finds|].
  intros [mig c] s1 _ Hs1 (Hin & Huuid & _). simpl in Hin, Huuid.
  eapply (wp_same_bind _ _ _ _ s); [done|done|apply finds_map_err, finds_dial|]. intros api s2 _ Hs2 _.
  eapply (wp_same_bind _ _ _ _ s); [done|done|apply finds_map_err, finds_ctl|]. intros [] s3 _ [HT Ht] _.
  assert (tables (w_db (fst s3)) = tables (w_db (fst s))) as Hd by exact Ht.
  apply wp_map_err, wp_jdb. eapply wp_mono; [apply activateModel_wp|].
  - by apply (Models.models_ok_same s).
  - by destruct (tables_eq _ _ Hd) as (_ & _ & _ & _ & _ & -> & _).
  - intros o1 d [Ha Ho]. destruct o1 as [[]|e|x|].
    2-3: (apply HQ; [done|by rewrite Ho|done]). 2: by destruct Ha.
    split; [done|]. split; [exact HT|]. right. split; [done|]. exists mig. split_and!; [done|done|].
    unfold model_activated in *. clear Ht HT HQ Hok Hu Hin Hs1 Hs2. unfold apart_activation in *. all_tables. done.
Qed.

(** ** Import *)

Lemma FindRegionByCloudName_sees cloudName regionName d :
  wp (FindRegionByCloudName cloudName regionName) (sees (fun lr => lr_Region lr ∈ rows (db_regions d) /\
    reg_CloudName (lr_Region lr) = cloudName /\ reg_Name (lr_Region lr) = regionName) d) d.
Proof.
  unfold FindRegionByCloudName, findRegion. apply wp_sees_ready, wp_sees_map_err.
  eapply wp_sees_bind; [apply find_wp, part_clouds|]. intros clouds d1 Ht1 Hc. cbv beta in Hc.
  eapply wp_sees_bind; [apply first_wp, part_regions|]. intros r d2 Ht2 [Hin [Hr Hn]%bool_decide_eq_true].
  eapply wp_sees_bind; [apply preload_by_sees, part_clouds|]. intros cl d3 Ht3 _.
  eapply wp_sees_mono; [apply preloadRegion_sees|]. intros lr (-> & _). split; [by destruct (tables_more _ _ Ht1) as [<- _]|].
  apply list_elem_of_fmap in Hr as (c & -> & [_ Hname%bool_decide_eq_true]%Hc). done.
Qed.

Definition apart_import d :=
  (rows (db_groups d), rows (db_roles d), rows (db_identities d), rows (db_controllers d),
   rows (db_clouds d), rows (db_mappings d), rows (db_credentials d), rows (db_defaults d), more_tables d).

Definition offer_row (dsc : Desc) (modelName : string) (m : Model) (x : DescOffer) : Z * string * string * string :=
  (m_ID m, do_OfferName x, do_OfferUUID x, MakeURL (Id (desc_Owner dsc)) modelName (do_OfferName x)).
Definition offer_fields (o : ApplicationOffer) : Z * string * string * string := (ao_ModelID o, ao_Name o, ao_UUID o, ao_URL o).

(** One new row, of a model in the course of an import, in a region and with a
    credential that JIMM has, and one row for each described offer. *)
Definition model_imported (targetControllerID : Z) (dsc : Desc) (m : Model) (offers : list ApplicationOffer) d d' : Prop :=
  apart_import d' = apart_import d /\
  (exists name uuid cred region c m0,
     desc_ConfigString dsc NameKey = Some name /\ desc_ConfigString dsc UUIDKey = Some uuid /\ desc_CloudCredential dsc = Some cred /\
     region ∈ rows (db_regions d) /\ reg_CloudName region = dc_Cloud cred /\ reg_Name region = desc_CloudRegion dsc /\
     c ∈ rows (db_credentials d) /\ row_conflict c (credential_lookup dsc cred) = true /\
     m0 = MkModel 0 name (Some uuid) (Id (desc_Owner dsc)) targetControllerID (reg_ID region) (cc_ID c) "" MigrationModeImporting /\
     inserted m0 m (rows (db_models d)) (rows (db_models d')) /\
     rows (db_offers d') = rows (db_offers d) ++ offers /\ offer_fields <$> offers = offer_row dsc name m <$> describedOffers dsc).

Lemma importOffers_yields dsc name m xs d :
  unique_rows (rows (db_offers d)) ->
  wp (map_range xs (importOffer dsc name m)) (yields (fun offers d' => apart_offers d' = apart_offers d /\
    rows (db_offers d') = rows (db_offers d) ++ offers /\ offer_fields <$> offers = offer_row dsc name m <$> xs)) d.
Proof.
  revert d. induction xs as [|x xs IH]; intros d Hu; cbn [map_range].
  { wp_value. split; [done|]. intros offers Hoa. apply (inj Ok) in Hoa as <-. by rewrite app_nil_r. }
  eapply (yields_bind (fun o d' => apart_offers d' = apart_offers d /\ rows (db_offers d') = rows (db_offers d) ++ [o] /\
    unique_rows (rows (db_offers d')) /\ offer_fields o = offer_row dsc name m x)).
  { apply yields_map_err. eapply wp_mono; [by apply AddApplicationOffer_wp|]. intros o d' (Ha & Hap & Ho). split; [done|]. intros r ->.
    destruct Ho as ((i & now & _ & ->) & Hr & Hu'). done. }
  intros o d1 (Hap1 & Hr1 & Hu1 & Hf). eapply yields_bind; [by apply IH|]. intros os d2 (Hap2 & Hr2 & Hf2). wp_value. split; [done|].
  intros offers Hoa. apply (inj Ok) in Hoa as <-. split_and!; [congruence|by rewrite Hr2, Hr1, <- (assoc_L (++))|].
  rewrite !fmap_cons. by f_equal.
Qed.

Definition importable d : Prop := unique_rows (rows (db_models d)) /\ unique_rows (rows (db_offers d)).

Lemma importFromDescription_yields targetControllerID dsc d :
  importable d ->
  wp (importFromDescription targetControllerID dsc) (yields (fun mo d' => model_imported targetControllerID dsc mo.1 mo.2 d d')) d.
Proof.
  intros [Hum Huo]. unfold importFromDescription. destruct (desc_ConfigString dsc NameKey) as [name|] eqn:Hname; [|by wp_value; split].
  destruct (desc_ConfigString dsc UUIDKey) as [uuid|] eqn:Huuid; [|by wp_value; split].
  destruct (desc_CloudCredential dsc) as [cred|] eqn:Hcred; [|by wp_value; split].
  eapply yields_bind; [apply yields_sees, Models.GetCloudCredential_sees|]. intros c d1 (Ht1 & Hc & Hconf).
  eapply yields_bind; [apply yields_sees, FindRegionByCloudName_sees|]. intros lr d2 (Ht2 & Hreg & Hcl & Hrn). rewrite Ht1 in Ht2.
  destruct (tables_more _ _ Ht1) as (Hregs & _). rewrite Hregs in Hreg. destruct (tables_eq _ _ Ht2) as (_ & _ & Hm & Ho & _).
  set (m0 := MkModel 0 name _ _ _ _ _ _ _).
  eapply (yields_bind (fun m d' => apart_models d' = apart_models d2 /\ inserted m0 m (rows (db_models d2)) (rows (db_models d')))).
  { apply yields_map_err. eapply wp_mono; [apply db_AddModel_wp; by rewrite Hm|]. intros o d' (Ha & Hap & Hi). split; [done|]. by intros m ->. }
  intros m d3 [Hap3 Hins]. assert (rows (db_offers d3) = rows (db_offers d)) as Ho3 by (unfold apart_models in Hap3; congruence).
  eapply yields_bind; [apply importOffers_yields; by rewrite Ho3|]. intros offers d4 (Hap4 & Hr4 & Hf). wp_value. split; [done|].
  intros mo Hoa. apply (inj Ok) in Hoa as <-. split.
  - clear Hins Hr4. unfold apart_import, apart_models, apart_offers in *. all_tables. done.
  - exists name, uuid, cred, (lr_Region lr), c, m0. simpl. rewrite Ho3 in Hr4.
    assert (rows (db_models d4) = rows (db_models d3)) as -> by (unfold apart_offers in Hap4; congruence). rewrite <- Hm. by split_and!.
Qed.

(** What the transaction reads and stores. *)
Definition import_stored (raw modelUUID : string) (mc : IncomingModelMigration * Controller) (m : Model) (offers : list ApplicationOffer)
    (dsc : Desc) d d' : Prop :=
  migration_of d modelUUID mc /\
  (exists dsc0, describedFor raw mc.2 = Ok dsc0 /\ modifyModelDescription dsc0 (im_UserMapping mc.1) = Ok dsc) /\
  model_imported (c_ID mc.2) dsc m offers d d'.

Lemma yields_lift {A B} (o : outcome A) (k : A -> M (Db T) B) Q d :
  answered o -> (forall a, o = Ok a -> wp (k a) (yields Q) d) -> wp (lift o ≫= k) (yields Q) d.
Proof. intros Ha Hk. apply wp_bind. wp_value. destruct o as [a|e|x|]; cbn [bind_post]; [by apply Hk|by split..|by destruct Ha]. Qed.

Lemma NewUserTag_total name : answered (NewUserTag name).
Proof. unfold NewUserTag. by destruct (IsValidUser name). Qed.

Lemma migrationDescriptionVersion_answered text v : (forall x, answered (version_Parse x)) -> answered (migrationDescriptionVersion text v).
Proof.
  intros Hv. unfold migrationDescriptionVersion, MustParse.
  pose proof (Hv "3.6.9") as Hp1. destruct (version_Parse "3.6.9"); [|done..]. simpl. destruct (_ <? _)%Z; [done|].
  pose proof (Hv "3.6.12") as Hp2. destruct (version_Parse "3.6.12"); [|done..]. simpl. destruct (_ && _); [done|].
  pose proof (Hv "3.6.13") as Hp3. destruct (version_Parse "3.6.13"); [|done..]. simpl.
  pose proof (Hv "3.6.22") as Hp4. destruct (version_Parse "3.6.22"); [|done..]. simpl. destruct (_ && _); [done|].
  pose proof (Hv "3.6.23") as Hp5. destruct (version_Parse "3.6.23"); [|done..]. simpl. by destruct (_ =? _)%Z.
Qed.

Lemma Deserialize_answered raw text v : (forall x, answered (version_Parse x)) -> answered (Deserialize raw text v).
Proof.
  intros Hv. unfold Deserialize. pose proof (migrationDescriptionVersion_answered text v Hv) as Ha.
  destruct (migrationDescriptionVersion text v) as [n| | |]; [|done..]. simpl. destruct (desc_Deserialize n raw); [done|].
  by repeat case_decide.
Qed.

Lemma describedFor_answered raw c : (forall x, answered (version_Parse x)) -> answered (describedFor raw c).
Proof.
  intros Hv. unfold describedFor. pose proof (Hv (c_AgentVersion c)) as Hp. destruct (version_Parse (c_AgentVersion c)) as [n| | |]; [|done..].
  pose proof (Deserialize_answered raw (c_AgentVersion c) n Hv) as Ha. by destruct (Deserialize raw (c_AgentVersion c) n).
Qed.

Lemma modifyModelDescription_answered dsc um : answered (modifyModelDescription dsc um).
Proof.
  unfold modifyModelDescription. assert (answered (setMappedOwner dsc um)) as Ha.
  { unfold setMappedOwner, NewUserTag. destruct (IsLocal _); [|done]. destruct (um !! _) as [e|]; [|done]. by destruct (IsValidUser e). }
  destruct (setMappedOwner dsc um); [|done..]. simpl. destruct (desc_CloudCredential _) as [cred|]; [|done].
  unfold NewCloudTag, NewJujuTag. destruct (ValidTagId CloudTagKind _); [|done]. simpl. unfold credentialOwner, NewUserTag.
  destruct (IsValidUser (dc_Owner cred)); [|done]. simpl. destruct (IsLocal _); [|done]. destruct (um !! _) as [e|]; [|done].
  by destruct (IsValidUser e).
Qed.

Lemma yields_lift_err {A B} f (o : outcome A) (k : A -> M (Db T) B) Q d :
  answered o -> (forall a, o = Ok a -> wp (k a) (yields Q) d) -> wp (map_err f (lift o) ≫= k) (yields Q) d.
Proof. intros Ha Hk. apply wp_bind, wp_map_err. wp_value. destruct o as [a|e|x|]; cbn [bind_post]; [by apply Hk|by split..|by destruct Ha]. Qed.

Lemma importTx_wp modelUUID raw d :
  (forall x, answered (version_Parse x)) -> importable d ->
  wp (importTx modelUUID raw) (fun o d' => answered o /\ match o with
    | Ok r => exists mig, import_stored raw modelUUID (mig, r.1.2) r.1.1.1 r.1.1.2 r.2 d d'
    | _ => d' = d end) d.
Proof.
  intros Hv Hok. unfold importTx, Transaction. apply wp_ready; [intros _ _|by intros e _; split].
  apply (yields_rollback (fun r d' => exists mig, import_stored raw modelUUID (mig, r.1.2) r.1.1.1 r.1.1.2 r.2 d d')).
  eapply yields_bind; [apply yields_map_err, yields_sees, locked_migration_sees|]. intros [mig c] d1 [Ht1 Hmig].
  apply yields_lift; [by apply describedFor_answered|]. intros dsc0 Hdsc0.
  apply yields_lift_err; [apply modifyModelDescription_answered|]. intros dsc Hdsc.
  eapply yields_bind; [apply yields_map_err, importFromDescription_yields|].
  { unfold importable in *. destruct (tables_eq _ _ Ht1) as (_ & _ & -> & -> & _). done. }
  intros [m offers] d2 Himp. wp_value. split; [done|]. intros r Hoa. apply (inj Ok) in Hoa as <-. exists mig. split_and!; [done|by exists dsc0|].
  unfold model_imported, apart_import in *. simpl in *. clear Hmig Hok. all_tables. done.
Qed.

(** *** The tuples of an imported model *)

Definition import_tuple user (m : Model) (offers : list ApplicationOffer) (ct : Tag) (t : Tuple) : Prop :=
  exists g, Model_ResourceTag m = Ok g /\
    (t = grant_edge ct g ControllerRelation \/
     (exists e, user_entity user = Ok e /\ t = edge e AdministratorRelation (ConvertTag g)) \/
     exists offer og, offer ∈ offers /\ Offer_ResourceTag offer = Ok og /\ t = grant_edge g og ModelRelation).

(** Steps that only grant tuples of a kind, whatever their outcome. *)
Definition only_grants {A} (P : Tuple -> Prop) (m : M (JW F T C) A) : Prop :=
  forall s, wp m (fun o s' => o <> OutOfFuel /\ Offers.granted_some P s s') s.

Lemma only_grants_bind {A B} P (m : M (JW F T C) A) (k : A -> M (JW F T C) B) :
  only_grants P m -> (forall a, only_grants P (k a)) -> only_grants P (m ≫= k).
Proof.
  intros Hm Hk s. apply wp_bind. eapply wp_mono; [apply Hm|]. intros [a|e|x|] s1 [Ho Hs1]; cbn [bind_post]; [|done..].
  eapply wp_mono; [apply Hk|]. intros o s2 [Ho2 Hs2]. split; [done|by eapply Offers.granted_some_trans].
Qed.
Lemma only_grants_map_err {A} P f (m : M (JW F T C) A) : only_grants P m -> only_grants P (map_err f m).
Proof. intros Hm s. apply wp_map_err. eapply wp_mono; [apply Hm|]. by intros [] s1 [Ho Hs1]. Qed.
Lemma only_grants_ret {A} P (a : A) : only_grants P (mret a).
Proof. intros s. wp_value. split; [done|apply Offers.granted_some_refl]. Qed.
Lemma only_grants_tag {A} P (o : outcome Tag) (k : Tag -> M (JW F T C) A) :
  o <> OutOfFuel -> (forall t, o = Ok t -> only_grants P (k t)) -> only_grants P (lift o ≫= k).
Proof.
  intros Ho Hk s. apply wp_bind. wp_value. destruct o; cbn [bind_post]; [by apply Hk|by split; [|apply Offers.granted_some_refl]..|done].
Qed.
Lemma only_grants_fga P (m : M F unit) t :
  (forall f, wp m (fun o f' => answered o /\ srv_tuples f' = match o with Ok _ => srv_tuples f ∪ {[t]} | _ => srv_tuples f end) f) ->
  P t -> only_grants P (jfga m).
Proof.
  intros Hm HP s. apply wp_jfga. eapply wp_mono; [apply Hm|]. intros o f [Ha HT]. split; [by destruct o|].
  split_and!; [done|done|..]; unfold j_tuples, Perm.w_tuples; simpl; rewrite HT; [destruct o; set_solver|].
  intros t' Ht. destruct o; [|by left..]. apply elem_of_union in Ht as [Ht|Ht%elem_of_singleton]; [by left|by right; subst].
Qed.
Lemma only_grants_user P u r g :
  (forall e, user_entity u = Ok e -> P (edge e r (ConvertTag g))) -> only_grants P (jfga (setAccess u g r)).
Proof.
  intros HP. destruct (user_entity_cases u) as [[e He]|[x Hx]].
  - eapply only_grants_fga; [intros f; by apply setAccess_wp|by apply HP].
  - intros s. apply wp_jfga. unfold setAccess, user_entity in *. apply wp_bind. wp_value.
    destruct (Identity_ResourceTag (u_Identity u)); simpl in *; try done. cbn [bind_post]. split; [done|]. destruct s as [[]]. apply Offers.granted_some_refl.
Qed.

Lemma addModelAndOfferPermissions_grants user m offers ct :
  only_grants (import_tuple user m offers ct) (addModelAndOfferPermissions user m offers ct).
Proof.
  unfold addModelAndOfferPermissions. apply only_grants_tag.
  { pose proof (Model_ResourceTag_answered m) as Ha. by destruct (Model_ResourceTag m). }
  intros g Hg. apply only_grants_bind.
  - apply only_grants_map_err, only_grants_bind.
    + eapply only_grants_fga; [intros f; apply setResourceAccess_wp|]. exists g. split; [done|by left].
    + intros _. apply only_grants_user. intros e He. exists g. split; [done|]. right. left. by exists e.
  - intros _. assert (forall os, (forall x, x ∈ os -> x ∈ offers) -> only_grants (import_tuple user m offers ct) (for_range os (fun offer =>
      offerTag ← lift (Offer_ResourceTag offer);
      map_err (fun err => Errorf "failed to add application offer permissions: %w" [ArgE err]) (jfga (AddModelApplicationOffer g offerTag))))) as Hloop.
    { induction os as [|x os IH]; intros Hin; [apply only_grants_ret|]. cbn [for_range]. apply only_grants_bind.
      - apply only_grants_tag; [by apply Ctl.NewJujuTag_total|]. intros og Hog. apply only_grants_map_err.
        eapply only_grants_fga; [intros f; apply setResourceAccess_wp|]. exists g. split; [done|]. right. right. exists x, og.
        split_and!; [apply Hin; by left|done|done].
      - intros _. apply IH. intros y Hy. apply Hin. by right. }
    by apply Hloop.
Qed.

Definition import_post user (raw : string) s (o : outcome unit) s' : Prop :=
  o <> OutOfFuel /\
  ((same s s' /\ o <> Ok tt) \/
   exists modelUUID mc m offers dsc, TryDetermineModelUUID raw = Ok modelUUID /\
     import_stored raw modelUUID mc m offers dsc (w_db (fst s)) (w_db (fst s')) /\ j_tuples s ⊆ j_tuples s' /\
     forall t, t ∈ j_tuples s' -> t ∈ j_tuples s \/
       exists ct, Controller_ResourceTag mc.2 = Ok ct /\ import_tuple user m offers ct t).

Lemma TryDetermineModelUUID_answered raw : (forall x, answered (version_Parse x)) -> answered (TryDetermineModelUUID raw).
Proof.
  intros Hv. unfold TryDetermineModelUUID, MustParse. pose proof (Hv latestDescriptionTargetVersion) as Hp.
  destruct (version_Parse latestDescriptionTargetVersion) as [v| | |]; [|done..]. simpl.
  pose proof (Deserialize_answered raw latestDescriptionTargetVersion v Hv) as Ha. destruct (Deserialize _ _ _); [|done..].
  by destruct (desc_ConfigString _ _).
Qed.

Lemma import_stored_tables raw modelUUID mc m offers dsc d d1 d2 :
  tables d2 = tables d1 -> import_stored raw modelUUID mc m offers dsc d d1 -> import_stored raw modelUUID mc m offers dsc d d2.
Proof. intros Ht (Hm & Hd & Hi). split_and!; [done|done|]. clear Hm Hd. unfold model_imported, apart_import in *. all_tables. done. Qed.


(** ** Stale migrations *)

Definition swept_uuids (gone : list IncomingModelMigration) : list (option string) :=
  (fun g => Some (default "" (im_ModelUUID g))) <$> gone.
Definition apart_sweep d :=
  (rows (db_groups d), rows (db_roles d), rows (db_identities d), rows (db_controllers d),
   rows (db_clouds d), rows (db_credentials d), rows (db_defaults d),
   (rows (db_regions d), rows (db_priorities d), rows (db_bootstraps d), rows (db_profiles d), rows (db_audit d))).

(** These migrations are gone, with the models that they brought; of the
    offers, mappings and keys only some went. *)
Definition swept (gone : list IncomingModelMigration) d d' : Prop :=
  apart_sweep d' = apart_sweep d /\
  rows (db_migrations d') = filter (fun x => im_ID x ∉ im_ID <$> gone) (rows (db_migrations d)) /\
  rows (db_models d') = filter (fun m => m_UUID m ∉ swept_uuids gone) (rows (db_models d)) /\
  rows (db_offers d') `sublist_of` rows (db_offers d) /\ rows (db_mappings d') `sublist_of` rows (db_mappings d) /\
  rows (db_sshkeys d') `sublist_of` rows (db_sshkeys d).

Lemma swept_nil d d' : tables d' = tables d -> swept [] d d'.
Proof.
  intros Ht. unfold swept, apart_sweep. assert (forall A (P : A -> Prop) `{forall x, Decision (P x)} (l : list A), (forall x, P x) -> filter P l = l) as Hall.
  { intros A P ? l HP. induction l as [|x l IH]; [done|]. by rewrite filter_cons_True, IH. }
  rewrite !Hall by (intros x; apply not_elem_of_nil). all_tables. split_and!; done.
Qed.

Lemma swept_app g1 g2 d d1 d2 : swept g1 d d1 -> swept g2 d1 d2 -> swept (g1 ++ g2) d d2.
Proof.
  intros (Ha1 & Hi1 & Hm1 & Ho1 & Hu1 & Hk1) (Ha2 & Hi2 & Hm2 & Ho2 & Hu2 & Hk2). split_and!; [congruence| | |by etrans|by etrans|by etrans].
  - rewrite Hi2, Hi1. apply filter_filter. intros x. rewrite fmap_app, elem_of_app. tauto.
  - rewrite Hm2, Hm1. apply filter_filter. intros x. unfold swept_uuids. rewrite fmap_app, elem_of_app. tauto.
Qed.

Lemma cleanupTx_wp mig d :
  wp (cleanupTx mig) (fun o d' => answered o /\ match o with Ok _ => swept [mig] d d' | _ => d' = d end) d.
Proof.
  unfold cleanupTx, Transaction. apply wp_ready; [intros _ _|by intros e _; split].
  apply (yields_rollback (fun _ d' => swept [mig] d d')).
  eapply (yields_bind (fun _ d1 => exists t, d1 = put_migrations t d /\ rows t = filter (fun x => im_ID x <> im_ID mig) (rows (db_migrations d)))).
  { apply wp_ready; [intros _ _|by intros e _; split]. apply yields_map_err. eapply wp_mono; [apply yields_delete|].
    intros o d1 [Ha Hd]. split; [done|]. intros a Hoa. destruct (Hd a Hoa) as (t & -> & _ & Hr). by exists t. }
  intros u1 d1 (t1 & -> & Hr1).
  eapply (yields_bind (fun _ d2 => exists t, d2 = put_mappings t (put_migrations t1 d) /\ rows t `sublist_of` rows (db_mappings d))).
  { apply wp_ready; [intros _ _|by intros e _; split]. apply yields_map_err. eapply wp_mono; [apply yields_delete_where|].
    intros o d2 [Ha Hd]. split; [done|]. intros a Hoa. destruct (Hd a Hoa) as (t & -> & Hr). exists t. split; [done|]. rewrite Hr. apply sublist_filter. }
  intros u2 d2 (t2 & -> & Hr2). eapply wp_mono; [apply db_DeleteModel_wp|]. intros o d3 [Ha Hd]. split; [done|]. intros a ->.
  destruct Hd as (Hap & Hm & Ho & Hu & Hk). unfold swept.
  assert (rows (db_migrations d3) = rows t1) as Hmig.
  { clear -Hap. unfold apart_deletion in Hap. all_tables. done. }
  split_and!.
  - unfold apart_deletion, apart_sweep in *. simpl in *. clear -Hap. all_tables. done.
  - rewrite Hmig, Hr1. apply list_filter_iff. intros x. simpl. by rewrite list_elem_of_singleton.
  - rewrite Hm. apply list_filter_iff. intros m. unfold swept_uuids. simpl. rewrite list_elem_of_singleton.
    unfold deletes, modelByUUID, by_key. simpl. by rewrite bool_decide_eq_false.
  - rewrite Ho. apply sublist_filter.
  - rewrite Hu. etrans; [apply sublist_filter|exact Hr2].
  - rewrite Hk. apply sublist_filter.
Qed.

Lemma cleanupPartial_wp j mc s :
  wp (cleanupPartialModelMigration j mc) (fun o s' => o <> OutOfFuel /\ j_tuples s' = j_tuples s /\
    swept (match o with Ok _ => [mc.1] | _ => [] end) (w_db (fst s)) (w_db (fst s'))) s.
Proof.
  set (Q := fun (o : outcome unit) s' => o <> OutOfFuel /\ j_tuples s' = j_tuples s /\
    swept (match o with Ok _ => [mc.1] | _ => [] end) (w_db (fst s)) (w_db (fst s'))).
  assert (absorbs Q s) as HQ.
  { intros o s1 Ho [HT Ht] Hn. split_and!; [done|done|]. destruct o as [a| | |]; [by destruct (Hn a)|by apply swept_nil..]. }
  unfold cleanupPartialModelMigration. eapply (wp_same_bind _ _ _ _ s); [done|done|apply finds_map_err, finds_service|]. intros api s1 _ Hs1 _.
  eapply (wp_same_bind _ _ _ _ s); [done|done|apply finds_try, finds_ctl|]. intros _ s2 _ [HT Ht] _.
  assert (tables (w_db (fst s2)) = tables (w_db (fst s))) as Hd by exact Ht.
  apply wp_jdb. eapply wp_mono; [apply cleanupTx_wp|]. intros o d [Ha Ho]. split_and!; [done|exact HT|].
  destruct o as [[]|e|x|]; [|rewrite Ho; by apply swept_nil..|by destruct Ha].
  eapply (swept_app [] [mc.1]); [by apply swept_nil|exact Ho].
Qed.

Lemma cleanup_all_wp j migs s :
  wp (cleanup_all j migs) (fun o s' => o <> OutOfFuel /\ j_tuples s' = j_tuples s /\ exists gone,
    gone ⊆ fst <$> migs /\ swept gone (w_db (fst s)) (w_db (fst s')) /\ (o = Ok [] -> fst <$> migs ⊆ gone)) s.
Proof.
  revert s. induction migs as [|mc migs IH]; intros s; cbn [cleanup_all].
  { wp_value. split_and!; [done|done|]. exists []. split_and!; [done|by apply swept_nil|done]. }
  apply wp_bind, wp_try. eapply wp_mono; [apply cleanupPartial_wp|]. intros o s1 (Ho & HT1 & Hsw1). rewrite fmap_cons.
  destruct o as [[]|e|x|]; cbn [bind_post]; [| | |done].
  3: { split_and!; [done|done|]. exists []. split_and!; [apply list_subseteq_nil|done|done]. }
  all: apply wp_bind; (eapply wp_mono; [apply IH|]); intros o s2 (Ho2 & HT2 & gone & Hsub & Hsw2 & Hall);
    (destruct o as [errs|e2|x2|]; cbn [bind_post]; [wp_value|..]).
  all: split_and!; [done|congruence|].
  all: pose proof (swept_app _ _ _ _ _ Hsw1 Hsw2) as Hsw; simpl in Hsw.
  1-4: exists (mc.1 :: gone); (split_and!; [set_solver|exact Hsw|]); try done.
  2-5: exists gone; (split_and!; [set_solver|exact Hsw|]); done.
  intros Herrs. apply (inj Ok) in Herrs as ->. specialize (Hall eq_refl). set_solver.
Qed.

(** A migration that was prepared too long ago. *)
Definition stale s (m : IncomingModelMigration) : Prop :=
  m ∈ rows (db_migrations (w_db (fst s))) /\ (im_CreatedAt m < time_Now (snd s) - TIMEOUT_PENDING_MIGRATION)%Z.

Definition cleanup_post s (o : outcome unit) s' : Prop :=
  o <> OutOfFuel /\ j_tuples s' = j_tuples s /\ exists gone, Forall (stale s) gone /\
    swept gone (w_db (fst s)) (w_db (fst s')) /\ (o = Ok tt -> forall m, stale s m -> m ∈ gone).

Lemma stale_migrations_finds t s :
  wp (jdb (C:=C) (GetIncomingModelMigrationsCreatedBefore t)) (finds still (fun migs =>
    forall m, m ∈ fst <$> migs <-> m ∈ rows (db_migrations (w_db (fst s))) /\ (im_CreatedAt m < t)%Z) s) s.
Proof.
  apply finds_jdb. unfold GetIncomingModelMigrationsCreatedBefore. apply wp_sees_ready, wp_sees_map_err.
  eapply wp_sees_bind; [apply find_wp, part_migrations|]. intros found d1 Ht Hfound. cbv beta in Hfound.
  eapply wp_sees_mono; [apply (map_range_sees (fun _ => True) (fun (m : IncomingModelMigration) (mc : IncomingModelMigration * Controller) => mc.1 = m /\ True))|].
  - by apply Forall_true.
  - intros m d2 _ _. unfold preloadMigration. eapply wp_sees_bind; [apply preload_sees, part_controllers|]. intros c d3 _ _. by apply wp_sees_ret.
  - intros migs Hmigs m. destruct (Forall2_image fst _ _ _ Hmigs) as [Himg _]. by rewrite Himg, Hfound, Z.ltb_lt.
Qed.

(** The cleanup of stale migrations always ends and changes no tuple.
    The migrations that it removed were all prepared longer ago than the
    timeout, and each went with the model that it had brought and in one
    transaction; no other model, no other migration and no row of another
    table was touched, offers, mappings and keys excepted, of which some may
    be gone.  When it reports no error it has removed every stale one. *)
Theorem CleanupPartialModelMigrations_effect j s s' o :
  CleanupPartialModelMigrations j s = (s', o) -> cleanup_post s o s'.
Proof.
  refine (wp_elim _ (cleanup_post s) _ _ _ _). unfold CleanupPartialModelMigrations.
  assert (absorbs (cleanup_post s) s) as HQ.
  { intros o1 s1 Ho [HT Ht] Hn. split_and!; [done|done|]. exists []. split_and!; [done|by apply swept_nil|]. intros ->. by destruct (Hn tt). }
  eapply wp_finds_bind; [apply finds_ctl_read| |intros o1 s1 Ha [Hs1 _] Hn; by apply HQ].
  intros now s1 [Hs1 Hc1] Hnow. injection Hnow as <-.
  eapply (wp_same_bind _ _ _ _ s); [done|done|apply finds_still, finds_map_err, stale_migrations_finds|]. intros migs s2 _ Hs2 Hmigs.
  apply wp_bind. eapply wp_mono; [apply cleanup_all_wp|]. intros o1 s3 (Ho & HT & gone & Hsub & Hsw & Hall).
  destruct Hs1 as [HT1 Ht1], Hs2 as [HT2 Ht2]. assert (tables (w_db (fst s2)) = tables (w_db (fst s))) as Hd2 by exact Ht2.
  assert (forall m, m ∈ fst <$> migs <-> stale s m) as Hst.
  { intros m. cbv beta in Hmigs. rewrite Hmigs. unfold stale. destruct (tables_more _ _ (Ht1 : tables (w_db (fst s1)) = tables (w_db (fst s)))) as (_ & _ & _ & _ & -> & _). done. }
  assert (forall o2 : outcome unit, o2 <> OutOfFuel -> (o2 = Ok tt -> o1 = Ok []) -> cleanup_post s o2 s3) as Hend.
  { intros o2 Ho2 Hr. split_and!; [done|congruence|]. exists gone. split_and!.
    - apply Forall_forall. intros m Hm. by apply Hst, Hsub.
    - eapply (swept_app []); [by apply swept_nil|exact Hsw].
    - intros Hok m Hm. by apply Hall, Hst; [apply Hr|]. }
  destruct o1 as [errs|e|x|]; cbn [bind_post]; [wp_value|by apply Hend..|done].
  destruct errs; by apply Hend.
Qed.

End facts.

End Migration.
