(* ===== verification/Upgrade.v ===== *)
(** * Upgrade: upgrades of models by migration
    ([internal/jimm/upgrade/upgrade.go]).

    The manager moves a model to another controller of JIMM and upgrades it
    there, with the operations of the Juju manager.  [retry.Call] of
    github.com/juju/retry is the class [Retry], whose law says what its
    documentation says: the function is called again until it succeeds, fails
    fatally, or the number of attempts is used up.  The queue of jobs is the
    class [Enqueuer], and the class [UpgradeInfo] holds what the code reads of
    an answer of a controller and of its errors. *)

From S2P Require Import Prelude Errors GoStrings Regexp Names AuthModel OpenFGA Dbmodel Users Database TagResolver Access JujuDb CloudDb JujuBase JujuModels ControllerDb JujuControllers JujuMigration.

Module Upgrade.

(** ** Libraries *)

(** A call of the function ends the series, or the next one follows. *)
Inductive retried {W} (fatal : gerror -> bool) (exceeded : gerror -> gerror) (f : M W unit) : nat -> W -> W -> outcome unit -> Prop :=
| retried_end n w w' o : f w = (w', o) -> (forall e, o <> Err e) -> retried fatal exceeded f (S n) w w' o
| retried_fatal n w w' e : f w = (w', Err e) -> fatal e = true -> retried fatal exceeded f (S n) w w' (Err e)
| retried_last w w' e : f w = (w', Err e) -> fatal e = false -> retried fatal exceeded f 1 w w' (Err (exceeded e))
| retried_again n w w1 w' e o : f w = (w1, Err e) -> fatal e = false -> retried fatal exceeded f (S n) w1 w' o ->
    retried fatal exceeded f (S (S n)) w w' o.

Class Retry := {
  attemptsExceeded : gerror -> gerror;
  retry_Call : forall {W}, (gerror -> bool) -> nat -> M W unit -> M W unit;
}.
Class RetryLaws `{Retry} := {
  law_retry : forall W (fatal : gerror -> bool) n (f : M W unit) w w' o, (0 < n)%nat ->
    retry_Call fatal n f w = (w', o) -> retried fatal attemptsExceeded f n w w' o;
}.

Class UpgradeInfo (C : Type) `{Controllers C} `{JujuVersion} := {
  info_AgentVersion : ModelInfo Info -> option Number;
  info_MigrationStatus : ModelInfo Info -> string;
  format_RFC3339 : Z -> string;
  version_text : Number -> string;
  version_Zero : Number;
  version_eq_dec :: EqDecision Number;
  IsAlreadyExists : gerror -> bool;
}.

Record UpgradeToArgs `{JujuVersion} := MkUpgradeToArgs {
  ut_ModelUUID : string; ut_TargetVersion : Number; ut_Username : string; ut_TargetControllerName : string;
}.
Arguments MkUpgradeToArgs {_}.
(** The number of the job, and whether it was left out as a duplicate. *)
Class Enqueuer (C : Type) `{JujuVersion} := { EnqueueUpgradeTo : UpgradeToArgs -> Call C (Z * bool) }.

Section upgrade.
Context {F : Type} `{OFGAServer F} {T : Type -> Type} `{Gorm T} {C : Type} `{Controllers C} `{JujuNames} `{Hash} `{UUIDParse} `{JujuVersion}
  `{!UpgradeInfo C} `{!Enqueuer C} `{Retry}.
Local Abbreviation JM := (M (JW F T C)).
Implicit Types (j : JujuManager) (user : User) (modelUUID targetControllerName : string).

(** ** [UpgradeModel] *)

Definition inProgress : gerror := New "model upgrade started/in-progress".
Definition upgradeInProgress (err : gerror) : bool := bool_decide (juju_ErrCode err = CodeUpgradeInProgress).

(** The function that is retried. *)
Definition upgrade_attempt (api : Conn) (mt : Tag) modelUUID (targetVersion : Number) : JM unit :=
  mi ← map_err (fun err => Errorf "failed to get model info before upgrade: %w" [ArgE err]) (ctl (api_ModelInfo api mt));
  match info_AgentVersion mi with
  | None => throw (New "model agent version is nil before upgrade")
  | Some v =>
      if (0 <=? version_Compare v targetVersion)%Z then mret tt else
      r ← try (ctl (api_UpgradeModel api modelUUID (MkUpgradeArgs (version_text targetVersion) "" false false)));
      match r with
      | inl _ => throw inProgress
      | inr err =>
          let err := if upgradeInProgress err then New "upgrade in progress" else err in
          if IsAlreadyExists err then mret tt else throw (Errorf "failed to upgrade model: %w" [ArgE err])
      end
  end.

Definition UpgradeModel j modelUUID (targetVersion : Number) : JM unit :=
  if decide (targetVersion = version_Zero) then throw (Codef CodeBadRequest "target version cannot be zero" []) else
  lm ← map_err (fun err => Errorf "failed to get model: %w" [ArgE err]) (jdb (LoadModel (modelOf "" (Some modelUUID) "")));
  api ← map_err (fun err => Errorf "failed to dial target controller: %w" [ArgE err]) (dialControllerAsService j (lm_Controller lm));
  mt ← lift (Model_ResourceTag (lm_Model lm));
  map_err (fun err => Errorf "failed to complete upgrade: %w" [ArgE err])
    (retry_Call (fun _ => false) 6 (upgrade_attempt api mt modelUUID targetVersion)).

(** ** [UpgradeTo] *)

Definition UpgradeTo user modelUUID targetControllerName : JM Z :=
  if negb (ValidTagId ModelTagKind modelUUID) then throw (Codef CodeBadRequest "invalid model UUID" []) else
  mt ← lift (NewModelTag modelUUID);
  validControllers ← map_err (fun err => Errorf "failed to list migration targets: %w" [ArgE err]) (Ctl.ListMigrationTargets mt);
  match find (fun c => bool_decide (c_Name c = targetControllerName)) validControllers with
  | None => throw (Codef CodeBadRequest "target controller %s is not a valid migration target for this model" [ArgS targetControllerName])
  | Some targetController =>
      targetVersion ← map_err (fun err => Errorf "failed to parse target controller version: %w" [ArgE err])
                        (lift (version_Parse (c_AgentVersion targetController)));
      '(id, duplicate) ← map_err (fun err => Errorf "failed to enqueue model migration and upgrade job: %w" [ArgE err])
        (ctl (EnqueueUpgradeTo (MkUpgradeToArgs modelUUID targetVersion (i_Name (u_Identity user)) targetControllerName)));
      if (duplicate : bool) then throw (Codef CodeInProgress "an upgrade job for this model is already in progress" []) else mret id
  end.

(** ** [MigrateModel] *)

Definition modelNotMigratedErr : gerror := ErrSentinel "model has not yet migrated to target controller".

Definition migrate_attempt (fuel : nat) j user (mt : Tag) modelUUID targetControllerName : JM unit :=
  mi ← Models.ModelInfo_ fuel j user mt;
  lm ← Models.GetModel_ modelUUID;
  if decide (c_Name (lm_Controller lm) = targetControllerName) then mret tt else
  match mi_MigrationStatus mi with
  | Some (Some end_) => throw (Errorf "model migration failed: migration ended at %s with status %s" [ArgS (format_RFC3339 end_); ArgS (info_MigrationStatus mi)])
  | _ => throw modelNotMigratedErr
  end.

(** [stderrors.Is(err, modelNotMigratedErr)] *)
Fixpoint is_notMigrated (err : gerror) : bool :=
  match err with
  | ErrSentinel m => bool_decide (m = "model has not yet migrated to target controller")
  | WrapError _ e | JimmError _ _ _ (Some e) => is_notMigrated e
  | _ => false
  end.

Definition MigrateModel (fuel : nat) j user modelUUID targetControllerName : JM unit :=
  if negb (ValidTagId ModelTagKind modelUUID) then throw (Codef CodeBadRequest "invalid model UUID" []) else
  mt ← lift (NewModelTag modelUUID);
  _ ← Models.ModelInfo_ fuel j user mt;
  lm ← Models.GetModel_ modelUUID;
  if decide (c_Name (lm_Controller lm) = targetControllerName) then mret tt else
  _ ← map_err (fun err => Errorf "failed to initiate internal migration: %w" [ArgE err])
        (Ctl.InitiateInternalMigration j user modelUUID targetControllerName);
  map_err (fun err => Errorf "failed to confirm internal migration completed: %w" [ArgE err])
    (retry_Call (fun err => negb (is_notMigrated err)) 30 (migrate_attempt fuel j user mt modelUUID targetControllerName)).
End upgrade.

(** ** Facts about retries *)

Section retries.
Context `{RetryLaws} {W : Type}.

(** What one call establishes when it succeeds, the last one has. *)
Lemma retried_success (fatal : gerror -> bool) exceeded (f : M W unit) n w w' (I : W -> Prop) (P : W -> W -> Prop) :
  (forall v v' o, I v -> f v = (v', o) -> I v' /\ (o = Ok tt -> P v v')) ->
  I w -> retried fatal exceeded f n w w' (Ok tt) -> I w' /\ exists v, I v /\ P v w' /\ f v = (w', Ok tt).
Proof.
  intros Hf HI Hr. remember (Ok tt) as o eqn:Ho. induction Hr as [n w w' o Hrun Hn|n w w' e Hrun He|w w' e Hrun He|n w w1 w' e o Hrun He Hr IH]; try done.
  - subst o. destruct (Hf _ _ _ HI Hrun) as [HI' HP]. split; [done|]. exists w. split; [done|]. split; [by apply HP|done].
  - destruct (Hf _ _ _ HI Hrun) as [HI1 _]. auto.
Qed.

(** No outcome of a series is new but the error that says that the attempts
    are used up. *)
Lemma retried_ends (fatal : gerror -> bool) exceeded (f : M W unit) n w w' (I : W -> Prop) :
  (forall v v' o, I v -> f v = (v', o) -> I v' /\ o <> OutOfFuel /\ forall p, o <> Panic p) ->
  I w -> forall o, retried fatal exceeded f n w w' o -> I w' /\ o <> OutOfFuel /\ forall p, o <> Panic p.
Proof.
  intros Hf HI o Hr. induction Hr as [n w w' o Hrun Hn|n w w' e Hrun He|w w' e Hrun He|n w w1 w' e o Hrun He Hr IH].
  - by apply (Hf _ _ _ HI Hrun).
  - split; [by apply (Hf _ _ _ HI Hrun)|done].
  - split; [by apply (Hf _ _ _ HI Hrun)|done].
  - apply IH. by apply (Hf _ _ _ HI Hrun).
Qed.
End retries.

Section facts.
Context {F : Type} `{OFGALaws F} {T : Type -> Type} `{GormLaws T} {C : Type} `{Controllers C} `{JujuNames} `{Hash} `{UUIDParse} `{JujuVersion}
  `{!UpgradeInfo C} `{!Enqueuer C} `{RetryLaws}.
Implicit Types (s : JW F T C) (j : JujuManager) (user : User).

(** What the controller of a model has said when an upgrade is over. *)
Definition upgraded (mt : Tag) (uuid : string) (target : Number) : Prop :=
  exists (api : Conn) (c c' : C),
    (exists mi v, api_ModelInfo api mt c = (c', inl mi) /\ info_AgentVersion mi = Some v /\ (0 <= version_Compare v target)%Z) \/
    (exists e, api_UpgradeModel api uuid (MkUpgradeArgs (version_text target) "" false false) c = (c', inr e) /\
       IsAlreadyExists (if upgradeInProgress e then New "upgrade in progress" else e) = true).

Lemma upgrade_attempt_wp api mt uuid target s :
  wp (upgrade_attempt api mt uuid target) (fun o s' => (same s s' /\ o <> OutOfFuel /\ forall p, o <> Panic p) /\ (o = Ok tt -> upgraded mt uuid target)) s.
Proof.
  unfold upgrade_attempt. apply wp_bind, wp_map_err, wp_ctl; intros c a Ha; cbn [bind_post]; [|by split_and!].
  destruct (info_AgentVersion a) as [v|] eqn:Hv; [|wp_value; by split_and!].
  destruct (0 <=? version_Compare v target)%Z eqn:Hle.
  { wp_value. split; [by split_and!|]. intros _. exists api, (snd s), c. left. exists a, v. split_and!; [done|done|lia]. }
  apply wp_bind, wp_try, wp_ctl; intros c1 r Hr; cbn [bind_post]; [wp_value; by split_and!|].
  destruct (IsAlreadyExists _) eqn:Hae; wp_value; [|by split_and!]. split; [by split_and!|]. intros _.
  exists api, c, c1. right. by exists r.
Qed.

(** Upgrading a model changes no row and no tuple and always ends, after
    at most six attempts; it reports success only when the controller of the
    model has reported an agent version that is at least the target, or that
    the upgrade has been made already. *)
Theorem UpgradeModel_effect j uuid target s s' o :
  UpgradeModel j uuid target s = (s', o) ->
  same s s' /\ o <> OutOfFuel /\
  (o = Ok tt -> target <> version_Zero /\ exists mt, Id mt = uuid /\ upgraded mt uuid target).
Proof.
  refine (wp_elim _ (fun o s' => same s s' /\ o <> OutOfFuel /\
    (o = Ok tt -> target <> version_Zero /\ exists mt, Id mt = uuid /\ upgraded mt uuid target)) _ _ _ _).
  unfold UpgradeModel. case_decide as Hz; [wp_value; by split_and!|].
  eapply wp_finds_bind; [apply finds_map_err, finds_jdb, LoadModel_sees| |intros o1 s1 Ha [Hs1 _] Hn; split_and!; [done|done|intros ->; by destruct (Hn tt)]].
  intros lm s1 [Hs1 _] [_ Hu]. specialize (Hu uuid eq_refl).
  eapply wp_finds_bind; [apply finds_map_err, finds_service| |intros o1 s2 Ha Hs2 Hn; split_and!; [by etrans|done|intros ->; by destruct (Hn tt)]].
  intros api s2 Hs2 _. apply wp_bind, wp_lift. unfold Model_ResourceTag. rewrite Hu. unfold NewModelTag, NewJujuTag.
  destruct (ValidTagId ModelTagKind uuid); cbn [bind_post]; [|split_and!; [by etrans|done|done]].
  apply wp_map_err. set (mt := MkTag ModelTagKind uuid). unfold wp. destruct (retry_Call _ _ _ s2) as [s3 o3] eqn:Hrun.
  apply law_retry in Hrun; [|lia].
  assert (forall v v' o, same s2 v -> upgrade_attempt api mt uuid target v = (v', o) ->
    (same s2 v' /\ o <> OutOfFuel /\ forall p, o <> Panic p) /\ (o = Ok tt -> upgraded mt uuid target)) as Hf.
  { intros v v' o' Hv Hr. pose proof (wp_elim _ _ _ _ _ (upgrade_attempt_wp api mt uuid target v) Hr) as [(Hw & ? & ?) ?].
    split; [|done]. split; [by etrans|done]. }
  destruct (retried_ends _ _ _ _ _ _ (same s2) (fun v v' o Hv Hr => proj1 (Hf v v' o Hv Hr)) (reflexivity s2) o3 Hrun) as (Hs3 & Hfuel & Hpan).
  assert (same s s3) as Hs by (etrans; [exact Hs1|]; by etrans). destruct o3 as [[]|e|p|]; [|by split_and!..].
  split_and!; [done|done|]. intros _. split; [done|]. exists mt. split; [done|].
  eapply (retried_success _ _ _ _ _ _ (same s2) (fun _ _ => upgraded mt uuid target)) in Hrun as (_ & v & _ & Hup & _); [done| |done].
  intros v v' o1 Hv Hr. destruct (Hf v v' o1 Hv Hr) as [[? _] ?]. done.
Qed.

(** The row of the model is on a controller of this name. *)
Definition on_controller (uuid name : string) s : Prop :=
  exists m c, m ∈ rows (db_models (w_db (fst s))) /\ m_UUID m = Some uuid /\ c_Name c = name /\
    loaded c_ID (rows (db_controllers (w_db (fst s)))) (m_ControllerID m) zeroController c.

Lemma GetModel_on_controller uuid s : uuid <> "" ->
  wp (Models.GetModel_ uuid) (fun o s' => forall lm, o = Ok lm -> on_controller uuid (c_Name (lm_Controller lm)) s') s.
Proof.
  intros Hne. unfold Models.GetModel_. rewrite decide_False by done. apply wp_map_err.
  eapply wp_mono; [apply finds_jdb, LoadModel_sees|]. intros o s' (_ & [[_ Ht] _] & HP).
  destruct o as [lm|e|p|]; cbn; intros lm' Hlm; try done. injection Hlm as <-. destruct (HP lm eq_refl) as [(Hin & Hc & _) Hu].
  unfold j_tables in Ht. apply tables_eq in Ht as (_ & Hcs & Hms & _). exists (lm_Model lm), (lm_Controller lm). rewrite Hcs, Hms. by split_and!; auto.
Qed.

(** Migrating a model to a controller reports success only when the row
    of the model, as it was read last, is on a controller of that name. *)
Theorem MigrateModel_arrives fuel j user uuid target s s' :
  uuid <> "" -> MigrateModel fuel j user uuid target s = (s', Ok tt) -> on_controller uuid target s'.
Proof.
  intros Hne Hrun. cut (wp (MigrateModel fuel j user uuid target) (fun o s' => o = Ok tt -> on_controller uuid target s') s).
  { intros Hwp. exact (wp_elim _ _ _ _ _ Hwp Hrun eq_refl). }
  assert (forall A (m : M (JW F T C) A) (k : A -> M (JW F T C) unit) Q s, (forall a s, wp (k a) (fun o s' => o = Ok tt -> Q s') s) ->
    wp (m ≫= k) (fun o s' => o = Ok tt -> Q s') s) as Hany.
  { intros A m k Q s0 Hk. apply wp_bind, wp_any. intros [a|e|p|] s1; cbn [bind_post]; [apply Hk|done..]. }
  unfold MigrateModel. destruct (negb _); [by wp_value|]. apply Hany. intros mt s1. apply Hany. intros mi s2.
  apply wp_bind. eapply wp_mono; [by apply GetModel_on_controller|]. intros [lm|e|p|] s3 Hlm; cbn [bind_post]; [|done..].
  case_decide as Hc; [wp_value; intros _; rewrite <- Hc; by apply Hlm|]. apply Hany. intros _ s4. apply wp_map_err.
  unfold wp. destruct (retry_Call _ _ _ s4) as [s5 o5] eqn:Hr. apply law_retry in Hr; [|lia]. destruct o5 as [[]|e|p|]; try done. intros _.
  eapply (retried_success _ _ _ _ _ _ (fun _ => True) (fun _ v => on_controller uuid target v)) in Hr as (_ & v & _ & Hv & _); [done| |done].
  intros v v' o _ Hv. split; [done|]. refine (wp_elim _ (fun o v' => o = Ok tt -> on_controller uuid target v') _ _ _ _ Hv).
  unfold migrate_attempt. apply Hany. intros mi' s6. apply wp_bind. eapply wp_mono; [by apply GetModel_on_controller|].
  intros [lm'|e|p|] s7 Hlm'; cbn [bind_post]; [|done..]. case_decide as Hc'; [wp_value; intros _; rewrite <- Hc'; by apply Hlm'|].
  by destruct (mi_MigrationStatus mi') as [[]|]; wp_value.
Qed.
(** A controller that a model can move to: another one, not older. *)
Definition migration_target (lm : LoadedModel) (current : Number) (c : Controller) : Prop :=
  c_ID (lm_Controller lm) <> c_ID c /\ exists v, version_Parse (c_AgentVersion c) = Ok v /\ (version_Compare current v <= 0)%Z.
Definition targets_of (uuid : string) s (l : list Controller) : Prop :=
  exists lm current, model_loaded (w_db (fst s)) lm /\ m_UUID (lm_Model lm) = Some uuid /\
    version_Parse (c_AgentVersion (lm_Controller lm)) = Ok current /\ Forall (migration_target lm current) l.

Lemma mapM_parsed (l : list (CloudRegionControllerPriority * Controller)) (k : list (Controller * Number)) :
  mapM (fun pc => v ← version_Parse (c_AgentVersion pc.2); Ok (pc.2, v)) l = Ok k ->
  Forall (fun cv => version_Parse (c_AgentVersion cv.1) = Ok cv.2) k.
Proof.
  revert k. induction l as [|[p c] l IH]; intros k; simpl; [intros [= <-]; constructor|].
  destruct (version_Parse (c_AgentVersion c)) as [v| | |] eqn:Hv; [|discriminate..]. simpl.
  destruct (mapM _ l) as [k'| | |]; [|discriminate..]. intros [= <-]. constructor; [done|by apply IH].
Qed.

Lemma ListMigrationTargets_wp uuid s :
  wp (Ctl.ListMigrationTargets (MkTag ModelTagKind uuid)) (fun o s' => same s s' /\ forall l, o = Ok l -> targets_of uuid s l) s.
Proof.
  unfold Ctl.ListMigrationTargets.
  eapply wp_finds_bind; [apply finds_jdb, LoadModel_sees| |intros o s1 _ [Hs1 _] Hn; split; [done|intros l ->; by destruct (Hn l)]].
  intros lm s1 [Hs1 _] [Hl Hu]. specialize (Hu uuid eq_refl). apply wp_bind, wp_lift.
  destruct (version_Parse (c_AgentVersion (lm_Controller lm))) as [current| | |] eqn:Hcur; cbn [bind_post]; [|by split..].
  eapply wp_finds_bind; [apply finds_jdb, Migration.FindRegionByCloudName_sees| |].
  2: { intros o s2 _ [Hs2 _] Hn. split; [by etrans|intros l ->; by destruct (Hn l)]. }
  intros lr s2 [Hs2 _] _. assert (same s s2) as Hs by (by etrans). apply wp_bind, wp_lift.
  destruct (mapM _ (lr_Controllers lr)) as [k| | |] eqn:Hk; cbn [bind_post]; [|by split..]. wp_value. split; [done|].
  intros l [= <-]. exists lm, current. split_and!; [done|done|done|]. apply mapM_parsed in Hk. apply Forall_fmap, Forall_forall.
  intros [c v] Hin. apply list_elem_of_In, filter_In in Hin as [Hin Hb]. apply andb_true_iff in Hb as [Hb1 Hb2].
  apply bool_decide_eq_true in Hb1. split; [done|]. exists v. rewrite Forall_forall in Hk. split; [|simpl in Hb2; lia].
  apply (Hk (c, v)). by apply list_elem_of_In.
Qed.

Definition upgrade_queued user uuid target s s' (id : Z) : Prop :=
  same s s' /\ exists lm current c v cc cc', model_loaded (w_db (fst s)) lm /\ m_UUID (lm_Model lm) = Some uuid /\
    version_Parse (c_AgentVersion (lm_Controller lm)) = Ok current /\ c_Name c = target /\ migration_target lm current c /\
    version_Parse (c_AgentVersion c) = Ok v /\
    EnqueueUpgradeTo (MkUpgradeToArgs uuid v (i_Name (u_Identity user)) target) cc = (cc', inl (id, false)).

(** Asking for an upgrade changes no row and no tuple; a job is queued
    only for a model that is known, towards another controller of the asked
    name that is not older than the one the model is on, with the version of
    that controller as the target and the caller's name. *)
Theorem UpgradeTo_queues user uuid target s s' id :
  UpgradeTo user uuid target s = (s', Ok id) -> upgrade_queued user uuid target s s' id.
Proof.
  intros Hrun. cut (wp (UpgradeTo user uuid target) (fun o s' => forall id, o = Ok id -> upgrade_queued user uuid target s s' id) s).
  { intros Hwp. exact (wp_elim _ _ _ _ _ Hwp Hrun id eq_refl). }
  clear Hrun. unfold UpgradeTo. destruct (negb _); [by wp_value|]. apply wp_bind, wp_lift. unfold NewModelTag, NewJujuTag.
  destruct (ValidTagId ModelTagKind uuid); cbn [bind_post]; [|done].
  apply wp_bind, wp_map_err. eapply wp_mono; [apply ListMigrationTargets_wp|]. intros [l|e|p|] s1 [Hs1 Hl]; cbn [bind_post]; [|done..].
  destruct (Hl l eq_refl) as (lm & current & Hlm & Hu & Hcur & Hall). destruct (find _ l) as [c|] eqn:Hfind; [|by wp_value].
  apply find_some in Hfind as [Hin Hname]. apply bool_decide_eq_true in Hname.
  apply wp_bind, wp_map_err, wp_lift. destruct (version_Parse (c_AgentVersion c)) as [v| | |] eqn:Hv; cbn [bind_post]; [|done..].
  apply wp_bind, wp_map_err, wp_ctl; intros cc a Ha; cbn [bind_post]; [|done]. destruct a as [id' []]; [by wp_value|]. wp_value.
  intros id0 [= ->]. split; [by destruct Hs1|]. rewrite Forall_forall in Hall. exists lm, current, c, v, (snd s1), cc.
  split_and!; [done|done|done|done|apply Hall; by apply list_elem_of_In|done|done].
Qed.
End facts.
End Upgrade.
