(* ===== verification/SSHKeys.v ===== *)
(** * SSHKeys: the public keys of users ([internal/jimm/sshkeys],
    [internal/db/sshkeys.go]).

    A key is kept per user and model; the SSH server accepts a user whose key
    is kept for any model. *)

From S2P Require Import Prelude Errors Regexp Names AuthModel RefServer OpenFGA Dbmodel Users Database TagResolver Access JujuDb CloudDb.

Module SSHKeys.

(** [golang.org/x/crypto/ssh] and [ssh.KeysEqual], which compares the
    marshalled keys. *)
Class SSHLib := {
  Key : Type;
  ParsePublicKey : string -> Key + gerror;
  Marshal : Key -> string;
  FingerprintLegacyMD5 : Key -> string;
  KeysEqual : Key -> Key -> bool;
}.
Class SSHLaws `{SSHLib} := {
  law_parse_Marshal k : ParsePublicKey (Marshal k) = inl k;
  law_KeysEqual a b : KeysEqual a b = true <-> Marshal a = Marshal b;
}.

Record SSHKeyModelFilter := MkFilter { kf_ModelUUID : string; kf_All : bool }.

(** ** The table ([internal/db/sshkeys.go]) *)

Section db.
Context {T : Type -> Type} `{Gorm T}.
Implicit Types (model : SSHKeyModelFilter).

(** A key that is there already is no error. *)
Definition AddSSHKey (k : SSHKey) : M (Db T) unit :=
  _ ← ready;
  r ← try (sshkeys_tbl (gorm_create k));
  match r with
  | inl _ => mret tt
  | inr err => if decide (ErrorCode (dbError err) = CodeAlreadyExists) then mret tt else throw (dbError err)
  end.

Definition keyNotFound : gerror := Codef CodeNotFound "key not found" [].

Definition delete_keys (p : SSHKey -> bool) : M (Db T) unit :=
  _ ← ready;
  n ← map_err dbError (sshkeys_tbl (gorm_delete_affected p));
  if decide (n = 0%Z) then throw keyNotFound else mret tt.

Definition RemoveSSHKeyByFingerprint (identityName : string) model (fingerprint : string) : M (Db T) unit :=
  delete_keys (fun k => bool_decide (sk_IdentityName k = identityName /\ sk_ModelUUID k = kf_ModelUUID model /\ sk_MD5Fingerprint k = fingerprint)).

(** The condition does not mention the identity. *)
Definition RemoveSSHKeyByComment (identityName : string) model (comment : string) : M (Db T) unit :=
  delete_keys (fun k => bool_decide (sk_KeyComment k = comment /\ sk_ModelUUID k = kf_ModelUUID model)).

Definition ListSSHKeysForUser (identityName : string) model : M (Db T) (list SSHKey) :=
  _ ← ready;
  map_err dbError (sshkeys_tbl (find_all (fun k =>
    bool_decide (sk_IdentityName k = identityName) && (kf_All model || bool_decide (sk_ModelUUID k = kf_ModelUUID model))))).
End db.

(** ** The manager ([sshkeys.go], [types.go]) *)

Section manager.
Context {T : Type -> Type} `{Gorm T} `{SSHLib}.
Implicit Types (model : SSHKeyModelFilter).

(** The embedded key is an interface, nil when there is none. *)
Record PublicKey := MkPublicKey { pk_Key : option Key; pk_Comment : string }.

Definition valid (pk : PublicKey) : option string :=
  match pk_Key pk with
  | None => Some "public key is nil"
  | Some _ => if decide (255 < String.length (pk_Comment pk))%nat then Some "comment is too long (max 255 characters)" else None
  end.

Definition AddUserPublicKey (user : User) model (publicKey : PublicKey) : M (Db T) unit :=
  match valid publicKey, pk_Key publicKey with
  | Some reason, _ => throw (Codef CodeBadRequest "%s" [ArgS reason])
  | None, Some key =>
      AddSSHKey (MkSSHKey 0 (i_Name (u_Identity user)) (kf_ModelUUID model) (Marshal key) (FingerprintLegacyMD5 key) (pk_Comment publicKey))
  | None, None => panic "runtime error: invalid memory address or nil pointer dereference"
  end.

Definition noMatchingKey : gerror := Errorf "cannot find a matching key for this user" [].

Fixpoint find_key (keys : list SSHKey) (k : Key) : outcome bool :=
  match keys with
  | [] => Err noMatchingKey
  | key :: keys =>
      match ParsePublicKey (sk_PublicKey key) with
      | inr err => Err err
      | inl k' => if KeysEqual k' k then Ok true else find_key keys k
      end
  end.

Definition of_parse {A} (r : A + gerror) : outcome A := match r with inl a => Ok a | inr e => Err e end.

Definition VerifyPublicKey (claimUser publicKey : string) : M (Db T) bool :=
  dbKeys ← ListSSHKeysForUser claimUser (MkFilter "" true);
  k ← lift (of_parse (ParsePublicKey publicKey));
  lift (find_key dbKeys k).

Definition ListUserPublicKeys (user : User) model : M (Db T) (list PublicKey) :=
  dbKeys ← ListSSHKeysForUser (i_Name (u_Identity user)) model;
  lift (mapM (fun key => k ← of_parse (ParsePublicKey (sk_PublicKey key)); Ok (MkPublicKey (Some k) (sk_KeyComment key))) dbKeys).

Definition RemoveUserKeyByComment (user : User) model (comment : string) : M (Db T) unit :=
  RemoveSSHKeyByComment (i_Name (u_Identity user)) model comment.
Definition RemoveUserKeyByFingerprint (user : User) model (fingerprint : string) : M (Db T) unit :=
  RemoveSSHKeyByFingerprint (i_Name (u_Identity user)) model fingerprint.
End manager.

(** ** Facts *)

Section facts.
Context {T : Type -> Type} `{GormLaws T}.
Implicit Types (d : Db T) (model : SSHKeyModelFilter).

Definition apart_keys d :=
  (rows (db_groups d), rows (db_roles d), rows (db_identities d), rows (db_controllers d), rows (db_models d),
   rows (db_offers d), rows (db_clouds d), rows (db_mappings d), rows (db_credentials d), rows (db_defaults d),
   (rows (db_regions d), rows (db_priorities d), rows (db_bootstraps d), rows (db_migrations d), rows (db_profiles d), rows (db_audit d))).

(** The keys of a kind are gone, there was one, and nothing else changed; or
    an error and no change. *)
Definition keys_removed (p : SSHKey -> bool) d (o : outcome unit) d' : Prop :=
  apart_keys d' = apart_keys d /\ o <> OutOfFuel /\
  match o with
  | Ok _ => rows (db_sshkeys d') = filter (fun k => p k = false) (rows (db_sshkeys d)) /\ exists k, k ∈ rows (db_sshkeys d) /\ p k = true
  | _ => rows (db_sshkeys d') = rows (db_sshkeys d)
  end.

Lemma filter_none {A} (p : A -> bool) (l : list A) : length (filter (fun x => p x = true) l) = 0%nat -> filter (fun x => p x = false) l = l.
Proof.
  induction l as [|x l IH]; [done|]. destruct (p x) eqn:Hp.
  - by rewrite (filter_cons_True (fun x => p x = true)).
  - rewrite (filter_cons_False (fun x => p x = true)) by congruence. intros Hl. rewrite filter_cons_True by done. by rewrite IH.
Qed.

Lemma delete_keys_wp p d : wp (delete_keys p) (keys_removed p d) d.
Proof.
  unfold delete_keys. apply wp_ready; [intros _ _|by intros e _]. apply wp_bind, wp_map_err, wp_zoom.
  eapply wp_mono; [apply law_delete_affected|]. intros [n|e|x|] t [Ha Ho]; cbn [bind_post]; [|by split_and!..].
  destruct Ho as [Hr Hn]. case_decide as Hz; wp_value; (split; [done|]; split; [done|]).
  - unfold put_sshkeys, db_sshkeys at 1. simpl. rewrite Hr. apply filter_none. lia.
  - split; [exact Hr|]. destruct (filter (fun x => p x = true) (rows (db_sshkeys d))) as [|k l] eqn:Hf; [simpl in Hn; lia|].
    exists k. assert (k ∈ filter (fun x => p x = true) (rows (db_sshkeys d))) as Hk by (rewrite Hf; by left).
    apply list_elem_of_filter in Hk as [? ?]. done.
Qed.

(** Removing a key by its fingerprint removes exactly the caller's keys
    with the fingerprint for the model, and at least one when it reports
    success.  Removing by comment does the same to the keys with the comment
    for the model, whoever they belong to. *)
Theorem key_removals_exact user model text d :
  let by_fingerprint := RemoveUserKeyByFingerprint user model text d in
  let by_comment := RemoveUserKeyByComment user model text d in
  keys_removed (fun k => bool_decide (sk_IdentityName k = i_Name (u_Identity user) /\ sk_ModelUUID k = kf_ModelUUID model /\
    sk_MD5Fingerprint k = text)) d (snd by_fingerprint) (fst by_fingerprint) /\
  keys_removed (fun k => bool_decide (sk_KeyComment k = text /\ sk_ModelUUID k = kf_ModelUUID model)) d (snd by_comment) (fst by_comment).
Proof.
  intros a b. subst a b. unfold RemoveUserKeyByFingerprint, RemoveUserKeyByComment, RemoveSSHKeyByFingerprint, RemoveSSHKeyByComment.
  split.
  - pose proof (delete_keys_wp (fun k => bool_decide (sk_IdentityName k = i_Name (u_Identity user) /\ sk_ModelUUID k = kf_ModelUUID model /\
      sk_MD5Fingerprint k = text)) d) as Hw. unfold wp in Hw. by destruct (delete_keys _ d).
  - pose proof (delete_keys_wp (fun k => bool_decide (sk_KeyComment k = text /\ sk_ModelUUID k = kf_ModelUUID model)) d) as Hw.
    unfold wp in Hw. by destruct (delete_keys _ d).
Qed.

Context `{SSHLaws}.

(** A key with this content is kept for the user. *)
Definition has_key d (name : string) (k : Key) : Prop :=
  exists row k', row ∈ rows (db_sshkeys d) /\ sk_IdentityName row = name /\ ParsePublicKey (sk_PublicKey row) = inl k' /\ Marshal k' = Marshal k.

Lemma part_sshkeys : part (T:=T) db_sshkeys put_sshkeys.
Proof. intros t d Ht. all_tables. done. Qed.

Lemma ListSSHKeysForUser_sees name model d :
  wp (ListSSHKeysForUser name model) (sees (fun l => forall k, k ∈ l <-> k ∈ rows (db_sshkeys d) /\ sk_IdentityName k = name /\
    (kf_All model = true \/ sk_ModelUUID k = kf_ModelUUID model)) d) d.
Proof.
  unfold ListSSHKeysForUser. apply wp_sees_ready, wp_sees_map_err. eapply wp_sees_mono; [apply find_wp, part_sshkeys|].
  intros l Hl k. cbv beta in Hl. rewrite Hl, andb_true_iff, orb_true_iff, !bool_decide_eq_true. tauto.
Qed.

Lemma find_key_spec keys k :
  match find_key keys k with
  | Ok b => b = true /\ exists row k', row ∈ keys /\ ParsePublicKey (sk_PublicKey row) = inl k' /\ Marshal k' = Marshal k
  | Err _ => True
  | _ => False
  end.
Proof.
  induction keys as [|key keys IH]; simpl; [done|]. destruct (ParsePublicKey (sk_PublicKey key)) as [k'|e] eqn:Hp; [|done].
  destruct (KeysEqual k' k) eqn:Heq.
  { split; [done|]. exists key, k'. split_and!; [by left|done|by apply law_KeysEqual]. }
  destruct (find_key keys k) as [b|e| |]; try done. destruct IH as (-> & row & k2 & Hin & Hr). split; [done|]. exists row, k2. split; [by right|done].
Qed.

(** A public key is accepted for a user only when that user has a key
    with the same content, for whatever model; the check ends, never answers
    false (a refusal is an error) and changes nothing. *)
Theorem VerifyPublicKey_sound name raw d d' o :
  VerifyPublicKey name raw d = (d', o) ->
  tables d' = tables d /\ o <> OutOfFuel /\
  forall b, o = Ok b -> b = true /\ exists k, ParsePublicKey raw = inl k /\ has_key d name k.
Proof.
  intros Hrun. cut (wp (VerifyPublicKey name raw) (sees (fun b => b = true /\ exists k, ParsePublicKey raw = inl k /\ has_key d name k) d) d).
  { intros Hw. destruct (wp_elim _ _ _ _ _ Hw Hrun) as [[Ha Ht] HP]. done. }
  clear Hrun d' o. unfold VerifyPublicKey. eapply wp_sees_bind; [apply ListSSHKeysForUser_sees|]. intros keys d1 Ht Hkeys. cbv beta in Hkeys.
  apply wp_bind. wp_value. destruct (ParsePublicKey raw) as [k|e] eqn:Hraw; cbn [of_parse bind_post]; [|by split].
  wp_value. pose proof (find_key_spec keys k) as Hspec. split; [split; [by destruct (find_key keys k)|done]|].
  intros b Hb. rewrite Hb in Hspec. destruct Hspec as (-> & row & k' & Hin & Hp & Hm). split; [done|]. exists k. split; [done|].
  apply Hkeys in Hin as (Hin & Hname & _). by exists row, k'.
Qed.
End facts.

End SSHKeys.
