(* ===== verification/Profiles.v ===== *)
(** * Profiles: saved controller profiles ([internal/jimm/controllerprofile],
    [internal/db/controllerprofile.go], [internal/dbmodel/controllerprofile.go]).

    A profile is replaced only by a writer that has read its current version;
    the version counts the replacements. *)

From Stdlib Require Import Ascii.
From S2P Require Import Prelude Errors Regexp Names AuthModel RefServer OpenFGA Dbmodel Users Database TagResolver Access JujuDb CloudDb JujuBase JujuModels ControllerDb.

Module Profiles.

(** [PartialJujuVersionPrefixes]: 3.6.9 has 3, 3.6 and 3.6.9. *)
Definition PartialJujuVersionPrefixes (version : string) : list string :=
  if decide (version = "") then [] else
  let parts := split_char "." version in
  (fun i => String.concat "." (take i parts)) <$> seq 1 (length parts).

#[export] Instance ControllerProfile_row : Row ControllerProfile := {|
  row_id := cp_ID;
  row_created i _ p := MkProfile i (cp_Name p) (cp_JujuVersion p) (cp_Version p) (cp_CloudName p) (cp_RegionName p) (cp_PoolName p) (cp_PoolType p) (cp_Rest p);
  row_touched _ p := p;
  row_conflict a b := bool_decide (cp_Name a = cp_Name b);
|}.

(** ** The table *)

Section db.
Context {T : Type -> Type} `{Gorm T}.

Definition needsName : gerror := Codef CodeBadRequest "controller profile name must be provided" [].
Definition profileNotFound (name : string) : gerror := Codef CodeNotFound "controller profile %q not found" [ArgS name].
Definition profileOf (name : string) : ControllerProfile := MkProfile 0 name "" 0 "" "" "" "" "".

Definition validateControllerProfile (p : ControllerProfile) : outcome unit :=
  if decide (cp_Name p = "") then Err needsName
  else if decide (cp_CloudName p = "") then Err (Codef CodeBadRequest "controller profile cloud name must be provided" [])
  else if decide (cp_RegionName p = "") then Err (Codef CodeBadRequest "controller profile cloud region name must be provided" [])
  else if negb (Bool.eqb (bool_decide (cp_PoolName p = "")) (bool_decide (cp_PoolType p = "")))
  then Err (Codef CodeBadRequest "controller profile storage pool requires both name and type" [])
  else Ok tt.

Definition GetControllerProfile (p : ControllerProfile) : M (Db T) ControllerProfile :=
  _ ← ready;
  if decide (cp_Name p = "") then throw needsName else
  map_err (notFoundError (profileNotFound (cp_Name p)))
    (profiles_tbl (gorm_first (fun r => by_key cp_ID p r && bool_decide (cp_Name r = cp_Name p)))).

(** A [uint] of 64 bits. *)
Definition next_version (v : Z) : Z := ((v + 1) mod 2 ^ 64)%Z.
Definition with_ID_Version (id version : Z) (p : ControllerProfile) : ControllerProfile :=
  MkProfile id (cp_Name p) (cp_JujuVersion p) version (cp_CloudName p) (cp_RegionName p) (cp_PoolName p) (cp_PoolType p) (cp_Rest p).

(** The profile that the pointer holds afterwards. *)
Definition CreateOrReplaceControllerProfile (p : ControllerProfile) : M (Db T) ControllerProfile :=
  _ ← ready;
  _ ← lift (validateControllerProfile p);
  Transaction (
    r ← try (GetControllerProfile (profileOf (cp_Name p)));
    match r with
    | inr err =>
        if decide (ErrorCode err <> CodeNotFound) then throw err else
        if decide (cp_Version p <> 0%Z) then throw (Codef CodeBadRequest "controller profile %q does not exist" [ArgS (cp_Name p)]) else
        map_err dbError (profiles_tbl (gorm_create (with_ID_Version (cp_ID p) 1 p)))
    | inl current =>
        if decide (cp_Version p <> cp_Version current)
        then throw (Codef CodeBadRequest "controller profile %q version mismatch: expected %d, got %d"
                      [ArgS (cp_Name p); ArgD (cp_Version current); ArgD (cp_Version p)]) else
        map_err dbError (profiles_tbl (gorm_save (with_ID_Version (cp_ID current) (next_version (cp_Version current)) p)))
    end).

Definition ListControllerProfiles (jujuVersion : string) : M (Db T) (list ControllerProfile) :=
  _ ← ready;
  map_err dbError (profiles_tbl (gorm_find (fun p =>
    bool_decide (jujuVersion = "") || bool_decide (cp_JujuVersion p ∈ PartialJujuVersionPrefixes jujuVersion)) cp_Name None None)).

Definition RemoveControllerProfile (name : string) : M (Db T) unit :=
  _ ← ready;
  if decide (name = "") then throw needsName else
  n ← map_err dbError (profiles_tbl (gorm_delete_affected (fun p => bool_decide (cp_Name p = name))));
  if decide (n = 0%Z) then throw (profileNotFound name) else mret tt.

(** ** The manager *)

Definition SaveControllerProfile (p : ControllerProfile) : M (Db T) ControllerProfile := CreateOrReplaceControllerProfile p.
Definition GetControllerProfile_ (name : string) : M (Db T) ControllerProfile := GetControllerProfile (profileOf name).
Definition ListControllerProfiles_ := ListControllerProfiles.
Definition RemoveControllerProfile_ := RemoveControllerProfile.
End db.

(** ** Versions of Juju *)

Lemma split_char_app c a b : split_char c (a +:+ String c b) = split_char c a ++ split_char c b.
Proof.
  induction a as [|x a IH]; simpl; [by rewrite decide_True|]. rewrite IH. case_decide; [done|].
  destruct (split_char c a) as [|p ps] eqn:Hs; [by destruct (split_char_nonempty c a)|done].
Qed.

Lemma concat_cons sep x xs : xs <> [] -> String.concat sep (x :: xs) = x +:+ sep +:+ String.concat sep xs.
Proof. by destruct xs. Qed.

Lemma concat_app sep xs ys : xs <> [] -> ys <> [] -> String.concat sep (xs ++ ys) = String.concat sep xs +:+ sep +:+ String.concat sep ys.
Proof.
  intros Hx Hy. induction xs as [|x xs IH]; [done|]. destruct xs as [|x' xs].
  - change ([x] ++ ys) with (x :: ys). by rewrite concat_cons.
  - change ((x :: x' :: xs) ++ ys) with (x :: ((x' :: xs) ++ ys)). rewrite concat_cons by done. rewrite IH by done.
    rewrite (concat_cons sep x (x' :: xs)) by done. by rewrite !str_app_assoc.
Qed.

Lemma concat_split s : String.concat "." (split_char "." s) = s.
Proof.
  induction s as [|a s IH]; [done|]. cbn [split_char]. case_decide as Ha.
  - rewrite concat_cons by apply split_char_nonempty. rewrite IH. by subst.
  - destruct (split_char "." s) as [|p ps] eqn:Hs; [by destruct (split_char_nonempty "." s)|]. rewrite <- IH.
    by destruct ps.
Qed.

(** The prefixes of a version are the version itself and its proper
    prefixes up to a dot, and nothing else; so the profiles that are listed
    for a version are those saved for such a prefix. *)
Theorem PartialJujuVersionPrefixes_exact version p :
  version <> "" ->
  p ∈ PartialJujuVersionPrefixes version <-> p = version \/ exists rest, version = p +:+ "." +:+ rest.
Proof.
  intros Hv. unfold PartialJujuVersionPrefixes. rewrite decide_False by done. cbv zeta.
  set (parts := split_char "." version). assert (String.concat "." parts = version) as Hall by apply concat_split.
  rewrite list_elem_of_fmap. split.
  - intros (i & -> & Hi%elem_of_seq). destruct (decide (i = length parts)) as [->|Hne]; [left; by rewrite take_ge|right].
    exists (String.concat "." (drop i parts)). rewrite <- concat_app; [by rewrite take_drop, Hall|..].
    + intros Hn%(f_equal length). rewrite length_take in Hn. simpl in Hn. lia.
    + intros Hn%(f_equal length). rewrite length_drop in Hn. simpl in Hn. lia.
  - intros [->|[rest Hrest]].
    + exists (length parts). split; [by rewrite take_ge|]. apply elem_of_seq. pose proof (split_char_nonempty "." version).
      fold parts in H. destruct parts; [done|simpl; lia].
    + assert (parts = split_char "." p ++ split_char "." rest) as Hp by (unfold parts; rewrite Hrest; apply split_char_app).
      exists (length (split_char "." p)). split; [by rewrite Hp, take_app_length, concat_split|]. apply elem_of_seq.
      rewrite Hp, length_app. pose proof (split_char_nonempty "." p). destruct (split_char "." p); [done|simpl; lia].
Qed.

(** ** Saving *)

Section facts.
Context {T : Type -> Type} `{GormLaws T}.
Implicit Types d : Db T.

Definition profiles d : list ControllerProfile := rows (db_profiles d).
Definition apart_profiles d :=
  (rows (db_groups d), rows (db_roles d), rows (db_identities d), rows (db_controllers d), rows (db_models d),
   rows (db_offers d), rows (db_clouds d), rows (db_mappings d), rows (db_credentials d), rows (db_defaults d),
   (rows (db_regions d), rows (db_priorities d), rows (db_bootstraps d), rows (db_migrations d), rows (db_sshkeys d), rows (db_audit d))).
Definition profiles_ok d : Prop := unique_rows (profiles d) /\ Forall (fun p => cp_ID p <> 0%Z) (profiles d).

(** A new profile gets version 1; a replaced one the version after the one
    that the writer gave, which was the current one. *)
Definition profile_saved (p p' : ControllerProfile) d d' : Prop :=
  apart_profiles d' = apart_profiles d /\ profiles_ok d' /\ p' ∈ profiles d' /\ cp_Name p' = cp_Name p /\
  ((Forall (fun x => cp_Name x <> cp_Name p) (profiles d) /\ cp_Version p = 0%Z /\ cp_Version p' = 1%Z /\ profiles d' = profiles d ++ [p']) \/
   (exists current, current ∈ profiles d /\ cp_Name current = cp_Name p /\ cp_Version p = cp_Version current /\
      p' = with_ID_Version (cp_ID current) (next_version (cp_Version p)) p /\
      profiles d' = (fun x => if decide (cp_ID x = cp_ID current) then p' else x) <$> profiles d)).

Lemma part_profiles : part (T:=T) db_profiles put_profiles.
Proof. intros t d Ht. all_tables. done. Qed.

Lemma GetControllerProfile_finds name d :
  wp (GetControllerProfile (profileOf name)) (fun o d' => answered o /\ tables d' = tables d /\
    match o with
    | Ok p => p ∈ profiles d /\ cp_Name p = name
    | Err e => ErrorCode e = CodeNotFound -> Forall (fun p => cp_Name p <> name) (profiles d)
    | _ => True
    end) d.
Proof.
  unfold GetControllerProfile. simpl. apply wp_ready; [intros _ _|by intros e [He|He]; (split_and!; [done|done|]); rewrite He].
  case_decide; [wp_value; by split_and!|]. eapply wp_mono; [apply first_absent; [apply part_profiles|done]|].
  intros o d1 (Ha & Ht & Ho). split_and!; [done..|]. destruct o as [p|e|x|]; try done.
  - destruct Ho as [Hin Hn%bool_decide_eq_true]. done.
  - intros Hc. eapply Forall_impl; [by apply Ho|]. by intros p Hp%bool_decide_eq_false.
Qed.

Lemma profiles_tables d d' : tables d' = tables d -> profiles d' = profiles d /\ apart_profiles d' = apart_profiles d.
Proof. intros Ht. unfold profiles, apart_profiles. all_tables. done. Qed.

Lemma save_replaces (q current : ControllerProfile) q' (l l' : list ControllerProfile) :
  cp_ID q = cp_ID current -> cp_ID current <> 0%Z -> current ∈ l -> saved q q' l l' ->
  q' = q /\ l' = ((fun x => if decide (cp_ID x = cp_ID current) then q else x) <$> l) /\ unique_rows l'.
Proof.
  intros Hid Hnz Hin. unfold saved. simpl. rewrite decide_False by congruence. intros ((now & ->) & Hu & Hl). split; [done|].
  rewrite decide_True in Hl by (rewrite Hid; by apply list_elem_of_fmap_2 with (f := cp_ID) in Hin). by rewrite Hid in Hl.
Qed.

Lemma save_wp p d :
  profiles_ok d ->
  wp (SaveControllerProfile p) (fun o d' => answered o /\ match o with Ok p' => profile_saved p p' d d' | _ => tables d' = tables d end) d.
Proof.
  intros [Hu Hnz]. unfold SaveControllerProfile, CreateOrReplaceControllerProfile. apply wp_ready; [intros _ _|by intros e _; split].
  apply wp_bind. wp_value. assert (answered (validateControllerProfile p)) as Hva by (unfold validateControllerProfile; repeat case_decide; try done; by destruct (negb _)).
  destruct (validateControllerProfile p); cbn [bind_post]; [|by split..|by destruct Hva]. unfold Transaction.
  apply wp_ready; [intros _ _|by intros e _; split].
  eapply wp_mono; [apply (yields_rollback (fun p' d' => profile_saved p p' d d'))|].
  2: { intros o d' [Ha Ho]. split; [done|]. destruct o; [done|by rewrite Ho..]. }
  apply wp_bind, wp_try. eapply wp_mono; [apply GetControllerProfile_finds|]. intros o d1 (Ha & Ht & Ho).
  destruct (profiles_tables _ _ Ht) as [Hp1 Hap1]. destruct o as [current|e|x|]; cbn [bind_post]; [| |by split|by destruct Ha].
  - destruct Ho as [Hin Hname]. case_decide as Hver; [by wp_value; split|]. assert (cp_Version p = cp_Version current) as Hv.
    { destruct (decide (cp_Version p = cp_Version current)); [done|by destruct Hver]. }
    assert (cp_ID current <> 0%Z) as Hid by (rewrite Forall_forall in Hnz; by apply Hnz).
    apply wp_map_err, wp_zoom. eapply wp_mono; [apply law_save; by rewrite <- Hp1 in Hu|]. intros o t [Ha1 Ho1]. split; [by destruct o|].
    intros p' Hok. destruct o as [q| | |]; try done. apply (inj Ok) in Hok as ->.
    apply (save_replaces _ current) in Ho1 as (-> & Hrows & Hu'); [|done|done|by rewrite <- Hp1 in Hin].
    change (rows (db_profiles d1)) with (profiles d1) in Hrows. rewrite Hp1 in Hrows. rewrite <- Hv in Hrows |- *.
    assert (profiles (put_profiles t d1) = rows t) as Hpt by done.
    split; [exact Hap1|]. rewrite <- Hpt in Hrows, Hu'. split_and!; [split; [exact Hu'|]| |done|right; by exists current].
    + rewrite Hrows. apply Forall_fmap. eapply Forall_impl; [exact Hnz|]. intros x Hx. simpl. by case_decide.
    + rewrite Hrows. apply list_elem_of_fmap. exists current. by rewrite decide_True.
  - case_decide as Hc; [by wp_value; split|]. case_decide as Hver; [by wp_value; split|].
    assert (cp_Version p = 0%Z) as Hv by (destruct (decide (cp_Version p = 0%Z)); [done|by destruct Hver]).
    assert (ErrorCode e = CodeNotFound) as Hcode by (destruct (decide (ErrorCode e = CodeNotFound)); [done|by destruct Hc]).
    apply wp_map_err, wp_zoom. eapply wp_mono; [apply law_create; by rewrite <- Hp1 in Hu|]. intros o t [Ha1 Ho1]. split; [by destruct o|].
    intros p' Hok. destruct o as [q| | |]; try done. apply (inj Ok) in Hok as ->. destruct Ho1 as ((i & now & Hi & ->) & Hrows & Hu').
    change (rows (db_profiles d1)) with (profiles d1) in Hrows. rewrite Hp1 in Hrows.
    assert (profiles (put_profiles t d1) = rows t) as Hpt by done. rewrite <- Hpt in Hrows, Hu'.
    split; [exact Hap1|]. split_and!; [split; [exact Hu'|]| |done|left; split_and!; [by apply Ho|done|done|exact Hrows]].
    + rewrite Hrows. apply Forall_app. split; [done|]. by repeat constructor.
    + rewrite Hrows. apply elem_of_app. right. by apply list_elem_of_singleton.
Qed.

(** C31.  No update of a profile is lost: a save stores the profile under the
    version after the one that the writer had read, which was the current one
    (1 for a new profile), and changes no other profile; a second writer of
    the same profile with the same version is refused and changes nothing. *)
Theorem SaveControllerProfile_no_lost_update p q p' d d1 d2 o :
  profiles_ok d -> (0 <= cp_Version p < 2 ^ 64)%Z -> cp_Name q = cp_Name p -> cp_Version q = cp_Version p ->
  SaveControllerProfile p d = (d1, Ok p') -> SaveControllerProfile q d1 = (d2, o) ->
  profile_saved p p' d d1 /\ tables d2 = tables d1 /\ o <> OutOfFuel /\ forall q', o <> Ok q'.
Proof.
  intros Hok Hrange Hname Hver Hrun1 Hrun2. destruct (wp_elim _ _ _ _ _ (save_wp p d Hok) Hrun1) as [_ Hsaved].
  pose proof Hsaved as (_ & Hok1 & Hin1 & Hn1 & Hcases). split; [done|].
  destruct (wp_elim _ _ _ _ _ (save_wp q d1 Hok1) Hrun2) as [Ha2 Ho2].
  assert (cp_Version p' <> cp_Version p) as Hne.
  { destruct Hcases as [(_ & -> & -> & _)|(c & _ & _ & _ & -> & _)]; [done|]. simpl. unfold next_version.
    destruct (decide (cp_Version p = 2 ^ 64 - 1)%Z) as [->|]; [by vm_compute|]. rewrite Z.mod_small by lia. lia. }
  destruct o as [q'|e|x|]; [exfalso|by split_and!..|by destruct Ha2]. destruct Ho2 as (_ & _ & _ & _ & [(Hnone & _)|(c & Hc & Hcn & Hcv & _)]).
  - rewrite Forall_forall in Hnone. apply (Hnone p' Hin1). congruence.
  - destruct Hok1 as [[_ Huniq] _]. assert (c = p') as ->; [|congruence]. apply Huniq; [done|done|]. apply bool_decide_eq_true. congruence.
Qed.
End facts.

End Profiles.
