(* ===== verification/AuditLog.v ===== *)
(** * AuditLog: the audit log ([internal/jimm/auditlog], [internal/db/audit.go]).

    Entries are stored with the parameters of sensitive methods replaced,
    shown to viewers of the audit log, and removed by administrators or by a
    daily task.  Times are in nanoseconds since 1970, UTC; the zero time of a
    filter is [None]. *)

From Stdlib Require Import Ascii Sorted.
From S2P Require Import Prelude Errors Regexp Names AuthModel RefServer OpenFGA Dbmodel Users Database TagResolver Access Managers JujuDb CloudDb.

Module AuditLog.

#[export] Instance AuditLogEntry_row : Row AuditLogEntry := {|
  row_id := al_ID;
  row_created i _ e := MkAudit i (al_Time e) (al_Model e) (al_ConversationId e) (al_MessageId e) (al_FacadeName e) (al_FacadeMethod e)
    (al_FacadeVersion e) (al_ObjectId e) (al_IdentityTag e) (al_IsResponse e) (al_Params e) (al_Errors e);
  row_touched _ e := e;
  row_conflict _ _ := false;
|}.

(** [strings.ToLower], where the result is an ASCII letter: the ASCII letters,
    the dotted capital I (U+0130) and the Kelvin sign (U+212A).  Other letters
    have lower-case forms outside ASCII and stay as they are. *)
Definition lower_char (c : ascii) : ascii :=
  let n := nat_of_ascii c in
  if (65 <=? n)%nat && (n <=? 90)%nat then ascii_of_nat (n + 32) else c.
Fixpoint ToLower (s : string) : string :=
  match s with
  | EmptyString => EmptyString
  | String c s' =>
      match s' with
      | String c2 s2 =>
          if bool_decide (c = ascii_of_nat 196 /\ c2 = ascii_of_nat 176) then String "i" (ToLower s2) else
          match s2 with
          | String c3 s3 =>
              if bool_decide (c = ascii_of_nat 226 /\ c2 = ascii_of_nat 132 /\ c3 = ascii_of_nat 170) then String "k" (ToLower s3)
              else String (lower_char c) (ToLower s')
          | EmptyString => String (lower_char c) (ToLower s')
          end
      | EmptyString => String (lower_char c) EmptyString
      end
  end.

(** ** The table *)

Record AuditLogFilter := MkAuditFilter {
  af_Start : option Z; af_End : option Z; af_IdentityTag : string; af_Model : string; af_Method : string;
  af_Offset : Z; af_Limit : Z; af_SortTime : bool;
}.

Section db.
Context {T : Type -> Type} `{Gorm T}.

Definition db_AddAuditLogEntry (ale : AuditLogEntry) : M (Db T) AuditLogEntry :=
  _ ← ready;
  map_err dbError (audit_tbl (gorm_create ale)).

Definition matches_filter (f : AuditLogFilter) (e : AuditLogEntry) : bool :=
  match af_Start f with Some t => (t <=? al_Time e)%Z | None => true end &&
  match af_End f with Some t => (al_Time e <=? t)%Z | None => true end &&
  (bool_decide (af_IdentityTag f = "") || bool_decide (al_IdentityTag e = af_IdentityTag f)) &&
  (bool_decide (af_Model f = "") || bool_decide (al_Model e = af_Model f)) &&
  (bool_decide (af_Method f = "") || bool_decide (al_FacadeMethod e = af_Method f)).

Definition positive (n : Z) : option nat := if (0 <? n)%Z then Some (Z.to_nat n) else None.

(** The entries that the function of [ForEachAuditLogEntry] gets. *)
Definition AuditLogEntries (f : AuditLogFilter) : M (Db T) (list AuditLogEntry) :=
  _ ← ready;
  audit_tbl (gorm_scan (matches_filter f) (if af_SortTime f then Some al_Time else None) (positive (af_Limit f)) (positive (af_Offset f))).

Definition DeleteAuditLogsBefore (before : Z) : M (Db T) Z :=
  _ ← ready;
  map_err dbError (audit_tbl (gorm_delete_affected (fun e => (al_Time e <? before)%Z))).
End db.

(** ** The manager *)

Record AuditLogManager := MkAuditManager { am_jimmTag : Tag; am_retentionPeriodInDays : Z }.

Definition NewAuditLogManager (store authSvc : bool) (jimmTag : Tag) (retentionDays : Z) : outcome AuditLogManager :=
  if negb store then Err (New "auditlog store cannot be nil")
  else if negb authSvc then Err (New "auditlog authorisation service cannot be nil")
  else if decide (TagString jimmTag = "") then Err (New "auditlog jimm tag cannot be empty")
  else Ok (MkAuditManager jimmTag retentionDays).

Definition sensitiveMethods : list string :=
  ["addcredentials"; "getdevicesessiontoken"; "login"; "logindevice"; "loginwithclientcredentials"; "loginwithsessioncookie";
   "loginwithsessiontoken"; "updatecredentials"].
Definition quote : string := String (ascii_of_nat 34) "".
Definition redactJSON : string := "{" +:+ quote +:+ "params" +:+ quote +:+ ":" +:+ quote +:+ "redacted" +:+ quote +:+ "}".

Definition with_Params (params : option string) (e : AuditLogEntry) : AuditLogEntry :=
  MkAudit (al_ID e) (al_Time e) (al_Model e) (al_ConversationId e) (al_MessageId e) (al_FacadeName e) (al_FacadeMethod e)
    (al_FacadeVersion e) (al_ObjectId e) (al_IdentityTag e) (al_IsResponse e) params (al_Errors e).

Definition redactSensitiveParams (e : AuditLogEntry) : AuditLogEntry :=
  match al_Params e with
  | None => e
  | Some _ => if decide (ToLower (al_FacadeMethod e) ∈ sensitiveMethods) then with_Params (Some redactJSON) e else e
  end.

Section manager.
Context {F : Type} `{OFGAServer F} {T : Type -> Type} `{Gorm T} `{JujuNames} `{Hash}.
Implicit Types (j : AuditLogManager) (user : User).

(** An error is logged. *)
Definition AddAuditLogEntry (ale : AuditLogEntry) : M (World F T) unit :=
  _ ← try (db (db_AddAuditLogEntry (redactSensitiveParams ale)));
  mret tt.

Definition FindAuditEvents j user (filter : AuditLogFilter) : M (World F T) (list AuditLogEntry) :=
  access ← fga (GetAuditLogViewerAccess user (am_jimmTag j));
  if decide (access <> AuditLogViewerRelation) then throw Unauthorized else
  db (AuditLogEntries filter).

Definition PurgeLogs j user (before : Z) : M (World F T) Z :=
  admin_only user (map_err (fun err => Errorf "failed to purge logs: %w" [ArgE err]) (db (DeleteAuditLogsBefore before))).

(** *** The daily cleanup ([cleanup.go]) *)

Definition hour : Z := 3600 * 1000000000.
Definition day : Z := 24 * hour.

Record pollTimeOfDay := MkPoll { Hours : Z; Minutes : Z; Seconds : Z }.
Definition auditLogCleanupTime : pollTimeOfDay := MkPoll 9 0 0.

(** [AddDate] of a number of days, on a clock that is never changed. *)
Definition cleanup j (now : Z) : M (World F T) unit :=
  _ ← try (db (DeleteAuditLogsBefore (now - am_retentionPeriodInDays j * day)%Z));
  mret tt.

Definition offset_of (p : pollTimeOfDay) : Z := (Hours p * hour + Minutes p * 60 * 1000000000 + Seconds p * 1000000000)%Z.

Definition calculateNextPollDuration (pollTime : pollTimeOfDay) (startingTime : Z) : Z :=
  let pollTimeToday := (startingTime / day * day + offset_of pollTime)%Z in
  let tillNextPoll := (pollTimeToday - startingTime)%Z in
  if (tillNextPoll <? 0)%Z then (hour * 24 - Z.abs tillNextPoll)%Z else Z.abs tillNextPoll.
End manager.

(** ** Facts *)

(** The cleanup waits less than a day, never a negative time, and wakes
    exactly at the time of day it is to run at. *)
Theorem calculateNextPollDuration_next pollTime now :
  (0 <= offset_of pollTime < day)%Z ->
  (0 <= calculateNextPollDuration pollTime now < day)%Z /\
  ((now + calculateNextPollDuration pollTime now) mod day = offset_of pollTime)%Z.
Proof.
  intros Hoff. assert (day = 86400000000000)%Z as Hday by reflexivity. assert (hour * 24 = day)%Z as Hh by reflexivity.
  unfold calculateNextPollDuration. cbv zeta. rewrite Hh.
  pose proof (Z.mod_pos_bound now day ltac:(lia)) as Hmod. pose proof (Z.div_mod now day ltac:(lia)) as Hdm.
  set (q := (now / day)%Z) in *. set (r := (now mod day)%Z) in *.
  destruct (_ <? 0)%Z eqn:Hneg; [apply Z.ltb_lt in Hneg|apply Z.ltb_ge in Hneg].
  - split; [lia|]. replace (now + (day - Z.abs (q * day + offset_of pollTime - now)))%Z with (offset_of pollTime + (q + 1) * day)%Z by lia.
    rewrite Z.mod_add by lia. apply Z.mod_small. lia.
  - split; [lia|]. replace (now + Z.abs (q * day + offset_of pollTime - now))%Z with (offset_of pollTime + q * day)%Z by lia.
    rewrite Z.mod_add by lia. apply Z.mod_small. lia.
Qed.

Section facts.
Context {F : Type} `{OFGALaws F} {T : Type -> Type} `{GormLaws T} `{JujuNames} `{Hash}.
Implicit Types (w : World F T) (j : AuditLogManager) (user : User).

Definition entries w : list AuditLogEntry := rows (db_audit (w_db w)).
Definition apart_audit (d : Db T) :=
  (rows (db_groups d), rows (db_roles d), rows (db_identities d), rows (db_controllers d), rows (db_models d),
   rows (db_offers d), rows (db_clouds d), rows (db_mappings d), rows (db_credentials d), rows (db_defaults d),
   (rows (db_regions d), rows (db_priorities d), rows (db_bootstraps d), rows (db_migrations d), rows (db_sshkeys d), rows (db_profiles d))).

(** What an entry says, its key and its parameters apart. *)
Definition content (e : AuditLogEntry) : AuditLogEntry :=
  MkAudit 0 (al_Time e) (al_Model e) (al_ConversationId e) (al_MessageId e) (al_FacadeName e) (al_FacadeMethod e)
    (al_FacadeVersion e) (al_ObjectId e) (al_IdentityTag e) (al_IsResponse e) None (al_Errors e).

(** No parameters of a sensitive method. *)
Definition harmless (e : AuditLogEntry) : Prop :=
  ToLower (al_FacadeMethod e) ∈ sensitiveMethods -> al_Params e = None \/ al_Params e = Some redactJSON.

Lemma redact_harmless e : harmless (redactSensitiveParams e).
Proof.
  unfold harmless, redactSensitiveParams. destruct (al_Params e) as [p|] eqn:Hp; [|by left].
  case_decide as Hs; [by right|done].
Qed.


Definition found_post j user (flt : AuditLogFilter) w (o : outcome (list AuditLogEntry)) w' : Prop :=
  Perm.w_tuples w' = Perm.w_tuples w /\ tables (w_db w') = tables (w_db w) /\ o <> OutOfFuel /\
  forall es, o = Ok es ->
    has_access (Perm.w_tuples w) user AuditLogViewerRelation (ConvertTag (am_jimmTag j)) /\
    Forall (fun e => e ∈ entries w /\ matches_filter flt e = true) es /\
    ((0 < af_Limit flt)%Z -> (Z.of_nat (length es) <= af_Limit flt)%Z) /\
    (af_SortTime flt = true -> StronglySorted (fun a b => (al_Time b <= al_Time a)%Z) es) /\
    ((af_Limit flt <= 0)%Z -> (af_Offset flt <= 0)%Z -> forall e, e ∈ entries w -> matches_filter flt e = true -> e ∈ es).

Lemma sorted_drop {A} (R : A -> A -> Prop) n (l : list A) : StronglySorted R l -> StronglySorted R (drop n l).
Proof. revert n. induction l as [|x l IH]; intros [|n] Hs; try done. inversion_clear Hs. by apply IH. Qed.
Lemma sorted_take {A} (R : A -> A -> Prop) n (l : list A) : StronglySorted R l -> StronglySorted R (take n l).
Proof.
  revert n. induction l as [|x l IH]; intros [|n] Hs; try constructor; inversion_clear Hs; [by apply IH|]. by apply Forall_take.
Qed.

Lemma page_sub {A} limit offset (l : list A) : page_of limit offset l ⊆ l.
Proof.
  unfold page_of. intros x Hx. destruct limit as [n|]; [apply (subseteq_take n) in Hx|]; (destruct offset as [k|]; [by apply (subseteq_drop k) in Hx|done]).
Qed.

(** Audit events are found only by viewers of the audit log: every event
    returned is stored and matches the filter, there are no more than the
    limit, they come latest first when that is asked for, and without limit
    and offset none is missing.  Nothing changes. *)
Theorem FindAuditEvents_confined j user flt w w' o :
  FindAuditEvents j user flt w = (w', o) -> found_post j user flt w o w'.
Proof.
  refine (wp_elim _ (found_post j user flt w) _ _ _ _). unfold FindAuditEvents. apply wp_bind, Perm.wp_fga. unfold GetAuditLogViewerAccess.
  apply access_step_wp. eapply wp_mono; [apply checkRelation_wp|]. intros o1 f (HT & Ha & Hb).
  assert (forall o', o' <> OutOfFuel -> (forall es, o' <> Ok es) -> found_post j user flt w o' (MkWorld f (w_db w))) as Hfail.
  { intros o' Ho' Hn. split_and!; [exact HT|done|done|]. intros es ->. by destruct (Hn es). }
  assert (NoRelation <> AuditLogViewerRelation) as Hnr by done.
  destruct o1 as [[]|e|x|]; cbn [bind_post]; [|wp_value; cbn [bind_post]; case_decide as Hd; [wp_value; by apply Hfail|by destruct Hd]..|by apply Hfail|by destruct Ha].
  case_decide as Hd; [by destruct Hd|]. apply Perm.wp_db. unfold AuditLogEntries. cbn [w_db].
  apply wp_ready; [intros _ _|intros e _; by apply Hfail]. apply wp_zoom. eapply wp_mono; [apply law_scan|].
  intros o2 t (Hrows & Ha1 & Hl). cbn [w_fga]. split; [exact HT|]. split; [clear -Hrows; all_tables; done|]. split; [done|]. intros es ->.
  destruct (Hl es eq_refl) as (all & Hperm & Hsort & ->). split; [by apply (Hb true)|].
  assert (forall e, e ∈ all <-> matches_filter flt e = true /\ e ∈ entries w) as Hall.
  { intros e. rewrite Hperm, list_elem_of_filter. done. }
  split_and!.
  - apply Forall_forall. intros e He%page_sub. apply Hall in He. tauto.
  - intros Hlim. unfold page_of, positive. rewrite (proj2 (Z.ltb_lt _ _) Hlim). rewrite length_take. lia.
  - intros Hst. rewrite Hst in Hsort. specialize (Hsort al_Time eq_refl). unfold page_of.
    destruct (positive (af_Limit flt)); [apply sorted_take|]; (destruct (positive (af_Offset flt)); [by apply sorted_drop|done]).
  - intros Hlim Hoff e He Hm. unfold positive. rewrite (proj2 (Z.ltb_ge _ _) Hlim), (proj2 (Z.ltb_ge _ _) Hoff). simpl. by apply Hall.
Qed.

(** Audit events are purged by JIMM administrators only: exactly those
    before the given time, with their number as the answer; every other call
    changes nothing. *)
Theorem PurgeLogs_exact j user before w w' o :
  PurgeLogs j user before w = (w', o) ->
  w_fga w' = w_fga w /\ apart_audit (w_db w') = apart_audit (w_db w) /\ o <> OutOfFuel /\
  match o with
  | Ok n => JimmAdmin user = true /\ entries w' = filter (fun e => ~ (al_Time e < before)%Z) (entries w) /\
            Z.of_nat (length (entries w)) = (Z.of_nat (length (entries w')) + n)%Z
  | _ => entries w' = entries w
  end.
Proof.
  refine (wp_elim _ (fun o w' => w_fga w' = w_fga w /\ apart_audit (w_db w') = apart_audit (w_db w) /\ o <> OutOfFuel /\
    match o with
    | Ok n => JimmAdmin user = true /\ entries w' = filter (fun e => ~ (al_Time e < before)%Z) (entries w) /\
              Z.of_nat (length (entries w)) = (Z.of_nat (length (entries w')) + n)%Z
    | _ => entries w' = entries w
    end) _ _ _ _).
  unfold PurgeLogs, admin_only. destruct (JimmAdmin user); simpl; [|by wp_value]. apply wp_map_err, Perm.wp_db. unfold DeleteAuditLogsBefore.
  apply wp_ready; [intros _ _|by intros e _]. apply wp_map_err, wp_zoom. eapply wp_mono; [apply law_delete_affected|].
  intros [n|e|x|] t [Ha Ho]; (split; [done|]; split; [done|]; split; [done|]); [|exact Ho..]. destruct Ho as [Hr ->]. split; [done|].
  unfold entries. cbn [w_db]. change (rows (db_audit (put_audit t (w_db w)))) with (rows t). rewrite Hr.
  assert (forall l : list AuditLogEntry, filter (fun x => (al_Time x <? before)%Z = false) l = filter (fun e => ~ (al_Time e < before)%Z) l) as Hf.
  { intros l. apply list_filter_iff. intros x. rewrite Z.ltb_ge. lia. }
  split; [apply Hf|]. clear -Hf. induction (rows (db_audit (w_db w))) as [|x l IH]; [done|].
  destruct (al_Time x <? before)%Z eqn:Hx.
  - rewrite filter_cons_False by congruence. rewrite (filter_cons_True (fun x => (al_Time x <? before)%Z = true)) by done. simpl. lia.
  - rewrite filter_cons_True by done. rewrite (filter_cons_False (fun x => (al_Time x <? before)%Z = true)) by congruence. simpl. lia.
Qed.
End facts.

End AuditLog.
