(* ===== verification/Jwx.v ===== *)
(** * Jwx: the signing keys and the tokens of JIMM ([internal/jimmjwx]).

    [JWKSService] keeps the published key set and the signing key, which it
    reads from two files and reloads while it runs; [NewJWT] signs the claims
    of a token with that key.  The JOSE library, the PEM and X.509 parsers and
    the file system are the parameters [Jose] and [Runtime]; [JoseLaws] is the
    contract of a signature: what a key signs, its public half verifies.

    The theorems: whatever the files hold at each reload, the service keeps a
    key set that contains the public half of the signing key, and a token of
    [NewJWT] is verified by a key of the set published at that moment, with
    the audience, the subject and the access claim that were asked for. *)

From S2P Require Import Prelude Errors GoStrings.

(** The value of a claim of a token. *)
Inductive claim :=
| ClaimString (s : string)
| ClaimStrings (l : list string)
| ClaimTime (t : Z)
| ClaimAccess (m : option (gmap string string))
| ClaimAny (a : goany).

(** The libraries [jwk], [jwt], [encoding/pem] and [crypto/x509]. *)
Class Jose := {
  PrivateKey : Type;
  PublicKeyT : Type;
  Key : Type;
  PublicKey : PrivateKey -> PublicKeyT;
  pem_Decode : string -> option string;
  ParsePKCS1PrivateKey : string -> outcome PrivateKey;
  ParsePKCS8PrivateKey : string -> outcome (option PrivateKey);
  jwk_Parse : string -> outcome (list Key);
  jwk_FromRaw : PrivateKey -> outcome Key;
  jwk_PublicKeyOf : PublicKeyT -> outcome Key;
  jwk_Equal : Key -> Key -> bool;
  jwk_Set : Key -> string -> string -> outcome Key;
  KeyID : Key -> string;
  jwt_Build : gmap string claim -> outcome unit;
  jwt_Sign : Key -> gmap string claim -> outcome string;
  jwt_Verify : Key -> string -> option (gmap string claim);
}.

(** The file system, the random source, the clock and the order in which
    [range] visits a map. *)
Class Runtime (E : Type) := {
  os_ReadFile : string -> M E string;
  uuid_NewRandom : M E string;
  time_Now : M E Z;
  range_order : forall A, list A -> M E (list A);
}.
Arguments range_order {E _ A} l.

(** What JIMM relies on: [range] visits each entry of a map once. *)
Class RuntimeLaws (E : Type) `{Runtime E} :=
  range_order_perm A (l : list A) env : exists env' l', range_order l env = (env', Ok l') /\ l' ≡ₚ l.

(** ** The key set ([jwks.go]) *)

Section jwks.
Context `{Jose} {E : Type} `{Runtime E}.

Record cachedJWKS := MkCached { cj_set : option (list Key); cj_signingKey : option Key }.
Record JWKSService := MkJWKS { jwksPath : string; privateKeyPath : string; ks_cached : cachedJWKS }.

Definition readRequiredFile (path name : string) : M E string :=
  content ← map_err (fun err => Errorf "read %s: %w" [ArgS name; ArgE err]) (os_ReadFile path);
  if decide (TrimSpace content = "") then throw (New (name +:+ " file is empty")) else mret content.

Definition parseRSAPrivateKey (privateKeyPEM : string) : outcome PrivateKey :=
  match pem_Decode privateKeyPEM with
  | None => Err (New "failed to decode jwks private key")
  | Some block =>
      match ParsePKCS1PrivateKey block with
      | Err err =>
          match ParsePKCS8PrivateKey block with
          | Err _ => Err (Errorf "parse jwks private key: %w" [ArgE err])
          | Ok (Some rsaKey) => Ok rsaKey
          | Ok None => Err (New "jwks private key is not rsa")
          | Panic s => Panic s
          | OutOfFuel => OutOfFuel
          end
      | r => r
      end
  end.

Definition wrapping {A} (msg : string) (o : outcome A) : outcome A :=
  match o with Err err => Err (Errorf msg [ArgE err]) | o => o end.

Definition matchingPublicKey (keys : list Key) (signingPublicKey : PublicKeyT) : outcome Key :=
  key ← wrapping "create jwk public key: %w" (jwk_PublicKeyOf signingPublicKey);
  match List.find (fun k => jwk_Equal k key) keys with
  | Some k => Ok k
  | None => Err (New "jwks does not contain the public key for the provided private key")
  end.

(** The part of [loadJWKS] after the private key is read. *)
Definition newSigningKey (keys : list Key) (privateKey : PrivateKey) : outcome Key :=
  key ← wrapping "create jwks signing key: %w" (jwk_FromRaw privateKey);
  key ← jwk_Set key "alg" "RS256";
  key ← jwk_Set key "use" "sig";
  publicKey ← matchingPublicKey keys (PublicKey privateKey);
  if decide (KeyID publicKey <> "") then jwk_Set key "kid" (KeyID publicKey) else Ok key.

Definition loadJWKS (jwksPath privateKeyPath : string) : M E cachedJWKS :=
  rawJWKS ← readRequiredFile jwksPath "jwks";
  keys ← lift (wrapping "parse jwks: %w" (jwk_Parse rawJWKS));
  if decide (keys = []) then throw (New "jwks must contain at least one key") else
  privateKeyPEM ← readRequiredFile privateKeyPath "jwks private key";
  privateKey ← lift (parseRSAPrivateKey privateKeyPEM);
  key ← lift (newSigningKey keys privateKey);
  mret (MkCached (Some keys) (Some key)).

Definition NewJWKSService (jwksPath privateKeyPath : string) : M E JWKSService :=
  if decide (jwksPath = "") then throw (New "missing jwks path") else
  if decide (privateKeyPath = "") then throw (New "missing jwks private key path") else
  material ← loadJWKS jwksPath privateKeyPath;
  mret (MkJWKS jwksPath privateKeyPath material).

Definition Get (jwks : JWKSService) : outcome (list Key) :=
  match cj_set (ks_cached jwks) with
  | None => Err (New "missing jwks")
  | Some keys => Ok keys
  end.

Definition SigningKey (jwks : JWKSService) : outcome Key :=
  match cj_signingKey (ks_cached jwks) with
  | None => Err (New "missing signing key")
  | Some key => Ok key
  end.

(** One tick of [refreshLoop]. *)
Definition refresh (jwks : JWKSService) : M E JWKSService :=
  r ← try (loadJWKS (jwksPath jwks) (privateKeyPath jwks));
  match r with
  | inr _ => mret jwks
  | inl material => mret (MkJWKS (jwksPath jwks) (privateKeyPath jwks) material)
  end.

(** ** Tokens ([jwt.go]) *)

Definition accessClaim := "access".

Record JWTParams := MkJWTParams {
  jp_Controller : string;
  jp_User : string;
  jp_Access : option (gmap string string);
  jp_ExtraClaims : list (string * claim);
  jp_Expiry : Z;
}.

(** The token service, with the key service it holds; [JWKS] may be nil. *)
Record JWTService := MkJWTService {
  js_Host : string; js_Expiry : Z; js_JWKS : option JWKSService; js_env : E;
}.

Definition env {A} : M E A -> M JWTService A :=
  zoom js_env (fun e j => MkJWTService (js_Host j) (js_Expiry j) (js_JWKS j) e).

Definition generateJTI : M JWTService string := env uuid_NewRandom.

(** The claims that the builder holds before the extra ones. *)
Definition builder (params : JWTParams) (host jti : string) (expiration : Z) : gmap string claim :=
  <["exp" := ClaimTime expiration]> (<[accessClaim := ClaimAccess (jp_Access params)]>
  (<["jti" := ClaimString jti]> (<["iss" := ClaimString host]>
  (<["sub" := ClaimString (jp_User params)]> {["aud" := ClaimStrings [jp_Controller params]]})))).

Fixpoint addClaims (b : gmap string claim) (extra : list (string * claim)) : outcome (gmap string claim) :=
  match extra with
  | [] => Ok b
  | (k, v) :: extra =>
      if decide (k = accessClaim) then Err (New "access is a reserved claim")
      else addClaims (<[k := v]> b) extra
  end.

Definition NewJWT (params : JWTParams) : M JWTService string :=
  jti ← generateJTI;
  j ← (fun j => (j, Ok j));
  match js_JWKS j with
  | None => throw (New "missing signing key provider")
  | Some jwks =>
      signingKey ← lift (SigningKey jwks);
      let expiry := if decide (jp_Expiry params <> 0%Z) then jp_Expiry params else js_Expiry j in
      now ← env time_Now;
      token ← lift (addClaims (builder params (js_Host j) jti (now + expiry)%Z) (jp_ExtraClaims params));
      _ ← lift (jwt_Build token);
      lift (jwt_Sign signingKey token)
  end.

End jwks.

Arguments JWTService _ E : clear implicits.
Arguments JWTService {_} E.
#[global] Arguments accessClaim : simpl never.

(** ** Contract of the library and invariant of the service *)

(** The keys made from a private key: the key itself and what [Set] makes of it. *)
Inductive derived `{Jose} (priv : PrivateKey) : Key -> Prop :=
| derived_raw k : jwk_FromRaw priv = Ok k -> derived priv k
| derived_set k f v k' : derived priv k -> jwk_Set k f v = Ok k' -> derived priv k'.

(** What a key made from a private key signs, a key equal to the public half
    verifies. *)
Class JoseLaws `{Jose} :=
  sign_verify priv sk k pk claims token :
    derived priv sk -> jwk_PublicKeyOf (PublicKey priv) = Ok pk -> jwk_Equal k pk = true ->
    jwt_Sign sk claims = Ok token -> jwt_Verify k token = Some claims.

Section keys.
Context `{Jose} {E : Type} `{Runtime E}.

(** The published set contains the public half of the signing key. *)
Definition published (keys : list Key) (sk : Key) : Prop :=
  exists priv pk k, derived priv sk /\ jwk_PublicKeyOf (PublicKey priv) = Ok pk /\
    k ∈ keys /\ jwk_Equal k pk = true /\ (KeyID k <> "" -> exists k0, jwk_Set k0 "kid" (KeyID k) = Ok sk).

Definition jwks_ok (jwks : JWKSService) : Prop :=
  exists keys sk, Get jwks = Ok keys /\ SigningKey jwks = Ok sk /\ published keys sk.

(** The life of a service: it is created, and reloads its files, which may
    have changed in any way since. *)
Inductive serves : JWKSService -> Prop :=
| serves_new p q e e' s : NewJWKSService p q e = (e', Ok s) -> serves s
| serves_refresh s e e' s' : serves s -> refresh s e = (e', Ok s') -> serves s'.

Lemma wrapping_Ok {A} msg (o : outcome A) a : wrapping msg o = Ok a -> o = Ok a.
Proof. by destruct o. Qed.

Lemma matchingPublicKey_Ok keys pub k :
  matchingPublicKey keys pub = Ok k ->
  exists pk, jwk_PublicKeyOf pub = Ok pk /\ k ∈ keys /\ jwk_Equal k pk = true.
Proof.
  unfold matchingPublicKey. destruct (wrapping _ _) as [pk| | |] eqn:Hw; try done. simpl.
  apply wrapping_Ok in Hw. destruct (List.find _ _) as [k'|] eqn:Hf; [|done]. intros [= <-].
  apply List.find_some in Hf as [Hin Heq]. exists pk. split_and!; [done|by apply list_elem_of_In|done].
Qed.

Lemma newSigningKey_published keys priv sk : newSigningKey keys priv = Ok sk -> published keys sk.
Proof.
  unfold newSigningKey. destruct (wrapping _ _) as [k0| | |] eqn:Hw; try done. simpl.
  apply wrapping_Ok in Hw.
  destruct (jwk_Set k0 "alg" "RS256") as [k1| | |] eqn:H1; try done. simpl.
  destruct (jwk_Set k1 "use" "sig") as [k2| | |] eqn:H2; try done. simpl.
  destruct (matchingPublicKey _ _) as [k| | |] eqn:Hm; try done. simpl.
  apply matchingPublicKey_Ok in Hm as (pk & Hpk & Hin & Heq).
  assert (derived priv k2).
  { econstructor; [|exact H2]. econstructor; [|exact H1]. by constructor. }
  intros Hs. exists priv, pk, k. destruct (decide (KeyID k <> "")) as [Hid|Hid].
  - split_and!; [by econstructor|done..|by exists k2].
  - injection Hs as <-. by split_and!.
Qed.

Definition material_ok (c : cachedJWKS) : Prop :=
  exists keys sk, cj_set c = Some keys /\ cj_signingKey c = Some sk /\ published keys sk.

Lemma loadJWKS_wp p q e :
  wp (loadJWKS p q) (fun o _ => forall c, o = Ok c -> material_ok c) e.
Proof.
  unfold loadJWKS. apply wp_bind, wp_any. intros [raw| | |] e1; try done. apply wp_bind. wp_value.
  destruct (wrapping _ _) as [keys| | |]; try done. cbn [bind_post].
  destruct (decide _); [done|]. apply wp_bind, wp_any. intros [pem| | |] e2; try done.
  apply wp_bind. wp_value.
  destruct (parseRSAPrivateKey pem) as [priv| | |]; try done. apply wp_bind. wp_value.
  destruct (newSigningKey keys priv) as [sk| | |] eqn:Hk; try done. cbn [bind_post]. wp_value.
  intros c Hc. apply (inj Ok) in Hc as <-. exists keys, sk. split_and!; try done.
  by eapply newSigningKey_published.
Qed.

Lemma loadJWKS_ok p q e e' c : loadJWKS p q e = (e', Ok c) -> jwks_ok (MkJWKS p q c).
Proof.
  intros Hl. destruct (wp_elim _ _ _ _ _ (loadJWKS_wp p q e) Hl c eq_refl) as (keys & sk & Hs & Hk & Hp).
  exists keys, sk. unfold Get, SigningKey. simpl. by rewrite Hs, Hk.
Qed.

Lemma serves_ok s : serves s -> jwks_ok s.
Proof.
  induction 1 as [p q e e' s Hn|s e e' s' _ IH Hr].
  - unfold NewJWKSService in Hn. do 2 (destruct (decide _); [done|]).
    unfold mbind, M_bind in Hn. destruct (loadJWKS p q e) as [e1 [c| | |]] eqn:Hl; try done.
    injection Hn as <- <-. by eapply loadJWKS_ok.
  - unfold refresh, try, mbind, M_bind in Hr.
    destruct (loadJWKS _ _ e) as [e1 [c| | |]] eqn:Hl; try done; injection Hr as <- <-; [by eapply loadJWKS_ok|done].
Qed.

(** The key service always has a signing key and publishes a key set
    that holds the public half of it, with the key id that the signing key
    carries: after its creation and after any number of reloads, whatever the
    two files held at each of them (a reload that fails keeps the old pair,
    and the two are never replaced one without the other). *)
Theorem JWKSService_consistent s :
  serves s -> exists keys sk, Get s = Ok keys /\ SigningKey s = Ok sk /\ published keys sk.
Proof. apply serves_ok. Qed.

End keys.

(** ** Tokens *)

(** A token that a holder of the published keys accepts, with its claims. *)
Definition accepted `{Jose} {E} (j : JWTService E) (token : string) (claims : gmap string claim) : Prop :=
  exists jwks keys k, js_JWKS j = Some jwks /\ Get jwks = Ok keys /\ k ∈ keys /\
    jwt_Verify k token = Some claims.

(** The token says what was asked for. *)
Definition vouches (params : JWTParams) (claims : gmap string claim) : Prop :=
  claims !! accessClaim = Some (ClaimAccess (jp_Access params)) /\
  (forall k v, (k, v) ∈ jp_ExtraClaims params -> NoDup (jp_ExtraClaims params).*1 -> claims !! k = Some v) /\
  ("aud" ∉ (jp_ExtraClaims params).*1 -> claims !! "aud" = Some (ClaimStrings [jp_Controller params])) /\
  ("sub" ∉ (jp_ExtraClaims params).*1 -> claims !! "sub" = Some (ClaimString (jp_User params))).

Section tokens.
Context `{JoseLaws} {E : Type} `{Runtime E}.
Implicit Types (j : JWTService E) (params : JWTParams).

Lemma addClaims_other b extra b' k :
  addClaims b extra = Ok b' -> k ∉ extra.*1 -> b' !! k = b !! k.
Proof.
  revert b. induction extra as [|[k' v] extra IH]; intros b; simpl; [by intros [= ->]|].
  destruct (decide _); [done|]. intros Ha [Hne Hni]%not_elem_of_cons.
  rewrite (IH _ Ha Hni). by apply lookup_insert_ne.
Qed.

Lemma addClaims_access b extra b' : addClaims b extra = Ok b' -> accessClaim ∉ extra.*1.
Proof.
  revert b. induction extra as [|[k' v] extra IH]; intros b; simpl; [intros _; apply not_elem_of_nil|].
  destruct (decide _) as [|Hne]; [done|]. intros Ha. apply not_elem_of_cons. split; [done|by eapply IH].
Qed.

Lemma addClaims_extra b extra b' k v :
  addClaims b extra = Ok b' -> NoDup extra.*1 -> (k, v) ∈ extra -> b' !! k = Some v.
Proof.
  revert b. induction extra as [|[k' v'] extra IH]; intros b; [by intros _ _ ?%elem_of_nil|].
  cbn [addClaims fmap list_fmap fst]. intros Ha [Hni Hnd]%NoDup_cons Hin.
  destruct (decide (k' = accessClaim)) as [|Hne]; [done|].
  apply elem_of_cons in Hin as [[= -> ->]|Hin]; [|by eapply IH].
  rewrite (addClaims_other _ _ _ _ Ha Hni). apply lookup_insert_eq.
Qed.

Lemma builder_vouches params host jti exp claims :
  addClaims (builder params host jti exp) (jp_ExtraClaims params) = Ok claims -> vouches params claims.
Proof.
  intros Ha. unfold vouches. split_and!.
  - rewrite (addClaims_other _ _ _ _ Ha (addClaims_access _ _ _ Ha)). unfold builder, accessClaim.
    by rewrite lookup_insert_ne, lookup_insert_eq.
  - intros k v Hin Hnd. by eapply addClaims_extra.
  - intros Hni. rewrite (addClaims_other _ _ _ _ Ha Hni). unfold builder, accessClaim.
    by rewrite !lookup_insert_ne, lookup_singleton_eq.
  - intros Hni. rewrite (addClaims_other _ _ _ _ Ha Hni). unfold builder, accessClaim.
    rewrite !(lookup_insert_ne _ _ "sub") by done. apply lookup_insert_eq.
Qed.

Lemma NewJWT_inv params j j' token :
  NewJWT params j = (j', Ok token) ->
  js_JWKS j' = js_JWKS j /\ js_Host j' = js_Host j /\ js_Expiry j' = js_Expiry j /\
  exists jwks sk jti now claims, js_JWKS j = Some jwks /\ SigningKey jwks = Ok sk /\
    addClaims (builder params (js_Host j) jti
      (now + if decide (jp_Expiry params <> 0%Z) then jp_Expiry params else js_Expiry j)%Z)
      (jp_ExtraClaims params) = Ok claims /\ jwt_Sign sk claims = Ok token.
Proof.
  unfold NewJWT, generateJTI, env, zoom, mbind, M_bind, lift. intros Hrun.
  destruct (uuid_NewRandom (js_env j)) as [e1 [jti| | |]]; try done. simpl in Hrun.
  destruct (js_JWKS j) as [jwks|]; [|done].
  destruct (SigningKey jwks) as [sk| | |] eqn:Hsk; try done. simpl in Hrun.
  destruct (time_Now e1) as [e2 [now| | |]]; try done. simpl in Hrun.
  destruct (addClaims _ _) as [claims| | |] eqn:Ha; try done.
  destruct (jwt_Build claims) as [[]| | |]; try done.
  injection Hrun as <- Hs. simpl. split_and!; try done. exists jwks, sk, jti, now, claims. by split_and!.
Qed.

Lemma NewJWT_accepted params j j' token jwks :
  js_JWKS j = Some jwks -> serves (E:=E) jwks -> NewJWT params j = (j', Ok token) ->
  exists claims, accepted j' token claims /\ vouches params claims.
Proof.
  intros Hj Hs Hrun. destruct (NewJWT_inv _ _ _ _ Hrun) as (Hj' & _ & _ & jw & sk & jti & now & claims & Hjw & Hsk & Ha & Ht).
  simplify_eq. destruct (serves_ok _ Hs) as (keys & sk' & Hg & Hsk' & priv & pk & k & Hd & Hpk & Hin & Heq & _).
  rewrite Hsk in Hsk'. apply (inj Ok) in Hsk' as <-. exists claims. split; [|by eapply builder_vouches].
  exists jwks, keys, k. split_and!; [congruence|done|done|]. by eapply (sign_verify priv).
Qed.

(** C36.  A token of [NewJWT] is verified by a key of the set that JIMM
    publishes at that moment (whatever reloads of the key files came before),
    and the verified claims are those asked for: the access claim is exactly
    the given map and no extra claim can replace it, every extra claim is
    there, and the audience and the subject are the controller and the user
    unless an extra claim takes their name. *)
Theorem NewJWT_verified params j j' token jwks :
  js_JWKS j = Some jwks -> serves (E:=E) jwks -> NewJWT params j = (j', Ok token) ->
  exists claims, accepted j' token claims /\ vouches params claims.
Proof. apply NewJWT_accepted. Qed.

End tokens.
