(* ===== verification/JujuAuth.v ===== *)
(** * JujuAuth: the tokens JIMM gives to Juju controllers
    ([internal/jimm/jujuauth]).

    A generator is bound to one connection: it caches the permissions it has
    confirmed for the user that logged in and mints tokens that claim them.
    The package sees the permission manager, the database and the token
    service through interfaces; [AccessChecker] and [Minter] are those
    interfaces, [AccessCheckerLaws] and [MinterLaws] what the generator relies
    on, and the last section discharges them with [Perm] and [Jwx].

    The theorems: every claim of every token that a generator mints was true in
    the authorisation model at some moment since the login of its user, and a
    generator mints at most ten tokens after the login; the token of a call is
    the caller's own unless the controller is too old. *)

From S2P Require Import Prelude Errors Regexp Names AuthModel RefServer OpenFGA Dbmodel Users Database Encoding TagResolver JujuDb CloudDb Access Jwx.

(** ** Interfaces ([logintokens.go]) *)

(** [GeneratorAccessChecker] and [GeneratorDatabase], over a state [W].
    [CheckPermission] changes the given map in place, see [Perm.PermResult]. *)
Class AccessChecker (W : Type) := {
  ac_tuples : W -> gset Tuple;
  ac_GetUserModelAccess : User -> Tag -> M W string;
  ac_GetUserApplicationOfferAccess : User -> Tag -> M W string;
  ac_GetUserControllerAccess : User -> Tag -> M W string;
  ac_GetUserCloudAccess : User -> Tag -> M W string;
  ac_CheckPermission : User -> gmap string string -> list (string * goany) -> M W Perm.PermResult;
  gd_GetController : Controller -> M W LoadedController;
}.

(** [JWTService], with the order of map iteration. *)
Class Minter (J : Type) := {
  mint : JWTParams -> M J string;
  visit : list Tag -> M J (list Tag);
}.

(** ** The login token generator *)

Record LoginTokenGenerator := MkGenerator {
  accessMapCache : option (gmap string string);
  gen_mt : Tag;
  gen_ct : Tag;
  gen_user : option User;
  callCount : Z;
}.

Definition newLoginTokenGenerator : LoginTokenGenerator :=
  MkGenerator None (MkTag ModelTagKind "") (MkTag ControllerTagKind "") None 0.

(** The state of a call: the generator, the permission manager with its
    database, and the token service. *)
Record GState (W J : Type) := MkGS { gs_gen : LoginTokenGenerator; gs_w : W; gs_j : J }.
Arguments MkGS {W J}.
Arguments gs_gen {W J}.
Arguments gs_w {W J}.
Arguments gs_j {W J}.

Section generator.
Context {W J : Type} `{AccessChecker W} `{Minter J} `{JujuNames} `{JujuVersion}.
Implicit Types (user : User) (ct mt : Tag).

Definition checker {A} : M W A -> M (GState W J) A :=
  zoom gs_w (fun w s => MkGS (gs_gen s) w (gs_j s)).
Definition service {A} : M J A -> M (GState W J) A :=
  zoom gs_j (fun j s => MkGS (gs_gen s) (gs_w s) j).
Definition gen : M (GState W J) LoginTokenGenerator := fun s => (s, Ok (gs_gen s)).
Definition set_gen (f : LoginTokenGenerator -> LoginTokenGenerator) : M (GState W J) unit :=
  fun s => (MkGS (f (gs_gen s)) (gs_w s) (gs_j s), Ok tt).

(** Assignments to the fields. *)
Definition put_cache (c : option (gmap string string)) (g : LoginTokenGenerator) : LoginTokenGenerator :=
  MkGenerator c (gen_mt g) (gen_ct g) (gen_user g) (callCount g).
Definition put_user (u : User) (g : LoginTokenGenerator) : LoginTokenGenerator :=
  MkGenerator (accessMapCache g) (gen_mt g) (gen_ct g) (Some u) (callCount g).
Definition count_call (g : LoginTokenGenerator) : LoginTokenGenerator :=
  MkGenerator (accessMapCache g) (gen_mt g) (gen_ct g) (gen_user g) (int64 (callCount g + 1)).

(** [auth.accessMapCache[key] = value]. *)
Definition cache_set (key value : string) : M (GState W J) unit :=
  g ← gen;
  match accessMapCache g with
  | None => panic "assignment to entry in nil map"
  | Some m => set_gen (put_cache (Some (<[key := value]> m)))
  end.

(** [user.Tag().String()]. *)
Definition userTagString user : outcome string :=
  tag ← Identity_ResourceTag (u_Identity user); Ok (TagString tag).

Definition newToken (controller : string) user (access : option (gmap string string)) : M (GState W J) string :=
  sub ← lift (userTagString user);
  service (mint (MkJWTParams controller sub access [] 0)).

Definition SetTags mt ct : M (GState W J) unit :=
  set_gen (fun g => MkGenerator (accessMapCache g) mt ct (gen_user g) (callCount g)).

Definition GetUser (g : LoginTokenGenerator) : outcome Tag :=
  match gen_user g with
  | Some user => Identity_ResourceTag (u_Identity user)
  | None => Ok (MkTag UserTagKind "")
  end.

(** The tags of the clouds of a controller, each once, in the order in which
    [range] visits the map. *)
Definition cloudTags (ctl : LoadedController) : M (GState W J) (list Tag) :=
  tags ← lift (mapM (fun r => Cloud_ResourceTag (lp_Cloud r)) (lc_CloudRegions ctl));
  service (visit (remove_dups tags)).

Definition superuserAccess ct (resourceTags : list Tag) : gmap string string :=
  foldl (fun m target => if decide (Kind target = ModelTagKind /\ Id target <> "")
                         then <[TagString target := "admin"]> m else m)
        {[TagString ct := "superuser"]} resourceTags.

Definition makeSuperuserToken (user : option User) (resourceTags : list Tag) : M (GState W J) string :=
  match user with
  | None => throw (New "user not specified")
  | Some user =>
      g ← gen;
      newToken (Id (gen_ct g)) user (Some (superuserAccess (gen_ct g) resourceTags))
  end.

Definition resolveTargetAccess user (target : Tag) : M (GState W J) string :=
  if decide (Kind target = ModelTagKind) then checker (ac_GetUserModelAccess user target)
  else if decide (Kind target = ApplicationOfferTagKind) then
    checker (ac_GetUserApplicationOfferAccess user target)
  else throw (Errorf "unsupported resource tag type: %T" [ArgT (Kind target)]).

Fixpoint resolveAll user (targets : list Tag) (accessMap : gmap string string)
    : M (GState W J) (gmap string string) :=
  match targets with
  | [] => mret accessMap
  | target :: targets =>
      access ← resolveTargetAccess user target;
      resolveAll user targets
        (if decide (access <> "") then <[TagString target := access]> accessMap else accessMap)
  end.

Definition cloudAccessError (err : gerror) : gerror :=
  Errorf "failed to check user's cloud access: %w" [ArgE err].

Fixpoint resolveClouds user (clouds : list Tag) (accessMap : gmap string string)
    : M (GState W J) (gmap string string) :=
  match clouds with
  | [] => mret accessMap
  | cloudTag :: clouds =>
      accessLevel ← map_err cloudAccessError (checker (ac_GetUserCloudAccess user cloudTag));
      resolveClouds user clouds
        (if decide (accessLevel = "") then accessMap else <[TagString cloudTag := accessLevel]> accessMap)
  end.

Definition buildAccessMap user (resourceTags : list Tag) ct (ctl : LoadedController)
    : M (GState W J) (gmap string string) :=
  accessMap ← resolveAll user resourceTags ∅;
  controllerAccess ← checker (ac_GetUserControllerAccess user ct);
  clouds ← cloudTags ctl;
  resolveClouds user clouds (<[TagString ct := controllerAccess]> accessMap).

Definition MakeLoginToken (user : option User) : M (GState W J) string :=
  match user with
  | None => throw (New "user not specified")
  | Some user =>
      _ ← set_gen (put_user user);
      _ ← set_gen (put_cache (Some ∅));
      g ← gen;
      if decide (Id (gen_mt g) = "") then throw (New "model not set") else
      modelAccess ← checker (ac_GetUserModelAccess user (gen_mt g));
      _ ← cache_set (TagString (gen_mt g)) modelAccess;
      if decide (Id (gen_ct g) = "") then throw (New "controller not set") else
      controllerAccess ← checker (ac_GetUserControllerAccess user (gen_ct g));
      _ ← cache_set (TagString (gen_ct g)) controllerAccess;
      ctl ← map_err (fun err => Errorf "failed to fetch controller: %w" [ArgE err])
              (checker (gd_GetController (controllerOf "" (Id (gen_ct g)))));
      clouds ← cloudTags ctl;
      _ ← for_range clouds (fun cloudTag =>
        accessLevel ← map_err cloudAccessError (checker (ac_GetUserCloudAccess user cloudTag));
        cache_set (TagString cloudTag) accessLevel);
      g ← gen;
      newToken (Id (gen_ct g)) user (accessMapCache g)
  end.

(** The call [auth.accessChecker.CheckPermission(ctx, auth.user,
    auth.accessMapCache, permissionMap)]: a nil map can be read as the empty
    one, and writing to it panics. *)
Definition checkPermission user (cache : option (gmap string string)) (permissionMap : list (string * goany))
    : M (GState W J) (option (gmap string string) * option gerror) :=
  res ← checker (ac_CheckPermission user (default ∅ cache) permissionMap);
  match cache with
  | Some _ => mret (Perm.returned res, Perm.perm_err res)
  | None => if decide (Perm.cached res = ∅) then mret (None, Perm.perm_err res)
            else panic "assignment to entry in nil map"
  end.

(** [None] is the nil [permissionMap]. *)
Definition MakeToken (permissionMap : option (list (string * goany))) : M (GState W J) string :=
  g ← gen;
  if decide (10 <= callCount g)%Z then throw (New "Permission check limit exceeded") else
  _ ← set_gen count_call;
  match gen_user g with
  | None => throw (New "User authorization missing.")
  | Some user =>
      _ ← match permissionMap with
          | None => mret tt
          | Some desired =>
              r ← checkPermission user (accessMapCache g) desired;
              _ ← set_gen (put_cache (fst r));
              match snd r with Some err => throw err | None => mret tt end
          end;
      g ← gen;
      newToken (Id (gen_ct g)) user (accessMapCache g)
  end.

(** ** The factory ([factory.go]) and SSH tokens ([sshtokens.go]) *)

(** A fresh generator that lives for one call. *)
Definition NewLoginGenerator {A} (m : M (GState W J) A) : M (W * J) A := fun '(w, j) =>
  let '(s, o) := m (MkGS newLoginTokenGenerator w j) in ((gs_w s, gs_j s), o).

Definition NewLoginToken (modelTag controllerTag : Tag) (user : option User) : M (W * J) string :=
  NewLoginGenerator (_ ← SetTags modelTag controllerTag; MakeLoginToken user).

Definition NewSuperuserLoginToken (modelTag controllerTag : Tag) (user : option User) : M (W * J) string :=
  NewLoginGenerator (
    _ ← SetTags modelTag controllerTag;
    makeSuperuserToken user (if decide (Id modelTag <> "") then [modelTag] else [])).

Definition NewCallerScopedLoginToken (resourceTags : list Tag) (ctl : LoadedController) user : M (W * J) string :=
  NewLoginGenerator (
    ct ← lift (Controller_ResourceTag (lc_Controller ctl));
    found ← try (checker (gd_GetController (controllerOf "" (Id ct))));
    ctlWithClouds ← match found with
                    | inl c => mret c
                    | inr err => if decide (ErrorCode err <> CodeNotFound)
                                 then throw (Errorf "failed to fetch controller for caller token: %w" [ArgE err])
                                 else mret ctl
                    end;
    accessMap ← buildAccessMap user resourceTags ct ctlWithClouds;
    newToken (Id ct) user (Some accessMap)).

Definition minJujuVersionForCallerToken := "3.6.24".

(** [err != nil || ctrlVersion.Compare(minJujuVersionForCallerToken) < 0]. *)
Definition tooOld (agentVersion : string) : outcome bool :=
  min ← version_Parse minJujuVersionForCallerToken;
  match version_Parse agentVersion with
  | Ok v => Ok (bool_decide (version_Compare v min < 0)%Z)
  | Err _ => Ok true
  | Panic s => Panic s
  | OutOfFuel => OutOfFuel
  end.

Definition NewCallerLoginToken (resourceTags : list Tag) (ctl : LoadedController) user : M (W * J) string :=
  old ← lift (tooOld (c_AgentVersion (lc_Controller ctl)));
  if old : bool then
    NewLoginGenerator (
      ct ← lift (Controller_ResourceTag (lc_Controller ctl));
      _ ← SetTags (MkTag ModelTagKind "") ct;
      makeSuperuserToken (Some user) resourceTags)
  else NewCallerScopedLoginToken resourceTags ctl user.

Definition sshPublicKeyClaim := "ssh_public_key".

Record SSHTokenArgs := MkSSHArgs {
  ssh_User : string; ssh_ControllerUUID : string; ssh_ModelTag : Tag; ssh_PublicKey : string;
}.

Definition NewSSHToken (args : SSHTokenArgs) : M J string :=
  mint (MkJWTParams (ssh_ControllerUUID args) (ssh_User args)
    (Some {[TagString (ssh_ModelTag args) := "admin"]})
    [(sshPublicKeyClaim, ClaimString (b64_encode (ssh_PublicKey args)))] 0).

End generator.

(** ** Contracts *)

(** The relation of the authorisation model that an access string of a token
    stands for. *)
Definition access_relation (access : string) : option string :=
  if decide (access = "superuser") then Some AdministratorRelation else
  match ConvertJujuRelation access with Ok r => Some r | _ => None end.

(** A claim is true of a user when it claims nothing ([""], and [login], which
    every user has), or names an entity and an access that the user has,
    counting the groups of the session. *)
Definition claim_true `{JujuNames} (X : gset Tuple) (u : User) (key access : string) : Prop :=
  access = "" \/ access = "login" \/
  exists tag r, (key = TagString tag \/ juju_ParseTag key = Ok tag) /\
    access_relation access = Some r /\ has_access X u r (ConvertGenericTag tag).

(** What an access function promises: it reads, and reports a true access. *)
Definition access_law {W} `{AccessChecker W} `{JujuNames} (get : User -> Tag -> M W string) : Prop :=
  forall u t w, wp (get u t) (fun o w' => ac_tuples w' = ac_tuples w /\
    forall a, o = Ok a -> claim_true (ac_tuples w) u (TagString t) a) w.

Class AccessCheckerLaws (W : Type) `{AccessChecker W} `{JujuNames} := {
  law_model : access_law ac_GetUserModelAccess;
  law_offer : access_law ac_GetUserApplicationOfferAccess;
  law_controller : access_law ac_GetUserControllerAccess;
  law_cloud : access_law ac_GetUserCloudAccess;
  law_check u old desired w :
    wp (ac_CheckPermission u old desired) (fun o w' => ac_tuples w' = ac_tuples w /\
      forall res, o = Ok res -> Perm.cache_sound (ac_tuples w) u old desired res /\
        forall m, Perm.returned res = Some m -> m = Perm.cached res) w;
  law_database c w : wp (gd_GetController c) (fun o w' => ac_tuples w' = ac_tuples w) w;
}.

(** What the token service promises, as long as it is in order ([mints_ok]):
    the tokens it returns say what was asked for. *)
Class MinterLaws (J : Type) `{Minter J} := {
  mints_ok : J -> Prop;
  says : J -> string -> JWTParams -> Prop;
  law_mint p j : mints_ok j ->
    wp (mint p) (fun o j' => mints_ok j' /\ forall t, o = Ok t -> says j' t p) j;
  law_visit l j : mints_ok j ->
    wp (visit l) (fun o j' => mints_ok j' /\ exists l', o = Ok l' /\ l' ≡ₚ l) j;
}.

(** ** Runs of a generator *)

Inductive gen_op :=
| OpSetTags (mt ct : Tag)
| OpLogin (user : option User)
| OpToken (permissionMap : option (list (string * goany))).

Section runs.
Context {W J : Type} `{AccessCheckerLaws W} `{MinterLaws J}.
Implicit Types (s : GState W J) (u : User).

Definition run_op (op : gen_op) : M (GState W J) (option string) :=
  match op with
  | OpSetTags mt ct => _ ← SetTags mt ct; mret None
  | OpLogin user => t ← MakeLoginToken user; mret (Some t)
  | OpToken p => t ← MakeToken p; mret (Some t)
  end.

(** The tuple sets since the last login. *)
Definition seen_after (op : gen_op) s (seen : list (gset Tuple)) : list (gset Tuple) :=
  match op with OpLogin (Some _) => [ac_tuples (gs_w s)] | _ => seen end.

(** Whether the call is a [MakeToken] that returned a token. *)
Definition counted {A} (op : gen_op) (o : outcome A) : nat :=
  match op, o with OpToken _, Ok _ => 1 | _, _ => 0 end.

(** The life of a generator: its operations in any order, and in between any
    change of the authorisation service by others.  [seen] lists the tuple sets
    since the last login, [n] counts the tokens of [MakeToken]. *)
Inductive reach : GState W J -> list (gset Tuple) -> nat -> Prop :=
| reach_new w j : mints_ok j -> reach (MkGS newLoginTokenGenerator w j) [ac_tuples w] 0
| reach_env s seen n w j : reach s seen n -> mints_ok j -> reach (MkGS (gs_gen s) w j) (ac_tuples w :: seen) n
| reach_op s seen n op s' o : reach s seen n -> run_op op s = (s', o) ->
    reach s' (seen_after op s seen) (counted op o + n).

(** Every claim of a map was true for the user in one of the tuple sets. *)
Definition all_true (seen : list (gset Tuple)) u (m : gmap string string) : Prop :=
  forall k v, m !! k = Some v -> exists X, X ∈ seen /\ claim_true X u k v.

Definition gen_inv s (seen : list (gset Tuple)) : Prop :=
  mints_ok (gs_j s) /\ ac_tuples (gs_w s) ∈ seen /\
  forall u m, gen_user (gs_gen s) = Some u -> accessMapCache (gs_gen s) = Some m -> all_true seen u m.

(** The token says: for the controller of the generator, its user, and claims
    that were true. *)
Definition truthful (seen : list (gset Tuple)) u (ct : string) (j : J) (t : string) : Prop :=
  exists p, says j t p /\ jp_Controller p = ct /\ userTagString u = Ok (jp_User p) /\
    jp_ExtraClaims p = [] /\ forall m, jp_Access p = Some m -> all_true seen u m.

Lemma wp_checker {A} (m : M W A) Q s :
  wp m (fun o w => Q o (MkGS (gs_gen s) w (gs_j s))) (gs_w s) -> wp (checker (J:=J) m) Q s.
Proof. exact (wp_zoom gs_w _ m Q s). Qed.

Lemma wp_service {A} (m : M J A) Q s :
  wp m (fun o j => Q o (MkGS (gs_gen s) (gs_w s) j)) (gs_j s) -> wp (service (W:=W) m) Q s.
Proof. exact (wp_zoom gs_j _ m Q s). Qed.

Lemma all_true_insert seen u m k v X :
  all_true seen u m -> X ∈ seen -> claim_true X u k v -> all_true seen u (<[k := v]> m).
Proof.
  intros Hm HX Hc k' v' [[<- <-]|[_ Hk]]%lookup_insert_Some; [by exists X|by apply Hm].
Qed.

Lemma all_true_mono seen seen' u m : seen ⊆ seen' -> all_true seen u m -> all_true seen' u m.
Proof. intros HH Hm k v Hk. destruct (Hm k v Hk) as (X & HX & Hc). exists X. split; [by apply HH|done]. Qed.

Lemma wp_gen Q s : Q (Ok (gs_gen s)) s -> wp (W:=GState W J) gen Q s.
Proof. done. Qed.

Lemma wp_set_gen f Q s : Q (Ok tt) (MkGS (f (gs_gen s)) (gs_w s) (gs_j s)) -> wp (W:=GState W J) (set_gen f) Q s.
Proof. done. Qed.

(** A token for claims that are true. *)
Lemma newToken_wp seen ct u c s :
  mints_ok (gs_j s) -> (forall m, c = Some m -> all_true seen u m) ->
  wp (newToken ct u c) (fun o s' => gs_gen s' = gs_gen s /\ gs_w s' = gs_w s /\ mints_ok (gs_j s') /\
    forall t, o = Ok t -> truthful seen u ct (gs_j s') t) s.
Proof.
  intros Hj Hc. unfold newToken. apply wp_bind. wp_value.
  destruct (userTagString u) as [sub| | |] eqn:Hsub; simpl; try done.
  apply wp_service. eapply wp_mono; [by apply law_mint|]. intros o j' [Hj' Ht]. simpl.
  split_and!; try done. intros t ->. eexists. split_and!; [by apply Ht|done..].
Qed.

(** An access function run by the generator. *)
Lemma checker_access_wp get u t s :
  access_law get ->
  wp (checker (J:=J) (get u t)) (fun o s' => gs_gen s' = gs_gen s /\ gs_j s' = gs_j s /\
    ac_tuples (gs_w s') = ac_tuples (gs_w s) /\
    forall a, o = Ok a -> claim_true (ac_tuples (gs_w s)) u (TagString t) a) s.
Proof.
  intros Hget. apply wp_checker. eapply wp_mono; [apply Hget|]. intros o w' [HT Ha]. by split_and!.
Qed.

(** The clouds of a controller. *)
Lemma cloudTags_wp ctl s :
  mints_ok (gs_j s) ->
  wp (cloudTags ctl) (fun o s' => gs_gen s' = gs_gen s /\ gs_w s' = gs_w s /\ mints_ok (gs_j s')) s.
Proof.
  intros Hj. unfold cloudTags. apply wp_bind. wp_value.
  destruct (mapM _ _) as [tags| | |]; simpl; try done.
  apply wp_service. eapply wp_mono; [by apply law_visit|]. by intros o j' [Hj' _].
Qed.

(** The state of a login in progress. *)
Definition logged (X : gset Tuple) u (n : Z) s : Prop :=
  mints_ok (gs_j s) /\ ac_tuples (gs_w s) = X /\ gen_user (gs_gen s) = Some u /\
  callCount (gs_gen s) = n /\ exists m, accessMapCache (gs_gen s) = Some m /\ all_true [X] u m.

Lemma logged_frame X u n s s' :
  logged X u n s -> gs_gen s' = gs_gen s -> ac_tuples (gs_w s') = ac_tuples (gs_w s) ->
  mints_ok (gs_j s') -> logged X u n s'.
Proof. intros (_ & HX & Hu & Hn & Hm) Hg Hw Hj. unfold logged. rewrite Hg, Hw. by split_and!. Qed.

Lemma cache_set_wp X u n k v s :
  logged X u n s -> claim_true X u k v -> wp (cache_set k v) (fun _ s' => logged X u n s') s.
Proof.
  intros (Hj & HX & Hu & Hn & m & Hm & Hall) Hc. unfold wp, cache_set, gen, set_gen, mbind, M_bind.
  rewrite Hm. simpl. unfold logged. simpl. split_and!; try done. eexists; split; [done|].
  eapply all_true_insert; [done| |done]. set_solver.
Qed.

(** [access, err := get(...); cache[key] = access], then the rest. *)
Lemma cached_access_wp {A} f get X u n t (k : M (GState W J) A) (Q : outcome A -> GState W J -> Prop) s :
  access_law get -> logged X u n s ->
  (forall o s', logged X u n s' -> (forall a, o <> Ok a) -> Q o s') ->
  (forall s', logged X u n s' -> wp k Q s') ->
  wp (a ← map_err f (checker (get u t)); _ ← cache_set (TagString t) a; k) Q s.
Proof.
  intros Hget Hs Hfail Hk. apply wp_bind, wp_map_err.
  eapply wp_mono; [by apply checker_access_wp|]. intros o s1 (Hg & Hj & Hw & Ha).
  assert (logged X u n s1) as Hs1.
  { eapply logged_frame; [done|done|done|]. rewrite Hj. by destruct Hs. }
  destruct o as [a| | |]; simpl; try (by apply Hfail).
  apply wp_bind. eapply wp_mono; [apply cache_set_wp; [done|]|].
  { destruct Hs as (_ & <- & _). by apply Ha. }
  intros [[]| | |] s2 Hs2; simpl; [by apply Hk|by apply Hfail..].
Qed.

Lemma map_err_id {S A} (m : M S A) (st : S) : map_err (fun e => e) m st = m st.
Proof. unfold map_err. by destruct (m st) as [? []]. Qed.

Definition login_post X u n (o : outcome string) s' : Prop :=
  logged X u n s' /\ forall t, o = Ok t -> truthful [X] u (Id (gen_ct (gs_gen s'))) (gs_j s') t.

(** The loop over the clouds. *)
Lemma login_clouds_wp X u n clouds s :
  logged X u n s ->
  wp (for_range clouds (fun cloudTag =>
        accessLevel ← map_err cloudAccessError (checker (ac_GetUserCloudAccess u cloudTag));
        cache_set (TagString cloudTag) accessLevel)) (fun _ s' => logged X u n s') s.
Proof.
  intros Hs. apply wp_for_range; [|done]. intros c s1 _ Hs1. apply wp_bind, wp_map_err.
  eapply wp_mono; [apply checker_access_wp, law_cloud|]. intros o s2 (Hg & Hj & Hw & Ha).
  assert (logged X u n s2) as Hs2.
  { eapply logged_frame; [exact Hs1|done|done|]. rewrite Hj. by destruct Hs1. }
  destruct o as [a| | |]; simpl; try done. apply cache_set_wp; [done|].
  destruct Hs1 as (_ & <- & _). by apply Ha.
Qed.

(** The last steps of a login: the controller, its clouds and the token. *)
Lemma login_tail_wp X u n c s :
  logged X u n s ->
  wp (ctl ← map_err (fun err => Errorf "failed to fetch controller: %w" [ArgE err])
              (checker (gd_GetController c));
      clouds ← cloudTags ctl;
      _ ← for_range clouds (fun cloudTag =>
        accessLevel ← map_err cloudAccessError (checker (ac_GetUserCloudAccess u cloudTag));
        cache_set (TagString cloudTag) accessLevel);
      g ← gen;
      newToken (Id (gen_ct g)) u (accessMapCache g)) (login_post X u n) s.
Proof.
  intros Hs. pose proof Hs as (Hj & _). apply wp_bind, wp_map_err, wp_checker.
  eapply wp_mono; [apply law_database|]. intros o w' HT.
  assert (logged X u n (MkGS (gs_gen s) w' (gs_j s))) as Hs1 by (by eapply logged_frame).
  destruct o as [ctl| | |]; simpl; [|by split..]. apply wp_bind.
  eapply wp_mono; [by apply cloudTags_wp|]. intros o s2 (Hg2 & Hw2 & Hj2).
  assert (logged X u n s2) as Hs2 by (eapply logged_frame; [exact Hs1|done|by rewrite Hw2|done]).
  destruct o as [clouds| | |]; simpl; [|by split..]. apply wp_bind.
  eapply wp_mono; [by apply login_clouds_wp|]. intros o s3 Hs3.
  destruct o as [[]| | |]; simpl; [|by split..].
  apply wp_bind, wp_gen. cbn [bind_post]. pose proof Hs3 as (Hj3 & _ & _ & _ & m & Hm & Hall).
  eapply wp_mono; [apply (newToken_wp [X]); [done|]|].
  { intros m' Hm'. rewrite Hm in Hm'. by injection Hm' as <-. }
  intros o s4 (Hg4 & Hw4 & Hj4 & Ht). split; [by eapply logged_frame; [exact Hs3|done|rewrite Hw4|done]|].
  rewrite Hg4. exact Ht.
Qed.

Lemma MakeLoginToken_wp u s :
  mints_ok (gs_j s) ->
  wp (MakeLoginToken (Some u)) (login_post (ac_tuples (gs_w s)) u (callCount (gs_gen s))) s.
Proof.
  intros Hj. unfold MakeLoginToken. set (X := ac_tuples (gs_w s)). set (n := callCount (gs_gen s)).
  do 2 (apply wp_bind, wp_set_gen; cbn [bind_post]).
  set (s0 := MkGS _ _ _).
  assert (logged X u n s0) as Hs0 by (unfold logged, s0, X, n; simpl; split_and!; try done; by exists ∅).
  generalize s0 Hs0. clear s0 Hs0. intros s0 Hs0.
  apply wp_bind, wp_gen. cbn [bind_post].
  destruct (decide _); [by split|].
  assert (forall o s', logged X u n s' -> (forall a, o <> Ok a) -> login_post X u n o s') as Hfail.
  { intros o s' Hs' Ho. split; [done|]. intros t ->. by destruct (Ho t). }
  assert (forall get t (k : M (GState W J) string), access_law get ->
    (forall s', logged X u n s' -> wp k (login_post X u n) s') -> forall s', logged X u n s' ->
    wp (a ← checker (get u t); _ ← cache_set (TagString t) a; k) (login_post X u n) s') as Hstep.
  { intros get t k Hget Hk s' Hs'.
    pose proof (cached_access_wp (fun e => e) get X u n t k _ s' Hget Hs' Hfail Hk) as Hw.
    unfold wp, mbind, M_bind in Hw |- *. by rewrite map_err_id in Hw. }
  apply Hstep; [apply law_model| |done]. intros s1 Hs1. destruct (decide _); [by split|].
  apply Hstep; [apply law_controller| |done]. intros s2 Hs2. by apply login_tail_wp.
Qed.

Lemma checkPermission_wp u c desired s :
  wp (checkPermission u c desired) (fun o s' => gs_gen s' = gs_gen s /\ gs_j s' = gs_j s /\
    ac_tuples (gs_w s') = ac_tuples (gs_w s) /\
    forall r m, o = Ok r -> fst r = Some m -> exists old, c = Some old /\
      forall k v, m !! k = Some v -> old !! k = Some v \/ claim_true (ac_tuples (gs_w s)) u k v) s.
Proof.
  unfold checkPermission. apply wp_bind, wp_checker. eapply wp_mono; [apply law_check|].
  intros o w' [HT Hres]. destruct o as [res| | |]; simpl; [|by split_and!..].
  destruct (Hres res eq_refl) as [(_ & Hs & _) Hret]. destruct c as [old|]; simpl.
  - wp_value. split_and!; try done. intros r m Hr Hm. apply (inj Ok) in Hr as <-. simpl in Hm.
    apply Hret in Hm as ->. exists old. split; [done|]. intros k v Hk.
    destruct (Hs k v Hk) as [?|(_ & tag & r & Htag & Hrel & Hacc)]; [by left|right]. right; right.
    exists tag, r. split_and!; [by right| |done]. unfold access_relation. rewrite Hrel.
    destruct (decide _) as [->|]; [done|done].
  - destruct (decide _); wp_value; split_and!; try done.
    intros r m Hr Hm. apply (inj Ok) in Hr as <-. done.
Qed.

(** What holds between the operations of a generator that has minted [n]
    tokens with [MakeToken], and what its next token says. *)
Definition run_inv s (seen : list (gset Tuple)) (n : nat) : Prop :=
  gen_inv s seen /\ (Z.of_nat n <= callCount (gs_gen s) <= 10)%Z.

Definition token_post (seen : list (gset Tuple)) (n : nat) (o : outcome string) s' : Prop :=
  run_inv s' seen (match o with Ok _ => S n | _ => n end) /\
  forall t, o = Ok t -> exists u, gen_user (gs_gen s') = Some u /\
    truthful seen u (Id (gen_ct (gs_gen s'))) (gs_j s') t.

(** The permission check of [MakeToken] keeps the cache true. *)
Lemma MakeToken_check_wp p u seen n s :
  run_inv s seen (S n) -> gen_user (gs_gen s) = Some u ->
  wp (match p with
      | None => mret tt
      | Some desired =>
          r ← checkPermission u (accessMapCache (gs_gen s)) desired;
          _ ← set_gen (put_cache (fst r));
          match snd r with Some err => throw err | None => mret tt end
      end) (fun _ s' => run_inv s' seen (S n) /\ gen_user (gs_gen s') = Some u) s.
Proof.
  intros [(Hj & HX & Hall) Hn] Hu. destruct p as [desired|]; [|by wp_value].
  apply wp_bind. eapply wp_mono; [apply checkPermission_wp|]. intros o s1 (Hg & Hj1 & Hw & Hr).
  assert (run_inv s1 seen (S n)) by (split; [split_and!|]; rewrite ?Hg, ?Hj1, ?Hw; done).
  destruct o as [[c err]| | |]; simpl; try (by rewrite Hg). apply wp_bind, wp_set_gen. cbn [bind_post].
  match goal with |- wp _ _ ?st => assert (run_inv st seen (S n) /\ gen_user (gs_gen st) = Some u) as Hst end.
  { unfold run_inv, gen_inv. simpl. rewrite Hg, Hj1, Hw. split_and!; try done; try lia.
    intros u' m Hu' Hm. simplify_eq. destruct (Hr _ m eq_refl eq_refl) as (old & Hold & Hm).
    intros k v Hk. destruct (Hm k v Hk) as [Hk'|Hc]; [by eapply Hall|by eexists]. }
  by destruct err.
Qed.

Lemma MakeToken_wp p seen n s : run_inv s seen n -> wp (MakeToken p) (token_post seen n) s.
Proof.
  intros [(Hj & HX & Hall) Hn]. unfold MakeToken. apply wp_bind, wp_gen. cbn [bind_post].
  destruct (decide _) as [|Hlt]; [by split|]. apply wp_bind, wp_set_gen. cbn [bind_post].
  set (s0 := MkGS _ _ _). assert (run_inv s0 seen (S n)) as Hs0.
  { unfold s0. split; [by split_and!|]. simpl. rewrite int64_id by lia. lia. }
  assert (gen_user (gs_gen s0) = gen_user (gs_gen s) /\
          accessMapCache (gs_gen s0) = accessMapCache (gs_gen s)) as [Hu0 <-] by done.
  rewrite <- Hu0. generalize dependent s0. intros s0 Hs0 _.
  assert (forall s', run_inv s' seen (S n) -> run_inv s' seen n) as Hw.
  { intros s' [? ?]. split; [done|lia]. }
  destruct (gen_user (gs_gen s0)) as [u|] eqn:Hu; [|split; [by apply Hw|done]].
  apply wp_bind. eapply wp_mono; [by apply (MakeToken_check_wp _ u seen n)|]. intros o s1 [Hs1 Hu1].
  destruct o as [[]| | |]; simpl; [|split; [by apply Hw|done]..].
  apply wp_bind, wp_gen. cbn [bind_post]. pose proof Hs1 as [(Hj1 & HX1 & Hall1) Hn1].
  eapply wp_mono; [apply (newToken_wp seen); [done|by eauto]|].
  intros o s2 (Hg & Hw2 & Hj2 & Ht).
  assert (run_inv s2 seen (S n)) by (split; [split_and!|]; rewrite ?Hg, ?Hw2; done).
  split; [destruct o; [done|by apply Hw..]|]. intros t ->. exists u. rewrite Hg. split; [done|by apply Ht].
Qed.

Definition op_post (op : gen_op) s (seen : list (gset Tuple)) (n : nat) (o : outcome (option string)) s' : Prop :=
  run_inv s' (seen_after op s seen) (counted op o + n) /\
  forall t, o = Ok (Some t) -> exists u, gen_user (gs_gen s') = Some u /\
    truthful (seen_after op s seen) u (Id (gen_ct (gs_gen s'))) (gs_j s') t.

Lemma run_op_wp op seen n s : run_inv s seen n -> wp (run_op op) (op_post op s seen n) s.
Proof.
  intros Hs. pose proof Hs as [(Hj & HX & Hall) Hn]. destruct op as [mt ct|[u|]|p]; simpl.
  - by split.
  - apply wp_bind. eapply wp_mono; [by apply MakeLoginToken_wp|]. intros o s1 [Hl Ht].
    assert (run_inv s1 [ac_tuples (gs_w s)] n) as Hs1.
    { destruct Hl as (Hj1 & Hw1 & Hu1 & Hc1 & m & Hm & Hm'). split; [|by rewrite Hc1].
      split_and!; [done|rewrite Hw1; set_solver|]. intros u' m' Hu' Hmm. rewrite Hu1 in Hu'. rewrite Hm in Hmm. by simplify_eq. }
    destruct o as [t| | |]; simpl; [wp_value|by split..]. split; [done|].
    intros t' Hr. apply (inj Ok) in Hr as [= <-]. exists u. split; [by destruct Hl as (_ & _ & ? & _)|by apply Ht].
  - by split.
  - apply wp_bind. eapply wp_mono; [by apply MakeToken_wp|]. intros o s1 [Hs1 Ht].
    destruct o as [t| | |]; simpl; [wp_value|by split..]. split; [done|].
    intros t' Hr. apply (inj Ok) in Hr as [= <-]. by apply Ht.
Qed.

Lemma reach_inv s seen n : reach s seen n -> run_inv s seen n.
Proof.
  induction 1 as [w j Hj|s seen n w j _ [(_ & _ & Hall) Hn] Hj|s seen n op s' o _ IH Hrun].
  - split; [|simpl; lia]. split_and!; [done|simpl; set_solver|done].
  - split; [|done]. split_and!; [done|simpl; set_solver|]. intros u m Hu Hm.
    eapply all_true_mono; [|by apply Hall]. set_solver.
  - exact (proj1 (wp_elim _ _ _ _ _ (run_op_wp op seen n s IH) Hrun)).
Qed.

(** C2.  Every token that a generator returns, after any sequence of its
    operations interleaved with any changes of the authorisation service by
    others, is for the controller the generator is set to and for the user
    that logged in last, and each of its claims was true of that user in the
    authorisation model at some moment since that login (claims of an earlier
    user of the same generator never leak into it). *)
Theorem generator_tokens_truthful s seen n op s' t :
  reach s seen n -> run_op op s = (s', Ok (Some t)) ->
  exists u, gen_user (gs_gen s') = Some u /\
    truthful (seen_after op s seen) u (Id (gen_ct (gs_gen s'))) (gs_j s') t.
Proof.
  intros Hr Hrun. by apply (wp_elim _ _ _ _ _ (run_op_wp op seen n s (reach_inv _ _ _ Hr)) Hrun).
Qed.

(** A generator returns at most ten tokens from [MakeToken] in its whole
    life, however its operations are interleaved and however often its user
    logs in again: the counter bounds the number of tokens and never passes
    ten, so it does not overflow. *)
Theorem MakeToken_bounded s seen n :
  reach s seen n -> (Z.of_nat n <= callCount (gs_gen s) <= 10)%Z.
Proof. intros Hr. by apply reach_inv in Hr as [_ ?]. Qed.

End runs.

(** ** Tokens for calls *)

Section callers.
Context {W J : Type} `{AccessCheckerLaws W} `{MinterLaws J} `{JujuVersion}.
Implicit Types (s : GState W J) (u user : User).

(** A step that reads: the generator and the tuples stay, the token service
    stays in order. *)
Definition quiet s s' : Prop :=
  gs_gen s' = gs_gen s /\ ac_tuples (gs_w s') = ac_tuples (gs_w s) /\ mints_ok (gs_j s').

Lemma quiet_trans s1 s2 s3 : quiet s1 s2 -> quiet s2 s3 -> quiet s1 s3.
Proof. intros (Hg & Ht & _) (Hg' & Ht' & Hj). unfold quiet. split_and!; [congruence..|done]. Qed.

Definition map_post s X u (o : outcome (gmap string string)) s' : Prop :=
  quiet s s' /\ forall m, o = Ok m -> all_true [X] u m.

Lemma map_post_trans s1 s2 X u o s3 : quiet s1 s2 -> map_post s2 X u o s3 -> map_post s1 X u o s3.
Proof. intros Hq [Hq' Hm]. split; [by eapply quiet_trans|done]. Qed.

Lemma resolveTargetAccess_wp u t s :
  mints_ok (gs_j s) ->
  wp (resolveTargetAccess u t) (fun o s' => quiet s s' /\
    forall a, o = Ok a -> claim_true (ac_tuples (gs_w s)) u (TagString t) a) s.
Proof.
  intros Hj. unfold resolveTargetAccess.
  assert (forall get, access_law get -> wp (checker (J:=J) (get u t)) (fun o s' => quiet s s' /\
    forall a, o = Ok a -> claim_true (ac_tuples (gs_w s)) u (TagString t) a) s) as Hget.
  { intros get Hget. eapply wp_mono; [by apply checker_access_wp|]. intros o s' (Hg & Hj' & Ht & Ha).
    split; [|done]. unfold quiet. by rewrite Hj'. }
  destruct (decide _); [apply Hget, law_model|].
  destruct (decide _); [apply Hget, law_offer|]. by wp_value.
Qed.

Lemma resolveAll_wp X u targets m s :
  mints_ok (gs_j s) -> ac_tuples (gs_w s) = X -> all_true [X] u m ->
  wp (resolveAll u targets m) (map_post s X u) s.
Proof.
  revert m s. induction targets as [|t targets IH]; intros m s Hj HX Hm.
  - wp_value. split; [done|]. by intros m' Hr%(inj Ok); subst.
  - cbn [resolveAll]. apply wp_bind. eapply wp_mono; [by apply resolveTargetAccess_wp|].
    intros o s1 [Hq Ha]. destruct o as [a| | |]; simpl; try (by split).
    eapply wp_mono; [apply IH; [by apply Hq|by destruct Hq as (_ & -> & _)|]|].
    + destruct (decide _); [|done]. eapply (all_true_insert _ _ _ _ _ X); [done| |].
      * by apply list_elem_of_singleton.
      * rewrite <- HX. by apply Ha.
    + intros o s2 Hp. by eapply map_post_trans.
Qed.

Lemma resolveClouds_wp X u clouds m s :
  mints_ok (gs_j s) -> ac_tuples (gs_w s) = X -> all_true [X] u m ->
  wp (resolveClouds u clouds m) (map_post s X u) s.
Proof.
  revert m s. induction clouds as [|t clouds IH]; intros m s Hj HX Hm.
  - wp_value. split; [done|]. by intros m' Hr%(inj Ok); subst.
  - cbn [resolveClouds]. apply wp_bind, wp_map_err. eapply wp_mono; [apply checker_access_wp, law_cloud|].
    intros o s1 (Hg & Hj1 & Ht & Ha). assert (quiet s s1) as Hq by (unfold quiet; by rewrite Hj1).
    destruct o as [a| | |]; simpl; try (by split).
    eapply wp_mono; [apply IH; [by rewrite Hj1|by rewrite Ht|]|].
    + destruct (decide _); [done|]. eapply (all_true_insert _ _ _ _ _ X); [done| |].
      * by apply list_elem_of_singleton.
      * rewrite <- HX. by apply Ha.
    + intros o s2 Hp. by eapply map_post_trans.
Qed.

Lemma buildAccessMap_wp u tags ct ctl s :
  mints_ok (gs_j s) ->
  wp (buildAccessMap u tags ct ctl) (map_post s (ac_tuples (gs_w s)) u) s.
Proof.
  intros Hj. set (X := ac_tuples (gs_w s)). unfold buildAccessMap. apply wp_bind.
  eapply wp_mono; [by apply (resolveAll_wp X)|]. intros o s1 [Hq1 Hm1].
  destruct o as [m1| | |]; simpl; try (by split). apply wp_bind.
  eapply wp_mono; [apply checker_access_wp, law_controller|]. intros o s2 (Hg2 & Hj2 & Ht2 & Ha2).
  assert (quiet s s2) as Hq2.
  { eapply quiet_trans; [done|]. unfold quiet. rewrite Hj2. split_and!; [done|done|apply Hq1]. }
  destruct o as [a| | |]; simpl; try (by split). apply wp_bind.
  eapply wp_mono; [apply cloudTags_wp, Hq2|]. intros o s3 (Hg3 & Hw3 & Hj3).
  assert (quiet s s3) as Hq3.
  { eapply quiet_trans; [done|]. unfold quiet. by rewrite Hw3. }
  destruct o as [clouds| | |]; simpl; try (by split).
  eapply wp_mono; [apply (resolveClouds_wp X); [done|apply Hq3|]|].
  - eapply (all_true_insert _ _ _ _ _ X); [by apply Hm1| |].
    + by apply list_elem_of_singleton.
    + destruct Hq1 as (_ & HX & _). unfold X. rewrite <- HX. by apply Ha2.
  - intros o s4 Hp. by eapply map_post_trans.
Qed.

Lemma wp_NewLoginGenerator {A} (m : M (GState W J) A) Q w j :
  wp m (fun o s => Q o (gs_w s, gs_j s)) (MkGS newLoginTokenGenerator w j) ->
  wp (NewLoginGenerator m) Q (w, j).
Proof. unfold wp, NewLoginGenerator. by destruct (m _). Qed.

Lemma NewCallerScopedLoginToken_wp tags ctl u w j :
  mints_ok j ->
  wp (NewCallerScopedLoginToken tags ctl u) (fun o wj => ac_tuples (fst wj) = ac_tuples w /\
    forall t, o = Ok t -> truthful [ac_tuples w] u (c_UUID (lc_Controller ctl)) (snd wj) t) (w, j).
Proof.
  intros Hj. apply wp_NewLoginGenerator. set (s := MkGS _ w j). apply wp_bind. wp_value.
  unfold Controller_ResourceTag, NewControllerTag, NewJujuTag.
  destruct (ValidTagId _ _); [|done]. cbn [bind_post]. apply wp_bind, wp_try, wp_checker.
  eapply wp_mono; [apply law_database|]. intros o w1 Hw1.
  assert (forall c, wp (accessMap ← buildAccessMap u tags (MkTag ControllerTagKind (c_UUID (lc_Controller ctl))) c;
      newToken (Id (MkTag ControllerTagKind (c_UUID (lc_Controller ctl)))) u (Some accessMap))
    (fun o s' => ac_tuples (gs_w s') = ac_tuples w /\
      forall t, o = Ok t -> truthful [ac_tuples w] u (c_UUID (lc_Controller ctl)) (gs_j s') t)
    (MkGS (gs_gen s) w1 (gs_j s))) as Htail.
  { intros c. apply wp_bind. eapply wp_mono; [by apply buildAccessMap_wp|]. simpl. rewrite Hw1.
    intros o2 s2 [(_ & Ht2 & Hj2) Hm2]. simpl in Ht2. rewrite Hw1 in Ht2.
    destruct o2 as [m| | |]; simpl; [|done..].
    eapply wp_mono; [apply (newToken_wp [ac_tuples w]); [done|]|].
    - intros m' [= <-]. by apply Hm2.
    - intros o3 s3 (_ & Hw3 & _ & Ht). rewrite Hw3. by split. }
  destruct o as [c|err| |]; simpl; try done; [exact (Htail c)|].
  apply wp_bind. destruct (decide _); wp_value; [done|exact (Htail ctl)].
Qed.

Lemma superuserAccess_spec ct tags k v :
  superuserAccess ct tags !! k = Some v ->
  (v = "superuser" /\ k = TagString ct) \/
  (v = "admin" /\ exists t, t ∈ tags /\ Kind t = ModelTagKind /\ Id t <> "" /\ k = TagString t).
Proof.
  unfold superuserAccess. set (m0 := {[TagString ct := "superuser"]} : gmap string string).
  assert (forall k v, m0 !! k = Some v -> v = "superuser" /\ k = TagString ct) as Hm0.
  { intros k' v' [<- <-]%lookup_singleton_Some. done. }
  clearbody m0. intros Hk.
  assert (m0 !! k = Some v \/ (v = "admin" /\ exists t, t ∈ tags /\ Kind t = ModelTagKind /\ Id t <> "" /\ k = TagString t)) as [?|?];
    [|by left; apply Hm0|by right].
  clear Hm0. revert m0 Hk. induction tags as [|t tags IH]; intros m0; [by left|]. cbn [foldl]. intros Hk.
  destruct (IH _ Hk) as [Hk'|(? & t' & Hin & ?)]; [|right; split; [done|]; exists t'; set_solver].
  destruct (decide _) as [[Hkind Hid]|]; [|by left].
  apply lookup_insert_Some in Hk' as [[<- <-]|[_ ?]]; [right|by left]. split; [done|]. exists t. set_solver.
Qed.

(** The token for old controllers. *)
Definition compatibility (tags : list Tag) u (c : string) (j : J) (t : string) : Prop :=
  exists p, says j t p /\ jp_Controller p = c /\ userTagString u = Ok (jp_User p) /\
    forall m k v, jp_Access p = Some m -> m !! k = Some v ->
      (v = "superuser" /\ k = TagString (MkTag ControllerTagKind c)) \/
      (v = "admin" /\ exists t, t ∈ tags /\ Kind t = ModelTagKind /\ Id t <> "" /\ k = TagString t).

Lemma NewCallerLoginToken_wp tags ctl u w j old :
  mints_ok j -> tooOld (c_AgentVersion (lc_Controller ctl)) = Ok old ->
  wp (NewCallerLoginToken tags ctl u) (fun o wj => forall t, o = Ok t -> ac_tuples (fst wj) = ac_tuples w /\
    if old then compatibility tags u (c_UUID (lc_Controller ctl)) (snd wj) t
    else truthful [ac_tuples w] u (c_UUID (lc_Controller ctl)) (snd wj) t) (w, j).
Proof.
  intros Hj Hold.
  unfold NewCallerLoginToken. apply wp_bind. wp_value. rewrite Hold. cbn [bind_post]. destruct old.
  - apply wp_NewLoginGenerator. apply wp_bind. wp_value.
    unfold Controller_ResourceTag, NewControllerTag, NewJujuTag.
    destruct (ValidTagId _ _); [|done]. cbn [bind_post]. apply wp_bind, wp_set_gen. cbn [bind_post].
    unfold makeSuperuserToken. apply wp_bind, wp_gen. cbn [bind_post gs_gen gen_ct Id].
    unfold newToken. apply wp_bind. wp_value. destruct (userTagString u) as [sub| | |] eqn:Hsub; try done.
    cbn [bind_post]. apply wp_service. eapply wp_mono; [by apply law_mint|].
    intros o j1 [_ Hsays] t ->. split; [done|]. eexists. split_and!; [by apply Hsays|done|done|].
    intros m k v [= <-] Hk. by apply superuserAccess_spec.
  - eapply wp_mono; [by apply NewCallerScopedLoginToken_wp|]. intros o [w1 j1] [Hw Ht] t ->. auto.
Qed.

(** The token for a call carries the caller's own permissions when the
    controller is recent enough: for that controller and user, and every claim
    is true in the authorisation model, offers, models and clouds included.
    For an older controller, or one of an unknown version, it claims the
    controller as superuser and the given models as admin, and nothing else,
    without any check. *)
Theorem NewCallerLoginToken_claims tags ctl u w j w' j' t old :
  mints_ok j -> tooOld (c_AgentVersion (lc_Controller ctl)) = Ok old ->
  NewCallerLoginToken tags ctl u (w, j) = ((w', j'), Ok t) ->
  ac_tuples w' = ac_tuples w /\
  if old then compatibility tags u (c_UUID (lc_Controller ctl)) j' t
  else truthful [ac_tuples w] u (c_UUID (lc_Controller ctl)) j' t.
Proof.
  intros Hj Hold Hrun.
  exact (wp_elim _ _ _ _ _ (NewCallerLoginToken_wp tags ctl u w j old Hj Hold) Hrun t eq_refl).
Qed.

End callers.

(** ** The permission manager and the token service behind the interfaces *)

Section instances.
Context {F : Type} `{OFGALaws F} {T : Type -> Type} `{GormLaws T} `{JujuNames}.
Context `{JoseLaws} {E : Type} `{RuntimeLaws E}.
Implicit Types (w : World F T) (u : User).

#[export] Instance Perm_AccessChecker : AccessChecker (World F T) := {
  ac_tuples := Perm.w_tuples;
  ac_GetUserModelAccess := Perm.GetUserModelAccess;
  ac_GetUserApplicationOfferAccess := Perm.GetUserApplicationOfferAccess;
  ac_GetUserControllerAccess := Perm.GetUserControllerAccess;
  ac_GetUserCloudAccess := Perm.GetUserCloudAccess;
  ac_CheckPermission := Perm.CheckPermission;
  gd_GetController := fun c => db (LoadController c);
}.

#[export] Instance Jwx_Minter : Minter (JWTService E) := {
  mint := NewJWT;
  visit := fun tags => env (range_order tags);
}.

(** A ladder of relations, reported as an access string. *)
Lemma ladder_access_law (levels : list string) (str : string -> string) :
  str NoRelation = "" \/ str NoRelation = "login" ->
  Forall (fun r => access_relation (str r) = Some r) levels ->
  access_law (fun u t => a ← fga (access_ladder u t levels); mret (str a)).
Proof.
  intros Hno Hlv u t w. apply wp_bind. eapply Perm.wp_fga_read.
  { eapply wp_mono; [apply access_ladder_wp|]. intros o f (HT & Ha & Hr). split_and!; [exact HT|exact Ha|exact Hr]. }
  intros o w' HT _ _ Hr. destruct o as [r| | |]; simpl; try (by split). wp_value. split; [exact HT|].
  intros a Ha. apply (inj Ok) in Ha as <-. destruct (Hr r eq_refl) as [->|(pre & post & Heq & Hacc & _)].
  - destruct Hno as [->| ->]; [by left|by right; left].
  - right; right. exists t, r. split_and!; [by left| |exact Hacc].
    rewrite Forall_forall in Hlv. apply Hlv. rewrite Heq. set_solver.
Qed.

Lemma CheckPermission_returned u old desired w w' res m :
  Perm.CheckPermission u old desired w = (w', Ok res) -> Perm.returned res = Some m -> m = Perm.cached res.
Proof.
  assert (forall al batch c, Perm.returned (Perm.cacheAllowed al batch c) = Some (Perm.cached (Perm.cacheAllowed al batch c))) as Hc.
  { intros al batch. induction batch as [|[c id] batch IH]; intros m0; [done|]. simpl. by destruct (default _ _). }
  unfold Perm.CheckPermission. intros Hrun Hret.
  destruct (Perm.collectChecks old desired) as [[|c0 checks]|[[] err]].
  - injection Hrun as _ <-. simpl in *. congruence.
  - destruct (ContextualTuples u) as [ctx|err| |]; try done; [|injection Hrun as _ <-; simpl in *; congruence].
    unfold mbind, M_bind, lift in Hrun. destruct (user_entity u) as [e| | |]; try done.
    destruct (try _ w) as [w1 [[al|err]| | |]]; try done.
    + unfold mret, M_ret in Hrun. apply pair_equal_spec in Hrun as [_ Hr]. apply (inj Ok) in Hr as <-.
      rewrite Hc in Hret. congruence.
    + injection Hrun as _ <-. simpl in *. congruence.
  - injection Hrun as _ <-. simpl in *. congruence.
  - injection Hrun as _ <-. done.
Qed.

#[export] Instance Perm_AccessCheckerLaws : AccessCheckerLaws (World F T).
Proof.
  split.
  - apply (ladder_access_law Perm.model_levels); [by left|]. by repeat constructor.
  - apply (ladder_access_law Perm.offer_levels); [by left|]. by repeat constructor.
  - apply (ladder_access_law [AdministratorRelation]); [by right|]. by repeat constructor.
  - apply (ladder_access_law Perm.cloud_levels); [by left|]. by repeat constructor.
  - intros u old desired w. apply wp_run. intros w' o Hrun.
    destruct (wp_elim _ _ _ _ _ (Perm.CheckPermission_wp u old desired w) Hrun) as (HT & _ & Hres).
    split; [exact HT|]. intros res ->. split; [by apply Hres|]. intros m. exact (CheckPermission_returned _ _ _ _ _ _ m Hrun).
  - intros c w. unfold gd_GetController. simpl. apply Perm.wp_db, wp_any. done.
Qed.

(** The token service is in order when its key service came from
    [NewJWKSService] and its reloads; a token says what the published keys
    make of it. *)
Definition Jwx_ok (j : JWTService E) : Prop := exists jwks, js_JWKS j = Some jwks /\ serves (E:=E) jwks.
Definition Jwx_says (j : JWTService E) (t : string) (p : JWTParams) : Prop :=
  exists claims, accepted j t claims /\ vouches p claims.

Lemma NewJWT_keeps p (j : JWTService E) : wp (NewJWT p) (fun _ j' => js_JWKS j' = js_JWKS j) j.
Proof.
  unfold wp, NewJWT, generateJTI, env, zoom, mbind, M_bind, lift.
  destruct (uuid_NewRandom (js_env j)) as [e1 [jti| | |]]; try done. simpl.
  destruct (js_JWKS j) as [jwks|]; try done. destruct (SigningKey jwks); try done. simpl.
  destruct (time_Now e1) as [e2 [now| | |]]; try done. simpl.
  destruct (addClaims _ _) as [c| | |]; try done. by destruct (jwt_Build c) as [[]| | |].
Qed.

Lemma Jwx_mint p j : Jwx_ok j ->
  wp (mint p) (fun o j' => Jwx_ok j' /\ forall t, o = Ok t -> Jwx_says j' t p) j.
Proof.
  intros (jwks & Hj & Hs). apply wp_run. intros j' o Hrun. split.
  - exists jwks. split; [|done]. rewrite <- Hj. exact (wp_elim _ _ _ _ _ (NewJWT_keeps p j) Hrun).
  - intros t ->. exact (NewJWT_accepted p j j' t jwks Hj Hs Hrun).
Qed.

Lemma Jwx_visit l j : Jwx_ok j ->
  wp (visit l) (fun o j' => Jwx_ok j' /\ exists l', o = Ok l' /\ l' ≡ₚ l) j.
Proof.
  intros (jwks & Hj & Hs). destruct (range_order_perm _ l (js_env j)) as (e' & l' & He & Hl).
  unfold visit, Jwx_Minter, wp, env, zoom. rewrite He. split; [by exists jwks|by exists l'].
Qed.

#[export] Instance Jwx_MinterLaws : MinterLaws (JWTService E) := {
  mints_ok := Jwx_ok; says := Jwx_says; law_mint := Jwx_mint; law_visit := Jwx_visit;
}.

(** [MakeToken] with permissions that are all cached already, at whatever
    level, asks nothing and mints the token for the cache as it is. *)
Lemma collectChecks_cached (c : gmap string string) desired :
  (forall k x, (k, x) ∈ desired -> is_Some (c !! k)) -> Perm.collectChecks c desired = inl [].
Proof.
  induction desired as [|[k x] desired IH]; intros Hall; [done|]. simpl.
  destruct (Hall k x) as [v ->]; [set_solver|]. apply IH. intros k' x' Hin. apply (Hall k' x'). set_solver.
Qed.

(** [MakeToken] does not look at the level of a desired permission whose
    key is cached: when all keys are, it returns a token for the cache as it
    stands, as with no desired permissions at all.  After a login that found
    read access (or none) to the model, asking for admin access to it
    therefore succeeds and returns a token that confirms read access (or
    none), although the comment of the function says that the token confirms
    all the permissions. *)
Theorem MakeToken_ignores_cached_level (s : GState (World F T) (JWTService E)) c desired :
  accessMapCache (gs_gen s) = Some c -> (forall k x, (k, x) ∈ desired -> is_Some (c !! k)) ->
  MakeToken (Some desired) s = MakeToken None s.
Proof.
  intros Hc Hall. unfold MakeToken, mbind, M_bind, gen, set_gen.
  destruct (decide _); [done|]. destruct (gen_user (gs_gen s)) as [u|]; [|done].
  unfold checkPermission, checker, zoom, mbind, M_bind, ac_CheckPermission, Perm_AccessChecker, Perm.CheckPermission.
  rewrite Hc. simpl. rewrite (collectChecks_cached c desired Hall). simpl.
  destruct s as [[cache mt ct us calls] w j]. simpl in *. by subst cache.
Qed.

End instances.
