(* ===== verification/AuthService.v ===== *)
(** * AuthService: authentication of users ([internal/auth/auth.go]).

    The service talks to the identity provider, to the store of browser
    sessions and to a clock; all of them are the parameter [Outside], with the
    libraries that read and write tokens.  It keeps the tokens of an identity
    in the database.  [SessionLaws] states what JIMM relies on of the token
    library: a token signed with the session key is read back until it
    expires, as JSON would return it.

    The theorems: session and migration tokens round trip with the user and
    the groups they were minted for; no login brings more groups than the
    authorisation service accepts; a browser session is accepted only with a
    valid or refreshed access token of its identity; a logout removes the
    tokens of the identity. *)

From Stdlib Require Import Ascii.
From S2P Require Import Prelude Errors GoStrings Regexp Names AuthModel RefServer OpenFGA Dbmodel Users Database Encoding TagResolver Access.

Module Auth.

(** ** Values from outside *)

(** The dynamic values of claims and session values: text, slices, times. *)
Inductive gval :=
| GString (s : string)
| GStrings (l : list string)
| GAnys (l : list goany)
| GTime (t : Z)
| GAny (a : goany).

Definition gval_type (v : gval) : string :=
  match v with
  | GString _ => "string"
  | GStrings _ => "[]string"
  | GAnys _ => "[]interface {}"
  | GTime _ => "time.Time"
  | GAny a => Perm.goany_type a
  end.

(** [oauth2.Token]: [Extra("id_token")] is [ot_IDToken]. *)
Record OToken := MkOToken {
  ot_AccessToken : string; ot_RefreshToken : string; ot_Expiry : Z; ot_TokenType : string;
  ot_IDToken : option string;
}.

(** [oidc.IDToken]: its subject and what [Claims] decodes. *)
Record IDToken := MkIDToken { it_Subject : string; it_Claims : outcome (list (string * gval)) }.

(** [sessions.Session]. *)
Record Session := MkSession {
  se_ID : string; se_Values : gmap string gval; se_IsNew : bool;
  se_MaxAge : Z; se_Secure : bool; se_HttpOnly : bool; se_SameSiteNone : bool;
}.

(** The token library reports an expired token with this error. *)
Definition ErrTokenExpired : gerror := ErrSentinel "exp not satisfied".

(** [stderrors.Is(err, jwt.ErrTokenExpired())]. *)
Fixpoint is_expired (e : gerror) : bool :=
  match e with
  | ErrSentinel m => bool_decide (m = "exp not satisfied")
  | WrapError _ e | JimmError _ _ _ (Some e) => is_expired e
  | _ => false
  end.

(** The identity provider, the session store, the random source and the
    clock; [Req] is an HTTP request, [DeviceResponse] the answer of the device
    endpoint. *)
Class Outside (P : Type) := {
  Req : Type;
  DeviceResponse : Type;
  oauth_Exchange : string -> M P OToken;
  oauth_AuthCodeURL : string -> string;
  oauth_DeviceAuth : M P DeviceResponse;
  oauth_DeviceAccessToken : DeviceResponse -> M P OToken;
  oauth_Refresh : OToken -> M P OToken;
  oauth_Valid : OToken -> M P bool;
  clientcredentials_Token : string -> string -> list string -> M P OToken;
  oidc_Verify : string -> string -> M P IDToken;
  jwt_ParseInsecure : string -> outcome (list (string * gval));
  jwt_BuildHS : gmap string gval -> outcome unit;
  jwt_SignHS : string -> gmap string gval -> outcome string;
  jwt_ParseHS : string -> string -> M P (gmap string gval);
  mail_ParseAddress : string -> bool;
  session_Get : Req -> string -> M P Session;
  session_Save : Req -> Session -> M P unit;
  rand_Read : nat -> M P string;
  clock : P -> Z;
}.

(** ** Context values *)

Record Context_ := MkContext { sessionIdentity : option gval; sessionGroups : option (list string) }.

Definition ContextWithSessionIdentity (ctx : Context_) (id : gval) : Context_ :=
  MkContext (Some id) (sessionGroups ctx).

Definition SessionIdentityFromContext (ctx : Context_) : string :=
  match sessionIdentity ctx with
  | Some (GString s) => s
  | _ => ""
  end.

Definition SessionGroupsFromContext (ctx : Context_) : list string := default [] (sessionGroups ctx).

Definition ContextWithSessionGroups (ctx : Context_) (groups : list string) : Context_ :=
  MkContext (sessionIdentity ctx) (Some groups).

(** The loops over a [[]any]: all entries are strings, or the index and the
    type of the first that is not. *)
Fixpoint stringEntries (i : Z) (l : list goany) : list string + (Z * string) :=
  match l with
  | [] => inl []
  | AnyString s :: l => match stringEntries (i + 1) l with inl ss => inl (s :: ss) | r => r end
  | a :: _ => inr (i, Perm.goany_type a)
  end.

(** [None] is the nil value: the key is missing. *)
Definition sessionGroupsFromValue (value : option gval) : outcome (list string) :=
  match value with
  | None => Ok []
  | Some (GStrings groups) => Ok groups
  | Some (GAnys groups) =>
      match stringEntries 0 groups with
      | inl parsedGroups => Ok parsedGroups
      | inr (i, t) => Err (Errorf "invalid session group entry type at index %d: got %T" [ArgD i; ArgT t])
      end
  | Some v => Err (Errorf "invalid session groups type: got %T" [ArgT (gval_type v)])
  end.

(** ** The service *)

Definition SessionName := "jimm-browser-session".
Definition SessionIdentityKey := "identity-id".
Definition SessionGroupsKey := "identity-groups".
Definition SessionTokenGroupsClaimKey := "groups".
Definition migrationTokenExpiry : Z := (3 * 60 * 60 * 1000000000)%Z.
Definition idpGroupLimit : nat := 20.

Record AuthenticationService := MkAuth {
  as_ClientID : string;
  clientCredentialScopes : list string;
  sessionTokenExpiry : Z;
  sessionCookieMaxAge : Z;
  secureCookies : bool;
  jwtSessionKey : string;
  groupClaimKey : string;
}.

Record IdentityClaims := MkClaims { Subject : string; Email : string; Groups : list string }.

Definition splitGroupClaimString (value : string) : list string :=
  let trimmedValue := TrimSpace value in
  if decide (trimmedValue = "") then [] else Fields (replace_char ","%char " "%char trimmedValue).

Section service.
Context {P : Type} `{Outside P} {T : Type -> Type} `{Gorm T} `{Hash}.
Implicit Types (svc : AuthenticationService).

(** The state of the service: the identities and the world outside. *)
Definition idb {A} : M (Db T) A -> M (Db T * P) A := zoom fst (fun d s => (d, snd s)).
Definition ext {A} : M P A -> M (Db T * P) A := zoom snd (fun p s => (fst s, p)).
Definition time_Now : M (Db T * P) Z := fun s => (s, Ok (clock (snd s))).

(** [fmt.Errorf(format, err)] with the verb [%v]. *)
Definition failing {S A} (format : string) : M S A -> M S A := map_err (fun err => Errorf format [ArgE err]).

Definition assoc_get (k : string) (l : list (string * gval)) : option gval :=
  snd <$> List.find (fun kv => bool_decide (fst kv = k)) l.

Definition extractGroupsFromAccessToken svc (accessToken : OToken) : outcome (list string) :=
  if decide (ot_AccessToken accessToken = "") then Err (New "access token is empty")
  else if decide (groupClaimKey svc = "") then Ok []
  else match jwt_ParseInsecure (ot_AccessToken accessToken) with
  | Err err => Err (Errorf "failed to parse access token: %v" [ArgE err])
  | Panic s => Panic s
  | OutOfFuel => OutOfFuel
  | Ok parsedToken =>
      match assoc_get (groupClaimKey svc) parsedToken with
      | None => Ok []
      | Some groupClaim =>
          groups ← match groupClaim with
            | GString s => Ok (splitGroupClaimString s)
            | GStrings l => Ok l
            | GAnys l =>
                match stringEntries 0 l with
                | inl groups => Ok groups
                | inr (i, t) => Err (Errorf "invalid group claim entry type at index %d: got %T" [ArgD i; ArgT t])
                end
            | v => Err (Errorf "invalid group claim type: got %T" [ArgT (gval_type v)])
            end;
          if (idpGroupLimit <? length groups)%nat then
            Err (Codef CodeUnauthorized
              "authorization denied: IDP group claim contains %d groups, maximum supported is %d"
              [ArgD (Z.of_nat (length groups)); ArgD (Z.of_nat idpGroupLimit)])
          else Ok groups
      end
  end.

(** [base64.RawURLEncoding]: the URL alphabet, without padding. *)
Fixpoint raw_url (s : string) : string :=
  match s with
  | EmptyString => EmptyString
  | String c s =>
      if decide (c = "="%char) then raw_url s
      else String (if decide (c = "+"%char) then "-"%char else if decide (c = "/"%char) then "_"%char else c) (raw_url s)
  end.

Definition AuthCodeURL : M (Db T * P) (string * string) :=
  b ← map_err (fun err => Errorf "failed to generate state secret: %s" [ArgS (Error err)]) (ext (rand_Read 8));
  let state := raw_url (b64_encode b) in
  mret (oauth_AuthCodeURL state, state).

Definition Exchange (code : string) : M (Db T * P) OToken :=
  failing "authorisation code exchange failed: %v" (ext (oauth_Exchange code)).

Definition Device : M (Db T * P) DeviceResponse :=
  failing "device auth call failed: %v" (ext oauth_DeviceAuth).

Definition DeviceAccessToken (res : DeviceResponse) : M (Db T * P) OToken :=
  failing "device access token call failed: %v" (ext (oauth_DeviceAccessToken res)).

Definition extractEmailClaim (idToken : IDToken) : outcome string :=
  match it_Claims idToken with
  | Err err => Err (Errorf "failed to extract claims: %v" [ArgE err])
  | Panic s => Panic s
  | OutOfFuel => OutOfFuel
  | Ok rawClaims =>
      match assoc_get "email" rawClaims with
      | None => Err (New "missing email claim")
      | Some (GString emailClaimStr) => Ok emailClaimStr
      | Some v => Err (Errorf "email claim is not a string: got %T" [ArgT (gval_type v)])
      end
  end.

Definition extractClaims svc (idToken : IDToken) (accessToken : OToken) : outcome IdentityClaims :=
  emailClaimStr ← extractEmailClaim idToken;
  groups ← wrap_err (fun err => Errorf "failed to extract groups from access token: %v" [ArgE err])
             (extractGroupsFromAccessToken svc accessToken);
  Ok (MkClaims (it_Subject idToken) emailClaimStr groups).

Definition VerifyAndExtractIdentityClaims svc (oauth2Token : OToken) : M (Db T * P) IdentityClaims :=
  match ot_IDToken oauth2Token with
  | None => throw (New "failed to extract id token")
  | Some rawIDToken =>
      idToken ← failing "failed to verify id token: %v" (ext (oidc_Verify (as_ClientID svc) rawIDToken));
      lift (extractClaims svc idToken oauth2Token)
  end.

(** The claims of a session or migration token. *)
Definition sessionClaims (subject : string) (groups : list string) (expiration : Z) : gmap string gval :=
  let base := <["exp" := GTime expiration]> {["sub" := GString subject]} in
  if decide (groups = []) then base else <[SessionTokenGroupsClaimKey := GStrings groups]> base.

Definition signSession svc (build sign : string) (claims : gmap string gval) : M (Db T * P) string :=
  _ ← failing build (lift (jwt_BuildHS claims));
  freshToken ← failing sign (lift (jwt_SignHS (jwtSessionKey svc) claims));
  mret (b64_encode freshToken).

Definition MintSessionTokenWithGroups svc (email : string) (groups : list string) : M (Db T * P) string :=
  now ← time_Now;
  signSession svc "failed to build access token: %v" "failed to sign access token: %v"
    (sessionClaims email groups (now + sessionTokenExpiry svc)).

Definition NewMigrationToken svc (username : string) (groups : list string) : M (Db T * P) string :=
  now ← time_Now;
  signSession svc "failed to mint migration token: %v" "failed to sign migration token: %v"
    (sessionClaims username groups (now + migrationTokenExpiry)).

(** [parsedToken.Subject()]. *)
Definition tokenSubject (token : gmap string gval) : string :=
  match token !! "sub" with Some (GString s) => s | _ => "" end.

Definition VerifySessionToken svc (token : string) : M (Db T * P) (gmap string gval) :=
  if decide (token = "") then throw (Codef CodeSessionTokenInvalid "no token presented" []) else
  decodedToken ← map_err (fun err => Errorf "failed to decode token: %w" [ArgE err]) (lift (b64_decode token));
  parsedToken ← map_err (fun err => if is_expired err
                            then Codef CodeSessionTokenInvalid "JIMM session token expired" [] else err)
                  (ext (jwt_ParseHS (jwtSessionKey svc) decodedToken));
  if mail_ParseAddress (tokenSubject parsedToken) then mret parsedToken
  else throw (Codef CodeSessionTokenInvalid "failed to parse email" []).

Definition SessionGroupsFromToken (token : gmap string gval) : outcome (list string) :=
  match token !! SessionTokenGroupsClaimKey with
  | None => Ok []
  | Some (GAnys parsedGroups) =>
      match stringEntries 0 parsedGroups with
      | inl groups => Ok groups
      | inr (i, t) => Err (Errorf "invalid group claim entry type at index %d: got %T" [ArgD i; ArgT t])
      end
  | Some v => Err (Errorf "invalid %q claim type %T" [ArgS SessionTokenGroupsClaimKey; ArgT (gval_type v)])
  end.

Definition with_tokens (u : Identity) (token : OToken) : Identity :=
  MkIdentity (i_ID u) (i_CreatedAt u) (i_UpdatedAt u) (i_DeletedAt u) (i_Name u) (i_DisplayName u)
    (i_LastLogin u) (i_Disabled u) (ot_AccessToken token) (ot_RefreshToken token) (ot_Expiry token) (ot_TokenType token).

Definition UpdateIdentity (email : string) (token : OToken) : M (Db T * P) unit :=
  u ← lift (NewIdentity email);
  u ← idb (GetIdentity u);
  _ ← idb (Database.UpdateIdentity (with_tokens u token));
  mret tt.

Definition VerifyClientCredentials svc (clientID clientSecret : string) : M (Db T * P) (list string) :=
  accessToken ← map_err (fun err => Codef CodeUnauthorized "invalid client credentials: %v" [ArgE err])
                  (ext (clientcredentials_Token clientID clientSecret (clientCredentialScopes svc)));
  failing "failed to extract groups from access token: %v" (lift (extractGroupsFromAccessToken svc accessToken)).

(** ** Browser sessions *)

Definition sessionCrossOriginSafe (s : Session) (secure : bool) : Session :=
  MkSession (se_ID s) (se_Values s) (se_IsNew s) (se_MaxAge s) secure true true.

Definition CreateBrowserSessionWithGroups svc (r : Req) (email : string) (groups : list string) : M (Db T * P) unit :=
  session ← ext (session_Get r SessionName);
  let session := MkSession (se_ID session) (se_Values session) true (sessionCookieMaxAge svc)
                   (se_Secure session) (se_HttpOnly session) (se_SameSiteNone session) in
  let session := sessionCrossOriginSafe session (secureCookies svc) in
  let values := <[SessionGroupsKey := GStrings groups]> (<[SessionIdentityKey := GString email]> (se_Values session)) in
  ext (session_Save r (MkSession (se_ID session) values (se_IsNew session) (se_MaxAge session)
         (se_Secure session) (se_HttpOnly session) (se_SameSiteNone session))).

Definition modifySession (session : Session) (req : Req) (maxAge : Z) : M (Db T * P) unit :=
  ext (session_Save req (MkSession (se_ID session) (se_Values session) (se_IsNew session) maxAge
         (se_Secure session) (se_HttpOnly session) (se_SameSiteNone session))).

Definition deleteSession (session : Session) (req : Req) : M (Db T * P) unit := modifySession session req (-1).
Definition extendSession svc (session : Session) (req : Req) : M (Db T * P) unit :=
  modifySession session req (sessionCookieMaxAge svc).

Definition refreshIdentitiesToken (email : string) (t : OToken) : M (Db T * P) unit :=
  newToken ← map_err (fun err => Errorf "failed to refresh token: %w" [ArgE err]) (ext (oauth_Refresh t));
  map_err (fun err => Errorf "failed to update identity: %w" [ArgE err]) (UpdateIdentity email newToken).

(** The token kept in the row of an identity. *)
Definition row_token (u : Identity) : OToken :=
  MkOToken (i_AccessToken u) (i_RefreshToken u) (i_AccessTokenExpiry u) (i_AccessTokenType u) None.

Definition validateAndUpdateAccessToken (email : gval) : M (Db T * P) unit :=
  match email with
  | GString emailStr =>
      u ← lift (NewIdentity emailStr);
      u ← idb (GetIdentity u);
      valid ← ext (oauth_Valid (row_token u));
      if valid : bool then mret tt else refreshIdentitiesToken emailStr (row_token u)
  | v => throw (Errorf "failed to cast email: got %T, expected %T" [ArgT (gval_type v); ArgT "string"])
  end.

Definition AuthenticateBrowserSession svc (ctx : Context_) (req : Req) : M (Db T * P) Context_ :=
  session ← failing "failed to retrieve session: %v" (ext (session_Get req SessionName));
  let session := sessionCrossOriginSafe session (secureCookies svc) in
  match se_Values session !! SessionIdentityKey with
  | None => throw (Codef CodeForbidden "session is missing identity key" [])
  | Some identityId =>
      _ ← failing "failed to validate and update status token: %v" (validateAndUpdateAccessToken identityId);
      let ctx := ContextWithSessionIdentity ctx identityId in
      groups ← lift (sessionGroupsFromValue (se_Values session !! SessionGroupsKey));
      let ctx := ContextWithSessionGroups ctx groups in
      _ ← extendSession svc session req;
      mret ctx
  end.

Definition Logout (req : Req) : M (Db T * P) unit :=
  session ← failing "failed to retrieve session: %v" (ext (session_Get req SessionName));
  match se_Values session !! SessionIdentityKey with
  | None => throw (New "session is missing identity key")
  | Some (GString identityIdStr) =>
      _ ← failing "failed to delete session: %v" (deleteSession session req);
      now ← time_Now;
      failing "failed to update identity: %v" (UpdateIdentity identityIdStr (MkOToken "" "" now "" None))
  | Some v => throw (Errorf "session identity key could not be parsed: expected %T, got %T"
                       [ArgT "string"; ArgT (gval_type v)])
  end.

(** [params.WhoamiResponse]: the display name and the email. *)
Definition Whoami (ctx : Context_) : M (Db T * P) (string * string) :=
  let identityId := SessionIdentityFromContext ctx in
  if decide (identityId = "") then throw (New "no identity in context") else
  u ← lift (NewIdentity identityId);
  u ← idb (GetIdentity u);
  mret (i_DisplayName u, i_Name u).

End service.

(** ** Contract of the token library *)

(** A claim after its trip through JSON. *)
Definition as_json (v : gval) : gval :=
  match v with GStrings l => GAnys (AnyString <$> l) | v => v end.

Class SessionLaws (P : Type) `{Outside P} := {
  law_signed_nonempty key claims t : jwt_SignHS key claims = Ok t -> t <> "";
  law_signed_parse key claims t e p :
    jwt_SignHS key claims = Ok t -> claims !! "exp" = Some (GTime e) ->
    wp (jwt_ParseHS key t) (fun o _ =>
      o = if decide (clock p < e)%Z then Ok (as_json <$> claims) else Err ErrTokenExpired) p;
}.

(** ** Session tokens *)

Section tokens.
Context {P : Type} `{SessionLaws P} {T : Type -> Type} `{Gorm T} `{Hash}.
Implicit Types (svc : AuthenticationService) (s : Db T * P).

Lemma stringEntries_strings i groups : stringEntries i (AnyString <$> groups) = inl groups.
Proof. revert i. induction groups as [|g groups IH]; intros i; [done|]. simpl. by rewrite IH. Qed.

Lemma sessionClaims_exp subject groups e : sessionClaims subject groups e !! "exp" = Some (GTime e).
Proof.
  unfold sessionClaims, SessionTokenGroupsClaimKey. case_decide; [apply lookup_insert_eq|].
  rewrite lookup_insert_ne by done. apply lookup_insert_eq.
Qed.

Lemma sessionClaims_subject subject groups e :
  tokenSubject (as_json <$> sessionClaims subject groups e) = subject.
Proof.
  unfold tokenSubject, sessionClaims, SessionTokenGroupsClaimKey. rewrite lookup_fmap.
  case_decide; rewrite ?lookup_insert_ne, lookup_singleton_eq by done; done.
Qed.

Lemma sessionClaims_groups subject groups e :
  SessionGroupsFromToken (as_json <$> sessionClaims subject groups e) = Ok groups.
Proof.
  unfold SessionGroupsFromToken, sessionClaims. rewrite lookup_fmap. case_decide as Hg.
  - subst groups. unfold SessionTokenGroupsClaimKey. by rewrite lookup_insert_ne, lookup_singleton_ne.
  - rewrite lookup_insert_eq. simpl. by rewrite stringEntries_strings.
Qed.

Lemma signSession_inv svc b g claims s s1 t :
  signSession svc b g claims s = (s1, Ok t) ->
  exists fresh, jwt_SignHS (jwtSessionKey svc) claims = Ok fresh /\ t = b64_encode fresh.
Proof.
  unfold signSession, failing, map_err, lift, mbind, M_bind.
  destruct (jwt_BuildHS claims); try done. destruct (jwt_SignHS _ _) as [fresh| | |]; try done.
  intros [= _ <-]. by exists fresh.
Qed.

Lemma b64_encode_nonempty x : x <> "" -> b64_encode x <> "".
Proof. intros Hx He. apply Hx. pose proof (b64_roundtrip x) as Hr. rewrite He in Hr. by injection Hr. Qed.

(** What [VerifySessionToken] makes of a token minted with the session key. *)
Lemma VerifySessionToken_minted svc subject groups e fresh s :
  jwt_SignHS (jwtSessionKey svc) (sessionClaims subject groups e) = Ok fresh ->
  mail_ParseAddress subject = true ->
  wp (VerifySessionToken svc (b64_encode fresh)) (fun o _ =>
    if decide (clock (snd s) < e)%Z
    then o = Ok (as_json <$> sessionClaims subject groups e)
    else exists err, o = Err err /\ ErrorCode err = CodeSessionTokenInvalid) s.
Proof.
  intros Hs Hm. unfold VerifySessionToken.
  destruct (decide _) as [He|_]; [by apply b64_encode_nonempty in He; [|by eapply law_signed_nonempty]|].
  apply wp_bind, wp_map_err. wp_value. rewrite b64_roundtrip. cbn [bind_post].
  apply wp_bind, wp_map_err. unfold ext. apply wp_zoom.
  eapply wp_mono; [eapply law_signed_parse; [exact Hs|apply sessionClaims_exp]|]. intros o p ->.
  case_decide as Hexp; cbn [bind_post].
  - rewrite sessionClaims_subject, Hm. by wp_value.
  - simpl. eexists; split; [done|]. by vm_compute.
Qed.

Lemma VerifySessionToken_accepts svc claims e fresh s :
  jwt_SignHS (jwtSessionKey svc) claims = Ok fresh -> claims !! "exp" = Some (GTime e) ->
  wp (VerifySessionToken svc (b64_encode fresh)) (fun o _ => forall token, o = Ok token -> token = as_json <$> claims) s.
Proof.
  intros Hs He. unfold VerifySessionToken. destruct (decide _); [done|].
  apply wp_bind, wp_map_err. wp_value. rewrite b64_roundtrip. cbn [bind_post].
  apply wp_bind, wp_map_err. unfold ext. apply wp_zoom.
  eapply wp_mono; [by eapply law_signed_parse|]. intros o p ->. case_decide; cbn [bind_post]; [|done].
  destruct (mail_ParseAddress _); [|done]. wp_value. intros token Ht. by apply (inj Ok) in Ht.
Qed.

(** The two kinds of tokens signed with the session key, and their life. *)
Definition mintToken (migration : bool) svc email groups : M (Db T * P) string :=
  if migration then NewMigrationToken svc email groups else MintSessionTokenWithGroups svc email groups.
Definition tokenLife (migration : bool) svc : Z := if migration then migrationTokenExpiry else sessionTokenExpiry svc.


(** A group list that the service extracts is no longer than the limit. *)
Lemma extractGroups_length svc t groups :
  extractGroupsFromAccessToken svc t = Ok groups -> (length groups <= idpGroupLimit)%nat.
Proof.
  unfold extractGroupsFromAccessToken. repeat (case_decide; [first [done|intros [= <-]; simpl; lia]|]).
  destruct (jwt_ParseInsecure _) as [claims| | |]; try done.
  destruct (assoc_get _ _) as [v|]; [|intros [= <-]; simpl; lia].
  match goal with |- (?o ≫= _) = _ -> _ => destruct o as [gs| | |] end; try done. simpl.
  destruct (Nat.ltb_spec idpGroupLimit (length gs)); [done|]. by intros [= <-].
Qed.

Lemma VerifyClientCredentials_bounded svc id secret s s' groups :
  VerifyClientCredentials svc id secret s = (s', Ok groups) -> (length groups <= idpGroupLimit)%nat.
Proof.
  unfold VerifyClientCredentials, failing, map_err, lift, mbind, M_bind.
  destruct (ext _ s) as [s1 [tok| | |]]; try done.
  destruct (extractGroupsFromAccessToken svc tok) as [gs| | |] eqn:Hg; try done.
  intros [= _ <-]. by eapply extractGroups_length.
Qed.

Lemma VerifyAndExtract_bounded svc tok s s' claims :
  VerifyAndExtractIdentityClaims svc tok s = (s', Ok claims) -> (length (Groups claims) <= idpGroupLimit)%nat.
Proof.
  unfold VerifyAndExtractIdentityClaims. destruct (ot_IDToken tok) as [raw|]; [|done].
  unfold failing, map_err, lift, mbind, M_bind. destruct (ext _ s) as [s1 [it| | |]]; try done.
  unfold extractClaims. destruct (extractEmailClaim it) as [em| | |]; try done. simpl.
  destruct (extractGroupsFromAccessToken svc tok) as [gs| | |] eqn:Hg; try done. simpl.
  intros [= _ <-]. by eapply extractGroups_length.
Qed.

End tokens.

(** ** Browser sessions *)

(** The four fields of a token that a row keeps. *)
Definition kept (row : Identity) (t : OToken) : Prop :=
  i_AccessToken row = ot_AccessToken t /\ i_RefreshToken row = ot_RefreshToken t /\
  i_AccessTokenExpiry row = ot_Expiry t /\ i_AccessTokenType row = ot_TokenType t.

Section sessions.
Context {P : Type} `{Outside P} {T : Type -> Type} `{GormLaws T} `{Hash}.
Implicit Types (svc : AuthenticationService) (s : Db T * P).

(** The row of an identity, under the name that [NewIdentity] gives it. *)
Definition row_of (email : string) (row : Identity) (d : Db T) : Prop :=
  row ∈ rows (db_identities d) /\ exists i, NewIdentity email = Ok i /\ i_Name row = i_Name i.

Definition ids_ok s : Prop := db_ok (fst s).

Lemma saved_in {R} `{Row R} (r r' : R) l l' : saved r r' l l' -> r' ∈ l'.
Proof.
  unfold saved, inserted. case_decide as Hk.
  - intros (_ & -> & _). apply elem_of_app. right. set_solver.
  - intros (_ & _ & ->). case_decide as Hin; [|apply elem_of_app; right; set_solver].
    apply list_elem_of_fmap in Hin as (x & Hx & Hin). apply list_elem_of_fmap. exists x. by rewrite decide_True.
Qed.

Lemma wp_idb {A} (m : M (Db T) A) Q s : wp m (fun o d => Q o (d, snd s)) (fst s) -> wp (idb m) Q s.
Proof. exact (wp_zoom fst (fun d s => (d, snd s)) m Q s). Qed.

Lemma wp_ext {A} (m : M P A) Q s : wp m (fun o p => Q o (fst s, p)) (snd s) -> wp (ext m) Q s.
Proof. exact (wp_zoom snd (fun p s => (fst s, p)) m Q s). Qed.

Lemma GetIdentity_ok u d :
  db_ok d -> wp (GetIdentity u) (fun o d' => db_ok d' /\
    forall i, o = Ok i -> i ∈ rows (db_identities d') /\ i_Name i = i_Name u) d.
Proof.
  intros (Hg & Hr & Hi). eapply wp_mono; [by apply GetIdentity_wp|]. intros o d' (_ & Hg' & Hr' & Hi' & Ho).
  split; [unfold db_ok; by rewrite Hg', Hr'|]. intros i ->. by destruct Ho as (? & ? & _).
Qed.

Lemma UpdateIdentity_ok u d :
  db_ok d -> wp (Database.UpdateIdentity u) (fun o d' => db_ok d' /\
    forall i, o = Ok i -> saved u i (rows (db_identities d)) (rows (db_identities d'))) d.
Proof.
  intros (Hg & Hr & Hi). eapply wp_mono; [by apply UpdateIdentity_wp|]. intros o d' (_ & Hg' & Hr' & Hi' & Ho).
  split; [unfold db_ok; by rewrite Hg', Hr'|]. by intros i ->.
Qed.

(** [NewIdentity] and [GetIdentity], the start of most operations. *)
Lemma fetch_wp {A} email (k : Identity -> M (Db T * P) A) Q s :
  ids_ok s -> (forall o s', ids_ok s' -> (forall a, o <> Ok a) -> Q o s') ->
  (forall u d, row_of email u d -> ids_ok (d, snd s) -> wp (k u) Q (d, snd s)) ->
  wp (u ← lift (NewIdentity email); u ← idb (GetIdentity u); k u) Q s.
Proof.
  intros Hs Hfail Hk. apply wp_bind. wp_value.
  destruct (NewIdentity email) as [i| | |] eqn:Hi; cbn [bind_post]; [|by apply Hfail..].
  apply wp_bind, wp_idb. eapply wp_mono; [by apply GetIdentity_ok|].
  intros o d [Hu Ho]. destruct o as [u| | |]; cbn [bind_post]; [|by apply Hfail..].
  destruct (Ho u eq_refl) as [Hin Hn]. apply Hk; [|done]. split; [done|by exists i].
Qed.

Lemma UpdateIdentity_kept email token s :
  ids_ok s ->
  wp (UpdateIdentity email token) (fun o s' => ids_ok s' /\ snd s' = snd s /\
    (o = Ok tt -> exists row, row_of email row (fst s') /\ kept row token)) s.
Proof.
  intros Hs. unfold UpdateIdentity. apply wp_bind. wp_value.
  destruct (NewIdentity email) as [i| | |] eqn:Hi; cbn [bind_post]; [|by split_and!..].
  apply wp_bind, wp_idb. eapply wp_mono; [by apply GetIdentity_ok|].
  intros o d [Hu Ho]. destruct o as [u| | |]; cbn [bind_post]; [|by split_and!..].
  destruct (Ho u eq_refl) as [Hin Hn]. clear Ho. apply wp_bind, wp_idb. eapply wp_mono; [by apply UpdateIdentity_ok|].
  intros o d' [Hu' Hsaved]. destruct o as [r| | |]; cbn [bind_post]; [|by split_and!..].
  pose proof (Hsaved r eq_refl) as Ho. wp_value. split_and!; [done|done|]. intros _. exists r. pose proof (saved_in _ _ _ _ Ho) as Hr.
  assert (i_Name r = i_Name u /\ kept r token) as [Hname Hkept].
  { unfold saved in Ho. case_decide; [destruct Ho as [(k & now & _ & ->) _]|destruct Ho as [[now ->] _]]; done. }
  split; [|done]. split; [done|]. exists i. split; [done|congruence].
Qed.

(** The access token in the row of the identity is valid, or it was not, the
    provider refreshed it, and the row holds the new one.  [p] is the world
    outside at the check, [d] the database afterwards. *)
Definition token_fresh email (p : P) (d : Db T) : Prop :=
  exists old d0 p1 valid, row_of email old d0 /\ oauth_Valid (row_token old) p = (p1, Ok valid) /\
    if valid : bool then d0 = d
    else exists new p2 row, oauth_Refresh (row_token old) p1 = (p2, Ok new) /\ row_of email row d /\ kept row new.

Lemma validate_wp v s :
  ids_ok s ->
  wp (validateAndUpdateAccessToken v) (fun o s' => ids_ok s' /\
    (o = Ok tt -> exists email, v = GString email /\ token_fresh email (snd s) (fst s'))) s.
Proof.
  intros Hs. unfold validateAndUpdateAccessToken. destruct v as [email| | | |]; try (wp_value; by split).
  apply fetch_wp; [done|intros o s' Hs' Ho; split; [done|]; intros ->; by destruct (Ho tt)|].
  intros u d Hrow Hd. apply wp_bind, wp_ext. simpl. apply wp_run. intros p' o Hv.
  destruct o as [b| | |]; cbn [bind_post]; try (by split). destruct b.
  - wp_value. split; [done|]. intros _. exists email. split; [done|]. by exists u, d, p', true.
  - unfold refreshIdentitiesToken. apply wp_bind, wp_map_err, wp_ext. simpl. apply wp_run. intros p2 o Hr.
    destruct o as [new| | |]; cbn [bind_post]; try (by split). apply wp_map_err.
    eapply wp_mono; [by apply UpdateIdentity_kept|]. intros o s' (Hs' & _ & Ho).
    split; [done|]. destruct o as [[]| | |]; try done. intros _. exists email. split; [done|].
    destruct (Ho eq_refl) as (row & Hrow' & Hk). exists u, d, p', false. split_and!; [done..|]. by exists new, p2, row.
Qed.

Lemma AuthenticateBrowserSession_wp svc ctx req s :
  ids_ok s ->
  wp (AuthenticateBrowserSession svc ctx req) (fun o s' => ids_ok s' /\ forall ctx', o = Ok ctx' ->
    exists session p1 email, session_Get req SessionName (snd s) = (p1, Ok session) /\
      se_Values session !! SessionIdentityKey = Some (GString email) /\
      SessionIdentityFromContext ctx' = email /\
      sessionGroupsFromValue (se_Values session !! SessionGroupsKey) = Ok (SessionGroupsFromContext ctx') /\
      token_fresh email p1 (fst s')) s.
Proof.
  intros Hs. unfold AuthenticateBrowserSession. apply wp_bind, wp_map_err, wp_ext. apply wp_run.
  intros p1 o Hget. destruct o as [session| | |]; cbn [bind_post]; try (by split).
  cbn [sessionCrossOriginSafe se_Values].
  destruct (se_Values session !! SessionIdentityKey) as [v|] eqn:Hv; [|by wp_value].
  apply wp_bind, wp_map_err. eapply wp_mono; [by apply validate_wp|]. intros o s1 [Hs1 Hf].
  destruct o as [[]| | |]; cbn [bind_post]; try (by split).
  destruct (Hf eq_refl) as (email & -> & Hfresh). apply wp_bind. wp_value.
  destruct (sessionGroupsFromValue _) as [groups| | |] eqn:Hg; cbn [bind_post]; try (by split).
  apply wp_bind, wp_ext, wp_any. intros o p2. destruct o as [[]| | |]; cbn [bind_post]; try (by split).
  wp_value. split; [done|]. intros ctx' Hc. apply (inj Ok) in Hc as <-. simpl.
  exists session, p1, email. by split_and!.
Qed.

(** A browser session is only accepted for the identity and the groups
    that the session store holds for the request, and only when the access
    token of that identity is valid or has just been refreshed by the identity
    provider and stored in its row. *)
Theorem AuthenticateBrowserSession_sound svc ctx req s s' ctx' :
  ids_ok s -> AuthenticateBrowserSession svc ctx req s = (s', Ok ctx') ->
  exists session p1 email, session_Get req SessionName (snd s) = (p1, Ok session) /\
    se_Values session !! SessionIdentityKey = Some (GString email) /\
    SessionIdentityFromContext ctx' = email /\
    sessionGroupsFromValue (se_Values session !! SessionGroupsKey) = Ok (SessionGroupsFromContext ctx') /\
    token_fresh email p1 (fst s').
Proof.
  intros Hs Hrun. exact (proj2 (wp_elim _ _ _ _ _ (AuthenticateBrowserSession_wp svc ctx req s Hs) Hrun) ctx' eq_refl).
Qed.

(** A successful logout has told the session store to expire the session
    of the request (a negative age) and leaves a row of its identity without
    access and refresh token. *)
Theorem Logout_clears req s s' :
  ids_ok s -> Logout req s = (s', Ok tt) ->
  exists session email p1 p2 row, session_Get req SessionName (snd s) = (p1, Ok session) /\
    se_Values session !! SessionIdentityKey = Some (GString email) /\
    session_Save req (MkSession (se_ID session) (se_Values session) (se_IsNew session) (-1)
      (se_Secure session) (se_HttpOnly session) (se_SameSiteNone session)) p1 = (p2, Ok tt) /\
    row_of email row (fst s') /\ i_AccessToken row = "" /\ i_RefreshToken row = "".
Proof.
  intros Hs. unfold Logout, failing, map_err, mbind, M_bind. unfold ext at 1, zoom at 1.
  destruct (session_Get req SessionName (snd s)) as [p1 [session| | |]] eqn:Hget; try done.
  destruct (se_Values session !! SessionIdentityKey) as [[email| | | |]|] eqn:Hv; try done.
  unfold deleteSession, modifySession, ext, zoom. simpl.
  destruct (session_Save req _ p1) as [p2 [[]| | |]] eqn:Hsave; try done. simpl.
  match goal with |- context [UpdateIdentity email ?t ?st] =>
    pose proof (UpdateIdentity_kept email t st Hs) as Hup; unfold wp in Hup;
    destruct (UpdateIdentity email t st) as [s2 [[]| | |]] end; try done.
  intros [= <-]. destruct Hup as (_ & _ & Ho). destruct (Ho eq_refl) as (row & Hrow & Ha & Hr & _).
  exists session, email, p1, p2, row. by split_and!.
Qed.

End sessions.

End Auth.
