(* ===== verification/Login.v ===== *)
(** * Login: how users become sessions ([internal/jimm/login]).

    The login manager runs on the authorisation service, the database and the
    world outside of [AuthService].  A user logs in with a session token, with
    the credentials of a client, or with a browser session.

    The theorems: a login returns the user whose credential was verified, with
    the verified groups, a row of its own whose last login is now, and an
    administrator flag that agrees with the authorisation model (which, as the
    code computes it before the groups are known, does not count them); the
    token of the device flow logs in as the user that the identity provider
    vouched for; failures carry the codes that the client acts on. *)

From S2P Require Import Prelude Errors GoStrings Regexp Names AuthModel RefServer OpenFGA Dbmodel Users Database Encoding TagResolver Access AuthService.

Module Login.
Import Auth.

(** The first three arguments say whether the pointers are set. *)
Definition NewLoginManager (store authSvc oAuthAuthenticator : bool) (jimmTag : Tag) : outcome Tag :=
  if negb store then Err (New "login store cannot be nil")
  else if negb authSvc then Err (New "login authorisation service cannot be nil")
  else if negb oAuthAuthenticator then Err (New "oauth service cannot be nil")
  else if decide (Id jimmTag = "") then Err (New "invalid jimm controller tag")
  else Ok jimmTag.

Section login.
Context {F : Type} `{OFGAServer F} {P : Type} `{Outside P} {T : Type -> Type} `{Gorm T} `{JujuNames} `{Hash}.
Implicit Types (svc : AuthenticationService) (jimmTag : Tag).

(** The state: the authorisation service, the database, the world outside. *)
Definition LWorld : Type := World F T * P.
Definition world {A} : M (World F T) A -> M LWorld A := zoom fst (fun w s => (w, snd s)).
Definition authn {A} : M (Db T * P) A -> M LWorld A :=
  zoom (fun s => (w_db (fst s), snd s)) (fun dp s => (MkWorld (w_fga (fst s)) (fst dp), snd dp)).

Definition LoginDevice : M LWorld DeviceResponse :=
  map_err (fun _ => Codef CodeFatalLoginError "oauth device login failed, check JIMM's log." []) (authn Device).

Definition GetDeviceSessionToken svc (deviceOAuthResponse : DeviceResponse) : M LWorld string :=
  token ← authn (DeviceAccessToken deviceOAuthResponse);
  claims ← authn (VerifyAndExtractIdentityClaims svc token);
  _ ← authn (Auth.UpdateIdentity (Email claims) token);
  authn (MintSessionTokenWithGroups svc (Email claims) (Groups claims)).

Definition with_JimmAdmin (u : User) (b : bool) : User := MkUser (u_Identity u) (u_client u) b (IDPGroupIDs u).
Definition with_Identity (u : User) (i : Identity) : User := MkUser i (u_client u) (JimmAdmin u) (IDPGroupIDs u).

Definition GetOrCreateIdentity jimmTag (identifier : string) : M LWorld User :=
  identity ← lift (NewIdentity identifier);
  identity ← world (db (GetIdentity identity));
  let ofgaUser := NewUser identity in
  isJimmAdmin ← world (fga (IsAdministrator ofgaUser jimmTag));
  mret (with_JimmAdmin ofgaUser isJimmAdmin).

Definition with_LastLogin (u : Identity) (now : Z) : Identity :=
  MkIdentity (i_ID u) (i_CreatedAt u) (i_UpdatedAt u) (i_DeletedAt u) (i_Name u) (i_DisplayName u)
    (Some now) (i_Disabled u) (i_AccessToken u) (i_RefreshToken u) (i_AccessTokenExpiry u) (i_AccessTokenType u).

(** The identity is changed in place; its new contents are the result. *)
Definition updateLastLogin (identity : Identity) : M LWorld Identity :=
  now ← authn time_Now;
  world (db (Database.UpdateIdentity (with_LastLogin identity now))).

Definition UserLogin jimmTag (identifier : string) : M LWorld User :=
  ofgaUser ← map_err (fun err => Codef CodeUnauthorized "%w" [ArgE err]) (GetOrCreateIdentity jimmTag identifier);
  identity ← updateLastLogin (u_Identity ofgaUser);
  mret (with_Identity ofgaUser identity).

Definition fatal {A} : M LWorld A -> M LWorld A := map_err (fun err => Codef CodeFatalLoginError "%w" [ArgE err]).

Definition LoginClientCredentials svc jimmTag (clientID clientSecret : string) : M LWorld User :=
  clientIdWithDomain ← fatal (lift (EnsureValidServiceAccountId clientID));
  groups ← fatal (authn (VerifyClientCredentials svc clientID clientSecret));
  user ← fatal (UserLogin jimmTag clientIdWithDomain);
  mret (SetIDPGroups user groups).

Definition LoginWithSessionToken svc jimmTag (sessionToken : string) : M LWorld User :=
  jwtToken ← map_err (fun err => if decide (ErrorCode err = CodeSessionTokenInvalid) then err
                                 else Codef CodeFatalLoginError "%w" [ArgE err])
               (authn (VerifySessionToken svc sessionToken));
  groups ← fatal (lift (SessionGroupsFromToken jwtToken));
  user ← fatal (UserLogin jimmTag (tokenSubject jwtToken));
  mret (SetIDPGroups user groups).

Definition LoginWithSessionCookie jimmTag (ctx : Context_) (identityID : string) : M LWorld User :=
  if decide (identityID = "") then throw (New "missing cookie identity") else
  user ← UserLogin jimmTag identityID;
  mret (SetIDPGroups user (SessionGroupsFromContext ctx)).

End login.

(** ** Specification *)

(** The three credentials, and what it means that one was verified. *)
Inductive credential :=
| ByToken (sessionToken : string)
| ByClient (clientID clientSecret : string)
| ByCookie (ctx : Context_) (identityID : string).

Section spec.
Context {F : Type} `{OFGAServer F} {P : Type} `{Outside P} {T : Type -> Type} `{Gorm T} `{JujuNames} `{Hash}.

Definition login (svc : AuthenticationService) (jimmTag : Tag) (c : credential) : M (LWorld (F:=F) (P:=P) (T:=T)) User :=
  match c with
  | ByToken t => LoginWithSessionToken svc jimmTag t
  | ByClient id secret => LoginClientCredentials svc jimmTag id secret
  | ByCookie ctx id => LoginWithSessionCookie jimmTag ctx id
  end.

Definition verified (svc : AuthenticationService) (c : credential) (s : Db T * P) (name : string) (groups : list string) : Prop :=
  match c with
  | ByToken t => exists s' token, VerifySessionToken svc t s = (s', Ok token) /\
      name = tokenSubject token /\ SessionGroupsFromToken token = Ok groups
  | ByClient id secret => EnsureValidServiceAccountId id = Ok name /\
      exists s', VerifyClientCredentials svc id secret s = (s', Ok groups)
  | ByCookie ctx id => id <> "" /\ name = id /\ groups = SessionGroupsFromContext ctx
  end.

(** The session of a user: the identity of that name, the groups, and an
    administrator flag that the authorisation model confirms. *)
Definition session_of (X : gset Tuple) (jimmTag : Tag) (name : string) (groups : list string) (now : Z)
    (user : User) (d : Db T) : Prop :=
  IDPGroupIDs user = groups /\ u_Identity user ∈ rows (db_identities d) /\
  i_LastLogin (u_Identity user) = Some now /\
  (exists i, NewIdentity name = Ok i /\ u_Name user = i_Name i) /\
  exists e, user_entity user = Ok e /\
    (JimmAdmin user = true <-> holds X e AdministratorRelation (ConvertTag jimmTag)).

End spec.

Section facts.
Context {F : Type} `{OFGALaws F} {P : Type} `{Outside P} {T : Type -> Type} `{GormLaws T} `{JujuNames} `{Hash}.
Implicit Types (svc : AuthenticationService) (jimmTag : Tag) (s : LWorld (F:=F) (P:=P) (T:=T)).

Lemma wp_world {A} (m : M (World F T) A) Q s :
  wp m (fun o w => Q o (w, snd s)) (fst s) -> wp (world (P:=P) m) Q s.
Proof. exact (wp_zoom fst (fun w s => (w, snd s)) m Q s). Qed.

Lemma wp_authn {A} (m : M (Db T * P) A) (Q : outcome A -> LWorld (F:=F) (P:=P) (T:=T) -> Prop) s :
  wp m (fun o dp => Q o (MkWorld (w_fga (fst s)) (fst dp), snd dp)) (w_db (fst s), snd s) -> wp (authn m) Q s.
Proof.
  exact (wp_zoom (fun s => (w_db (fst s), snd s))
    (fun dp s => (MkWorld (w_fga (fst s)) (fst dp), snd dp)) m Q s).
Qed.

Definition quiet s s' : Prop := Perm.w_tuples (fst s') = Perm.w_tuples (fst s) /\ db_ok (w_db (fst s')).

(** A check that answers is about a user with a valid name. *)
Lemma checkRelation_entity u res r (f : F) :
  wp (checkRelation u res r) (fun o _ => forall b, o = Ok b -> exists e, user_entity u = Ok e) f.
Proof.
  unfold checkRelation. apply wp_bind. wp_value. destruct (ContextualTuples u); try done. cbn [bind_post].
  apply wp_bind. wp_value. destruct (user_entity u) as [e| | |] eqn:He; try done. cbn [bind_post].
  apply wp_any. intros o f' b _. by exists e.
Qed.

Lemma GetOrCreateIdentity_wp jimmTag name s :
  db_ok (w_db (fst s)) ->
  wp (GetOrCreateIdentity jimmTag name) (fun o s' => quiet s s' /\ snd s' = snd s /\ forall u, o = Ok u ->
    exists i0 i, NewIdentity name = Ok i0 /\ i ∈ rows (db_identities (w_db (fst s'))) /\ i_Name i = i_Name i0 /\
      exists b, u = with_JimmAdmin (NewUser i) b /\
        exists e, user_entity u = Ok e /\
          (b = true <-> holds (Perm.w_tuples (fst s)) e AdministratorRelation (ConvertTag jimmTag))) s.
Proof.
  intros (Hg & Hr & Hi). unfold GetOrCreateIdentity. apply wp_bind. wp_value.
  destruct (NewIdentity name) as [i0| | |] eqn:Hi0; cbn [bind_post]; [|by split_and!..].
  apply wp_bind, wp_world, Perm.wp_db. eapply wp_mono; [by apply GetIdentity_wp|].
  intros o d (_ & Hg' & Hr' & Hi' & Ho).
  assert (db_ok d) as Hd by (unfold db_ok; rewrite Hg', Hr'; by split_and!).
  destruct o as [i| | |]; cbn [bind_post]; [|by split_and!..]. destruct Ho as (Hin & Hn & _).
  apply wp_bind, wp_world, Perm.wp_fga.
  eapply wp_mono; [apply wp_and; [apply checkRelation_wp|apply checkRelation_entity]|].
  intros o f [(HT & _ & Hb) Hent]. destruct o as [b| | |]; cbn [bind_post]; [|by split_and!..]. wp_value.
  split_and!; [split; [exact HT|done]|done|]. intros u Hu. apply (inj Ok) in Hu as <-.
  exists i0, i. split_and!; [done..|]. exists b. split; [done|].
  destruct (Hent b eq_refl) as [e He]. exists e. split; [done|].
  rewrite (Hb b eq_refl). rewrite (has_access_iff _ (NewUser i) e []) by done. simpl. by rewrite union_empty_r_L.
Qed.

Lemma UserLogin_wp jimmTag name s :
  db_ok (w_db (fst s)) ->
  wp (UserLogin jimmTag name) (fun o s' => quiet s s' /\ forall u, o = Ok u ->
    session_of (Perm.w_tuples (fst s)) jimmTag name [] (clock (snd s')) u (w_db (fst s'))) s.
Proof.
  intros Hok. unfold UserLogin. apply wp_bind, wp_map_err.
  eapply wp_mono; [by apply GetOrCreateIdentity_wp|]. intros o s1 (Hq & Hp & Hu).
  destruct o as [u| | |]; cbn [bind_post]; [|by split..].
  destruct (Hu u eq_refl) as (i0 & i & Hi0 & Hin & Hn & b & -> & Hb).
  apply wp_bind. unfold updateLastLogin. apply wp_bind, wp_authn. wp_value. unfold time_Now. cbn [bind_post].
  apply wp_world, Perm.wp_db. simpl. rewrite Hp.
  eapply wp_mono; [apply UpdateIdentity_wp; by destruct Hq as [_ (_ & _ & ?)]|].
  intros o d (_ & Hg' & Hr' & Hi' & Ho).
  assert (db_ok d) as Hd.
  { destruct Hq as [_ (Hg & Hr & _)]. unfold db_ok. rewrite Hg', Hr'. by split_and!. }
  destruct o as [r| | |]; cbn [bind_post]; [|split; [split; [apply Hq|done]|done]..].
  wp_value. split; [split; [apply Hq|done]|]. intros u Hu'. apply (inj Ok) in Hu' as <-.
  pose proof (saved_in _ _ _ _ Ho) as Hr1.
  assert (i_Name r = i_Name i /\ i_LastLogin r = Some (clock (snd s))) as [Hname Hlast].
  { unfold saved in Ho. case_decide; [destruct Ho as [(k & now & _ & ->) _]|destruct Ho as [[now ->] _]]; done. }
  split_and!; [done|done|done| |].
  - exists i0. split; [done|]. unfold u_Name. simpl. congruence.
  - destruct Hb as (e & He & Hb). exists e. split; [|done].
    revert He. unfold user_entity, Identity_ResourceTag. simpl. by rewrite Hname.
Qed.

(** The verification steps leave the tuples and the database rules alone. *)
Lemma authn_read_wp {A} (m : M (Db T * P) A) s :
  (forall s0 : Db T * P, fst (m s0).1 = fst s0) -> db_ok (w_db (fst s)) ->
  wp (authn m) (fun o s' => quiet s s' /\ exists dp, m (w_db (fst s), snd s) = (dp, o)) s.
Proof.
  intros Hm Hok. apply wp_authn, wp_run. intros dp o Hrun.
  pose proof (Hm (w_db (fst s), snd s)) as Hd. rewrite Hrun in Hd. simpl in Hd.
  split; [|by exists dp]. split; [done|]. simpl. by rewrite Hd.
Qed.

Lemma ext_keeps {A} (m : M P A) (s0 : Db T * P) : fst (ext m s0).1 = fst s0.
Proof. unfold ext, zoom. by destruct (m (snd s0)). Qed.

Lemma VerifySessionToken_keeps svc t (s0 : Db T * P) : fst (VerifySessionToken svc t s0).1 = fst s0.
Proof.
  unfold VerifySessionToken. destruct (decide _); [done|]. unfold mbind, M_bind, map_err, lift.
  destruct (b64_decode t) as [raw| | |]; try done.
  pose proof (ext_keeps (jwt_ParseHS (jwtSessionKey svc) raw) s0) as Hk.
  destruct (ext _ s0) as [s1 [c| | |]]; try done. simpl. by destruct (mail_ParseAddress _).
Qed.

Lemma VerifyClientCredentials_keeps svc id secret (s0 : Db T * P) :
  fst (VerifyClientCredentials svc id secret s0).1 = fst s0.
Proof.
  unfold VerifyClientCredentials, failing, mbind, M_bind, map_err, lift.
  pose proof (ext_keeps (clientcredentials_Token id secret (clientCredentialScopes svc)) s0) as Hk.
  destruct (ext _ s0) as [s1 [c| | |]]; try done. by destruct (extractGroupsFromAccessToken svc c).
Qed.

Definition login_post svc jimmTag c s (o : outcome User) s' : Prop :=
  quiet s s' /\ forall u, o = Ok u -> exists name groups,
    verified svc c (w_db (fst s), snd s) name groups /\
    session_of (Perm.w_tuples (fst s)) jimmTag name groups (clock (snd s')) u (w_db (fst s')).

(** The common end of the logins. *)
Lemma verified_login_wp (f : gerror -> gerror) svc jimmTag c name groups s s1 :
  quiet s s1 -> verified svc c (w_db (fst s), snd s) name groups ->
  wp (user ← map_err f (UserLogin jimmTag name); mret (SetIDPGroups user groups)) (login_post svc jimmTag c s) s1.
Proof.
  intros [HT Hok] Hv. apply wp_bind, wp_map_err. eapply wp_mono; [by apply UserLogin_wp|].
  intros o s2 [[HT2 Hok2] Hu]. assert (quiet s s2) as Hq by (split; [congruence|done]).
  destruct o as [u| | |]; cbn [bind_post]; [|by split..]. wp_value. split; [done|].
  intros u' Hu'. apply (inj Ok) in Hu' as <-. exists name, groups. split; [done|].
  rewrite HT in Hu. destruct (Hu u eq_refl) as (_ & Hin & Hl & Hn & Ha). by split_and!.
Qed.

Lemma login_wp svc jimmTag c s :
  db_ok (w_db (fst s)) -> wp (login svc jimmTag c) (login_post svc jimmTag c s) s.
Proof.
  intros Hok. assert (quiet s s) as Hrefl by done. destruct c as [t|id secret|ctx id]; simpl.
  - apply wp_bind, wp_map_err. eapply wp_mono; [apply authn_read_wp; [apply VerifySessionToken_keeps|done]|].
    intros o s1 [Hq [dp Hrun]]. destruct o as [token| | |]; cbn [bind_post]; [|by split..].
    apply wp_bind, wp_map_err. wp_value.
    destruct (SessionGroupsFromToken token) as [groups| | |] eqn:Hg; cbn [bind_post]; [|by split..].
    apply verified_login_wp; [done|]. by exists dp, token.
  - apply wp_bind, wp_map_err. wp_value.
    destruct (EnsureValidServiceAccountId id) as [name| | |] eqn:Hid; cbn [bind_post]; [|by split..].
    apply wp_bind, wp_map_err.
    eapply wp_mono; [apply authn_read_wp; [apply VerifyClientCredentials_keeps|done]|].
    intros o s1 [Hq [dp Hrun]]. destruct o as [groups| | |]; cbn [bind_post]; [|by split..].
    apply verified_login_wp; [done|]. split; [done|by exists dp].
  - unfold LoginWithSessionCookie. destruct (decide _) as [|Hne]; [by split|].
    apply wp_bind. eapply wp_mono; [by apply UserLogin_wp|]. intros o s1 [Hq Hu].
    destruct o as [u| | |]; cbn [bind_post]; [|by split..]. wp_value. split; [done|].
    intros u' Hu'. apply (inj Ok) in Hu' as <-. eexists _, _. split; [by split_and!|].
    destruct (Hu u eq_refl) as (_ & Hin & Hl & Hn & Ha). by split_and!.
Qed.


(** The administrator flag of a session does not count the groups of the
    session: a user who administers JIMM through a group of the identity
    provider, and only so, is logged in without the flag, although every
    check of the authorisation model with its session grants it. *)
Theorem login_flag_ignores_groups svc jimmTag c s s' u e :
  db_ok (w_db (fst s)) -> login svc jimmTag c s = (s', Ok u) -> user_entity u = Ok e ->
  has_access (Perm.w_tuples (fst s')) u AdministratorRelation (ConvertTag jimmTag) ->
  (~ holds (Perm.w_tuples (fst s)) e AdministratorRelation (ConvertTag jimmTag)) -> JimmAdmin u = false.
Proof.
  intros Hok Hrun He _ Hno.
  destruct (wp_elim _ _ _ _ _ (login_wp svc jimmTag c s Hok) Hrun) as [_ Hu].
  destruct (Hu u eq_refl) as (name & groups & _ & _ & _ & _ & _ & e' & He' & Ha).
  rewrite He in He'. apply (inj Ok) in He' as <-. destruct (JimmAdmin u) eqn:Hj; [|done]. destruct Hno. by apply Ha.
Qed.

Lemma Codef_fatal err : ErrorCode (Codef CodeFatalLoginError "%w" [ArgE err]) = CodeFatalLoginError.
Proof. by apply ErrorCode_Codef. Qed.

Lemma fatal_code {A} (m : M (LWorld (F:=F) (P:=P) (T:=T)) A) s s' err :
  fatal m s = (s', Err err) -> ErrorCode err = CodeFatalLoginError.
Proof. unfold fatal, map_err. destruct (m s) as [s1 []]; intros [= _ <-]. apply Codef_fatal. Qed.

(** [fatal m >>= k], where [k] fails with such a code too. *)
Lemma fatal_bind {A B} (m : M (LWorld (F:=F) (P:=P) (T:=T)) A) (k : A -> M LWorld B) s s' err :
  (forall a s1, k a s1 = (s', Err err) -> ErrorCode err = CodeFatalLoginError) ->
  (a ← fatal m; k a) s = (s', Err err) -> ErrorCode err = CodeFatalLoginError.
Proof.
  intros Hk. unfold mbind, M_bind. destruct (fatal m s) as [s1 [a|e| |]] eqn:Hm; try done.
  - apply Hk.
  - intros [= _ <-]. by eapply fatal_code.
Qed.

(** A failed login with a session token or with client credentials
    reports one of two codes: the invalid session token, only when the token
    itself was refused with that code, which makes the client start a new
    login, and a fatal login error otherwise. *)
Theorem login_error_codes svc jimmTag c s s' err :
  login svc jimmTag c s = (s', Err err) ->
  match c with
  | ByToken t => ErrorCode err = CodeFatalLoginError \/
      (ErrorCode err = CodeSessionTokenInvalid /\
       exists s1 : Db T * P, VerifySessionToken svc t (w_db (fst s), snd s) = (s1, Err err))
  | ByClient _ _ => ErrorCode err = CodeFatalLoginError
  | ByCookie _ _ => True
  end.
Proof.
  destruct c as [t|id secret|ctx id]; simpl; [|intros Hrun|done].
  - unfold LoginWithSessionToken, authn, zoom, map_err. unfold mbind at 1, M_bind at 1.
    destruct (VerifySessionToken svc t _) as [s1 [token|e| |]]; try done.
    + intros Hrun. left. revert Hrun. apply fatal_bind. intros groups s2. apply fatal_bind. done.
    + intros [= _ <-]. case_decide as Hc; [right; split; [done|by exists s1]|left; apply Codef_fatal].
  - revert Hrun. apply fatal_bind. intros name s1. apply fatal_bind. intros groups s2.
    apply fatal_bind. done.
Qed.

End facts.

Section device.
Context {F : Type} `{OFGALaws F} {P : Type} `{SessionLaws P} {T : Type -> Type} `{GormLaws T} `{JujuNames} `{Hash}.

Lemma GetDeviceSessionToken_inv svc resp (s s1 : LWorld (F:=F) (P:=P) (T:=T)) tok :
  GetDeviceSessionToken svc resp s = (s1, Ok tok) ->
  exists token claims (a b : Db T * P) e fresh,
    DeviceAccessToken resp (w_db (fst s), snd s) = (a, Ok token) /\
    VerifyAndExtractIdentityClaims svc token a = (b, Ok claims) /\
    jwt_SignHS (jwtSessionKey svc) (sessionClaims (Email claims) (Groups claims) e) = Ok fresh /\
    tok = b64_encode fresh.
Proof.
  unfold GetDeviceSessionToken, authn, zoom, mbind, M_bind. intros Hrun.
  destruct (DeviceAccessToken resp _) as [[d1 p1] [token| | |]] eqn:Hdev; try done. simpl in Hrun.
  destruct (VerifyAndExtractIdentityClaims svc token _) as [d2 [claims| | |]] eqn:Hv; try done. simpl in Hrun.
  destruct (Auth.UpdateIdentity (Email claims) token _) as [d3 [[]| | |]]; try done. simpl in Hrun.
  destruct (MintSessionTokenWithGroups _ _ _ _) as [d4 [t| | |]] eqn:Hm; try done. injection Hrun as _ <-.
  unfold MintSessionTokenWithGroups, mbind, M_bind, time_Now in Hm.
  apply signSession_inv in Hm as (fresh & Hs & ->). by eexists token, claims, (d1, p1), d2, _, fresh.
Qed.

(** The device flow end to end: whoever logs in with a token that the
    flow handed out becomes the identity of the email address that the
    identity provider vouched for in that flow, with exactly the groups of
    that moment, which are never more than the authorisation service accepts
    in a session. *)
Theorem device_login svc jimmTag resp (s s1 s2 s3 : LWorld (F:=F) (P:=P) (T:=T)) tok u :
  GetDeviceSessionToken svc resp s = (s1, Ok tok) -> db_ok (w_db (fst s2)) ->
  LoginWithSessionToken svc jimmTag tok s2 = (s3, Ok u) ->
  exists token claims (a b : Db T * P), DeviceAccessToken resp (w_db (fst s), snd s) = (a, Ok token) /\
    VerifyAndExtractIdentityClaims svc token a = (b, Ok claims) /\
    (exists i, NewIdentity (Email claims) = Ok i /\ u_Name u = i_Name i) /\
    IDPGroupIDs u = Groups claims /\ (length (IDPGroupIDs u) <= maxContextualTuples)%nat.
Proof.
  intros Hdev Hok Hlog.
  destruct (GetDeviceSessionToken_inv _ _ _ _ _ Hdev) as (token & claims & a & b & e & fresh & Hd & Hv & Hs & ->).
  destruct (wp_elim _ _ _ _ _ (login_wp svc jimmTag (ByToken (b64_encode fresh)) s2 Hok) Hlog) as [_ Hu].
  destruct (Hu u eq_refl) as (name & groups & (s' & jt & Hver & -> & Hg) & Hgs & _ & _ & Hn & _).
  pose proof (wp_elim _ _ _ _ _ (VerifySessionToken_accepts svc _ e fresh _ Hs (sessionClaims_exp _ _ _)) Hver jt eq_refl) as ->.
  rewrite sessionClaims_subject in Hn. rewrite sessionClaims_groups in Hg. apply (inj Ok) in Hg as <-.
  exists token, claims, a, b. split_and!; [done..|]. rewrite Hgs. by eapply VerifyAndExtract_bounded.
Qed.

End device.

End Login.
