(* ===== verification/Offer.v ===== *)
(** * Offer: consumers of application offers outside a login session
    ([internal/jimm/offer/authorizer.go], [internal/jimm/idpgroupfetcher]).

    Juju asks JIMM whether a user may consume an offer.  A local user of a
    migrated model is first mapped to the external user that stands for it;
    the groups of the user come from the hook service of the identity
    provider, a stream that [HookClient] stands for.

    The theorems: the answer is true only for the mapped identity, and only
    when it has the consumer relation with the groups that were fetched; the
    fetcher returns all groups of the stream or fails; a failing fetcher does
    not deny access, it only takes away what the groups grant. *)

From S2P Require Import Prelude Errors GoStrings Regexp Names AuthModel RefServer OpenFGA Dbmodel Users Database TagResolver Access.

Module Offer.

(** ** The hook service ([hookservice.go]) *)

(** What [stream.Recv] returns. *)
Inductive recv := RecvGroup (name : string) | RecvEOF | RecvErr (err : gerror).

(** The token source and the client of the service; the stream of an answer is
    the sequence of its [Recv] results, and ends with [io.EOF]. *)
Class HookClient (C : Type) := {
  hook_Token : M C string;
  hook_GetGroupsForUser : string -> string -> M C (list recv);
}.

Definition serviceAccountSuffix := "@serviceaccount".

Fixpoint receive (username : string) (stream : list recv) : outcome (list string) :=
  match stream with
  | [] | RecvEOF :: _ => Ok []
  | RecvErr err :: _ => Err (Errorf "failed to fetch groups for user %q: %w" [ArgS username; ArgE err])
  | RecvGroup name :: stream =>
      groupNames ← receive username stream;
      Ok (if decide (name <> "") then name :: groupNames else groupNames)
  end.

Definition HookService_FetchGroups {C} `{HookClient C} (username : string) : M C (list string) :=
  let userID := TrimSuffix username serviceAccountSuffix in
  token ← map_err (fun err => Errorf "failed to obtain hook-service access token: %w" [ArgE err]) hook_Token;
  stream ← map_err (fun err => Errorf "failed to fetch groups for user %q: %w" [ArgS username; ArgE err])
             (hook_GetGroupsForUser ("Bearer " +:+ token) userID);
  lift (receive username stream).

(** ** The choice of a fetcher ([idpgroupfetcher.go]) *)

Definition TypeNone := "".
Definition TypeHookService := "hook-service".

Inductive fetcher := NoOp | HookService (address : string).

(** [tokenSource] says whether the token source is set. *)
Definition New_fetcher (type address : string) (tokenSource : bool) : outcome fetcher :=
  if decide (type = TypeNone) then Ok NoOp
  else if decide (type = TypeHookService) then
    if decide (address = "") then Err (New "hook-service address is required")
    else if negb tokenSource then Err (New "hook-service token source is required")
    else Ok (HookService address)
  else Err (Errorf "unknown idp group fetcher type %q" [ArgS type]).

Definition Fetcher_FetchGroups {C} `{HookClient C} (f : fetcher) (username : string) : M C (list string) :=
  match f with
  | NoOp => mret []
  | HookService _ => HookService_FetchGroups username
  end.

(** ** The authorizer ([authorizer.go]) *)

Definition NewOfferAuthorizer (store authSvc : bool) (idpGroupFetcher : option fetcher) : outcome (option fetcher) :=
  if negb store then Err (New "group store cannot be nil")
  else if negb authSvc then Err (New "group authorisation service cannot be nil")
  else Ok idpGroupFetcher.

Section authorizer.
Context {F : Type} `{OFGAServer F} {T : Type -> Type} `{Gorm T} {C : Type} `{HookClient C} `{JujuNames} `{Hash}.

Definition OWorld : Type := World F T * C.
Definition oworld {A} : M (World F T) A -> M OWorld A := zoom fst (fun w s => (w, snd s)).
Definition hook {A} : M C A -> M OWorld A := zoom snd (fun c s => (fst s, c)).

Definition resolveLocalUserToExternalUser (localUsername : string) (offerTag : Tag) : M (World F T) string :=
  offer ← db (GetApplicationOffer (offerOf "" (Id offerTag)));
  model ← db (offerModel offer);
  userMapping ← db (GetUserMapping (MkMapping 0 0 0 (Some (default "" (m_UUID model))) localUsername ""));
  mret (um_ExternalUserName userMapping).

(** [offerAuth.idpGroupFetcher] may be nil. *)
Definition resolveGroups (idpGroupFetcher : option fetcher) (userIdentifier : string) (user : User) : M OWorld User :=
  match idpGroupFetcher with
  | None => mret user
  | Some f =>
      r ← try (hook (Fetcher_FetchGroups f userIdentifier));
      mret (match r with inl groups => SetIDPGroups user groups | inr _ => user end)
  end.

Definition IsUserConsumerForOffer (idpGroupFetcher : option fetcher) (userTag offerTag : Tag) : M OWorld bool :=
  userIdentifier ← (if IsLocal userTag then oworld (resolveLocalUserToExternalUser (Id userTag) offerTag)
                    else mret (Id userTag));
  identity ← lift (NewIdentity userIdentifier);
  user ← resolveGroups idpGroupFetcher userIdentifier (NewUser identity);
  oworld (fga (IsApplicationOfferConsumer user offerTag)).

End authorizer.

(** ** Properties *)

(** Which external user a tag of a user stands for, for an offer. *)
Definition stands_for `{JujuNames} {T : Type -> Type} `{Gorm T} (d : Db T) (userTag offerTag : Tag) (name : string) : Prop :=
  if IsLocal userTag then
    exists o mo m, o ∈ rows (db_offers d) /\ ao_UUID o = Id offerTag /\
      loaded m_ID (rows (db_models d)) (ao_ModelID o) zeroModel mo /\ m ∈ rows (db_mappings d) /\
      um_ModelUUID m = Some (default "" (m_UUID mo)) /\ um_LocalUser m = Id userTag /\
      um_ExternalUserName m = name
  else name = Id userTag.

Section properties.
Context {F : Type} `{OFGALaws F} {T : Type -> Type} `{GormLaws T} {C : Type} `{HookClient C} `{JujuNames} `{Hash}.
Implicit Types (s : OWorld (F:=F) (T:=T) (C:=C)) (w : World F T).

Lemma wp_oworld {A} (m : M (World F T) A) Q s :
  wp m (fun o w => Q o (w, snd s)) (fst s) -> wp (oworld (C:=C) m) Q s.
Proof. exact (wp_zoom fst (fun w s => (w, snd s)) m Q s). Qed.

Lemma wp_hook {A} (m : M C A) (Q : outcome A -> OWorld (F:=F) (T:=T) (C:=C) -> Prop) s :
  wp m (fun o c => Q o (fst s, c)) (snd s) -> wp (hook m) Q s.
Proof. exact (wp_zoom snd (fun c s => (fst s, c)) m Q s). Qed.

(** A first row that matches, or an error. *)
Lemma first_row_wp {R} (get : Db T -> T R) put p nf d :
  wp (map_err nf (zoom get put (gorm_first p))) (fun o _ => forall r, o = Ok r -> r ∈ rows (get d) /\ p r = true) d.
Proof.
  apply wp_map_err, wp_zoom. eapply wp_mono; [apply law_first|]. intros o t (_ & _ & Ho) r Hr.
  destruct o; simplify_eq. done.
Qed.

Lemma resolve_offer_wp uuid d :
  wp (GetApplicationOffer (offerOf "" uuid)) (fun o _ => forall a, o = Ok a -> a ∈ rows (db_offers d) /\ ao_UUID a = uuid) d.
Proof.
  unfold GetApplicationOffer. apply wp_ready; [|done]. intros _ _. simpl. apply wp_bind.
  destruct (decide (uuid <> "")); wp_value; [|done].
  eapply wp_mono; [apply first_row_wp|]. intros o d' Ho a Ha. destruct (Ho a Ha) as [Hin Hp].
  split; [done|]. by apply bool_decide_eq_true in Hp.
Qed.

Lemma GetApplicationOffer_keeps o d :
  wp (GetApplicationOffer o) (fun _ d' => rows (db_mappings d') = rows (db_mappings d) /\ db_models d' = db_models d) d.
Proof.
  unfold GetApplicationOffer. apply wp_ready; [|done]. intros _ _. apply wp_bind.
  assert (forall p nf, wp (map_err nf (offers_tbl (gorm_first p)))
    (fun _ d' => rows (db_mappings d') = rows (db_mappings d) /\ db_models d' = db_models d) d) as Hf.
  { intros p nf. apply wp_map_err, wp_zoom. by apply wp_any. }
  destruct (decide _); [apply Hf|]. destruct (decide _); [apply Hf|done].
Qed.

Lemma GetUserMapping_wp m d :
  wp (GetUserMapping m) (fun o _ => forall r, o = Ok r -> r ∈ rows (db_mappings d) /\
    um_ModelUUID r = um_ModelUUID m /\ um_LocalUser r = um_LocalUser m) d.
Proof.
  unfold GetUserMapping. apply wp_ready; [|done]. intros _ _. apply wp_bind.
  destruct (um_ModelUUID m) as [uuid|]; [|done]. destruct (decide _); [|done]. wp_value.
  eapply wp_mono; [apply first_row_wp|]. intros o d' Ho r Hr. destruct (Ho r Hr) as [Hin Hp].
  apply andb_true_iff in Hp as [_ [Hm%bool_decide_eq_true Hl%bool_decide_eq_true]%andb_true_iff]. done.
Qed.

Lemma resolveLocal_wp user offerTag w :
  wp (resolveLocalUserToExternalUser user offerTag) (fun o w' => w_fga w' = w_fga w /\ forall name, o = Ok name ->
    exists a mo m, a ∈ rows (db_offers (w_db w)) /\ ao_UUID a = Id offerTag /\
      loaded m_ID (rows (db_models (w_db w))) (ao_ModelID a) zeroModel mo /\ m ∈ rows (db_mappings (w_db w)) /\
      um_ModelUUID m = Some (default "" (m_UUID mo)) /\ um_LocalUser m = user /\
      um_ExternalUserName m = name) w.
Proof.
  unfold resolveLocalUserToExternalUser. apply wp_bind, Perm.wp_db.
  eapply wp_mono; [apply wp_and; [apply resolve_offer_wp|apply GetApplicationOffer_keeps]|].
  intros o d [Ho [Hm Hmo]]. destruct o as [a| | |]; cbn [bind_post]; [|done..].
  destruct (Ho a eq_refl) as [Hin Hid]. apply wp_bind, Perm.wp_db. simpl.
  unfold offerModel. apply wp_map_err. eapply wp_mono; [apply preload_wp|]. intros o1 d1 (_ & Hd1 & Ho1).
  destruct o1 as [mo| | |]; cbn [bind_post]; [|done..]. specialize (Ho1 mo eq_refl). rewrite Hmo in Ho1.
  assert (rows (db_mappings d1) = rows (db_mappings d)) as Hm1 by (by destruct Hd1 as [->|(t & _ & ->)]).
  apply wp_bind, Perm.wp_db. simpl. eapply wp_mono; [apply GetUserMapping_wp|]. intros o2 d2 Ho2.
  destruct o2 as [m| | |]; cbn [bind_post]; [|done..]. wp_value. split; [done|].
  intros name Hn. apply (inj Ok) in Hn as <-. destruct (Ho2 m eq_refl) as (Hin2 & Hu & Hl).
  exists a, mo, m. rewrite <- Hm, <- Hm1. by split_and!.
Qed.

(** The user that is checked: the identity, with the groups of a fetch that
    succeeded, or with none.  [c] is the hook service before the call. *)
Definition checked_user (f : option fetcher) (name : string) (i : Identity) (c : C) : User :=
  match (fun g => (Fetcher_FetchGroups g name c).2) <$> f with
  | Some (Ok groups) => SetIDPGroups (NewUser i) groups
  | _ => NewUser i
  end.

Lemma resolveGroups_wp f name i s :
  wp (resolveGroups f name (NewUser i)) (fun o s' => fst s' = fst s /\
    forall u, o = Ok u -> u = checked_user f name i (snd s)) s.
Proof.
  unfold resolveGroups, checked_user. destruct f as [g|]; simpl.
  - apply wp_bind, wp_try, wp_hook, wp_run. intros c' o ->. simpl.
    destruct o as [groups|err| |]; cbn [bind_post]; try done; wp_value; split; try done;
      intros u Hu; by apply (inj Ok) in Hu as <-.
  - wp_value. split; [done|]. intros u Hu. by apply (inj Ok) in Hu as <-.
Qed.

Lemma IsUserConsumerForOffer_wp f userTag offerTag s :
  wp (IsUserConsumerForOffer f userTag offerTag) (fun o s' =>
    Perm.w_tuples (fst s') = Perm.w_tuples (fst s) /\ forall b, o = Ok b ->
    exists name i, stands_for (w_db (fst s)) userTag offerTag name /\ NewIdentity name = Ok i /\
      (b = true <-> has_access (Perm.w_tuples (fst s)) (checked_user f name i (snd s)) ConsumerRelation
                      (ConvertTag offerTag))) s.
Proof.
  unfold IsUserConsumerForOffer. apply wp_bind.
  assert (wp (if IsLocal userTag then oworld (C:=C) (resolveLocalUserToExternalUser (Id userTag) offerTag)
              else mret (Id userTag)) (fun o s' => w_fga (fst s') = w_fga (fst s) /\ snd s' = snd s /\
    forall name, o = Ok name -> stands_for (w_db (fst s)) userTag offerTag name) s) as Hres.
  { unfold stands_for. destruct (IsLocal userTag).
    - apply wp_oworld. eapply wp_mono; [apply resolveLocal_wp|]. intros o w' [Hf Ho]. by split_and!.
    - wp_value. split_and!; [done|done|]. by intros name Hn%(inj Ok). }
  eapply wp_mono; [exact Hres|]. intros o s1 (Hf1 & Hc1 & Hn). unfold Perm.w_tuples.
  destruct o as [name| | |]; cbn [bind_post]; [|by rewrite Hf1..].
  apply wp_bind. wp_value. destruct (NewIdentity name) as [i| | |] eqn:Hi; cbn [bind_post]; [|by rewrite Hf1..].
  apply wp_bind. eapply wp_mono; [apply resolveGroups_wp|]. intros o s2 [Hs2 Hu].
  destruct o as [u| | |]; cbn [bind_post]; [|by rewrite Hs2, Hf1..].
  apply wp_oworld, Perm.wp_fga. rewrite Hs2, Hf1. eapply wp_mono; [apply checkRelation_wp|].
  intros o f3 (HT & _ & Hb). split; [exact HT|]. intros b ->. exists name, i.
  rewrite <- Hc1, <- (Hu u eq_refl). split_and!; auto.
Qed.

(** [IsUserConsumerForOffer] answers true exactly when the identity that
    the tag stands for has the consumer relation on the offer in the
    authorisation model, counting the groups that the fetcher returned for it;
    a local user stands for the external user of its mapping in the model of
    that offer.  It changes nothing. *)
Theorem IsUserConsumerForOffer_sound f userTag offerTag s s' b :
  IsUserConsumerForOffer f userTag offerTag s = (s', Ok b) ->
  Perm.w_tuples (fst s') = Perm.w_tuples (fst s) /\
  exists name i, stands_for (w_db (fst s)) userTag offerTag name /\ NewIdentity name = Ok i /\
    (b = true <-> has_access (Perm.w_tuples (fst s)) (checked_user f name i (snd s)) ConsumerRelation
                    (ConvertTag offerTag)).
Proof.
  intros Hrun. destruct (wp_elim _ _ _ _ _ (IsUserConsumerForOffer_wp f userTag offerTag s) Hrun) as [HT Hb].
  split; [done|by apply Hb].
Qed.

(** A fetcher that fails does not deny access: the check runs as without
    a fetcher, although the interface says that the caller denies access when
    the groups cannot be resolved.  A user with a grant of its own still
    consumes the offer. *)
Theorem fetch_failure_keeps_access g offerTag userTag i e w c c' err :
  IsLocal userTag = false -> NewIdentity (Id userTag) = Ok i -> user_entity (NewUser i) = Ok e ->
  Fetcher_FetchGroups g (Id userTag) c = (c', Err err) ->
  exists w' o, IsUserConsumerForOffer (Some g) userTag offerTag (w, c) = ((w', c'), o) /\
    IsUserConsumerForOffer None userTag offerTag (w, c) = ((w', c), o) /\
    forall b, o = Ok b -> (b = true <-> holds (Perm.w_tuples w) e ConsumerRelation (ConvertTag offerTag)).
Proof.
  intros Hl Hi He Hf.
  pose proof (checkRelation_wp (NewUser i) offerTag ConsumerRelation (w_fga w)) as Hck. unfold wp in Hck.
  unfold IsUserConsumerForOffer, resolveGroups, mbind, M_bind, mret, M_ret, try, hook, lift, oworld, fga, zoom.
  rewrite Hl, Hi. simpl. rewrite Hf. simpl. unfold IsApplicationOfferConsumer.
  destruct (checkRelation (NewUser i) offerTag ConsumerRelation (w_fga w)) as [f o].
  destruct Hck as (HT & _ & Hb). exists (MkWorld f (w_db w)), o. split_and!; [reflexivity|reflexivity|]. intros b ->.
  rewrite (Hb b eq_refl). rewrite (has_access_iff _ (NewUser i) e []) by done. simpl. by rewrite union_empty_r_L.
Qed.

(** The names of a stream up to its end. *)
Fixpoint stream_names (stream : list recv) : option (list string) :=
  match stream with
  | [] | RecvEOF :: _ => Some []
  | RecvErr _ :: _ => None
  | RecvGroup name :: stream => (fun l => name :: l) <$> stream_names stream
  end.

(** The fetcher fails closed: it returns exactly the non-empty group
    names of the stream in their order when the stream ends, and an error when
    the stream breaks, never a part of the groups. *)
Theorem receive_all_or_nothing username stream :
  match stream_names stream with
  | Some names => receive username stream = Ok (filter (fun n => n <> "") names)
  | None => exists err, receive username stream = Err err
  end.
Proof.
  induction stream as [|[name| |err] stream IH]; [done| |done|by eexists]. simpl.
  destruct (stream_names stream) as [names|]; simpl.
  - rewrite IH. simpl. rewrite filter_cons. destruct (decide (name <> "")); done.
  - destruct IH as [err ->]. by eexists.
Qed.

End properties.

End Offer.
