(* ===== verification/Middleware.v ===== *)
(** * Middleware: the guards of the HTTP endpoints
    ([internal/middleware/authn.go], [authz.go], [websocketcsrf.go]).

    A handler runs in a context and answers a request; a middleware wraps a
    handler.  The context carries the session values of [AuthService] and the
    users that the middlewares put there.

    The theorems are parametric in the wrapped handler: it only ever runs for
    a request whose credential was verified, with the user it belongs to, and,
    behind the authorisation middlewares, only for users that the
    authorisation model allows; every other request ends in a refusal. *)

From Stdlib Require Import Ascii.
From S2P Require Import Prelude Errors GoStrings Regexp Names AuthModel RefServer OpenFGA Dbmodel Users Database Encoding TagResolver Access AuthService Login.

Module Middleware.
Import Auth Login.

Section middleware.
Context {F : Type} `{OFGAServer F} {P : Type} `{Outside P} {T : Type -> Type} `{Gorm T} `{JujuNames} `{Hash}.

(** The parts of a request that the middlewares read: [uuid] is the parameter
    of the route, [req] what the session store sees of the request. *)
Record Request := MkRequest {
  r_Method : string; r_Path : string; r_BasicAuth : option (string * string);
  r_Origin : string; r_uuid : string; r_req : Req;
}.

(** A context: the session values, the user under [identityContextKey], the
    identity for the ReBAC handlers. *)
Record HContext := MkHContext {
  hc_session : Context_; hc_identity : option User; hc_rebac : option User;
}.

Record Response := MkResponse { status : Z; body : string }.
Definition Handler : Type := HContext -> Request -> M (LWorld (F:=F) (P:=P) (T:=T)) Response.

Definition StatusBadRequest : Z := 400.
Definition StatusUnauthorized : Z := 401.
Definition StatusForbidden : Z := 403.
Definition StatusInternalServerError : Z := 500.

Definition refuse (code : Z) (text : string) : M (LWorld (F:=F) (P:=P) (T:=T)) Response :=
  mret (MkResponse code text).

(** [http.Error] ends the text with a newline. *)
Definition http_Error (text : string) (code : Z) : M (LWorld (F:=F) (P:=P) (T:=T)) Response :=
  refuse code (text +:+ String "010"%char EmptyString).

Definition with_session (ctx : HContext) (c : Context_) : HContext := MkHContext c (hc_identity ctx) (hc_rebac ctx).
Definition withIdentity (ctx : HContext) (user : User) : HContext := MkHContext (hc_session ctx) (Some user) (hc_rebac ctx).
Definition rebac_ContextWithIdentity (ctx : HContext) (user : User) : HContext :=
  MkHContext (hc_session ctx) (hc_identity ctx) (Some user).

Definition IdentityFromContext (ctx : HContext) : outcome User :=
  match hc_identity ctx with
  | Some user => Ok user
  | None => Err (New "cannot extract user from context")
  end.

(** ** [authn.go] *)

Definition AuthenticateViaCookie (svc : AuthenticationService) (next : Handler) : Handler := fun ctx r =>
  res ← try (authn (AuthenticateBrowserSession svc (hc_session ctx) (r_req r)));
  match res with
  | inr _ => http_Error "failed to authenticate" StatusUnauthorized
  | inl c => next (with_session ctx c) r
  end.

Definition unauthenticatedEndpoints : list string := ["/v1/swagger.json"].

Definition AuthenticateRebac (svc : AuthenticationService) (jimmTag : Tag) (baseURL : string) (next : Handler) : Handler :=
  let cookieAuthenticator := AuthenticateViaCookie svc (fun ctx r =>
    let identity := SessionIdentityFromContext (hc_session ctx) in
    if decide (identity = "") then http_Error "internal authentication error" StatusInternalServerError else
    res ← try (UserLogin jimmTag identity);
    match res with
    | inr _ => http_Error "internal authentication error" StatusInternalServerError
    | inl user =>
        if negb (JimmAdmin user) then refuse StatusUnauthorized "user is not an admin"
        else next (rebac_ContextWithIdentity ctx user) r
    end) in
  fun ctx r =>
    let relativePath := TrimPrefix (r_Path r) baseURL in
    if decide (relativePath ∈ unauthenticatedEndpoints) then next ctx r
    else cookieAuthenticator ctx r.

Definition AuthenticateViaBasicAuth (svc : AuthenticationService) (jimmTag : Tag) (next : Handler) : Handler := fun ctx r =>
  match r_BasicAuth r with
  | None => refuse StatusUnauthorized "authentication missing"
  | Some (username, password) =>
      res ← (if decide (username <> "") then try (LoginClientCredentials svc jimmTag username password)
             else try (LoginWithSessionToken svc jimmTag password));
      match res with
      | inl user => next (withIdentity ctx user) r
      | inr _ => refuse StatusUnauthorized "error authenticating the user"
      end
  end.

(** ** [authz.go] *)

Definition AuthorizeUserForModelAccess (accessNeeded : string) (next : Handler) : Handler := fun ctx r =>
  match IdentityFromContext ctx with
  | Ok user =>
      if decide (r_uuid r = "") then refuse StatusUnauthorized "cannot find uuid in URL path" else
      modelTag ← lift (NewModelTag (r_uuid r));
      let check m :=
        res ← try (world (fga m));
        match res with
        | inl true => next ctx r
        | _ => refuse StatusForbidden "no access to the resource"
        end in
      if decide (accessNeeded = ReaderRelation) then check (IsModelReader user modelTag)
      else if decide (accessNeeded = WriterRelation) then check (IsModelWriter user modelTag)
      else refuse StatusForbidden "no access to the resource"
  | Err err => refuse StatusUnauthorized (Error err)
  | _ => diverge
  end.

Definition AuthorizeUserAsJIMMAdmin (next : Handler) : Handler := fun ctx r =>
  match IdentityFromContext ctx with
  | Ok user => if negb (JimmAdmin user) then refuse StatusForbidden "unauthorized" else next ctx r
  | Err err => refuse StatusUnauthorized (Error err)
  | _ => diverge
  end.

(** ** [websocketcsrf.go] *)

(** [originAllowed] is the decision of the package [cors]. *)
Definition WebsocketCors_Handler (originAllowed : string -> bool) (h : Handler) : Handler := fun ctx r =>
  if decide (r_Method r <> "GET") then refuse StatusBadRequest "unexpected method" else
  let originPresent := bool_decide (r_Origin r <> "" /\ r_Origin r <> "http://localhost/") in
  if originPresent && negb (originAllowed (r_Origin r)) then refuse StatusForbidden "" else h ctx r.

End middleware.

(** ** Properties *)

Section properties.
Context {F : Type} `{OFGALaws F} {P : Type} `{Outside P} {T : Type -> Type} `{GormLaws T} `{JujuNames} `{Hash}.
Implicit Types (s : LWorld (F:=F) (P:=P) (T:=T)) (next : Handler (F:=F) (P:=P) (T:=T)) (r : Request).

(** How a wrapped handler ends: it runs the next handler in a state where
    nothing was granted or revoked, in a context that [allowed] describes, or
    it refuses with an error status, or the wrapper itself panics. *)
Definition guarded next r s (allowed : HContext -> LWorld (F:=F) (P:=P) (T:=T) -> Prop)
    (o : outcome Response) s' : Prop :=
  (exists ctx1 s1, allowed ctx1 s1 /\ Perm.w_tuples (fst s1) = Perm.w_tuples (fst s) /\ db_ok (w_db (fst s1)) /\
     next ctx1 r s1 = (s', o)) \/
  (Perm.w_tuples (fst s') = Perm.w_tuples (fst s) /\ exists code text, o = Ok (MkResponse code text) /\ (400 <= code)%Z) \/
  (Perm.w_tuples (fst s') = Perm.w_tuples (fst s) /\ forall resp, o <> Ok resp).

Lemma guarded_refuse next r s allowed s1 code text :
  Perm.w_tuples (fst s1) = Perm.w_tuples (fst s) -> (400 <= code)%Z ->
  wp (refuse code text) (guarded next r s allowed) s1.
Proof. intros HT Hc. wp_value. right; left. split; [done|by exists code, text]. Qed.

Lemma guarded_next next r s (allowed : HContext -> LWorld -> Prop) ctx s1 :
  allowed ctx s1 -> Perm.w_tuples (fst s1) = Perm.w_tuples (fst s) -> db_ok (w_db (fst s1)) ->
  wp (next ctx r) (guarded next r s allowed) s1.
Proof. intros Ha HT Hok. apply wp_run. intros s' o Hrun. left. by exists ctx, s1. Qed.

(** The credential of a request: client credentials, or, without a user name,
    a session token. *)
Definition basic_credential (username password : string) : credential :=
  if decide (username <> "") then ByClient username password else ByToken password.

(** The context of a verified login. *)
Definition basic_allowed svc jimmTag ctx r s (ctx1 : HContext) (s1 : LWorld (F:=F) (P:=P) (T:=T)) : Prop :=
  exists username password user name groups, r_BasicAuth r = Some (username, password) /\
    ctx1 = withIdentity ctx user /\
    verified svc (basic_credential username password) (w_db (fst s), snd s) name groups /\
    session_of (Perm.w_tuples (fst s)) jimmTag name groups (clock (snd s1)) user (w_db (fst s1)).

Lemma AuthenticateViaBasicAuth_wp svc jimmTag next ctx r s :
  db_ok (w_db (fst s)) ->
  wp (AuthenticateViaBasicAuth svc jimmTag next ctx r) (guarded next r s (basic_allowed svc jimmTag ctx r s)) s.
Proof.
  intros Hok. unfold AuthenticateViaBasicAuth. destruct (r_BasicAuth r) as [[username password]|] eqn:Hb;
    [|by apply guarded_refuse].
  set (c := basic_credential username password).
  assert ((if decide (username <> "") then try (LoginClientCredentials svc jimmTag username password)
           else try (LoginWithSessionToken svc jimmTag password)) = try (login svc jimmTag c)) as ->
    by (unfold c, basic_credential; by case_decide).
  apply wp_bind, wp_try. eapply wp_mono; [by apply login_wp|]. intros o s1 [[HT Hok1] Hu].
  destruct o as [user|err| |]; cbn [bind_post]; [|by apply guarded_refuse|by right; right..].
  destruct (Hu user eq_refl) as (name & groups & Hv & Hses). apply guarded_next; [|done|done].
  by exists username, password, user, name, groups.
Qed.

(** The user of the context may read, or write, the model of the route. *)
Definition model_allowed access ctx r s (ctx1 : HContext) (s1 : LWorld (F:=F) (P:=P) (T:=T)) : Prop :=
  ctx1 = ctx /\ w_db (fst s1) = w_db (fst s) /\ snd s1 = snd s /\ exists user tag, hc_identity ctx = Some user /\ r_uuid r <> "" /\ NewModelTag (r_uuid r) = Ok tag /\
    (access = ReaderRelation \/ access = WriterRelation) /\
    has_access (Perm.w_tuples (fst s)) user access (ConvertTag tag).

Lemma AuthorizeUserForModelAccess_wp access next ctx r s :
  db_ok (w_db (fst s)) ->
  wp (AuthorizeUserForModelAccess access next ctx r) (guarded next r s (model_allowed access ctx r s)) s.
Proof.
  intros Hok. unfold AuthorizeUserForModelAccess, IdentityFromContext.
  destruct (hc_identity ctx) as [user|] eqn:Hu; [|by apply guarded_refuse].
  destruct (decide (r_uuid r = "")) as [|Hne]; [by apply guarded_refuse|].
  apply wp_bind. wp_value. destruct (NewModelTag (r_uuid r)) as [tag| | |] eqn:Ht; cbn [bind_post];
    [|by right; right..].
  assert (forall rel, access = rel -> (rel = ReaderRelation \/ rel = WriterRelation) ->
    wp (res ← try (world (fga (checkRelation user tag rel)));
        match res with inl true => next ctx r | _ => refuse StatusForbidden "no access to the resource" end)
       (guarded next r s (model_allowed access ctx r s)) s) as Hcheck.
  { intros rel Hacc Hrel. apply wp_bind, wp_try, wp_world, Perm.wp_fga.
    eapply wp_mono; [apply checkRelation_wp|]. intros o f (HT & _ & Hb).
    destruct o as [[]|err| |]; cbn [bind_post];
      [|by apply guarded_refuse|by apply guarded_refuse|by right; right..].
    apply guarded_next; [|exact HT|exact Hok]. split_and!; [done..|]. exists user, tag. subst rel.
    split_and!; try done. by apply (Hb true). }
  destruct (decide (access = ReaderRelation)); [apply Hcheck; auto|].
  destruct (decide (access = WriterRelation)); [apply Hcheck; auto|by apply guarded_refuse].
Qed.

(** C10.  An endpoint behind basic authentication and model authorisation runs
    its handler only for a request whose client credentials or session token
    were verified, with the user they belong to and its verified groups, and
    only when that user has the needed relation on the model of the route in
    the authorisation model; every other request is refused with an error
    status (or the guard panics), and the guards change no tuple. *)
Theorem model_endpoint_guarded svc jimmTag access next ctx r s s' o :
  db_ok (w_db (fst s)) ->
  AuthenticateViaBasicAuth svc jimmTag (AuthorizeUserForModelAccess access next) ctx r s = (s', o) ->
  guarded next r s (fun ctx1 s1 => exists username password user tag name groups,
    hc_identity ctx1 = Some user /\ r_BasicAuth r = Some (username, password) /\
    verified svc (basic_credential username password) (w_db (fst s), snd s) name groups /\
    session_of (Perm.w_tuples (fst s)) jimmTag name groups (clock (snd s1)) user (w_db (fst s1)) /\
    NewModelTag (r_uuid r) = Ok tag /\ (access = ReaderRelation \/ access = WriterRelation) /\
    has_access (Perm.w_tuples (fst s)) user access (ConvertTag tag)) o s'.
Proof.
  intros Hok Hrun.
  destruct (wp_elim _ _ _ _ _ (AuthenticateViaBasicAuth_wp svc jimmTag _ ctx r s Hok) Hrun)
    as [(ctx1 & s1 & Ha & HT & Hok1 & Hn)|Hrest]; [|by right].
  destruct Ha as (un & pw & user & name & groups & Hba & -> & Hv & Hses).
  destruct (wp_elim _ _ _ _ _ (AuthorizeUserForModelAccess_wp access next _ r s1 Hok1) Hn)
    as [(ctx2 & s2 & Ha2 & HT2 & Hok2 & Hn2)|[[HT2 Hc]|[HT2 Hp]]].
  - left. exists ctx2, s2. split_and!; [|congruence|done|done].
    destruct Ha2 as (-> & Hdb & Hp & user' & tag & Hu & _ & Htag & Hacc & Hhas). simpl in Hu. injection Hu as <-.
    exists un, pw, user, tag, name, groups. rewrite Hdb, Hp, <- HT. split_and!; try done. by rewrite HT.
  - right; left. split; [congruence|done].
  - right; right. split; [congruence|done].
Qed.

Lemma AuthenticateViaCookie_wp svc next ctx r s :
  db_ok (w_db (fst s)) ->
  wp (AuthenticateViaCookie svc next ctx r) (guarded next r s (fun ctx1 s1 =>
    exists c dp, AuthenticateBrowserSession svc (hc_session ctx) (r_req r) (w_db (fst s), snd s) = (dp, Ok c) /\
      ctx1 = with_session ctx c)) s.
Proof.
  intros Hok. unfold AuthenticateViaCookie. apply wp_bind, wp_try, wp_authn, wp_run. intros dp o Hrun.
  destruct o as [c|err| |]; cbn [bind_post]; [|by apply guarded_refuse|by right; right..].
  apply guarded_next; [by exists c, dp|done|]. simpl.
  exact (proj1 (wp_elim _ _ _ _ _ (AuthenticateBrowserSession_wp svc (hc_session ctx) (r_req r) (w_db (fst s), snd s) Hok) Hrun)).
Qed.

(** The ReBAC API runs a handler, except for its public description, only
    for a request with an accepted browser session, with the user of that
    session in the context, and only when that user administers JIMM in the
    authorisation model; every other request is refused. *)
Theorem AuthenticateRebac_guarded svc jimmTag baseURL next ctx r s s' o :
  db_ok (w_db (fst s)) -> TrimPrefix (r_Path r) baseURL ∉ unauthenticatedEndpoints ->
  AuthenticateRebac svc jimmTag baseURL next ctx r s = (s', o) ->
  guarded next r s (fun ctx1 s1 => exists user e c dp name,
    hc_rebac ctx1 = Some user /\ JimmAdmin user = true /\ user_entity user = Ok e /\
    AuthenticateBrowserSession svc (hc_session ctx) (r_req r) (w_db (fst s), snd s) = (dp, Ok c) /\
    name = SessionIdentityFromContext c /\ (exists i, NewIdentity name = Ok i /\ u_Name user = i_Name i) /\
    holds (Perm.w_tuples (fst s)) e AdministratorRelation (ConvertTag jimmTag)) o s'.
Proof.
  intros Hok Hpath. unfold AuthenticateRebac. rewrite decide_False by done. intros Hrun.
  destruct (wp_elim _ _ _ _ _ (AuthenticateViaCookie_wp svc _ ctx r s Hok) Hrun)
    as [(ctx1 & s1 & (c & dp & Hses & ->) & HT & Hok1 & Hn)|Hrest]; [|by right].
  revert Hn. cbn [hc_session with_session]. set (name := SessionIdentityFromContext c).
  intros Hn. refine (wp_elim _ (fun o s' => guarded next r s _ o s') s1 s' o _ Hn). clear Hn Hrun.
  destruct (decide (name = "")); [by apply guarded_refuse|].
  apply wp_bind, wp_try. eapply wp_mono; [by apply UserLogin_wp|]. intros o2 s2 [[HT2 Hok2] Hu].
  rewrite HT in HT2, Hu.
  destruct o2 as [user|err| |]; cbn [bind_post]; [|by apply guarded_refuse|by right; right..].
  destruct (JimmAdmin user) eqn:Hadm; simpl; [|by apply guarded_refuse].
  apply guarded_next; [|done|done].
  destruct (Hu user eq_refl) as (_ & _ & _ & Hname & e & He & Hflag).
  exists user, e, c, dp, name. split_and!; try done. by apply Hflag.
Qed.

End properties.

End Middleware.
