(* ===== verification/RpcProxy.v ===== *)
(** * RpcProxy: the proxy between a Juju client and a controller
    ([internal/rpcproxy]).

    A connection has two loops that share the messages in flight: one reads
    requests of the client, answers logins itself and forwards the rest to the
    controller; the other reads responses of the controller, logs in again
    when the controller asks for more permissions, and forwards the rest to
    the client.  Messages are objects shared by reference ([px_heap]): the
    login message is also in flight under its number, and a new login changes
    it in place.  One iteration of a loop is a step; the steps of the two
    loops interleave in any order.

    JSON texts are modelled by the values they denote.  The token generator,
    the login service, the dialler and the sockets are the parameter
    [ProxyEnv]; the types of Juju's API are the parameter [JujuApi].  Metrics
    and log lines are left out.

    The theorems: a login reaches the controller only with a token of JIMM for
    a user whose login JIMM accepted, or verbatim when it is anonymous; the
    addresses of the controller never reach the client; every request is
    answered or forwarded, exactly once; messages in flight are filed under
    their own number. *)

From Stdlib Require Import Ascii.
From stdpp Require Import sorting.
From S2P Require Import Prelude Errors GoStrings Regexp Names Dbmodel Users Encoding.

Module Proxy.

(** ** Messages ([message.go]) *)

Record message := MkMessage {
  RequestID : Z;
  Type_ : string;
  Version : Z;
  ID_ : string;
  Request : string;
  Params : option json;
  Error_ : string;
  ErrorCode_ : string;
  ErrorInfo_ : option (list (string * goany));
  Response : option json;
}.

Definition zeroMessage : message := MkMessage 0 "" 0 "" "" None "" "" None None.

Definition with_Params (m : message) (p : json) : message :=
  MkMessage (RequestID m) (Type_ m) (Version m) (ID_ m) (Request m) (Some p) (Error_ m) (ErrorCode_ m) (ErrorInfo_ m) (Response m).
Definition with_Response (m : message) (r : json) : message :=
  MkMessage (RequestID m) (Type_ m) (Version m) (ID_ m) (Request m) (Params m) (Error_ m) (ErrorCode_ m) (ErrorInfo_ m) (Some r).
Definition with_Error (m : message) (code text : string) : message :=
  MkMessage (RequestID m) (Type_ m) (Version m) (ID_ m) (Request m) (Params m) text code (ErrorInfo_ m) (Response m).

(** ** [encoding/json] on structures *)

Definition jsonError (s : string) : gerror := ErrForeign "" "" s.

(** Key folding: letters without case, the long s and the Kelvin sign. *)
Definition fold_char (c : ascii) : ascii :=
  let n := N_of_ascii c in
  if ((65 <=? n) && (n <=? 90))%N then ascii_of_N (n + 32) else c.
Fixpoint fold_key (s : string) : string :=
  match s with
  | String "197" (String "191" s') => String "s" (fold_key s')
  | String "226" (String "132" (String "170" s')) => String "k" (fold_key s')
  | String c s' => String (fold_char c) (fold_key s')
  | EmptyString => EmptyString
  end%char.

(** The value of a string field: the last matching key wins, [null] leaves the
    field alone, another type is an error. *)
Fixpoint string_field (name : string) (fields : list (string * json)) (cur : string) : outcome string :=
  match fields with
  | [] => Ok cur
  | (k, v) :: fields =>
      if decide (fold_key k = name) then
        match v with
        | JStr s => string_field name fields s
        | JNull => string_field name fields cur
        | _ => Err (jsonError "json: cannot unmarshal value into Go struct field of type string")
        end
      else string_field name fields cur
  end.

(** [json.Unmarshal(raw, &request)] for the string field [name]. *)
Definition unmarshal_field (name : string) (raw : option json) : outcome string :=
  match raw with
  | None => Err (jsonError "unexpected end of JSON input")
  | Some (JObj fields) => string_field name fields ""
  | Some JNull => Ok ""
  | Some _ => Err (jsonError "json: cannot unmarshal value into Go value of struct type")
  end.

(** Keys are written in increasing order. *)
Definition key_le (a b : string * json) : Prop := String.leb a.1 b.1 = true.
#[export] Instance key_le_dec : RelDecision key_le.
Proof. intros a b. unfold key_le. apply _. Defined.

(** ** Types and services outside *)

Record JujuError := MkJujuError { je_Message : string; je_Code : string; je_Info : list (string * goany) }.
Record ControllerDetails := MkDetails { cd_Addresses : list (list string); cd_CACert : string }.
Record DeviceAuth := MkDevice { VerificationURI : string; UserCode : string }.
Record ConnMeta := MkMeta { ControllerUUID : string; ModelName : string; ModelUUID : string; MigrationMode : string }.

(** Juju's API types: the login request (its other fields are kept as they
    are), the results of a bulk call, the redirect information, the name of
    the anonymous user, and what becomes of a number that is read as a
    [float64] and written again. *)
Class JujuApi := {
  LoginRequest : Type;
  AuthTag : LoginRequest -> string;
  Token : LoginRequest -> string;
  with_Token : LoginRequest -> string -> LoginRequest;
  newLoginRequest : string -> string -> LoginRequest;
  LoginRequest_unmarshal : option json -> outcome LoginRequest;
  LoginRequest_marshal : LoginRequest -> json;
  ErrorResults_unmarshal : json -> outcome (list (option JujuError));
  RedirectErrorInfo_AsMap : ControllerDetails -> list (string * goany);
  AnonymousUsername : string;
  float64_text : string -> string;
}.

(** The token generator, the login service, the dialler and the sockets. *)
Class ProxyEnv (E : Type) := {
  tg_MakeLoginToken : User -> M E string;
  tg_MakeToken : list (string * goany) -> M E string;
  tg_GetUser : M E string;
  ls_LoginDevice : M E DeviceAuth;
  ls_GetDeviceSessionToken : option DeviceAuth -> M E string;
  ls_LoginClientCredentials : string -> string -> M E User;
  ls_LoginWithSessionToken : string -> M E User;
  ls_LoginWithSessionCookie : string -> M E User;
  ri_GetRedirectInfo : M E ControllerDetails;
  pe_Connect : M E ConnMeta;
  ws_WriteClient : message -> M E unit;
  ws_WriteController : message -> M E unit;
}.

(** An entry of the audit log, without its time. *)
Record AuditLogEntry := MkAudit {
  al_MessageId : Z; al_IdentityTag : string; al_Model : string; al_FacadeName : string;
  al_FacadeMethod : string; al_FacadeVersion : Z; al_IsResponse : bool; al_ObjectId : string;
  al_Errors : list (option JujuError); al_Params : option json;
}.

(** ** The state of a connection *)

Record proxy (E : Type) := MkProxy {
  px_heap : gmap nat message;
  px_login : option nat;
  px_inflight : gmap Z nat;
  px_anonymous : bool;
  px_conn : option ConnMeta;
  px_dialled : bool;
  px_device : option DeviceAuth;
  px_toClient : list message;
  px_toController : list message;
  px_audit : list AuditLogEntry;
  px_env : E;
}.
Arguments MkProxy {E}.
Arguments px_heap {E}.
Arguments px_login {E}.
Arguments px_inflight {E}.
Arguments px_anonymous {E}.
Arguments px_conn {E}.
Arguments px_dialled {E}.
Arguments px_device {E}.
Arguments px_toClient {E}.
Arguments px_toController {E}.
Arguments px_audit {E}.
Arguments px_env {E}.

(** What a reader returns: a message ([None] is the JSON value [null]), or an
    error that is a normal close or not. *)
Inductive read_result := ReadMsg (m : option message) | ReadErr (unexpected : bool) (err : gerror).

(** How an iteration of a loop ends: [continue], or [return err]. *)
Inductive control := Continue | Return (err : option gerror).

Section proxy_ops.
Context {E : Type} `{ProxyEnv E} `{JujuApi} `{JujuNames}.
Local Abbreviation PX := (proxy E).

(** *** State accesses *)

Definition get : M PX PX := fun p => (p, Ok p).
Definition envM {A} : M E A -> M PX A :=
  zoom px_env (fun e p => MkProxy (px_heap p) (px_login p) (px_inflight p) (px_anonymous p) (px_conn p) (px_dialled p)
                            (px_device p) (px_toClient p) (px_toController p) (px_audit p) e).
Definition update (f : PX -> PX) : M PX unit := fun p => (f p, Ok tt).

Definition put_heap (h : gmap nat message) (p : PX) : PX :=
  MkProxy h (px_login p) (px_inflight p) (px_anonymous p) (px_conn p) (px_dialled p) (px_device p)
    (px_toClient p) (px_toController p) (px_audit p) (px_env p).
Definition put_login (l : option nat) (p : PX) : PX :=
  MkProxy (px_heap p) l (px_inflight p) (px_anonymous p) (px_conn p) (px_dialled p) (px_device p)
    (px_toClient p) (px_toController p) (px_audit p) (px_env p).
Definition put_inflight (i : gmap Z nat) (p : PX) : PX :=
  MkProxy (px_heap p) (px_login p) i (px_anonymous p) (px_conn p) (px_dialled p) (px_device p)
    (px_toClient p) (px_toController p) (px_audit p) (px_env p).
Definition put_anonymous (b : bool) (p : PX) : PX :=
  MkProxy (px_heap p) (px_login p) (px_inflight p) b (px_conn p) (px_dialled p) (px_device p)
    (px_toClient p) (px_toController p) (px_audit p) (px_env p).
Definition put_conn (c : option ConnMeta) (p : PX) : PX :=
  MkProxy (px_heap p) (px_login p) (px_inflight p) (px_anonymous p) c true (px_device p)
    (px_toClient p) (px_toController p) (px_audit p) (px_env p).
Definition put_device (d : DeviceAuth) (p : PX) : PX :=
  MkProxy (px_heap p) (px_login p) (px_inflight p) (px_anonymous p) (px_conn p) (px_dialled p) (Some d)
    (px_toClient p) (px_toController p) (px_audit p) (px_env p).
Definition sent_client (m : message) (p : PX) : PX :=
  MkProxy (px_heap p) (px_login p) (px_inflight p) (px_anonymous p) (px_conn p) (px_dialled p) (px_device p)
    (px_toClient p ++ [m]) (px_toController p) (px_audit p) (px_env p).
Definition sent_controller (m : message) (p : PX) : PX :=
  MkProxy (px_heap p) (px_login p) (px_inflight p) (px_anonymous p) (px_conn p) (px_dialled p) (px_device p)
    (px_toClient p) (px_toController p ++ [m]) (px_audit p) (px_env p).
Definition logged_entry (e : AuditLogEntry) (p : PX) : PX :=
  MkProxy (px_heap p) (px_login p) (px_inflight p) (px_anonymous p) (px_conn p) (px_dialled p) (px_device p)
    (px_toClient p) (px_toController p) (px_audit p ++ [e]) (px_env p).

(** A new message object, and an assignment to one. *)
Definition alloc (m : message) : M PX nat := fun p =>
  let l := fresh (dom (px_heap p)) in (put_heap (<[l := m]> (px_heap p)) p, Ok l).
Definition deref (l : nat) : M PX message := fun p =>
  (p, match px_heap p !! l with Some m => Ok m | None => Panic "nil pointer dereference" end).
Definition assign (l : nat) (m : message) : M PX unit := update (fun p => put_heap (<[l := m]> (px_heap p)) p).

(** [writeJson]: the message is sent unless the socket fails. *)
Definition writeClient (m : message) : M PX unit := _ ← envM (ws_WriteClient m); update (sent_client m).
Definition writeController (m : message) : M PX unit := _ ← envM (ws_WriteController m); update (sent_controller m).

(** Errors that are only logged. *)
Definition ignore {A} (m : M PX A) : M PX unit := _ ← try m; mret tt.

(** *** Messages in flight *)

Definition addLoginMessage (l : nat) : M PX unit := update (put_login (Some l)).
Definition getLoginMessage : M PX (option nat) := p ← get; mret (px_login p).
Definition addMessage (l : nat) : M PX unit :=
  m ← deref l; update (fun p => put_inflight (<[RequestID m := l]> (px_inflight p)) p).
Definition removeMessage (msgID : Z) : M PX unit :=
  update (fun p => put_inflight (delete msgID (px_inflight p)) p).
Definition getMessage (key : Z) : M PX (option nat) := p ← get; mret (px_inflight p !! key).

(** *** Responses *)

Definition createErrResponse (err : gerror) (req : message) : message :=
  MkMessage (RequestID req) "" 0 "" "" None (Errors.Error err) (Errors.ErrorCode err) (Errors.ErrorInfo err) None.

(** [sendMessage(nil, request)]: the response that JIMM put in the request. *)
Definition sendMessage (request : message) : M PX unit :=
  ignore (writeClient (MkMessage (RequestID request) "" 0 "" "" None "" "" None (Response request))).

Definition auditLogMessage (msg : message) (isResponse : bool) : M PX unit :=
  user ← envM tg_GetUser;
  p ← get;
  let model := match px_conn p with Some c => ModelName c | None => "" end in
  let ale errs params := MkAudit (RequestID msg) user model (Type_ msg) (Request msg) (Version msg) isResponse (ID_ msg) errs params in
  if isResponse then
    errs ← match Response msg with
           | Some r => map_err (fun err => Errorf "failed to unmarshal message response: %w" [ArgE err])
                         (lift (ErrorResults_unmarshal r))
           | None => mret []
           end;
    update (logged_entry (ale (errs ++ [Some (MkJujuError (Error_ msg) (ErrorCode_ msg) (default [] (ErrorInfo_ msg)))]) None))
  else update (logged_entry (ale [] (Params msg))).

(** [sendError], on the socket of the client; [req] is not nil. *)
Definition sendError (req : message) (err : gerror) : M PX unit :=
  let msg := createErrResponse err req in
  _ ← ignore (writeClient msg);
  ignore (auditLogMessage msg true).

(** *** The client loop *)

(** [connectController.Do]: the dialler runs once, whatever it returns. *)
Definition makeControllerConnection : M PX unit :=
  p ← get;
  if px_dialled p then mret tt else
  r ← try (envM pe_Connect);
  match r with
  | inr err => _ ← update (put_conn None); throw err
  | inl meta => update (put_conn (Some meta))
  end.

Definition tag_redirect (d : ControllerDetails) : gerror :=
  JimmError CodeRedirect "redirection to alternative server required" (Some (RedirectErrorInfo_AsMap d)) None.

Definition handleLegacyLogin (l : nat) : M PX nat :=
  msg ← deref l;
  request ← lift (LoginRequest_unmarshal (Params msg));
  match juju_ParseTag (AuthTag request) with
  | Ok tag =>
      if decide (Kind tag = UserTagKind) then
        if decide (Id tag = AnonymousUsername) then _ ← update (put_anonymous true); mret l
        else throw (Codef CodeNotSupported "JIMM does not support login from old clients" [])
      else if decide (Kind tag ∈ [ModelTagKind; "machine"; "unit"]) then
        redirectInfo ← map_err (fun err => Errorf "failed to get redirect info: %w" [ArgE err]) (envM ri_GetRedirectInfo);
        throw (tag_redirect redirectInfo)
      else throw (Errorf "unsupported login request for tag %s" [ArgS (TagString tag)])
  | Err err => throw (Errorf "invalid user tag: %v" [ArgE err])
  | Panic s => panic s
  | OutOfFuel => diverge
  end.

(** The login message for the controller: a copy of the request with a token
    for the user. *)
Definition controllerLoginMessage (l : nat) (user : User) : M PX nat :=
  jwt ← envM (tg_MakeLoginToken user);
  tag ← lift (NewUserTag (u_Name user));
  msg ← deref l;
  alloc (MkMessage (RequestID msg) "Admin" 3 (ID_ msg) "Login"
    (Some (LoginRequest_marshal (newLoginRequest (TagString tag) (b64_encode jwt))))
    (Error_ msg) (ErrorCode_ msg) (ErrorInfo_ msg) (Response msg)).

(** The response for the client, or the message for the controller, or neither. *)
Definition handleAdminFacade (identityID : string) (l : nat) : M PX (option nat * option nat) :=
  msg ← deref l;
  let respond data := _ ← assign l (with_Response msg data); mret (Some l, None) in
  let toController m := c ← m; mret (None, Some c) in
  if decide (Request msg = "LoginDevice") then
    deviceResponse ← envM ls_LoginDevice;
    _ ← update (put_device deviceResponse);
    respond (JObj [("verification-uri", JStr (VerificationURI deviceResponse)); ("user-code", JStr (UserCode deviceResponse))])
  else if decide (Request msg = "GetDeviceSessionToken") then
    p ← get;
    sessionToken ← envM (ls_GetDeviceSessionToken (px_device p));
    respond (JObj [("session-token", JStr sessionToken)])
  else if decide (Request msg = "LoginWithSessionToken") then
    sessionToken ← lift (unmarshal_field "session-token" (Params msg));
    user ← envM (ls_LoginWithSessionToken sessionToken);
    toController (controllerLoginMessage l user)
  else if decide (Request msg = "LoginWithClientCredentials") then
    clientID ← lift (unmarshal_field "client-id" (Params msg));
    clientSecret ← lift (unmarshal_field "client-secret" (Params msg));
    user ← envM (ls_LoginClientCredentials clientID clientSecret);
    toController (controllerLoginMessage l user)
  else if decide (Request msg = "LoginWithSessionCookie") then
    user ← envM (ls_LoginWithSessionCookie identityID);
    toController (controllerLoginMessage l user)
  else if decide (Request msg = "Login") then toController (handleLegacyLogin l)
  else mret (None, None).

(** The end of an iteration: the message is filed and sent to the controller. *)
Definition forward (l : nat) : M PX control :=
  _ ← addMessage l;
  msg ← deref l;
  r ← try (writeController msg);
  match r with
  | inl _ => mret Continue
  | inr err =>
      _ ← sendError msg err;
      _ ← removeMessage (RequestID msg);
      mret Continue
  end.

(** One iteration of [clientProxy.start]. *)
Definition client_step (identityID : string) (input : read_result) : M PX control :=
  match input with
  | ReadErr unexpected err => mret (Return (if unexpected then Some err else None))
  | ReadMsg m =>
      conn ← try makeControllerConnection;
      match conn, m with
      | inr err, None => mret (Return (Some (Errorf "failed to connect to controller: %w" [ArgE err])))
      | inr err, Some msg =>
          _ ← sendError msg err;
          mret (Return (Some (Errorf "failed to connect to controller: %w" [ArgE err])))
      | inl _, None => panic "nil pointer dereference"
      | inl _, Some msg =>
          l ← alloc msg;
          _ ← ignore (auditLogMessage msg false);
          if decide (Type_ msg = "Admin") then
            r ← try (handleAdminFacade identityID l);
            match r with
            | inr err => _ ← sendError msg err; mret Continue
            | inl (Some c, _) => m ← deref c; _ ← sendMessage m; mret Continue
            | inl (None, Some c) => _ ← addLoginMessage c; forward c
            | inl (None, None) => forward l
            end
          else forward l
      end
  end.

(** *** The controller loop *)

Definition accessRequiredErrorCode := "access required".

(** The loop over the results of a bulk call; [None] is the nil map. *)
Fixpoint infoPermissions (info : list (string * goany)) (acc : option (list (string * goany)))
    : outcome (option (list (string * goany))) :=
  match info with
  | [] => Ok acc
  | (k, AnyString level) :: info => infoPermissions info (Some (filter (fun kv => kv.1 <> k) (default [] acc) ++ [(k, AnyString level)]))
  | _ => Err (New "unknown permission level")
  end.
Fixpoint bulkPermissions (results : list (option JujuError)) (acc : option (list (string * goany)))
    : outcome (option (list (string * goany))) :=
  match results with
  | [] => Ok acc
  | Some e :: results =>
      if decide (je_Code e = accessRequiredErrorCode) then
        acc ← infoPermissions (je_Info e) acc; bulkPermissions results acc
      else bulkPermissions results acc
  | None :: results => bulkPermissions results acc
  end.

Definition checkPermissionsRequired (msg : message) : outcome (option (list (string * goany))) :=
  if decide (ErrorCode_ msg = accessRequiredErrorCode) then Ok (ErrorInfo_ msg) else
  match Response msg with
  | None => Ok None
  | Some r => match ErrorResults_unmarshal r with
              | Ok results => bulkPermissions results None
              | Err _ => Ok None
              | Panic s => Panic s
              | OutOfFuel => OutOfFuel
              end
  end.

Definition addJWT (l : nat) (permissions : list (string * goany)) : M PX unit :=
  msg ← deref l;
  lr ← lift (LoginRequest_unmarshal (Params msg));
  jwt ← envM (tg_MakeToken permissions);
  assign l (with_Params msg (LoginRequest_marshal (with_Token lr (b64_encode jwt)))).

(** The controller's proxy has an [anonymousLogin] of its own, which no code
    sets. *)
Definition redoLogin (anonymousLogin : bool) (permissions : list (string * goany)) : M PX unit :=
  if anonymousLogin then throw (Codef CodeUnauthorized "Anonymous login does not support re-authentication" []) else
  loginMsg ← getLoginMessage;
  match loginMsg with
  | None => throw (Codef CodeUnauthorized "Haven't received login yet" [])
  | Some l =>
      _ ← addJWT l permissions;
      m ← deref l;
      writeController m
  end.

Definition handleError (msg : message) (err : gerror) : M PX unit :=
  _ ← sendError msg err;
  removeMessage (RequestID msg).

Definition MigrationModeExporting := "exporting".
Definition MigrationModeMigrateInternal := "migrating-internally".
Definition CodeModelMigrating := "model migrating".

(** The message for the client, if it is to be returned. *)
Definition processControllerErrors (msg : message) : M PX (option message) :=
  p ← get;
  let mode := match px_conn p with Some c => MigrationMode c | None => "" end in
  let modelMigrating := bool_decide (mode ∈ [MigrationModeMigrateInternal; MigrationModeExporting]) in
  if modelMigrating && bool_decide (ErrorCode_ msg = CodeUnauthorized)
  then mret (Some (with_Error msg CodeModelMigrating "model is finishing migration, please retry later"))
  else match checkPermissionsRequired msg with
  | Err err => _ ← handleError msg err; mret None
  | Ok (Some permissionsRequired) =>
      r ← try (redoLogin false permissionsRequired);
      match r with
      | inr err => _ ← handleError msg err; mret None
      | inl _ =>
          req ← getMessage (RequestID msg);
          match req with
          | None => mret None
          | Some l => m ← deref l; _ ← ignore (writeController m); mret None
          end
      end
  | Ok None => mret (Some msg)
  | Panic s => panic s
  | OutOfFuel => diverge
  end.

(** A value read into [map[string]any] and written again: the last of equal
    keys wins, keys are sorted, numbers pass through [float64]. *)
Fixpoint renumber (v : json) : json :=
  match v with
  | JNum t => JNum (float64_text t)
  | JArr l => JArr (renumber <$> l)
  | JObj fields => JObj (merge_sort key_le
      (map_to_list (list_to_map (M := gmap string json) (reverse ((fun kv => (kv.1, renumber kv.2)) <$> fields)))))
  | v => v
  end.

(** [json.Unmarshal(msg.Response, &response)], [delete(response, "servers")]. *)
Definition modifyControllerResponse (msg : message) : outcome message :=
  match Response msg with
  | None => Err (jsonError "unexpected end of JSON input")
  | Some (JObj fields) =>
      match renumber (JObj fields) with
      | JObj fields' => Ok (with_Response msg (JObj (filter (fun kv => kv.1 <> "servers") fields')))
      | _ => Ok msg
      end
  | Some JNull => Ok (with_Response msg JNull)
  | Some _ => Err (jsonError "json: cannot unmarshal value into Go value of type map[string]interface {}")
  end.

(** One iteration of [controllerProxy.start]; here [null] leaves the message
    empty. *)
Definition controller_step (input : read_result) : M PX control :=
  match input with
  | ReadErr unexpected err => mret (Return (if unexpected then Some err else None))
  | ReadMsg m =>
      let msg := default zeroMessage m in
      returned ← processControllerErrors msg;
      match returned with
      | None => mret Continue
      | Some msg =>
          match modifyControllerResponse msg with
          | Ok msg =>
              _ ← removeMessage (RequestID msg);
              _ ← ignore (auditLogMessage msg true);
              r ← try (writeClient msg);
              match r with
              | inl _ => mret Continue
              | inr err => mret (Return (Some (Errorf "error writing message to client: %w" [ArgE err])))
              end
          | Err err =>
              _ ← handleError msg err;
              mret (Return (Some (Errorf "error modifying controller response: %w" [ArgE err])))
          | Panic s => panic s
          | OutOfFuel => diverge
          end
      end
  end.

(** The checks of [ProxySockets]; the arguments say which helpers are set. *)
Definition ProxySockets_guard (connect audit login redirect : bool) : outcome unit :=
  if negb connect then Err (New "missing controller connect function")
  else if negb audit then Err (New "missing audit log function")
  else if negb login then Err (New "missing login service function")
  else if negb redirect then Err (New "missing redirect info function")
  else Ok tt.

Definition newProxy (e : E) : PX := MkProxy ∅ None ∅ false None false None [] [] [] e.

End proxy_ops.
(** ** Runs *)

Section runs.
Context {E : Type} `{ProxyEnv E} `{JujuApi} `{JujuNames}.
Context (identityID : string).
Implicit Types (p : proxy E) (m msg : message).

(** The steps of a connection: an iteration of either loop on any input, and
    any change in the services outside. *)
Inductive pstep : proxy E -> proxy E -> Prop :=
| step_client input p p' o : client_step identityID input p = (p', o) -> pstep p p'
| step_controller input p p' o : controller_step input p = (p', o) -> pstep p p'
| step_outside p e : pstep p (envM (fun _ => (e, Ok tt)) p).1.

Definition connection p : Prop := exists e, rtc pstep (newProxy e) p.

(** *** Logins *)

(** A user whom the login service accepts, in some state of the world outside,
    with a session token, client credentials or the session of the connection. *)
Definition accepted_user (u : User) : Prop :=
  exists e e', (exists t, ls_LoginWithSessionToken t e = (e', Ok u)) \/
    (exists i s, ls_LoginClientCredentials i s e = (e', Ok u)) \/
    ls_LoginWithSessionCookie identityID e = (e', Ok u).

(** The parameters of a login that may go to the controller: those of an
    anonymous login, those with a token for an accepted user, or those of a
    renewed login. *)
Definition anonymous_params (params : option json) : Prop :=
  exists lr tag, LoginRequest_unmarshal params = Ok lr /\ juju_ParseTag (AuthTag lr) = Ok tag /\
    Kind tag = UserTagKind /\ Id tag = AnonymousUsername.
Definition minted_params (params : option json) : Prop :=
  exists u tag jwt e e', accepted_user u /\ NewUserTag (u_Name u) = Ok tag /\
    tg_MakeLoginToken u e = (e', Ok jwt) /\
    params = Some (LoginRequest_marshal (newLoginRequest (TagString tag) (b64_encode jwt))).
Definition renewed_params (params : option json) : Prop :=
  exists lr perms jwt e e', tg_MakeToken perms e = (e', Ok jwt) /\
    params = Some (LoginRequest_marshal (with_Token lr (b64_encode jwt))).
Definition legit_params (params : option json) : Prop :=
  anonymous_params params \/ minted_params params \/ renewed_params params.

Definition is_login m : Prop := Type_ m = "Admin" /\ Request m = "Login".
Definition legit m : Prop := is_login m -> legit_params (Params m).

(** What the loops keep: the messages in flight are filed under their number,
    logins among them and the login message are legitimate, and so is every
    login that was sent. *)
Definition px_inv p : Prop :=
  (forall m, m ∈ px_toController p -> legit m) /\
  (forall l, px_login p = Some l -> exists m, px_heap p !! l = Some m /\ is_login m /\ legit_params (Params m)) /\
  (forall id l, px_inflight p !! id = Some l -> exists m, px_heap p !! l = Some m /\ RequestID m = id /\ legit m).

(** The parts of the state that the invariant is about. *)
Definition core p := (px_heap p, px_login p, px_inflight p, px_toController p).

Lemma px_inv_core p p' : core p' = core p -> px_inv p -> px_inv p'.
Proof. unfold px_inv. intros [= Hh Hl Hi Ht]. by rewrite Hh, Hl, Hi, Ht. Qed.

(** Operations that leave these parts alone. *)
Definition quiet {A} (c : M (proxy E) A) : Prop := forall p, wp c (fun _ p' => core p' = core p) p.

Lemma quiet_bind {A B} (c : M (proxy E) A) (k : A -> M (proxy E) B) :
  quiet c -> (forall a, quiet (k a)) -> quiet (c ≫= k).
Proof.
  intros Hc Hk p. apply wp_bind. eapply wp_mono; [apply Hc|]. intros o p1 Hq1.
  destruct o as [a| | |]; cbn [bind_post]; try done.
  eapply wp_mono; [apply Hk|]. intros o2 p2 Hq2. congruence.
Qed.
Lemma quiet_try {A} (c : M (proxy E) A) : quiet c -> quiet (try c).
Proof. intros Hc p. apply wp_try. eapply wp_mono; [apply Hc|]. done. Qed.
Lemma quiet_map_err {A} f (c : M (proxy E) A) : quiet c -> quiet (map_err f c).
Proof. intros Hc p. apply wp_map_err. eapply wp_mono; [apply Hc|]. done. Qed.
Lemma quiet_ret {A} (a : A) : quiet (mret a).
Proof. done. Qed.
Lemma quiet_throw {A} e : quiet (throw (A:=A) e).
Proof. done. Qed.
Lemma quiet_lift {A} (o : outcome A) : quiet (lift o).
Proof. done. Qed.
Lemma quiet_get : quiet get.
Proof. done. Qed.
Lemma quiet_env {A} (c : M E A) : quiet (envM c).
Proof. intros p. unfold wp, envM, zoom. by destruct (c (px_env p)). Qed.
Lemma quiet_update f : (forall p, core (f p) = core p) -> quiet (update f).
Proof. intros Hf p. by apply Hf. Qed.

End runs.

Create HintDb proxy.
#[export] Hint Resolve quiet_bind quiet_try quiet_map_err quiet_ret quiet_throw quiet_lift quiet_get quiet_env : proxy.
#[export] Hint Extern 1 (quiet (update _)) => apply quiet_update; done : proxy.

Section facts.
Context {E : Type} `{ProxyEnv E} `{JujuApi} `{JujuNames}.
Context (identityID : string).
Implicit Types (p : proxy E) (m msg : message).
Local Abbreviation inv := (px_inv identityID).

Lemma quiet_ignore {A} (c : M (proxy E) A) : quiet c -> quiet (ignore c).
Proof. intros Hc. unfold ignore. auto with proxy. Qed.
Lemma quiet_writeClient m : quiet (E:=E) (writeClient m).
Proof. unfold writeClient. auto with proxy. Qed.
Lemma quiet_audit m b : quiet (E:=E) (auditLogMessage m b).
Proof.
  unfold auditLogMessage. apply quiet_bind; [auto with proxy|]. intros user. apply quiet_bind; [auto with proxy|].
  intros p. destruct b; [|auto with proxy]. apply quiet_bind; [|auto with proxy].
  destruct (Response m); auto with proxy.
Qed.
#[local] Hint Resolve quiet_ignore quiet_writeClient quiet_audit : proxy.
Lemma quiet_sendError m err : quiet (E:=E) (sendError m err).
Proof. unfold sendError. auto with proxy. Qed.
Lemma quiet_sendMessage m : quiet (E:=E) (sendMessage m).
Proof. unfold sendMessage. auto with proxy. Qed.
Lemma quiet_connect : quiet (E:=E) makeControllerConnection.
Proof.
  unfold makeControllerConnection. apply quiet_bind; [auto with proxy|]. intros p.
  destruct (px_dialled p); [auto with proxy|]. apply quiet_bind; [auto with proxy|].
  intros [|]; auto with proxy.
Qed.

(** Quiet operations keep the invariant. *)
Lemma quiet_inv {A} (c : M (proxy E) A) p : quiet c -> inv p -> wp c (fun _ p' => inv p') p.
Proof. intros Hc Hp. eapply wp_mono; [apply Hc|]. intros o p' Hcore. exact (px_inv_core _ p p' Hcore Hp). Qed.

Lemma inv_alloc p m : inv p -> inv (put_heap (<[fresh (dom (px_heap p)) := m]> (px_heap p)) p).
Proof.
  intros (Ht & Hl & Hi). set (l0 := fresh _).
  assert (forall l m', px_heap p !! l = Some m' -> l0 <> l) as Hne.
  { intros l m' Hm Heq. apply (is_fresh (dom (px_heap p))). fold l0. rewrite Heq. by eapply elem_of_dom_2. }
  split_and!; [exact Ht| |]; simpl.
  - intros l Hlog. destruct (Hl l Hlog) as (m' & Hm' & ?). exists m'. by rewrite lookup_insert_ne by (by eapply Hne).
  - intros id l Hin. destruct (Hi id l Hin) as (m' & Hm' & ?). exists m'. by rewrite lookup_insert_ne by (by eapply Hne).
Qed.

Lemma inv_assign p l m m' :
  inv p -> px_heap p !! l = Some m -> RequestID m' = RequestID m ->
  (is_login m -> legit_params identityID (Params m) -> is_login m' /\ legit_params identityID (Params m')) ->
  (legit identityID m -> legit identityID m') ->
  inv (put_heap (<[l := m']> (px_heap p)) p).
Proof.
  intros (Ht & Hl & Hi) Hm Hid Hlog Hleg. split_and!; [exact Ht| |]; simpl.
  - intros l1 Hl1. destruct (Hl l1 Hl1) as (m1 & Hm1 & Hlg & Hp).
    destruct (decide (l = l1)) as [<-|Hne]; [|exists m1; by rewrite lookup_insert_ne].
    rewrite Hm in Hm1. injection Hm1 as <-. exists m'. rewrite lookup_insert_eq. by destruct (Hlog Hlg Hp).
  - intros id l1 Hl1. destruct (Hi id l1 Hl1) as (m1 & Hm1 & Hr & Hg).
    destruct (decide (l = l1)) as [<-|Hne]; [|exists m1; by rewrite lookup_insert_ne].
    rewrite Hm in Hm1. injection Hm1 as <-. exists m'. rewrite lookup_insert_eq. split_and!; [done|congruence|auto].
Qed.

Lemma wp_deref l m Q p : px_heap p !! l = Some m -> Q (Ok m) p -> wp (deref l) Q p.
Proof. intros Hm HQ. unfold wp, deref. by rewrite Hm. Qed.

(** A quiet operation keeps the object at a location. *)
Lemma core_heap p p' : core p' = core p -> px_heap p' = px_heap p.
Proof. by intros [= -> _ _ _]. Qed.

Lemma inv_quiet p p' : core p' = core p -> inv p -> inv p'.
Proof. apply px_inv_core. Qed.

(** A location that holds a login for the controller. *)
Definition holds_login p l : Prop :=
  exists m, px_heap p !! l = Some m /\ is_login m /\ legit_params identityID (Params m).

Lemma handleLegacyLogin_wp l m p :
  inv p -> px_heap p !! l = Some m -> is_login m ->
  wp (handleLegacyLogin l) (fun o p' => inv p' /\ forall c, o = Ok c -> holds_login p' c) p.
Proof.
  intros Hp Hm Hlog. unfold handleLegacyLogin. apply wp_bind. eapply wp_deref; [done|]. cbn [bind_post].
  apply wp_bind. wp_value. destruct (LoginRequest_unmarshal (Params m)) as [lr| | |] eqn:Hlr; cbn [bind_post]; try by split.
  destruct (juju_ParseTag (AuthTag lr)) as [tag| | |] eqn:Htag; try (wp_value; by split).
  destruct (decide (Kind tag = UserTagKind)) as [Hk|].
  - destruct (decide (Id tag = AnonymousUsername)) as [Hid|]; [|wp_value; by split].
    apply wp_bind. unfold update. wp_value. cbn [bind_post]. wp_value. split; [by eapply inv_quiet|].
    intros c Hc. apply (inj Ok) in Hc as <-. exists m. split_and!; [done|done|]. left. by exists lr, tag.
  - destruct (decide _); [|wp_value; by split]. apply wp_bind.
    eapply wp_mono; [apply quiet_map_err, quiet_env|]. intros o p1 Hcore.
    assert (inv p1) by exact (inv_quiet p _ Hcore Hp). destruct o; cbn [bind_post]; by split.
Qed.

Lemma controllerLoginMessage_wp l u m p :
  inv p -> px_heap p !! l = Some m -> accepted_user identityID u ->
  wp (controllerLoginMessage l u) (fun o p' => inv p' /\ forall c, o = Ok c -> holds_login p' c) p.
Proof.
  intros Hp Hm Hu. unfold controllerLoginMessage. apply wp_bind, wp_run. intros p1 o Hrun.
  pose proof (wp_elim _ _ _ _ _ (quiet_env (tg_MakeLoginToken u) p) Hrun) as Hcore.
  assert (inv p1) as Hp1 by exact (inv_quiet p _ Hcore Hp). pose proof (core_heap _ _ Hcore) as Hh.
  destruct o as [jwt| | |]; cbn [bind_post]; try by split.
  assert (exists e', tg_MakeLoginToken u (px_env p) = (e', Ok jwt)) as [e' Hjwt].
  { unfold envM, zoom in Hrun. destruct (tg_MakeLoginToken u (px_env p)) as [e' o]. injection Hrun as _ ->. by eexists. }
  apply wp_bind. wp_value. destruct (NewUserTag (u_Name u)) as [tag| | |] eqn:Htag; cbn [bind_post]; try by split.
  apply wp_bind. eapply wp_deref; [by rewrite Hh|]. cbn [bind_post]. unfold alloc. wp_value.
  split; [by apply inv_alloc|]. intros c Hc. apply (inj Ok) in Hc as <-. eexists. simpl.
  rewrite lookup_insert_eq. split_and!; [done|done|]. right; left. by exists u, tag, jwt, (px_env p), e'.
Qed.

(** What [handleAdminFacade] leaves behind. *)
Definition admin_post p l m (o : outcome (option nat * option nat)) p' : Prop :=
  inv p' /\
  match o with
  | Ok (None, Some c) => holds_login p' c
  | Ok (None, None) => px_heap p' !! l = Some m /\ Request m <> "Login"
  | _ => True
  end.

Lemma respond_wp p0 p l m (msg : message) data :
  inv p -> px_heap p !! l = Some m ->
  wp (_ ← assign l (with_Response m data); mret (Some l, None)) (admin_post p0 l msg) p.
Proof.
  intros Hp Hm. apply wp_bind. unfold assign, update. wp_value. cbn [bind_post]. wp_value. split; [|done].
  by apply (inv_assign p l m).
Qed.

Lemma toController_wp p0 l m (c : M (proxy E) nat) p :
  wp c (fun o p' => inv p' /\ forall c, o = Ok c -> holds_login p' c) p ->
  wp (c ≫= fun c => mret (None, Some c)) (admin_post p0 l m) p.
Proof.
  intros Hc. apply wp_bind. eapply wp_mono; [exact Hc|]. intros o p1 [Hp1 Ho].
  destruct o as [c1| | |]; cbn [bind_post]; [wp_value|by split..]. split; [done|by apply Ho].
Qed.

(** A call of a service, then the rest. *)
Lemma env_step_wp {A B} (c : M E A) (k : A -> M (proxy E) B) (Q : outcome B -> proxy E -> Prop) p :
  inv p -> (forall o p', inv p' -> (forall b, o <> Ok b) -> Q o p') ->
  (forall a p' e', c (px_env p) = (e', Ok a) -> inv p' -> px_heap p' = px_heap p -> wp (k a) Q p') ->
  wp (envM c ≫= k) Q p.
Proof.
  intros Hp Hfail Hk. apply wp_bind, wp_run. intros p1 o Hrun.
  pose proof (wp_elim _ _ _ _ _ (quiet_env c p) Hrun) as Hcore.
  assert (inv p1) as Hp1 by exact (inv_quiet p _ Hcore Hp).
  destruct o as [a| | |]; cbn [bind_post]; try (by apply Hfail).
  unfold envM, zoom in Hrun. destruct (c (px_env p)) as [e' o] eqn:Hc. injection Hrun as Hp1' ->.
  eapply Hk; [done|done|by apply core_heap].
Qed.

Lemma handleAdminFacade_wp l m p :
  inv p -> px_heap p !! l = Some m -> Type_ m = "Admin" ->
  wp (handleAdminFacade identityID l) (admin_post p l m) p.
Proof.
  intros Hp Hm Hadm. unfold handleAdminFacade. apply wp_bind. eapply wp_deref; [done|]. cbn [bind_post].
  assert (forall o p', inv p' -> (forall b, o <> Ok b) -> admin_post p l m o p') as Hfail.
  { intros o p' Hp' Ho. split; [done|]. destruct o as [b| | |]; try done. by destruct (Ho b). }
  assert (forall p' u e e', inv p' -> px_heap p' = px_heap p -> (exists t, ls_LoginWithSessionToken t e = (e', Ok u)) \/
     (exists i s, ls_LoginClientCredentials i s e = (e', Ok u)) \/ ls_LoginWithSessionCookie identityID e = (e', Ok u) ->
     wp (c ← controllerLoginMessage l u; mret (None, Some c)) (admin_post p l m) p') as Hlogin.
  { intros p' u e e' Hp' Hh Hu. apply toController_wp. apply (controllerLoginMessage_wp l u m); [done|by rewrite Hh|by exists e, e']. }
  assert (forall {A} (o : outcome A) (k : A -> M (proxy E) (option nat * option nat)),
    (forall a, wp (k a) (admin_post p l m) p) -> wp (lift o ≫= k) (admin_post p l m) p) as Hlift.
  { intros A o k Hk. apply wp_bind. wp_value. destruct o; cbn [bind_post]; [apply Hk|by apply Hfail..]. }
  destruct (decide (Request m = "LoginDevice")).
  { apply env_step_wp; [done|done|]. intros d p1 e' _ Hp1 Hh. apply wp_bind. unfold update. wp_value. cbn [bind_post].
    apply respond_wp; [by eapply inv_quiet|]. simpl. by rewrite Hh. }
  destruct (decide (Request m = "GetDeviceSessionToken")).
  { apply wp_bind. unfold get. wp_value. cbn [bind_post]. apply env_step_wp; [done|done|]. intros t p1 e' _ Hp1 Hh.
    apply respond_wp; [done|by rewrite Hh]. }
  destruct (decide (Request m = "LoginWithSessionToken")).
  { apply Hlift. intros t. apply env_step_wp; [done|done|]. intros u p1 e' Hu Hp1 Hh. eapply Hlogin; eauto. }
  destruct (decide (Request m = "LoginWithClientCredentials")).
  { apply Hlift. intros i. apply Hlift. intros s. apply env_step_wp; [done|done|]. intros u p1 e' Hu Hp1 Hh.
    eapply Hlogin; eauto. }
  destruct (decide (Request m = "LoginWithSessionCookie")).
  { apply env_step_wp; [done|done|]. intros u p1 e' Hu Hp1 Hh. eapply Hlogin; eauto. }
  destruct (decide (Request m = "Login")).
  { apply toController_wp. by apply (handleLegacyLogin_wp l m). }
  by wp_value.
Qed.

(** A quiet operation, then the rest. *)
Lemma quiet_step_wp {A B} (c : M (proxy E) A) (k : A -> M (proxy E) B) (Q : outcome B -> proxy E -> Prop) p :
  quiet c -> (forall o p', core p' = core p -> (forall b, o <> Ok b) -> Q o p') ->
  (forall a p', core p' = core p -> wp (k a) Q p') -> wp (c ≫= k) Q p.
Proof.
  intros Hc Hfail Hk. apply wp_bind. eapply wp_mono; [apply Hc|]. intros o p1 Hcore.
  destruct o as [a| | |]; cbn [bind_post]; [by apply Hk|by apply Hfail..].
Qed.

Definition keeps (c : M (proxy E) control) p : Prop := wp c (fun _ p' => inv p') p.

Lemma quiet_keeps {A} (c : M (proxy E) A) (k : A -> M (proxy E) control) p :
  quiet c -> inv p -> (forall a p', core p' = core p -> inv p' -> keeps (k a) p') -> keeps (c ≫= k) p.
Proof.
  intros Hc Hp Hk. apply quiet_step_wp; [done| |].
  - intros o p' Hcore _. exact (inv_quiet p _ Hcore Hp).
  - intros a p' Hcore. apply Hk; [done|exact (inv_quiet p _ Hcore Hp)].
Qed.

Lemma sent_controller_inv m p : inv p -> legit identityID m -> inv (sent_controller m p).
Proof.
  intros (Ht & Hl & Hi) Hm. split_and!; [|exact Hl|exact Hi]. simpl.
  intros m' [Hin|Heq%list_elem_of_singleton]%elem_of_app; [auto|by subst].
Qed.

Lemma writeController_wp m p :
  inv p -> legit identityID m ->
  wp (writeController m) (fun _ p' => inv p' /\ px_heap p' = px_heap p /\ px_inflight p' = px_inflight p) p.
Proof.
  intros Hp Hm. unfold writeController. apply quiet_step_wp; [apply quiet_env| |].
  - intros o p' Hcore _. pose proof Hcore as [= Hh _ Hi _]. split_and!; [exact (inv_quiet p _ Hcore Hp)|done|done].
  - intros [] p' Hcore. pose proof Hcore as [= Hh _ Hi _]. unfold update. wp_value.
    split_and!; [|done|done]. apply sent_controller_inv; [exact (inv_quiet p _ Hcore Hp)|done].
Qed.

Lemma removeMessage_inv id p : inv p -> inv (put_inflight (delete id (px_inflight p)) p).
Proof.
  intros (Ht & Hl & Hi). split_and!; [exact Ht|exact Hl|]. simpl. intros i l [_ Hin]%lookup_delete_Some. eauto.
Qed.

Lemma addMessage_inv l m p :
  inv p -> px_heap p !! l = Some m -> legit identityID m -> inv (put_inflight (<[RequestID m := l]> (px_inflight p)) p).
Proof.
  intros (Ht & Hl & Hi) Hm Hleg. split_and!; [exact Ht|exact Hl|]. simpl.
  intros i l' [[<- <-]|[_ Hin]]%lookup_insert_Some; [by exists m|eauto].
Qed.

Lemma forward_keeps l m p : inv p -> px_heap p !! l = Some m -> legit identityID m -> keeps (forward l) p.
Proof.
  intros Hp Hm Hleg. unfold keeps, forward. apply wp_bind. unfold addMessage. apply wp_bind.
  eapply wp_deref; [done|]. cbn [bind_post]. unfold update. wp_value. cbn [bind_post].
  set (p1 := put_inflight _ p). assert (inv p1) as Hp1 by (by apply addMessage_inv).
  apply wp_bind. eapply wp_deref; [done|]. cbn [bind_post].
  apply wp_bind, wp_try. eapply wp_mono; [by apply writeController_wp|]. intros o p2 (Hp2 & _ & _).
  destruct o as [[]|err| |]; cbn [bind_post]; try done.
  apply quiet_keeps; [apply quiet_sendError|done|]. intros [] p3 _ Hp3.
  apply wp_bind. unfold removeMessage, update. wp_value. cbn [bind_post]. wp_value. by apply removeMessage_inv.
Qed.

Lemma addLoginMessage_inv c p : inv p -> holds_login p c -> inv (put_login (Some c) p).
Proof. intros (Ht & Hl & Hi) Hc. split_and!; [exact Ht| |exact Hi]. simpl. by intros l [= <-]. Qed.

Lemma client_step_keeps input p : inv p -> keeps (client_step identityID input) p.
Proof.
  intros Hp. destruct input as [[msg|]|un err]; simpl; [| |done].
  - apply quiet_keeps; [apply quiet_try, quiet_connect|done|]. intros [[]|err] p1 _ Hp1.
    + unfold keeps. apply wp_bind. unfold alloc. wp_value. cbn [bind_post].
      set (l := fresh _). set (p2 := put_heap _ p1).
      assert (inv p2) as Hp2 by (by apply inv_alloc).
      assert (px_heap p2 !! l = Some msg) as Hm by apply lookup_insert_eq. clearbody p2 l.
      apply quiet_keeps; [apply quiet_ignore, quiet_audit|done|]. intros [] p3 Hcore3 Hp3.
      rewrite <- (core_heap _ _ Hcore3) in Hm. destruct (decide (Type_ msg = "Admin")) as [Hadm|Hna].
      * unfold keeps. apply wp_bind, wp_try. eapply wp_mono; [by apply (handleAdminFacade_wp l msg)|].
        intros o p4 [Hp4 Ho]. destruct o as [[[c|] [c'|]]|err| |]; cbn [bind_post]; try done.
        -- apply quiet_keeps; [by intros p0; unfold wp, deref; destruct (px_heap p0 !! c)|done|].
           intros m p5 _ Hp5. by apply quiet_keeps; [apply quiet_sendMessage|done|].
        -- apply quiet_keeps; [by intros p0; unfold wp, deref; destruct (px_heap p0 !! c)|done|].
           intros m p5 _ Hp5. by apply quiet_keeps; [apply quiet_sendMessage|done|].
        -- apply wp_bind. unfold addLoginMessage, update. wp_value. cbn [bind_post].
           pose proof Ho as (m' & Hm' & Hlog & Hpar). apply (forward_keeps c' m'); [by apply addLoginMessage_inv|exact Hm'|intros _; exact Hpar].
        -- destruct Ho as [Hm4 Hreq]. apply (forward_keeps l msg); [done|done|]. by intros [_ ?].
        -- by apply quiet_keeps; [apply quiet_sendError|done|].
      * apply (forward_keeps l msg); [done|done|]. by intros [? _].
    + by apply quiet_keeps; [apply quiet_sendError|done|].
  - apply quiet_keeps; [apply quiet_try, quiet_connect|done|]. by intros [[]|err] p1 _ Hp1.
Qed.

(** *** The controller loop *)

Lemma handleError_wp m err p : inv p -> wp (handleError m err) (fun _ p' => inv p') p.
Proof.
  intros Hp. unfold handleError. apply quiet_step_wp; [apply quiet_sendError| |].
  - intros o p' Hcore _. exact (inv_quiet p _ Hcore Hp).
  - intros [] p' Hcore. unfold removeMessage, update. wp_value. apply removeMessage_inv. exact (inv_quiet p _ Hcore Hp).
Qed.

Lemma redoLogin_wp b perms p : inv p -> wp (redoLogin b perms) (fun _ p' => inv p') p.
Proof.
  intros Hp. unfold redoLogin. destruct b; [done|]. apply wp_bind. unfold getLoginMessage, get. apply wp_bind.
  wp_value. cbn [bind_post]. wp_value. cbn [bind_post]. destruct (px_login p) as [l|] eqn:Hl; [|done].
  pose proof Hp as (_ & Hlog & _). destruct (Hlog l Hl) as (m & Hm & Hil & Hpar). clear Hlog.
  apply wp_bind. unfold addJWT. apply wp_bind. eapply wp_deref; [done|]. cbn [bind_post]. apply wp_bind. wp_value.
  destruct (LoginRequest_unmarshal (Params m)) as [lr| | |]; cbn [bind_post]; try done.
  apply env_step_wp; [done| |].
  { intros o p' Hp' Ho. destruct o as [b| | |]; cbn [bind_post]; [by destruct (Ho b)|done..]. }
  intros jwt p1 e' Hjwt Hp1 Hh. unfold assign, update. wp_value. cbn [bind_post].
  set (m' := with_Params m _). set (p2 := put_heap _ p1).
  assert (legit_params identityID (Params m')) as Hpar'.
  { right; right. by exists lr, perms, jwt, (px_env p), e'. }
  assert (inv p2) as Hp2 by (apply (inv_assign p1 l m); [done|by rewrite Hh|done|intros _ _; split; [exact Hil|exact Hpar']|intros _ _; exact Hpar']).
  apply wp_bind. eapply wp_deref; [apply lookup_insert_eq|]. cbn [bind_post].
  eapply wp_mono; [apply writeController_wp; [done|by intros _]|]. by intros o p3 (? & _).
Qed.

Lemma processControllerErrors_wp msg p : inv p -> wp (processControllerErrors msg) (fun _ p' => inv p') p.
Proof.
  intros Hp. unfold processControllerErrors. apply wp_bind. unfold get. wp_value. cbn [bind_post].
  destruct (_ && _); [by wp_value|].
  assert (forall err p1, inv p1 -> wp (_ ← handleError msg err; mret (@None message)) (fun _ p' => inv p') p1) as Herr.
  { intros err p1 Hp1. apply wp_bind. eapply wp_mono; [by apply handleError_wp|]. by intros [] p2 Hp2. }
  destruct (checkPermissionsRequired msg) as [[perms|]|err| |]; try (by wp_value); [|by apply Herr].
  apply wp_bind, wp_try. eapply wp_mono; [by apply redoLogin_wp|]. intros o p1 Hp1.
  destruct o as [[]|err| |]; cbn [bind_post]; try done; [|by apply Herr].
  apply wp_bind. unfold getMessage, get. apply wp_bind. wp_value. cbn [bind_post]. wp_value. cbn [bind_post].
  destruct (px_inflight p1 !! RequestID msg) as [l|] eqn:Hl; [|by wp_value].
  pose proof Hp1 as (_ & _ & Hi). destruct (Hi _ _ Hl) as (m & Hm & _ & Hleg).
  apply wp_bind. eapply wp_deref; [done|]. cbn [bind_post]. unfold ignore.
  apply wp_bind, wp_bind, wp_try. eapply wp_mono; [by apply writeController_wp|]. intros o p2 (Hp2 & _).
  by destruct o as [[]|err| |].
Qed.

Lemma controller_step_keeps input p : inv p -> keeps (controller_step input) p.
Proof.
  intros Hp. destruct input as [m|un err]; simpl; [|done]. set (msg := default zeroMessage m).
  unfold keeps. apply wp_bind. eapply wp_mono; [by apply processControllerErrors_wp|]. intros o p1 Hp1.
  destruct o as [[msg1|]| | |]; cbn [bind_post]; try done.
  destruct (modifyControllerResponse msg1) as [msg2|err| |]; try done.
  - apply wp_bind. unfold removeMessage, update. wp_value. cbn [bind_post].
    apply quiet_keeps; [apply quiet_ignore, quiet_audit|by apply removeMessage_inv|]. intros [] p2 _ Hp2.
    apply quiet_keeps; [apply quiet_try, quiet_writeClient|done|]. by intros [[]|] p3 _ Hp3.
  - apply wp_bind. eapply wp_mono; [by apply handleError_wp|]. by intros [] p2 Hp2.
Qed.

Lemma connection_inv p : connection identityID p -> inv p.
Proof.
  intros [e Hr]. assert (inv (newProxy e)) as Hp0.
  { split_and!; simpl; [intros m Hm; by apply elem_of_nil in Hm|done|intros id l; by rewrite lookup_empty]. }
  revert Hp0. induction Hr as [|p p1 p2 Hs _ IH]; [done|]. intros Hp. apply IH. destruct Hs as [i p0 p' o Hs|i p0 p' o Hs|p0 e1].
  - exact (wp_elim _ _ _ _ _ (client_step_keeps i p0 Hp) Hs).
  - exact (wp_elim _ _ _ _ _ (controller_step_keeps i p0 Hp) Hs).
  - by eapply inv_quiet.
Qed.

(** C6.  On every connection, however the two loops interleave, whatever the
    client and the controller send and whatever the services outside answer,
    a login that reached the controller either is an anonymous login passed on
    as it came, or carries a token that the generator minted for a user whom the
    login service accepted with a session token, client credentials or the
    browser session of the connection, or is a login renewed with a token that
    the generator minted for permissions asked for.  No login with a user name and a password of the client passes. *)
Theorem logins_are_legitimate p m :
  connection identityID p -> m ∈ px_toController p -> is_login m -> legit_params identityID (Params m).
Proof. intros Hc Hin Hlog. by apply (proj1 (connection_inv p Hc) m). Qed.

(** Messages in flight are filed under their own number, and the object
    found there exists: a retried request is the request that was made. *)
Theorem inflight_filed p id l :
  connection identityID p -> px_inflight p !! id = Some l ->
  exists m, px_heap p !! l = Some m /\ RequestID m = id.
Proof.
  intros Hc Hl. destruct (connection_inv p Hc) as (_ & _ & Hi). destruct (Hi id l Hl) as (m & Hm & Hid & _). by exists m.
Qed.

End facts.

(** ** What the client sees *)

(** A message that does not tell the client where the controllers are. *)
Definition no_servers (m : message) : Prop :=
  forall fields, Response m = Some (JObj fields) -> "servers" ∉ fields.*1.

Section client_view.
Context {E : Type} `{ProxyEnv E} `{JujuApi} `{JujuNames}.
Context (identityID : string).
Implicit Types (p : proxy E) (m msg : message).

Definition clean p : Prop := forall m, m ∈ px_toClient p -> no_servers m.
Definition pres {A} (c : M (proxy E) A) : Prop := forall p, clean p -> wp c (fun _ p' => clean p') p.

Lemma pres_bind {A B} (c : M (proxy E) A) (k : A -> M (proxy E) B) : pres c -> (forall a, pres (k a)) -> pres (c ≫= k).
Proof.
  intros Hc Hk p Hp. apply wp_bind. eapply wp_mono; [by apply Hc|]. intros o p1 Hp1.
  destruct o as [a| | |]; cbn [bind_post]; try done. by apply Hk.
Qed.
Lemma pres_try {A} (c : M (proxy E) A) : pres c -> pres (try c).
Proof. intros Hc p Hp. apply wp_try. by eapply wp_mono; [apply Hc|]. Qed.
Lemma pres_map_err {A} f (c : M (proxy E) A) : pres c -> pres (map_err f c).
Proof. intros Hc p Hp. apply wp_map_err. by eapply wp_mono; [apply Hc|]. Qed.
Lemma pres_env {A} (c : M E A) : pres (envM c).
Proof. intros p Hp. unfold wp, envM, zoom. by destruct (c (px_env p)). Qed.
Lemma pres_update f : (forall p, px_toClient (f p) = px_toClient p) -> pres (update f).
Proof. intros Hf p Hp. unfold wp, update, clean. by rewrite Hf. Qed.
Lemma pres_pure {A} (c : M (proxy E) A) : (forall p, (c p).1 = p) -> pres c.
Proof. intros Hc p Hp. unfold wp. specialize (Hc p). destruct (c p). simpl in Hc. by subst. Qed.
Lemma pres_writeClient m : no_servers m -> pres (writeClient m).
Proof.
  intros Hm. apply pres_bind; [apply pres_env|]. intros [] p Hp m' Hin. simpl in Hin.
  apply elem_of_app in Hin as [Hin|Heq%list_elem_of_singleton]; [by apply Hp|by subst].
Qed.
Lemma pres_writeController m : pres (writeController m).
Proof. apply pres_bind; [apply pres_env|]. intros []. by apply pres_update. Qed.
Lemma pres_ignore {A} (c : M (proxy E) A) : pres c -> pres (ignore c).
Proof. intros Hc. apply pres_bind; [by apply pres_try|]. intros a. by apply pres_pure. Qed.
Lemma pres_deref l : pres (deref l).
Proof. by apply pres_pure. Qed.
Lemma pres_audit m b : pres (auditLogMessage m b).
Proof.
  apply pres_bind; [apply pres_env|]. intros user. apply pres_bind; [by apply pres_pure|]. intros p.
  destruct b; [|by apply pres_update]. apply pres_bind; [|intros errs; by apply pres_update].
  destruct (Response m); [apply pres_map_err|]; by apply pres_pure.
Qed.
Lemma pres_sendError m err : pres (sendError m err).
Proof.
  apply pres_bind; [apply pres_ignore, pres_writeClient; done|]. intros []. apply pres_ignore, pres_audit.
Qed.
Lemma pres_alloc m : pres (alloc m).
Proof. by intros p Hp. Qed.

#[local] Hint Resolve pres_bind pres_try pres_map_err pres_env pres_writeController pres_ignore pres_deref pres_audit
  pres_sendError pres_alloc : proxy.
#[local] Hint Extern 1 (pres (update _)) => apply pres_update; done : proxy.
#[local] Hint Extern 2 (pres _) => apply pres_pure; done : proxy.

Lemma pres_connect : pres makeControllerConnection.
Proof.
  apply pres_bind; [auto with proxy|]. intros p. destruct (px_dialled p); [auto with proxy|].
  apply pres_bind; [auto with proxy|]. intros [|]; auto with proxy.
Qed.

Lemma pres_forward l : pres (forward l).
Proof.
  apply pres_bind; [unfold addMessage; auto with proxy|]. intros []. apply pres_bind; [auto with proxy|]. intros m.
  apply pres_bind; [auto with proxy|]. intros [|]; unfold removeMessage; auto 6 with proxy.
Qed.

Lemma pres_controllerLogin l u : pres (controllerLoginMessage l u).
Proof. unfold controllerLoginMessage. auto 8 with proxy. Qed.

Lemma pres_handleLegacyLogin l : pres (handleLegacyLogin l).
Proof.
  apply pres_bind; [auto with proxy|]. intros msg. apply pres_bind; [auto with proxy|]. intros lr.
  destruct (juju_ParseTag (AuthTag lr)) as [tag| | |]; try (by apply pres_pure).
  destruct (decide _); [destruct (decide _); auto with proxy|]. destruct (decide _); auto with proxy.
Qed.

Definition response_post (o : outcome (option nat * option nat)) p' : Prop :=
  clean p' /\ forall c c', o = Ok (Some c, c') -> exists m, px_heap p' !! c = Some m /\ no_servers m.

Lemma pres_none (c : M (proxy E) nat) p :
  pres c -> clean p -> wp (c ≫= fun c => mret (None, Some c)) response_post p.
Proof.
  intros Hc Hp. apply wp_bind. eapply wp_mono; [by apply Hc|]. intros o p1 Hp1.
  destruct o; cbn [bind_post]; by split.
Qed.

Lemma env_response {A} (c : M E A) (k : A -> M (proxy E) (option nat * option nat)) p :
  clean p -> (forall a p', clean p' -> wp (k a) response_post p') -> wp (envM c ≫= k) response_post p.
Proof.
  intros Hp Hk. apply wp_bind. eapply wp_mono; [by apply pres_env|]. intros o p1 Hp1.
  destruct o; cbn [bind_post]; [by apply Hk|by split..].
Qed.

Lemma lift_response {A} (o : outcome A) (k : A -> M (proxy E) (option nat * option nat)) p :
  clean p -> (forall a, wp (k a) response_post p) -> wp (lift o ≫= k) response_post p.
Proof. intros Hp Hk. apply wp_bind. wp_value. destruct o; cbn [bind_post]; [apply Hk|by split..]. Qed.

Lemma handleAdminFacade_clean l p :
  clean p -> wp (handleAdminFacade identityID l) response_post p.
Proof.
  intros Hp. unfold handleAdminFacade. apply wp_bind. eapply wp_mono; [by apply pres_deref|].
  intros o p1 Hp1. destruct o as [m| | |]; cbn [bind_post]; try by split. clear p Hp.
  assert (forall p data, clean p -> (forall fields, data = JObj fields -> "servers" ∉ fields.*1) ->
    wp (_ ← assign l (with_Response m data); mret (Some l, None)) response_post p) as Hresp.
  { intros p data Hp Hd. apply wp_bind. unfold assign, update. wp_value. cbn [bind_post]. wp_value. split; [done|].
    intros c c' [= <- <-]. eexists. simpl. rewrite lookup_insert_eq. split; [done|]. intros fields [= ->]. by apply Hd. }
  destruct (decide (Request m = "LoginDevice")).
  { apply env_response; [done|]. intros d p2 Hp2. apply wp_bind. unfold update at 1. wp_value. cbn [bind_post].
    apply Hresp; [done|]. intros fields [= <-]. simpl. set_solver. }
  destruct (decide (Request m = "GetDeviceSessionToken")).
  { apply wp_bind. unfold get. wp_value. cbn [bind_post]. apply env_response; [done|]. intros t p2 Hp2.
    apply Hresp; [done|]. intros fields [= <-]. simpl. set_solver. }
  destruct (decide (Request m = "LoginWithSessionToken")).
  { apply lift_response; [done|]. intros t. apply env_response; [done|]. intros u p2 Hp2. apply pres_none; [apply pres_controllerLogin|done]. }
  destruct (decide (Request m = "LoginWithClientCredentials")).
  { apply lift_response; [done|]. intros i. apply lift_response; [done|]. intros sec. apply env_response; [done|].
    intros u p2 Hp2. apply pres_none; [apply pres_controllerLogin|done]. }
  destruct (decide (Request m = "LoginWithSessionCookie")).
  { apply env_response; [done|]. intros u p2 Hp2. apply pres_none; [apply pres_controllerLogin|done]. }
  destruct (decide (Request m = "Login")).
  { apply pres_none; [apply pres_handleLegacyLogin|done]. }
  wp_value. by split.
Qed.

Lemma client_step_clean input p : clean p -> wp (client_step identityID input) (fun _ p' => clean p') p.
Proof.
  intros Hp. destruct input as [m|un err]; simpl; [|done]. apply wp_bind.
  eapply wp_mono; [apply pres_try; [apply pres_connect|done]|]. intros o p1 Hp1.
  destruct o as [[[]|err]| | |]; cbn [bind_post]; try done.
  2: { destruct m; [|done]. apply wp_bind. eapply wp_mono; [by apply pres_sendError|]. by intros []. }
  destruct m as [msg|]; [|done]. apply wp_bind. eapply wp_mono; [by apply pres_alloc|]. intros o p2 Hp2.
  destruct o as [l| | |]; cbn [bind_post]; try done. apply wp_bind.
  eapply wp_mono; [apply pres_ignore; [apply pres_audit|done]|]. intros o p3 Hp3.
  destruct o as [[]| | |]; cbn [bind_post]; try done. destruct (decide _); [|by apply pres_forward].
  apply wp_bind, wp_try. eapply wp_mono; [by apply handleAdminFacade_clean|]. intros o p4 [Hp4 Ho].
  destruct o as [[[c|] c']|err| |]; cbn [bind_post]; try done.
  - destruct (Ho c c' eq_refl) as (m & Hm & Hns). apply wp_bind. eapply wp_deref; [done|]. cbn [bind_post].
    apply wp_bind. eapply wp_mono; [apply pres_ignore; [apply pres_writeClient|done]|]; [exact Hns|]. by intros [].
  - destruct c' as [c'|]; [|by apply pres_forward]. apply wp_bind. unfold addLoginMessage, update. wp_value.
    cbn [bind_post]. by apply pres_forward.
  - apply wp_bind. eapply wp_mono; [by apply pres_sendError|]. by intros [].
Qed.

Lemma modified_no_servers msg msg' : modifyControllerResponse msg = Ok msg' -> no_servers msg'.
Proof.
  unfold modifyControllerResponse. destruct (Response msg) as [[| | | | |fields]|]; try done.
  - intros [= <-] fields Hf. by simplify_eq.
  - simpl. intros [= <-] fields' [= <-] Hin. apply list_elem_of_fmap in Hin as ([k v] & Hk & Hin).
    apply list_elem_of_filter in Hin as [Hne _]. by simpl in *.
Qed.

Lemma pres_redoLogin b perms : pres (redoLogin b perms).
Proof.
  unfold redoLogin. destruct b; [auto with proxy|]. apply pres_bind; [unfold getLoginMessage; auto with proxy|].
  intros [l|]; [|auto with proxy]. apply pres_bind; [unfold addJWT, assign; auto 8 with proxy|]. auto with proxy.
Qed.

Lemma pres_handleError m err : pres (handleError m err).
Proof. unfold handleError, removeMessage. auto with proxy. Qed.

Lemma pres_process msg : pres (processControllerErrors msg).
Proof.
  apply pres_bind; [auto with proxy|]. intros p. cbv zeta. destruct (_ && _); [auto with proxy|].
  assert (forall err, pres (_ ← handleError msg err; mret (@None message))) as Herr.
  { intros err. apply pres_bind; [apply pres_handleError|auto with proxy]. }
  destruct (checkPermissionsRequired msg) as [[perms|]|err| |]; try (by apply pres_pure); [|apply Herr].
  apply pres_bind; [apply pres_try, pres_redoLogin|]. intros [[]|err]; [|apply Herr].
  apply pres_bind; [unfold getMessage; auto with proxy|]. intros [l|]; auto with proxy.
Qed.

Lemma controller_step_clean input p : clean p -> wp (controller_step input) (fun _ p' => clean p') p.
Proof.
  intros Hp. destruct input as [m|un err]; simpl; [|done]. apply wp_bind.
  eapply wp_mono; [by apply pres_process|]. intros o p1 Hp1.
  destruct o as [[msg1|]| | |]; cbn [bind_post]; try done.
  destruct (modifyControllerResponse msg1) as [msg2|err| |] eqn:Hmod; try done.
  - apply wp_bind. unfold removeMessage, update. wp_value. cbn [bind_post].
    apply wp_bind. eapply wp_mono; [apply pres_ignore; [apply pres_audit|done]|]. intros o p2 Hp2.
    destruct o as [[]| | |]; cbn [bind_post]; try done. apply wp_bind.
    eapply wp_mono; [apply pres_try; [apply pres_writeClient|done]|]; [by eapply modified_no_servers|].
    by intros [[[]|]| | |].
  - apply wp_bind. eapply wp_mono; [by apply pres_handleError|]. by intros [].
Qed.

(** On every connection, whatever the controller sends, no message that
    reaches the client has a [servers] entry in its response, so that a client
    never learns the addresses of the controllers from a login result and
    cannot bypass JIMM. *)
Theorem servers_never_reach_client p m fields :
  connection identityID p -> m ∈ px_toClient p -> Response m = Some (JObj fields) -> "servers" ∉ fields.*1.
Proof.
  intros [e Hr] Hin. assert (clean p) as Hc; [|by apply (Hc m Hin)]. clear m fields Hin.
  assert (clean (newProxy e)) as Hp0 by (intros m Hm; by apply elem_of_nil in Hm).
  revert Hp0. induction Hr as [|p p1 p2 Hs _ IH]; [done|]. intros Hp. apply IH.
  destruct Hs as [i p0 p' o Hs|i p0 p' o Hs|p0 e1]; [| |done].
  - exact (wp_elim _ _ _ _ _ (client_step_clean i p0 Hp) Hs).
  - exact (wp_elim _ _ _ _ _ (controller_step_clean i p0 Hp) Hs).
Qed.

End client_view.

(** ** Requests are served *)

(** A call that returns: with a result or with an error. *)
Definition returned {A} (o : outcome A) : Prop := (exists a, o = Ok a) \/ exists err, o = Err err.
Definition returning {E A} (c : M E A) : Prop := forall e, returned (c e).2.

(** Services that return, sockets that work, users with valid names. *)
Class ProxyEnvLaws (E : Type) `{ProxyEnv E} `{JujuApi} `{JujuNames} := {
  ret_MakeLoginToken u : returning (tg_MakeLoginToken u);
  ret_MakeToken ps : returning (tg_MakeToken ps);
  ret_GetUser : returning tg_GetUser;
  ret_LoginDevice : returning ls_LoginDevice;
  ret_GetDeviceSessionToken d : returning (ls_GetDeviceSessionToken d);
  ret_LoginClientCredentials i s : returning (ls_LoginClientCredentials i s);
  ret_LoginWithSessionToken t : returning (ls_LoginWithSessionToken t);
  ret_LoginWithSessionCookie i : returning (ls_LoginWithSessionCookie i);
  ret_GetRedirectInfo : returning ri_GetRedirectInfo;
  ret_WriteClient m e : (ws_WriteClient m e).2 = Ok tt;
  ret_WriteController m e : (ws_WriteController m e).2 = Ok tt;
  ret_LoginRequest raw : returned (LoginRequest_unmarshal raw);
  ret_ErrorResults raw : returned (ErrorResults_unmarshal raw);
  ret_ParseTag t : returned (juju_ParseTag t);
  valid_users identityID u : accepted_user identityID u -> IsValidUser (u_Name u) = true;
}.

Section service.
Context {E : Type} `{ProxyEnvLaws E}.
Context (identityID : string).
Implicit Types (p : proxy E) (m msg : message).

(** Everything but the services, the audit log and the device response. *)
Definition view p := (core p, px_toClient p, px_dialled p, px_conn p).

(** Operations that return and send nothing. *)
Definition silent {A} (c : M (proxy E) A) : Prop :=
  forall p, wp c (fun o p' => returned o /\ view p' = view p) p.

Lemma silent_bind {A B} (c : M (proxy E) A) (k : A -> M (proxy E) B) :
  silent c -> (forall a, silent (k a)) -> silent (c ≫= k).
Proof.
  intros Hc Hk p. apply wp_bind. eapply wp_mono; [apply Hc|]. intros o p1 [[[a ->]|[err ->]] Hv]; cbn [bind_post].
  - eapply wp_mono; [apply Hk|]. intros o2 p2 [Ho2 Hv2]. split; [done|congruence].
  - split; [right; by eexists|done].
Qed.
Lemma silent_env {A} (c : M E A) : returning c -> silent (envM c).
Proof. intros Hc p. unfold wp, envM, zoom. specialize (Hc (px_env p)). destruct (c (px_env p)). done. Qed.
Lemma silent_update f : (forall p, view (f p) = view p) -> silent (update f).
Proof. intros Hf p. unfold wp, update. split; [left; by eexists|apply Hf]. Qed.
Lemma silent_lift {A} (o : outcome A) : returned o -> silent (lift o).
Proof. intros Ho p. by wp_value. Qed.
Lemma silent_map_err {A} f (c : M (proxy E) A) : silent c -> silent (map_err f c).
Proof.
  intros Hc p. apply wp_map_err. eapply wp_mono; [apply Hc|].
  intros o p1 [[[a ->]|[err ->]] Hv]; (split; [|done]); [left|right]; by eexists.
Qed.
Lemma silent_get : silent (get (E:=E)).
Proof. intros p. unfold wp, get. split; [left; by eexists|done]. Qed.
Lemma silent_ret {A} (a : A) : silent (mret a).
Proof. intros p. wp_value. split; [left; by eexists|done]. Qed.

Lemma silent_audit m b : silent (auditLogMessage m b).
Proof.
  apply silent_bind; [apply silent_env, ret_GetUser|]. intros user. apply silent_bind; [apply silent_get|]. intros p.
  destruct b; [|by apply silent_update]. apply silent_bind; [|intros errs; by apply silent_update].
  destruct (Response m); [apply silent_map_err, silent_lift, ret_ErrorResults|apply silent_ret].
Qed.

(** The audit log never stops a message. *)
Lemma audit_wp m b p : wp (ignore (auditLogMessage m b)) (fun o p' => o = Ok tt /\ view p' = view p) p.
Proof.
  apply wp_bind, wp_try. eapply wp_mono; [apply silent_audit|]. by intros o p1 [[[a ->]|[err ->]] Hv].
Qed.

Lemma writeClient_wp m p :
  wp (writeClient m) (fun o p' => o = Ok tt /\ core p' = core p /\ px_toClient p' = px_toClient p ++ [m] /\
    px_dialled p' = px_dialled p) p.
Proof.
  apply wp_bind. unfold wp at 1, envM, zoom. pose proof (ret_WriteClient m (px_env p)) as Hw.
  destruct (ws_WriteClient m (px_env p)) as [e o]. simpl in Hw. subst o. cbn [bind_post]. done.
Qed.

Lemma writeController_ok m p :
  wp (writeController m) (fun o p' => o = Ok tt /\ px_toClient p' = px_toClient p /\
    px_toController p' = px_toController p ++ [m] /\ px_heap p' = px_heap p /\ px_inflight p' = px_inflight p) p.
Proof.
  apply wp_bind. unfold wp at 1, envM, zoom. pose proof (ret_WriteController m (px_env p)) as Hw.
  destruct (ws_WriteController m (px_env p)) as [e o]. simpl in Hw. subst o. cbn [bind_post]. done.
Qed.

Lemma sendError_wp m err p :
  wp (sendError m err) (fun o p' => o = Ok tt /\ core p' = core p /\
    px_toClient p' = px_toClient p ++ [createErrResponse err m]) p.
Proof.
  unfold sendError. apply wp_bind. unfold ignore at 1. apply wp_bind, wp_try.
  eapply wp_mono; [apply writeClient_wp|]. intros o p1 (-> & Hc & Ht & _). cbn [bind_post].
  wp_value. cbn [bind_post]. eapply wp_mono; [apply audit_wp|]. intros o p2 [-> Hv].
  injection Hv as Hh Hl Hi Hto Htc _ _. split_and!; [done| |congruence]. unfold core in *. congruence.
Qed.

(** How a request was served. *)
Definition answered_client p msg p' : Prop :=
  exists r, px_toClient p' = px_toClient p ++ [r] /\ RequestID r = RequestID msg /\
    px_toController p' = px_toController p.
Definition forwarded p msg p' : Prop :=
  exists m l, px_toController p' = px_toController p ++ [m] /\ RequestID m = RequestID msg /\
    px_toClient p' = px_toClient p /\ px_inflight p' !! RequestID msg = Some l /\ px_heap p' !! l = Some m.
Definition served p msg (o : outcome control) p' : Prop :=
  o = Ok Continue /\ (answered_client p msg p' \/ forwarded p msg p').

(** Nothing was sent since [p]. *)
Definition unsent p p' : Prop := px_toClient p' = px_toClient p /\ px_toController p' = px_toController p.

Lemma view_unsent p p' : view p' = view p -> unsent p p'.
Proof. by intros [= _ _ _ Ht Hc _ _]. Qed.
Lemma unsent_trans p p1 p2 : unsent p p1 -> unsent p1 p2 -> unsent p p2.
Proof. unfold unsent. intros [] []. split; congruence. Qed.

Lemma served_error p msg err p1 :
  unsent p p1 -> wp (_ ← sendError msg err; mret Continue) (served p msg) p1.
Proof.
  intros [Hc Ht]. apply wp_bind. eapply wp_mono; [apply sendError_wp|]. intros o p2 (-> & Hcore & Htc).
  cbn [bind_post]. wp_value. split; [done|]. left. eexists. injection Hcore as _ _ _ Hto.
  split_and!; [by rewrite Htc, Hc|done|congruence].
Qed.

Lemma forward_served p msg l m p1 :
  unsent p p1 -> px_heap p1 !! l = Some m -> RequestID m = RequestID msg -> wp (forward l) (served p msg) p1.
Proof.
  intros [Hc Ht] Hm Hid. unfold forward. apply wp_bind. unfold addMessage. apply wp_bind.
  eapply wp_deref; [done|]. cbn [bind_post]. unfold update. wp_value. cbn [bind_post].
  apply wp_bind. eapply wp_deref; [done|]. cbn [bind_post]. apply wp_bind, wp_try.
  eapply wp_mono; [apply writeController_ok|]. intros o p2 (-> & Htc & Hto & Hh & Hi). cbn [bind_post]. wp_value.
  split; [done|]. right. exists m, l. rewrite Hh, Hi, Htc, Hto, <- Hid. simpl. rewrite lookup_insert_eq.
  split_and!; congruence.
Qed.

(** What [handleAdminFacade] returns for a request in the object [l]. *)
Definition admin_served p msg l (o : outcome (option nat * option nat)) p' : Prop :=
  returned o /\ unsent p p' /\
  match o with
  | Ok (Some c, _) | Ok (None, Some c) => exists m, px_heap p' !! c = Some m /\ RequestID m = RequestID msg
  | Ok (None, None) => px_heap p' !! l = Some msg
  | _ => True
  end.

Lemma admin_silent {A} (c : M (proxy E) A) (k : A -> M (proxy E) (option nat * option nat)) p0 msg l p :
  silent c -> px_heap p !! l = Some msg -> unsent p0 p ->
  (forall a p' , px_heap p' !! l = Some msg -> unsent p0 p' -> view p' = view p -> wp c (fun o _ => o = Ok a) p ->
     wp (k a) (admin_served p0 msg l) p') ->
  wp (c ≫= k) (admin_served p0 msg l) p.
Proof.
  intros Hc Hm Hu Hk. apply wp_bind, wp_run. intros p1 o Hrun.
  destruct (wp_elim _ _ _ _ _ (Hc p) Hrun) as [[[a ->]|[err ->]] Hv]; cbn [bind_post].
  - apply Hk; [|by eapply unsent_trans, view_unsent|done|unfold wp; by rewrite Hrun].
    injection Hv as Hh _ _ _ _ _ _. by rewrite Hh.
  - split_and!; [right; by eexists|by eapply unsent_trans, view_unsent|done].
Qed.

Lemma respond_served p0 msg l p data :
  px_heap p !! l = Some msg -> unsent p0 p ->
  wp (_ ← assign l (with_Response msg data); mret (Some l, None)) (admin_served p0 msg l) p.
Proof.
  intros Hm Hu. apply wp_bind. unfold assign, update. wp_value. cbn [bind_post]. wp_value.
  split_and!; [left; by eexists|done|]. eexists. simpl. by rewrite lookup_insert_eq.
Qed.

Lemma controllerLogin_served p0 msg l p u :
  px_heap p !! l = Some msg -> unsent p0 p -> IsValidUser (u_Name u) = true ->
  wp (c ← controllerLoginMessage l u; mret (None, Some c)) (admin_served p0 msg l) p.
Proof.
  intros Hm Hu Hv. apply wp_bind.
  unfold controllerLoginMessage. apply wp_bind. eapply wp_mono; [apply silent_env, ret_MakeLoginToken|].
  intros o p1 [[[jwt ->]|[err ->]] Hvw]; cbn [bind_post];
    [|split_and!; [right; by eexists|by eapply unsent_trans, view_unsent|done]].
  unfold NewUserTag. rewrite Hv. apply wp_bind. wp_value. cbn [bind_post]. apply wp_bind.
  eapply wp_deref; [injection Hvw as Hh _ _ _ _ _ _; by rewrite Hh|]. cbn [bind_post]. unfold alloc. wp_value.
  cbn [bind_post]. wp_value. split_and!; [left; by eexists|exact (unsent_trans p0 p p1 Hu (view_unsent _ _ Hvw))|].
  eexists. simpl. by rewrite lookup_insert_eq.
Qed.

Lemma legacy_served p0 msg l p :
  px_heap p !! l = Some msg -> unsent p0 p ->
  wp (c ← handleLegacyLogin l; mret (None, Some c)) (admin_served p0 msg l) p.
Proof.
  intros Hm Hu. apply wp_bind. unfold handleLegacyLogin. apply wp_bind. eapply wp_deref; [done|]. cbn [bind_post].
  apply wp_bind. wp_value. destruct (ret_LoginRequest (Params msg)) as [[lr Hlr]|[err Hlr]]; rewrite Hlr; cbn [bind_post];
    [|split_and!; [right; by eexists|done|done]].
  assert (forall err p', unsent p0 p' -> admin_served p0 msg l (Err err) p') as Hfail.
  { intros err p' Hu'. split_and!; [right; by eexists|done|done]. }
  destruct (ret_ParseTag (AuthTag lr)) as [[tag Ht]|[err Ht]]; rewrite Ht; [|wp_value; by apply Hfail].
  destruct (decide _); [destruct (decide _); [|wp_value; by apply Hfail]|destruct (decide _); [|wp_value; by apply Hfail]].
  - apply wp_bind. unfold update. wp_value. cbn [bind_post]. wp_value. cbn [bind_post]. wp_value.
    split_and!; [left; by eexists|done|]. by exists msg.
  - apply wp_bind, wp_map_err. eapply wp_mono; [apply silent_env, ret_GetRedirectInfo|].
    intros o p1 [[[d ->]|[err ->]] Hv]; cbn [bind_post]; wp_value; cbn [bind_post];
      (apply Hfail; by eapply unsent_trans, view_unsent).
Qed.

Lemma user_step p0 msg l (c : M E User) p :
  (forall u e e', c e = (e', Ok u) -> accepted_user identityID u) -> returning c ->
  px_heap p !! l = Some msg -> unsent p0 p ->
  wp (u ← envM c; c ← controllerLoginMessage l u; mret (None, Some c)) (admin_served p0 msg l) p.
Proof.
  intros Hacc Hret Hm Hu. apply admin_silent; [by apply silent_env|done|done|].
  intros u p1 Hm1 Hu1 _ Hok. apply controllerLogin_served; [done|done|].
  apply (valid_users identityID). unfold wp, envM, zoom in Hok.
  destruct (c (px_env p)) as [e' o] eqn:Hc. subst o. by eapply Hacc.
Qed.

Lemma unmarshal_field_returned name raw : returned (unmarshal_field name raw).
Proof.
  assert (forall fields cur, returned (string_field name fields cur)) as Hf.
  { induction fields as [|[k v] fields IH]; intros cur; simpl; [left; by eexists|].
    destruct (decide _); [|apply IH]. destruct v; try apply IH; right; by eexists. }
  destruct raw as [[| | | | |fields]|]; simpl; try (right; by eexists); [left; by eexists|apply Hf].
Qed.

Lemma handleAdminFacade_served p0 msg l p :
  px_heap p !! l = Some msg -> unsent p0 p ->
  wp (handleAdminFacade identityID l) (admin_served p0 msg l) p.
Proof.
  intros Hm Hu. unfold handleAdminFacade. apply wp_bind. eapply wp_deref; [done|]. cbn [bind_post].
  destruct (decide (Request msg = "LoginDevice")).
  { apply admin_silent; [apply silent_env, ret_LoginDevice|done|done|]. intros d p1 Hm1 Hu1 _ _.
    apply wp_bind. unfold update at 1. wp_value. cbn [bind_post]. by apply respond_served. }
  destruct (decide (Request msg = "GetDeviceSessionToken")).
  { apply wp_bind. unfold get. wp_value. cbn [bind_post].
    apply admin_silent; [apply silent_env, ret_GetDeviceSessionToken|done|done|]. intros t p1 Hm1 Hu1 _ _.
    by apply respond_served. }
  destruct (decide (Request msg = "LoginWithSessionToken")).
  { apply admin_silent; [apply silent_lift, unmarshal_field_returned|done|done|]. intros t p1 Hm1 Hu1 _ _.
    apply user_step; [|apply ret_LoginWithSessionToken|done|done]. intros u en en' Hl. exists en, en'. left. by exists t. }
  destruct (decide (Request msg = "LoginWithClientCredentials")).
  { apply admin_silent; [apply silent_lift, unmarshal_field_returned|done|done|]. intros i p1 Hm1 Hu1 _ _.
    apply admin_silent; [apply silent_lift, unmarshal_field_returned|done|done|]. intros sec p2 Hm2 Hu2 _ _.
    apply user_step; [|apply ret_LoginClientCredentials|done|done].
    intros u en en' Hl. exists en, en'. right; left. by exists i, sec. }
  destruct (decide (Request msg = "LoginWithSessionCookie")).
  { apply user_step; [|apply ret_LoginWithSessionCookie|done|done]. intros u en en' Hl. exists en, en'. by right; right. }
  destruct (decide (Request msg = "Login")); [by apply legacy_served|].
  wp_value. split_and!; [left; by eexists|done|done].
Qed.

Lemma client_step_served msg p :
  px_dialled p = true -> wp (client_step identityID (ReadMsg (Some msg))) (served p msg) p.
Proof.
  intros Hd. simpl. apply wp_bind, wp_try. unfold makeControllerConnection. apply wp_bind. unfold get at 1. wp_value.
  cbn [bind_post]. rewrite Hd. wp_value. cbn [bind_post]. apply wp_bind. unfold alloc. wp_value. cbn [bind_post].
  set (l := fresh _). set (p1 := put_heap _ p).
  assert (px_heap p1 !! l = Some msg) as Hm by apply lookup_insert_eq. assert (unsent p p1) as Hu by done. clearbody p1 l.
  apply wp_bind. eapply wp_mono; [apply audit_wp|]. intros o p2 [-> Hv]. cbn [bind_post].
  assert (unsent p p2) as Hu2 by (by eapply unsent_trans, view_unsent).
  assert (px_heap p2 !! l = Some msg) as Hm2 by (injection Hv as Hh _ _ _ _ _ _; by rewrite Hh).
  destruct (decide _); [|by apply (forward_served p msg l msg)].
  apply wp_bind, wp_try. eapply wp_mono; [by apply (handleAdminFacade_served p msg l)|].
  intros o p3 (Hret & Hu3 & Ho). destruct Hret as [[[[c|] c'] ->]|[err ->]]; cbn [bind_post]; [| |by apply served_error].
  - destruct Ho as (m & Hc & Hid). apply wp_bind. eapply wp_deref; [done|]. cbn [bind_post].
    apply wp_bind. unfold sendMessage, ignore. apply wp_bind, wp_try. eapply wp_mono; [apply writeClient_wp|].
    intros o p4 (-> & Hcore & Htc & _). cbn [bind_post]. wp_value. cbn [bind_post]. wp_value. split; [done|]. left.
    injection Hcore as _ _ _ Hto. destruct Hu3 as [H3c H3t]. eexists. split_and!; [by rewrite Htc, H3c|done|congruence].
  - destruct c' as [c'|].
    + destruct Ho as (m & Hc & Hid). apply wp_bind. unfold addLoginMessage, update. wp_value. cbn [bind_post].
      by apply (forward_served p msg c' m).
    + by apply (forward_served p msg l msg).
Qed.


(** How the controller loop ends with a response: the client is told, and the
    request is no longer in flight; or the login was renewed and the request,
    if it is in flight, sent again. *)
Definition told_client p msg p' : Prop :=
  answered_client p msg p' /\ px_inflight p' = delete (RequestID msg) (px_inflight p).
Definition retried p msg p' : Prop :=
  px_toClient p' = px_toClient p /\ px_inflight p' = px_inflight p /\
  exists login rest, px_toController p' = px_toController p ++ login :: rest /\
    match px_inflight p !! RequestID msg with
    | Some l => exists m, px_heap p' !! l = Some m /\ rest = [m]
    | None => rest = []
    end.

Lemma told_error msg err p p1 :
  unsent p p1 -> px_inflight p1 = px_inflight p ->
  wp (handleError msg err) (fun o p' => o = Ok tt /\ told_client p msg p') p1.
Proof.
  intros [Hc Ht] Hi. unfold handleError. apply wp_bind. eapply wp_mono; [apply sendError_wp|].
  intros o p2 (-> & Hcore & Htc). cbn [bind_post]. unfold removeMessage, update. wp_value. split; [done|].
  injection Hcore as _ _ Hin Hto. split; [|simpl; congruence]. eexists. simpl.
  split_and!; [by rewrite Htc, Hc|done|congruence].
Qed.

Lemma redoLogin_served perms p :
  px_inv identityID p ->
  wp (redoLogin false perms) (fun o p' => returned o /\ px_toClient p' = px_toClient p /\
    px_inflight p' = px_inflight p /\ (forall l, is_Some (px_heap p !! l) -> is_Some (px_heap p' !! l)) /\
    match o with
    | Ok _ => exists login, px_toController p' = px_toController p ++ [login]
    | _ => px_toController p' = px_toController p
    end) p.
Proof.
  intros (_ & Hlog & _). unfold redoLogin. apply wp_bind. unfold getLoginMessage. apply wp_bind. unfold get. wp_value.
  cbn [bind_post]. wp_value. cbn [bind_post]. destruct (px_login p) as [l|] eqn:Hl;
    [|wp_value; split_and!; [right; by eexists|done..]].
  destruct (Hlog l eq_refl) as (m & Hm & _). apply wp_bind. unfold addJWT. apply wp_bind. eapply wp_deref; [done|].
  cbn [bind_post]. apply wp_bind. wp_value.
  destruct (ret_LoginRequest (Params m)) as [[lr Hlr]|[err Hlr]]; rewrite Hlr; cbn [bind_post];
    [|split_and!; [right; by eexists|done..]].
  apply wp_bind. eapply wp_mono; [apply silent_env, ret_MakeToken|].
  intros o p1 [[[jwt ->]|[err ->]] Hv]; injection Hv as Hh _ Hi Hto Htc _ _; cbn [bind_post];
    [|split_and!; [right; by eexists|done|done|by rewrite Hh|done]].
  unfold assign, update. wp_value. cbn [bind_post]. apply wp_bind. eapply wp_deref; [apply lookup_insert_eq|].
  cbn [bind_post]. eapply wp_mono; [apply writeController_ok|]. intros o p2 (-> & Htc2 & Hto2 & Hh2 & Hi2). simpl in *.
  split_and!; [left; by eexists|congruence|congruence| |].
  - intros l' Hl'. rewrite Hh2, Hh. destruct (decide (l = l')) as [->|]; [rewrite lookup_insert_eq; by eexists|].
    by rewrite lookup_insert_ne.
  - eexists. by rewrite Hto2, Hto.
Qed.

Lemma checkPermissionsRequired_returned msg : returned (checkPermissionsRequired msg).
Proof.
  assert (forall info acc, returned (infoPermissions info acc)) as Hi.
  { induction info as [|[k []] info IH]; intros acc; simpl; try (right; by eexists); [left; by eexists|apply IH]. }
  assert (forall rs acc, returned (bulkPermissions rs acc)) as Hb.
  { induction rs as [|[e|] rs IH]; intros acc; simpl; [left; by eexists| |apply IH].
    destruct (decide _); [|apply IH]. destruct (Hi (je_Info e) acc) as [[a ->]|[err ->]]; simpl; [apply IH|right; by eexists]. }
  unfold checkPermissionsRequired. destruct (decide _); [left; by eexists|].
  destruct (Response msg) as [r|]; [|left; by eexists].
  destruct (ret_ErrorResults r) as [[rs ->]|[err ->]]; [apply Hb|left; by eexists].
Qed.

Definition process_post p msg (o : outcome (option message)) p' : Prop :=
  match o with
  | Ok (Some m) => RequestID m = RequestID msg /\ p' = p
  | Ok None => told_client p msg p' \/ retried p msg p'
  | _ => False
  end.

Lemma process_served msg p : px_inv identityID p -> wp (processControllerErrors msg) (process_post p msg) p.
Proof.
  intros Hinv. unfold processControllerErrors. apply wp_bind. unfold get. wp_value. cbn [bind_post].
  destruct (_ && _); [by wp_value|].
  assert (forall err p1, unsent p p1 -> px_inflight p1 = px_inflight p ->
    wp (_ ← handleError msg err; mret (@None message)) (process_post p msg) p1) as Herr.
  { intros err p1 Hu Hi. apply wp_bind. eapply wp_mono; [by apply told_error|]. intros o p2 [-> Ht].
    cbn [bind_post]. wp_value. by left. }
  destruct (checkPermissionsRequired_returned msg) as [[[perms|] ->]|[err ->]]; [|by wp_value|by apply Herr].
  apply wp_bind, wp_try. eapply wp_mono; [by apply redoLogin_served|].
  intros o p1 (Hret & Htc & Hi & Hheap & Ho). destruct Hret as [[[] ->]|[err ->]]; cbn [bind_post];
    [|by apply Herr].
  destruct Ho as [login Hto]. apply wp_bind. unfold getMessage, get. apply wp_bind. wp_value. cbn [bind_post].
  wp_value. cbn [bind_post]. destruct (px_inflight p1 !! RequestID msg) as [l|] eqn:Hl.
  - destruct Hinv as (_ & _ & Hfl). rewrite Hi in Hl. destruct (Hfl _ _ Hl) as (m0 & Hm0 & _).
    destruct (Hheap l) as [m Hm]; [by eexists|]. apply wp_bind. eapply wp_deref; [done|]. cbn [bind_post].
    apply wp_bind. unfold ignore. apply wp_bind, wp_try. eapply wp_mono; [apply writeController_ok|].
    intros o p2 (-> & Htc2 & Hto2 & Hh2 & Hi2). cbn [bind_post]. wp_value. cbn [bind_post]. wp_value. right.
    split_and!; [congruence|congruence|]. exists login, [m]. rewrite Hto2, Hto, <- app_assoc. split; [done|].
    rewrite Hl. exists m. by rewrite Hh2.
  - wp_value. right. split_and!; [done|done|]. exists login, []. split; [done|]. by rewrite <- Hi, Hl.
Qed.


(** A client that sends the JSON value [null] on an established
    connection makes the client loop dereference a nil pointer: the message is
    read through a pointer to the pointer, which [null] sets to nil.  The
    panic is not recovered, so it takes down the whole process. *)
Theorem null_message_panics p :
  px_dialled p = true -> (client_step identityID (ReadMsg None) p).2 = Panic "nil pointer dereference".
Proof.
  intros Hd. simpl. unfold try, makeControllerConnection, mbind, M_bind, get. rewrite Hd. done.
Qed.

(** The refusal of a new login for anonymous clients never happens: the
    flag that the client loop sets is not the one that the controller loop
    reads.  When the controller asks an anonymous connection for more
    permissions and the generator still holds a user of an earlier login, the
    anonymous login message is sent again with a token of that user. *)
Theorem anonymous_login_renewed p msg l m lr perms jwt e' :
  px_anonymous p = true -> px_login p = Some l -> px_heap p !! l = Some m ->
  (forall c, px_conn p = Some c -> MigrationMode c = "") -> checkPermissionsRequired msg = Ok (Some perms) ->
  LoginRequest_unmarshal (Params m) = Ok lr -> tg_MakeToken perms (px_env p) = (e', Ok jwt) ->
  with_Params m (LoginRequest_marshal (with_Token lr (b64_encode jwt)))
    ∈ px_toController (controller_step (ReadMsg (Some msg)) p).1.
Proof.
  intros _ Hl Hm Hconn Hperm Hlr Hjwt. simpl. unfold processControllerErrors, mbind, M_bind, get.
  assert (bool_decide (match px_conn p with Some c => MigrationMode c | None => "" end
    ∈ [MigrationModeMigrateInternal; MigrationModeExporting]) = false) as ->.
  { destruct (px_conn p) as [c|]; [rewrite (Hconn c eq_refl)|]; done. }
  rewrite Hperm. simpl. unfold redoLogin, getLoginMessage, get, try, mbind, M_bind, mret, M_ret. rewrite Hl.
  unfold addJWT, deref, lift, mbind, M_bind. rewrite Hm, Hlr. unfold envM at 1, zoom at 1. rewrite Hjwt.
  unfold assign, update. simpl. rewrite lookup_insert_eq. unfold writeController, mbind, M_bind, envM, zoom, update. simpl.
  set (login := with_Params m _).
  pose proof (ret_WriteController login e') as Hw. destruct (ws_WriteController login e') as [e2 o2]. simpl in Hw. subst o2.
  unfold getMessage, get, mbind, M_bind, mret, M_ret. simpl.
  destruct (px_inflight p !! RequestID msg) as [l2|]; simpl; [|set_solver].
  unfold ignore, try, mbind, M_bind, mret, M_ret.
  destruct (<[l:=login]> (px_heap p) !! l2) as [m2|]; simpl; [|set_solver].
  destruct (ws_WriteController m2 e2) as [e3 [[]| | |]]; simpl; set_solver.
Qed.

End service.

End Proxy.
