(* ===== verification/RpcDial.v ===== *)
(** * RpcDial: how a controller is reached ([internal/rpc/dial.go],
    [multitransport.go] and the addresses of [httpproxy.go]).

    Module [Dial]: the addresses of a controller, and the dialling of all of
    them at once: every goroutine ends with a connection or an error, in an
    order that nobody controls.  Module [Transport]: the HTTP transport that
    tries the backends one after the other, starting after the one that
    answered last.  The base transport and [url.JoinPath] are the class
    [Backends]. *)

From S2P Require Import Prelude Errors.

Module Dial.

(** ** Addresses *)

(** [jujuparams.HostPort] and [network.MachineHostPort]. *)
Record HostPort := MkHostPort { hp_Value : string; hp_Type : string; hp_Scope : string; hp_Port : Z }.
Definition ScopeCloudLocal := "local-cloud".
Definition ScopePublic := "public".
Definition IPv6Address := "ipv6".

Definition maybeReachable (scope : string) : bool :=
  bool_decide (scope = ScopeCloudLocal) || bool_decide (scope = ScopePublic) || bool_decide (scope = "").

Definition address (hp : HostPort) : string :=
  if decide (hp_Type hp = IPv6Address) then sprintf "[%s]:%d" [ArgS (hp_Value hp); ArgD (hp_Port hp)]
  else sprintf "%s:%d" [ArgS (hp_Value hp); ArgD (hp_Port hp)].

Definition reachable (hps : list (list HostPort)) : list string :=
  address <$> List.filter (fun hp => maybeReachable (hp_Scope hp)) (mjoin hps).

(** The TLS configuration: the certificates and the name of the server. *)
Record tlsConfig := MkTLS { RootCAs : string; ServerName : string }.
Definition tls_of (caCertificate tlsHostname : string) : option tlsConfig :=
  if decide (caCertificate = "") then None else Some (MkTLS caCertificate tlsHostname).

Definition GetAddressesAndTLSConfig (caCertificate tlsHostname publicAddress : string) (addresses : list (list HostPort))
  : list string * option tlsConfig :=
  ((if decide (publicAddress = "") then [] else [publicAddress]) ++ reachable addresses, tls_of caCertificate tlsHostname).

(** ** Dialling all addresses *)

Section dial.
Context {Conn : Type}.

Record dialling := MkDialling { dl_res : option Conn; dl_err : option gerror; dl_closed : list Conn }.

(** A goroutine has dialled: the first connection is kept, the later ones are
    closed, the first error is kept. *)
Definition dialled (st : dialling) (r : Conn + gerror) : dialling :=
  match r with
  | inr e => MkDialling (dl_res st) (match dl_err st with None => Some e | old => old end) (dl_closed st)
  | inl conn =>
      match dl_res st with
      | None => MkDialling (Some conn) (dl_err st) (dl_closed st)
      | Some _ => MkDialling (dl_res st) (dl_err st) (dl_closed st ++ [conn])
      end
  end.

(** The results of the goroutines in the order in which they end, and what is
    returned when all have ended: the connection and the error. *)
Definition dialAllHelper (results : list (Conn + gerror)) : (option Conn * option gerror) * list Conn :=
  let st := foldl dialled (MkDialling None None []) results in
  match dl_res st with
  | Some conn => (Some conn, None, dl_closed st)
  | None => (None, dl_err st, dl_closed st)
  end.

Definition dialAll (urls : list string) (results : list (Conn + gerror)) : (option Conn * option gerror) * list Conn :=
  if decide (urls = []) then (None, Some (New "no urls to dial"), []) else dialAllHelper results.

Definition conns (results : list (Conn + gerror)) : list Conn :=
  omap (fun r => match r with inl c => Some c | inr _ => None end) results.
Definition errs (results : list (Conn + gerror)) : list gerror :=
  omap (fun r => match r with inl _ => None | inr e => Some e end) results.

Lemma foldl_dialled results st :
  foldl dialled st results =
    MkDialling (match dl_res st with Some c => Some c | None => head (conns results) end)
      (match dl_err st with Some e => Some e | None => head (errs results) end)
      (dl_closed st ++ match dl_res st with Some _ => conns results | None => tail (conns results) end).
Proof.
  revert st. induction results as [|[c|e] results IH]; intros [res er cl]; simpl.
  - destruct res, er; simpl; by rewrite app_nil_r.
  - rewrite IH. destruct res; simpl; [by rewrite <- app_assoc|done].
  - rewrite IH. by destruct er.
Qed.

(** Dialling all addresses of a controller at once, in whatever order the
    attempts end, returns the first connection that was made and closes every
    other one; it fails only when all attempts failed, with the first of their
    errors, or when there was nothing to dial, and never returns nothing. *)
Theorem dialAll_keeps_one urls results :
  length results = length urls ->
  let '(conn, err, closed) := dialAll urls results in
  match conn with
  | Some c => err = None /\ conns results = c :: closed
  | None => conns results = [] /\ closed = [] /\ is_Some err /\ (urls <> [] -> err = head (errs results))
  end.
Proof.
  intros Hl. unfold dialAll. case_decide as Hu.
  - subst urls. destruct results; [|done]. by split_and!.
  - unfold dialAllHelper. rewrite foldl_dialled. simpl. destruct (conns results) as [|c cs] eqn:Hc; simpl; [|done].
    split_and!; [done|done| |done]. destruct results as [|[c|e] results]; [by destruct urls|done|]. simpl. eauto.
Qed.
End dial.
End Dial.

Module Transport.

(** ** The transport over several backends *)

Class Backends (E : Type) := {
  url : Type;
  request : Type;
  response : Type;
  JoinPath : url -> request -> request + gerror; (* the request with the address of the backend *)
  has_body : request -> bool;
  (* the answer, and whether something has been read from the body *)
  base_RoundTrip : request -> E -> E * ((response + gerror) * bool);
}.

Section transport.
Context {E : Type} `{Backends E}.

Record multiBackendTransport := MkTransport { urls : list url; currentURLIndex : nat }.

Definition newMultiBackendTransport (us : list url) : outcome multiBackendTransport :=
  if decide (length us = 0%nat) then Err (New "no backend URLs configured") else Ok (MkTransport us 0).

Definition nonRetryable (e : gerror) : gerror := Errorf "non-retryable backend failure during request: %w" [ArgE e].
Definition allFailed (e : option gerror) : gerror :=
  match e with
  | Some e => Errorf "all backends failed, last error: %w" [ArgE e]
  | None => New "all backends failed, last error: %!w(<nil>)"
  end.

(** The state: the transport, whether the body has been read, and the world. *)
Record ts := MkTs { ts_index : nat; ts_didRead : bool; ts_env : E }.

Fixpoint RoundTrip_loop (us : list url) (start i n : nat) (req : request) (lastErr : option gerror) : M ts response :=
  match n with
  | 0%nat => throw (allFailed lastErr)
  | S n => fun s =>
      let urlIndex := ((start + i) mod length us)%nat in
      match us !! urlIndex with
      | None => (s, Panic "runtime error: index out of range")
      | Some target =>
          match JoinPath target req with
          | inr e => RoundTrip_loop us start (S i) n req (Some e) s
          | inl clonedReq =>
              let '(env, (r, read)) := base_RoundTrip clonedReq (ts_env s) in
              let didRead := ts_didRead s || read in
              match r with
              | inl resp => (MkTs ((urlIndex + 1) mod length us) didRead env, Ok resp)
              | inr e =>
                  if has_body req && didRead then (MkTs (ts_index s) didRead env, Err (nonRetryable e))
                  else RoundTrip_loop us start (S i) n req (Some e) (MkTs (ts_index s) didRead env)
              end
          end
      end
  end.

Definition RoundTrip (t : multiBackendTransport) (req : request) (env : E) : (multiBackendTransport * bool * E) * outcome response :=
  let '(s, o) := RoundTrip_loop (urls t) (currentURLIndex t) 0 (length (urls t)) req None (MkTs (currentURLIndex t) false env) in
  ((MkTransport (urls t) (ts_index s), ts_didRead s, ts_env s), o).

(** *** A reference: the backends in the order in which they are tried *)

Definition rotation (us : list url) (start : nat) : list nat := seq start (length us - start) ++ seq 0 start.

Fixpoint try_each (us : list url) (order : list nat) (req : request) (lastErr : option gerror) : M ts response :=
  match order with
  | [] => throw (allFailed lastErr)
  | k :: order => fun s =>
      match us !! k with
      | None => (s, Panic "runtime error: index out of range")
      | Some target =>
          match JoinPath target req with
          | inr e => try_each us order req (Some e) s
          | inl clonedReq =>
              let '(env, (r, read)) := base_RoundTrip clonedReq (ts_env s) in
              let didRead := ts_didRead s || read in
              match r with
              | inl resp => (MkTs ((k + 1) mod length us) didRead env, Ok resp)
              | inr e =>
                  if has_body req && didRead then (MkTs (ts_index s) didRead env, Err (nonRetryable e))
                  else try_each us order req (Some e) (MkTs (ts_index s) didRead env)
              end
          end
      end
  end.

Lemma RoundTrip_loop_each us start i n req e s :
  RoundTrip_loop us start i n req e s = try_each us ((fun k => (start + k) mod length us)%nat <$> seq i n) req e s.
Proof.
  revert i e s. induction n as [|n IH]; intros i e s; [done|]. simpl.
  destruct (us !! _) as [target|]; [|done]. destruct (JoinPath target req) as [q|e']; [|apply IH].
  destruct (base_RoundTrip q (ts_env s)) as [env [[resp|e'] read]]; [done|]. destruct (has_body req && _); [done|apply IH].
Qed.

Lemma rotation_mod us start : (start < length us)%nat ->
  (fun k => (start + k) mod length us)%nat <$> seq 0 (length us) = rotation us start.
Proof.
  intros Hs. unfold rotation. apply list_eq. intros k. rewrite list_lookup_fmap.
  destruct (decide (k < length us)%nat) as [Hk|Hk].
  - rewrite lookup_seq_lt by done. simpl. destruct (decide (start + k < length us)%nat).
    + rewrite lookup_app_l by (rewrite length_seq; lia). rewrite lookup_seq_lt by lia. rewrite Nat.mod_small by lia. done.
    + rewrite lookup_app_r by (rewrite length_seq; lia). rewrite length_seq, lookup_seq_lt by lia.
      rewrite Nat.Div0.mod_eq. f_equal.
      assert ((start + k) / length us = 1)%nat as -> by (symmetry; apply (Nat.div_unique _ _ 1 (start + k - length us)); lia). lia.
  - rewrite lookup_seq_ge by lia. rewrite lookup_ge_None_2; [done|]. rewrite length_app, !length_seq. lia.
Qed.

Lemma try_each_index us order req e s s' o :
  try_each us order req e s = (s', o) -> (ts_index s < length us)%nat -> (forall k, k ∈ order -> (k < length us)%nat) ->
  (ts_index s' < length us)%nat /\ o <> OutOfFuel /\ forall p, o <> Panic p.
Proof.
  revert e s. induction order as [|k order IH]; intros e s Hrun Hs Hin; simpl in Hrun; [injection Hrun as <- <-; by split_and!|].
  assert (k < length us)%nat as Hk by (apply Hin; by left).
  assert (forall j, j ∈ order -> (j < length us)%nat) as Hin' by (intros j Hj; apply Hin; by right).
  destruct (lookup_lt_is_Some_2 us k Hk) as [target Ht]. rewrite Ht in Hrun.
  destruct (JoinPath target req) as [q|e']; [|by eapply IH].
  destruct (base_RoundTrip q (ts_env s)) as [env [[resp|e'] read]].
  - injection Hrun as <- <-. split_and!; [|done|done]. apply Nat.mod_upper_bound. lia.
  - destruct (has_body req && _); [injection Hrun as <- <-; by split_and!|]. by eapply IH.
Qed.

(** A request over several backends tries every backend at most once, in
    turn from the one after the backend that answered last, stops at the first
    answer or at the first failure after which the body cannot be sent again,
    and leaves an index that is again in range: the loop with its modulus is
    the walk along [rotation]. *)
Theorem RoundTrip_in_turn t req env :
  (currentURLIndex t < length (urls t))%nat ->
  RoundTrip t req env =
    (let '(s, o) := try_each (urls t) (rotation (urls t) (currentURLIndex t)) req None (MkTs (currentURLIndex t) false env) in
     ((MkTransport (urls t) (ts_index s), ts_didRead s, ts_env s), o)) /\
  NoDup (rotation (urls t) (currentURLIndex t)) /\
  (currentURLIndex (RoundTrip t req env).1.1.1 < length (urls t))%nat /\
  (RoundTrip t req env).2 <> OutOfFuel /\ forall p, (RoundTrip t req env).2 <> Panic p.
Proof.
  intros Hi. assert (forall k, k ∈ rotation (urls t) (currentURLIndex t) -> (k < length (urls t))%nat) as Hin.
  { intros k. unfold rotation. rewrite elem_of_app, !elem_of_seq. lia. }
  assert (RoundTrip t req env = (let '(s, o) := try_each (urls t) (rotation (urls t) (currentURLIndex t)) req None
      (MkTs (currentURLIndex t) false env) in ((MkTransport (urls t) (ts_index s), ts_didRead s, ts_env s), o))) as E1.
  { unfold RoundTrip. by rewrite RoundTrip_loop_each, rotation_mod. }
  split; [done|]. split.
  - unfold rotation. apply NoDup_app. split_and!; [apply NoDup_seq| |apply NoDup_seq]. intros k. rewrite !elem_of_seq. lia.
  - rewrite E1. destruct (try_each _ _ _ _ _) as [s' o] eqn:Hrun. simpl. by eapply try_each_index.
Qed.
End transport.
End Transport.
