(* ===== verification/Versions.v ===== *)
(** * Versions: the supported versions of Juju
    ([internal/jimm/juju/supportedversions.go]).

    The releases of Juju are read from GitHub page by page, filtered, sorted
    and kept for ten minutes.  GitHub and the clock are the class [Releases];
    the version library is the class [JujuVersion] with its text and tag in
    [VersionText].  The world is the cache with the state of the outside. *)

From stdpp Require Import sorting.
From S2P Require Import Prelude Errors GoStrings Regexp Names.

Module Versions.

Class VersionText `{JujuVersion} := {
  version_String : Number -> string;
  version_Tag : Number -> string;
  version_eq :: EqDecision Number;
}.

(** Versions are ordered, and the text of a version is a version. *)
Class VersionLaws `{VersionText} := {
  compare_sym : forall a b, (0 <= version_Compare a b <-> version_Compare b a <= 0)%Z;
  compare_trans : forall a b c, (0 <= version_Compare a b -> 0 <= version_Compare b c -> 0 <= version_Compare a c)%Z;
  parse_text : forall s v, version_Parse s = Ok v -> version_Parse (version_String v) = Ok v;
}.

Record RepositoryRelease := MkRelease {
  Draft : bool; Prerelease : bool; TagName : string; PublishedOn : string; HTMLURL : string;
}.
Record VersionElem := MkElem { ve_Version : string; ve_Date : string; ve_LinkToRelease : string }.

(** A page of releases, whose entries are pointers, with the number of the
    next page. *)
Class Releases (E : Type) := {
  ListReleases : Z -> E -> E * ((list (option RepositoryRelease) * Z) + gerror);
  now : E -> E * Z;
  last_page : E -> Z;
}.

(** Page numbers go up to the last page. *)
Class ReleasesLaws (E : Type) `{Releases E} := {
  law_next : forall page env env' rs next, ListReleases page env = (env', inl (rs, next)) -> next = 0%Z \/ (page < next <= last_page env)%Z;
  law_last : forall page env, last_page (ListReleases page env).1 = last_page env;
}.

Section versions.
Context `{VersionText} {E : Type} `{Releases E}.

(** [MustParse] panics on a text that is no version. *)
Definition MustParse (s : string) : outcome Number :=
  match version_Parse s with Ok v => Ok v | _ => Panic "invalid version" end.

Definition minSupportedVersion := "3.6.5".
Definition blacklistedVersions : outcome (list Number) :=
  a ← MustParse "4.0.0"; b ← MustParse "4.0.1"; c ← MustParse "4.0.2"; mret [a; b; c].

Definition stableVersion (tag : string) : option Number :=
  match version_Parse (TrimPrefix (TrimSpace tag) "v") with
  | Ok v => if decide (version_Tag v <> "") then None else Some v
  | _ => None
  end.

(** The entry of a release that is kept. *)
Definition keyedRelease (minV : Number) (blacklist : list Number) (r : option RepositoryRelease) : option (Number * VersionElem) :=
  match r with
  | None => None
  | Some release =>
      if Draft release || Prerelease release then None else
      match stableVersion (TagName release) with
      | None => None
      | Some v =>
          if (version_Compare v minV <? 0)%Z then None
          else if decide (v ∈ blacklist) then None
          else Some (v, MkElem (version_String v) (PublishedOn release) (HTMLURL release))
      end
  end.

(** [sort.Slice] with the greater version first; the order of equal versions
    is not specified by the library. *)
Fixpoint insert_version (x : Number * VersionElem) (l : list (Number * VersionElem)) : list (Number * VersionElem) :=
  match l with
  | [] => [x]
  | y :: l' => if (0 <? version_Compare y.1 x.1)%Z then y :: insert_version x l' else x :: l
  end.
Definition sort_versions (l : list (Number * VersionElem)) : list (Number * VersionElem) := foldr insert_version [] l.

(** The loop over the pages. *)
Fixpoint fetch_loop (fuel : nat) (minV : Number) (blacklist : list Number) (page : Z) (keyed : list (Number * VersionElem))
  : M E (list (Number * VersionElem)) :=
  match fuel with
  | 0%nat => diverge
  | S fuel => fun env =>
      match ListReleases page env with
      | (env', inr err) => (env', Err (Errorf "fetching juju releases from GitHub: %w" [ArgE err]))
      | (env', inl (repoReleases, nextPage)) =>
          let keyed := keyed ++ omap (keyedRelease minV blacklist) repoReleases in
          if decide (nextPage = 0%Z) then (env', Ok keyed) else fetch_loop fuel minV blacklist nextPage keyed env'
      end
  end.

Definition fetchReleasesFromGitHub (fuel : nat) : M E (list VersionElem) :=
  minV ← lift (MustParse minSupportedVersion);
  blacklist ← lift blacklistedVersions;
  keyed ← fetch_loop fuel minV blacklist 1 [];
  mret (snd <$> sort_versions keyed).

(** ** The cache *)

Record cacheGithubResponse := MkCache { exp : option Z; entries : list VersionElem }.
Definition noCache : cacheGithubResponse := MkCache None [].
Definition releasesCacheTTL : Z := 10 * 60 * 1000000000.

Definition outside {A} (m : M E A) : M (cacheGithubResponse * E) A := zoom snd (fun env w => (w.1, env)) m.
Definition time_now : M (cacheGithubResponse * E) Z := outside (fun env => let '(env', t) := now env in (env', Ok t)).
Definition put_cache (c : cacheGithubResponse) : M (cacheGithubResponse * E) unit := fun w => ((c, w.2), Ok tt).
Definition get_cache : M (cacheGithubResponse * E) cacheGithubResponse := fun w => (w, Ok w.1).

(** The zero time lies in the past. *)
Definition fetchReleasesWithCache (fuel : nat) : M (cacheGithubResponse * E) (list VersionElem) :=
  t ← time_now;
  cache ← get_cache;
  if match exp cache with Some e => (t <? e)%Z | None => false end then mret (entries cache) else
  releases ← outside (fetchReleasesFromGitHub fuel);
  t' ← time_now;
  _ ← put_cache (MkCache (Some (t' + releasesCacheTTL)%Z) releases);
  mret releases.

Definition filterByMinVersion (releases : list VersionElem) (minVersion : option Number) : list VersionElem :=
  match minVersion with
  | None => releases
  | Some minV => List.filter (fun r => match version_Parse (ve_Version r) with Ok v => (0 <? version_Compare v minV)%Z | _ => false end) releases
  end.

Definition SupportedVersions (fuel : nat) (minVersion : option string) : M (cacheGithubResponse * E) (list VersionElem) :=
  parsed ← match minVersion with
           | None => mret None
           | Some s => v ← map_err (fun err => Errorf "invalid min version %q: %w" [ArgS s; ArgE err]) (lift (version_Parse s)); mret (Some v)
           end;
  releases ← fetchReleasesWithCache fuel;
  mret (filterByMinVersion releases parsed).

(** ** What may be listed *)

Context `{!VersionLaws}.

Definition newest_first (l : list VersionElem) : Prop :=
  exists vs, Forall2 (fun e v => version_Parse (ve_Version e) = Ok v) l vs /\ StronglySorted (fun a b => (0 <= version_Compare a b)%Z) vs.

Definition supported (e : VersionElem) : Prop :=
  exists v minV blacklist, version_Parse (ve_Version e) = Ok v /\ version_Tag v = "" /\ MustParse minSupportedVersion = Ok minV /\
    blacklistedVersions = Ok blacklist /\ (0 <= version_Compare v minV)%Z /\ v ∉ blacklist.

Definition list_ok (l : list VersionElem) : Prop := newest_first l /\ Forall supported l.

Lemma compare_le a b : (~ 0 < version_Compare a b -> 0 <= version_Compare b a)%Z.
Proof. intros Hn. apply compare_sym. lia. Qed.

Definition version_ge (x y : Number * VersionElem) : Prop := (0 <= version_Compare x.1 y.1)%Z.

Lemma insert_version_perm x l : insert_version x l ≡ₚ x :: l.
Proof.
  induction l as [|y l IH]; [done|]. simpl. case_match; [|done]. etrans; [by apply Permutation_skip|apply Permutation_swap].
Qed.

Lemma sort_versions_perm l : sort_versions l ≡ₚ l.
Proof. induction l as [|x l IH]; [done|]. simpl. by rewrite insert_version_perm, IH. Qed.

Lemma insert_version_sorted x l : StronglySorted version_ge l -> StronglySorted version_ge (insert_version x l).
Proof.
  induction 1 as [|y l Hs IH Hy]; simpl; [repeat constructor|]. case_match eqn:Hc.
  - constructor; [done|]. rewrite insert_version_perm. constructor; [unfold version_ge; lia|done].
  - assert (version_ge x y) as Hxy by (apply compare_le; lia). constructor; [by constructor|]. constructor; [done|].
    eapply Forall_impl; [done|]. intros z Hz. by eapply compare_trans.
Qed.

Lemma sort_versions_sorted l : StronglySorted version_ge (sort_versions l).
Proof. induction l as [|x l IH]; [constructor|]. by apply insert_version_sorted. Qed.

(** An entry that is kept is of a supported version. *)
Definition entry_ok (x : Number * VersionElem) : Prop := version_Parse (ve_Version x.2) = Ok x.1 /\ supported x.2.

Lemma keyedRelease_ok minV blacklist r x :
  MustParse minSupportedVersion = Ok minV -> blacklistedVersions = Ok blacklist ->
  keyedRelease minV blacklist r = Some x -> entry_ok x.
Proof.
  intros Hm Hb Hk. destruct r as [release|]; [|done]. simpl in Hk. destruct (Draft release || Prerelease release); [done|].
  unfold stableVersion in Hk. destruct (version_Parse _) as [v|e|p|] eqn:Hp; try done. case_decide as Ht; [done|].
  destruct (version_Compare v minV <? 0)%Z eqn:Hc; [done|]. case_decide as Hbl; [done|]. injection Hk as <-.
  apply parse_text in Hp. split; [done|]. exists v, minV, blacklist. split_and!; [done| |done|done|lia|done].
  by destruct (decide (version_Tag v = "")); [|destruct Ht].
Qed.

Lemma entries_list_ok l : StronglySorted version_ge l -> Forall entry_ok l -> list_ok (snd <$> l).
Proof.
  intros Hs Hok. split.
  - exists (fst <$> l). split.
    + apply Forall2_fmap_2, Forall_Forall2_diag. eapply Forall_impl; [done|]. by intros x [].
    + clear Hok. induction Hs as [|x l Hs IH Hx]; simpl; constructor; [done|]. apply Forall_fmap. exact Hx.
  - apply Forall_fmap. eapply Forall_impl; [done|]. by intros x [].
Qed.

(** The pages that a run of the loop has read. *)
Inductive pages_read : Z -> E -> list (list (option RepositoryRelease)) -> E -> Prop :=
| last_read page env env' rs : ListReleases page env = (env', inl (rs, 0%Z)) -> pages_read page env [rs] env'
| next_read page env env1 rs next pages env' :
    ListReleases page env = (env1, inl (rs, next)) -> next <> 0%Z -> pages_read next env1 pages env' -> pages_read page env (rs :: pages) env'.

Lemma fetch_loop_reads fuel minV blacklist page keyed env env' o :
  fetch_loop fuel minV blacklist page keyed env = (env', o) ->
  match o with
  | Ok all => exists pages, pages_read page env pages env' /\ all = keyed ++ omap (keyedRelease minV blacklist) (mjoin pages)
  | Panic _ => False
  | _ => True
  end.
Proof.
  revert page keyed env. induction fuel as [|fuel IH]; intros page keyed env Hrun; simpl in Hrun; [by injection Hrun as <- <-|].
  destruct (ListReleases page env) as [env1 [[rs next]|err]] eqn:Hl; [|by injection Hrun as <- <-]. case_decide as Hz.
  - injection Hrun as <- <-. subst next. exists [rs]. split; [by constructor|]. simpl. by rewrite app_nil_r.
  - apply IH in Hrun. destruct o as [all|e|p|]; try done. destruct Hrun as (pages & Hp & ->). exists (rs :: pages).
    split; [by econstructor|]. simpl. by rewrite omap_app, app_assoc.
Qed.

Context `{!ReleasesLaws E}.

Lemma fetch_loop_ends fuel minV blacklist page keyed env :
  (last_page env - page < Z.of_nat fuel)%Z -> (0 < fuel)%nat -> (fetch_loop fuel minV blacklist page keyed env).2 <> OutOfFuel.
Proof.
  revert page keyed env. induction fuel as [|fuel IH]; intros page keyed env Hf Hpos; [lia|]. simpl.
  destruct (ListReleases page env) as [env1 [[rs next]|err]] eqn:Hl; [|done]. case_decide as Hz; [done|].
  pose proof (law_last page env) as Hlast. rewrite Hl in Hlast. simpl in Hlast.
  destruct (law_next _ _ _ _ _ Hl) as [?|Hn]; [done|]. apply IH; rewrite ?Hlast; lia.
Qed.

(** The pages are read from the first one, and every release on them that
    may be listed is. *)
Lemma fetchReleases_wp fuel env :
  (last_page env <= Z.of_nat fuel)%Z -> (0 < fuel)%nat ->
  wp (fetchReleasesFromGitHub fuel) (fun o env' =>
    o <> OutOfFuel /\
    match o with
    | Ok l => list_ok l /\ exists pages minV blacklist, MustParse minSupportedVersion = Ok minV /\ blacklistedVersions = Ok blacklist /\
        pages_read 1 env pages env' /\ l ≡ₚ snd <$> omap (keyedRelease minV blacklist) (mjoin pages)
    | _ => True
    end) env.
Proof.
  intros Hf Hpos. unfold fetchReleasesFromGitHub. apply wp_bind, wp_lift.
  destruct (MustParse minSupportedVersion) as [minV|e|p|] eqn:Hm; cbn [bind_post]; [|done|done|].
  2: { unfold MustParse in Hm. by destruct (version_Parse _). }
  apply wp_bind, wp_lift. destruct blacklistedVersions as [bl|e|p|] eqn:Hb; cbn [bind_post]; [|done|done|].
  2: { unfold blacklistedVersions, MustParse in Hb. destruct (version_Parse "4.0.0"), (version_Parse "4.0.1"), (version_Parse "4.0.2"); done. }
  apply wp_bind. pose proof (fetch_loop_ends fuel minV bl 1 [] env ltac:(lia) Hpos) as Hend. unfold wp at 1.
  destruct (fetch_loop fuel minV bl 1 [] env) as [env' o] eqn:Hrun. apply fetch_loop_reads in Hrun. simpl in Hend.
  destruct o as [keyed|e|p|]; cbn [bind_post]; [|done..]. destruct Hrun as (pages & Hp & ->). simpl. wp_value. split; [done|]. split.
  - apply entries_list_ok; [apply sort_versions_sorted|]. rewrite sort_versions_perm. apply Forall_forall. intros x Hx.
    apply list_elem_of_omap in Hx as (r & _ & Hr). by eapply keyedRelease_ok.
  - exists pages, minV, bl. split_and!; [done|done|done|]. by rewrite sort_versions_perm.
Qed.

Lemma filter_newest_first (p : VersionElem -> bool) l : newest_first l -> newest_first (List.filter p l).
Proof.
  intros (vs & Hv & Hs). revert Hs. induction Hv as [|e v l vs Hev Hv IH]; intros Hs; simpl; [exists []; by repeat constructor|].
  apply StronglySorted_inv in Hs as [Hs Hall]. destruct (IH Hs) as (ws & Hw & Hws). destruct (p e); [|by exists ws].
  exists (v :: ws). split; [by constructor|]. constructor; [done|]. apply Forall_forall. intros w Hin.
  apply list_elem_of_lookup in Hin as [k Hk]. destruct (Forall2_lookup_r _ _ _ _ _ Hw Hk) as (e' & He' & Hp').
  assert (e' ∈ l) as Hel by (apply list_elem_of_lookup_2 in He'; by apply list_elem_of_In, filter_In, proj1, list_elem_of_In in He').
  apply list_elem_of_lookup in Hel as [j Hj]. destruct (Forall2_lookup_l _ _ _ _ _ Hv Hj) as (v' & Hv' & Hpv).
  assert (v' = w) as -> by congruence. eapply Forall_lookup_1 in Hall; [|done]. done.
Qed.

Lemma filterByMinVersion_ok l minV : list_ok l ->
  list_ok (filterByMinVersion l minV) /\
  forall m, minV = Some m -> Forall (fun e => exists v, version_Parse (ve_Version e) = Ok v /\ (0 < version_Compare v m)%Z) (filterByMinVersion l minV).
Proof.
  intros [Hn Hs]. destruct minV as [m|]; simpl; [|by split]. split.
  - split; [by apply filter_newest_first|]. apply Forall_forall. intros e He. apply list_elem_of_In, filter_In in He as [He _].
    rewrite Forall_forall in Hs. by apply Hs, list_elem_of_In.
  - intros m' [= <-]. apply Forall_forall. intros e He. apply list_elem_of_In, filter_In in He as [_ He].
    destruct (version_Parse (ve_Version e)) as [v|?|?|] eqn:Hv; [|done..]. exists v. split; [done|lia].
Qed.

Definition fetched_post cache env (o : outcome (list VersionElem)) (w' : cacheGithubResponse * E) : Prop :=
  list_ok (entries w'.1) /\ o <> OutOfFuel /\ (forall l, o = Ok l -> list_ok l) /\
  (forall e, exp cache = Some e -> ((now env).2 < e)%Z -> w' = (cache, (now env).1)).

Lemma fetchReleasesWithCache_wp fuel cache env :
  list_ok (entries cache) -> (last_page env <= Z.of_nat fuel)%Z -> (0 < fuel)%nat -> last_page (now env).1 = last_page env ->
  wp (fetchReleasesWithCache fuel) (fetched_post cache env) (cache, env).
Proof.
  intros Hc Hf Hpos Hnow. unfold fetchReleasesWithCache. apply wp_bind. unfold wp at 1, time_now, outside, zoom. simpl.
  destruct (now env) as [env1 t] eqn:Ht. simpl in Hnow. cbn [bind_post]. apply wp_bind. unfold wp at 1, get_cache. cbn [bind_post fst].
  destruct (match exp cache with Some e => (t <? e)%Z | None => false end) eqn:Hcached.
  { wp_value. split_and!; [done|done|by intros l [= <-]|]. intros. by rewrite Ht. }
  assert (forall (w' : cacheGithubResponse * E) e, exp cache = Some e -> ((now env).2 < e)%Z -> w' = (cache, (now env).1)) as Hno.
  { intros w' e He. rewrite He in Hcached. rewrite Ht. simpl. lia. }
  apply wp_bind, wp_zoom. eapply wp_mono; [apply fetchReleases_wp; simpl; lia|]. intros [l|e|p|] env2 [Hfuel Ho]; cbn [bind_post]; [|split_and!; [done|done|done|apply Hno]..].
  destruct Ho as [Hl _]. apply wp_bind. unfold wp at 1, outside, zoom. simpl. destruct (now env2) as [env3 t']. cbn [bind_post].
  apply wp_bind. unfold wp at 1, put_cache. cbn [bind_post]. wp_value. split_and!; [done|done|by intros l' [= <-]|apply Hno].
Qed.

Definition supported_post minVersion cache env (o : outcome (list VersionElem)) (w' : cacheGithubResponse * E) : Prop :=
  list_ok (entries w'.1) /\
  (o = OutOfFuel -> exists s, minVersion = Some s /\ version_Parse s = OutOfFuel) /\
  (forall l, o = Ok l -> list_ok l /\
     forall s m, minVersion = Some s -> version_Parse s = Ok m ->
       Forall (fun e => exists v, version_Parse (ve_Version e) = Ok v /\ (0 < version_Compare v m)%Z) l) /\
  (forall e, exp cache = Some e -> ((now env).2 < e)%Z -> w' = (cache, (now env).1) \/ w' = (cache, env)).

(** A list of supported versions holds stable releases from 3.6.5 on that
    are not blacklisted, newest first, and only those after the asked minimum;
    the cache never holds anything else.  The pages of releases are read to
    their end, and while the cached list has not expired no request is made. *)
Theorem SupportedVersions_sound fuel minVersion cache env w' o :
  list_ok (entries cache) -> (last_page env <= Z.of_nat fuel)%Z -> (0 < fuel)%nat -> last_page (now env).1 = last_page env ->
  SupportedVersions fuel minVersion (cache, env) = (w', o) -> supported_post minVersion cache env o w'.
Proof.
  intros Hc Hf Hpos Hnow. refine (wp_elim _ (supported_post minVersion cache env) _ _ _ _).
  assert (forall parsed, (forall s m, minVersion = Some s -> version_Parse s = Ok m -> parsed = Some m) ->
    wp (releases ← fetchReleasesWithCache fuel; mret (filterByMinVersion releases parsed)) (supported_post minVersion cache env) (cache, env)) as Hrest.
  { intros parsed Hparsed. apply wp_bind. eapply wp_mono; [by apply fetchReleasesWithCache_wp|].
    intros [l|e|p|] w1 (Hp1 & Hp2 & Hp3 & Hp4); cbn [bind_post]; [|split_and!; [done|done|done|eauto]..].
    wp_value. destruct (filterByMinVersion_ok l parsed (Hp3 l eq_refl)) as [Hp5 Hp6]. split_and!; [done|done| |eauto].
    intros l' [= <-]. split; [done|]. eauto. }
  unfold SupportedVersions. apply wp_bind. destruct minVersion as [s|]; [|by apply Hrest].
  apply wp_bind, wp_map_err, wp_lift. destruct (version_Parse s) as [v|e|p|] eqn:Hv; cbn [bind_post];
    [|split_and!; [done|naive_solver|done|by right]..].
  wp_value. apply Hrest. intros s' m [= <-]. congruence.
Qed.
End versions.
End Versions.
