(* ===== verification/JobLog.v ===== *)
(** * JobLog: the lines that background jobs write
    ([internal/db/job_logs.go], [internal/dbmodel/job_log.go]).

    The table [job_logs] is kept beside the other tables: no other operation
    reads or writes it.  Its key is the pair of a job and a line number.  The
    statement [LOCK TABLE] is the class [TableLock].

    The theorem is about a client that polls the log of a job with the offset
    of its last answer, while jobs write: no line is lost, shown twice or out
    of order. *)

From stdpp Require Import sorting.
From Stdlib Require Import Sorted.
From S2P Require Import Prelude Errors Regexp Names AuthModel RefServer OpenFGA Dbmodel Users Database JujuDb CloudDb.

Module JobLogs.

Record JobLog := MkJobLog { jl_JobID : Z; jl_LineNumber : Z; jl_LogLine : string }.

(** The primary key is the pair; the server fills in nothing. *)
#[export] Instance JobLog_row : Row JobLog := {|
  row_id l := Z.pos (encode (jl_JobID l, jl_LineNumber l));
  row_created _ _ l := l;
  row_touched _ l := l;
  row_conflict _ _ := false;
|}.

Class TableLock (T : Type -> Type) `{Gorm T} := {
  gorm_lock {R} : M (T R) unit;
  law_lock {R} (t : T R) : wp gorm_lock (fun o t' => answered o /\ rows t' = rows t) t;
}.

Definition NewJobLog (jobId lineNumber : Z) (logLine : string) : outcome JobLog :=
  if (lineNumber <? 0)%Z then Err (New "line number must be non-negative")
  else if decide (logLine = "") then Err (New "log line cannot be empty")
  else Ok (MkJobLog jobId lineNumber logLine).

Section ops.
Context {T : Type -> Type} `{TableLock T}.

(** The database with its table of lines. *)
Definition LogDb : Type := Db T * T JobLog.
Definition main {A} : M (Db T) A -> M LogDb A := zoom fst (fun d s => (d, snd s)).
Definition log_tbl {A} : M (T JobLog) A -> M LogDb A := zoom snd (fun t s => (fst s, t)).

Definition keep {A} (f : M LogDb A) : M LogDb A := fun s =>
  match f s with (s', Ok a) => (s', Ok a) | (_, o) => (s, o) end.
Definition LogTransaction {A} (f : M LogDb A) : M LogDb A := _ ← main ready; keep f.

Definition of_job (jobId : Z) (l : JobLog) : bool := bool_decide (jl_JobID l = jobId).

(** [SELECT COALESCE(MAX(line_number), 0)]: the lines are numbered from 1. *)
Definition max_line (ls : list JobLog) : Z :=
  match jl_LineNumber <$> ls with [] => 0 | n :: ns => foldr Z.max n ns end.
Definition lastLine (jobId : Z) : M LogDb Z :=
  ls ← map_err (fun err => Errorf "failed to get current line number: %w" [ArgE err])
         (log_tbl (gorm_scan (of_job jobId) None None None));
  mret (max_line ls).

Definition AddJobLog (jobId : Z) (logLine : string) : M LogDb unit :=
  _ ← main ready;
  LogTransaction (
    _ ← map_err (fun _ => Errorf "failed to lock job_logs table" []) (log_tbl gorm_lock);
    currentLineNumber ← lastLine jobId;
    log ← map_err (fun err => Errorf "failed to construct job log: %v" [ArgE err])
            (lift (NewJobLog jobId (int64 (currentLineNumber + 1)) logLine));
    _ ← map_err dbError (log_tbl (gorm_create log));
    mret tt).

(** The lines from the offset on, and the offset for the next query.  The
    ascending order is the descending one of the negated numbers. *)
Definition QueryJobLog (jobId offset : Z) : M LogDb (list string * Z) :=
  _ ← main ready;
  '(logs, nextOffsetValue) ← LogTransaction (
    count ← map_err dbError (log_tbl (gorm_count (of_job jobId)));
    if decide (count = 0%Z) then mret ([], 0%Z) else
    logs ← map_err dbError (log_tbl (gorm_scan (of_job jobId) (Some (fun l => - jl_LineNumber l)%Z) None (positive offset)));
    currentLineNumber ← lastLine jobId;
    mret (logs, currentLineNumber));
  mret (jl_LogLine <$> logs, nextOffsetValue).

(** ** A client that polls *)

(** A session of one client with one job: the database, the offset for the
    next query and the lines seen; and what the job has written.  Any job may
    write at any time, and any call may fail. *)
Record session := MkSession { ss_db : LogDb; ss_offset : Z; ss_seen : list string; ss_written : list string }.

(** Line numbers fit their type. *)
Definition roomy (s : LogDb) : Prop := (Z.of_nat (length (rows (snd s))) < 2 ^ 63 - 1)%Z.

Inductive step (job : Z) : session -> session -> Prop :=
| step_add j line db db' o off seen written :
    roomy db -> AddJobLog j line db = (db', o) ->
    step job (MkSession db off seen written)
      (MkSession db' off seen (match o with Ok _ => if decide (j = job) then written ++ [line] else written | _ => written end))
| step_poll db db' o off seen written :
    QueryJobLog job off db = (db', o) ->
    step job (MkSession db off seen written)
      (match o with
       | Ok (lines, next) => MkSession db' next (seen ++ lines) written
       | _ => MkSession db' off seen written
       end).
End ops.
Arguments LogDb : clear implicits.
Arguments session : clear implicits.

Section facts.
Context {T : Type -> Type} `{TableLock T} `{!GormLaws T}.
Implicit Types (s : LogDb T) (job : Z) (texts : list string).

(** The lines of a job, numbered from 1. *)
Definition lines_of job texts : list JobLog := imap (fun i x => MkJobLog job (Z.of_nat (S i)) x) texts.
Definition logged job texts s : Prop := filter (fun l => of_job job l = true) (rows (snd s)) = lines_of job texts.

Lemma lines_of_app job texts line : lines_of job (texts ++ [line]) = lines_of job texts ++ [MkJobLog job (Z.of_nat (S (length texts))) line].
Proof. unfold lines_of. rewrite imap_app. simpl. do 3 f_equal. lia. Qed.

Lemma lines_of_text job texts : jl_LogLine <$> lines_of job texts = texts.
Proof.
  unfold lines_of. apply list_eq. intros i. rewrite list_lookup_fmap, list_lookup_imap. by destruct (texts !! i).
Qed.

Lemma foldr_max (n : Z) ns : foldr Z.max n ns ∈ n :: ns /\ forall m, m ∈ n :: ns -> (m <= foldr Z.max n ns)%Z.
Proof.
  induction ns as [|k ns [Hin Hle]]; simpl; [by split; [left|intros m [->|[]%elem_of_nil]%elem_of_cons; lia]|]. split.
  - destruct (Z.max_spec k (foldr Z.max n ns)) as [[_ ->]|[_ ->]]; set_solver.
  - intros m Hm. assert (m = k \/ m ∈ n :: ns) as [->|Hm'%Hle] by set_solver; lia.
Qed.

Lemma max_line_is l (n : Z) : l <> [] -> n ∈ jl_LineNumber <$> l -> (forall x, x ∈ l -> jl_LineNumber x <= n)%Z -> max_line l = n.
Proof.
  intros Hne Hin Hle. unfold max_line. destruct (jl_LineNumber <$> l) as [|k ks] eqn:Hl; [by destruct l|].
  destruct (foldr_max k ks) as [Hin' Hle']. rewrite <- Hl in Hin'. apply list_elem_of_fmap in Hin' as (x & Hx & Hxl).
  apply Z.le_antisymm; [rewrite Hx; by apply Hle|by apply Hle'].
Qed.

(** The last line of a job has the number of its lines. *)
Lemma max_line_of l job texts : l ≡ₚ lines_of job texts -> max_line l = Z.of_nat (length texts).
Proof.
  intros Hp. destruct texts as [|line texts _] using rev_ind; [by apply Permutation_nil_r in Hp as ->|].
  apply max_line_is.
  - intros ->. apply Permutation_nil in Hp. rewrite lines_of_app in Hp. by destruct (lines_of job texts).
  - rewrite Hp, lines_of_app, fmap_app. apply elem_of_app. right. simpl. rewrite length_app. simpl. apply list_elem_of_singleton. lia.
  - intros x Hx. rewrite Hp in Hx. apply elem_of_lookup_imap in Hx as (i & y & -> & Hi%lookup_lt_Some). simpl. lia.
Qed.

(** Sorted by number, the lines are in the order of writing. *)
Lemma sorted_lines l job texts : l ≡ₚ lines_of job texts ->
  StronglySorted (fun a b => (- jl_LineNumber b <= - jl_LineNumber a)%Z) l -> l = lines_of job texts.
Proof.
  intros Hp Hs. apply (StronglySorted_unique_strong (fun a b => (- jl_LineNumber b <= - jl_LineNumber a)%Z)); [|done| |done].
  - intros a b Ha Hb. rewrite Hp in Ha. apply elem_of_lookup_imap in Ha as (i & x & -> & Hi), Hb as (k & y & -> & Hk).
    simpl. intros. assert (i = k) as -> by lia. by simplify_eq.
  - clear. induction texts as [|line texts IH] using rev_ind; [constructor|]. rewrite lines_of_app. apply StronglySorted_app_2; [|done|by repeat constructor].
    intros x1 x2 Hx ->%list_elem_of_singleton. apply elem_of_lookup_imap in Hx as (i & y & -> & Hi%lookup_lt_Some). simpl. lia.
Qed.

(** ** One call *)

Lemma wp_main_ready {A} (k : M (LogDb T) A) Q s :
  wp k Q s -> (forall e, Q (Err e) s) -> wp (_ ← main ready; k) Q s.
Proof.
  intros Hk He. destruct s as [d t]. apply wp_bind, wp_zoom. unfold wp, ready. simpl.
  destruct (db_configured d); [destruct (db_migrated d)|]; cbn [bind_post]; [done|apply He..].
Qed.

Lemma wp_keep {A} (f : M (LogDb T) A) Q s :
  wp f (fun o s' => match o with Ok _ => Q o s' | _ => Q o s end) s -> wp (keep f) Q s.
Proof. unfold wp, keep. by destruct (f s) as [s' []]. Qed.

Lemma lastLine_wp job texts s :
  logged job texts s ->
  wp (lastLine job) (fun o s' => answered o /\ fst s' = fst s /\ rows (snd s') = rows (snd s) /\ forall n, o = Ok n -> n = Z.of_nat (length texts)) s.
Proof.
  intros Hl. unfold lastLine. apply wp_bind, wp_map_err, wp_zoom. eapply wp_mono; [apply law_scan|].
  intros o t (Hr & Ha & Ho). destruct o as [ls|e|x|]; cbn [bind_post]; try wp_value; (split_and!; [done..|]); try done.
  intros n Hn. destruct (Ho ls eq_refl) as (all & Hall & _ & Hls). simpl in Hls. simplify_eq.
  apply (max_line_of _ job). rewrite Hall. by rewrite Hl.
Qed.

Lemma logged_roomy job texts s : logged job texts s -> roomy s -> (Z.of_nat (length texts) < 2 ^ 63 - 1)%Z.
Proof.
  unfold logged, roomy, lines_of. intros Hl%(f_equal length) Hr. rewrite length_imap in Hl.
  pose proof (length_filter (fun l => of_job job l = true) (rows (snd s))). lia.
Qed.

(** The other tables are only asked whether they are ready. *)
Lemma AddJobLog_main j line s : wp (AddJobLog j line) (fun _ s' => fst s' = fst s) s.
Proof.
  unfold AddJobLog, LogTransaction. apply wp_main_ready; [|done]. apply wp_main_ready; [|done]. apply wp_keep.
  apply wp_bind, wp_map_err, wp_zoom, wp_any. intros [[]|e|x|] t1; cbn [bind_post]; [|done..].
  apply wp_bind. unfold lastLine. apply wp_bind, wp_map_err, wp_zoom, wp_any. intros [ls|e|x|] t2; cbn [bind_post]; [|done..]. wp_value. cbn [bind_post].
  apply wp_bind, wp_map_err, wp_lift. destruct (NewJobLog _ _ _) as [log|e|x|]; cbn [bind_post]; [|done..].
  apply wp_bind, wp_map_err, wp_zoom, wp_any. by intros [r|e|x|] t3.
Qed.

Definition written (j job : Z) (line : string) (o : outcome unit) texts : list string :=
  match o with Ok _ => if decide (j = job) then texts ++ [line] else texts | _ => texts end.

(** A line is appended to its job's log, or nothing changes. *)
Lemma AddJobLog_wp j line job s jtexts texts :
  unique_rows (rows (snd s)) -> logged j jtexts s -> logged job texts s -> roomy s ->
  wp (AddJobLog j line) (fun o s' => answered o /\ unique_rows (rows (snd s')) /\ logged job (written j job line o texts) s' /\
    logged j (written j j line o jtexts) s') s.
Proof.
  intros Hu Hj Hl Hlen%(logged_roomy j jtexts); [|done]. unfold AddJobLog, LogTransaction. apply wp_main_ready; [|done]. apply wp_main_ready; [|done]. apply wp_keep.
  apply wp_bind, wp_map_err, wp_zoom. eapply wp_mono; [apply law_lock|]. intros o t1 [Ha1 Hr1].
  destruct o as [[]|e|x|]; cbn [bind_post]; [|done..]. simpl in Hr1.
  apply wp_bind. eapply wp_mono; [apply (lastLine_wp j jtexts); unfold logged; simpl; by rewrite Hr1|].
  intros o s2 (Ha2 & Hf2 & Hr2 & Hn). simpl in Hr2. destruct o as [n|e|x|]; cbn [bind_post]; [|done..]. rewrite (Hn n eq_refl). clear Hn.
  rewrite int64_id by lia. apply wp_bind, wp_map_err, wp_lift. unfold NewJobLog.
  rewrite (proj2 (Z.ltb_ge _ _)) by lia. case_decide as Hline; cbn [bind_post]; [done|].
  apply wp_bind, wp_map_err, wp_zoom. eapply wp_mono; [apply law_create; by rewrite Hr2, Hr1|].
  intros o t3 [Ha3 Ho]. destruct o as [r|e|x|]; cbn [bind_post]; [|done..]. wp_value. split; [done|].
  destruct Ho as ((i & now & _ & ->) & Hr3 & Hu3). simpl in *. rewrite Hr2, Hr1 in Hr3. split; [done|].
  assert (forall k, filter (fun l => of_job k l = true) (rows t3) = filter (fun l => of_job k l = true) (rows (snd s)) ++
    (if decide (j = k) then [MkJobLog j (Z.of_nat (length jtexts) + 1) line] else [])) as Hf.
  { intros k. rewrite Hr3, filter_app. f_equal. unfold filter. simpl. unfold of_job. simpl. repeat case_bool_decide; repeat case_decide; by simplify_eq. }
  unfold logged, written. simpl. rewrite !Hf, (decide_True (P := j = j)), Hj, Hl by done. split.
  - case_decide; [subst j|by rewrite app_nil_r]. assert (texts = jtexts) as -> by (rewrite <- (lines_of_text job texts), <- Hl, Hj; apply lines_of_text).
    rewrite lines_of_app. do 3 f_equal. lia.
  - rewrite decide_True, lines_of_app by done. do 3 f_equal. lia.
Qed.

(** A query returns the lines after the offset and the number of lines. *)
Lemma QueryJobLog_wp job off s texts :
  logged job texts s -> (0 <= off <= Z.of_nat (length texts))%Z ->
  wp (QueryJobLog job off) (fun o s' => answered o /\ rows (snd s') = rows (snd s) /\
    forall r, o = Ok r -> r = (drop (Z.to_nat off) texts, Z.of_nat (length texts))) s.
Proof.
  intros Hl Hoff. unfold QueryJobLog, LogTransaction. apply wp_main_ready; [|done].
  apply wp_bind, wp_main_ready; [|done]. apply wp_keep.
  apply wp_bind, wp_map_err, wp_zoom. eapply wp_mono; [apply law_count|]. intros o t1 (Hr1 & Ha1 & Hn).
  destruct o as [n|e|x|]; cbn [bind_post]; [|done..]. specialize (Hn n eq_refl). rewrite Hl in Hn. unfold lines_of in Hn. rewrite length_imap in Hn.
  case_decide as Hz; [wp_value; cbn [bind_post]; wp_value; split_and!; [done|done|]|].
  { intros r Hr. simplify_eq. destruct texts; [by rewrite drop_nil|done]. }
  apply wp_bind, wp_map_err, wp_zoom. eapply wp_mono; [apply law_scan|]. intros o t2 (Hr2 & Ha2 & Ho). simpl in *.
  destruct o as [ls|e|x|]; cbn [bind_post]; [|done..]. destruct (Ho ls eq_refl) as (all & Hall & Hsort & ->). clear Ho.
  specialize (Hsort _ eq_refl). rewrite Hr1 in Hall. unfold logged in Hl. rewrite Hl in Hall. apply sorted_lines in Hall; [|done]. subst all.
  apply wp_bind. eapply wp_mono; [apply (lastLine_wp job texts); unfold logged; simpl; by rewrite Hr2, Hr1|].
  intros o s3 (Ha3 & _ & Hr3 & Hm). simpl in Hr3. destruct o as [m|e|x|]; cbn [bind_post]; [|done..]. rewrite (Hm m eq_refl). wp_value.
  cbn [bind_post]. wp_value. split_and!; [done|by rewrite Hr3, Hr2|]. intros r Hr. apply (inj Ok) in Hr as <-. f_equal.
  unfold page_of, positive. destruct (0 <? off)%Z eqn:Hp; simpl; [by rewrite fmap_drop, lines_of_text|].
  apply Z.ltb_ge in Hp. assert (off = 0%Z) as -> by lia. by rewrite lines_of_text.
Qed.

(** ** Sessions *)

(** Every job's lines are numbered; the client has the first lines of its
    job, as many as its offset says. *)
Definition session_ok (job : Z) (ss : session T) : Prop :=
  unique_rows (rows (snd (ss_db ss))) /\ (forall j, exists texts, logged j texts (ss_db ss)) /\ logged job (ss_written ss) (ss_db ss) /\
  ss_seen ss `prefix_of` ss_written ss /\ ss_offset ss = Z.of_nat (length (ss_seen ss)).

Lemma session_ok_step job ss ss' : session_ok job ss -> step job ss ss' -> session_ok job ss'.
Proof.
  intros (Hu & Hj & Hw & Hpre & Hoff) Hstep. destruct Hstep as [j line db db' o off seen wr Hroom Hrun|db db' o off seen wr Hrun]; simpl in *.
  - destruct (Hj j) as [jt Hjt]. unfold session_ok. simpl.
    destruct (wp_elim _ _ _ _ _ (AddJobLog_wp j line job db jt wr Hu Hjt Hw Hroom) Hrun) as (_ & Hu' & Hw' & _).
    split_and!; [done| |exact Hw'| |done].
    + intros k. destruct (Hj k) as [kt Hkt].
      destruct (wp_elim _ _ _ _ _ (AddJobLog_wp j line k db jt kt Hu Hjt Hkt Hroom) Hrun) as (_ & _ & Hk' & _). by eexists.
    + destruct o; try done. case_decide; [|done]. by apply prefix_app_r.
  - destruct Hpre as [rest ->]. assert (0 <= off <= Z.of_nat (length (seen ++ rest)))%Z as Hb by (rewrite length_app; lia).
    destruct (wp_elim _ _ _ _ _ (QueryJobLog_wp job off db _ Hw Hb) Hrun) as (_ & Hr & Ho).
    assert (forall k texts, logged k texts db -> logged k texts db') as Hkeep by (unfold logged; intros; by rewrite Hr).
    assert (forall k, exists texts, logged k texts db') as Hj' by (intros k; destruct (Hj k) as [kt Hk]; exists kt; by apply Hkeep).
    unfold session_ok. rewrite <- Hr in Hu. apply Hkeep in Hw. destruct o as [[lines next]|e|x|]; simpl; [|split_and!; try done; by exists rest..].
    specialize (Ho _ eq_refl). rewrite Hoff, Nat2Z.id, drop_app_length in Ho. simplify_eq. by split_and!.
Qed.

End facts.
End JobLogs.
