(* ===== verification/JujuCommands.v ===== *)
(** * JujuCommands: the command line client of Juju
    ([internal/jujucommands]).

    JIMM bootstraps and destroys controllers with the client [juju], which it
    downloads.  Processes, files, the network and Juju's own packages are the
    class [System]; the output of a command is the list of its lines, the last
    of which may be an error.  [RunJujuCmd] runs a command,
    [BootstrapRun] and [DestroyRun] are the two commands that JIMM uses.

    The theorem says which settings reach the command line. *)

From Stdlib Require Import Ascii.
From S2P Require Import Prelude Errors GoStrings Regexp Names AuthModel OpenFGA Dbmodel Users Database TagResolver Access JujuDb CloudDb JujuBase JujuModels JujuClouds JujuCredentials ControllerDb JujuControllers JujuMigration Upgrade.

Module Commands.

(** ** Libraries *)

Record ControllerDetails := MkDetails {
  jd_ControllerUUID : string; jd_Cloud : string; jd_CloudRegion : string; jd_APIEndpoints : list string;
  jd_CACert : string; jd_PublicDNSName : string;
}.
Record AccountDetails := MkAccount { ja_User : string; ja_Password : string }.

(** An entry of an archive: whether it is a regular file, its name, and its
    content. *)
Record TarEntry (Bytes : Type) := MkTar { te_Regular : bool; te_Name : string; te_Content : Bytes }.
Arguments MkTar {Bytes}. Arguments te_Regular {Bytes}. Arguments te_Name {Bytes}. Arguments te_Content {Bytes}.
(** The status of an answer, and the archive; reading an entry may fail. *)
Record Response (Bytes : Type) := MkResponse { rs_StatusCode : Z; rs_Archive : list (TarEntry Bytes + gerror) + gerror }.
Arguments MkResponse {Bytes}. Arguments rs_StatusCode {Bytes}. Arguments rs_Archive {Bytes}.

Class System (C : Type) `{JujuVersion} := {
  (** [jujucloud.Credential] and the bytes of a file. *)
  Credential : Type;
  (** [cloud.NewNamedCredential] *)
  NewNamedCredential : string -> string -> gmap string string -> bool -> Credential;
  Bytes : Type;
  GOOS : string;
  GOARCH : string;
  version_ParseBinary : string -> bool;
  version_parts : Number -> Z * Z * Z;
  (** A process: its lines of both outputs as they arrive, and the error that
      [Wait] returns. *)
  exec_StdoutPipe : Call C unit;
  exec_StderrPipe : Call C unit;
  exec_Start : string -> list string -> list string -> Call C (list string * option gerror);
  os_LookupEnv : string -> C -> option string;
  SetJujuXDGDataHome : string -> C -> C;
  (** [jujuclient.NewFileClientStore], in the directory set before. *)
  store_UpdateCredential : string -> gmap string Credential -> Call C unit;
  store_AddController : string -> ControllerDetails -> Call C unit;
  store_UpdateAccount : string -> AccountDetails -> Call C unit;
  store_ControllerByName : string -> Call C ControllerDetails;
  store_AccountDetails : string -> Call C AccountDetails;
  PublicCloudMetadata : C -> gmap string JujuCloud + gerror;
  WritePersonalCloudMetadata : gmap string JujuCloud -> Call C unit;
  (** Files and the network. *)
  os_RemoveAll : string -> Call C unit;
  os_MkdirTemp : Call C string;
  os_Remove : string -> Call C unit;
  os_CreateTemp : string -> Call C string;
  (** [io.Copy] of at most so many bytes. *)
  io_Copy : string -> Bytes -> Z -> Call C unit;
  os_Chmod : string -> Call C unit;
  os_Close : string -> Call C unit;
  http_Get : string -> Call C (Response Bytes);
  (** The order in which a map is ranged over, and a random index. *)
  map_iter {A} : gmap string A -> C -> list (string * A);
  law_map_iter {A} (m : gmap string A) c : map_iter m c ≡ₚ map_to_list m;
  rand_IntN : nat -> C -> C * nat;
  law_rand_IntN n c : (0 < n)%nat -> (snd (rand_IntN n c) < n)%nat;
}.

(** A call as a computation. *)
Definition call {C A} (m : Call C A) : M C A := fun c => let '(c', r) := m c in (c', of_sum r).
Definition effect {C} (f : C -> C) : M C unit := fun c => (f c, Ok tt).
Definition read {C A} (f : C -> A + gerror) : M C A := fun c => (c, of_sum (f c)).

(** ** Settings *)

Record StoragePool := MkPool { sp_Name : string; sp_Type : string; sp_Attributes : gmap string string }.
Record BootstrapOptions := MkOptions {
  bo_BootstrapBase : string; bo_BootstrapConstraints : gmap string string; bo_ModelConstraints : gmap string string;
  bo_ModelDefault : gmap string string; bo_StoragePool : option StoragePool; bo_BootstrapConfig : gmap string string;
  bo_ControllerConfig : gmap string string; bo_ControllerModelConfig : gmap string string;
}.

Section commands.
Context {C : Type} `{System C}.

Record BootstrapCmdParams := MkCmdParams {
  bp_CloudNameAndRegion : string; bp_ControllerName : string; bp_AgentVersion : string; bp_DefaultLoginTokenURL : string;
  bp_Cloud : JujuCloud; bp_CloudCred : Credential; bp_BootstrapOptions : BootstrapOptions;
}.

Definition loginTokenRefreshURLKey := "login-token-refresh-url".

Definition bad_pool (pool : option StoragePool) : bool :=
  match pool with Some p => bool_decide (sp_Name p = "") || bool_decide (sp_Type p = "") | None => false end.

Definition Validate (b : BootstrapCmdParams) : outcome unit :=
  if decide (bp_CloudNameAndRegion b = "") then Err (New "cloud [and region] name cannot be empty") else
  if decide (bp_ControllerName b = "") then Err (New "controller name name cannot be empty") else
  _ ← (if decide (bp_AgentVersion b = "") then Ok tt else
       if version_ParseBinary (bp_AgentVersion b) then Ok tt else
       _ ← version_Parse (bp_AgentVersion b); Ok tt);
  if decide (bp_DefaultLoginTokenURL b = "") then Err (New "missing login token refresh URL, this value should be automatically set by JIMM") else
  if bad_pool (bo_StoragePool (bp_BootstrapOptions b)) then Err (New "storage pool requires both name and type") else
  match bo_BootstrapConstraints (bp_BootstrapOptions b) !! "arch" with
  | Some arch => if decide (arch = GOARCH) then Ok tt else Err (Errorf "bootstrap constraint arch must be %q" [ArgS GOARCH])
  | None => Ok tt
  end.

Definition key_value (k v : string) : string := k +:+ "=" +:+ v.

(** The keys are sorted, so the order of the map is not seen. *)
Definition sorted_keys (values : gmap string string) : list string := Credentials.sort_strings (fst <$> map_to_list values).
Definition key_values (flag : string) (values : gmap string string) : list string :=
  flat_map (fun k => [flag; key_value k (default "" (values !! k))]) (sorted_keys values).

Definition appendKeyValueFlags (args : list string) (flagName : string) (values : gmap string string) : list string :=
  if decide (size values = 0%nat) then args else args ++ key_values ("--" +:+ flagName) values.

Definition appendStoragePoolFlags (args : list string) (pool : option StoragePool) : list string :=
  match pool with
  | None => args
  | Some p =>
      let args := args ++ ["--storage-pool"; key_value "name" (sp_Name p)] in
      let args := args ++ ["--storage-pool"; key_value "type" (sp_Type p)] in
      if decide (size (sp_Attributes p) = 0%nat) then args else args ++ key_values "--storage-pool" (sp_Attributes p)
  end.

Definition withBootstrapArch (constraints : gmap string string) : gmap string string := <["arch" := GOARCH]> constraints.

(** Later maps are copied over earlier ones. *)
Definition mergedBootstrapConfig (defaultLoginTokenURL : string) (options : BootstrapOptions) : gmap string string :=
  let merged := foldl (fun merged configMap => configMap ∪ merged) ∅ [bo_ControllerConfig options; bo_ControllerModelConfig options; bo_BootstrapConfig options] in
  match merged !! loginTokenRefreshURLKey with
  | Some _ => merged
  | None => <[loginTokenRefreshURLKey := defaultLoginTokenURL]> merged
  end.

Definition appendConfigFlags (args : list string) (config : gmap string string) : list string :=
  if decide (size config = 0%nat) then args else
  let args := match config !! loginTokenRefreshURLKey with
              | Some value => args ++ ["--config"; key_value loginTokenRefreshURLKey value]
              | None => args
              end in
  appendKeyValueFlags args "config" (delete loginTokenRefreshURLKey config).

Definition BuildBootstrapCmdArgs (b : BootstrapCmdParams) : list string :=
  let o := bp_BootstrapOptions b in
  let args := ["bootstrap"] in
  let args := if decide (bp_AgentVersion b = "") then args else args ++ ["--agent-version=" +:+ bp_AgentVersion b] in
  let args := if decide (bo_BootstrapBase o = "") then args else args ++ ["--bootstrap-base=" +:+ bo_BootstrapBase o] in
  let args := appendKeyValueFlags args "bootstrap-constraints" (withBootstrapArch (bo_BootstrapConstraints o)) in
  let args := appendKeyValueFlags args "constraints" (bo_ModelConstraints o) in
  let args := appendKeyValueFlags args "model-default" (bo_ModelDefault o) in
  let args := appendStoragePoolFlags args (bo_StoragePool o) in
  let args := appendConfigFlags args (mergedBootstrapConfig (bp_DefaultLoginTokenURL b) o) in
  args ++ [bp_CloudNameAndRegion b; bp_ControllerName b].

(** ** Running a command ([jujucommands.go]) *)

(** [OutputLine]: a line, or the error that ended the command. *)
Inductive OutputLine := Line (line : string) | LineErr (err : gerror).

Record CommandRunner := MkRunner { cr_command : string; cr_jujuDataDir : string }.

Definition proxyEnvKeys : list string :=
  ["HTTP_PROXY"; "HTTPS_PROXY"; "NO_PROXY"; "ALL_PROXY"; "http_proxy"; "https_proxy"; "no_proxy"; "all_proxy"].

Definition buildCommandEnv (jujuDataDir : string) (c : C) : list string :=
  omap (fun key => value ← os_LookupEnv key c; Some (key_value key value)) proxyEnvKeys ++ ["JUJU_DATA=" +:+ jujuDataDir].

Definition wrap (msg : string) {A} (m : M C A) : M C A := map_err (fun err => Errorf (msg +:+ ": %w") [ArgE err]) m.

(** The channel holds what both readers read, then the error of [Wait]. *)
Definition RunJujuCmd (r : CommandRunner) (args : list string) : M C (list OutputLine) :=
  env ← (fun c => (c, Ok (buildCommandEnv (cr_jujuDataDir r) c)));
  _ ← wrap "failed to get stdout" (call exec_StdoutPipe);
  _ ← wrap "failed to get stderr" (call exec_StderrPipe);
  '(lines, err) ← wrap "failed to start command" (call (exec_Start (cr_command r) args env));
  mret ((Line <$> lines) ++ match err with Some e => [LineErr e] | None => [] end).

(** ** [bootstrap.go] *)

(** [strings.IndexRune(s, '/')] above 0. *)
Definition splitCloudNameAndRegion (s : string) : string * string :=
  match cut "/"%char s with
  | Some (EmptyString, _) | None => (s, "")
  | Some (cloudName, regionName) => (cloudName, regionName)
  end.

Definition isAValidPublicCloud (cloudName regionName : string) : M C bool :=
  pubClouds ← wrap "failed to get public cloud metadata" (read PublicCloudMetadata);
  match pubClouds !! cloudName with
  | None => mret false
  | Some cloud =>
      if negb (bool_decide (regionName = "")) && negb (existsb (fun r => bool_decide (regionName = jr_Name r)) (jc_Regions cloud))
      then throw (Errorf "invalid public cloud region for cloud %s with region %s" [ArgS cloudName; ArgS regionName])
      else mret true
  end.

Definition first_err (lines : list OutputLine) : option gerror :=
  head (omap (fun l => match l with LineErr e => Some e | Line _ => None end) lines).

(** The output of the command and the directory to clean up. *)
Definition BootstrapRun (r : CommandRunner) (p : BootstrapCmdParams) : M C (list OutputLine) :=
  _ ← lift (Validate p);
  _ ← effect (SetJujuXDGDataHome (cr_jujuDataDir r));
  outputCh ← RunJujuCmd r ["update-public-clouds"; "--client"];
  _ ← match first_err outputCh with Some e => throw (Errorf "failed to update public clouds: %w" [ArgE e]) | None => mret tt end;
  let '(cloudName, regionName) := splitCloudNameAndRegion (bp_CloudNameAndRegion p) in
  isAPublicCloud ← isAValidPublicCloud cloudName regionName;
  _ ← (if (isAPublicCloud : bool) then mret tt
       else wrap "failed to write personal cloud" (call (WritePersonalCloudMetadata {[ cloudName := bp_Cloud p ]})));
  _ ← wrap "failed to set credential" (call (store_UpdateCredential cloudName {[ cloudName := bp_CloudCred p ]}));
  wrap "failed to run bootstrap command" (RunJujuCmd r (BuildBootstrapCmdArgs p)).

(** ** [destroycontroller.go] *)

Record DestroyControllerCmdParams := MkDestroyParams {
  dp_ControllerName : string; dp_ControllerDetails : ControllerDetails; dp_AccountDetails : AccountDetails;
}.

Definition BuildCmdArgs (b : DestroyControllerCmdParams) : list string := ["destroy-controller"; dp_ControllerName b; "--no-prompt"].

Definition DestroyRun (r : CommandRunner) (p : DestroyControllerCmdParams) : M C (list OutputLine) :=
  if decide (dp_ControllerName p = "") then throw (New "controller name cannot be empty") else
  _ ← effect (SetJujuXDGDataHome (cr_jujuDataDir r));
  _ ← (if decide (jd_ControllerUUID (dp_ControllerDetails p) = "") then mret tt
       else call (store_AddController (dp_ControllerName p) (dp_ControllerDetails p)));
  _ ← (if decide (ja_User (dp_AccountDetails p) = "") then mret tt
       else call (store_UpdateAccount (dp_ControllerName p) (dp_AccountDetails p)));
  wrap "failed to run bootstrap command" (RunJujuCmd r (BuildCmdArgs p)).
End commands.
Arguments BootstrapCmdParams C {_ _}.
Arguments OutputLine : clear implicits.

(** ** What the command line says *)

(** The values that follow a flag. *)
Fixpoint flag_values (flag : string) (args : list string) : list string :=
  match args with
  | a :: (v :: rest) as tail => if decide (a = "--" +:+ flag) then v :: flag_values flag rest else flag_values flag tail
  | _ => []
  end.

Definition render (m : gmap string string) : list string := uncurry key_value <$> map_to_list m.

(** The settings of the bootstrap are the strongest, those of the controller
    the weakest; the address for login tokens has a default. *)
Definition effective (url : string) (o : BootstrapOptions) (k : string) : option string :=
  match bo_BootstrapConfig o !! k, bo_ControllerModelConfig o !! k, bo_ControllerConfig o !! k with
  | Some v, _, _ | None, Some v, _ | None, None, Some v => Some v
  | None, None, None => if decide (k = loginTokenRefreshURLKey) then Some url else None
  end.

Fixpoint has_eq (s : string) : bool :=
  match s with EmptyString => false | String c s => bool_decide (c = "="%char) || has_eq s end.

Lemma has_eq_key_value k v : has_eq (key_value k v) = true.
Proof. unfold key_value. induction k as [|c k IH]; [done|]. simpl in *. rewrite IH. apply orb_true_r. Qed.

Lemma key_value_ne k v f : has_eq f = false -> key_value k v <> f.
Proof. intros Hf <-. by rewrite has_eq_key_value in Hf. Qed.

Lemma sort_strings_perm l : Credentials.sort_strings l ≡ₚ l.
Proof.
  induction l as [|x l IH]; [done|]. simpl. etrans; [|by apply Permutation_skip]. generalize (Credentials.sort_strings l). clear. intros l.
  induction l as [|y l IH]; [done|]. simpl. case_match; [done|]. etrans; [by apply Permutation_skip|apply Permutation_swap].
Qed.

Lemma flag_values_skip f a l : a <> "--" +:+ f -> flag_values f (a :: l) = flag_values f l.
Proof. intros Ha. simpl. destruct l; [done|]. by rewrite decide_False. Qed.

Lemma flag_values_pair f v l : flag_values f (("--" +:+ f) :: v :: l) = v :: flag_values f l.
Proof. simpl. by rewrite decide_True. Qed.

(** The flags that the settings use, none of which has an equals sign. *)
Definition flags : list string := ["bootstrap-constraints"; "constraints"; "model-default"; "storage-pool"; "config"].

Lemma flags_plain f : f ∈ flags -> has_eq ("--" +:+ f) = false.
Proof. intros Hf. unfold flags in Hf. repeat (apply elem_of_cons in Hf as [->|Hf]; [done|]). by apply elem_of_nil in Hf. Qed.

(** Settings of one flag, seen through another or the same flag. *)
Lemma flag_values_key_values f g m l : f ∈ flags -> g ∈ flags ->
  flag_values f (key_values ("--" +:+ g) m ++ l) =
  (if decide (f = g) then (fun k => key_value k (default "" (m !! k))) <$> sorted_keys m else []) ++ flag_values f l.
Proof.
  intros Hf Hg. unfold key_values. induction (sorted_keys m) as [|k ks IH]; [by case_decide|]. cbn [flat_map app].
  destruct (decide (f = g)) as [->|Hne].
  - cbn [fmap list_fmap app]. rewrite flag_values_pair. by f_equal.
  - rewrite flag_values_skip; [|by intros Heq; simplify_eq]. rewrite flag_values_skip; [done|]. by apply key_value_ne, flags_plain.
Qed.

Lemma rendered m : (fun k => key_value k (default "" (m !! k))) <$> sorted_keys m ≡ₚ render m.
Proof.
  unfold sorted_keys, render. rewrite sort_strings_perm, <- list_fmap_compose. apply reflexive_eq, list_fmap_ext.
  intros i [k v] Hi. apply list_elem_of_lookup_2, elem_of_map_to_list in Hi. simpl. by rewrite Hi.
Qed.

Lemma appendKeyValueFlags_app args g m : appendKeyValueFlags args g m = args ++ key_values ("--" +:+ g) m.
Proof.
  unfold appendKeyValueFlags. case_decide as Hz; [|done]. apply map_size_empty_inv in Hz as ->.
  by rewrite app_nil_r.
Qed.

Lemma appendStoragePoolFlags_app args p : appendStoragePoolFlags args (Some p) =
  args ++ "--storage-pool" :: key_value "name" (sp_Name p) :: "--storage-pool" :: key_value "type" (sp_Type p) :: key_values "--storage-pool" (sp_Attributes p).
Proof.
  unfold appendStoragePoolFlags. rewrite <- !app_assoc. case_decide as Hz; [|done]. apply map_size_empty_inv in Hz as ->. done.
Qed.

Section args.
Context {C : Type} `{System C}.

Lemma mergedBootstrapConfig_lookup url o k : mergedBootstrapConfig url o !! k = effective url o k.
Proof.
  unfold mergedBootstrapConfig, effective. simpl.
  set (merged := bo_BootstrapConfig o ∪ _).
  assert (forall k, merged !! k = match bo_BootstrapConfig o !! k, bo_ControllerModelConfig o !! k, bo_ControllerConfig o !! k with
    | Some v, _, _ | None, Some v, _ | None, None, Some v => Some v | None, None, None => None end) as Hm.
  { intros k'. unfold merged. rewrite !lookup_union, lookup_empty.
    by destruct (bo_BootstrapConfig o !! k'), (bo_ControllerModelConfig o !! k'), (bo_ControllerConfig o !! k'). }
  destruct (merged !! loginTokenRefreshURLKey) as [u|] eqn:Hu.
  - rewrite Hm. repeat case_match; try done. simplify_eq. rewrite Hm in Hu. by repeat case_match.
  - destruct (decide (k = loginTokenRefreshURLKey)) as [->|Hk].
    + rewrite lookup_insert_eq. rewrite Hm in Hu. by repeat case_match.
    + rewrite lookup_insert_ne by done. rewrite Hm. by repeat case_match.
Qed.

(** The address for login tokens comes first. *)
Lemma appendConfigFlags_app args m :
  is_Some (m !! loginTokenRefreshURLKey) -> appendConfigFlags args m =
  args ++ "--config" :: key_value loginTokenRefreshURLKey (default "" (m !! loginTokenRefreshURLKey)) :: key_values "--config" (delete loginTokenRefreshURLKey m).
Proof.
  intros [u Hu]. unfold appendConfigFlags. rewrite decide_False; [|intros Hz; apply map_size_empty_inv in Hz as ->; done].
  rewrite Hu, appendKeyValueFlags_app, <- app_assoc. done.
Qed.

Lemma flag_values_pre f pre l : f ∈ flags -> Forall (fun a => has_eq a = true) pre -> flag_values f (pre ++ l) = flag_values f l.
Proof.
  intros Hf Hpre. induction Hpre as [|a pre Ha _ IH]; [done|]. cbn [app]. rewrite flag_values_skip; [done|].
  intros ->. by rewrite flags_plain in Ha.
Qed.

(** The tokens between the command and the names. *)
Definition pre_flags (b : BootstrapCmdParams C) : list string :=
  (if decide (bp_AgentVersion b = "") then [] else ["--agent-version=" +:+ bp_AgentVersion b]) ++
  (if decide (bo_BootstrapBase (bp_BootstrapOptions b) = "") then [] else ["--bootstrap-base=" +:+ bo_BootstrapBase (bp_BootstrapOptions b)]).
Definition pool_flags (pool : option StoragePool) : list string := appendStoragePoolFlags [] pool.
Definition all_flags (b : BootstrapCmdParams C) : list string :=
  let o := bp_BootstrapOptions b in
  pre_flags b ++ key_values ("--" +:+ "bootstrap-constraints") (withBootstrapArch (bo_BootstrapConstraints o)) ++
  key_values ("--" +:+ "constraints") (bo_ModelConstraints o) ++ key_values ("--" +:+ "model-default") (bo_ModelDefault o) ++
  pool_flags (bo_StoragePool o) ++ appendConfigFlags [] (mergedBootstrapConfig (bp_DefaultLoginTokenURL b) o).

Lemma pre_flags_eq b : Forall (fun a => has_eq a = true) (pre_flags b).
Proof. unfold pre_flags. repeat case_decide; repeat constructor. Qed.

Lemma merged_has_url url o : is_Some (mergedBootstrapConfig url o !! loginTokenRefreshURLKey).
Proof. rewrite mergedBootstrapConfig_lookup. unfold effective. repeat case_match; done. Qed.

Lemma BuildBootstrapCmdArgs_flags b :
  BuildBootstrapCmdArgs b = "bootstrap" :: all_flags b ++ [bp_CloudNameAndRegion b; bp_ControllerName b].
Proof.
  unfold BuildBootstrapCmdArgs, all_flags, pool_flags, pre_flags. cbv zeta. rewrite !appendConfigFlags_app by apply merged_has_url.
  rewrite !appendKeyValueFlags_app.
  destruct (bo_StoragePool _) as [p|]; [rewrite !appendStoragePoolFlags_app|]; repeat case_decide; simpl; repeat (rewrite <- !app_assoc; simpl); done.
Qed.

Lemma pool_values f pool l : f ∈ flags ->
  flag_values f (pool_flags pool ++ l) =
  (if decide (f = "storage-pool") then
     match pool with
     | Some p => key_value "name" (sp_Name p) :: key_value "type" (sp_Type p) :: ((fun k => key_value k (default "" (sp_Attributes p !! k))) <$> sorted_keys (sp_Attributes p))
     | None => []
     end else []) ++ flag_values f l.
Proof.
  intros Hf. unfold pool_flags. destruct pool as [p|]; [|by case_decide]. rewrite appendStoragePoolFlags_app. cbn [app].
  change "--storage-pool" with ("--" +:+ "storage-pool"). destruct (decide (f = "storage-pool")) as [->|Hne].
  - rewrite !flag_values_pair. cbn [app]. do 2 f_equal. rewrite flag_values_key_values by (unfold flags; set_solver). by rewrite decide_True.
  - assert ("--" +:+ "storage-pool" <> "--" +:+ f) as Hsp by (intros Heq; by simplify_eq).
    do 4 (rewrite flag_values_skip by (done || by apply key_value_ne, flags_plain)).
    rewrite flag_values_key_values by (unfold flags in *; set_solver). by rewrite decide_False.
Qed.

Lemma config_values f m : f ∈ flags -> is_Some (m !! loginTokenRefreshURLKey) ->
  flag_values f (appendConfigFlags [] m) ≡ₚ if decide (f = "config") then render m else [].
Proof.
  intros Hf Hu. rewrite appendConfigFlags_app by done. cbn [app]. change "--config" with ("--" +:+ "config").
  rewrite <- (app_nil_r (key_values _ _)). destruct (decide (f = "config")) as [->|Hne].
  - rewrite flag_values_pair, flag_values_key_values by (unfold flags; set_solver). rewrite decide_True, app_nil_r, rendered by done.
    destruct Hu as [u Hu]. rewrite Hu. unfold render. rewrite <- (insert_delete_id _ _ _ Hu) at 2.
    rewrite map_to_list_insert by apply lookup_delete_eq. done.
  - rewrite !flag_values_skip by (try (intros Heq; by simplify_eq); by apply key_value_ne, flags_plain).
    rewrite flag_values_key_values by (unfold flags in *; set_solver). by rewrite decide_False.
Qed.

(** What the flags of a command say of the settings of a bootstrap. *)
Definition says (b : BootstrapCmdParams C) (fl : list string) : Prop :=
  let o := bp_BootstrapOptions b in
  flag_values "bootstrap-constraints" fl ≡ₚ render (<["arch" := GOARCH]> (bo_BootstrapConstraints o)) /\
  flag_values "constraints" fl ≡ₚ render (bo_ModelConstraints o) /\
  flag_values "model-default" fl ≡ₚ render (bo_ModelDefault o) /\
  flag_values "storage-pool" fl ≡ₚ
    match bo_StoragePool o with
    | Some p => key_value "name" (sp_Name p) :: key_value "type" (sp_Type p) :: render (sp_Attributes p)
    | None => []
    end /\
  exists config, (forall k, config !! k = effective (bp_DefaultLoginTokenURL b) o k) /\ flag_values "config" fl ≡ₚ render config.

(** The command line of a bootstrap names the command, the cloud and the
    controller, and between them says each setting once: the architecture is
    always the one of JIMM, and a configuration key has its value for the
    bootstrap, else for the controller's model, else for the controller, with
    a default for the address of login tokens only. *)
Theorem settings_passed b : exists fl,
  BuildBootstrapCmdArgs b = "bootstrap" :: fl ++ [bp_CloudNameAndRegion b; bp_ControllerName b] /\ says b fl.
Proof.
  exists (all_flags b). split; [apply BuildBootstrapCmdArgs_flags|]. set (o := bp_BootstrapOptions b).
  assert (forall f, f ∈ flags -> flag_values f (all_flags b) ≡ₚ
    (if decide (f = "bootstrap-constraints") then render (withBootstrapArch (bo_BootstrapConstraints o)) else []) ++
    (if decide (f = "constraints") then render (bo_ModelConstraints o) else []) ++
    (if decide (f = "model-default") then render (bo_ModelDefault o) else []) ++
    (if decide (f = "storage-pool") then match bo_StoragePool o with
       | Some p => key_value "name" (sp_Name p) :: key_value "type" (sp_Type p) :: render (sp_Attributes p) | None => [] end else []) ++
    (if decide (f = "config") then render (mergedBootstrapConfig (bp_DefaultLoginTokenURL b) o) else [])) as Hall.
  { intros f Hf. unfold all_flags. cbv zeta. fold o. rewrite flag_values_pre by (done || apply pre_flags_eq).
    rewrite !flag_values_key_values by (done || (unfold flags; set_solver)). rewrite pool_values by done.
    rewrite config_values by (done || apply merged_has_url).
    repeat case_decide; destruct (bo_StoragePool o); rewrite ?rendered; done. }
  unfold says. fold o. split_and!; [rewrite Hall by (unfold flags; set_solver); by rewrite ?app_nil_r..|].
  exists (mergedBootstrapConfig (bp_DefaultLoginTokenURL b) o). split; [intros; apply mergedBootstrapConfig_lookup|].
  rewrite Hall by (unfold flags; set_solver). done.
Qed.
End args.

End Commands.
