(* ===== verification/CliStore.v ===== *)
(** * CliStore: the cache of downloaded clients
    ([internal/jujuclistore/store.go]).

    The store keeps a few clients of Juju by the address that they come from.
    A [Binary] is shared: [Get] returns the pointer that the map holds and
    counts its users, [Done] counts them down, and a client without users may
    be deleted to make room.  The pointers are indices of [cw_heap].  The lock
    makes each call one step.  The progress of a download, which is written to
    the log of the job, is left out.

    The theorem says that the cache never holds more than the configured
    number, and that a client that is in use stays in it. *)

From Stdlib Require Import Ascii.
From S2P Require Import Prelude Errors GoStrings Regexp Names AuthModel OpenFGA Dbmodel Users Database TagResolver Access Relations JujuDb CloudDb JujuBase JujuModels JujuClouds JujuCredentials ControllerDb JujuControllers JujuMigration Upgrade JujuCommands.

Module CliStore.
Import Commands.

Record Config := MkConfig { cf_BaseURL : string; cf_Dir : string; cf_MaxEntries : Z }.
Record JujuBinarySpec := MkBinarySpec { bs_Version : string; bs_Os : string; bs_Arch : string }.
Record Binary := MkBinary { b_FullPath : string; b_referenceCount : Z }.

Definition githubReleaseURL := "https://github.com/juju/juju/releases/download".
Definition retryRequestError : gerror := ErrSentinel "retry request error".
Definition maxExtractSize : Z := 200 * 1024 * 1024.

Definition NewJujuCLIStore (cfg : Config) : outcome Config :=
  let base := if decide (cf_BaseURL cfg = "") then githubReleaseURL else cf_BaseURL cfg in
  let max := if (cf_MaxEntries cfg <=? 0)%Z then 2%Z else cf_MaxEntries cfg in
  if (10 <? max)%Z then Err (Errorf "max entries limit is too high: %d, must be <= 10" [ArgD max])
  else Ok (MkConfig base (cf_Dir cfg) max).

(** [html/template] escapes what it inserts into text. *)
Definition html_char (c : ascii) : string :=
  if decide (c = "000"%char) then String "239" (String "191" (String "189" "")) else
  if decide (c = "034"%char) then "&#34;" else if decide (c = "&"%char) then "&amp;" else if decide (c = "'"%char) then "&#39;" else
  if decide (c = "+"%char) then "&#43;" else if decide (c = "<"%char) then "&lt;" else if decide (c = ">"%char) then "&gt;" else String c "".
Fixpoint html_escape (s : string) : string :=
  match s with EmptyString => "" | String c s => html_char c +:+ html_escape s end.

(** [filepath.Base]. *)
Fixpoint trim_slashes (s : string) : string :=
  match s with
  | EmptyString => ""
  | String c s => let s' := trim_slashes s in if decide (c = "/"%char /\ s' = "") then "" else String c s'
  end.
Definition path_Base (s : string) : string :=
  if decide (s = "") then "." else
  let t := trim_slashes s in
  if decide (t = "") then "/" else default "" (last (split_char "/"%char t)).

Section store.
Context {C : Type} `{System C} `{Upgrade.Retry}.

(** The entries map addresses to pointers. *)
Record CliWorld := MkCliWorld { cw_sys : C; cw_entries : gmap string nat; cw_heap : list Binary }.
Definition sys {A} : M C A -> M CliWorld A := zoom cw_sys (fun c w => MkCliWorld c (cw_entries w) (cw_heap w)).

Definition binaryURL (cfg : Config) (v : Number) (spec : JujuBinarySpec) : string :=
  let '(major, minor, patch) := version_parts v in
  let version := html_escape (sprintf "%d.%d.%d" [ArgD major; ArgD minor; ArgD patch]) in
  html_escape (cf_BaseURL cfg) +:+ "/v" +:+ version +:+ "/juju-" +:+ version +:+ "-" +:+ html_escape (bs_Os spec) +:+ "-" +:+
  html_escape (bs_Arch spec) +:+ ".tar.xz".

(** ** Downloads *)

(** The first regular file named [juju] is stored; on an error the file is
    closed and removed. *)
Definition storeFile (cfg : Config) (content : Bytes) : M C string :=
  f ← call (os_CreateTemp (cf_Dir cfg));
  r ← try (call (io_Copy f content maxExtractSize));
  match r with
  | inr err => _ ← try (call (os_Close f)); _ ← try (call (os_Remove f)); throw err
  | inl _ =>
      r ← try (call (os_Chmod f));
      match r with
      | inr err =>
          _ ← try (call (os_Close f)); _ ← try (call (os_Remove f));
          throw (Errorf "failed to set permissions on binary file %s: %w" [ArgS f; ArgE err])
      | inl _ => mret f
      end
  end.

Fixpoint extract (cfg : Config) (entries : list (TarEntry Bytes + gerror)) : M C string :=
  match entries with
  | [] => throw (Errorf "juju binary not found in archive" [])
  | inr err :: _ => throw err
  | inl hdr :: entries =>
      if negb (te_Regular hdr) then extract cfg entries else
      if decide (path_Base (te_Name hdr) = "juju") then storeFile cfg (te_Content hdr) else extract cfg entries
  end.

Definition StatusOK : Z := 200.
Definition StatusTooManyRequests : Z := 429.

Definition downloadFile (cfg : Config) (downloadUrl : string) : M C string :=
  resp ← call (http_Get downloadUrl);
  let status := rs_StatusCode resp in
  if (500 <=? status)%Z && (status <? 600)%Z || (status =? StatusTooManyRequests)%Z then throw retryRequestError else
  if negb (status =? StatusOK)%Z then throw (Errorf "request failed with status %d" [ArgD status]) else
  match rs_Archive resp with
  | inr err => throw (Errorf "failed to create xz reader for %s: %w" [ArgS downloadUrl; ArgE err])
  | inl entries =>
      f ← extract cfg entries;
      _ ← map_err (fun err => Errorf "failed to close binary file %s: %w" [ArgS f; ArgE err]) (call (os_Close f));
      mret f
  end.

Fixpoint is_retryRequest (err : gerror) : bool :=
  match err with
  | ErrSentinel m => bool_decide (m = "retry request error")
  | WrapError _ e | JimmError _ _ _ (Some e) => is_retryRequest e
  | _ => false
  end.

(** The function that is retried assigns the file. *)
Definition download_attempt (cfg : Config) (url : string) : M (C * string) unit := fun w =>
  match downloadFile cfg url (fst w) with
  | (c, Ok f) => ((c, f), Ok tt)
  | (c, Err e) => ((c, snd w), Err e)
  | (c, Panic p) => ((c, snd w), Panic p)
  | (c, OutOfFuel) => ((c, snd w), OutOfFuel)
  end.
Definition download (cfg : Config) (url : string) : M C string := fun c =>
  match Upgrade.retry_Call (fun err => negb (is_retryRequest err)) 10 (download_attempt cfg url) (c, "") with
  | ((c', f), Ok _) => (c', Ok f)
  | ((c', _), Err e) => (c', Err e)
  | ((c', _), Panic p) => (c', Panic p)
  | ((c', _), OutOfFuel) => (c', OutOfFuel)
  end.

(** ** The cache *)

Definition count_of (heap : list Binary) (b : nat) : Z := default 0%Z (b_referenceCount <$> heap !! b).
Definition addRef (n : Z) (b : Binary) : Binary := MkBinary (b_FullPath b) (Rel.int32 (b_referenceCount b + n)).

Definition Done (b : nat) : M CliWorld unit := fun w =>
  (MkCliWorld (cw_sys w) (cw_entries w) (alter (addRef (-1)) b (cw_heap w)), Ok tt).

Definition freeEntry (cfg : Config) : M CliWorld unit := fun w =>
  if (Z.of_nat (size (cw_entries w)) <? cf_MaxEntries cfg)%Z then (w, Ok tt) else
  let entriesToDelete := fst <$> filter (fun kb => count_of (cw_heap w) kb.2 = 0%Z) (map_iter (cw_entries w) (cw_sys w)) in
  match entriesToDelete with
  | [] => (w, Err (Errorf "no entries to delete, max entries limit reached: %d" [ArgD (cf_MaxEntries cfg)]))
  | _ =>
      let '(c, i) := rand_IntN (length entriesToDelete) (cw_sys w) in
      let w := MkCliWorld c (cw_entries w) (cw_heap w) in
      match entriesToDelete !! i with
      | None => (w, Panic "index out of range")
      | Some key =>
          let path := default "" (b_FullPath <$> (cw_entries w !! key ≫= fun b => cw_heap w !! b)) in
          match sys (map_err (fun err => Errorf "failed to remove binary at path %s: %w" [ArgS path; ArgE err]) (call (os_Remove path))) w with
          | (w, Ok _) => (MkCliWorld (cw_sys w) (delete key (cw_entries w)) (cw_heap w), Ok tt)
          | (w, o) => (w, o)
          end
      end
  end.

Definition newEntry (url path : string) : M CliWorld nat := fun w =>
  let b := length (cw_heap w) in
  (MkCliWorld (cw_sys w) (<[url := b]> (cw_entries w)) (cw_heap w ++ [MkBinary path 1]), Ok b).

(** What runs under the lock. *)
Definition getEntry (cfg : Config) (url : string) : M CliWorld nat := fun w =>
  match cw_entries w !! url with
  | Some b => (MkCliWorld (cw_sys w) (cw_entries w) (alter (addRef 1) b (cw_heap w)), Ok b)
  | None => (_ ← freeEntry cfg; path ← sys (download cfg url); newEntry url path) w
  end.

Definition Get (cfg : Config) (spec : JujuBinarySpec) : M CliWorld nat :=
  v ← map_err (fun err => Errorf "invalid version %q: %w" [ArgS (bs_Version spec); ArgE err]) (lift (version_Parse (bs_Version spec)));
  getEntry cfg (binaryURL cfg v spec).

(** ** Users of the cache *)

(** The pointers that have been handed out and not been given back. *)
Inductive step (cfg : Config) : CliWorld * list nat -> CliWorld * list nat -> Prop :=
| step_get spec w w' o held :
    (Z.of_nat (length held) < 2 ^ 31 - 1)%Z -> Get cfg spec w = (w', o) ->
    step cfg (w, held) (w', match o with Ok b => b :: held | _ => held end)
| step_done b held1 held2 w w' o :
    Done b w = (w', o) -> step cfg (w, held1 ++ b :: held2) (w', held1 ++ held2).

Definition users (held : list nat) (b : nat) : Z := Z.of_nat (length (filter (fun x => x = b) held)).

Definition cache_ok (cfg : Config) (s : CliWorld * list nat) : Prop :=
  let '(w, held) := s in
  (Z.of_nat (size (cw_entries w)) <= cf_MaxEntries cfg)%Z /\
  (forall url b, cw_entries w !! url = Some b -> (b < length (cw_heap w))%nat) /\
  (forall url url' b, cw_entries w !! url = Some b -> cw_entries w !! url' = Some b -> url = url') /\
  (forall b x, cw_heap w !! b = Some x -> b_referenceCount x = users held b) /\
  (forall b, b ∈ held -> exists url, cw_entries w !! url = Some b) /\
  (Z.of_nat (length held) < 2 ^ 31)%Z.

Lemma users_cons held b x : users (x :: held) b = if decide (x = b) then (users held b + 1)%Z else users held b.
Proof. unfold users. rewrite filter_cons. case_decide; simpl; lia. Qed.

Lemma users_bound held b : (0 <= users held b <= Z.of_nat (length held))%Z.
Proof. unfold users. pose proof (length_filter (fun x => x = b) held). lia. Qed.

Lemma users_none held b : users held b = 0%Z -> b ∉ held.
Proof.
  unfold users. intros Hz Hin. assert (b ∈ filter (fun x => x = b) held) as Hf by by apply list_elem_of_filter.
  destruct (filter _ held); [by apply elem_of_nil in Hf|done].
Qed.

(** An entry that is deleted has no user. *)
Lemma freeEntry_ok cfg w held w' o : (0 < cf_MaxEntries cfg)%Z ->
  cache_ok cfg (w, held) -> freeEntry cfg w = (w', o) ->
  cache_ok cfg (w', held) /\ cw_heap w' = cw_heap w /\ cw_entries w' ⊆ cw_entries w /\
  (o = Ok tt -> (Z.of_nat (size (cw_entries w')) < cf_MaxEntries cfg)%Z).
Proof.
  intros Hpos (Hsize & Hvalid & Hinj & Hcount & Hheld & Hlen) Hrun. unfold freeEntry in Hrun.
  destruct (_ <? _)%Z eqn:Hroom in Hrun; [simplify_eq; split_and!; [by split_and!|done|done|]; intros _; by apply Z.ltb_lt in Hroom|].
  apply Z.ltb_ge in Hroom. destruct (fst <$> filter _ _) as [|k ks] eqn:Hks; [by simplify_eq; split_and!|]. rewrite <- Hks in Hrun.
  destruct (rand_IntN _ _) as [c i] eqn:Hr. destruct (_ !! i) as [key|] eqn:Hi; [|simplify_eq; by split_and!].
  unfold sys, zoom, map_err, call in Hrun. simpl in Hrun. destruct (os_Remove _ c) as [c' [[]|e]]; simpl in Hrun; [|simplify_eq; by split_and!].
  simplify_eq. simpl. apply list_elem_of_lookup_2, list_elem_of_fmap in Hi as ([key' b] & -> & Hin%list_elem_of_filter). simpl in *.
  destruct Hin as [Hz Hin]. rewrite law_map_iter in Hin. apply elem_of_map_to_list in Hin.
  assert (b ∉ held) as Hfree.
  { apply users_none. destruct (lookup_lt_is_Some_2 _ _ (Hvalid _ _ Hin)) as [x Hx]. unfold count_of in Hz. rewrite Hx in Hz. simpl in Hz.
    by rewrite <- (Hcount _ _ Hx). }
  assert (size (delete key' (cw_entries w)) = Nat.pred (size (cw_entries w))) as Hdel by (apply map_size_delete_Some; by eexists).
  assert (size (cw_entries w) <> 0%nat) as Hne by (intros Hz0; apply map_size_empty_inv in Hz0; by rewrite Hz0 in Hin).
  split_and!; [lia|..]; try done.
  - intros url x Hx%lookup_delete_Some. by eapply Hvalid, Hx.
  - intros url url' x [_ Hx]%lookup_delete_Some [_ Hx']%lookup_delete_Some. by eapply Hinj.
  - intros x Hx. destruct (Hheld x Hx) as [url Hurl]. exists url. apply lookup_delete_Some. split; [|done]. intros <-. by simplify_eq.
  - apply delete_subseteq.
  - intros _. lia.
Qed.

Lemma users_app held1 held2 b x : users (held1 ++ x :: held2) b = users (x :: held1 ++ held2) b.
Proof. unfold users. f_equal. apply Permutation_length. by rewrite Permutation_middle. Qed.

(** Counting up or down keeps the counts of the other binaries. *)
Lemma alter_counts n b (heap : list Binary) held held' :
  (forall x y, heap !! x = Some y -> b_referenceCount y = users held x) ->
  (forall x, x <> b -> users held' x = users held x) -> (users held' b = users held b + n)%Z -> (users held' b < 2 ^ 31)%Z ->
  forall x y, alter (addRef n) b heap !! x = Some y -> b_referenceCount y = users held' x.
Proof.
  intros Hc Hother Hb Hbound x y Hy. destruct (decide (x = b)) as [->|Hne].
  - rewrite list_lookup_alter_eq in Hy. destruct (heap !! b) as [z|] eqn:Hz; [|done]. simpl in Hy. simplify_eq. simpl.
    rewrite (Hc _ _ Hz), <- Hb. apply Rel.int32_id. pose proof (users_bound held' b). lia.
  - rewrite list_lookup_alter_ne in Hy by done. rewrite Hother by done. by apply Hc.
Qed.

Lemma cache_ok_sys cfg w c held : cache_ok cfg (w, held) -> cache_ok cfg (MkCliWorld c (cw_entries w) (cw_heap w), held).
Proof. done. Qed.

Lemma newEntry_ok cfg w held url path w' b : cw_entries w !! url = None -> (Z.of_nat (size (cw_entries w)) < cf_MaxEntries cfg)%Z ->
  (Z.of_nat (length held) < 2 ^ 31 - 1)%Z -> cache_ok cfg (w, held) -> newEntry url path w = (w', Ok b) -> cache_ok cfg (w', b :: held).
Proof.
  intros Hnone Hroom Hlt (_ & Hvalid & Hinj & Hcount & Hheld & _) Hrun. unfold newEntry in Hrun. simplify_eq. set (b := length (cw_heap w)).
  assert (users held b = 0%Z) as Hzero.
  { unfold users. destruct (filter (fun x => x = b) held) as [|x l] eqn:Hf; [done|]. assert (x ∈ filter (fun x => x = b) held) as Hx by (rewrite Hf; left).
    apply list_elem_of_filter in Hx as [-> Hx]. destruct (Hheld _ Hx) as [u Hu%Hvalid]. lia. }
  split_and!; simpl; [rewrite map_size_insert_None by done; lia|..|lia].
  - intros u x [[<- <-]|[_ Hx%Hvalid]]%lookup_insert_Some; rewrite length_app; simpl; lia.
  - intros u u' x [[<- <-]|[Hu Hx]]%lookup_insert_Some [[<- Hx']|[Hu' Hx']]%lookup_insert_Some; [done|..|by eapply Hinj].
    + apply Hvalid in Hx'. lia.
    + apply Hvalid in Hx. lia.
  - intros x y [Hx|[Hge Hx]]%lookup_app_Some.
    + rewrite users_cons, decide_False; [by apply Hcount|]. intros <-. apply lookup_lt_Some in Hx. lia.
    + apply list_lookup_singleton_Some in Hx as [Hx <-]. simpl. assert (x = b) as -> by lia. rewrite users_cons, decide_True by done. lia.
  - intros x [->|Hx]%elem_of_cons; [exists url; apply lookup_insert_eq|]. destruct (Hheld _ Hx) as [u Hu]. exists u.
    rewrite lookup_insert_ne; [done|]. intros <-. by rewrite Hnone in Hu.
Qed.

Lemma getEntry_ok cfg url w w' o held : (0 < cf_MaxEntries cfg)%Z -> (Z.of_nat (length held) < 2 ^ 31 - 1)%Z ->
  cache_ok cfg (w, held) -> getEntry cfg url w = (w', o) -> cache_ok cfg (w', match o with Ok b => b :: held | _ => held end).
Proof.
  intros Hpos Hlt Hok Hrun. unfold getEntry in Hrun. destruct (cw_entries w !! url) as [b|] eqn:Hurl.
  - destruct Hok as (Hsize & Hvalid & Hinj & Hcount & Hheld & Hlen). simplify_eq. split_and!; simpl; [done|..|lia].
    + intros u x Hx. rewrite length_alter. by eapply Hvalid.
    + done.
    + apply (alter_counts 1 b _ held); [done|..].
      * intros x Hx. by rewrite users_cons, decide_False.
      * by rewrite users_cons, decide_True.
      * rewrite users_cons, decide_True by done. pose proof (users_bound held b). lia.
    + intros x [->|Hx]%elem_of_cons; [by exists url|by apply Hheld].
  - unfold mbind, M_bind in Hrun. destruct (freeEntry cfg w) as [w1 o1] eqn:Hfree.
    destruct (freeEntry_ok _ _ held _ _ Hpos Hok Hfree) as (Hok1 & Hheap & Hsub & Hroom). destruct o1 as [[]|e|p|]; [|by simplify_eq..].
    unfold sys, zoom in Hrun. destruct (download cfg url (cw_sys w1)) as [c o2]. apply (cache_ok_sys _ _ c) in Hok1.
    destruct o2 as [path|e|p|]; [|by simplify_eq..]. destruct o as [b|e|p|]; [|done..].
    eapply newEntry_ok; [..|exact Hok1|exact Hrun]; simpl; [|by apply Hroom|done].
    destruct (cw_entries w1 !! url) eqn:Hin1; [|done]. by rewrite (lookup_weaken _ _ _ _ Hin1 Hsub) in Hurl.
Qed.

Lemma cache_ok_step cfg s s' : (0 < cf_MaxEntries cfg)%Z -> cache_ok cfg s -> step cfg s s' -> cache_ok cfg s'.
Proof.
  intros Hpos Hok Hstep. destruct Hstep as [spec w w' o held Hlt Hrun|b held1 held2 w w' o Hrun].
  - unfold Get, mbind, M_bind, map_err, lift in Hrun. destruct (version_Parse _) as [v|e|p|]; [by eapply getEntry_ok|by simplify_eq..].
  - unfold Done in Hrun. simplify_eq. destruct Hok as (Hsize & Hvalid & Hinj & Hcount & Hheld & Hlen). rewrite length_app in Hlen. simpl in Hlen.
    split_and!; simpl; [done|..].
    + intros u x Hx. rewrite length_alter. by eapply Hvalid.
    + done.
    + apply (alter_counts (-1) b _ (held1 ++ b :: held2)); [done|..].
      * intros x Hx. by rewrite users_app, users_cons, decide_False.
      * rewrite users_app, users_cons, decide_True by done. lia.
      * pose proof (users_bound (held1 ++ held2) b) as Hb. rewrite length_app in Hb. lia.
    + intros x Hx. apply Hheld. set_solver.
    + rewrite length_app. lia.
Qed.

(** C29.  Starting from an empty cache, whatever clients are asked for and given
    back, in any order and whatever fails: the cache never holds more than the
    configured number of clients, each is counted as often as it is in use,
    and a client in use stays in the cache. *)
Theorem in_use_kept cfg cfg0 c w held :
  NewJujuCLIStore cfg0 = Ok cfg -> rtc (step cfg) (MkCliWorld c ∅ [], []) (w, held) ->
  (Z.of_nat (size (cw_entries w)) <= cf_MaxEntries cfg <= 10)%Z /\
  (forall b x, cw_heap w !! b = Some x -> b_referenceCount x = users held b) /\
  forall b, b ∈ held -> exists url, cw_entries w !! url = Some b.
Proof.
  intros Hnew Hsteps. assert (0 < cf_MaxEntries cfg <= 10)%Z as Hmax.
  { unfold NewJujuCLIStore in Hnew. cbv zeta in Hnew. destruct (10 <? _)%Z eqn:Hten in Hnew; [done|]. apply Z.ltb_ge in Hten. simplify_eq. simpl.
    destruct (Z.leb_spec (cf_MaxEntries cfg0) 0); lia. }
  assert (cache_ok cfg (w, held)) as (Hsize & _ & _ & Hcount & Hheld & _).
  { assert (cache_ok cfg (MkCliWorld c ∅ [], [])) as Hok.
    { split_and!; simpl; [rewrite map_size_empty; lia|done|done|done|by intros b Hb%elem_of_nil|lia]. }
    revert Hok. remember (w, held) as s' eqn:Hs'. clear Hs' Hnew. induction Hsteps as [|x y z Hxy _ IH]; [done|]. intros Hok.
    apply IH, (cache_ok_step cfg x); [lia|done|done]. }
  split_and!; [lia|lia|done|done].
Qed.
End store.
End CliStore.
