(* ===== verification/Bootstrap.v ===== *)
(** * Bootstrap: bootstrapping and destroying controllers
    ([internal/jimm/bootstrap], [internal/river/bootstrap.go],
    [destroycontroller.go] and [client.go], [internal/rivertypes]).

    A bootstrap is a job.  Starting one reserves the name of the controller;
    the job runs the client of Juju, adds the controller and frees the
    reservation; a controller that cannot be added is destroyed again.  The
    queue of jobs is the class [Queue].  [BWorld] is the state of the Juju
    manager together with the log of the jobs, the cache of clients and the
    lock [jujuCLILock].  Contexts are left out: a cancelled command is one
    whose output ends with an error. *)

From Stdlib Require Import Ascii.
From S2P Require Import Prelude Errors GoStrings Regexp Names AuthModel RefServer OpenFGA Dbmodel Users Database TagResolver Access JujuDb CloudDb JujuBase JujuModels JujuClouds JujuCredentials ControllerDb JujuControllers JujuMigration Upgrade Encoding RpcProxy Jobs JobLog JujuCommands CliStore.

Module Bootstrap.
Import Commands.

(** ** Parameters ([types.go], [rivertypes/types.go])

    The options have the same fields in the three packages that pass them on:
    one record stands for the three types. *)

Section types.
Context {C : Type} `{System C}.

Record BootstrapParams := MkBootstrapParams {
  pa_CLIVersion : string; pa_CloudNameAndRegion : string; pa_ControllerName : string;
  pa_CloudCred : Credential; pa_Cloud : JujuCloud; pa_BootstrapOptions : BootstrapOptions;
}.
Record BootstrapArgs := MkBootstrapArgs {
  ba_Username : string; ba_CLIVersion : string; ba_CloudNameAndRegion : string; ba_ControllerName : string; ba_AgentVersion : string;
  ba_CloudCred : Credential; ba_Cloud : JujuCloud; ba_LoginTokenRefreshURL : string; ba_BootstrapOptions : BootstrapOptions;
}.
End types.
Arguments BootstrapParams C {_ _}.
Arguments BootstrapArgs C {_ _}.

Record RunnerArgs := MkRunnerArgs { ra_JujuDataDir : string; ra_JobID : Z }.
Record DestroyControllerParams := MkDestroyControllerParams {
  pd_ControllerName : string; pd_ControllerUUID : string; pd_AgentVersion : string; pd_CloudName : string; pd_CloudRegion : string;
  pd_APIEndpoints : list string; pd_PublicAddress : string; pd_CACertificate : string;
}.
Record DestroyControllerArgs := MkDestroyControllerArgs {
  da_Username : string; da_ControllerName : string; da_ControllerUUID : string; da_AgentVersion : string; da_CloudName : string;
  da_CloudRegion : string; da_APIEndpoints : list string; da_PublicAddress : string; da_CACertificate : string;
}.

(** The queue of river: a job's number and whether it was left out as a
    duplicate.  A wait ends the context when no time is left. *)
Class Queue (C : Type) `{System C} := {
  InsertBootstrap : BootstrapArgs C -> json -> Call C (Z * bool);
  InsertDestroyController : DestroyControllerArgs -> Call C (Z * bool);
  JobGet : Z -> Call C Jobs.JobRow;
  JobCancel : Z -> Call C Jobs.JobRow;
  (** The next tick, or the error of the context. *)
  next_tick : C -> C * option gerror;
  ticks_left : C -> nat;
  law_next_tick c c' : next_tick c = (c', None) -> (ticks_left c' < ticks_left c)%nat;
  law_JobGet id c : (ticks_left (fst (JobGet id c)) <= ticks_left c)%nat;
  (** [network.ParseProviderHostPorts]; the scope of an address is not kept. *)
  ParseProviderHostPorts : list string -> list (string * Z) + gerror;
  yaml_Marshal : ControllerDetails -> string;
  url_Parse : string -> option gerror;
}.

Definition messages (p : list (bool * string)) : list string := snd <$> filter (fun x => x.1 = true) p.

Definition newline : string := String "010" "".

Definition validate {C} `{System C} (p : BootstrapParams C) : outcome unit :=
  let msgs := messages [
    (bool_decide (pa_CLIVersion p = ""), "CLI version cannot be empty");
    (bool_decide (pa_CloudNameAndRegion p = ""), "cloud name and region cannot be empty");
    (bool_decide (pa_ControllerName p = ""), "controller name cannot be empty");
    (bad_pool (bo_StoragePool (pa_BootstrapOptions p)), "storage pool requires both name and type")] in
  if decide (msgs = []) then Ok tt
  else Err (Errorf ("invalid bootstrap parameters:" +:+ newline +:+ "%s") [ArgS (String.concat newline msgs)]).

Definition riverStoragePool (pool : option StoragePool) : option StoragePool :=
  match pool with None => None | Some p => Some (MkPool (sp_Name p) (sp_Type p) (sp_Attributes p)) end.
Definition commandStoragePool (pool : option StoragePool) : option StoragePool :=
  match pool with None => None | Some p => Some (MkPool (sp_Name p) (sp_Type p) (sp_Attributes p)) end.

(** ** Combinators *)

(** [defer d()]: it runs however the body ends. *)
Definition deferred {W A} (d : M W unit) (m : M W A) : M W A := fun w =>
  let '(w1, o) := m w in
  match d w1 with
  | (w2, Panic p) => (w2, Panic p)
  | (w2, _) => (w2, o)
  end.
(** A deferred function that does nothing after success. *)
Definition unless_ok {W A} (d : M W unit) (m : M W A) : M W A := fun w =>
  match m w with
  | (w1, Ok a) => (w1, Ok a)
  | (w1, o) => match d w1 with (w2, Panic p) => (w2, Panic p) | (w2, _) => (w2, o) end
  end.

Section manager.
Context {F : Type} `{OFGAServer F} {T : Type -> Type} `{Gorm T} `{!JobLogs.TableLock T} {C : Type} `{Controllers C} `{JujuNames} `{Hash}
  `{JujuVersion} `{!System C} `{!Queue C} `{Upgrade.Retry}.

Record BWorld := MkBWorld { bw_juju : JW F T C; bw_log : T JobLogs.JobLog; bw_entries : gmap string nat; bw_heap : list CliStore.Binary; bw_locked : bool }.
Local Abbreviation BM := (M BWorld).

Definition put_juju (s : JW F T C) (w : BWorld) : BWorld := MkBWorld s (bw_log w) (bw_entries w) (bw_heap w) (bw_locked w).
Definition put_locked (b : bool) (w : BWorld) : BWorld := MkBWorld (bw_juju w) (bw_log w) (bw_entries w) (bw_heap w) b.
Definition juju {A} : M (JW F T C) A -> BM A := zoom bw_juju put_juju.
Definition store {A} (m : M (Db T) A) : BM A := juju (jdb m).
Definition cmd {A} (m : M C A) : BM A := juju (zoom snd (fun c s => (fst s, c)) m).
Definition joblog {A} : M (JobLogs.LogDb T) A -> BM A :=
  zoom (fun w => (w_db (fst (bw_juju w)), bw_log w))
       (fun s w => MkBWorld (MkWorld (w_fga (fst (bw_juju w))) (fst s), snd (bw_juju w)) (snd s) (bw_entries w) (bw_heap w) (bw_locked w)).
Definition cli {A} : M (CliStore.CliWorld (C:=C)) A -> BM A :=
  zoom (fun w => CliStore.MkCliWorld (snd (bw_juju w)) (bw_entries w) (bw_heap w))
       (fun s w => MkBWorld (fst (bw_juju w), CliStore.cw_sys s) (bw_log w) (CliStore.cw_entries s) (CliStore.cw_heap s) (bw_locked w)).

(** [jujuCLILock.TryLock()] and its deferred [Unlock]. *)
Definition busy : gerror :=
  New "another bootstrap or destroy operation is currently running, please wait for it to finish before starting a new one".
Definition with_lock {A} (m : BM A) : BM A := fun w =>
  if bw_locked w then (w, Err busy) else let '(w', o) := m (put_locked true w) in (put_locked false w', o).

(** The manager: its Juju manager, the configuration of its store of clients
    and the address for login tokens. *)
Record BootstrapManager := MkBootstrapManager { bm_juju : JujuManager; bm_binaries : CliStore.Config; bm_endpoint : string }.

Definition NewBootstrapManager (store jobQueue jujuManager binaryStore credentialStore : bool) (m : BootstrapManager) : outcome BootstrapManager :=
  if negb store then Err (New "store cannot be nil") else
  if negb jujuManager then Err (New "juju manager cannot be nil") else
  if negb binaryStore then Err (New "binary store cannot be nil") else
  _ ← (if decide (bm_endpoint m = "") then Ok tt else
       match url_Parse (bm_endpoint m) with
       | Some err => Err (Errorf "failed to parse bootstrap login token refresh URL: %w" [ArgE err])
       | None => Ok tt
       end);
  if negb credentialStore then Err (New "credential store cannot be nil") else
  if negb jobQueue then Err (New "job queue cannot be nil") else Ok m.

(** ** Jobs ([river/client.go], [GetJobInfo], [StopJob]) *)

Definition StatusSuccessful := "successful".
Definition StatusRunning := "running".
Definition StatusPending := "pending".
Definition StatusFailed := "failed".
Definition toParamsJobState (state : Jobs.JobState) : string :=
  match state with
  | Jobs.Completed => StatusSuccessful
  | Jobs.Running => StatusRunning
  | Jobs.Cancelled | Jobs.Discarded => StatusFailed
  | Jobs.Available | Jobs.Pending | Jobs.Scheduled | Jobs.Retryable => StatusPending
  end.

Record GetBootstrapInfoResponse := MkInfoResponse { gi_Status : string; gi_Error : string; gi_Logs : list string; gi_Watermark : Z }.

Definition attempts_text (errs : list Jobs.AttemptError) : string :=
  String.concat "" (imap (fun i e => sprintf ("attempt %d: %s" +:+ newline) [ArgD (Z.of_nat i); ArgS (Jobs.ae_Error e)]) errs).

Definition GetJobInfo (jobId offset : Z) : BM GetBootstrapInfoResponse :=
  job ← map_err (fun err => Errorf "failed to get job info: %w" [ArgE err]) (cmd (call (JobGet jobId)));
  '(logs, newOffset) ← map_err (fun err => Errorf "failed to query job logs: %w" [ArgE err]) (joblog (JobLogs.QueryJobLog jobId offset));
  mret (MkInfoResponse (toParamsJobState (Jobs.j_State job)) (attempts_text (Jobs.j_Errors job)) logs newOffset).

Definition StopJob (user : option User) (jobID : Z) : BM unit :=
  match user with
  | None => throw (New "user cannot be nil")
  | Some _ => _ ← map_err (fun err => Errorf "failed to stop job: %w" [ArgE err]) (cmd (call (JobCancel jobID))); mret tt
  end.

(** [Client.WaitForJobCompletion]: the loop ends when the job has ended or
    when the context has. *)
Definition tick : M C unit := fun c => match next_tick c with (c', None) => (c', Ok tt) | (c', Some err) => (c', Err err) end.
Fixpoint poll (fuel : nat) (jobID : Z) : M C Jobs.JobRow :=
  match fuel with
  | 0%nat => diverge
  | S fuel =>
      job ← call (JobGet jobID);
      match Jobs.j_FinalizedAt job with
      | Some _ => mret job
      | None => _ ← tick; poll fuel jobID
      end
  end.
Definition ClientWaitForJobCompletion (jobID : Z) : M C Jobs.JobRow := fun c => poll (S (ticks_left c)) jobID c.

Definition WaitForJobCompletion (jobId : Z) : BM unit :=
  job ← map_err (fun err => Errorf "error while waiting for job completion: %w" [ArgE err]) (cmd (ClientWaitForJobCompletion jobId));
  match Jobs.j_State job with
  | Jobs.Completed => mret tt
  | Jobs.Cancelled => throw (Errorf "bootstrap job was cancelled" [])
  | Jobs.Discarded =>
      match last (Jobs.j_Errors job) with
      | None => throw (Errorf "bootstrap job failed" [])
      | Some lastErr => throw (Errorf "bootstrap job failed: %s" [ArgS (Jobs.ae_Error lastErr)])
      end
  | s => throw (Errorf "unexpected job state: %s" [ArgS (Jobs.state_text s)])
  end.

(** ** Starting a bootstrap *)

(** The name is free: no controller has it. *)
Definition noController (name : string) : BM unit :=
  r ← try (store (GetController (controllerOf name "")));
  match r with
  | inl _ => throw (Ctl.controllerExists name)
  | inr err => if decide (ErrorCode err <> CodeNotFound) then throw (Errorf "failed to check if controller exists: %w" [ArgE err]) else mret tt
  end.
Definition noReservation (name : string) : BM unit :=
  r ← try (store (GetControllerBootstrap (bootstrapOf name)));
  match r with
  | inl _ => throw (Ctl.bootstrapping name)
  | inr err => if decide (ErrorCode err <> CodeNotFound) then throw (Errorf "failed to check if controller bootstrap exists: %w" [ArgE err]) else mret tt
  end.

(** Errors are logged. *)
Definition removeReservation (reservation : ControllerBootstrap) : BM unit :=
  _ ← try (store (DeleteControllerBootstrap reservation)); mret tt.

Definition with_JobID (id : Z) (b : ControllerBootstrap) : ControllerBootstrap :=
  MkBootstrap (cb_ID b) (cb_Name b) (cb_CloudName b) (cb_CloudRegion b) (Some id).

Definition copyOptions (pool : option StoragePool -> option StoragePool) (o : BootstrapOptions) : BootstrapOptions :=
  MkOptions (bo_BootstrapBase o) (bo_BootstrapConstraints o) (bo_ModelConstraints o) (bo_ModelDefault o) (pool (bo_StoragePool o))
    (bo_BootstrapConfig o) (bo_ControllerConfig o) (bo_ControllerModelConfig o).

Definition bootstrapArgs (b : BootstrapManager) (user : User) (p : BootstrapParams C) : BootstrapArgs C :=
  MkBootstrapArgs (i_Name (u_Identity user)) (pa_CLIVersion p) (pa_CloudNameAndRegion p) (pa_ControllerName p) (pa_CLIVersion p)
    (pa_CloudCred p) (pa_Cloud p) (bm_endpoint b) (copyOptions riverStoragePool (pa_BootstrapOptions p)).

Definition jobInProgress (what : string) : gerror :=
  Codef CodeInProgress ("a " +:+ what +:+ " job is already in progress - please wait for it to complete before starting a new one") [].

(** What runs with the reservation. *)
Definition enqueueReserved (b : BootstrapManager) (user : User) (p : BootstrapParams C) (reservation : ControllerBootstrap) : BM Z :=
  '(id, duplicate) ← map_err (fun err => Errorf "failed to enqueue bootstrap job: %w" [ArgE err])
    (cmd (call (InsertBootstrap (bootstrapArgs b user p) (JObj [("controller-name", JStr (pa_ControllerName p))]))));
  if (duplicate : bool) then throw (jobInProgress "bootstrap") else
  r ← try (store (UpdateControllerBootstrap (with_JobID id reservation)));
  match r with
  | inr err =>
      _ ← try (cmd (call (JobCancel id)));
      throw (Errorf "failed to attach bootstrap reservation to job: %w" [ArgE err])
  | inl _ => mret id
  end.

Definition reservationOf (p : BootstrapParams C) : ControllerBootstrap :=
  MkBootstrap 0 (pa_ControllerName p) (jc_Name (pa_Cloud p)) (match jc_Regions (pa_Cloud p) with r :: _ => jr_Name r | [] => "" end) None.

Definition StartBootstrapJob (b : BootstrapManager) (user : User) (p : BootstrapParams C) : BM Z :=
  if decide (bm_endpoint b = "")
  then throw (New "bootstrap login token refresh URL is not configured. Cannot proceed with bootstrap. Please configure it and try again.") else
  _ ← map_err (fun err => Errorf "invalid bootstrap parameters: %v" [ArgE err]) (lift (validate p));
  _ ← noController (pa_ControllerName p);
  _ ← noReservation (pa_ControllerName p);
  reservation ← map_err (fun err => if decide (ErrorCode err = CodeAlreadyExists) then Ctl.bootstrapping (pa_ControllerName p)
                                    else Errorf "failed to reserve controller bootstrap: %w" [ArgE err])
                  (store (AddControllerBootstrap (reservationOf p)));
  unless_ok (removeReservation reservation) (enqueueReserved b user p reservation).

Definition StartDestroyControllerJob (user : User) (p : DestroyControllerParams) : BM Z :=
  '(id, duplicate) ← map_err (fun err => Errorf "failed to start bootstrap job: %w" [ArgE err])
    (cmd (call (InsertDestroyController (MkDestroyControllerArgs (i_Name (u_Identity user)) (pd_ControllerName p) (pd_ControllerUUID p)
       (pd_AgentVersion p) (pd_CloudName p) (pd_CloudRegion p) (pd_APIEndpoints p) (pd_PublicAddress p) (pd_CACertificate p)))));
  if (duplicate : bool) then throw (jobInProgress "destroy") else mret id.

(** ** The log of a job *)

Definition writeJobLog (jobId : Z) (logLine : string) : BM unit :=
  if decide (logLine = "") then mret tt else _ ← try (joblog (JobLogs.AddJobLog jobId logLine)); mret tt.

Fixpoint consumeCommandOutput (outputCh : list OutputLine) (jobId : Z) : BM unit :=
  match outputCh with
  | [] => mret tt
  | LineErr err :: _ => _ ← writeJobLog jobId (Error err); throw (Errorf "command failed: %w" [ArgE err])
  | Line line :: outputCh => _ ← writeJobLog jobId line; consumeCommandOutput outputCh jobId
  end.

(** ** Running a bootstrap *)

Definition zeroDetails : ControllerDetails := MkDetails "" "" "" [] "" "".
Definition zeroAccount : AccountDetails := MkAccount "" "".

Definition tryCleanupController (r : CommandRunner) (jobID : Z) (controllerName : string) : BM unit :=
  outputCh ← map_err (fun err => Errorf "failed to run destroy-controller command: %w" [ArgE err])
    (cmd (DestroyRun r (MkDestroyParams controllerName zeroDetails zeroAccount)));
  consumeCommandOutput outputCh jobID.

(** The two errors of [controllerCleanup]; the second one has two [%w], so it
    unwraps to nothing. *)
Definition destroyed (err : gerror) : gerror :=
  Errorf ("error post-bootstrap: %w" +:+ newline +:+ "the controller has been automatically destroyed") [ArgE err].
Definition dangling (err cleanupErr : gerror) (details : option ControllerDetails) : gerror :=
  ErrString (sprintf ("error post-bootstrap: %w" +:+ newline +:+ "automatic cleanup of the controller also failed: %w" +:+ newline +:+ newline +:+
    "WARNING: resources associated with the controller may remain dangling in your environment." +:+ newline +:+
    "Manual intervention is required, either attach the controller to JIMM or destroy it." +:+ newline +:+ newline +:+
    "Controller details:" +:+ newline +:+ "%s") [ArgE err; ArgE cleanupErr; ArgS (match details with Some d => yaml_Marshal d | None => "" end)]).

Definition controllerCleanup (r : CommandRunner) (jobID : Z) (name : string) (err : gerror) (details : option ControllerDetails) {A} : BM A :=
  cleaned ← try (tryCleanupController r jobID name);
  match cleaned with
  | inl _ => throw (destroyed err)
  | inr cleanupErr => throw (dangling err cleanupErr details)
  end.

(** A call whose error destroys the controller. *)
Definition or_cleanup {A} (r : CommandRunner) (jobID : Z) (name : string) (wrap : gerror -> gerror) (details : option ControllerDetails) (m : BM A) : BM A :=
  res ← try m;
  match res with
  | inl a => mret a
  | inr err => controllerCleanup r jobID name (wrap err) details
  end.

(** What follows a successful bootstrap command. *)
Definition addBootstrapped (b : BootstrapManager) (p : BootstrapArgs C) (jobID : Z) (r : CommandRunner) (user : User) : BM unit :=
  let name := ba_ControllerName p in
  details ← or_cleanup r jobID name (fun err => Errorf "failed to get controller details: %w" [ArgE err]) None (cmd (call (store_ControllerByName name)));
  hps ← or_cleanup r jobID name (fun err => Errorf "failed to parse API endpoints for controller: %w" [ArgE err]) (Some details)
          (lift (of_sum (ParseProviderHostPorts (jd_APIEndpoints details))));
  account ← or_cleanup r jobID name (fun err => Errorf "failed to get account details for controller %s: %w" [ArgS name; ArgE err]) (Some details)
              (cmd (call (store_AccountDetails name)));
  or_cleanup r jobID name (fun err => Errorf "failed to add controller to JIMM: %w" [ArgE err]) (Some details)
    (juju (Ctl.AddController_ (bm_juju b) (Some jobID) user
       (MkController 0 name (jd_ControllerUUID details) "" (jd_CACert details) (jd_PublicDNSName details) "juju-apiserver" "" "" false [hps] None)
       (Ctl.MkCreds (ja_User account) (ja_Password account)))).

Definition runBootstrap (b : BootstrapManager) (p : BootstrapArgs C) (ra : RunnerArgs) (r : CommandRunner) (user : User) : BM unit :=
  outputCh ← map_err (fun err => Errorf "failed to run bootstrap command: %w" [ArgE err])
    (cmd (BootstrapRun r (MkCmdParams (ba_CloudNameAndRegion p) (ba_ControllerName p) (ba_AgentVersion p) (ba_LoginTokenRefreshURL p)
       (ba_Cloud p) (ba_CloudCred p) (copyOptions commandStoragePool (ba_BootstrapOptions p)))));
  deferred (_ ← try (cmd (call (os_RemoveAll (cr_jujuDataDir r)))); mret tt)
    (_ ← consumeCommandOutput outputCh (ra_JobID ra);
     addBootstrapped b p (ra_JobID ra) r user).

(** [binary.FullPath] *)
Definition at_path {A} (binary : nat) (body : string -> BM A) : BM A := fun w =>
  body (default "" (CliStore.b_FullPath <$> bw_heap w !! binary)) w.

(** The client of a version, given back when the body ends. *)
Definition with_binary {A} (b : BootstrapManager) (jobID : Z) (version what : string) (body : string -> BM A) : BM A :=
  _ ← writeJobLog jobID (sprintf ("Downloading the Juju CLI, version %s for " +:+ what +:+ ". This may take a few minutes") [ArgS version]);
  binary ← map_err (fun err => Errorf "failed to get Juju binary: %w" [ArgE err])
    (cli (CliStore.Get (bm_binaries b) (CliStore.MkBinarySpec version GOOS GOARCH)));
  deferred (cli (CliStore.Done binary)) (at_path binary body).

Definition jobReservation (jobID : Z) : ControllerBootstrap := MkBootstrap 0 "" "" "" (Some jobID).

Definition BootstrapController (b : BootstrapManager) (p : BootstrapArgs C) (ra : RunnerArgs) (user : User) : BM unit :=
  with_lock (
    _ ← noController (ba_ControllerName p);
    reservation ← map_err (fun err => if decide (ErrorCode err = CodeNotFound)
                                      then Codef CodeNotFound "controller bootstrap %q not found" [ArgS (ba_ControllerName p)]
                                      else Errorf "failed to get controller bootstrap reservation: %w" [ArgE err])
                    (store (GetControllerBootstrap (jobReservation (ra_JobID ra))));
    deferred (removeReservation reservation)
      (with_binary b (ra_JobID ra) (ba_CLIVersion p) "bootstrap" (fun path =>
         map_err (fun err => Errorf "run bootstrap failed: %w" [ArgE err]) (runBootstrap b p ra (MkRunner path (ra_JujuDataDir ra)) user)))).

(** ** Destroying a controller *)

Definition DestroyController (b : BootstrapManager) (p : DestroyControllerArgs) (ra : RunnerArgs) : BM unit :=
  with_lock (with_binary b (ra_JobID ra) (da_AgentVersion p) "destroy-controller" (fun path =>
    '(username, password) ← map_err (fun err => Errorf "failed to get controller credentials: %w" [ArgE err])
      (juju (ctl_read (cs_GetControllerCredentials (da_ControllerName p))));
    outputCh ← map_err (fun err => Errorf "failed to run destroy-controller command: %w" [ArgE err])
      (cmd (DestroyRun (MkRunner path (ra_JujuDataDir ra)) (MkDestroyParams (da_ControllerName p)
         (MkDetails (da_ControllerUUID p) (da_CloudName p) (da_CloudRegion p) (da_APIEndpoints p) (da_CACertificate p) (da_PublicAddress p))
         (MkAccount username password))));
    _ ← consumeCommandOutput outputCh (ra_JobID ra);
    map_err (fun err => Errorf "failed to remove controller: %w" [ArgE err]) (juju (Ctl.RemoveController (da_ControllerName p) true)))).

(** ** The workers ([river/bootstrap.go], [destroycontroller.go]) *)

(** The user of a job and a directory for the client's data, removed at the
    end. *)
Definition with_job {A} (username : string) (body : User -> string -> BM A) : BM A :=
  u ← store (db_FetchIdentity (with_Name zeroIdentity username));
  temp ← map_err (fun err => Errorf "failed to create temporary directory for Juju data: %w" [ArgE err]) (cmd (call os_MkdirTemp));
  deferred (_ ← try (cmd (call (os_RemoveAll temp))); mret tt) (body (NewUser u) temp).

Definition bootstrapWork (b : BootstrapManager) (id : Z) (args : BootstrapArgs C) : BM unit :=
  with_job (ba_Username args) (fun user temp => BootstrapController b args (MkRunnerArgs temp id) user).
Definition destroyControllerWork (b : BootstrapManager) (id : Z) (args : DestroyControllerArgs) : BM unit :=
  with_job (da_Username args) (fun _ temp => DestroyController b args (MkRunnerArgs temp id)).
End manager.
Arguments BWorld F T C : clear implicits.

(** ** Facts about reservations *)

Section reservations.
Context {T : Type -> Type} `{GormLaws T}.
Implicit Types d : Db T.

Lemma AddControllerBootstrap_wp b d :
  unique_rows (rows (db_bootstraps d)) ->
  wp (AddControllerBootstrap b) (fun o d' => answered o /\ apart_bootstraps d' = apart_bootstraps d /\
    match o with
    | Ok b' => inserted b b' (rows (db_bootstraps d)) (rows (db_bootstraps d'))
    | _ => rows (db_bootstraps d') = rows (db_bootstraps d)
    end) d.
Proof.
  intros Hu. unfold AddControllerBootstrap. apply wp_ready; [intros _ _|by intros e _]. apply wp_map_err, wp_zoom.
  eapply wp_mono; [by apply law_create|]. intros [] t [Ha Ho]; by split_and!.
Qed.

Lemma UpdateControllerBootstrap_wp b d :
  unique_rows (rows (db_bootstraps d)) ->
  wp (UpdateControllerBootstrap b) (fun o d' => answered o /\ apart_bootstraps d' = apart_bootstraps d /\
    match o with
    | Ok b' => cb_ID b <> 0%Z /\ saved b b' (rows (db_bootstraps d)) (rows (db_bootstraps d'))
    | _ => rows (db_bootstraps d') = rows (db_bootstraps d)
    end) d.
Proof.
  intros Hu. unfold UpdateControllerBootstrap. case_decide; [wp_value; by split_and!|].
  apply wp_ready; [intros _ _|by intros e _]. apply wp_map_err, wp_zoom.
  eapply wp_mono; [by apply law_save|]. intros [] t [Ha Ho]; by split_and!.
Qed.

Lemma DeleteControllerBootstrap_wp b d :
  wp (DeleteControllerBootstrap b) (fun o d' => answered o /\ apart_bootstraps d' = apart_bootstraps d /\
    match o with
    | Ok _ => rows (db_bootstraps d') = filter (fun x => cb_ID x <> cb_ID b) (rows (db_bootstraps d))
    | _ => rows (db_bootstraps d') = rows (db_bootstraps d)
    end) d.
Proof.
  unfold DeleteControllerBootstrap. case_decide; [wp_value; by split_and!|].
  apply wp_ready; [intros _ _|by intros e _]. apply wp_map_err, wp_zoom.
  eapply wp_mono; [apply law_delete|]. intros [] t [Ha Ho]; (split_and!; [done|done|]); [by destruct Ho|done..].
Qed.

(** The last row, deleted again or saved under its key. *)
Lemma last_other (l : list ControllerBootstrap) b x : unique_rows (l ++ [b]) -> x ∈ l -> cb_ID x <> cb_ID b.
Proof.
  intros [Hnd _] Hx Heq. rewrite fmap_app in Hnd. apply NoDup_app in Hnd as (_ & Hd & _). simpl in Hd.
  apply (Hd (cb_ID x)); [by apply (list_elem_of_fmap_2 cb_ID)|]. rewrite Heq. left.
Qed.

Lemma last_deleted (l : list ControllerBootstrap) b : unique_rows (l ++ [b]) -> filter (fun x => cb_ID x <> cb_ID b) (l ++ [b]) = l.
Proof.
  intros Hu. rewrite filter_app, list_filter_all_on; [|intros x Hx; by eapply last_other].
  rewrite filter_cons_False by tauto. apply app_nil_r.
Qed.

Lemma last_saved (l : list ControllerBootstrap) b b1 b2 : unique_rows (l ++ [b]) -> cb_ID b1 = cb_ID b -> cb_ID b <> 0%Z ->
  forall l', saved b1 b2 (l ++ [b]) l' -> b2 = b1 /\ l' = l ++ [b1].
Proof.
  intros Hu Hid Hz l' Hs. unfold saved in Hs. simpl in Hs. rewrite decide_False in Hs by (by rewrite Hid).
  destruct Hs as ((now & ->) & _ & Hl). split; [done|]. rewrite decide_True in Hl.
  - rewrite Hl, fmap_app. f_equal; [|by simpl; rewrite decide_True].
    rewrite <- (list_fmap_id l) at 2. apply list_fmap_ext. intros i x Hx%list_elem_of_lookup_2. simpl. rewrite decide_False; [done|].
    rewrite Hid. by eapply last_other.
  - rewrite Hid, fmap_app. apply elem_of_app. right. left.
Qed.
End reservations.

(** ** Facts about the manager *)

Section facts.
Context {F : Type} `{OFGALaws F} {T : Type -> Type} `{GormLaws T} `{!JobLogs.TableLock T} {C : Type} `{Controllers C} `{JujuNames} `{Hash}
  `{JujuVersion} `{!System C} `{!Queue C} `{Upgrade.Retry}.
Implicit Types w : BWorld F T C.

Definition bw_db w : Db T := w_db (fst (bw_juju w)).
Definition bw_tuples w : gset Tuple := j_tuples (bw_juju w).

(** The same tuples, rows and lock. *)
Definition quiet w w' : Prop := same (bw_juju w) (bw_juju w') /\ bw_locked w' = bw_locked w.
#[export] Instance quiet_equivalence : Equivalence quiet.
Proof. split; unfold quiet, same; red; intuition congruence. Qed.

(** The authorisation service, the database and the lock are untouched. *)
Definition calm w w' : Prop := fst (bw_juju w') = fst (bw_juju w) /\ bw_locked w' = bw_locked w.
#[export] Instance calm_equivalence : Equivalence calm.
Proof. split; unfold calm; red; intuition congruence. Qed.
Lemma calm_quiet w w' : calm w w' -> quiet w w'.
Proof. intros [Hf Hl]. unfold quiet, same, j_tuples, j_tables, Perm.w_tuples. by rewrite Hf. Qed.

Definition calmly {A} (m : M (BWorld F T C) A) : Prop := forall w, wp m (fun _ w' => calm w w') w.

Lemma calmly_bind {A B} (m : M (BWorld F T C) A) (k : A -> M (BWorld F T C) B) : calmly m -> (forall a, calmly (k a)) -> calmly (m ≫= k).
Proof.
  intros Hm Hk w. apply wp_bind. eapply wp_mono; [apply Hm|]. intros [a|e|x|] w1 Hw; cbn [bind_post]; [|done..].
  eapply wp_mono; [apply Hk|]. intros o w2 Hw2. by etrans.
Qed.
Lemma calmly_ret {A} (a : A) : calmly (mret a).
Proof. intros w. wp_value. reflexivity. Qed.
Lemma calmly_throw {A} e : calmly (throw (A:=A) e).
Proof. intros w. wp_value. reflexivity. Qed.
Lemma calmly_lift {A} (o : outcome A) : calmly (lift o).
Proof. intros w. wp_value. reflexivity. Qed.
Lemma calmly_try {A} (m : M (BWorld F T C) A) : calmly m -> calmly (try m).
Proof. intros Hm w. apply wp_try. eapply wp_mono; [apply Hm|]. by intros []. Qed.
Lemma calmly_map_err {A} f (m : M (BWorld F T C) A) : calmly m -> calmly (map_err f m).
Proof. intros Hm w. apply wp_map_err. eapply wp_mono; [apply Hm|]. by intros []. Qed.
Lemma calmly_deferred {A} d (m : M (BWorld F T C) A) : calmly d -> calmly m -> calmly (deferred d m).
Proof.
  intros Hd Hm w. specialize (Hm w). unfold wp, deferred in *. destruct (m w) as [w1 o1]. specialize (Hd w1). unfold wp in Hd.
  destruct (d w1) as [w2 []]; by etrans.
Qed.
Lemma calmly_cmd {A} (m : M C A) : calmly (cmd m).
Proof. intros w. apply wp_zoom, wp_zoom, wp_any. intros o c. by split. Qed.
Lemma calmly_cli {A} (m : M (CliStore.CliWorld (C:=C)) A) : calmly (cli m).
Proof. intros w. apply wp_zoom, wp_any. intros o c. by split. Qed.

Lemma calmly_writeJobLog jobId line : calmly (writeJobLog (F:=F) jobId line).
Proof.
  unfold writeJobLog. case_decide; [apply calmly_ret|]. apply calmly_bind; [|intros; apply calmly_ret]. apply calmly_try.
  intros w. apply wp_zoom. eapply wp_mono; [apply JobLogs.AddJobLog_main|]. simpl. intros o s Hs. unfold calm. simpl. rewrite Hs. by destruct (fst (bw_juju w)).
Qed.

Lemma calmly_consume outputCh jobId : calmly (consumeCommandOutput (F:=F) outputCh jobId).
Proof.
  induction outputCh as [|[line|e] out IH]; [apply calmly_ret|..]; (apply calmly_bind; [apply calmly_writeJobLog|]); intros _; [done|apply calmly_throw].
Qed.

Lemma wp_store {A} (m : M (Db T) A) Q w :
  wp m (fun o d => Q o (put_juju (MkWorld (w_fga (fst (bw_juju w))) d, snd (bw_juju w)) w)) (bw_db w) -> wp (store m) Q w.
Proof. intros Hm. apply wp_zoom. by apply wp_jdb. Qed.

(** What a free name means. *)
Lemma noController_wp name w :
  wp (noController name) (fun o w' => quiet w w' /\ (o = Ok tt -> Forall (fun c => c_Name c <> name) (rows (db_controllers (bw_db w))))) w.
Proof.
  unfold noController. apply wp_bind, wp_try, wp_store. eapply wp_mono; [apply GetController_finds|].
  intros o d (Ha & Ht & Ho). assert (quiet w (put_juju (MkWorld (w_fga (fst (bw_juju w))) d, snd (bw_juju w)) w)) as Hq by by split.
  destruct o as [c|e|x|]; cbn [bind_post]; [by wp_value| |done..].
  case_decide as Hc; wp_value; [done|]. split; [done|]. intros _. apply Ho. destruct (decide (ErrorCode e = CodeNotFound)); [done|by destruct Hc].
Qed.
Lemma noReservation_wp name w :
  wp (noReservation name) (fun o w' => quiet w w' /\ (o = Ok tt -> Forall (fun b => cb_Name b <> name) (rows (db_bootstraps (bw_db w))))) w.
Proof.
  unfold noReservation. apply wp_bind, wp_try, wp_store. eapply wp_mono; [apply GetControllerBootstrap_finds|].
  intros o d (Ha & Ht & Ho). assert (quiet w (put_juju (MkWorld (w_fga (fst (bw_juju w))) d, snd (bw_juju w)) w)) as Hq by by split.
  destruct o as [c|e|x|]; cbn [bind_post]; [by wp_value| |done..].
  case_decide as Hc; wp_value; [done|]. split; [done|]. intros _. apply Ho. destruct (decide (ErrorCode e = CodeNotFound)); [done|by destruct Hc].
Qed.

(** ** Starting a bootstrap *)

Definition bootstraps w : list ControllerBootstrap := rows (db_bootstraps (bw_db w)).

(** Nothing but reservations has changed. *)
Definition apart w w' : Prop :=
  bw_tuples w' = bw_tuples w /\ bw_locked w' = bw_locked w /\ apart_bootstraps (bw_db w') = apart_bootstraps (bw_db w).
#[export] Instance apart_equivalence : Equivalence apart.
Proof. split; unfold apart; red; intuition congruence. Qed.

Lemma quiet_apart w w' : quiet w w' -> apart w w' /\ bootstraps w' = bootstraps w /\ rows (db_controllers (bw_db w')) = rows (db_controllers (bw_db w)).
Proof.
  intros [[HT Ht] Hl]. unfold j_tables in Ht. destruct (tables_more _ _ Ht) as (_ & _ & _ & _ & _ & Hb). destruct (tables_eq _ _ Ht) as (_ & Hc & _).
  split_and!; [|done|done]. split_and!; [done|done|by apply apart_bootstraps_tables].
Qed.

Lemma enqueueReserved_wp b user p (l : list ControllerBootstrap) r w :
  bootstraps w = l ++ [r] -> unique_rows (l ++ [r]) -> cb_ID r <> 0%Z ->
  wp (enqueueReserved b user p r) (fun o w' => apart w w' /\
    bootstraps w' = l ++ [match o with Ok id => with_JobID id r | _ => r end]) w.
Proof.
  intros Hl Hu Hz. unfold enqueueReserved. apply wp_bind. eapply wp_mono; [apply calmly_map_err, calmly_cmd|].
  intros o w1 (Ha1 & Hb1 & _)%calm_quiet%quiet_apart. rewrite Hl in Hb1. destruct o as [[id dup]|e|x|]; cbn [bind_post]; [|done..].
  destruct dup; [by wp_value|]. apply wp_bind, wp_try, wp_store. eapply wp_mono; [apply UpdateControllerBootstrap_wp|].
  { unfold bootstraps in Hb1. by rewrite Hb1. }
  intros o d (Ha & Hap & Ho). set (w2 := put_juju _ w1).
  assert (apart w w2) as Ha2 by (etrans; [exact Ha1|by split_and!]). unfold bootstraps in Hb1. rewrite Hb1 in Ho.
  destruct o as [r'|e|x|]; cbn [bind_post]; [| |done..].
  - wp_value. split; [done|]. destruct Ho as [_ Ho]. by eapply (last_saved l r (with_JobID id r)) in Ho as [_ Ho].
  - apply wp_bind, wp_try. eapply wp_mono; [apply calmly_cmd|]. intros o w3 (Ha3 & Hb3 & _)%calm_quiet%quiet_apart.
    assert (bootstraps w3 = l ++ [r]) as Hb by (by rewrite Hb3). assert (apart w w3) as Hap3 by by etrans.
    destruct o; cbn [bind_post]; try wp_value; done.
Qed.

(** The database refused to delete a reservation. *)
Definition left_over r w' : Prop := exists d refused, DeleteControllerBootstrap r d = (bw_db w', refused) /\ refused <> Ok tt.

Lemma removeReservation_wp r w :
  wp (removeReservation r) (fun _ w' => apart w w' /\
    (bootstraps w' = filter (fun x => cb_ID x <> cb_ID r) (bootstraps w) \/ bootstraps w' = bootstraps w /\ left_over r w')) w.
Proof.
  unfold removeReservation. apply wp_bind, wp_try, wp_store. pose proof (DeleteControllerBootstrap_wp r (bw_db w)) as Hwp.
  unfold wp in *. destruct (DeleteControllerBootstrap r (bw_db w)) as [d o] eqn:Hrun. destruct Hwp as (_ & Hap & Ho).
  set (w1 := put_juju _ w). assert (apart w w1) as Ha by by split_and!.
  destruct o as [[]|e|x|]; cbn [bind_post]; try wp_value; (split; [done|]); [by left|right; (split; [done|]); by eexists _, _..].
Qed.

Definition start_post (name : string) w (o : outcome Z) w' : Prop :=
  apart w w' /\
  match o with
  | Ok id =>
      Forall (fun c => c_Name c <> name) (rows (db_controllers (bw_db w))) /\ Forall (fun b => cb_Name b <> name) (bootstraps w) /\
      exists r, bootstraps w' = bootstraps w ++ [r] /\ cb_Name r = name /\ cb_JobID r = Some id
  | _ =>
      bootstraps w' = bootstraps w \/
      exists r, left_over r w' /\ bootstraps w' = bootstraps w ++ [r] /\ cb_Name r = name /\ cb_JobID r = None
  end.

Lemma start_refused name w w1 (o : outcome Z) : quiet w w1 -> (forall id, o <> Ok id) -> start_post name w o w1.
Proof. intros (Ha & Hb & _)%quiet_apart Hn. split; [done|]. destruct o as [id| | |]; [by destruct (Hn id)|by left..]. Qed.

Lemma StartBootstrapJob_wp b user p w :
  unique_rows (bootstraps w) -> wp (StartBootstrapJob b user p) (start_post (pa_ControllerName p) w) w.
Proof.
  intros Hu. set (name := pa_ControllerName p). unfold StartBootstrapJob.
  case_decide; [wp_value; by apply start_refused|].
  apply wp_bind, wp_map_err, wp_lift. destruct (validate p) as [[]|e|x|]; cbn [bind_post]; [|by apply start_refused..].
  apply wp_bind. eapply wp_mono; [apply noController_wp|]. intros o1 w1 [Hq1 Hc]. destruct o1 as [[]|e|x|]; cbn [bind_post]; [|by apply start_refused..].
  apply wp_bind. eapply wp_mono; [apply noReservation_wp|]. intros o2 w2 [Hq2 Hb].
  assert (quiet w w2) as Hq by by etrans. destruct o2 as [[]|e|x|]; cbn [bind_post]; [|by apply start_refused..].
  fold name in Hc, Hb. specialize (Hc eq_refl). specialize (Hb eq_refl). apply quiet_apart in Hq1 as (_ & Hb1 & _). unfold bootstraps in Hb1. rewrite Hb1 in Hb. fold (bootstraps w) in Hb.
  apply quiet_apart in Hq as (Ha2 & Hb2 & _). unfold bootstraps in Hb2 at 1.
  apply wp_bind, wp_map_err, wp_store. eapply wp_mono; [apply AddControllerBootstrap_wp; by rewrite Hb2|]. rewrite Hb2.
  intros o3 d3 (_ & Hap3 & Ho3). set (w3 := put_juju _ w2). assert (apart w w3) as Ha3 by (etrans; [exact Ha2|by split_and!]).
  destruct o3 as [r|e|x|]; cbn [bind_post]; [|by split; [|left]..].
  destruct Ho3 as ((i & now & Hi & ->) & Hrows & Hu3). set (r := row_created i now (reservationOf p)) in *.
  assert (bootstraps w3 = bootstraps w ++ [r]) as Hl by done. rewrite Hrows in Hu3.
  pose proof (enqueueReserved_wp b user p _ r w3 Hl Hu3 Hi) as Hwp. unfold wp, unless_ok in *.
  destruct (enqueueReserved b user p r w3) as [w4 o4]. destruct Hwp as [Ha4 Hb4].
  assert (apart w w4) as Ha by by etrans. destruct o4 as [id|e|x|]; [split_and!; try done; by eexists|..];
    (pose proof (removeReservation_wp r w4) as Hrm; unfold wp in Hrm; destruct (removeReservation r w4) as [w5 o5]; destruct Hrm as [Ha5 Hb5];
     assert (apart w w5) as Haw by (by etrans); rewrite Hb4, last_deleted in Hb5 by done;
     destruct o5; (split; [done|]); (destruct Hb5 as [Hb5|[Hb5 Hlo]]; [by left|right; exists r; by split_and!])).
Qed.

(** C26.  Starting a bootstrap changes reservations only.  When it returns a job,
    no controller and no reservation had the name, and there is now one
    reservation more, of that name and for that job.  When it fails the
    reservations are as before, unless the database refused to take the new
    one back, which then belongs to no job. *)
Theorem StartBootstrapJob_effect b user p w w' o :
  unique_rows (bootstraps w) -> StartBootstrapJob b user p w = (w', o) -> start_post (pa_ControllerName p) w o w'.
Proof. intros Hu. by apply (wp_elim _ (start_post (pa_ControllerName p) w)), StartBootstrapJob_wp. Qed.

(** ** Running a bootstrap *)

Definition controllers w : list Controller := rows (db_controllers (bw_db w)).

(** A controller was added to JIMM. *)
Definition joined (j : JujuManager) (name : string) w w' : Prop :=
  Forall (fun c => c_Name c <> name) (controllers w) /\
  exists c, c_Name c = name /\ controllers w' = controllers w ++ [c] /\ bw_tuples w ⊆ bw_tuples w' /\
    forall t, t ∈ bw_tuples w' -> t ∈ bw_tuples w \/ Ctl.controller_tuple j c t.

(** Either nothing happened to JIMM and there is no success, or there is no
    error and the controller was added. *)
Definition run_post (j : JujuManager) (name : string) w (o : outcome unit) w' : Prop :=
  bw_locked w' = bw_locked w /\
  ((same (bw_juju w) (bw_juju w') /\ o <> Ok tt) \/ (forall e, o <> Err e) /\ joined j name w w' /\ bootstraps w' ⊆ bootstraps w).

(** Postconditions that calm steps before and after do not disturb; a step
    after may turn the outcome into a panic. *)
Class Steady (P : BWorld F T C -> outcome unit -> BWorld F T C -> Prop) := {
  steady_before w w1 o w2 : calm w w1 -> P w1 o w2 -> P w o w2;
  steady_after w o w1 o' w2 : P w o w1 -> calm w1 w2 -> (o' = Ok tt -> o = Ok tt) -> (forall e, o' = Err e -> exists e', o = Err e') -> P w o' w2;
  steady_fail w o w' : calm w w' -> o <> Ok tt -> P w o w';
}.

Lemma calm_facts w w' : calm w w' -> bw_db w' = bw_db w /\ bw_tuples w' = bw_tuples w.
Proof. intros [Hf _]. unfold bw_db, bw_tuples, j_tuples, Perm.w_tuples. by rewrite Hf. Qed.

Lemma run_post_calm j name w w1 o w2 : calm w w1 -> run_post j name w1 o w2 -> run_post j name w o w2.
Proof.
  intros Hc. destruct (calm_facts _ _ Hc) as [Hd HT]. destruct Hc as [Hf Hl]. unfold run_post, joined, controllers, bootstraps, same.
  rewrite Hd, HT, Hl. unfold j_tuples, j_tables, Perm.w_tuples. by rewrite Hf.
Qed.
Lemma run_post_after j name w o w1 o' w2 :
  run_post j name w o w1 -> calm w1 w2 -> (o' = Ok tt -> o = Ok tt) -> (forall e, o' = Err e -> exists e', o = Err e') -> run_post j name w o' w2.
Proof.
  intros [Hl Hp] Hc Hok Herr. destruct (calm_facts _ _ Hc) as [Hd HT]. destruct Hc as [Hf Hl2]. split; [by rewrite Hl2|].
  destruct Hp as [[Hs Hn]|(He & Hj & Hb)]; [left|right].
  - split; [|by intros Ho%Hok]. unfold same, j_tuples, j_tables, Perm.w_tuples in *. by rewrite Hf.
  - split_and!; [|unfold joined, controllers in *; by rewrite Hd, HT|unfold bootstraps in *; by rewrite Hd].
    intros e Ho. destruct (Herr e Ho) as [e' He']. by eapply He.
Qed.
Lemma run_post_calmly j name w o w' : calm w w' -> o <> Ok tt -> run_post j name w o w'.
Proof. intros Hc Hn. pose proof (calm_quiet _ _ Hc) as [Hs Hl]. split; [done|by left]. Qed.
#[export] Instance run_post_steady j name : Steady (run_post j name).
Proof. split; [apply run_post_calm|apply run_post_after|apply run_post_calmly]. Qed.

Lemma AddController_run j job user c creds w :
  Ctl.addable (bw_db w) -> wp (juju (Ctl.AddController_ j (Some job) user c creds)) (run_post j (c_Name c) w) w.
Proof.
  intros Hok. apply wp_zoom. eapply wp_mono; [by apply Ctl.AddController_wp|]. intros o s (_ & Ho). split; [done|].
  destruct Ho as [[Hs Hn]|(c2 & c' & He & Hn & (Hfree & d1 & [Hap Hcl] & (Hins & Hapn & _)) & HT & Hnew)]; [by left|right]. split; [done|].
  destruct Hins as ((i & now & _ & Hc') & Hr & _). unfold apart_bootstraps in Hap. unfold apart_new_controller in Hapn. simplify_eq.
  split; [split; [by rewrite Hn in Hfree|]; eexists; split_and!; [|unfold controllers, bw_db; simpl; rewrite Hr; f_equal; congruence|done|exact Hnew]; done|].
  unfold bootstraps, bw_db. simpl. destruct Hcl as [[Hb _]|(r & _ & _ & _ & _ & Hb)].
  - intros x Hx. congruence.
  - intros x Hx. assert (x ∈ rows (db_bootstraps d1)) as Hx1 by congruence. rewrite Hb in Hx1. by apply list_elem_of_filter in Hx1 as [_ Hx1].
Qed.

Lemma controllerCleanup_wp {A} r job name err details w :
  wp (controllerCleanup (A:=A) r job name err details) (fun o w' => calm w w' /\ forall a, o <> Ok a) w.
Proof.
  unfold controllerCleanup, tryCleanupController. apply wp_bind, wp_try.
  assert (calmly (outputCh ← map_err (fun err => Errorf "failed to run destroy-controller command: %w" [ArgE err])
    (cmd (DestroyRun r (MkDestroyParams name zeroDetails zeroAccount))); consumeCommandOutput outputCh job)) as Hc.
  { apply calmly_bind; [apply calmly_map_err, calmly_cmd|]. intros. apply calmly_consume. }
  eapply wp_mono; [apply Hc|]. intros [] w1 Hw; cbn [bind_post]; try wp_value; done.
Qed.

Lemma or_cleanup_bind {A} j name r job wrap details (m : M (BWorld F T C) A) (k : A -> M (BWorld F T C) unit) w :
  calmly m -> (forall a w1, calm w w1 -> wp (k a) (run_post j name w1) w1) -> wp (or_cleanup r job name wrap details m ≫= k) (run_post j name w) w.
Proof.
  intros Hm Hk. unfold or_cleanup. apply wp_bind, wp_bind, wp_try. eapply wp_mono; [apply Hm|].
  intros [a|e|x|] w1 Hc; cbn [bind_post]; [| |by apply run_post_calmly..].
  - wp_value. cbn [bind_post]. eapply wp_mono; [by apply Hk|]. intros o w2. by apply run_post_calm.
  - eapply wp_mono; [apply controllerCleanup_wp|]. intros o w2 [Hc2 Hn]. assert (calm w w2) by by etrans.
    destruct o as [a| | |]; cbn [bind_post]; [by destruct (Hn a)|by apply run_post_calmly..].
Qed.

Lemma addBootstrapped_wp b p job r user w : Ctl.addable (bw_db w) ->
  wp (addBootstrapped b p job r user) (run_post (bm_juju b) (ba_ControllerName p) w) w.
Proof.
  intros Hok. unfold addBootstrapped. apply or_cleanup_bind; [apply calmly_cmd|]. intros details w1 Hc1.
  apply or_cleanup_bind; [apply calmly_lift|]. intros hps w2 Hc2. apply or_cleanup_bind; [apply calmly_cmd|]. intros account w3 Hc3.
  assert (calm w w3) as Hc by (etrans; [exact Hc1|by etrans]). destruct (calm_facts _ _ Hc) as [Hd _].
  unfold or_cleanup. apply wp_bind, wp_try. eapply wp_mono; [apply AddController_run; by rewrite Hd|]. cbn [c_Name].
  intros [[]|e|x|] w4 Hp; cbn [bind_post]; [by wp_value| |done..].
  eapply wp_mono; [apply controllerCleanup_wp|]. intros o w5 [Hc5 Hn]. eapply run_post_after; [exact Hp|done|by intros ->; destruct (Hn tt)|by eexists].
Qed.

Lemma deferred_post {A} (d : M (BWorld F T C) unit) (m : M (BWorld F T C) A) (Q : outcome A -> BWorld F T C -> Prop) w :
  wp m (fun o w1 => wp d (fun o1 w2 => Q (match o1 with Panic x => Panic x | _ => o end) w2) w1) w -> wp (deferred d m) Q w.
Proof. unfold wp, deferred. destruct (m w) as [w1 o]. by destruct (d w1) as [w2 []]. Qed.

(** A calm deferred function changes neither the result nor JIMM. *)
Lemma deferred_run `{!Steady P} d (m : M (BWorld F T C) unit) w : calmly d -> wp m (P w) w -> wp (deferred d m) (P w) w.
Proof.
  intros Hd Hm. apply deferred_post. eapply wp_mono; [exact Hm|]. intros o w1 Hp. eapply wp_mono; [apply Hd|]. intros o1 w2 Hc.
  eapply steady_after; [exact Hp|done|by destruct o1|]. intros e He. exists e. by destruct o1.
Qed.
Lemma map_err_run `{!Steady P} f (m : M (BWorld F T C) unit) w : wp m (P w) w -> wp (map_err f m) (P w) w.
Proof.
  intros Hm. apply wp_map_err. eapply wp_mono; [exact Hm|]. intros o w1 Hp.
  eapply steady_after; [exact Hp|reflexivity|by destruct o|]. intros e He. destruct o; try done. by eexists.
Qed.
Lemma calm_bind `{!Steady P} {A} (m : M (BWorld F T C) A) k w :
  calmly m -> (forall a w1, calm w w1 -> wp (k a) (P w1) w1) -> wp (m ≫= k) (P w) w.
Proof.
  intros Hm Hk. apply wp_bind. eapply wp_mono; [apply Hm|]. intros o w1 Hc. destruct o as [a|e|x|]; cbn [bind_post]; [|by apply steady_fail..].
  eapply wp_mono; [by apply Hk|]. intros o w2. by apply steady_before.
Qed.

Lemma runBootstrap_wp b p ra r user w : Ctl.addable (bw_db w) ->
  wp (runBootstrap b p ra r user) (run_post (bm_juju b) (ba_ControllerName p) w) w.
Proof.
  intros Hok. unfold runBootstrap. apply (calm_bind (P := run_post _ _)); [apply calmly_map_err, calmly_cmd|]. intros out w1 Hc1.
  apply deferred_run; [apply calmly_bind; [apply calmly_try, calmly_cmd|intros; apply calmly_ret]|].
  apply (calm_bind (P := run_post _ _)); [apply calmly_consume|]. intros _ w2 Hc2. apply addBootstrapped_wp.
  destruct (calm_facts _ _ Hc1) as [Hd1 _], (calm_facts _ _ Hc2) as [Hd2 _]. by rewrite Hd2, Hd1.
Qed.

(** The body of a job runs in a state that differs from the first one in the
    log, the cache and the outside world. *)
Lemma with_binary_run `{!Steady P} b job version what body w :
  (forall path w1, calm w w1 -> wp (body path) (P w1) w1) -> wp (with_binary b job version what body) (P w) w.
Proof.
  intros Hbody. unfold with_binary. apply calm_bind; [apply calmly_writeJobLog|]. intros _ w1 Hc1.
  apply calm_bind; [apply calmly_map_err, calmly_cli|]. intros binary w2 Hc2. apply deferred_run; [apply calmly_cli|].
  unfold at_path, wp. apply Hbody. by etrans.
Qed.

Lemma jobReservation_wp job w :
  wp (store (GetControllerBootstrap (jobReservation job))) (fun o w' => quiet w w' /\
    forall r, o = Ok r -> r ∈ bootstraps w /\ cb_JobID r = Some job) w.
Proof.
  apply wp_store. unfold GetControllerBootstrap. simpl. apply wp_ready; [intros _ _|by intros e _; split].
  eapply wp_mono; [apply first_absent; [apply part_bootstraps|done]|].
  intros o d (_ & Ht & Ho). split; [by split|]. intros r ->. destruct Ho as [Hin Hid%bool_decide_eq_true]. done.
Qed.

Definition boot_post (j : JujuManager) (name : string) (job : Z) w (o : outcome unit) w' : Prop :=
  bw_locked w' = bw_locked w /\
  ((same (bw_juju w) (bw_juju w') /\ o <> Ok tt) \/
   exists r, r ∈ bootstraps w /\ cb_JobID r = Some job /\ bootstraps w' ⊆ bootstraps w /\
     (Forall (fun x => cb_ID x <> cb_ID r) (bootstraps w') \/ left_over r w') /\
     ((bw_tuples w' = bw_tuples w /\ apart_bootstraps (bw_db w') = apart_bootstraps (bw_db w) /\ o <> Ok tt) \/
      (forall e, o <> Err e) /\ joined j name w w')).

(** The reservation of the job goes however the job ends. *)
Lemma reserved_run j name job r (m : M (BWorld F T C) unit) w w1 :
  quiet w w1 -> r ∈ bootstraps w -> cb_JobID r = Some job -> wp m (run_post j name w1) w1 ->
  wp (deferred (removeReservation r) m) (boot_post j name job w) w1.
Proof.
  intros Hq Hr Hjob Hm. apply quiet_apart in Hq as ((HT1 & Hl1 & Hap1) & Hb1 & Hc1). fold (controllers w1) (controllers w) in Hc1.
  apply deferred_post. eapply wp_mono; [exact Hm|]. intros o w2 [Hl2 Hp].
  eapply wp_mono; [apply removeReservation_wp|]. intros o1 w3 [(HT3 & Hl3 & Hap3) Hb3].
  assert (controllers w3 = controllers w2) as Hc3 by (unfold apart_bootstraps in Hap3; by simplify_eq).
  assert (bootstraps w2 ⊆ bootstraps w) as Hb2.
  { rewrite <- Hb1. destruct Hp as [[Hs _]|(_ & _ & Hb)]; [|done]. assert (quiet w1 w2) as (_ & -> & _)%quiet_apart by (split; [exact Hs|exact Hl2]). done. }
  split; [congruence|]. right. exists r. split_and!; [done|done|..].
  - destruct Hb3 as [->|[-> _]]; [|done]. intros x [_ Hx]%list_elem_of_filter. by apply Hb2.
  - destruct Hb3 as [->|[_ Hlo]]; [left|by right]. apply Forall_forall. by intros x [Hx _]%list_elem_of_filter.
  - destruct Hp as [[Hs Hn]|(He & (Hfree & c & Hcn & Hcs & Hsub & Hnew) & _)]; [left|right].
    + assert (quiet w1 w2) as ((HT2 & _ & Hap2) & _)%quiet_apart by (split; [exact Hs|exact Hl2]).
      split_and!; [congruence..|]. by destruct o1.
    + split; [intros e; destruct o1; [apply He..|done|apply He]|]. rewrite Hc1 in Hfree, Hcs. rewrite HT1 in Hsub. setoid_rewrite HT1 in Hnew.
      split; [done|]. exists c. rewrite Hc3, HT3. by split_and!.
Qed.

Lemma BootstrapController_run b p ra user w w' o :
  Ctl.addable (bw_db w) -> BootstrapController b p ra user w = (w', o) ->
  boot_post (bm_juju b) (ba_ControllerName p) (ra_JobID ra) w o w'.
Proof.
  intros Hok Hrun. unfold BootstrapController, with_lock in Hrun. destruct (bw_locked w) eqn:Hlock; [simplify_eq; split; [done|by left]|].
  match type of Hrun with (let '(_, _) := ?m (put_locked true w) in _) = _ => set (body := m) in Hrun;
    assert (wp body (boot_post (bm_juju b) (ba_ControllerName p) (ra_JobID ra) (put_locked true w)) (put_locked true w)) as Hwp end.
  2: { unfold wp in Hwp. destruct (body (put_locked true w)) as [w1 o1]. simplify_eq. destruct Hwp as [_ Hp]. by split. }
  clear Hrun. set (w0 := put_locked true w). subst body.
  assert (forall (o : outcome unit) w1, quiet w0 w1 -> o <> Ok tt -> boot_post (bm_juju b) (ba_ControllerName p) (ra_JobID ra) w0 o w1) as Hfail.
  { intros o1 w1 [Hs Hl] Hn. split; [done|by left]. }
  apply wp_bind. eapply wp_mono; [apply noController_wp|]. intros o1 w1 [Hq1 _]. destruct o1 as [[]|e|x|]; cbn [bind_post]; [|by apply Hfail..].
  apply wp_bind, wp_map_err. eapply wp_mono; [apply jobReservation_wp|]. intros o2 w2 [Hq2 Hr]. assert (quiet w0 w2) as Hq by by etrans.
  destruct o2 as [r|e|x|]; cbn [bind_post]; [|by apply Hfail..]. destruct (Hr r eq_refl) as [Hin Hjob]. clear Hr.
  apply quiet_apart in Hq1 as (_ & Hb1 & _). rewrite Hb1 in Hin.
  apply reserved_run; [done|done|done|]. apply (with_binary_run (P := run_post _ _)). intros path w3 Hc.
  apply (map_err_run (P := run_post _ _)), runBootstrap_wp.
  destruct Hq as [[_ Ht] _], (calm_facts _ _ Hc) as [Hd _]. rewrite Hd. unfold j_tables in Ht. unfold Ctl.addable, adding_ok in *.
  change (w_db (fst (bw_juju w2))) with (bw_db w2) in Ht. all_tables. done.
Qed.


(** ** Reservations that stay *)

Lemma StopJob_calm user id : calmly (StopJob (F:=F) user id).
Proof.
  unfold StopJob. destruct user; [|apply calmly_throw]. apply calmly_bind; [apply calmly_map_err, calmly_cmd|intros; apply calmly_ret].
Qed.

(** Stopping a job does not free the name that it reserved: if the job had not
    begun, and so never frees it itself, no bootstrap of that name starts. *)
Lemma stopped_job_blocks_name b user job p r w w1 o1 w2 o2 :
  unique_rows (bootstraps w) -> r ∈ bootstraps w -> cb_Name r = pa_ControllerName p ->
  StopJob (Some user) job w = (w1, o1) -> StartBootstrapJob b user p w1 = (w2, o2) -> forall id, o2 <> Ok id.
Proof.
  intros Hu Hr Hn Hstop Hstart id ->. apply (wp_elim _ _ _ _ _ (StopJob_calm _ _ w)) in Hstop as (_ & Hb & _)%calm_quiet%quiet_apart.
  rewrite <- Hb in Hu, Hr. apply (wp_elim _ _ _ _ _ (StartBootstrapJob_wp b user p w1 Hu)) in Hstart as [_ (_ & Hfree & _)].
  rewrite Forall_forall in Hfree. by destruct (Hfree r Hr).
Qed.

(** A job that begins before its number is stored with the reservation does
    not find it: it fails and leaves the reservation to a number whose job has
    ended. *)
Lemma early_job_keeps_reservation b p ra user w w' o : Ctl.addable (bw_db w) ->
  Forall (fun r => cb_JobID r <> Some (ra_JobID ra)) (bootstraps w) -> BootstrapController b p ra user w = (w', o) ->
  o <> Ok tt /\ bootstraps w' = bootstraps w.
Proof.
  intros Hok Hnone Hrun. apply BootstrapController_run in Hrun as [Hl [[Hs Hn]|(r & Hr & Hid & _)]]; [| |done].
  - split; [done|]. assert (quiet w w') as (_ & Hb & _)%quiet_apart by by split. done.
  - rewrite Forall_forall in Hnone. by destruct (Hnone r Hr).
Qed.

(** ** Controllers that cannot be added *)

(** The run ended with the destruction of the controller: it succeeded and
    the error says so, or it failed and the error says that too. *)
Definition cleaned_up (r : CommandRunner) (job : Z) (name : string) (e : gerror) w' : Prop :=
  exists w1 cause, (tryCleanupController r job name w1 = (w', Ok tt) /\ e = destroyed cause) \/
    exists err details, tryCleanupController r job name w1 = (w', Err err) /\ e = dangling cause err details.
Definition cleans {A} (r : CommandRunner) (job : Z) (name : string) (o : outcome A) w' : Prop := forall e, o = Err e -> cleaned_up r job name e w'.

Lemma controllerCleanup_cleans {A} r job name err details w : wp (controllerCleanup (A:=A) r job name err details) (cleans r job name) w.
Proof.
  unfold controllerCleanup. apply wp_bind, wp_try. unfold wp at 1. destruct (tryCleanupController r job name w) as [w1 o] eqn:Hrun.
  destruct o as [[]|e|x|]; cbn [bind_post]; try wp_value; intros e' He; simplify_eq; exists w, err; [by left|right; by eexists _, _].
Qed.

Lemma or_cleanup_cleans {A} r job name wrap details (m : M (BWorld F T C) A) w : wp (or_cleanup r job name wrap details m) (cleans r job name) w.
Proof.
  unfold or_cleanup. apply wp_bind, wp_try, wp_any. intros [a|e|x|] w1; cbn [bind_post]; [by wp_value|apply controllerCleanup_cleans|done..].
Qed.

Lemma cleans_bind {A B} r job name (m : M (BWorld F T C) A) (k : A -> M (BWorld F T C) B) w :
  wp m (cleans r job name) w -> (forall a w1, wp (k a) (cleans r job name) w1) -> wp (m ≫= k) (cleans r job name) w.
Proof.
  intros Hm Hk. apply wp_bind. eapply wp_mono; [exact Hm|]. intros [a|e|x|] w1 Hc; cbn [bind_post]; [apply Hk| |done..].
  intros e' He. simplify_eq. by apply Hc.
Qed.

(** C28.  After a successful bootstrap command no error leaves a controller behind
    unnoticed: every error comes after an attempt to destroy the controller,
    and says whether the attempt succeeded. *)
Theorem no_silent_orphans b p job r user w w' e :
  addBootstrapped b p job r user w = (w', Err e) -> cleaned_up r job (ba_ControllerName p) e w'.
Proof.
  intros Hrun. refine (wp_elim _ (cleans r job (ba_ControllerName p)) w w' (Err e) _ Hrun e eq_refl). unfold addBootstrapped.
  do 3 (apply cleans_bind; [apply or_cleanup_cleans|intros ? ?]). apply or_cleanup_cleans.
Qed.

(** ** Waiting for a job *)

Lemma poll_ends fuel jobID c c' o : (ticks_left c < fuel)%nat -> poll fuel jobID c = (c', o) ->
  o <> OutOfFuel /\ forall row, o = Ok row -> exists c1, JobGet jobID c1 = (c', inl row) /\ is_Some (Jobs.j_FinalizedAt row).
Proof.
  revert c. induction fuel as [|fuel IH]; intros c Hlt Hrun; [lia|]. simpl in Hrun. unfold mbind, M_bind, call in Hrun.
  pose proof (law_JobGet jobID c) as Hle. destruct (JobGet jobID c) as [c1 [row|e]] eqn:Hget; simpl in Hrun, Hle; [|by simplify_eq].
  destruct (Jobs.j_FinalizedAt row) as [t|] eqn:Hfin.
  - unfold mret, M_ret in Hrun. simplify_eq. split; [done|]. intros row' ?. simplify_eq. exists c. by rewrite Hfin.
  - unfold tick in Hrun. destruct (next_tick c1) as [c2 [e|]] eqn:Ht; [by simplify_eq|]. apply law_next_tick in Ht. eapply IH; [|exact Hrun]. lia.
Qed.

(** Waiting for a job ends, at the latest with the context, and succeeds only
    when the job is found finished and completed. *)
Theorem WaitForJobCompletion_ends jobId w w' o : WaitForJobCompletion jobId w = (w', o) ->
  o <> OutOfFuel /\ calm w w' /\
  (o = Ok tt -> exists c row, JobGet jobId c = (snd (bw_juju w'), inl row) /\ is_Some (Jobs.j_FinalizedAt row) /\ Jobs.j_State row = Jobs.Completed).
Proof.
  set (Q := fun (o : outcome unit) w' => o <> OutOfFuel /\ calm w w' /\
    (o = Ok tt -> exists c row, JobGet jobId c = (snd (bw_juju w'), inl row) /\ is_Some (Jobs.j_FinalizedAt row) /\ Jobs.j_State row = Jobs.Completed)).
  refine (wp_elim _ Q _ _ _ _). unfold WaitForJobCompletion. apply wp_bind, wp_map_err, wp_zoom, wp_zoom. unfold wp.
  destruct (ClientWaitForJobCompletion jobId (snd (bw_juju w))) as [c o1] eqn:Hrun. apply poll_ends in Hrun as [Hf Hrow]; [|lia].
  destruct o1 as [row|e|x|]; cbn [bind_post]; [|by split_and!..|done]. destruct (Hrow row eq_refl) as (c1 & Hget & Hfin).
  destruct (Jobs.j_State row) eqn:Hst; try (by split_and!).
  - split_and!; [done..|]. intros _. by exists c1, row.
  - by destruct (last _).
Qed.

(** ** Destroying a controller *)

Definition destroy_post (name : string) w (o : outcome unit) w' : Prop :=
  bw_locked w' = bw_locked w /\ bw_tuples w' = bw_tuples w /\
  ((same (bw_juju w) (bw_juju w') /\ o <> Ok tt) \/
   exists c d1, c ∈ controllers w /\ c_Name c = name /\ deleted_models (on_controller c) (bw_db w) d1 /\ deleted_controller c d1 (bw_db w')).

#[export] Instance destroy_post_steady name : Steady (destroy_post name).
Proof.
  unfold destroy_post, controllers. split.
  - intros w w1 o w2 Hc. destruct (calm_facts _ _ Hc) as [Hd HT]. destruct Hc as [Hf Hl]. unfold same, j_tuples, j_tables, Perm.w_tuples. by rewrite Hd, HT, Hl, Hf.
  - intros w o w1 o' w2 (Hl1 & HT1 & Hp) Hc Hok _. destruct (calm_facts _ _ Hc) as [Hd HT]. destruct Hc as [Hf Hl]. rewrite Hd, HT, Hl.
    split_and!; [done..|]. destruct Hp as [[Hs Hn]|Hp]; [left|by right]. split; [|by intros Ho%Hok].
    unfold same, j_tuples, j_tables, Perm.w_tuples in *. by rewrite Hf.
  - intros w o w' Hc Hn. destruct (calm_quiet _ _ Hc) as [Hs Hl]. split_and!; [done|by apply calm_facts|by left].
Qed.

(** Destroying a controller leaves the lock and the tuples as they were.
    Either no row has changed and it did not succeed, or the controller of
    that name, its models and what belongs to them are gone, and nothing
    else. *)
Theorem DestroyController_effect b p ra w w' o :
  Models.models_ok (bw_db w) -> DestroyController b p ra w = (w', o) -> destroy_post (da_ControllerName p) w o w'.
Proof.
  intros Hok Hrun. set (name := da_ControllerName p). unfold DestroyController, with_lock in Hrun.
  destruct (bw_locked w) eqn:Hlock; [simplify_eq; split_and!; [done|done|by left]|].
  match type of Hrun with (let '(_, _) := ?m (put_locked true w) in _) = _ => set (body := m) in Hrun;
    assert (wp body (destroy_post name (put_locked true w)) (put_locked true w)) as Hwp end.
  2: { unfold wp in Hwp. destruct (body (put_locked true w)) as [w1 o1]. simplify_eq. destruct Hwp as (_ & HT & Hp). by split_and!. }
  clear Hrun. subst body. apply (with_binary_run (P := destroy_post name)). intros path w1 Hc1. cbv beta.
  apply (calm_bind (P := destroy_post name)). { apply calmly_map_err. intros w2. by apply wp_zoom. }
  intros [username password] w2 Hc2. apply (calm_bind (P := destroy_post name)); [apply calmly_map_err, calmly_cmd|]. intros out w3 Hc3.
  apply (calm_bind (P := destroy_post name)); [apply calmly_consume|]. intros _ w4 Hc4. apply (map_err_run (P := destroy_post name)), wp_zoom.
  assert (calm (put_locked true w) w4) as Hc by (do 3 (etrans; [eassumption|]); done). destruct (calm_facts _ _ Hc) as [Hd _].
  fold name. unfold wp. destruct (Ctl.RemoveController name true (bw_juju w4)) as [s o1] eqn:Hrun.
  apply Ctl.RemoveController_effect in Hrun as (_ & HT & _ & Hp); [|change (Models.models_ok (bw_db w4)); by rewrite Hd].
  cbv beta. unfold destroy_post. split; [done|]. split; [done|]. destruct Hp as [Hp|(c & d1 & Hin & Hn & _ & Hm & Hdel)]; [by left|right]. by exists c, d1.
Qed.
End facts.
End Bootstrap.
