(* ===== verification/BootstrapApi.v ===== *)
(** * BootstrapApi: the methods of bootstraps ([internal/jujuapi/jimm.go]).

    [GetBootstrapInfo], [StopBootstrap], [StartBootstrap] and
    [StartDestroyController], with the conversions of their parameters.

    The theorems: the number of a job is accepted in the form in which it was
    given out; the code of a refused bootstrap is lost; and only an
    administrator has a controller destroyed, which then has no models. *)

From Stdlib Require Import Ascii.
From stdpp Require Import pretty.
From S2P Require Import Prelude Errors GoStrings Regexp Names AuthModel RefServer OpenFGA Dbmodel Users Database TagResolver Access JujuDb CloudDb JujuBase JujuModels JujuClouds JujuCredentials ControllerDb JujuControllers JujuMigration Upgrade Encoding RpcProxy Jobs JobLog JujuCommands CliStore Bootstrap.

Module BootstrapApi.
Import Commands.
Import Bootstrap.

(** ** [strconv] *)

Definition digit_value (c : ascii) : option Z := if is_digit c then Some (Z.of_nat (nat_of_ascii c) - 48)%Z else None.
Fixpoint digits (acc : Z) (s : string) : option Z :=
  match s with
  | EmptyString => Some acc
  | String c s => d ← digit_value c; digits (acc * 10 + d) s
  end.
Definition in_int64 (z : Z) : bool := (- 2 ^ 63 <=? z)%Z && (z <? 2 ^ 63)%Z.

(** [strconv.ParseInt(s, 10, 64)] *)
Definition ParseInt (s : string) : option Z :=
  n ← match s with
      | EmptyString => None
      | String c rest =>
          if decide (c = "-"%char \/ c = "+"%char) then
            if decide (rest = "") then None else (if decide (c = "-"%char) then Z.opp else id) <$> digits 0 rest
          else digits 0 s
      end;
  if in_int64 n then Some n else None.
Definition FormatInt (z : Z) : string := pretty z.

Lemma digits_go x s : digits 0 (pretty_N_go x s) = digits (Z.of_N x) s.
Proof.
  revert s. induction (N.lt_wf_0 x) as [x _ IH]. intros s. destruct (decide (x = 0)%N) as [->|Hx]; [by rewrite pretty_N_go_0|].
  rewrite pretty_N_go_step by lia. rewrite IH by (apply N.div_lt; lia). simpl.
  assert (digit_value (pretty_N_char (x `mod` 10)) = Some (Z.of_N (x `mod` 10))) as ->.
  { assert (x `mod` 10 < 10)%N as Hlt by (apply N.mod_lt; lia). revert Hlt. generalize (x `mod` 10)%N. intros d Hd.
    destruct d as [|[[[[]|[]|]|[[]|[]|]|]|[[[]|[]|]|[[]|[]|]|]|]]; done || (vm_compute in Hd; done). }
  simpl. f_equal. rewrite N2Z.inj_div, N2Z.inj_mod. pose proof (Z.div_mod (Z.of_N x) 10). lia.
Qed.

Lemma digits_pretty x : digits 0 (pretty x) = Some (Z.of_N x) /\ pretty x <> "".
Proof.
  unfold pretty, pretty_N. case_decide as Hx; [by subst|]. split; [apply digits_go|].
  rewrite pretty_N_go_step by lia. assert (forall y c s, pretty_N_go y (String c s) <> "") as Hne; [|apply Hne].
  intros y. induction (N.lt_wf_0 y) as [y _ IH]. intros c s. destruct (decide (y = 0)%N) as [->|Hy]; [by rewrite pretty_N_go_0|].
  rewrite pretty_N_go_step by lia. apply IH, N.div_lt; lia.
Qed.

(** Digits do not begin with a sign. *)
Lemma ParseInt_digits s n : s <> "" -> digits 0 s = Some n -> in_int64 n = true -> ParseInt s = Some n.
Proof.
  intros Hne Hd Hn. destruct s as [|c s]; [done|]. assert (c <> "-"%char /\ c <> "+"%char) as [Hm Hp].
  { simpl in Hd. split; intros ->; done. }
  unfold ParseInt. rewrite decide_False by tauto. rewrite Hd. cbn -[in_int64 Z.opp]. by rewrite Hn.
Qed.

Lemma ParseInt_negative s n : s <> "" -> digits 0 s = Some n -> in_int64 (- n) = true -> ParseInt (String "-" s) = Some (- n)%Z.
Proof. intros Hne Hd Hn. unfold ParseInt. rewrite decide_True by auto. rewrite decide_False, Hd by done. rewrite decide_True by done. unfold mbind, option_bind, fmap, option_fmap, option_map. by rewrite Hn. Qed.

(** A number that was given out is accepted. *)
Lemma ParseInt_FormatInt z : (- 2 ^ 63 <= z < 2 ^ 63)%Z -> ParseInt (FormatInt z) = Some z.
Proof.
  intros Hz. assert (in_int64 z = true) as Hin by (unfold in_int64; apply andb_true_iff; split; [apply Z.leb_le|apply Z.ltb_lt]; lia).
  unfold FormatInt. destruct z as [|p|p]; [done|..]; destruct (digits_pretty (N.pos p)) as [Hd Hne].
  - by apply ParseInt_digits.
  - exact (ParseInt_negative _ _ Hne Hd Hin).
Qed.

(** ** Parameters *)

(** [params.BootstrapCloud], with its region, and [params.BootstrapParams]. *)
Record BootstrapCloud := MkBootstrapCloud {
  pc_Name : string; pc_Type : string; pc_AuthTypes : list string; pc_CACertificates : list string; pc_Config : option (gmap string goany);
  pc_Endpoint : string; pc_HostCloudRegion : string; pc_Region : JujuRegion;
}.
Record BootstrapRequest := MkBootstrapRequest {
  rq_Cloud : BootstrapCloud; rq_AuthType : string; rq_Attributes : gmap string string; rq_ControllerName : string;
  rq_BootstrapOptions : BootstrapOptions; rq_ControllerVersion : string;
}.

#[export] Instance Endpoints_eq_dec : EqDecision Endpoints.
Proof. solve_decision. Defined.
#[export] Instance JujuRegion_eq_dec : EqDecision JujuRegion.
Proof. solve_decision. Defined.

Definition bootstrapCloudFromParams (p : BootstrapCloud) : JujuCloud :=
  MkJujuCloud (pc_Name p) (pc_Type p) (pc_HostCloudRegion p) (pc_AuthTypes p) (MkEndpoints (pc_Endpoint p) "" "")
    (if decide (pc_Region p = MkJujuRegion "" noEndpoints) then [] else [pc_Region p])
    (pc_CACertificates p) false (pc_Config p) ∅.

Definition bootstrapStoragePoolFromParams (pool : option StoragePool) : option StoragePool :=
  match pool with None => None | Some p => Some (MkPool (sp_Name p) (sp_Type p) (sp_Attributes p)) end.

Definition builtInClouds : list string := ["microk8s"; "localhost"].

Section methods.
Context {F : Type} `{OFGAServer F} {T : Type -> Type} `{Gorm T} `{!JobLogs.TableLock T} {C : Type} `{Controllers C} `{JujuNames} `{Hash}
  `{JujuVersion} `{!System C} `{!Queue C} `{Upgrade.Retry}.
Local Abbreviation BM := (M (BWorld F T C)).
Implicit Types (b : BootstrapManager) (user : User).

Definition unauthorized : gerror := Codef CodeUnauthorized "unauthorized" [].
Definition admins {A} user (m : BM A) : BM A := if negb (JimmAdmin user) then throw unauthorized else m.
Definition job_number (s : string) : BM Z :=
  match ParseInt s with Some id => mret id | None => throw (Codef CodeBadRequest "invalid job ID: %s" [ArgS s]) end.

Definition GetBootstrapInfo user (jobID : string) (watermark : Z) : BM GetBootstrapInfoResponse :=
  admins user (id ← job_number jobID; GetJobInfo id watermark).

Definition StopBootstrap user (jobID : string) : BM unit :=
  admins user (id ← job_number jobID; map_err (fun err => Errorf "failed to stop job: %v" [ArgE err]) (StopJob (Some user) id)).

Definition StartBootstrap b user (req : BootstrapRequest) : BM string :=
  admins user (
    let cloud := rq_Cloud req in
    if decide (pc_Name cloud ∈ builtInClouds)
    then throw (Codef CodeIncompatibleClouds "bootstrap via JIMM does not support built-in clouds like %q" [ArgS (pc_Name cloud)]) else
    let cloudNameAndRegion := if decide (jr_Name (pc_Region cloud) = "") then pc_Name cloud else pc_Name cloud +:+ "/" +:+ jr_Name (pc_Region cloud) in
    id ← map_err (fun err => Errorf "failed to start bootstrap job: %v" [ArgE err])
      (StartBootstrapJob b user (MkBootstrapParams (rq_ControllerVersion req) cloudNameAndRegion (rq_ControllerName req)
         (NewNamedCredential "bootstrap-credential" (rq_AuthType req) (rq_Attributes req) false) (bootstrapCloudFromParams cloud)
         (copyOptions bootstrapStoragePoolFromParams (rq_BootstrapOptions req))));
    mret (FormatInt id)).

Definition StartDestroyController user (controllerName : string) : BM string :=
  admins user (
    ctrl ← map_err (fun err => Errorf "failed to fetch controller info: %w" [ArgE err]) (juju (Ctl.ControllerInfo_ user controllerName));
    modelCount ← map_err (fun err => Errorf "failed to check controller models: %w" [ArgE err]) (juju (Ctl.ControllerModelCount ctrl));
    if decide (modelCount <> 0%Z) then throw (Codef CodeBadRequest "cannot destroy controller with models" []) else
    info ← lift (Ctl.ToControllerInfo ctrl);
    id ← map_err (fun err => Errorf "failed to start destroy-controller job: %v" [ArgE err])
      (StartDestroyControllerJob user (MkDestroyControllerParams controllerName (c_UUID ctrl) (c_AgentVersion ctrl) (c_CloudName ctrl) (c_CloudRegion ctrl)
         (Ctl.ci_APIAddresses info) (c_PublicAddress ctrl) (c_CACertificate ctrl)));
    mret (FormatInt id)).
End methods.

Section facts.
Context {F : Type} `{OFGALaws F} {T : Type -> Type} `{GormLaws T} `{!JobLogs.TableLock T} {C : Type} `{Controllers C} `{JujuNames} `{Hash}
  `{JujuVersion} `{!System C} `{!Queue C} `{Upgrade.Retry}.
Implicit Types w : BWorld F T C.

(** The manager's code of a refused bootstrap does not reach the caller. *)
Lemma StartBootstrap_loses_code b user req w w' e : JimmAdmin user = true -> pc_Name (rq_Cloud req) ∉ builtInClouds ->
  StartBootstrap b user req w = (w', Err e) -> ErrorCode e = "".
Proof.
  intros Ha Hb Hrun. refine (wp_elim _ (fun o _ => forall e, o = Err e -> ErrorCode e = "") w w' (Err e) _ Hrun e eq_refl).
  unfold StartBootstrap, admins. rewrite Ha. simpl negb. cbv iota zeta. rewrite decide_False by done.
  apply wp_bind, wp_map_err, wp_any. intros [id|e1|x|] w1; cbn [bind_post]; try wp_value; intros e2 He; by simplify_eq.
Qed.

(** Reads of the Juju manager, lifted. *)
Lemma wp_juju_finds {A} (P : A -> Prop) (m : M (JW F T C) A) w :
  wp m (finds still P (bw_juju w)) (bw_juju w) -> wp (juju m) (fun o w' => quiet w w' /\ forall a, o = Ok a -> P a) w.
Proof.
  intros Hm. apply wp_zoom. eapply wp_mono; [exact Hm|]. intros o s (_ & [Hs _] & HP). split; [by split|done].
Qed.

Lemma ControllerInfo_finds user name (s : JW F T C) :
  wp (Ctl.ControllerInfo_ user name) (finds still (fun c => c ∈ rows (db_controllers (w_db (fst s))) /\ c_Name c = name) s) s.
Proof.
  unfold Ctl.ControllerInfo_. eapply (finds_bind still); [apply finds_jdb, GetController_sees|]. intros c s1 _ (Hc & _ & Hn).
  eapply (finds_bind still); [apply (finds_tag still)|]. intros t s2 _ _.
  eapply (finds_bind still); [apply finds_map_err, finds_check|]. intros ok s3 _ _.
  destruct ok; [apply (finds_ret still); split; [done|by apply Hn]|apply (finds_throw still)].
Qed.

(** A job that destroys a controller is started by an administrator only, for
    a controller that JIMM has and that has no models. *)
Theorem StartDestroyController_empty user name w w' id : StartDestroyController user name w = (w', Ok id) ->
  JimmAdmin user = true /\ quiet w w' /\
  exists c, c ∈ controllers w /\ c_Name c = name /\ Forall (fun m => m_ControllerID m <> c_ID c) (rows (db_models (bw_db w))).
Proof.
  set (Q := fun (o : outcome string) w' => quiet w w' /\ forall a, o = Ok a -> JimmAdmin user = true /\
    exists c, c ∈ controllers w /\ c_Name c = name /\ Forall (fun m => m_ControllerID m <> c_ID c) (rows (db_models (bw_db w)))).
  intros Hrun. enough (Q (Ok id) w') as [Hq HQ] by (destruct (HQ id eq_refl); by split_and!).
  refine (wp_elim _ Q _ _ _ _ Hrun). unfold StartDestroyController, admins. destruct (JimmAdmin user) eqn:Ha; simpl negb; cbv iota; [|by wp_value].
  assert (forall (o : outcome string) w1, quiet w w1 -> (forall a, o <> Ok a) -> Q o w1) as Hfail by (intros o w1 Hq Hn; split; [done|by intros a ->; destruct (Hn a)]).
  apply wp_bind, wp_map_err. eapply wp_mono; [apply wp_juju_finds, ControllerInfo_finds|]. intros o w1 [Hq1 Hc].
  destruct o as [c|e|x|]; cbn [bind_post]; [|by apply Hfail..]. destruct (Hc c eq_refl) as [Hin Hname]. clear Hc.
  apply wp_bind, wp_map_err. unfold Ctl.ControllerModelCount. eapply wp_mono.
  { apply wp_juju_finds. eapply (finds_bind still); [apply finds_jdb, GetModelsByController_sees|]. intros ms s _ Hms.
    apply (finds_ret still (fun n => n = 0%Z -> Forall (fun m => m_ControllerID m <> c_ID c) (rows (db_models (bw_db w1))))).
    intros Hz. apply Forall_forall. intros m Hm Hmc. assert (m ∈ ms) as Hi by by apply Hms. destruct ms; [by apply elem_of_nil in Hi|done]. }
  intros o w2 [Hq2 Hn]. assert (quiet w w2) as Hq by by etrans. destruct o as [n|e|x|]; cbn [bind_post]; [|by apply Hfail..].
  specialize (Hn n eq_refl). case_decide as Hz; [wp_value; by apply Hfail|]. apply wp_bind, wp_lift.
  destruct (Ctl.ToControllerInfo c) as [info|e|x|]; cbn [bind_post]; [|by apply Hfail..].
  apply wp_bind, wp_map_err. unfold StartDestroyControllerJob. apply wp_bind. eapply wp_mono; [apply calmly_map_err, calmly_cmd|].
  intros o w3 Hc3%calm_quiet. assert (quiet w w3) as Hq3 by by etrans. destruct o as [[jid dup]|e|x|]; cbn [bind_post]; [|by apply Hfail..].
  destruct dup; wp_value; cbn [bind_post]; [by apply Hfail|]. wp_value. split; [done|]. intros _ _. split; [done|]. exists c.
  destruct Hq1 as [[_ Ht] _]. unfold j_tables in Ht. destruct (tables_eq _ _ Ht) as (_ & _ & Hm & _). unfold bw_db in Hn. rewrite Hm in Hn.
  split_and!; [done|done|]. apply Hn. destruct (decide (n = 0%Z)); [done|by destruct Hz].
Qed.
End facts.
End BootstrapApi.
