(* ===== verification/PubSub.v ===== *)
(** * PubSub: messages about models ([internal/pubsub/hub.go]).

    A hub remembers the last message about each model and passes new ones to
    its subscribers.  Handlers run in parallel; [hub_log] lists the calls in the
    order in which the hub hands them to the runner, which may let them
    overlap.  The runner rejects a negative limit, so limits are not negative
    here.  A
    subscriber is known by its index, which is what the unsubscribe function
    closes over.

    The theorem compares the hub, for every sequence of operations, with an
    automaton of a single subscriber. *)

From S2P Require Import Prelude Errors.

Module PubSub.
Section hub.
Context {A : Type}.

Record subscriber := MkSubscriber { matcher : string -> bool; handler : nat }.

Record Hub := MkHub {
  MaxConcurrency : Z;
  parallel : option Z;
  idx : Z;
  subscribers : gmap Z subscriber;
  messages : gmap string A;
  hub_log : list (Z * nat * string * A);
}.

(** The zero value with a limit; nil maps read as empty ones. *)
Definition newHub (maxConcurrency : Z) : Hub := MkHub maxConcurrency None 0 ∅ ∅ [].

Definition setupParallel (h : Hub) : Hub :=
  match parallel h with
  | Some _ => h
  | None => MkHub (MaxConcurrency h) (Some (if decide (MaxConcurrency h = 0%Z) then 100%Z else MaxConcurrency h))
              (idx h) (subscribers h) (messages h) (hub_log h)
  end.

(** The call of a handler, if its matcher accepts the model. *)
Definition call (model : string) (content : A) (x : Z * subscriber) : option (Z * nat * string * A) :=
  if matcher x.2 model then Some (x.1, handler x.2, model, content) else None.
Definition replay (i : Z) (hd : nat) (f : string -> bool) (mc : string * A) : option (Z * nat * string * A) :=
  if f mc.1 then Some (i, hd, mc.1, mc.2) else None.

Definition Publish (model : string) (content : A) (h : Hub) : Hub :=
  let h := setupParallel h in
  MkHub (MaxConcurrency h) (parallel h) (idx h) (subscribers h) (<[model := content]> (messages h))
    (hub_log h ++ omap (call model content) (map_to_list (subscribers h))).

(** [None] stands for a nil function.  The result is the index of the new
    subscriber. *)
Definition SubscribeMatch (modelMatcher : option (string -> bool)) (hd : option nat) (h : Hub) : Hub * outcome Z :=
  match hd, modelMatcher with
  | None, _ => (h, Err (New "handler not specified"))
  | _, None => (h, Err (New "model matcher not specified"))
  | Some hd, Some f =>
      let i := idx h in
      (MkHub (MaxConcurrency h) (parallel h) (int64 (idx h + 1)) (<[i := MkSubscriber f hd]> (subscribers h)) (messages h)
         (hub_log h ++ omap (replay i hd f) (map_to_list (messages h))), Ok i)
  end.

Definition modelMatches (matchModel : string) : string -> bool := fun model => bool_decide (matchModel = model).

Definition Subscribe (model : string) (hd : option nat) (h : Hub) : Hub * outcome Z :=
  SubscribeMatch (Some (modelMatches model)) hd h.

(** The function that [SubscribeMatch] returns. *)
Definition unsubscribe (i : Z) (h : Hub) : Hub :=
  MkHub (MaxConcurrency h) (parallel h) (idx h) (delete i (subscribers h)) (messages h) (hub_log h).

(** ** Runs *)

Inductive hub_op :=
| OpPublish (model : string) (content : A)
| OpSubscribe (f : string -> bool) (hd : nat)
| OpUnsubscribe (i : Z).

Definition hub_step (h : Hub) (op : hub_op) : Hub :=
  match op with
  | OpPublish model content => Publish model content h
  | OpSubscribe f hd => (SubscribeMatch (Some f) (Some hd) h).1
  | OpUnsubscribe i => unsubscribe i h
  end.

Definition hub_run (n : Z) (ops : list hub_op) : Hub := foldl hub_step (newHub n) ops.

(** What subscriber [i] was called with. *)
Definition to_subscriber (i : Z) (d : Z * nat * string * A) : option (string * A) :=
  if decide (d.1.1.1 = i) then Some (d.1.2, d.2) else None.
Definition delivered (i : Z) (h : Hub) : list (string * A) := omap (to_subscriber i) (hub_log h).

(** ** One subscriber *)

Record view := MkView { v_count : Z; v_last : gmap string A; v_active : option (string -> bool); v_out : list (string * A) }.

Definition view_step (i : Z) (v : view) (op : hub_op) : view :=
  match op with
  | OpPublish model content =>
      MkView (v_count v) (<[model := content]> (v_last v)) (v_active v)
        (match v_active v with Some f => if f model then v_out v ++ [(model, content)] else v_out v | None => v_out v end)
  | OpSubscribe f _ =>
      if decide (v_count v = i)
      then MkView (v_count v + 1) (v_last v) (Some f) (v_out v ++ filter (fun mc => f mc.1 = true) (map_to_list (v_last v)))
      else MkView (v_count v + 1) (v_last v) (v_active v) (v_out v)
  | OpUnsubscribe j => MkView (v_count v) (v_last v) (if decide (j = i) then None else v_active v) (v_out v)
  end.

Definition view_of (i : Z) (ops : list hub_op) : view := foldl (view_step i) (MkView 0 ∅ None []) ops.

(** The hub and the automaton agree. *)
Definition agrees (i : Z) (h : Hub) (v : view) : Prop :=
  idx h = v_count v /\ messages h = v_last v /\ matcher <$> subscribers h !! i = v_active v /\
  delivered i h = v_out v /\ (0 <= v_count v)%Z.

Lemma omap_none {B C} (f : B -> option C) l : (forall x, x ∈ l -> f x = None) -> omap f l = [].
Proof.
  induction l as [|x l IH]; intros Hf; [done|]. simpl. rewrite Hf by set_solver. apply IH. set_solver.
Qed.

(** The deliveries to one subscriber of a publication. *)
Lemma publish_one i model content (subs : gmap Z subscriber) :
  omap (to_subscriber i) (omap (call model content) (map_to_list subs))
  = match subs !! i with Some s => if matcher s model then [(model, content)] else [] | None => [] end.
Proof.
  pose proof (NoDup_fst_map_to_list subs) as Hnd.
  assert (forall s, subs !! i = Some s <-> (i, s) ∈ map_to_list subs) as Hin by (intros s; by rewrite elem_of_map_to_list).
  revert Hnd Hin. generalize (subs !! i). generalize (map_to_list subs). intros l.
  induction l as [|[j s] l IH]; intros o Hnd Hin.
  - destruct o as [s|]; [|done]. by pose proof (proj1 (Hin s) eq_refl) as ?%elem_of_nil.
  - cbn [fmap list_fmap fst] in Hnd. apply NoDup_cons in Hnd as [Hj Hnd]. destruct (decide (j = i)) as [->|Hne].
    + assert (o = Some s) as -> by (apply Hin; by left).
      assert (omap (to_subscriber i) (omap (call model content) l) = []) as Hl.
      { apply omap_none. intros d Hx. apply list_elem_of_omap in Hx as ([j' s'] & Hx & Hm).
        unfold call in Hm. destruct (matcher _ _); simplify_eq. unfold to_subscriber. simpl.
        rewrite decide_False; [done|]. intros ->. apply Hj. apply list_elem_of_fmap. by exists (i, s'). }
      cbn [omap list_omap]. unfold call at 1. simpl. destruct (matcher s model); simpl; [|done].
      unfold to_subscriber at 1. simpl. rewrite decide_True by done. f_equal. exact Hl.
    + assert (forall s0, o = Some s0 <-> (i, s0) ∈ l) as Hin'.
      { intros s0. rewrite Hin, elem_of_cons. split; [intros [[= -> ->]|?]; done|by right]. }
      cbn [omap list_omap]. unfold call at 1. simpl. destruct (matcher s model); simpl; [|by apply IH].
      unfold to_subscriber at 1. simpl. rewrite decide_False by done. by apply IH.
Qed.

(** The deliveries of a subscription. *)
Lemma subscribe_one i j hd f (ms : list (string * A)) :
  omap (to_subscriber i) (omap (replay j hd f) ms) = if decide (j = i) then filter (fun mc => f mc.1 = true) ms else [].
Proof.
  induction ms as [|[m c] ms IH]; [simpl; by case_decide|]. rewrite filter_cons. cbn [omap list_omap].
  unfold replay at 1. cbn [fst snd]. destruct (f m) eqn:Hf; cbn [omap list_omap].
  - unfold to_subscriber at 1. cbn [fst snd]. rewrite (decide_True (P := true = true)) by done.
    change (list_omap _ _ (to_subscriber i) (list_omap _ _ (replay j hd f) ms)) with
      (omap (to_subscriber i) (omap (replay j hd f) ms)). rewrite IH. by case_decide.
  - rewrite (decide_False (P := false = true)) by done. exact IH.
Qed.

Lemma agrees_step i h v op :
  agrees i h v -> (v_count v < 2 ^ 63 - 1)%Z -> agrees i (hub_step h op) (view_step i v op).
Proof.
  intros (Hi & Hm & Ha & Hd & Hpos) Hlt. destruct op as [model content|f hd|j]; simpl.
  - assert (idx (setupParallel h) = idx h /\ messages (setupParallel h) = messages h /\
      subscribers (setupParallel h) = subscribers h /\ hub_log (setupParallel h) = hub_log h) as (E1 & E2 & E3 & E4)
      by (unfold setupParallel; by destruct (parallel h)).
    unfold Publish, agrees, delivered in *. cbn [idx messages subscribers hub_log v_count v_last v_active v_out].
    rewrite E1, E2, E3, E4. split_and!; [done|by rewrite Hm|done| |done].
    rewrite omap_app, publish_one, Hd, <- Ha. destruct (subscribers h !! i) as [s|]; simpl; [|by rewrite app_nil_r].
    destruct (matcher s model); by rewrite ?app_nil_r.
  - unfold agrees, delivered in *. cbn [idx messages subscribers hub_log].
    rewrite omap_app, subscribe_one, Hd, Hi, Hm, int64_id by lia.
    destruct (decide (v_count v = i)) as [<-|Hne]; cbn [v_count v_last v_active v_out].
    + split_and!; try done; [by rewrite lookup_insert_eq|lia].
    + split_and!; try done; [by rewrite lookup_insert_ne|by rewrite app_nil_r|lia].
  - unfold unsubscribe, agrees, delivered in *. cbn [idx messages subscribers hub_log v_count v_last v_active v_out].
    split_and!; try done. destruct (decide (j = i)) as [->|Hne]; [by rewrite lookup_delete_eq|by rewrite lookup_delete_ne].
Qed.

Lemma view_count i ops : (v_count (view_of i ops) <= Z.of_nat (length ops))%Z.
Proof.
  unfold view_of. assert (forall v, (v_count (foldl (view_step i) v ops) <= v_count v + Z.of_nat (length ops))%Z) as Hg;
    [|specialize (Hg (MkView 0 ∅ None [])); simpl in Hg; lia].
  induction ops as [|op ops IH]; intros v; simpl; [lia|].
  specialize (IH (view_step i v op)). destruct op; simpl in *; repeat case_decide; simpl in *; lia.
Qed.

(** For every sequence of publications, subscriptions and
    cancellations (fewer than 2^63), the calls handed to the runner for
    each subscriber are exactly those it should see: when it subscribes, the
    last message of every matching model, then every later message about a
    matching model, once and in the order of publication, until it
    unsubscribes, and nothing else, whatever the other subscribers do. *)
Theorem hub_delivers n ops i :
  (0 <= n)%Z -> (Z.of_nat (length ops) < 2 ^ 63)%Z ->
  delivered i (hub_run n ops) = v_out (view_of i ops) /\ messages (hub_run n ops) = v_last (view_of i ops).
Proof.
  intros _ Hlen. assert (agrees i (hub_run n ops) (view_of i ops)) as (_ & ? & _ & ? & _); [|done].
  unfold hub_run, view_of. induction ops as [|op ops IH] using rev_ind.
  - unfold agrees. simpl. rewrite lookup_empty. by split_and!.
  - rewrite !foldl_app. simpl. rewrite length_app in Hlen. simpl in Hlen. apply agrees_step; [apply IH; lia|].
    pose proof (view_count i ops) as Hc. unfold view_of in Hc. lia.
Qed.

End hub.
Arguments Hub : clear implicits.
Arguments hub_op : clear implicits.
End PubSub.
