(* ===== verification/Watchers.v ===== *)
(** * Watchers: watching the summaries of models
    ([internal/jujuapi/modelsummarywatcher.go] and the methods
    [WatchModelSummaries] and [WatchAllModelSummaries] of [controller.go]).

    A client asks for a watcher; it gets the summaries that the hub passes on,
    for the models in a list of the models that its user may see.  A task is to
    read that list again every minute, until its context is done.

    The watchers, the hub and the calls run in parallel: the state is that of
    the hub and of all watchers, the steps are those of the calls, of the hub,
    of the handlers that the hub has handed out and of the tasks.  The list of
    models is read in a world that the step brings with it.

    The theorems: a watcher hands out only summaries that were published for
    models that the user of the connection could see when the list was read;
    but the context of a watcher is that of the call that made it, which is
    done when the call returns, and from then on the list never changes. *)

From stdpp Require Import sorting.
From S2P Require Import Prelude Errors Regexp Names AuthModel RefServer OpenFGA Dbmodel Users Database TagResolver Access JujuDb CloudDb JujuBase JujuModels PubSub.

Module Watch.

(** [jujuparams.ModelAbstract]; the other fields are its text. *)
Record ModelAbstract := MkAbstract { ab_UUID : string; ab_Rest : string }.
(** What the hub carries: an abstract, or a value of another type. *)
Definition content : Type := option ModelAbstract.

Section watch.
Context {F : Type} `{OFGAServer F} {T : Type -> Type} `{Gorm T} {C : Type} `{Controllers C} `{JujuNames} `{Hash}.
Local Abbreviation JM := (M (JW F T C)).
Implicit Types (user : User).

(** ** The models of a user *)

(** The models that [ForEachUserModel] passes to its function. *)
Fixpoint userModels user (models : list LoadedModel) : JM (list LoadedModel) :=
  match models with
  | [] => mret []
  | lm :: models =>
      tag ← lift (Model_ResourceTag (lm_Model lm));
      access ← world (Perm.GetUserModelAccess user tag);
      _ ← (if decide (access = "read" \/ access = "write" \/ access = "admin") then lift (NewUserTag (m_OwnerIdentityName (lm_Model lm))) ≫= (fun _ => mret tt)
           else mret tt);
      rest ← userModels user models;
      mret (if decide (access = "read" \/ access = "write" \/ access = "admin") then lm :: rest else rest)
  end.
(** [allModels]: the function makes a [jujuparams.Model] of each, with the tag
    of its owner. *)
Definition allModels user : JM (list LoadedModel) :=
  models ← jdb AllModels;
  userModels user models.

(** The functions that list models: of the user, or all of them for an
    administrator. *)
Inductive getter := OwnModels | EveryModel.
Definition uuid_of (lm : LoadedModel) : string := default "" (m_UUID (lm_Model lm)).
Definition modelGetterFunc (g : getter) user : JM (list string) :=
  match g with
  | OwnModels => models ← allModels user; mret (uuid_of <$> models)
  | EveryModel =>
      if negb (JimmAdmin user) then throw Unauthorized else
      models ← jdb AllModels;
      mret (uuid_of <$> models)
  end.

(** ** Watchers *)

Record watcher := MkWatcher {
  w_getter : getter;
  w_done : bool; (* the context is cancelled *)
  w_looping : bool;
  w_models : gset string;
  w_sub : Z;
  w_summaries : gmap string ModelAbstract;
}.
Record state := MkState {
  hub : @PubSub.Hub content;
  watchers : gmap nat watcher;
  registry : gmap string nat;
  handed : list (Z * nat * string * content); (* calls of handlers that the runner has not run *)
}.
Implicit Types (w : watcher) (st : state).

Definition start_state (maxConcurrency : Z) : state := MkState (PubSub.newHub maxConcurrency) ∅ ∅ [].

Definition match_ w (model : string) : bool := bool_decide (model ∈ w_models w).

Definition put_hub h st : state :=
  MkState h (watchers st) (registry st) (handed st ++ drop (length (PubSub.hub_log (hub st))) (PubSub.hub_log h)).
Definition put_watcher (g : nat) w st : state := MkState (hub st) (<[g := w]> (watchers st)) (registry st) (handed st).
Definition with_done w := MkWatcher (w_getter w) true (w_looping w) (w_models w) (w_sub w) (w_summaries w).
Definition with_looping b w := MkWatcher (w_getter w) (w_done w) b (w_models w) (w_sub w) (w_summaries w).
Definition with_models l w := MkWatcher (w_getter w) (w_done w) (w_looping w) l (w_sub w) (w_summaries w).
Definition with_summaries m w := MkWatcher (w_getter w) (w_done w) (w_looping w) (w_models w) (w_sub w) m.

(** The subscription calls [match_] on the watcher, so it sees its models as
    they are. *)
Definition rematch (g : nat) w (h : @PubSub.Hub content) : @PubSub.Hub content :=
  match PubSub.subscribers h !! w_sub w with
  | Some x => if decide (PubSub.handler x = g)
      then PubSub.MkHub (PubSub.MaxConcurrency h) (PubSub.parallel h) (PubSub.idx h)
             (<[w_sub w := PubSub.MkSubscriber (match_ w) g]> (PubSub.subscribers h)) (PubSub.messages h) (PubSub.hub_log h)
      else h
  | None => h
  end.

(** [modelAccessWatcher.do]: the list is kept when the function fails. *)
Definition do (r : outcome (list string)) (models : gset string) : gset string :=
  match r with Ok l => list_to_set l | _ => models end.

(** [newModelSummaryWatcher] and [register]. *)
Definition newModelSummaryWatcher (g : nat) (id : string) (gt : getter) (r : outcome (list string)) st : state :=
  let models := do r ∅ in
  let '(h, o) := PubSub.SubscribeMatch (Some (fun m => bool_decide (m ∈ models))) (Some g) (hub st) in
  match o with
  | Ok i => put_hub h (MkState (hub st) (<[g := MkWatcher gt false true models i ∅]> (watchers st)) (<[id := g]> (registry st)) (handed st))
  | _ => st
  end.

(** [modelSummaryWatcher.pubsubHandler] *)
Definition pubsubHandler (model : string) (c : content) w : watcher :=
  match c with None => w | Some summary => with_summaries (<[model := summary]> (w_summaries w)) w end.

(** [Stop], that is the function [cleanup]. *)
Definition Stop (g : nat) st : state :=
  match watchers st !! g with
  | Some w => put_hub (PubSub.unsubscribe (w_sub w) (hub st)) (put_watcher g (with_done w) st)
  | None => st
  end.

Definition abstract_le (a b : ModelAbstract) : Prop := String.leb (ab_UUID a) (ab_UUID b) = true.
#[export] Instance abstract_le_dec : RelDecision abstract_le.
Proof. intros a b. unfold abstract_le. apply _. Defined.
Definition Next w : list ModelAbstract := merge_sort abstract_le ((map_to_list (w_summaries w)).*2).

(** [watcherRegistry.get] *)
Definition registry_get (id : string) st : outcome nat :=
  match registry st !! id with Some g => Ok g | None => Err (Codef CodeNotFound "not found" []) end.
Definition ModelSummaryWatcherNext (objID : string) st : outcome (list ModelAbstract) :=
  g ← registry_get objID st;
  match watchers st !! g with Some w => Ok (Next w) | None => Panic "nil pointer dereference" end.
Definition ModelSummaryWatcherStop (objID : string) st : state * outcome unit :=
  match registry_get objID st with Ok g => (Stop g st, Ok tt) | Err e => (st, Err e) | Panic p => (st, Panic p) | OutOfFuel => (st, OutOfFuel) end.

(** ** Steps *)

Inductive event :=
| EWatch (g : nat) (id : string) (gt : getter) (user : User) (s : JW F T C)
| EReturn (g : nat) (* the call of [WatchModelSummaries] returns *)
| ETick (g : nat) (user : User) (s : JW F T C)
| EDone (g : nat)
| EPublish (model : string) (c : content)
| EHandle (n : nat)
| EStop (objID : string).

(** [WatchAllModelSummaries] is for administrators. *)
Definition may_watch (gt : getter) user : bool := match gt with OwnModels => true | EveryModel => JimmAdmin user end.

Definition step (ev : event) st : option state :=
  match ev with
  | EWatch g id gt user s =>
      match watchers st !! g with
      | Some _ => None
      | None =>
          if negb (may_watch gt user) then Some st else
          match (modelGetterFunc gt user s).2 with
          | Panic _ | OutOfFuel => None
          | r => Some (newModelSummaryWatcher g id gt r st)
          end
      end
  | EReturn g => match watchers st !! g with Some w => Some (put_watcher g (with_done w) st) | None => None end
  | ETick g user s =>
      match watchers st !! g with
      | Some w =>
          if negb (w_looping w) then None
          else if w_done w then Some st (* the queries fail *)
          else match (modelGetterFunc (w_getter w) user s).2 with
               | Panic _ | OutOfFuel => None
               | r => let w := with_models (do r (w_models w)) w in Some (put_hub (rematch g w (hub st)) (put_watcher g w st))
               end
      | None => None
      end
  | EDone g => match watchers st !! g with Some w => if w_done w then Some (put_watcher g (with_looping false w) st) else None | None => None end
  | EPublish model c => Some (put_hub (PubSub.Publish model c (hub st)) st)
  | EHandle n =>
      match handed st !! n with
      | Some (_, g, model, c) =>
          let st := MkState (hub st) (watchers st) (registry st) (delete n (handed st)) in
          match watchers st !! g with Some w => Some (put_watcher g (pubsubHandler model c w) st) | None => Some st end
      | None => None
      end
  | EStop objID => Some (ModelSummaryWatcherStop objID st).1
  end.

Inductive run (n : Z) : list event -> state -> Prop :=
| run_start : run n [] (start_state n)
| run_step evs ev st st' : run n evs st -> step ev st = Some st' -> run n (ev :: evs) st'.

(** ** What watchers hand out *)

Implicit Types (evs : list event).

(** A list that was read for the watcher has the model. *)
Definition listed evs (g : nat) (m : string) : Prop :=
  exists gt user s s' l, ((exists id, EWatch g id gt user s ∈ evs) \/ ETick g user s ∈ evs) /\
    modelGetterFunc gt user s = (s', Ok l) /\ m ∈ l.

Lemma listed_more evs ev g m : listed evs g m -> listed (ev :: evs) g m.
Proof.
  intros (gt & u & s & s' & l & Hev & Hl & Hm). exists gt, u, s, s', l. split; [|done].
  destruct Hev as [[id Hev]|Hev]; [left; exists id; by right|right; by right].
Qed.

Definition watcher_ok evs (g : nat) w : Prop :=
  (forall m, m ∈ w_models w -> listed evs g m) /\
  (forall m a, w_summaries w !! m = Some a -> EPublish m (Some a) ∈ evs /\ listed evs g m).
Definition handed_ok evs (x : Z * nat * string * content) : Prop := EPublish x.1.2 x.2 ∈ evs /\ listed evs x.1.1.2 x.1.2.

Record hub_ok evs (h : @PubSub.Hub content) : Prop := MkHubOk {
  hok_messages : forall m c, PubSub.messages h !! m = Some c -> EPublish m c ∈ evs;
  hok_subscribers : forall i x m, PubSub.subscribers h !! i = Some x -> PubSub.matcher x m = true -> listed evs (PubSub.handler x) m;
}.
Record inv evs st : Prop := MkInv {
  inv_watchers : forall g w, watchers st !! g = Some w -> watcher_ok evs g w;
  inv_hub : hub_ok evs (hub st);
  inv_handed : Forall (handed_ok evs) (handed st);
}.

Lemma watcher_ok_more evs ev g w : watcher_ok evs g w -> watcher_ok (ev :: evs) g w.
Proof. intros [H1' H2']. split; [eauto using listed_more|]. intros m a Ha. destruct (H2' m a Ha). split; [by right|by apply listed_more]. Qed.
Lemma hub_ok_more evs ev h : hub_ok evs h -> hub_ok (ev :: evs) h.
Proof. intros [Hm Hs]. split; [intros m c Hc; right; by apply Hm|eauto using listed_more]. Qed.
Lemma handed_ok_more evs ev l : Forall (handed_ok evs) l -> Forall (handed_ok (ev :: evs)) l.
Proof. intros Hl. eapply Forall_impl; [exact Hl|]. intros x [? ?]. split; [by right|by apply listed_more]. Qed.

(** A step that replaces one watcher. *)
Lemma inv_watcher evs ev g w st : inv evs st -> watcher_ok (ev :: evs) g w -> inv (ev :: evs) (put_watcher g w st).
Proof.
  intros [Iw Ih Il] Hw. split; simpl; [|by apply hub_ok_more|by apply handed_ok_more].
  intros g' w' Hl. apply lookup_insert_Some in Hl as [[<- <-]|[_ Hl]]; [done|]. by apply watcher_ok_more, Iw.
Qed.
(** A step of the hub that hands out the calls [new]. *)
Lemma inv_put_hub evs h st new :
  inv evs st -> hub_ok evs h -> PubSub.hub_log h = PubSub.hub_log (hub st) ++ new -> Forall (handed_ok evs) new -> inv evs (put_hub h st).
Proof.
  intros [Iw Ih Il] Hh Hlog Hnew. split; simpl; [done|done|]. rewrite Hlog, drop_app_length. by apply Forall_app.
Qed.
Lemma watch_inv_more evs ev st : inv evs st -> inv (ev :: evs) st.
Proof. intros [Iw Ih Il]. split; [eauto using watcher_ok_more|by apply hub_ok_more|by apply handed_ok_more]. Qed.

Lemma listed_event evs g gt user s r m :
  ((exists id, EWatch g id gt user s ∈ evs) \/ ETick g user s ∈ evs) ->
  (modelGetterFunc gt user s).2 = r -> m ∈ do r ∅ -> listed evs g m.
Proof.
  intros Hev Hr Hm. destruct (modelGetterFunc gt user s) as [s' o] eqn:Hrun. simpl in Hr. subst r.
  destruct o as [l|?|?|]; simpl in Hm; [|by apply elem_of_empty in Hm..]. apply elem_of_list_to_set in Hm. by exists gt, user, s, s', l.
Qed.

Lemma SubscribeMatch_ok evs (f : string -> bool) g (h h' : @PubSub.Hub content) i :
  hub_ok evs h -> (forall m, f m = true -> listed evs g m) -> PubSub.SubscribeMatch (Some f) (Some g) h = (h', Ok i) ->
  hub_ok evs h' /\ exists new, PubSub.hub_log h' = PubSub.hub_log h ++ new /\ Forall (handed_ok evs) new.
Proof.
  intros [Hm Hs] Hf. simpl. intros [= <- <-]. split.
  - split; [done|]. simpl. intros i x m Hl Hx. apply lookup_insert_Some in Hl as [[_ <-]|[_ Hl]]; [by apply Hf|by eapply Hs].
  - eexists. split; [done|]. apply Forall_forall. intros [[[i g'] m] c] Hin. apply list_elem_of_omap in Hin as ([m' c'] & Hin & Hr).
    apply elem_of_map_to_list in Hin. unfold PubSub.replay in Hr. simpl in Hr. destruct (f m') eqn:Hfm; [|done]. simplify_eq.
    split; simpl; auto.
Qed.

Lemma Publish_ok evs model c (h : @PubSub.Hub content) :
  hub_ok evs h -> EPublish model c ∈ evs ->
  hub_ok evs (PubSub.Publish model c h) /\
  exists new, PubSub.hub_log (PubSub.Publish model c h) = PubSub.hub_log h ++ new /\ Forall (handed_ok evs) new.
Proof.
  intros [Hm Hs] Hev. assert (PubSub.subscribers (PubSub.setupParallel h) = PubSub.subscribers h /\
    PubSub.messages (PubSub.setupParallel h) = PubSub.messages h /\ PubSub.hub_log (PubSub.setupParallel h) = PubSub.hub_log h) as (E1 & E2 & E3).
  { unfold PubSub.setupParallel. by destruct (PubSub.parallel h). }
  split.
  - split; simpl; rewrite ?E1, ?E2; [|done]. intros m c' Hl. apply lookup_insert_Some in Hl as [[<- <-]|[_ Hl]]; auto.
  - eexists. simpl. rewrite E1, E3. split; [done|]. apply Forall_forall. intros [[[i g] m] c'] Hin.
    apply list_elem_of_omap in Hin as ([i' x] & Hin & Hr). apply elem_of_map_to_list in Hin. unfold PubSub.call in Hr. simpl in Hr.
    destruct (PubSub.matcher x model) eqn:Hx; [|done]. simplify_eq. split; simpl; [done|by eapply Hs].
Qed.

Lemma unsubscribe_ok evs i (h : @PubSub.Hub content) : hub_ok evs h -> hub_ok evs (PubSub.unsubscribe i h).
Proof. intros [Hm Hs]. split; [done|]. simpl. intros j x m Hl. apply lookup_delete_Some in Hl as [_ Hl]. by eapply Hs. Qed.

Lemma rematch_ok evs g w h : hub_ok evs h -> (forall m, m ∈ w_models w -> listed evs g m) -> hub_ok evs (rematch g w h).
Proof.
  intros [Hm Hs] Hw. unfold rematch. destruct (PubSub.subscribers h !! w_sub w) as [x|] eqn:Hx; [|done]. case_decide as Hg; [|done].
  split; simpl; [done|]. intros i y m Hl Hy. apply lookup_insert_Some in Hl as [[_ <-]|[_ Hl]]; [|by eapply Hs].
  simpl in *. unfold match_ in Hy. apply bool_decide_eq_true in Hy. by apply Hw.
Qed.
Lemma rematch_log g w h : PubSub.hub_log (rematch g w h) = PubSub.hub_log h.
Proof. unfold rematch. by repeat case_match. Qed.

Lemma inv_stop evs ev g st : inv evs st -> inv (ev :: evs) (Stop g st).
Proof.
  intros Hi. unfold Stop. destruct (watchers st !! g) as [w|] eqn:Hg; [|by apply watch_inv_more].
  apply inv_put_hub with (new := []); [|by apply unsubscribe_ok, hub_ok_more, inv_hub|by rewrite app_nil_r|done].
  apply inv_watcher; [done|]. destruct (watcher_ok_more _ ev _ _ (inv_watchers _ _ Hi _ _ Hg)) as [? ?]. by split.
Qed.

Lemma watched_ok evs g id gt user s r st :
  inv evs st -> r = (modelGetterFunc gt user s).2 ->
  inv (EWatch g id gt user s :: evs) (newModelSummaryWatcher g id gt r st).
Proof.
  intros Hi Hr. unfold newModelSummaryWatcher. set (ev := EWatch g id gt user s).
  assert (forall m, m ∈ do r ∅ -> listed (ev :: evs) g m) as Hm.
  { intros m. apply listed_event with gt user s; [left; exists id; left|done]. }
  destruct (PubSub.SubscribeMatch _ _ (hub st)) as [h o] eqn:Hsub. destruct o as [i|?|?|]; [|by apply watch_inv_more..].
  destruct (SubscribeMatch_ok (ev :: evs) _ _ _ _ _ (hub_ok_more _ _ _ (inv_hub _ _ Hi)) (fun m Hb => Hm m (proj1 (bool_decide_eq_true _) Hb)) Hsub)
    as (Hh & new & Hlog & Hnew).
  apply inv_put_hub with (new := new); [|done|done|done]. destruct Hi as [Iw Ih Il].
  split; simpl; [|by apply hub_ok_more|by apply handed_ok_more].
  intros g' w Hl. apply lookup_insert_Some in Hl as [[<- <-]|[_ Hl]]; [by split|]. by apply watcher_ok_more, Iw.
Qed.

Lemma watch_step_inv evs ev st st' : inv evs st -> step ev st = Some st' -> inv (ev :: evs) st'.
Proof.
  intros Hi Hst. destruct ev as [g id gt user s|g|g user s|g|model c|n|objID]; cbn [step] in Hst.
  - destruct (watchers st !! g); [done|]. destruct (negb _); [injection Hst as <-; by apply watch_inv_more|].
    destruct (modelGetterFunc gt user s).2 as [l|e|p|] eqn:Hr; try done; injection Hst as <-; rewrite <- Hr; by apply watched_ok.
  - destruct (watchers st !! g) as [w|] eqn:Hg; [|done]. injection Hst as <-. apply inv_watcher; [done|].
    destruct (watcher_ok_more _ (EReturn g) _ _ (inv_watchers _ _ Hi _ _ Hg)) as [? ?]. by split.
  - destruct (watchers st !! g) as [w|] eqn:Hg; [|done]. destruct (negb (w_looping w)); [done|]. destruct (w_done w); [injection Hst as <-; by apply watch_inv_more|].
    destruct (watcher_ok_more _ (ETick g user s) _ _ (inv_watchers _ _ Hi _ _ Hg)) as [Hm Hs].
    assert (forall m, m ∈ do (modelGetterFunc (w_getter w) user s).2 (w_models w) -> listed (ETick g user s :: evs) g m) as Hm'.
    { intros m Hin. destruct (modelGetterFunc (w_getter w) user s).2 as [l|?|?|] eqn:Hr; [|by apply Hm..].
      apply listed_event with (w_getter w) user s (Ok l); [right; left|done|exact Hin]. }
    destruct (modelGetterFunc (w_getter w) user s).2 as [l|e|p|] eqn:Hr; try done; injection Hst as <-;
      (apply inv_put_hub with (new := []); [apply inv_watcher; [done|by split]|apply rematch_ok; [by apply hub_ok_more, inv_hub|done]| |done];
       rewrite rematch_log; by rewrite app_nil_r).
  - destruct (watchers st !! g) as [w|] eqn:Hg; [|done]. destruct (w_done w); [|done]. injection Hst as <-. apply inv_watcher; [done|].
    destruct (watcher_ok_more _ (EDone g) _ _ (inv_watchers _ _ Hi _ _ Hg)) as [? ?]. by split.
  - injection Hst as <-. destruct (Publish_ok (EPublish model c :: evs) model c (hub st)) as (Hh & new & Hlog & Hnew);
      [by apply hub_ok_more, inv_hub|left|]. apply inv_put_hub with (new := new); [by apply watch_inv_more|done|done|done].
  - destruct (handed st !! n) as [[[[i g] m] c]|] eqn:Hn; [|done].
    assert (inv evs (MkState (hub st) (watchers st) (registry st) (delete n (handed st)))) as Hi'.
    { destruct Hi as [Iw Ih Il]. split; [done|done|]. simpl. by apply Forall_delete. }
    destruct (proj1 (Forall_lookup _ _) (inv_handed _ _ Hi) _ _ Hn) as [Hp Hl]. simpl in Hp, Hl, Hst.
    destruct (watchers st !! g) as [w|] eqn:Hg; injection Hst as <-; [|by apply watch_inv_more]. apply inv_watcher; [done|].
    destruct (watcher_ok_more _ (EHandle n) _ _ (inv_watchers _ _ Hi _ _ Hg)) as [Hm Hs]. destruct c as [a|]; [|by split].
    split; simpl; [done|]. intros m' a' Ha. apply lookup_insert_Some in Ha as [[<- <-]|[_ Ha]]; [|by apply Hs].
    split; [by right|by apply listed_more].
  - injection Hst as <-. unfold ModelSummaryWatcherStop. destruct (registry_get objID st); simpl; [by apply inv_stop|by apply watch_inv_more..].
Qed.

Lemma watch_run_inv n evs st : run n evs st -> inv evs st.
Proof.
  induction 1 as [|evs ev st st' _ IH Hst]; [|by eapply watch_step_inv]. split; [done| |constructor]. split; done.
Qed.

(** ** The list never changes after the call *)

Definition moves st st' : Prop := exists ev, step ev st = Some st'.

Lemma put_watcher_done g g' w w0 st :
  watchers st !! g = Some w0 -> (g = g' -> w_done w = true /\ w_models w = w_models w0) -> w_done w0 = true ->
  exists w', watchers (put_watcher g' w st) !! g = Some w' /\ w_done w' = true /\ w_models w' = w_models w0.
Proof.
  intros Hg Hw Hd. simpl. destruct (decide (g = g')) as [->|Hne].
  - exists w. rewrite lookup_insert_eq. destruct (Hw eq_refl). by split.
  - exists w0. by rewrite lookup_insert_ne.
Qed.

Lemma step_frozen ev st st' g w :
  step ev st = Some st' -> watchers st !! g = Some w -> w_done w = true ->
  exists w', watchers st' !! g = Some w' /\ w_done w' = true /\ w_models w' = w_models w.
Proof.
  intros Hst Hg Hd. assert (exists w', watchers st !! g = Some w' /\ w_done w' = true /\ w_models w' = w_models w) as Hsame by eauto.
  destruct ev as [g' id gt user s|g'|g' user s|g'|model c|n|objID]; cbn [step] in Hst.
  - destruct (watchers st !! g') eqn:Hg'; [done|]. destruct (negb _); [by simplify_eq|].
    assert (forall r, exists w', watchers (newModelSummaryWatcher g' id gt r st) !! g = Some w' /\ w_done w' = true /\ w_models w' = w_models w) as Hnew.
    { intros r. unfold newModelSummaryWatcher. destruct (PubSub.SubscribeMatch _ _ _) as [h []]; try done. simpl. exists w.
      rewrite lookup_insert_ne; [done|]. congruence. }
    destruct (modelGetterFunc gt user s).2; try done; injection Hst as <-; apply Hnew.
  - destruct (watchers st !! g') as [w'|] eqn:Hg'; [|done]. injection Hst as <-. eapply put_watcher_done; [done| |done]. intros ->. by simplify_eq.
  - destruct (watchers st !! g') as [w'|] eqn:Hg'; [|done]. destruct (negb _); [done|]. destruct (w_done w') eqn:Hd'; [by simplify_eq|].
    assert (forall w2 h, exists w'', watchers (put_hub h (put_watcher g' w2 st)) !! g = Some w'' /\ w_done w'' = true /\ w_models w'' = w_models w) as Hnew.
    { intros w2 h. simpl. exists w. rewrite lookup_insert_ne; [done|]. congruence. }
    destruct (modelGetterFunc (w_getter w') user s).2; try done; injection Hst as <-; apply Hnew.
  - destruct (watchers st !! g') as [w'|] eqn:Hg'; [|done]. destruct (w_done w') eqn:Hd'; [|done]. injection Hst as <-.
    eapply put_watcher_done; [done| |done]. intros ->. by simplify_eq.
  - by simplify_eq.
  - destruct (handed st !! n) as [[[[i g'] m] c]|]; [|done]. simpl in Hst. destruct (watchers st !! g') as [w'|] eqn:Hg'; injection Hst as <-; [|done].
    eapply put_watcher_done; [done| |done]. intros ->. simplify_eq. by destruct c.
  - injection Hst as <-. unfold ModelSummaryWatcherStop. destruct (registry_get objID st) as [g'|?|?|]; try done. simpl. unfold Stop.
    destruct (watchers st !! g') as [w'|] eqn:Hg'; [|done]. simpl. eapply put_watcher_done; [done| |done]. intros ->. by simplify_eq.
Qed.

(** The list of models of a watcher is never read again once the call that
    made the watcher has returned. *)
Theorem access_never_refreshed st st' g w :
  watchers st !! g = Some w -> w_done w = true -> rtc moves st st' ->
  exists w', watchers st' !! g = Some w' /\ w_models w' = w_models w.
Proof.
  intros Hg Hd Hr. revert w Hg Hd. induction Hr as [st|st st1 st' [ev Hst] _ IH]; intros w Hg Hd; [by exists w|].
  destruct (step_frozen _ _ _ _ _ Hst Hg Hd) as (w1 & Hg1 & Hd1 & Hm). destruct (IH w1 Hg1 Hd1) as (w' & Hg' & Hm').
  exists w'. split; [done|]. congruence.
Qed.
End watch.

Section facts.
Context {F : Type} `{OFGALaws F} {T : Type -> Type} `{GormLaws T} {C : Type} `{Controllers C} `{JujuNames} `{Hash}.
Implicit Types (s : JW F T C) (user : User).

Definition readable user (lm : LoadedModel) s : Prop :=
  exists tag r, Model_ResourceTag (lm_Model lm) = Ok tag /\ r ∈ Models.model_relations /\ has_access (j_tuples s) user r (ConvertTag tag).

(** A level that is reported is one the user has. *)
Lemma finds_model_level user g s :
  wp (world (Perm.GetUserModelAccess user g)) (finds still (fun a => a = "read" \/ a = "write" \/ a = "admin" ->
    exists r, r ∈ Models.model_relations /\ has_access (j_tuples s) user r (ConvertTag g)) s) s.
Proof.
  apply wp_jworld. unfold Perm.GetUserModelAccess. apply wp_bind, Perm.wp_fga.
  eapply wp_mono; [apply (access_ladder_wp user g Models.model_relations)|]. intros o f (HT & Ha & Hr).
  destruct o as [r|e|x|]; cbn [bind_post]; try wp_value; (split_and!; [exact Ha || done|by split; [split|]|]);
    intros a Hres; [|done..]. apply (inj Ok) in Hres as <-. intros Hlevel.
  destruct (Hr r eq_refl) as [->|(pre & post & Hrs & Hacc & _)].
  - destruct Hlevel as [?|[?|?]]; discriminate.
  - exists r. split; [|done]. rewrite Hrs. apply elem_of_app. right. constructor.
Qed.

Lemma userModels_finds user (models : list LoadedModel) s :
  wp (userModels user models) (finds still (Forall (fun lm => lm ∈ models /\ readable user lm s)) s) s.
Proof.
  assert (forall s0, still s s0 -> wp (userModels user models) (finds still (Forall (fun lm => lm ∈ models /\ readable user lm s)) s0) s0) as Hall; [|by apply Hall].
  induction models as [|lm models IH]; intros s0 Hs0; [by apply (finds_ret still)|]. cbn [userModels].
  eapply (finds_bind still); [apply (finds_lift still) with (P := fun tag => Model_ResourceTag (lm_Model lm) = Ok tag)|].
  { apply Model_ResourceTag_answered. }
  { done. }
  intros tag s1 Hs1 Htag. eapply (finds_bind still); [apply finds_model_level|]. intros a s2 Hs2 Hacc. assert (still s s1) as Hs01 by (by etrans).
  eapply (finds_bind still) with (P := fun _ => True).
  { case_decide; [|by apply (finds_ret still)]. eapply (finds_bind still) with (P := fun _ => True); [|intros; by apply (finds_ret still)].
    apply (finds_lift still); [|done]. unfold NewUserTag, NewJujuTag. by case_match. }
  intros _ s3 Hs3 _. eapply (finds_bind still); [apply IH; by etrans; [exact Hs01|]; etrans|]. intros rest s4 Hs4 Hrest. apply (finds_ret still).
  assert (Forall (fun x => x ∈ lm :: models /\ readable user x s) rest) as Hrest'.
  { eapply Forall_impl; [exact Hrest|]. intros x [? ?]. split; [by right|done]. }
  case_decide as Hlevel; [|done]. constructor; [|done]. split; [left|]. destruct (Hacc Hlevel) as (r & Hr & Hh). exists tag, r.
  split_and!; [done|done|]. by destruct Hs01 as [[-> _] _] in Hh.
Qed.

(** The user may see the model: it is an administrator of JIMM, or has a level
    of access to the model. *)
Definition visible user (m : string) s : Prop :=
  JimmAdmin user = true \/ exists lm, model_loaded (w_db (fst s)) lm /\ uuid_of lm = m /\ readable user lm s.

Lemma modelGetterFunc_visible gt user s s' l m : modelGetterFunc gt user s = (s', Ok l) -> m ∈ l -> visible user m s.
Proof.
  intros Hrun Hm. destruct gt; simpl in Hrun.
  - right. cut (wp (models ← allModels user; mret (uuid_of <$> models)) (finds still (fun l => forall m, m ∈ l ->
      exists lm, model_loaded (w_db (fst s)) lm /\ uuid_of lm = m /\ readable user lm s) s) s).
    { intros Hwp. destruct (wp_elim _ _ _ _ _ Hwp Hrun) as (_ & _ & Hl). by apply (Hl l eq_refl). }
    eapply (finds_bind still) with (P := Forall (fun lm => model_loaded (w_db (fst s)) lm /\ readable user lm s)).
    + unfold allModels. eapply (finds_bind still); [apply finds_jdb, AllModels_sees|]. intros models s1 Hs1 Hloaded.
      eapply finds_mono; [apply userModels_finds|]. intros l' Hl'. eapply Forall_impl; [exact Hl'|]. intros lm [Hin (tag & r & Ht & Hr & Hh)].
      rewrite Forall_forall in Hloaded. split; [by apply Hloaded|]. exists tag, r. split_and!; [done|done|]. by destruct Hs1 as [[-> _] _] in Hh.
    + intros models s1 Hs1 Hall. apply (finds_ret still). intros m' Hin. apply list_elem_of_fmap in Hin as (lm & -> & Hin).
      rewrite Forall_forall in Hall. destruct (Hall lm Hin). by exists lm.
  - left. destruct (JimmAdmin user); done.
Qed.

(** C18.  A summary that a watcher hands out was published for a model, and
    the model was in a list that was read for this watcher when the user of
    the connection could see the model, as an administrator of JIMM or by an
    access level that it had then. *)
Theorem summaries_seen n evs (st : state) g w a :
  run n evs st -> watchers st !! g = Some w -> a ∈ Next w ->
  exists m user s, EPublish m (Some a) ∈ evs /\
    ((exists id gt, EWatch g id gt user s ∈ evs) \/ ETick g user s ∈ evs) /\ visible user m s.
Proof.
  intros Hr Hg Ha. unfold Next in Ha. rewrite merge_sort_Permutation in Ha. apply list_elem_of_fmap in Ha as ([m a'] & -> & Hin).
  apply elem_of_map_to_list in Hin. destruct (inv_watchers _ _ (watch_run_inv _ _ _ Hr) _ _ Hg) as [_ Hs].
  destruct (Hs m a' Hin) as [Hp (gt & user & s & s' & l & Hev & Hrun & Hm)]. exists m, user, s. split; [done|]. split.
  - destruct Hev as [[id Hev]|Hev]; [left; by exists id, gt|by right].
  - by eapply modelGetterFunc_visible.
Qed.
End facts.
End Watch.
