(* ===== verification/Root.v ===== *)
(** * Root: connections to the API of JIMM ([internal/jujuapi]:
    [controllerroot.go], [admin.go], [rpc/root.go], [rpc/method.go] and the
    functions that register the methods of the facades).

    Each websocket connection has a [controllerRoot].  Its calls run in
    parallel, so a connection is a sequence of steps of its calls: the start
    of a call, the parts of a login, the end of a call.  The step of a login
    that asks the login manager or the Juju manager runs in a world that the
    step brings with it, since other connections change it all the time.

    The theorems: whatever the order of the steps, a method of a facade can be
    called only after a login on this connection, and then the connection has
    the user of such a login; the calls that are cancelled when the connection
    ends are the ones that run; the facades that a login returns are the ones
    of the generated table. *)

From Stdlib Require Import Ascii.
From stdpp Require Import sorting.
From S2P Require Import Prelude Errors GoStrings Regexp Names AuthModel OpenFGA Dbmodel Users Database Encoding TagResolver Access AuthService Login JujuDb CloudDb JujuBase JujuModels ControllerDb JujuControllers.

Module Root.
Import Auth.

(** ** Methods *)

(** The methods of [controllerRoot]; the others are known by their names. *)
Inductive handler :=
| UnsupportedLogin | LoginDevice | GetDeviceSessionToken | LoginWithSessionToken | LoginWithSessionCookie | LoginWithClientCredentials
| Ping | Facade (name : string).

Record method := MkMethod { me_root : string; me_version : Z; me_name : string; me_handler : handler }.
#[export] Instance handler_eq : EqDecision handler.
Proof. solve_decision. Defined.
#[export] Instance method_eq : EqDecision method.
Proof. solve_decision. Defined.

(** [fmt.Sprintf("%s-%d-%s", rootName, version, methodName)] *)
Definition key (rootName : string) (version : Z) (methodName : string) : string :=
  rootName +:+ String "-" (pretty version +:+ String "-" methodName).
Definition method_key (m : method) : string := key (me_root m) (me_version m) (me_name m).

Definition methods := gmap string handler.
Definition AddMethod (m : method) (t : methods) : methods := <[method_key m := me_handler m]> t.
Definition RemoveMethod (rootName : string) (version : Z) (methodName : string) (t : methods) : methods := delete (key rootName version methodName) t.
(** [None] is a [CallNotImplementedError]. *)
Definition FindMethod (t : methods) (rootName : string) (version : Z) (methodName : string) : option handler := t !! key rootName version methodName.

(** The methods of every connection. *)
Definition open_methods : list method := [
  MkMethod "Admin" 1 "Login" UnsupportedLogin; MkMethod "Admin" 2 "Login" UnsupportedLogin; MkMethod "Admin" 3 "Login" UnsupportedLogin;
  MkMethod "Admin" 4 "Login" UnsupportedLogin; MkMethod "Admin" 4 "LoginDevice" LoginDevice;
  MkMethod "Admin" 4 "GetDeviceSessionToken" GetDeviceSessionToken; MkMethod "Admin" 4 "LoginWithSessionToken" LoginWithSessionToken;
  MkMethod "Admin" 4 "LoginWithSessionCookie" LoginWithSessionCookie;
  MkMethod "Admin" 4 "LoginWithClientCredentials" LoginWithClientCredentials; MkMethod "Pinger" 1 "Ping" Ping].

(** *** The registrations

    A facade: its name, its versions, and the methods that each version has,
    with the names of the functions. *)
Record facade := MkFacade { fa_name : string; fa_versions : list Z; fa_methods : list (string * string) }.
Definition registered (f : facade) : list method :=
  flat_map (fun v => (fun nh : string * string => MkMethod (fa_name f) v nh.1 (Facade nh.2)) <$> fa_methods f) (fa_versions f).
Definition named (l : list string) : list (string * string) := (fun n => (n, n)) <$> l.

Definition ApplicationOffers_init := MkFacade "ApplicationOffers" [5%Z] (named
  ["Offer"; "GetConsumeDetails"; "ListApplicationOffers"; "ModifyOfferAccess"; "DestroyOffers"; "FindApplicationOffers"; "ApplicationOffers"]).
Definition Cloud_init := MkFacade "Cloud" [7%Z] (named
  ["AddCloud"; "AddCredentials"; "CheckCredentialsModels"; "Cloud"; "CloudInfo"; "Clouds"; "Credential"; "CredentialContents";
   "ListCloudInfo"; "ModifyCloudAccess"; "RemoveClouds"; "RevokeCredentialsCheckModels"; "UpdateCloud"; "UpdateCredentialsCheckModels";
   "UserCredentials"]).
Definition Controller_init := MkFacade "Controller" [11%Z; 12%Z] (named
  ["AllModels"; "ConfigSet"; "ControllerConfig"; "ControllerVersion"; "GetControllerAccess"; "IdentityProviderURL"; "ModelStatus";
   "MongoVersion"; "WatchModelSummaries"; "WatchAllModelSummaries"; "InitiateMigration"]).
Definition JIMM_init := MkFacade "JIMM" [4%Z]
  (named ["AddCloudToController"; "AddController"; "AddModelToController"; "DisableControllerUUIDMasking"; "FindAuditEvents";
    "FullModelStatus"; "GrantAuditLogAccess"; "ImportModel"; "RecoverModelCredential"; "ListControllers"] ++
   [("ListModels", "ListModelControllerInfo")] ++
   named ["ListUserClouds"; "MigrateModel"; "ModelControllerInfo"; "PurgeLogs"; "RemoveCloudFromController"; "RemoveController";
    "RevokeAuditLogAccess"; "SetControllerDeprecated"; "ShowController"; "UpdateMigratedModel"; "AddGroup"; "AddRelation"; "AddRole";
    "CheckRelation"; "CheckRelations"; "GetGroup"; "GetRole"; "ListGroups"; "ListRelationshipTuples"; "ListRoles"; "RemoveGroup";
    "RemoveRelation"; "RemoveRole"; "RenameGroup"; "RenameRole"; "CrossModelQuery"; "Version"; "ListMigrationTargets";
    "PrepareModelMigration"] ++
   [("BootstrapInfo", "GetBootstrapInfo")] ++
   named ["StartBootstrap"; "StartDestroyController"; "StopBootstrap"; "UpgradeController"; "UpgradeTo"; "SupportedJujuVersions";
    "GetControllerProfile"; "ListControllerProfiles"; "RemoveControllerProfile"; "SaveControllerProfile"]).
Definition MigrationTarget_init := MkFacade "MigrationTarget" [6%Z] (named
  ["Prechecks"; "CACert"; "Activate"; "AdoptResources"; "Abort"; "CheckMachines"; "Import"; "LatestLogTime"]).
Definition ModelConfig_init := MkFacade "ModelConfig" [3%Z] (named ["ModelGet"]).
Definition ModelManager_init := MkFacade "ModelManager" [9%Z; 10%Z] (named
  ["ChangeModelCredential"; "CreateModel"; "DestroyModels"; "DumpModels"; "DumpModelsDB"; "ListModelSummaries"; "ListModels"; "ModelInfo";
   "ModelStatus"; "ModifyModelAccess"; "ValidateModelUpgrades"; "SetModelDefaults"; "UnsetModelDefaults"; "ModelDefaultsForClouds"]).
Definition ModelSummaryWatcher_init := MkFacade "ModelSummaryWatcher" [1%Z]
  [("Next", "ModelSummaryWatcherNext"); ("Stop", "ModelSummaryWatcherStop")].
Definition ModelUpgrader_init := MkFacade "ModelUpgrader" [1%Z] (named ["AbortModelUpgrade"; "UpgradeModel"]).
(** [Ping] is a method of every connection. *)
Definition Pinger_init := MkFacade "Pinger" [1%Z] [].
(** The variable for [DisableUser] holds [EnableUser], and the other way round. *)
Definition UserManager_init := MkFacade "UserManager" [3%Z]
  ([("AddUser", "AddUser"); ("DisableUser", "EnableUser"); ("EnableUser", "DisableUser")] ++
   named ["RemoveUser"; "SetPassword"; "UserInfo"; "ResetPassword"; "ModelUserInfo"]).

Definition facadeInit : list facade :=
  [ApplicationOffers_init; Cloud_init; Controller_init; JIMM_init; MigrationTarget_init; ModelConfig_init; ModelManager_init;
   ModelSummaryWatcher_init; ModelUpgrader_init; Pinger_init; UserManager_init].
Definition facade_methods : list method := flat_map registered facadeInit.

(** *** The facades that a login returns *)

Definition facade_le (a b : string * list Z) : Prop := String.leb a.1 b.1 = true.
#[export] Instance facade_le_dec : RelDecision facade_le.
Proof. intros a b. unfold facade_le. apply _. Defined.

(** [order] is the order in which the map [facadeInit] is ranged over; the
    methods are registered on the way. *)
Definition setupFacades (order : list facade) : list (string * list Z) :=
  merge_sort facade_le ((fun f => (fa_name f, fa_versions f)) <$> order).
Definition SupportedFacades (order : list facade) : gmap string (list Z) :=
  foldl (fun m f => <[fa_name f := fa_versions f]> m) ∅ order.
(** The generated table. *)
Definition SupportedFacadeVersions : list (string * list Z) :=
  [("ApplicationOffers", [5]); ("Cloud", [7]); ("Controller", [11; 12]); ("JIMM", [4]); ("MigrationTarget", [6]); ("ModelConfig", [3]);
   ("ModelManager", [9; 10]); ("ModelSummaryWatcher", [1]); ("ModelUpgrader", [1]); ("Pinger", [1]); ("UserManager", [3])]%Z.

(** ** The names of methods *)

Fixpoint dashes (s : string) : nat :=
  match s with EmptyString => 0 | String a s => (if Ascii.eqb a "-" then 1 else 0) + dashes s end.
Lemma dashes_app a b : dashes (a +:+ b) = (dashes a + dashes b)%nat.
Proof. induction a as [|x a IH]; [done|]. simpl. rewrite IH. lia. Qed.

Lemma dash_split a b x y : dashes a = 0%nat -> dashes b = 0%nat -> a +:+ String "-" x = b +:+ String "-" y -> a = b /\ x = y.
Proof.
  revert b. induction a as [|c a IH]; intros [|d b] Ha Hb Heq; simpl in *.
  - by injection Heq as ->.
  - by injection Heq as <- _.
  - by injection Heq as -> _.
  - injection Heq as <- Heq. destruct (Ascii.eqb c "-"); [done|]. by destruct (IH b Ha Hb Heq) as [-> ->].
Qed.

(** A method whose names have no dash is found under its names only. *)
Definition plain (m : method) : bool := (dashes (me_root m) + dashes (pretty (me_version m)) + dashes (me_name m) =? 0)%nat.
Lemma key_inj f v n m : plain m = true -> method_key m = key f v n -> me_root m = f /\ me_version m = v /\ me_name m = n.
Proof.
  unfold plain, method_key. rewrite Nat.eqb_eq. intros Hp Heq. pose proof (f_equal dashes Heq) as Hd. unfold key in Hd, Heq.
  rewrite !dashes_app in Hd. simpl in Hd. rewrite !dashes_app in Hd. simpl in Hd.
  apply dash_split in Heq as [-> Heq]; [|lia..]. apply dash_split in Heq as [Hv ->]; [|lia..]. by apply (inj pretty) in Hv as ->.
Qed.

Lemma all_plain m : m ∈ open_methods \/ m ∈ facade_methods -> plain m = true.
Proof.
  assert (forallb plain (open_methods ++ facade_methods) = true) as Hall by (vm_compute; reflexivity).
  rewrite forallb_forall in Hall. intros Hin. apply Hall. apply list_elem_of_In. rewrite elem_of_app. tauto.
Qed.

(** ** A connection *)

Record Params := MkParams { pa_ControllerUUID : string; pa_PublicDNSName : string }.

(** The parameters of a request, as far as logins read them. *)
Inductive arguments := NoArguments | SessionToken (t : string) | ClientCredentials (id secret : string) | OtherArguments.

Record AuthUserInfo := MkAuthUser { au_DisplayName : string; au_Identity : string; au_ControllerAccess : string; au_LastConnection : option Z }.
Record LoginResult `{JujuVersion} := MkLoginResult {
  lg_PublicDNSName : string; lg_UserInfo : AuthUserInfo; lg_ControllerTag : string; lg_Facades : list (string * list Z);
  lg_ServerVersion : option Number;
}.
Arguments MkLoginResult {_}.

(** [ErrBadId] of the RPC library, and the first login error. *)
Definition ErrBadId : gerror := ErrForeign "" "" "id not found".
Definition unsupportedLogin : gerror := Codef CodeNotSupported "JIMM does not support login from old clients" [].

(** Methods with an object: [flags & inObjectID] of [rpc.Method]. *)
Definition inObjectID (h : handler) : bool :=
  bool_decide (h = Facade "ModelSummaryWatcherNext" \/ h = Facade "ModelSummaryWatcherStop").

Section connection.
Context {F : Type} `{OFGAServer F} {P : Type} `{Outside P} {T : Type -> Type} `{Gorm T} {C : Type} `{Controllers C} `{JujuNames} `{Hash} `{JujuVersion}.
Variables (svc : AuthenticationService) (jimmTag : Tag) (params : Params) (httpContext : Context_).

Inductive result :=
| Nothing
| Failed (e : gerror)
| Device (d : DeviceResponse)
| Token (t : string)
| LoggedIn (r : LoginResult).

(** Where a call is. *)
Inductive phase :=
| PDevice | PToken | PMasking
| PLogin (c : Login.credential)
| PSetUser (u : User)
| PVersion (u : User)
| PInfo (u : User) (v : option Number)
| PFacades (i : AuthUserInfo) (v : option Number)
| PRegister (l : list method) (r : LoginResult)
| PHandler (name : string)
| PReturned (r : result)
| PPanicked.

Record connection := MkConnection {
  root_methods : methods;
  callID : Z;
  inflight : gmap Z bool; (* the contexts of the calls: whether they are cancelled *)
  user : option User;
  controllerUUIDMasking : bool;
  deviceOAuthResponse : option DeviceResponse;
  identityId : string;
  calls : gmap nat (Z * phase);
}.
Implicit Types (c : connection).

Definition newControllerRoot (id : string) : connection :=
  MkConnection (foldl (fun t m => AddMethod m t) ∅ open_methods) 0 ∅ None true None id ∅.

Definition put_methods t c := MkConnection t (callID c) (inflight c) (user c) (controllerUUIDMasking c) (deviceOAuthResponse c) (identityId c) (calls c).
Definition put_calls n i k c := MkConnection (root_methods c) n i (user c) (controllerUUIDMasking c) (deviceOAuthResponse c) (identityId c) k.
Definition put_user u c := MkConnection (root_methods c) (callID c) (inflight c) u (controllerUUIDMasking c) (deviceOAuthResponse c) (identityId c) (calls c).
Definition put_masking b c := MkConnection (root_methods c) (callID c) (inflight c) (user c) b (deviceOAuthResponse c) (identityId c) (calls c).
Definition put_device d c := MkConnection (root_methods c) (callID c) (inflight c) (user c) (controllerUUIDMasking c) d (identityId c) (calls c).
Definition put_phase (g : nat) (ph : phase) c : connection :=
  match calls c !! g with
  | Some (id, _) => put_calls (callID c) (inflight c) (<[g := (id, ph)]> (calls c)) c
  | None => c
  end.

Definition uint64 (n : Z) : Z := (n mod 2 ^ 64)%Z.

(** [Root.start], [Root.end] and [Root.Kill]. *)
Definition start (g : nat) (ph : phase) c : connection :=
  put_calls (uint64 (callID c + 1)) (<[callID c := false]> (inflight c)) (<[g := (callID c, ph)]> (calls c)) c.
Definition end_ (g : nat) c : connection :=
  match calls c !! g with
  | Some (id, _) => put_calls (callID c) (delete id (inflight c)) (delete g (calls c)) c
  | None => c
  end.
Definition Kill c : connection := put_calls (callID c) ((fun _ => true) <$> inflight c) (calls c) c.

(** The first phase of a method. *)
Definition enter (h : handler) (a : arguments) c : phase :=
  match h with
  | UnsupportedLogin => PReturned (Failed unsupportedLogin)
  | LoginDevice => PDevice
  | GetDeviceSessionToken => PToken
  | LoginWithSessionToken => PLogin (Login.ByToken (match a with SessionToken t => t | _ => "" end))
  | LoginWithSessionCookie => PLogin (Login.ByCookie httpContext (identityId c))
  | LoginWithClientCredentials =>
      PLogin (match a with ClientCredentials id secret => Login.ByClient id secret | _ => Login.ByClient "" "" end)
  | Ping => PReturned Nothing
  | Facade name => if decide (name = "DisableControllerUUIDMasking") then PMasking else PHandler name
  end.

(** What a failed login is reported as. *)
Definition login_failure (c : Login.credential) (e : gerror) : gerror :=
  match c with
  | Login.ByToken _ => e
  | Login.ByClient _ _ | Login.ByCookie _ _ => Codef CodeUnauthorized "%w" [ArgE e]
  end.

Definition setupControllerTag : outcome string := t ← NewJujuTag ControllerTagKind (pa_ControllerUUID params); Ok (TagString t).
Definition setupAuthUserInfo (u : User) : M F AuthUserInfo :=
  tag ← lift (Identity_ResourceTag (u_Identity u));
  access ← GetControllerAccess u jimmTag;
  mret (MkAuthUser (i_DisplayName (u_Identity u)) (TagString tag) access (i_LastLogin (u_Identity u))).

(** ** Steps *)

Inductive event :=
| ECall (g : nat) (rootName : string) (version : Z) (methodName objID : string) (a : arguments)
| EDevice (g : nat) (w : Login.LWorld (F:=F) (P:=P) (T:=T))
| EToken (g : nat) (w : Login.LWorld (F:=F) (P:=P) (T:=T))
| EMasking (g : nat)
| ELogin (g : nat) (w : Login.LWorld (F:=F) (P:=P) (T:=T))
| ESetUser (g : nat)
| EVersion (g : nat) (s : JW F T C)
| EInfo (g : nat) (f : F)
| EFacades (g : nat) (order : list facade)
| ERegister (g : nat)
| EHandler (g : nat) (r : result)
| EReturn (g : nat)
| EKill.

(** The next phase, from an outcome. *)
Definition next {A} (g : nat) (o : outcome A) (wrap : gerror -> gerror) (k : A -> connection -> connection) c : connection :=
  match o with
  | Ok a => k a c
  | Err e => put_phase g (PReturned (Failed (wrap e))) c
  | Panic _ | OutOfFuel => put_phase g PPanicked c
  end.

Definition step (ev : event) c : option connection :=
  match ev with
  | ECall g rootName version methodName objID a =>
      match calls c !! g, FindMethod (root_methods c) rootName version methodName with
      | None, None => Some c
      | None, Some h => Some (start g (if negb (inObjectID h) && bool_decide (objID <> "") then PReturned (Failed ErrBadId) else enter h a c) c)
      | Some _, _ => None
      end
  | EDevice g w =>
      match calls c !! g with
      | Some (_, PDevice) => Some (next g (Login.LoginDevice w).2 (fun e => e) (fun d c => put_phase g (PReturned (Device d)) (put_device (Some d) c)) c)
      | _ => None
      end
  | EToken g w =>
      match calls c !! g, deviceOAuthResponse c with
      | Some (_, PToken), Some d =>
          Some (next g (Login.GetDeviceSessionToken svc d w).2 (fun e => Codef CodeUnauthorized "%w" [ArgE e])
            (fun t c => put_phase g (PReturned (Token t)) c) c)
      | Some (_, PToken), None => Some (put_phase g PPanicked c)
      | _, _ => None
      end
  | EMasking g =>
      match calls c !! g, user c with
      | Some (_, PMasking), Some u =>
          if JimmAdmin u then Some (put_phase g (PReturned Nothing) (put_masking false c))
          else Some (put_phase g (PReturned (Failed Unauthorized)) c)
      | Some (_, PMasking), None => Some (put_phase g PPanicked c)
      | _, _ => None
      end
  | ELogin g w =>
      match calls c !! g with
      | Some (_, PLogin cred) => Some (next g (Login.login svc jimmTag cred w).2 (login_failure cred) (fun u c => put_phase g (PSetUser u) c) c)
      | _ => None
      end
  | ESetUser g =>
      match calls c !! g with
      | Some (_, PSetUser u) => Some (put_phase g (PVersion u) (put_user (Some u) c))
      | _ => None
      end
  | EVersion g s =>
      match calls c !! g with
      | Some (_, PVersion u) => Some (next g (Ctl.EarliestControllerVersion s).2 (fun e => e) (fun v c => put_phase g (PInfo u v) c) c)
      | _ => None
      end
  | EInfo g f =>
      match calls c !! g with
      | Some (_, PInfo u v) => Some (next g (setupAuthUserInfo u f).2 (fun e => e) (fun i c => put_phase g (PFacades i v) c) c)
      | _ => None
      end
  | EFacades g order =>
      match calls c !! g with
      | Some (_, PFacades i v) =>
          Some (next g setupControllerTag (fun e => e) (fun tag c =>
            put_phase g (PRegister (flat_map registered order) (MkLoginResult (pa_PublicDNSName params) i tag (setupFacades order) v)) c) c)
      | _ => None
      end
  | ERegister g =>
      match calls c !! g with
      | Some (_, PRegister (m :: l) r) => Some (put_phase g (PRegister l r) (put_methods (AddMethod m (root_methods c)) c))
      | Some (_, PRegister [] r) => Some (put_phase g (PReturned (LoggedIn r)) c)
      | _ => None
      end
  | EHandler g r =>
      match calls c !! g with Some (_, PHandler _) => Some (put_phase g (PReturned r) c) | _ => None end
  | EReturn g =>
      match calls c !! g with Some (_, PReturned _) | Some (_, PPanicked) => Some (end_ g c) | _ => None end
  | EKill => Some (Kill c)
  end.

(** A map is ranged over in any order. *)
Definition allowed (ev : event) : Prop := match ev with EFacades _ order => order ≡ₚ facadeInit | _ => True end.

(** The events of a connection, the last one first. *)
Inductive run (id : string) : list event -> connection -> Prop :=
| run_start : run id [] (newControllerRoot id)
| run_step evs ev c c' : run id evs c -> allowed ev -> step ev c = Some c' -> run id (ev :: evs) c'.

(** Its user: [getUser]; the zero tag before a login. *)
Definition getUser c : outcome Tag :=
  match user c with Some u => Identity_ResourceTag (u_Identity u) | None => Ok (MkTag UserTagKind "") end.

(** ** A login comes first *)

Implicit Types (evs : list event).

Definition authenticated evs (u : User) : Prop :=
  exists g w cred w', ELogin g w ∈ evs /\ Login.login svc jimmTag cred w = (w', Ok u).

Definition has_user c : Prop := exists u, user c = Some u.

Definition phase_ok evs c (ph : phase) : Prop :=
  match ph with
  | PSetUser u => authenticated evs u
  | PVersion _ | PInfo _ _ | PFacades _ _ | PHandler _ | PMasking => has_user c
  | PRegister l _ => has_user c /\ Forall (fun m => m ∈ facade_methods) l
  | _ => True
  end.

Definition method_ok c (k : string) (h : handler) : Prop :=
  exists m, method_key m = k /\ me_handler m = h /\ (m ∈ open_methods \/ m ∈ facade_methods /\ has_user c).

Record inv evs c : Prop := MkInv {
  inv_methods : forall k h, root_methods c !! k = Some h -> method_ok c k h;
  inv_calls : forall g id ph, calls c !! g = Some (id, ph) -> phase_ok evs c ph;
  inv_user : forall u, user c = Some u -> authenticated evs u;
  inv_masking : controllerUUIDMasking c = false -> exists u, authenticated evs u /\ JimmAdmin u = true;
}.

Lemma authenticated_more evs ev u : authenticated evs u -> authenticated (ev :: evs) u.
Proof. intros (g & w & cred & w' & Hin & Hrun). exists g, w, cred, w'. split; [by right|done]. Qed.

(** What is known of a phase stays known. *)
Lemma phase_ok_more evs ev c c' ph : (has_user c -> has_user c') -> phase_ok evs c ph -> phase_ok (ev :: evs) c' ph.
Proof.
  intros Hu. destruct ph; simpl; eauto using authenticated_more. intros [? ?]. auto.
Qed.

(** A step that moves the call [g] to the phase [ph] and changes other fields
    from [c] to [c1]. *)
Lemma root_inv_move evs ev c c1 g ph :
  inv evs c -> calls c1 = calls c -> (has_user c -> has_user c1) ->
  (forall k h, root_methods c1 !! k = Some h -> root_methods c !! k = Some h \/ method_ok c1 k h) ->
  (forall u, user c1 = Some u -> authenticated (ev :: evs) u) ->
  (controllerUUIDMasking c1 = false -> exists u, authenticated (ev :: evs) u /\ JimmAdmin u = true) ->
  phase_ok (ev :: evs) c1 ph -> inv (ev :: evs) (put_phase g ph c1).
Proof.
  intros [Im Ic Iu Ik] Hc Hu Hm Ha Hk Hph. unfold put_phase.
  assert (forall k h, root_methods c1 !! k = Some h -> method_ok c1 k h) as Hm'.
  { intros k h Hl. destruct (Hm k h Hl) as [Hl'|]; [|done]. destruct (Im k h Hl') as (m & ? & ? & Hin).
    exists m. split; [done|]. split; [done|]. destruct Hin as [|[? ?]]; auto. }
  destruct (calls c1 !! g) as [[id ph0]|] eqn:Hg; split; simpl; try done.
  - intros g' id' ph' Hl. destruct (decide (g' = g)) as [->|Hne].
    + rewrite lookup_insert_eq in Hl. injection Hl as <- <-. exact Hph.
    + rewrite lookup_insert_ne, Hc in Hl by done. eapply phase_ok_more; [exact Hu|by eapply Ic].
  - intros g' id' ph' Hl. rewrite Hc in Hl. eapply phase_ok_more; [exact Hu|by eapply Ic].
Qed.

(** A step that only moves the call. *)
Lemma inv_phase evs ev c g ph : inv evs c -> phase_ok (ev :: evs) c ph -> inv (ev :: evs) (put_phase g ph c).
Proof.
  intros Hi Hph. apply root_inv_move with c; auto.
  - intros u Hu. apply authenticated_more. by eapply inv_user.
  - intros Hm. destruct (inv_masking _ _ Hi Hm) as (u & ? & ?). eauto using authenticated_more.
Qed.

Lemma inv_next {A} evs ev c g (o : outcome A) wrap k :
  inv evs c -> (forall a, o = Ok a -> inv (ev :: evs) (k a c)) -> inv (ev :: evs) (next g o wrap k c).
Proof. intros Hi Hk. destruct o; simpl; [by apply Hk|by apply inv_phase..]. Qed.

(** The calls are counted, cancelled or ended. *)
Lemma inv_put_calls evs ev c n i k :
  inv evs c -> (forall g id ph, k !! g = Some (id, ph) -> calls c !! g = Some (id, ph) \/ phase_ok evs c ph) ->
  inv (ev :: evs) (put_calls n i k c).
Proof.
  intros [Im Ic Iu Ik] Hk. split; simpl; [done| |eauto using authenticated_more|].
  - intros g id ph Hl. eapply phase_ok_more; [|destruct (Hk g id ph Hl); [by eapply Ic|done]]. done.
  - intros Hm. destruct (Ik Hm) as (u & ? & ?). eauto using authenticated_more.
Qed.

Lemma open_not_facade m name : m ∈ open_methods -> me_handler m <> Facade name.
Proof. intros Hin. repeat (apply elem_of_cons in Hin as [->|Hin]; [discriminate|]). by apply elem_of_nil in Hin. Qed.

Lemma enter_ok evs c h a k : inv evs c -> root_methods c !! k = Some h -> phase_ok evs c (enter h a c).
Proof.
  intros Hi Hl. destruct h as [| | | | | | |name]; simpl; try done. destruct (inv_methods _ _ Hi _ _ Hl) as (m & _ & Hh & [Hin|[_ Hu]]).
  - by apply open_not_facade with (name := name) in Hin.
  - by case_decide.
Qed.

Lemma call_user evs c g id ph : inv evs c -> calls c !! g = Some (id, ph) -> phase_ok evs c ph.
Proof. intros Hi. by eapply inv_calls. Qed.

Lemma root_inv_start evs ev c g ph : inv evs c -> phase_ok evs c ph -> inv (ev :: evs) (start g ph c).
Proof.
  intros Hi Hph. apply inv_put_calls; [done|]. intros g' id ph'. destruct (decide (g' = g)) as [->|].
  - rewrite lookup_insert_eq. intros [= <- <-]. by right.
  - rewrite lookup_insert_ne by done. by left.
Qed.
Lemma inv_end evs ev c g : inv evs c -> inv (ev :: evs) (end_ g c).
Proof.
  intros Hi. unfold end_. destruct (calls c !! g) as [[id ph]|] eqn:Hg.
  - apply inv_put_calls; [done|]. intros g' id' ph' Hl. apply lookup_delete_Some in Hl as [_ Hl]. by left.
  - destruct c. apply (inv_put_calls evs ev _ _ _ _ Hi). by left.
Qed.
Lemma inv_same evs ev c : inv evs c -> inv (ev :: evs) c.
Proof. intros Hi. destruct c. apply (inv_put_calls evs ev _ _ _ _ Hi). by left. Qed.

(** The invariants that do not depend on the call, of the same connection. *)
Lemma kept_user evs ev c u : inv evs c -> user c = Some u -> authenticated (ev :: evs) u.
Proof. intros Hi Hu. apply authenticated_more. by eapply inv_user. Qed.
Lemma kept_masking evs ev c : inv evs c -> controllerUUIDMasking c = false -> exists u, authenticated (ev :: evs) u /\ JimmAdmin u = true.
Proof. intros Hi Hm. destruct (inv_masking _ _ Hi Hm) as (u & ? & ?). eauto using authenticated_more. Qed.

Lemma registered_known order : order ≡ₚ facadeInit -> Forall (fun m => m ∈ facade_methods) (flat_map registered order).
Proof.
  intros Hp. apply Forall_forall. intros m Hm. unfold facade_methods. apply list_elem_of_In, in_flat_map in Hm as (f & Hf & Hm).
  apply list_elem_of_In, in_flat_map. exists f. split; [|done]. by apply list_elem_of_In; rewrite <- Hp; apply list_elem_of_In.
Qed.

Lemma root_step_inv evs ev c c' : inv evs c -> allowed ev -> step ev c = Some c' -> inv (ev :: evs) c'.
Proof.
  intros Hi Hal Hst.
  destruct ev as [g f v m o a|g w|g w|g|g w|g|g s|g fg|g order|g|g r|g|]; cbn [step] in Hst;
    repeat (case_match; simplify_eq; try discriminate); simplify_eq; try (by apply inv_phase); try (by apply inv_end);
    try (apply inv_next; [done|intros x Hx]);
    try match goal with Hg : calls c !! _ = Some (_, _) |- _ => pose proof (call_user _ _ _ _ _ Hi Hg) as Hok; cbn in Hok end.
  - by apply root_inv_start.
  - apply root_inv_start; [done|]. by eapply enter_ok.
  - by apply inv_same.
  - apply root_inv_move with c; eauto using kept_user, kept_masking; done.
  - by apply inv_phase.
  - apply root_inv_move with c; eauto using kept_user; done.
  - apply inv_phase; [done|]. cbn. destruct (Login.login svc jimmTag _ w) as [w' o] eqn:Hrun. simpl in Hx. subst o.
    eexists g, w, _, w'. split; [left|exact Hrun].
  - apply root_inv_move with c; eauto using kept_masking; try done; [by intros; eexists|intros u' [= <-]; by apply authenticated_more|by eexists].
  - by apply inv_phase.
  - by apply inv_phase.
  - apply inv_phase; [done|]. cbn. split; [done|]. by apply registered_known.
  - destruct Hok as [Hu Hl]. inversion_clear Hl. apply root_inv_move with c; eauto using kept_user, kept_masking; try done.
    intros k h Hk. simpl in Hk. unfold AddMethod in Hk. apply lookup_insert_Some in Hk as [[<- <-]|[_ Hk]]; [right|by left]. eexists. split; [done|]. split; [done|]. by right.
  - apply inv_put_calls; [done|]. by left.
Qed.

Lemma added_known l t k h : foldl (fun t m => AddMethod m t) t l !! k = Some h ->
  (exists m, m ∈ l /\ method_key m = k /\ me_handler m = h) \/ t !! k = Some h.
Proof.
  revert t. induction l as [|m l IH]; intros t Hk; [by right|]. destruct (IH _ Hk) as [(m' & ? & ? & ?)|Hk'].
  - left. exists m'. split_and!; [by right|done|done].
  - unfold AddMethod in Hk'. apply lookup_insert_Some in Hk' as [[<- <-]|[_ Hk']]; [|by right]. left. exists m. split_and!; [left|done|done].
Qed.

Lemma start_inv id : inv [] (newControllerRoot id).
Proof.
  split; [|done..]. intros k h Hk. apply added_known in Hk as [(m & ? & ? & ?)|Hk]; [|done]. exists m. split_and!; auto.
Qed.

Lemma root_run_inv id evs c : run id evs c -> inv evs c.
Proof. induction 1 as [|evs ev c c' _ IH Hal Hst]; [apply start_inv|by eapply root_step_inv]. Qed.


(** The user is known to every handler, so no handler reads a nil pointer. *)
Lemma handlers_have_user id evs c g n name :
  run id evs c -> calls c !! g = Some (n, PHandler name) \/ calls c !! g = Some (n, PMasking) -> has_user c.
Proof. intros Hr [Hg|Hg]; by apply (inv_calls _ _ (root_run_inv _ _ _ Hr)) in Hg. Qed.

(** Only an administrator turns the masking off. *)
Lemma masking_by_admin id evs c : run id evs c -> controllerUUIDMasking c = false -> exists u, authenticated evs u /\ JimmAdmin u = true.
Proof. intros Hr. apply (inv_masking _ _ (root_run_inv _ _ _ Hr)). Qed.

(** ** What a connection keeps *)

Lemma put_phase_masking g ph c : controllerUUIDMasking (put_phase g ph c) = controllerUUIDMasking c.
Proof. unfold put_phase. by destruct (calls c !! g) as [[]|]. Qed.

(** Masking that is off stays off, also when another user logs in. *)
Theorem masking_stays_off ev c c' : step ev c = Some c' -> controllerUUIDMasking c = false -> controllerUUIDMasking c' = false.
Proof.
  intros Hst Hm. destruct ev; cbn [step] in Hst; repeat (case_match; simplify_eq; try discriminate); simplify_eq; try done;
    rewrite ?put_phase_masking; try done; try (unfold next; case_match; by rewrite ?put_phase_masking);
    try (unfold end_; case_match; [by destruct (_ : Z * phase)|done]).
Qed.

(** *** The contexts of the calls *)

Definition numbers c : gmap nat Z := fst <$> calls c.
Definition counted c := (callID c, inflight c, numbers c).

Lemma counted_put_phase g ph c : counted (put_phase g ph c) = counted c.
Proof.
  unfold put_phase. destruct (calls c !! g) as [[id ph0]|] eqn:Hg; [|done]. unfold counted, numbers. simpl. f_equal.
  rewrite fmap_insert. simpl. apply insert_id. by rewrite lookup_fmap, Hg.
Qed.
Lemma counted_next {A} g (o : outcome A) wrap k c : (forall a, counted (k a c) = counted c) -> counted (next g o wrap k c) = counted c.
Proof. intros Hk. destruct o; simpl; [apply Hk|apply counted_put_phase..]. Qed.

(** The contexts that are kept are those of the calls that run, and each call
    has its own. *)
Record counts (n : nat) c : Prop := MkCounts {
  cn_bound : (0 <= callID c <= Z.of_nat n)%Z;
  cn_calls : forall g id, numbers c !! g = Some id -> (0 <= id < callID c)%Z /\ is_Some (inflight c !! id);
  cn_inflight : forall id, is_Some (inflight c !! id) -> exists g, numbers c !! g = Some id;
  cn_own : forall g g' id, numbers c !! g = Some id -> numbers c !! g' = Some id -> g = g';
}.
Lemma counts_eq n c c' : counted c' = counted c -> counts n c -> counts (S n) c'.
Proof. unfold counted. intros [= Hn Hi Hk] [Cb Cc Ci Co]. split; rewrite ?Hn, ?Hi, ?Hk; auto. lia. Qed.

Lemma counts_start n g ph c : (Z.of_nat n < 2 ^ 64 - 1)%Z -> calls c !! g = None -> counts n c -> counts (S n) (start g ph c).
Proof.
  intros Hn Hg [Cb Cc Ci Co]. assert (uint64 (callID c + 1) = callID c + 1)%Z as Hu by (apply Z.mod_small; lia).
  assert (numbers c !! g = None) as Hg' by (unfold numbers; by rewrite lookup_fmap, Hg).
  assert (numbers (start g ph c) = <[g := callID c]> (numbers c)) as Hk by (unfold numbers; simpl; by rewrite fmap_insert).
  split; rewrite ?Hk; simpl; rewrite ?Hu; [lia|..].
  - intros g' id. rewrite lookup_insert_Some. intros [[<- <-]|[Hne Hl]]; [split; [lia|]; by rewrite lookup_insert_eq|].
    destruct (Cc g' id Hl) as [? ?]. split; [lia|]. destruct (decide (id = callID c)); [lia|]. by rewrite lookup_insert_ne.
  - intros id [b Hb]. apply lookup_insert_Some in Hb as [[<- _]|[Hne Hb]]; [exists g; by rewrite lookup_insert_eq|].
    destruct (Ci id) as [g' Hl]; [by eexists|]. exists g'. rewrite lookup_insert_ne; [done|]. by intros <-; rewrite Hl in Hg'.
  - intros g1 g2 id. rewrite !lookup_insert_Some. intros [[<- <-]|[? H1']] [[<- ?]|[? H2']]; [done| | |by eapply Co].
    + destruct (Cc _ _ H2'). lia.
    + destruct (Cc _ _ H1'). lia.
Qed.

Lemma counts_end n g c : counts n c -> counts (S n) (end_ g c).
Proof.
  intros Hc. unfold end_. destruct (calls c !! g) as [[id ph]|] eqn:Hg; [|by eapply counts_eq]. destruct Hc as [Cb Cc Ci Co].
  assert (numbers c !! g = Some id) as Hg' by (unfold numbers; by rewrite lookup_fmap, Hg).
  set (c' := put_calls _ _ _ c). assert (numbers c' = delete g (numbers c)) as Hk by (unfold numbers; simpl; by rewrite fmap_delete).
  split; rewrite ?Hk; subst c'; simpl; [lia|..].
  - intros g' id'. rewrite lookup_delete_Some. intros [Hne Hl]. destruct (Cc g' id' Hl) as [? ?]. split; [done|].
    rewrite lookup_delete_ne; [done|]. intros <-. apply Hne. by eapply Co.
  - intros id' [b Hb]. apply lookup_delete_Some in Hb as [Hne Hb]. destruct (Ci id') as [g' Hl]; [by eexists|]. exists g'.
    rewrite lookup_delete_ne; [done|]. intros <-. congruence.
  - intros g1 g2 id'. rewrite !lookup_delete_Some. intros [_ ?] [_ ?]. by eapply Co.
Qed.

Lemma counts_kill n c : counts n c -> counts (S n) (Kill c).
Proof.
  intros [Cb Cc Ci Co]. assert (numbers (Kill c) = numbers c) as Hk by done.
  split; rewrite ?Hk; simpl; [lia| | |done].
  - intros g id Hl. destruct (Cc g id Hl) as [? [b Hb]]. split; [done|]. rewrite lookup_fmap, Hb. by eexists.
  - intros id. rewrite lookup_fmap, fmap_is_Some. apply Ci.
Qed.

Lemma step_counts n ev c c' : (Z.of_nat n < 2 ^ 64 - 1)%Z -> counts n c -> step ev c = Some c' -> counts (S n) c'.
Proof.
  intros Hn Hc Hst. destruct ev; cbn [step] in Hst; repeat (case_match; simplify_eq; try discriminate); simplify_eq;
    try (by apply counts_start); try (by apply counts_end); try (by apply counts_kill);
    (eapply counts_eq; [|exact Hc]); try done; try (by rewrite counted_put_phase);
    try (apply counted_next; intros; by rewrite counted_put_phase).
Qed.

Lemma run_counts id evs c : (Z.of_nat (length evs) < 2 ^ 64)%Z -> run id evs c -> counts (length evs) c.
Proof.
  intros Hn Hr. revert Hn. induction Hr as [|evs ev c c' _ IH Hal Hst]; simpl; intros Hn.
  - assert (numbers (newControllerRoot id) = ∅) as Hk by (unfold numbers; simpl; apply fmap_empty). split; rewrite ?Hk; simpl; [lia|..].
    + intros g i Hl. by rewrite lookup_empty in Hl.
    + intros i [b Hb]. by rewrite lookup_empty in Hb.
    + intros g g' i Hl. by rewrite lookup_empty in Hl.
  - eapply step_counts; [lia|apply IH; lia|done].
Qed.

(** The contexts that a connection keeps are exactly those of the calls
    that run, one for each, as long as fewer than 2^64 steps were taken; so
    the end of a connection cancels every call that runs, and no context is
    left of a call that has returned. *)
Theorem Kill_cancels_running id evs c :
  run id evs c -> (Z.of_nat (length evs) < 2 ^ 64)%Z ->
  (forall g n ph, calls c !! g = Some (n, ph) -> inflight (Kill c) !! n = Some true) /\
  (forall n, is_Some (inflight (Kill c) !! n) -> exists g ph, calls c !! g = Some (n, ph)) /\
  (forall g g' n ph ph', calls c !! g = Some (n, ph) -> calls c !! g' = Some (n, ph') -> g = g').
Proof.
  intros Hr Hn. destruct (run_counts _ _ _ Hn Hr) as [_ Cc Ci Co].
  assert (forall g n ph, calls c !! g = Some (n, ph) -> numbers c !! g = Some n) as Hnum by (intros g n ph Hg; unfold numbers; by rewrite lookup_fmap, Hg).
  split_and!.
  - intros g n ph Hg. destruct (Cc g n (Hnum _ _ _ Hg)) as [_ [b Hb]]. simpl. by rewrite lookup_fmap, Hb.
  - intros n. simpl. rewrite lookup_fmap, fmap_is_Some. intros Hb. destruct (Ci n Hb) as [g Hg]. unfold numbers in Hg.
    rewrite lookup_fmap in Hg. destruct (calls c !! g) as [[n' ph]|] eqn:Hc; [|done]. injection Hg as <-. by exists g, ph.
  - intros g g' n ph ph' Hg Hg'. eapply Co; eauto.
Qed.
End connection.

(** ** The facades *)

Lemma facades_distinct a b :
  a ∈ SupportedFacadeVersions -> b ∈ SupportedFacadeVersions -> facade_le a b -> facade_le b a -> a = b.
Proof.
  intros Ha Hb Hab Hba.
  assert (forallb (fun a => forallb (fun b => implb (String.leb a.1 b.1 && String.leb b.1 a.1) (bool_decide (a = b)))
    SupportedFacadeVersions) SupportedFacadeVersions = true) as Hall by (vm_compute; reflexivity).
  rewrite forallb_forall in Hall. specialize (Hall a (proj1 (list_elem_of_In _ _) Ha)). rewrite forallb_forall in Hall.
  specialize (Hall b (proj1 (list_elem_of_In _ _) Hb)). unfold facade_le in Hab, Hba. rewrite Hab, Hba in Hall.
  by apply bool_decide_eq_true in Hall.
Qed.

#[export] Instance facade_le_trans : Transitive facade_le.
Proof. intros a b d. unfold facade_le. rewrite <- !Is_true_true. apply (transitivity (R:=String.le)). Qed.
#[export] Instance facade_le_total : Total facade_le.
Proof. intros a b. unfold facade_le. rewrite <- !Is_true_true. apply (total String.le). Qed.

Lemma SupportedFacades_map (order : list facade) (m : gmap string (list Z)) :
  NoDup (((fun f => (fa_name f, fa_versions f)) <$> order).*1) ->
  foldl (fun m f => <[fa_name f := fa_versions f]> m) m order = list_to_map ((fun f => (fa_name f, fa_versions f)) <$> order) ∪ m.
Proof.
  revert m. induction order as [|f order IH]; intros m Hnd; simpl; [by rewrite map_empty_union|]. simpl in Hnd.
  apply NoDup_cons in Hnd as [Hni Hnd]. rewrite IH by done. rewrite <- insert_union_r; [by rewrite insert_union_l|].
  by apply not_elem_of_list_to_map_1.
Qed.
Lemma table_names : NoDup (SupportedFacadeVersions.*1).
Proof. apply (bool_decide_unpack _). vm_compute. exact I. Qed.

(** Every login returns the facades and versions of the generated table,
    in its order, whatever the order in which the map of the facades is
    ranged over; the methods that it registers are the same ones. *)
Theorem setupFacades_table order :
  order ≡ₚ facadeInit ->
  setupFacades order = SupportedFacadeVersions /\ SupportedFacades order = list_to_map SupportedFacadeVersions /\
  flat_map registered order ≡ₚ facade_methods.
Proof.
  intros Hp. assert ((fun f => (fa_name f, fa_versions f)) <$> order ≡ₚ SupportedFacadeVersions) as Ht by (by rewrite Hp).
  split_and!.
  - apply (StronglySorted_unique_strong facade_le).
    + intros a b Ha Hb. unfold setupFacades in Ha. rewrite merge_sort_Permutation, Ht in Ha. by apply facades_distinct.
    + apply StronglySorted_merge_sort; apply _.
    + apply Sorted_StronglySorted; [apply _|]. unfold SupportedFacadeVersions. repeat constructor.
    + unfold setupFacades. by rewrite merge_sort_Permutation.
  - unfold SupportedFacades. rewrite (SupportedFacades_map order ∅), map_union_empty by (by rewrite Ht; apply table_names). apply list_to_map_proper; [|done].
    rewrite Ht. apply table_names.
  - unfold facade_methods. by rewrite Hp.
Qed.
End Root.
