(* ===== verification/Facade.v ===== *)
(** * Facade: the methods that clients call ([internal/jujuapi]: [jimm.go],
    [accesscontrol.go], [role.go], [controllerprofile.go],
    [migrationtarget.go], [modelmanager.go], [modelupgrader.go],
    [usermanager.go], parts of [controller.go], [controllerroot.go],
    [types.go] and [websocket.go]).

    A method decodes its parameters, calls the managers and encodes their
    results.  Methods on lists put one result or error in each place.

    The theorems: the methods of administrators refuse everyone else before
    they touch anything; while the masking is on, clients see JIMM's own
    identifier in place of that of the controller; the questions for models
    do not tell missing models from hidden ones; at most 1000 audit events are
    returned; a caller acts for another user only as an administrator. *)

From Stdlib Require Import Ascii.
From S2P Require Import Prelude Errors GoStrings Regexp Names AuthModel RefServer OpenFGA Dbmodel Users Database Encoding Pagination TagResolver Access Relations Managers JujuDb CloudDb JujuBase JujuModels ControllerDb JujuOffers JujuClouds JujuCredentials ModelBuilder JujuControllers JujuMigration Upgrade Profiles AuditLog AuthService Login.

Module Facade.

(** [jujuparams.Error]; JIMM sets no further information. *)
Record JujuError := MkJujuError { je_Message : string; je_Code : string }.

(** [mapError]; the log is left out. *)
Definition mapError (err : gerror) : JujuError := MkJujuError (Error err) (ErrorCode err).

(** [time.Parse(time.RFC3339, s)] and [t.Format(time.RFC3339)];
    [version.ParseNonStrict] of github.com/juju/version
    and [Entity.String] of github.com/canonical/ofga. *)
Class Texts := {
  time_Parse : string -> outcome Z;
  time_Format : Z -> string;
  ParseNonStrict : string -> bool;
  Entity_String : Entity -> string;
}.

(** The parameters of requests. *)
Record ModelCreateParams := MkCreate {
  mp_Name : string; mp_OwnerTag : string; mp_Config : gmap string goany; mp_CloudTag : string; mp_CloudRegion : string;
  mp_CloudCredentialTag : string;
}.
Record FindAuditEventsRequest := MkAuditRequest {
  ar_After : string; ar_Before : string; ar_UserTag : string; ar_Model : string; ar_Method : string;
  ar_Offset : Z; ar_Limit : Z; ar_SortTime : bool;
}.
Record ActivateArgs := MkActivateArgs { aa_ModelTag : string; aa_ControllerTag : string; aa_CrossModelUUIDs : list string }.

(** [jujuparams.ModelInfo]: tags are texts. *)
Record ModelInfoResult (Info : Type) := MkInfoResult {
  ir_Name : string; ir_UUID : string; ir_ControllerUUID : string; ir_CloudTag : string; ir_CloudRegion : string;
  ir_CloudCredentialTag : string; ir_OwnerTag : string; ir_Life : string; ir_Users : list UserInfo; ir_Machines : list Info;
  ir_Migration : option (option Z); ir_Rest : Info;
}.
Arguments MkInfoResult {Info}. Arguments ir_ControllerUUID {Info}.
(** [jujuparams.ModelSummary]; a summary that is only an error of the
    controller has none of these fields and is not modelled. *)
Record SummaryResult (Info : Type) := MkSummaryResult {
  sr_Name : string; sr_UUID : string; sr_ControllerUUID : string; sr_ProviderType : string; sr_CloudTag : string; sr_CloudRegion : string;
  sr_CloudCredentialTag : string; sr_OwnerTag : string; sr_Life : string; sr_UserAccess : string; sr_Status : string; sr_Rest : option Info;
}.
Arguments MkSummaryResult {Info}. Arguments sr_ControllerUUID {Info}.

(** [apiparams.Group] and [Role]: names, identifiers and times. *)
Record Named := MkNamed { na_UUID : string; na_Name : string; na_CreatedAt : string; na_UpdatedAt : string }.

Section facade.
Context {F : Type} `{OFGAServer F} {T : Type -> Type} `{Gorm T} {C : Type} `{Controllers C} `{JujuNames} `{Hash} `{GroupFetcher} `{UUIDs} `{UUIDParse}.
Context `{JujuVersion} `{Migration.Descriptions} `{!Upgrade.Enqueuer C} `{Texts}.
Local Abbreviation JM := (M (JW F T C)).

(** [controllerRoot] after a login. *)
Record controllerRoot := MkRoot {
  r_user : User; r_masking : bool; r_ControllerUUID : string;
  r_juju : JujuManager; r_perm : PermissionManager; r_audit : AuditLog.AuditLogManager;
}.
Implicit Types r : controllerRoot.

Definition badRequest (err : gerror) : gerror := Codef CodeBadRequest "%w" [ArgE err].
Definition parse (kind tag : string) : JM Tag := lift (ParseTagOfKind kind tag).
Definition parse_bad (kind tag : string) : JM Tag := map_err badRequest (parse kind tag).
(** [names.ParseCloudCredentialTag] *)
Definition parse_credential (tag : string) : JM CredTag := t ← parse "cloudcred" tag; mret (CloudCredentialTag (Id t)).

(** A method on a list: each element has a result or an error. *)
Definition bulk {A B} (args : list A) (f : A -> JM B) : JM (list (B + JujuError)) :=
  map_range args (fun a => x ← try (f a); mret (match x with inl b => inl b | inr err => inr (mapError err) end)).
(** Methods without a result: the error, if any. *)
Definition bulk_errors {A} (args : list A) (f : A -> JM unit) : JM (list (option JujuError)) :=
  map_range args (fun a => x ← try (f a); mret (match x with inl _ => None | inr err => Some (mapError err) end)).

(** ** Users ([controllerroot.go], [usermanager.go]) *)

Definition parseUserTag (tag : string) : outcome Tag :=
  match ParseTagOfKind UserTagKind tag with
  | Err err => Err (badRequest err)
  | Ok ut => if IsLocal ut
      then Err (Codef CodeBadRequest "unsupported local user; if this is a service account add @%s domain" [ArgS ServiceAccountDomain]) else Ok ut
  | o => o
  end.

Definition userInfo r (entity : string) : JM Identity :=
  user ← map_err badRequest (lift (parseUserTag entity));
  if decide (u_Name (r_user r) <> Id user) then throw Unauthorized else mret (u_Identity (r_user r)).
Definition UserInfo_ r (entities : list string) : JM (list (Identity + JujuError)) := bulk entities (userInfo r).

(** ** Groups and relations ([accesscontrol.go]) *)

Definition group_named (g : GroupEntry) : Named := MkNamed (g_UUID g) (g_Name g) (time_Format (g_CreatedAt g)) (time_Format (g_UpdatedAt g)).

Definition AddGroup r (name : string) : JM Named :=
  if negb (IsValidGroupName name) then throw (Codef CodeBadRequest "invalid group name" []) else
  g ← map_err (fun err => Errorf "failed to add group: %w" [ArgE err]) (world (GroupManager.AddGroup (r_user r) name));
  mret (group_named g).

Definition GetGroup r (uuid name : string) : JM Named :=
  let got := map_err (fun err => Errorf "failed to get group: %w" [ArgE err]) in
  g ← (if decide (uuid <> "" /\ name <> "") then throw (Codef CodeBadRequest "only one of UUID or Name should be provided" [])
       else if decide (uuid <> "") then got (world (GroupManager.GetGroupByUUID (r_user r) uuid))
       else if decide (name <> "") then got (world (GroupManager.GetGroupByName (r_user r) name))
       else throw (Codef CodeBadRequest "no UUID or Name provided" []));
  mret (group_named g).

Definition RenameGroup r (name newName : string) : JM unit :=
  if negb (IsValidGroupName newName) then throw (Codef CodeBadRequest "invalid group name" []) else
  map_err (fun err => Errorf "failed to rename group: %w" [ArgE err]) (world (GroupManager.RenameGroup (r_user r) name newName)).

Definition RemoveGroup (fuel : nat) r (name : string) : JM unit :=
  map_err (fun err => Errorf "failed to remove group: %w" [ArgE err]) (world (GroupManager.RemoveGroup fuel (r_user r) name)).

Definition ListGroups r (limit offset : Z) : JM (list Named) :=
  groups ← map_err (fun err => Errorf "failed to list groups: %w" [ArgE err])
             (world (GroupManager.ListGroups (r_user r) (NewOffsetFilter limit offset) ""));
  mret (group_named <$> groups).

Definition AddRelation r (tuples : list Rel.RelationshipTuple) : JM unit :=
  map_err (fun err => Errorf "failed to add relation: %w" [ArgE err]) (world (Rel.AddRelation (r_perm r) (r_user r) tuples)).
Definition RemoveRelation r (tuples : list Rel.RelationshipTuple) : JM unit :=
  map_err (fun err => Errorf "failed to remove relation: %w" [ArgE err]) (world (Rel.RemoveRelation (r_perm r) (r_user r) tuples)).

Definition CheckRelation r (tuple : Rel.RelationshipTuple) : JM bool :=
  map_err (fun err => Errorf "failed to check relation: %w" [ArgE err]) (world (Rel.CheckRelation (r_perm r) (r_user r) tuple false)).
Definition CheckRelations r (tuples : list Rel.RelationshipTuple) : JM (list (bool * string)) :=
  results ← map_err (fun err => Errorf "failed to check relations: %w" [ArgE err]) (world (Rel.CheckRelations (r_perm r) (r_user r) tuples));
  mret ((fun x => (Rel.Allowed x, match Rel.cr_Error x with Some err => Error err | None => "" end)) <$> results).

(** The ends of tuples as texts; those that cannot be resolved are printed as
    they are stored, and the errors are collected. *)
Definition end_text r (what : string) (resolveUUIDs : bool) (e : option Entity) : JM (string * list string) :=
  match e with
  | None => panic Rel.nilPointer
  | Some e =>
      x ← try (jdb (ToJAASTag (r_perm r) e resolveUUIDs));
      mret (match x with inl s => (s, []) | inr err => (Entity_String e, ["failed to parse " +:+ what +:+ ": " +:+ Error err]) end)
  end.
Definition ListRelationshipTuples (fuel : nat) r (tuple : Rel.RelationshipTuple) (pageSize : Z) (token : string) (resolveUUIDs : bool)
    : JM (list Rel.RelationshipTuple * string * list string) :=
  '(found, ct) ← map_err (fun err => Errorf "failed to list relations: %w" [ArgE err])
    (world (Rel.ListRelationshipTuples fuel (r_perm r) (r_user r) tuple pageSize token));
  texts ← map_range found (fun t =>
    '(object, errs) ← end_text r "object" resolveUUIDs (Object t);
    '(target, errs') ← end_text r "target" resolveUUIDs (Target t);
    mret (Rel.MkRelTuple object (Relation t) target, errs ++ errs'));
  mret (fmap (M:=list) fst texts, ct, concat (fmap (M:=list) snd texts)).

(** ** Roles ([role.go]) *)

Definition role_named (x : RoleEntry) : Named := MkNamed (r_UUID x) (r_Name x) (time_Format (r_CreatedAt x)) (time_Format (r_UpdatedAt x)).
Definition invalidRole : gerror := Codef CodeBadRequest "invalid role name" [].

Definition AddRole r (name : string) : JM Named :=
  if negb (IsValidRoleName name) then throw invalidRole else
  x ← map_err (fun err => Errorf "failed to add role: %w" [ArgE err]) (world (RoleManager.AddRole (r_user r) name));
  mret (role_named x).

Definition GetRole r (uuid name : string) : JM Named :=
  let got := map_err (fun err => Errorf "failed to get role: %w" [ArgE err]) in
  x ← (if decide (uuid <> "" /\ name <> "") then throw (Codef CodeBadRequest "only one of UUID or Name should be provided" [])
       else if bool_decide (name <> "") && negb (IsValidRoleName name) then throw invalidRole
       else if decide (uuid <> "") then got (world (RoleManager.GetRoleByUUID (r_user r) uuid))
       else if decide (name <> "") then got (world (RoleManager.GetRoleByName (r_user r) name))
       else throw (Codef CodeBadRequest "no UUID or Name provided" []));
  mret (role_named x).

Definition RenameRole r (name newName : string) : JM unit :=
  if negb (IsValidRoleName newName) then throw invalidRole else
  map_err (fun err => Errorf "failed to rename role: %w" [ArgE err]) (world (RoleManager.RenameRole (r_user r) name newName)).

Definition RemoveRole (fuel : nat) r (name : string) : JM unit :=
  if negb (IsValidRoleName name) then throw invalidRole else
  map_err (fun err => Errorf "failed to remove role: %w" [ArgE err]) (world (RoleManager.RemoveRole fuel (r_user r) name)).

Definition ListRoles r (limit offset : Z) : JM (list Named) :=
  roles ← world (RoleManager.ListRoles (r_user r) (NewOffsetFilter limit offset) "");
  mret (role_named <$> roles).

(** ** Controller profiles ([controllerprofile.go]) *)

Definition builtInClouds : list string := ["microk8s"; "localhost"].
Definition partialJujuVersionFormatMessage : string := "must be a partial/full version string with one, two, or three dot-separated numeric components".

Definition validatePartialJujuVersion (versionString fieldName : string) (allowEmpty : bool) : outcome unit :=
  let malformed := Codef CodeBadRequest "%s %s" [ArgS fieldName; ArgS partialJujuVersionFormatMessage] in
  if decide (versionString = "") then
    if allowEmpty then Ok tt else Err (Codef CodeBadRequest "%s must be provided" [ArgS fieldName])
  else if negb (ParseNonStrict versionString) then Err malformed
  else if Contains versionString "-" || (3 <? Z.of_nat (length (split_char "."%char versionString)))%Z then Err malformed
  else Ok tt.

(** The storage pool of a profile may be nil; a profile has the empty one
    then. *)
Definition validateSaveControllerProfileRequest (p : ControllerProfile) (pool : bool) : outcome unit :=
  _ ← validatePartialJujuVersion (cp_JujuVersion p) "controller profile juju version" false;
  if decide (cp_CloudName p ∈ builtInClouds)
  then Err (Codef CodeIncompatibleClouds "controller profiles do not support built-in clouds like %q" [ArgS (cp_CloudName p)])
  else if pool && negb (Bool.eqb (bool_decide (cp_PoolName p = "")) (bool_decide (cp_PoolType p = "")))
  then Err (Codef CodeBadRequest "controller profile storage pool requires both name and type" []) else Ok tt.

Definition SaveControllerProfile r (p : ControllerProfile) (pool : bool) : JM ControllerProfile :=
  admin_only (r_user r) (
    _ ← lift (validateSaveControllerProfileRequest p pool);
    map_err (fun err => Errorf "failed to save controller profile: %w" [ArgE err]) (jdb (Profiles.SaveControllerProfile p))).
Definition GetControllerProfile r (name : string) : JM ControllerProfile :=
  admin_only (r_user r)
    (map_err (fun err => Errorf "failed to get controller profile: %w" [ArgE err]) (jdb (Profiles.GetControllerProfile_ name))).
Definition ListControllerProfiles r (jujuVersion : string) : JM (list string) :=
  admin_only (r_user r) (
    _ ← lift (validatePartialJujuVersion jujuVersion "controller profile juju version filter" true);
    profiles ← map_err (fun err => Errorf "failed to list controller profiles: %w" [ArgE err]) (jdb (Profiles.ListControllerProfiles_ jujuVersion));
    mret (cp_Name <$> profiles)).
Definition RemoveControllerProfile r (name : string) : JM unit :=
  admin_only (r_user r)
    (map_err (fun err => Errorf "failed to remove controller profile: %w" [ArgE err]) (jdb (Profiles.RemoveControllerProfile_ name))).

(** ** Migrations into JIMM ([migrationtarget.go]) *)

Definition CheckMachines r (modelTag : string) : JM (list string) :=
  admin_only (r_user r) (
    mt ← parse ModelTagKind modelTag;
    results ← Migration.CheckMachines (r_juju r) (r_user r) (Id mt);
    mret (Error <$> results)).
Definition Abort (fuel : nat) r (modelTag : string) : JM unit :=
  admin_only (r_user r) (
    mt ← parse ModelTagKind modelTag;
    Migration.AbortMigration fuel (r_juju r) (r_user r) (Id mt)).
Definition AdoptResources r (modelTag sourceControllerVersion : string) : JM unit :=
  admin_only (r_user r) (
    mt ← parse ModelTagKind modelTag;
    Migration.AdoptResources (r_juju r) (r_user r) (Id mt) sourceControllerVersion).
Definition LatestLogTime r (modelTag : string) : JM Z :=
  admin_only (r_user r) (
    mt ← parse ModelTagKind modelTag;
    Migration.LatestLogTime (r_juju r) (r_user r) (Id mt)).
Definition Prechecks r (args : MigrationModelInfo) : JM unit :=
  admin_only (r_user r) (
    ownerTag ← parse UserTagKind (mm_OwnerTag args);
    Migration.Prechecks (r_juju r) (r_user r)
      (Migration.MkMigrating (mm_UUID args) ownerTag (mm_Name args) (mm_AgentVersion args) (mm_ControllerAgentVersion args) (mm_ModelDescription args))).
(** [info] is the source controller that the arguments describe. *)
Definition Activate r (args : ActivateArgs) (info : Info) : JM unit :=
  admin_only (r_user r) (
    mt ← map_err (fun err => Errorf "invalid model tag: %w" [ArgE err]) (parse ModelTagKind (aa_ModelTag args));
    _ ← (if decide (aa_ControllerTag args <> "")
         then map_err (fun err => Errorf "invalid controller tag: %w" [ArgE err]) (parse ControllerTagKind (aa_ControllerTag args)) ≫= (fun _ => mret tt)
         else mret tt);
    Migration.Activate (r_juju r) (r_user r) mt info (aa_CrossModelUUIDs args)).
Definition Import r (raw : string) : JM unit :=
  admin_only (r_user r)
    (map_err (fun err => Errorf "failed to import model: %w" [ArgE err]) (Migration.Import (r_juju r) (r_user r) raw)).

(** ** JIMM's own methods ([jimm.go]) *)

(** [cloudFromParams]: the same fields, under the name. *)
Definition cloudFromParams (name : string) (p : JujuCloud) : JujuCloud :=
  MkJujuCloud name (jc_Type p) (jc_HostCloudRegion p) (jc_AuthTypes p) (jc_Endpoints p) (jc_Regions p) (jc_CACertificates p)
    (jc_SkipTLSVerify p) (jc_Config p) (jc_RegionConfig p).

Definition AddCloudToController r (name controllerName : string) (cloud : JujuCloud) (force : option bool) : JM unit :=
  tag ← lift (NewCloudTag name);
  Clouds.AddCloudToController (r_juju r) (r_user r) controllerName tag (cloudFromParams name cloud) (default false force).

Definition toAddModelArgs (args : ModelCreateParams) (authenticatedUser : Tag) : JM Builder.ModelCreateArgs :=
  if decide (mp_Name args = "") then throw (New "name not specified") else
  cloud ← (if decide (mp_CloudTag args <> "") then parse_bad CloudTagKind (mp_CloudTag args) else mret (MkTag CloudTagKind ""));
  owner ← (if decide (mp_OwnerTag args <> "") then parse_bad UserTagKind (mp_OwnerTag args) else mret authenticatedUser);
  credential ← (if decide (mp_CloudCredentialTag args <> "") then
      ct ← map_err (fun err => Errorf "invalid cloud credential tag: %w" [ArgE err]) (parse_credential (mp_CloudCredentialTag args));
      if bool_decide (Id cloud <> "") && bool_decide (ct_Cloud ct <> Id cloud) then throw (New "cloud credential cloud mismatch") else mret (Some ct)
    else mret None);
  mret (Builder.MkModelArgs (mp_Name args) (Id owner) (mp_Config args) cloud (mp_CloudRegion args) credential "").

(** [toFullModelInfo] and [toModelInfo] *)
Definition toModelInfo (info : ModelInfo Info) : outcome (ModelInfoResult Info) :=
  cloudTag ← NewCloudTag (mi_Cloud info);
  credentialTag ← NewJujuTag "cloudcred" (mi_CloudCredential info);
  ownerTag ← NewUserTag (mi_Owner info);
  Ok (MkInfoResult (mi_Name info) (mi_UUID info) (mi_ControllerUUID info) (TagString cloudTag) (mi_CloudRegion info) (TagString credentialTag)
        (TagString ownerTag) (mi_Life info) (mi_Users info) (mi_Machines info) (mi_MigrationStatus info) (mi_Rest info)).

Definition mask_info r (info : ModelInfo Info) : ModelInfo Info :=
  if r_masking r then
    MkModelInfo (mi_Name info) (mi_UUID info) (mi_Owner info) (mi_Life info) (mi_Cloud info) (mi_CloudRegion info) (mi_CloudCredential info)
      (r_ControllerUUID r) (mi_Users info) (mi_Machines info) (mi_MigrationStatus info) (mi_Rest info)
  else info.

Definition with_ControllerName (name : string) (a : Builder.ModelCreateArgs) : Builder.ModelCreateArgs :=
  Builder.MkModelArgs (Builder.ma_Name a) (Builder.ma_Owner a) (Builder.ma_Config a) (Builder.ma_Cloud a) (Builder.ma_CloudRegion a)
    (Builder.ma_CloudCredential a) name.

(** [CreateModel] with an empty name of the controller. *)
Definition addModel r (args : ModelCreateParams) (controllerName : string) : JM (ModelInfoResult Info) :=
  user ← lift (Identity_ResourceTag (u_Identity (r_user r)));
  mca ← toAddModelArgs args user;
  info ← Builder.AddModel (r_juju r) (r_user r) (with_ControllerName controllerName mca);
  lift (toModelInfo (mask_info r info)).
Definition AddModelToController r (args : ModelCreateParams) (controllerName : string) := addModel r args controllerName.
Definition CreateModel r (args : ModelCreateParams) := addModel r args "".

Definition controllers_info (cs : list Controller) : outcome (list Ctl.ControllerInfo) := mapM Ctl.ToControllerInfo cs.
(** [slices.SortFunc] by name. *)
Fixpoint insert_info (x : Ctl.ControllerInfo) (l : list Ctl.ControllerInfo) : list Ctl.ControllerInfo :=
  match l with
  | [] => [x]
  | y :: l' => if String.leb (Ctl.ci_Name x) (Ctl.ci_Name y) then x :: l else y :: insert_info x l'
  end.
Definition ListControllers r : JM (list Ctl.ControllerInfo) :=
  cs ← Ctl.ListControllers (r_user r);
  infos ← lift (controllers_info cs);
  if negb (JimmAdmin (r_user r)) then mret infos else
  bootstraps ← Ctl.ListControllerBootstraps_;
  more ← lift (mapM Ctl.Bootstrap_ToControllerInfo bootstraps);
  mret (foldr insert_info [] (infos ++ more)).

Definition RemoveController r (name : string) (force : bool) : JM Ctl.ControllerInfo :=
  admin_only (r_user r) (
    c ← Ctl.ControllerInfo_ (r_user r) name;
    _ ← Ctl.RemoveController name force;
    lift (Ctl.ToControllerInfo c)).
Definition SetControllerDeprecated r (name : string) (deprecated : bool) : JM Ctl.ControllerInfo :=
  _ ← Ctl.SetControllerDeprecated (r_user r) name deprecated;
  c ← Ctl.ControllerInfo_ (r_user r) name;
  lift (Ctl.ToControllerInfo c).

(** *** The audit log *)

Definition maxLimit : Z := 1000.
Definition limitDefault : Z := 50.
Definition filter_time (what s : string) : outcome (option Z) :=
  if decide (s = "") then Ok None else
  match time_Parse s with
  | Ok t => Ok (Some t)
  | Err err => Err (Codef CodeBadRequest ("invalid " +:+ AuditLog.quote +:+ what +:+ AuditLog.quote +:+ " filter: %w") [ArgE err])
  | Panic x => Panic x
  | OutOfFuel => OutOfFuel
  end.
Definition auditParamsToFilter (req : FindAuditEventsRequest) : outcome AuditLog.AuditLogFilter :=
  start ← filter_time "after" (ar_After req);
  end_ ← filter_time "before" (ar_Before req);
  tag ← (if decide (ar_UserTag req = "") then Ok "" else
         match ParseTagOfKind UserTagKind (ar_UserTag req) with
         | Ok tag => Ok (TagString tag)
         | Err err => Err (Codef CodeBadRequest ("invalid " +:+ AuditLog.quote +:+ "user-tag" +:+ AuditLog.quote +:+ " filter: %w") [ArgE err])
         | Panic x => Panic x
         | OutOfFuel => OutOfFuel
         end);
  let limit := if (ar_Limit req <? 1)%Z then limitDefault else ar_Limit req in
  let limit := if (maxLimit <? limit)%Z then maxLimit else limit in
  Ok (AuditLog.MkAuditFilter start end_ tag (ar_Model req) (ar_Method req) (Z.max (ar_Offset req) 0) limit (ar_SortTime req)).

Definition FindAuditEvents r (req : FindAuditEventsRequest) : JM (list AuditLogEntry) :=
  filter ← lift (auditParamsToFilter req);
  world (AuditLog.FindAuditEvents (r_audit r) (r_user r) filter).
Definition GrantAuditLogAccess r (userTag : string) : JM unit :=
  ut ← map_err badRequest (lift (parseUserTag userTag));
  world (Perm.GrantAuditLogAccess (r_perm r) (r_user r) ut).
Definition RevokeAuditLogAccess r (userTag : string) : JM unit :=
  ut ← map_err badRequest (lift (parseUserTag userTag));
  world (Perm.RevokeAuditLogAccess (r_perm r) (r_user r) ut).
Definition PurgeLogs r (date : Z) : JM Z := world (AuditLog.PurgeLogs (r_audit r) (r_user r) date).

(** *** Models and controllers *)

Definition FullModelStatus r (modelTag : string) (patterns : list string) : JM Info :=
  mt ← parse_bad ModelTagKind modelTag;
  Ctl.FullModelStatus (r_juju r) (r_user r) mt patterns.
Definition UpdateMigratedModel r (modelTag targetController : string) : JM unit :=
  admin_only (r_user r) (
    mt ← parse_bad ModelTagKind modelTag;
    Ctl.UpdateMigratedModel (r_juju r) (r_user r) mt targetController).
Definition ImportModel r (modelTag controller owner : string) : JM unit :=
  mt ← parse_bad ModelTagKind modelTag;
  Ctl.ImportModel (r_juju r) (r_user r) controller mt owner.

(** The tag, whether the credential was recovered, and the error. *)
Definition RecoverModelCredential r (all : bool) (credentialTag : string) (dryRun : bool) : JM (list (string * bool * string)) :=
  if all then
    results ← Credentials.RecoverAllModelCredentials (r_juju r) (r_user r) dryRun;
    mret ((fun x : Tag * option gerror => (TagString x.1, match x.2 with None => true | Some _ => false end,
            match x.2 with None => "" | Some err => Error err end)) <$> results)
  else
    t ← parse_bad "cloudcred" credentialTag;
    _ ← Credentials.RecoverModelCredential (r_juju r) (r_user r) (CloudCredentialTag (Id t)) dryRun;
    mret [(TagString t, true, "")].

Definition RemoveCloudFromController (fuel : nat) r (cloudTag controllerName : string) : JM unit :=
  ct ← parse_bad CloudTagKind cloudTag;
  Clouds.RemoveCloudFromController fuel (r_juju r) (r_user r) controllerName ct.

(** Each migration has an identifier or an error. *)
Definition MigrateModel r (specs : list (string * string)) : JM (list (string + JujuError)) :=
  bulk specs (fun spec => Ctl.InitiateInternalMigration (r_juju r) (r_user r) spec.1 spec.2).

(** The names of users are checked in the order of a map. *)
Definition valid_mapping (IsValidUserName : string -> bool) (le : string * string) : outcome unit :=
  if negb (IsValidUserName le.1) then Err (Errorf "%s is not a valid local user name" [ArgS le.1])
  else if decide (le.2 = "") then Ok tt
  else if negb (IsValidUser le.2) || negb (Contains le.2 "@") then Err (Errorf "%s is not a valid external user name" [ArgS le.2])
  else Ok tt.
Definition check_mapping (IsValidUserName : string -> bool) (l : list (string * string)) : outcome unit :=
  foldr (fun le o => _ ← valid_mapping IsValidUserName le; o) (Ok tt) l.
(** [names.IsValidUserName] and [IsValidControllerName] are arguments. *)
Definition PrepareModelMigration (IsValidUserName IsValidControllerName : string -> bool) r (modelTag backingController : string) (userMapping : gmap string string)
    : JM string :=
  admin_only (r_user r) (
    mt ← map_err (fun err => Errorf "invalid model tag: %w" [ArgE err]) (parse ModelTagKind modelTag);
    if negb (IsValidControllerName backingController) then throw (New "invalid controller name") else
    _ ← lift (check_mapping IsValidUserName (map_to_list userMapping));
    Ctl.PrepareModelMigration (r_user r) (Id mt) backingController userMapping).

Definition ListMigrationTargets r (modelTag : string) : JM (list Ctl.ControllerInfo) :=
  admin_only (r_user r) (
    mt ← parse_bad ModelTagKind modelTag;
    cs ← Ctl.ListMigrationTargets mt;
    lift (controllers_info cs)).
Definition UpgradeController r (controllerName : string) (args : UpgradeArgs) : JM string :=
  admin_only (r_user r) (Models.UpgradeController (r_juju r) (r_user r) controllerName args).
Definition UpgradeTo r (modelUUIDs : list string) (targetControllerName : string) : JM (list (option JujuError)) :=
  admin_only (r_user r) (
    if decide (modelUUIDs = []) then throw (Codef CodeBadRequest "at least one model UUID must be provided" []) else
    bulk_errors modelUUIDs (fun uuid =>
      if negb (ValidTagId ModelTagKind uuid) then throw (Codef CodeBadRequest "invalid model UUID %q" [ArgS uuid]) else
      _ ← map_err (fun err => Codef CodeBadRequest "failed to run upgrade to for model %q: %w" [ArgS uuid; ArgE err])
            (Upgrade.UpgradeTo (r_user r) uuid targetControllerName);
      mret tt)).

(** [strings.SplitN(q, "/", 2)]; [uuid_text] is what [uuid.Parse] followed by
    [String] makes of a text. *)
Definition qualifier (uuid_text : string -> outcome string) (q : string) : outcome Model :=
  match split_char "/"%char q with
  | owner :: (_ :: _) as rest =>
      let name := String.concat "/" (tail rest) in
      if decide (owner <> "" /\ name <> "") then Ok (modelOf name None owner)
      else match uuid_text q with Ok u => Ok (modelOf "" (Some u) "") | Err err => Err (Codef CodeBadRequest "invalid model UUID: %w" [ArgE err]) | Panic x => Panic x | OutOfFuel => OutOfFuel end
  | _ => match uuid_text q with Ok u => Ok (modelOf "" (Some u) "") | Err err => Err (Codef CodeBadRequest "invalid model UUID: %w" [ArgE err]) | Panic x => Panic x | OutOfFuel => OutOfFuel end
  end.

(** ** Models ([modelmanager.go], [modelupgrader.go]) *)

(** The loop goes on after a tag that cannot be parsed, with the zero tag; an
    error of the call replaces the first one. *)
Definition dumped {A} r (entities : list string) (dump : Tag -> JM A) : JM (list (option A * option JujuError)) :=
  map_range entities (fun tag =>
    t ← try (parse_bad ModelTagKind tag);
    x ← try (dump (match t with inl mt => mt | inr _ => MkTag ModelTagKind "" end));
    mret (match x with
          | inl d => (Some d, match t with inl _ => None | inr err => Some (mapError err) end)
          | inr err => (None, Some (mapError err))
          end)).
(** [yaml] encodes the dump. *)
Definition DumpModels (yaml : Info -> outcome string) r (entities : list string) (simplified : bool) : JM (list (option string * option JujuError)) :=
  dumped r entities (fun mt => d ← Models.DumpModel (r_juju r) (r_user r) mt simplified; lift (yaml d)).
Definition DumpModelsDB r (entities : list string) : JM (list (option Info * option JujuError)) :=
  dumped r entities (fun mt => Models.DumpModelDB (r_juju r) (r_user r) mt).

Definition summary_result (s : ModelSummary Info) : outcome (SummaryResult Info) :=
  cloudTag ← NewCloudTag (su_Cloud _ s);
  credentialTag ← NewJujuTag "cloudcred" (su_CloudCredential _ s);
  ownerTag ← NewUserTag (su_Owner s);
  Ok (MkSummaryResult (su_Name s) (su_UUID s) (su_ControllerUUID s) (su_ProviderType _ s) (TagString cloudTag) (su_CloudRegion _ s)
        (TagString credentialTag) (TagString ownerTag) (su_Life _ s) (su_ModelUserAccess s) (su_Status s) (su_Rest s)).
(** [toModelSummariesParams] *)
Definition toModelSummariesParams (l : list (ModelSummary Info)) : outcome (list (SummaryResult Info)) := mapM summary_result l.
Definition ListModelSummaries r : JM (list (SummaryResult Info)) :=
  res ← Models.ListModelSummaries (r_juju r) (r_user r) (if r_masking r then r_ControllerUUID r else "");
  lift (toModelSummariesParams res).

(** An invalid owner is logged, and then [names.NewUserTag] panics. *)
Definition ListModels r : JM (list (string * string * Info)) :=
  models ← Models.ListModels_ (r_juju r) (r_user r);
  lift (mapM (fun m => t ← NewUserTag (usm_Owner m); Ok (usm_UUID m, TagString t, usm_Rest m)) models).

(** Not-found errors become unauthorised ones. *)
Definition hide (err : gerror) : gerror := if decide (ErrorCode err = CodeNotFound) then Unauthorized else err.
Definition ModelInfo_ (fuel : nat) r (entities : list string) : JM (list (ModelInfoResult Info + JujuError)) :=
  bulk entities (fun tag =>
    mt ← parse_bad ModelTagKind tag;
    info ← map_err hide (Models.ModelInfo_ fuel (r_juju r) (r_user r) mt);
    res ← lift (toModelInfo info);
    mret (if r_masking r then
      MkInfoResult (ir_Name _ res) (ir_UUID _ res) (r_ControllerUUID r) (ir_CloudTag _ res) (ir_CloudRegion _ res) (ir_CloudCredentialTag _ res)
        (ir_OwnerTag _ res) (ir_Life _ res) (ir_Users _ res) (ir_Machines _ res) (ir_Migration _ res) (ir_Rest _ res)
      else res)).

(** It is no error to destroy a model that is gone. *)
Definition DestroyModels (fuel : nat) r (args : list (string * DestroyArgs)) : JM (list (option JujuError)) :=
  bulk_errors args (fun a =>
    mt ← parse_bad ModelTagKind a.1;
    x ← try (Models.DestroyModel fuel (r_juju r) (r_user r) mt a.2);
    match x with
    | inl _ => mret tt
    | inr err => if decide (ErrorCode err <> CodeNotFound) then throw err else mret tt
    end).

Record ModifyAccess := MkModify { mo_UserTag : string; mo_Action : string; mo_Access : string; mo_Tag : string }.
Definition ModifyModelAccess (fuel : nat) r (changes : list ModifyAccess) : JM (list (option JujuError)) :=
  bulk_errors changes (fun c =>
    mt ← parse_bad ModelTagKind (mo_Tag c);
    user ← map_err badRequest (lift (parseUserTag (mo_UserTag c)));
    map_err hide (
      if decide (mo_Action c = "grant") then world (Perm.GrantModelAccess (r_user r) mt user (mo_Access c))
      else if decide (mo_Action c = "revoke") then world (Perm.RevokeModelAccess fuel (r_user r) mt user (mo_Access c))
      else throw (Codef CodeBadRequest "invalid action %q" [ArgS (mo_Action c)]))).

Definition changeModelCredential r (modelTag credentialTag : string) : JM unit :=
  mt ← parse_bad ModelTagKind modelTag;
  cct ← map_err badRequest (parse_credential credentialTag);
  Models.ChangeModelCredential (r_juju r) (r_user r) mt cct.
Definition ChangeModelCredential r (models : list (string * string)) : JM (list (option JujuError)) :=
  bulk_errors models (fun a => changeModelCredential r a.1 a.2).
Definition ValidateModelUpgrades r (models : list string) (force : bool) : JM (list (option JujuError)) :=
  bulk_errors models (fun tag =>
    mt ← parse_bad ModelTagKind tag;
    Models.ValidateModelUpgrade (r_juju r) (r_user r) mt force).
Definition SetModelDefaults r (config : list (string * string * gmap string goany)) : JM (list (option JujuError)) :=
  bulk_errors config (fun c =>
    ct ← parse CloudTagKind c.1.1;
    Clouds.SetModelDefaults (u_Identity (r_user r)) ct c.1.2 c.2).
Definition UnsetModelDefaults r (keys : list (string * string * list string)) : JM (list (option JujuError)) :=
  bulk_errors keys (fun k =>
    ct ← parse CloudTagKind k.1.1;
    Clouds.UnsetModelDefaults (u_Identity (r_user r)) ct k.1.2 k.2).
Definition ModelDefaultsForClouds r (entities : list string) : JM (list (gmap string Clouds.ModelDefaults + JujuError)) :=
  bulk entities (fun tag =>
    ct ← parse CloudTagKind tag;
    Clouds.ModelDefaultsForCloud (u_Identity (r_user r)) ct).

Definition AbortModelUpgrade r (modelTag : string) : JM unit :=
  mt ← parse_bad ModelTagKind modelTag;
  Models.AbortModelUpgrade (r_juju r) (r_user r) mt.
Definition UpgradeModel r (modelTag : string) (args : UpgradeArgs) : JM string :=
  mt ← parse_bad ModelTagKind modelTag;
  Models.UpgradeModel (r_juju r) (r_user r) mt args.

(** ** The controller facade ([controller.go]) *)

Definition ModelStatus (fuel : nat) r (entities : list string) : JM (list (ModelStatus_ Info + JujuError)) :=
  bulk entities (fun tag =>
    mt ← parse_bad ModelTagKind tag;
    Models.ModelStatus fuel (r_juju r) (r_user r) mt).
Definition GetControllerAccess r (entities : list string) : JM (list ((string * string) + JujuError)) :=
  bulk entities (fun tag =>
    ut ← parse_bad UserTagKind tag;
    access ← world (Perm.GetJimmControllerAccess (r_perm r) (r_user r) ut);
    mret (TagString ut, access)).
Definition InitiateMigration r (specs : list MigrationSpec) : JM (list (string + JujuError)) :=
  bulk specs (fun spec => Ctl.InitiateMigration (r_juju r) (r_user r) spec).
Definition ControllerVersion r : JM (option Number) := Ctl.EarliestControllerVersion.

(** ** Results of lists *)

(** Each place of the results comes from a run of the method on its argument. *)
Lemma bulk_results {A B} (args : list A) (f : A -> JM B) s s' rs :
  bulk args f s = (s', Ok rs) ->
  Forall2 (fun a x => exists s1 s2, (exists b, f a s1 = (s2, Ok b) /\ x = inl b) \/ (exists err, f a s1 = (s2, Err err) /\ x = inr (mapError err))) args rs.
Proof.
  unfold bulk. revert s rs. induction args as [|a args IH]; intros s rs Hrun; [cbn in Hrun; unfold mret, M_ret in Hrun; simplify_eq; constructor|].
  cbn in Hrun. unfold mbind, M_bind, try, mret, M_ret in Hrun. destruct (f a s) as [s1 []] eqn:Hf; simpl in Hrun; [..|done|done];
    destruct (map_range args _ s1) as [s2 []] eqn:Hrest; simplify_eq/=; (constructor; [exists s, s1|by eapply IH]); naive_solver.
Qed.

Lemma bulk_errors_results {A} (args : list A) (f : A -> JM unit) s s' rs :
  bulk_errors args f s = (s', Ok rs) ->
  Forall2 (fun a x => exists s1 s2, (f a s1 = (s2, Ok tt) /\ x = None) \/ (exists err, f a s1 = (s2, Err err) /\ x = Some (mapError err))) args rs.
Proof.
  unfold bulk_errors. revert s rs. induction args as [|a args IH]; intros s rs Hrun; [cbn in Hrun; unfold mret, M_ret in Hrun; simplify_eq; constructor|].
  cbn in Hrun. unfold mbind, M_bind, try, mret, M_ret in Hrun. destruct (f a s) as [s1 [[]| | |]] eqn:Hf; simpl in Hrun; [..|done|done];
    destruct (map_range args _ s1) as [s2 []] eqn:Hrest; simplify_eq/=; (constructor; [exists s, s1|by eapply IH]); naive_solver.
Qed.

(** ** Administrators *)

(** A method that changes nothing and does not succeed. *)
Definition no_effect {W A} (m : M W A) : Prop := forall s s' o, m s = (s', o) -> s' = s /\ forall a, o <> Ok a.

Lemma no_effect_throw {W A} err : no_effect (throw err : M W A).
Proof. intros s s' o Hm. unfold throw in Hm. by simplify_eq. Qed.
Lemma no_effect_bind {W A B} (m : M W A) (k : A -> M W B) : no_effect m -> no_effect (m ≫= k).
Proof.
  intros Hm s s' o. unfold mbind, M_bind. destruct (m s) as [s1 o1] eqn:Hrun. destruct (Hm _ _ _ Hrun) as [-> Ho].
  destruct o1; intros; simplify_eq/=; [by edestruct Ho|done..].
Qed.
Lemma no_effect_map_err {W A} f (m : M W A) : no_effect m -> no_effect (map_err f m).
Proof.
  intros Hm s s' o. unfold map_err. destruct (m s) as [s1 o1] eqn:Hrun. destruct (Hm _ _ _ Hrun) as [-> Ho].
  destruct o1; intros; simplify_eq/=; [by edestruct Ho|done..].
Qed.
Lemma no_effect_world {A} (m : M (World F T) A) : no_effect m -> no_effect (world m : JM A).
Proof.
  intros Hm s s' o. unfold world, zoom. destruct (m (fst s)) as [s1 o1] eqn:Hrun. destruct (Hm _ _ _ Hrun) as [-> Ho].
  intros. simplify_eq/=. split; [by destruct s|done].
Qed.
Lemma no_effect_after {A B} (x : outcome A) (k : A -> JM B) : (forall a, no_effect (k a)) -> no_effect (lift x ≫= k).
Proof. intros Hk s s' o. unfold mbind, M_bind, lift. destruct x; [apply Hk|intros; by simplify_eq/=..]. Qed.
Lemma map_err_lift {W A} f (x : outcome A) : map_err f (lift x : M W A) = lift (match x with Err e => Err (f e) | y => y end).
Proof. unfold map_err, lift. by destruct x. Qed.
Lemma no_effect_admin {W A} user (m : M W A) : JimmAdmin user = false -> no_effect (admin_only user m).
Proof. intros Ha. unfold admin_only. rewrite Ha. apply no_effect_throw. Qed.
Lemma no_effect_check {B} user (k : unit -> JM B) : JimmAdmin user = false -> no_effect (checkJimmAdmin user ≫= k).
Proof. intros Ha. apply no_effect_bind. unfold checkJimmAdmin. rewrite Ha. apply no_effect_throw. Qed.
Lemma no_effect_if {W A} (b : bool) (m m' : M W A) : no_effect m -> no_effect m' -> no_effect (if b then m else m').
Proof. by destruct b. Qed.

(** The methods of administrators, with their arguments. *)
Inductive admin_call :=
  | CallAddGroup (name : string) | CallGetGroup (uuid name : string) | CallRenameGroup (name newName : string) | CallRemoveGroup (name : string)
  | CallListGroups (limit offset : Z)
  | CallAddRole (name : string) | CallGetRole (uuid name : string) | CallRenameRole (name newName : string) | CallRemoveRole (name : string)
  | CallListRoles (limit offset : Z)
  | CallListRelationshipTuples (tuple : Rel.RelationshipTuple) (pageSize : Z) (token : string) (resolveUUIDs : bool)
  | CallSaveControllerProfile (p : ControllerProfile) (pool : bool) | CallGetControllerProfile (name : string)
  | CallListControllerProfiles (jujuVersion : string) | CallRemoveControllerProfile (name : string)
  | CallCheckMachines (modelTag : string) | CallAbort (modelTag : string) | CallAdoptResources (modelTag version : string)
  | CallLatestLogTime (modelTag : string) | CallPrechecks (args : MigrationModelInfo) | CallActivate (args : ActivateArgs) (info : Info)
  | CallImport (raw : string)
  | CallRemoveController (name : string) (force : bool) | CallSetControllerDeprecated (name : string) (deprecated : bool)
  | CallPurgeLogs (date : Z) | CallFullModelStatus (modelTag : string) (patterns : list string)
  | CallUpdateMigratedModel (modelTag targetController : string) | CallImportModel (modelTag controller owner : string)
  | CallRecoverModelCredential (all : bool) (credentialTag : string) (dryRun : bool)
  | CallPrepareModelMigration (modelTag backingController : string) (userMapping : gmap string string)
  | CallListMigrationTargets (modelTag : string) | CallUpgradeController (controllerName : string) (args : UpgradeArgs)
  | CallUpgradeTo (modelUUIDs : list string) (targetControllerName : string).

Definition ignore {A} (m : JM A) : JM unit := _ ← m; mret tt.
Definition run_admin (fuel : nat) (IsValidUserName IsValidControllerName : string -> bool) r (c : admin_call) : JM unit :=
  match c with
  | CallAddGroup name => ignore (AddGroup r name)
  | CallGetGroup uuid name => ignore (GetGroup r uuid name)
  | CallRenameGroup name newName => RenameGroup r name newName
  | CallRemoveGroup name => RemoveGroup fuel r name
  | CallListGroups limit offset => ignore (ListGroups r limit offset)
  | CallAddRole name => ignore (AddRole r name)
  | CallGetRole uuid name => ignore (GetRole r uuid name)
  | CallRenameRole name newName => RenameRole r name newName
  | CallRemoveRole name => RemoveRole fuel r name
  | CallListRoles limit offset => ignore (ListRoles r limit offset)
  | CallListRelationshipTuples tuple pageSize token resolve => ignore (ListRelationshipTuples fuel r tuple pageSize token resolve)
  | CallSaveControllerProfile p pool => ignore (SaveControllerProfile r p pool)
  | CallGetControllerProfile name => ignore (GetControllerProfile r name)
  | CallListControllerProfiles v => ignore (ListControllerProfiles r v)
  | CallRemoveControllerProfile name => RemoveControllerProfile r name
  | CallCheckMachines mt => ignore (CheckMachines r mt)
  | CallAbort mt => Abort fuel r mt
  | CallAdoptResources mt v => AdoptResources r mt v
  | CallLatestLogTime mt => ignore (LatestLogTime r mt)
  | CallPrechecks args => Prechecks r args
  | CallActivate args info => Activate r args info
  | CallImport raw => Import r raw
  | CallRemoveController name force => ignore (RemoveController r name force)
  | CallSetControllerDeprecated name deprecated => ignore (SetControllerDeprecated r name deprecated)
  | CallPurgeLogs date => ignore (PurgeLogs r date)
  | CallFullModelStatus mt patterns => ignore (FullModelStatus r mt patterns)
  | CallUpdateMigratedModel mt target => UpdateMigratedModel r mt target
  | CallImportModel mt controller owner => ImportModel r mt controller owner
  | CallRecoverModelCredential all tag dryRun => ignore (RecoverModelCredential r all tag dryRun)
  | CallPrepareModelMigration mt controller m => ignore (PrepareModelMigration IsValidUserName IsValidControllerName r mt controller m)
  | CallListMigrationTargets mt => ignore (ListMigrationTargets r mt)
  | CallUpgradeController name args => ignore (UpgradeController r name args)
  | CallUpgradeTo uuids target => ignore (UpgradeTo r uuids target)
  end.

Ltac no_effect Ha := unfold ignore, parse_bad, parse; rewrite ?map_err_lift; repeat first
  [ done | apply no_effect_throw | apply no_effect_admin, Ha | apply no_effect_check, Ha | apply no_effect_after; intros
  | apply no_effect_bind | apply no_effect_map_err | apply no_effect_world | apply no_effect_if | case_decide | rewrite Ha; simpl
  | progress cbv beta zeta ].

(** C5.  The methods of administrators refuse everyone else: whatever the
    arguments, a call of another user fails and leaves the database, the
    relations, the controllers, the stored credentials and the queue of jobs
    as they were. *)
Theorem admin_calls_guarded fuel IsValidUserName IsValidControllerName r c s s' o :
  JimmAdmin (r_user r) = false -> run_admin fuel IsValidUserName IsValidControllerName r c s = (s', o) ->
  s' = s /\ o <> Ok tt.
Proof.
  intros Ha Hrun. assert (no_effect (run_admin fuel IsValidUserName IsValidControllerName r c)) as Href.
  { clear Hrun. destruct c; cbn [run_admin].
    all: unfold AddGroup, GetGroup, RenameGroup, RemoveGroup, ListGroups, AddRole, GetRole, RenameRole, RemoveRole, ListRoles,
      SaveControllerProfile, GetControllerProfile, ListControllerProfiles, RemoveControllerProfile, CheckMachines, Abort, AdoptResources,
      LatestLogTime, Prechecks, Activate, Import, RemoveController, SetControllerDeprecated, PurgeLogs, FullModelStatus, UpdateMigratedModel,
      ImportModel, RecoverModelCredential, PrepareModelMigration, ListMigrationTargets, UpgradeController, UpgradeTo, ListRelationshipTuples,
      GroupManager.AddGroup, GroupManager.GetGroupByUUID, GroupManager.GetGroupByName, GroupManager.getGroup, GroupManager.RenameGroup,
      GroupManager.RemoveGroup, GroupManager.ListGroups, RoleManager.AddRole, RoleManager.GetRoleByUUID, RoleManager.GetRoleByName,
      RoleManager.getRole, RoleManager.RenameRole, RoleManager.RemoveRole, RoleManager.ListRoles, Rel.ListRelationshipTuples,
      Ctl.SetControllerDeprecated, AuditLog.PurgeLogs, Ctl.FullModelStatus, Ctl.ImportModel, Credentials.RecoverAllModelCredentials,
      Credentials.RecoverModelCredential; no_effect Ha. }
  destruct (Href _ _ _ Hrun). auto.
Qed.

(** ** Masking *)

Lemma bind_ok {W A B} (m : M W A) (k : A -> M W B) s s' b :
  (m ≫= k) s = (s', Ok b) -> exists s1 a, m s = (s1, Ok a) /\ k a s1 = (s', Ok b).
Proof. unfold mbind, M_bind. destruct (m s) as [s1 []]; intros; simplify_eq/=. eauto. Qed.

Lemma toModelInfo_uuid (info : ModelInfo Info) res : toModelInfo info = Ok res -> ir_ControllerUUID res = mi_ControllerUUID info.
Proof.
  unfold toModelInfo. destruct (NewCloudTag _); simpl; [|done..]. destruct (NewJujuTag _ _); simpl; [|done..].
  destruct (NewUserTag _); simpl; [|done..]. intros; by simplify_eq/=.
Qed.

Lemma ok_mapM {A B} (f : A -> outcome B) l k : mapM f l = Ok k -> Forall2 (fun a b => f a = Ok b) l k.
Proof.
  revert k. induction l as [|a l IH]; intros k; simpl; [intros [= <-]; constructor|].
  destruct (f a) eqn:Hf; simpl; [|done..]. destruct (mapM f l) eqn:Hl; simpl; [|done..]. intros [= <-]. constructor; auto.
Qed.

Lemma summaries_masked r id s s' l :
  id <> "" -> Models.ListModelSummaries (r_juju r) (r_user r) id s = (s', Ok l) -> Forall (fun x => su_ControllerUUID x = id) l.
Proof.
  intros Hid Hrun. unfold Models.ListModelSummaries in Hrun.
  apply bind_ok in Hrun as (s1 & acc & _ & Hrun). case_decide; [unfold mret, M_ret in Hrun; simplify_eq; constructor|].
  apply bind_ok in Hrun as (s2 & ms & _ & Hrun). apply bind_ok in Hrun as (s3 & [res ?] & _ & Hrun).
  unfold lift in Hrun. injection Hrun as _ Hrun. apply ok_mapM in Hrun. apply Forall_forall. intros x Hx.
  apply list_elem_of_lookup in Hx as [n Hn]. destruct (Forall2_lookup_r _ _ _ _ _ Hrun Hn) as (lm & _ & Hlm). revert Hlm. cbv zeta.
  unfold Models.MergeModelSummaryFromController. destruct (Credential_ResourceTag _); simpl; [|done..]. rewrite decide_True by done.
  by case_match; intros [= <-].
Qed.

(** C17.  While the masking is on, the clients of JIMM see one controller: the
    models that the questions for models answer, the model that was just
    created and every summary carry JIMM's own identifier, not that of the
    controller that runs the model. *)
Theorem controller_masked fuel r s s' :
  r_masking r = true -> r_ControllerUUID r <> "" ->
  (forall entities rs i, ModelInfo_ fuel r entities s = (s', Ok rs) -> inl i ∈ rs -> ir_ControllerUUID i = r_ControllerUUID r) /\
  (forall args c i, addModel r args c s = (s', Ok i) -> ir_ControllerUUID i = r_ControllerUUID r) /\
  (forall l, ListModelSummaries r s = (s', Ok l) -> Forall (fun x => sr_ControllerUUID x = r_ControllerUUID r) l).
Proof.
  intros Hm Hid. split_and!.
  - intros entities rs i Hrun Hi. apply bulk_results in Hrun. apply list_elem_of_lookup in Hi as [n Hn].
    destruct (Forall2_lookup_r _ _ _ _ _ Hrun Hn) as (tag & _ & s1 & s2 & [(b & Hb & [= <-])|(err & _ & ?)]); [|done].
    repeat (apply bind_ok in Hb as (? & ? & _ & Hb)). rewrite Hm in Hb. unfold mret, M_ret in Hb. by simplify_eq/=.
  - intros args c i Hrun. unfold addModel in Hrun. repeat (apply bind_ok in Hrun as (? & ? & _ & Hrun)).
    unfold lift in Hrun. injection Hrun as _ Hrun. apply toModelInfo_uuid in Hrun as ->. unfold mask_info. by rewrite Hm.
  - intros l Hrun. unfold ListModelSummaries in Hrun. rewrite Hm in Hrun. apply bind_ok in Hrun as (s1 & res & Hres & Hrun).
    apply summaries_masked in Hres; [|done]. unfold lift in Hrun. injection Hrun as _ Hrun. apply ok_mapM in Hrun.
    eapply Forall2_Forall_r; [exact Hrun|]. eapply Forall_impl; [exact Hres|]. intros x Hx y. unfold summary_result.
    destruct (NewCloudTag _); simpl; [|done..]. destruct (NewJujuTag _ _); simpl; [|done..].
    destruct (NewUserTag _); simpl; [|done..]. by intros [= <-].
Qed.

(** ** Missing and hidden models *)

Lemma bind_err {W A B} (m : M W A) (k : A -> M W B) s s' err :
  (m ≫= k) s = (s', Err err) -> m s = (s', Err err) \/ exists s1 a, m s = (s1, Ok a) /\ k a s1 = (s', Err err).
Proof. unfold mbind, M_bind. destruct (m s) as [s1 []]; intros; simplify_eq/=; eauto. Qed.

Lemma map_err_inv {W A} f (m : M W A) s s' err : map_err f m s = (s', Err err) -> exists e, m s = (s', Err e) /\ err = f e.
Proof. unfold map_err. destruct (m s) as [s1 []]; intros; simplify_eq/=; eauto. Qed.

Lemma hide_code err : ErrorCode (hide err) <> CodeNotFound.
Proof. unfold hide. by case_decide. Qed.

Lemma badRequest_code err : ErrorCode (badRequest err) = CodeBadRequest.
Proof. by apply ErrorCode_Codef. Qed.

Lemma toModelInfo_answers (info : ModelInfo Info) err : toModelInfo info <> Err err.
Proof.
  unfold toModelInfo, NewCloudTag, NewJujuTag, NewUserTag. by repeat (case_match; simpl).
Qed.

(** The questions for models and the changes of their access do not tell
    a model that JIMM does not have from one that is hidden from the caller:
    every argument has its result in its place, and no error says
    "not found". *)
Theorem models_hidden fuel r s s' :
  (forall entities rs, ModelInfo_ fuel r entities s = (s', Ok rs) ->
     length rs = length entities /\ forall e, inr e ∈ rs -> je_Code e <> CodeNotFound) /\
  (forall changes rs, ModifyModelAccess fuel r changes s = (s', Ok rs) ->
     length rs = length changes /\ forall e, Some e ∈ rs -> je_Code e <> CodeNotFound).
Proof.
  split; intros l rs Hrun; [apply bulk_results in Hrun|apply bulk_errors_results in Hrun];
    (split; [symmetry; by eapply Forall2_length|]); intros e [n Hn]%list_elem_of_lookup;
    destruct (Forall2_lookup_r _ _ _ _ _ Hrun Hn) as (a & _ & s1 & s2 & Hcases).
  - destruct Hcases as [(b & _ & ?)|(err & Herr & [= ->])]; [done|]. simpl. apply bind_err in Herr as [Herr|(s3 & mt & _ & Herr)].
    { apply map_err_inv in Herr as (e' & _ & ->). by rewrite badRequest_code. }
    apply bind_err in Herr as [Herr|(s4 & info & _ & Herr)]; [apply map_err_inv in Herr as (e' & _ & ->); apply hide_code|].
    apply bind_err in Herr as [Herr|(s5 & res & _ & Herr)]; [|done].
    unfold lift in Herr. injection Herr as _ Herr. by apply toModelInfo_answers in Herr.
  - destruct Hcases as [[_ ?]|(err & Herr & [= ->])]; [done|]. simpl. apply bind_err in Herr as [Herr|(s3 & mt & _ & Herr)].
    { apply map_err_inv in Herr as (e' & _ & ->). by rewrite badRequest_code. }
    apply bind_err in Herr as [Herr|(s4 & user & _ & Herr)].
    { apply map_err_inv in Herr as (e' & _ & ->). by rewrite badRequest_code. }
    apply map_err_inv in Herr as (e' & _ & ->). apply hide_code.
Qed.

(** ** Audit events *)

Lemma auditParams_limit req flt :
  auditParamsToFilter req = Ok flt -> AuditLog.af_Limit flt = (if (ar_Limit req <? 1)%Z then limitDefault else Z.min (ar_Limit req) maxLimit).
Proof.
  unfold auditParamsToFilter. destruct (filter_time "after" _); simpl; [|done..]. destruct (filter_time "before" _); simpl; [|done..].
  lazymatch goal with |- (?x ≫= _) = _ -> _ => destruct x; simpl; [|done..] end. intros [= <-]. simpl.
  destruct (ar_Limit req <? 1)%Z; [done|]. destruct (Z.ltb_spec maxLimit (ar_Limit req)); lia.
Qed.

End facade.

Section laws.
Context {F : Type} `{OFGALaws F} {T : Type -> Type} `{GormLaws T} {C : Type} `{Controllers C} `{JujuNames} `{Hash} `{Texts}.

(** C33.  A request for audit events returns at most 1000 of them, whatever
    limit it names: 50 when it names none, never more than it names.  Only
    viewers of the audit log get events, and the request changes neither the
    database nor the relations. *)
Theorem audit_events_bounded (r : controllerRoot) req (s s' : JW F T C) es :
  FindAuditEvents r req s = (s', Ok es) ->
  (Z.of_nat (length es) <= 1000)%Z /\ ((ar_Limit req < 1)%Z -> (Z.of_nat (length es) <= 50)%Z) /\
  ((1 <= ar_Limit req)%Z -> (Z.of_nat (length es) <= ar_Limit req)%Z) /\
  has_access (Perm.w_tuples (fst s)) (r_user r) AuditLogViewerRelation (ConvertTag (AuditLog.am_jimmTag (r_audit r))) /\
  snd s' = snd s /\ tables (w_db (fst s')) = tables (w_db (fst s)) /\ Perm.w_tuples (fst s') = Perm.w_tuples (fst s).
Proof.
  unfold FindAuditEvents. intros (s1 & flt & Hflt & Hrun)%bind_ok. unfold lift in Hflt. injection Hflt as <- Hflt.
  apply auditParams_limit in Hflt as Hlim. unfold world, zoom in Hrun.
  destruct (AuditLog.FindAuditEvents _ _ _ _) as [w o] eqn:Hfind. injection Hrun as <- ->.
  apply AuditLog.FindAuditEvents_confined in Hfind as (HT & Htab & _ & Hes). destruct (Hes es eq_refl) as (Ha & _ & Hlen & _).
  rewrite Hlim in Hlen. unfold maxLimit, limitDefault in Hlen. destruct (Z.ltb_spec (ar_Limit req) 1); split_and!; try done; lia.
Qed.
End laws.

(** ** Acting for another user ([controllerroot.go]) *)

Section masquerade.
Context {F : Type} `{OFGALaws F} {P : Type} `{Auth.Outside P} {T : Type -> Type} `{GormLaws T} `{JujuNames} `{Hash}.

(** [jimmTag] is that of the login manager. *)
Definition masquerade (jimmTag : Tag) (user : User) (userTag : string) : M (Login.LWorld (F:=F) (P:=P) (T:=T)) User :=
  ut ← map_err badRequest (lift (parseUserTag userTag));
  tag ← lift (Identity_ResourceTag (u_Identity user));
  if decide (tag = ut) then mret user else
  if negb (JimmAdmin user) then throw Unauthorized else
  Login.UserLogin jimmTag (Id ut).

(** A caller acts for another user only as an administrator of JIMM: what
    [masquerade] returns is the caller, with nothing changed, or the session
    of the named user for an administrator.  That session has no groups of
    its own, and is one of an administrator only when the named user is. *)
Theorem masquerade_by_admin jimmTag user userTag s s' u :
  db_ok (w_db (fst s)) -> masquerade jimmTag user userTag s = (s', Ok u) ->
  (u = user /\ s' = s /\ exists ut, parseUserTag userTag = Ok ut /\ Identity_ResourceTag (u_Identity user) = Ok ut) \/
  (JimmAdmin user = true /\ exists ut, parseUserTag userTag = Ok ut /\
    Login.session_of (Perm.w_tuples (fst s)) jimmTag (Id ut) [] (Auth.clock (snd s')) u (w_db (fst s'))).
Proof.
  unfold masquerade. intros Hok (s1 & ut & Hut & Hrun)%bind_ok. rewrite map_err_lift in Hut. unfold lift in Hut. injection Hut as <- Hut.
  destruct (parseUserTag userTag) as [ut'| | |] eqn:Hp; try done. injection Hut as ->.
  apply bind_ok in Hrun as (s2 & tag & Htag & Hrun). unfold lift in Htag. injection Htag as <- Htag.
  case_decide as Hd; [subst tag; left; unfold mret, M_ret in Hrun; simplify_eq; by eauto|].
  destruct (JimmAdmin user); [|done]. right. split; [done|]. exists ut. split; [done|].
  destruct (wp_elim _ _ _ _ _ (Login.UserLogin_wp jimmTag (Id ut) s Hok) Hrun) as [_ Hu]. by apply Hu.
Qed.
End masquerade.

End Facade.
