(* ===== verification/CloudApi.v ===== *)
(** * CloudApi: the methods of clouds, credentials and application offers
    ([internal/jujuapi/cloud.go] and [applicationoffers.go], and
    [ListUserClouds] of [jimm.go]).

    The theorems: the listings of clouds show those that the caller may use,
    with the level of access; the contents of a credential are shown to those
    who may see them, secrets to the owner only; no error of a credential that
    was to be stored is lost when the errors are collapsed. *)

From S2P Require Import Prelude Errors GoStrings Regexp Names AuthModel RefServer OpenFGA Dbmodel Users Database Encoding TagResolver Access Managers JujuDb CloudDb JujuBase JujuModels ControllerDb JujuOffers JujuClouds JujuCredentials ModelBuilder JujuControllers JujuMigration Upgrade Facade.

Module CloudApi.
Import Facade.

(** The errors of the Juju libraries: [ErrorResults.Combine], [Annotatef] with
    the name and identifier of a model, and [ServerError]; the names of a
    controller's models in its results. *)
Class JujuErrors (C : Type) `{Controllers C} := {
  Combine : list JujuError -> gerror;
  Annotate : gerror -> Info -> gerror;
  ServerError : gerror -> JujuError;
}.
(** [crossmodel.ParseOfferURL] and then [AsLocal().Path()], with the user to
    fill in. *)
Class OfferURLs := {
  ParseOfferURL : string -> outcome string;
  LocalPath : string -> string -> string;
}.

(** [jujuparams.CloudCredential], [CredentialContent] with its models, and the
    result for an updated credential. *)
Record CredentialResult := MkCredentialResult { cx_AuthType : string; cx_Attributes : gmap string string; cx_Redacted : list string }.
Record ContentResult := MkContentResult {
  co_Name : string; co_Cloud : string; co_AuthType : string; co_Valid : option bool; co_Attributes : gmap string string;
  co_Models : list (string * string);
}.
Record UpdateResult (Info : Type) := MkUpdate { up_Tag : string; up_Error : option JujuError; up_Models : list (CredentialModel Info) }.
Arguments MkUpdate {Info}. Arguments up_Tag {Info}. Arguments up_Error {Info}. Arguments up_Models {Info}.

Section api.
Context {F : Type} `{OFGAServer F} {T : Type -> Type} `{Gorm T} {C : Type} `{Controllers C} `{JujuNames} `{Hash} `{!JujuErrors C} `{OfferURLs}.
Local Abbreviation JM := (M (JW F T C)).
Implicit Types r : controllerRoot.

(** ** Clouds *)

Definition DefaultCloud : JM string := throw (Codef CodeNotFound "no default cloud" []).

Definition Cloud_ r (ents : list string) : JM (list (Clouds.ParamsCloud + JujuError)) :=
  bulk ents (fun ent =>
    tag ← parse_bad CloudTagKind ent;
    cloud ← Clouds.GetCloud_ (r_user r) tag;
    mret (Clouds.ToJujuCloud cloud)).
Definition CloudInfo r (ents : list string) : JM (list (Clouds.CloudDetails * list UserInfo + JujuError)) :=
  bulk ents (fun ent =>
    tag ← parse_bad CloudTagKind ent;
    cloud ← Clouds.GetCloud_ (r_user r) tag;
    mret (Clouds.ToJujuCloudInfo cloud)).

(** The callback puts each cloud under its tag. *)
Definition tagged (clouds : list LoadedCloud) : outcome (gmap string Clouds.ParamsCloud) :=
  pairs ← mapM (fun c => t ← Cloud_ResourceTag (lcl_Cloud c); Ok (TagString t, Clouds.ToJujuCloud c)) clouds;
  Ok (foldl (fun m p => <[p.1 := p.2]> m) ∅ pairs).
Definition Clouds_ r : JM (gmap string Clouds.ParamsCloud) :=
  clouds ← Builder.userClouds (r_user r);
  lift (tagged clouds).

(** The clouds of another user are for administrators. *)
Definition ListUserClouds r (userTag : string) : JM (gmap string Clouds.ParamsCloud) :=
  own ← lift (Identity_ResourceTag (u_Identity (r_user r)));
  if negb (JimmAdmin (r_user r)) && bool_decide (TagString own <> userTag) then throw Unauthorized else
  user ← (if decide (TagString own <> userTag) then
      ut ← map_err (fun err => Codef CodeBadRequest "invalid user tag: %w" [ArgE err]) (parse UserTagKind userTag);
      world (IdentityManager.FetchIdentity (Id ut))
    else mret (r_user r));
  clouds ← Builder.userClouds user;
  lift (tagged clouds).

(** The callback of [ListCloudInfo] asks for the level again. *)
Definition cloud_info user (c : LoadedCloud) : JM (Clouds.CloudDetails * string) :=
  tag ← lift (Cloud_ResourceTag (lcl_Cloud c));
  level ← jfga (GetCloudAccess user tag);
  mret (Clouds.ToJujuCloudDetails c, Perm.ToCloudAccessString level).
Fixpoint userCloudInfo user (clouds : list LoadedCloud) : JM (list (Clouds.CloudDetails * string)) :=
  match clouds with
  | [] => mret []
  | cloud :: clouds =>
      tag ← lift (Cloud_ResourceTag (lcl_Cloud cloud));
      level ← jfga (GetCloudAccess user tag);
      if decide (Perm.ToCloudAccessString level = "") then userCloudInfo user clouds else
      x ← cloud_info user cloud;
      rest ← userCloudInfo user clouds;
      mret (x :: rest)
  end.
Definition ListCloudInfo r (all : bool) : JM (list (Clouds.CloudDetails * string)) :=
  let load := map_err (fun err => Errorf "cannot load clouds: %w" [ArgE err]) (jdb GetClouds) in
  if all then
    if negb (JimmAdmin (r_user r)) then throw Unauthorized else
    clouds ← load;
    map_range clouds (cloud_info (r_user r))
  else
    ctrlCount ← map_err (fun err => Errorf "cannot get count controllers: %w" [ArgE err]) (jdb CountControllers);
    if decide (ctrlCount = 0%Z) then throw (New "no controllers registered") else
    clouds ← load;
    userCloudInfo (r_user r) clouds.

Definition AddCloud r (name : string) (cloud : JujuCloud) (force : option bool) : JM unit :=
  tag ← lift (NewCloudTag name);
  Clouds.AddHostedCloud (r_juju r) (r_user r) tag (cloudFromParams name cloud) (default false force).
Definition UpdateCloud r (clouds : list (string * JujuCloud)) : JM (list (option JujuError)) :=
  bulk_errors clouds (fun c =>
    tag ← lift (NewCloudTag c.1);
    Clouds.UpdateCloud_ (r_juju r) (r_user r) tag (cloudFromParams c.1 c.2)).
Definition RemoveClouds (fuel : nat) r (entities : list string) : JM (list (option JujuError)) :=
  bulk_errors entities (fun entity =>
    tag ← parse CloudTagKind entity;
    Clouds.RemoveCloud_ fuel (r_juju r) (r_user r) tag).

Definition modifyCloudAccess (fuel : nat) r (change : ModifyAccess) : JM unit :=
  ut ← lift (parseUserTag (mo_UserTag change));
  ct ← parse_bad CloudTagKind (mo_Tag change);
  if decide (mo_Action change = "grant") then world (Perm.GrantCloudAccess (r_user r) ct ut (mo_Access change))
  else if decide (mo_Action change = "revoke") then world (Perm.RevokeCloudAccess fuel (r_user r) ct ut (mo_Access change))
  else throw (Codef CodeBadRequest "unsupported modify cloud action %q" [ArgS (mo_Action change)]).
Definition ModifyCloudAccess (fuel : nat) r (changes : list ModifyAccess) : JM (list (option JujuError)) :=
  bulk_errors changes (modifyCloudAccess fuel r).

(** ** Credentials *)

(** The part of [UserCredentials] after [masquerade], for one user and cloud. *)
Definition userCredentials (user : User) (cloudTag : string) : JM (list string) :=
  cld ← parse_bad CloudTagKind cloudTag;
  found ← jdb (UserCloudCredentials (u_Name user) (Id cld));
  lift (mapM (fun c : CloudCredential * Cloud => t ← Credential_ResourceTag c.1; Ok (TagString t)) found).

Definition revokeCredential r (tag : string) : JM unit :=
  ct ← map_err badRequest (parse_credential tag);
  Credentials.RevokeCloudCredential (r_juju r) (u_Identity (r_user r)) ct.
Definition RevokeCredentialsCheckModels r (credentials : list string) : JM (list (option JujuError)) :=
  bulk_errors credentials (revokeCredential r).

Definition credential r (cloudCredentialTag : string) : JM CredentialResult :=
  cct ← map_err badRequest (parse_credential cloudCredentialTag);
  cred ← Credentials.GetCloudCredential_ (r_user r) cct;
  '(attributes, redacted) ← Credentials.GetCloudCredentialAttributes (r_user r) cred false;
  mret (MkCredentialResult (cc_AuthType cred.1) attributes redacted).
Definition Credential r (entities : list string) : JM (list (CredentialResult + JujuError)) := bulk entities (credential r).

(** [userModelAccess] *)
Definition userModelAccess (user : User) (model : Tag) : JM string :=
  userRelation ← jfga (GetModelAccess user model);
  mret (if decide (userRelation = AdministratorRelation) then "admin"
        else if decide (userRelation = WriterRelation) then "write"
        else if decide (userRelation = ReaderRelation) then "read" else "").

(** The models that are preloaded with a credential. *)
Definition credential_models (c : CloudCredential) : JM (list Model) :=
  jdb (map_err dbError (models_tbl (find_all (fun m => bool_decide (m_CloudCredentialID m = cc_ID c))))).
Definition credentialContents (user : User) (includeSecrets : bool) (cred : CloudCredential * Cloud) (models : list Model) : JM ContentResult :=
  let c := cred.1 in
  '(attributes, _) ← Credentials.GetCloudCredentialAttributes user cred includeSecrets;
  mas ← map_range models (fun m => t ← lift (Model_ResourceTag m); access ← userModelAccess user t; mret (m_Name m, access));
  mret (MkContentResult (cc_Name c) (cc_CloudName c) (cc_AuthType c) (cc_Valid c) attributes mas).

(** The credentials that are named, or all of the caller. *)
Definition CredentialContents r (credentials : list (string * string)) (includeSecrets : bool) : JM (list (ContentResult + JujuError)) :=
  let user := r_user r in
  if decide (credentials <> []) then
    map_range credentials (fun arg =>
      t ← lift (NewJujuTag "cloudcred" (arg.1 +:+ "/" +:+ u_Name user +:+ "/" +:+ arg.2));
      x ← try (cred ← Credentials.GetCloudCredential_ user (CloudCredentialTag (Id t));
               models ← credential_models cred.1;
               credentialContents user includeSecrets cred models);
      mret (match x with inl c => inl c | inr err => inr (mapError err) end))
  else
    found ← jdb (UserCloudCredentials (u_Name user) "");
    preloaded ← map_range found (fun cred => models ← credential_models cred.1; mret (cred, models));
    bulk preloaded (fun p => credentialContents user includeSecrets p.1 p.2).

(** The error of the manager comes with the models that it has checked. *)
Definition updateCredential r (cred : TaggedCredential) (skipCheck skipUpdate : bool) : JM (list (CredentialModel Info) * option gerror) :=
  x ← try (tag ← map_err badRequest (parse_credential (tc_Tag cred));
           Credentials.UpdateCloudCredential (r_juju r) (r_user r) (Credentials.MkUpdateArgs tag (tc_AuthType cred) (tc_Attributes cred) skipCheck skipUpdate));
  mret (match x with inl res => res | inr err => ([], Some err) end).
Definition updateCredentials r (args : list TaggedCredential) (skipCheck skipUpdate : bool) : JM (list (UpdateResult Info)) :=
  map_range args (fun arg =>
    '(models, err) ← updateCredential r arg skipCheck skipUpdate;
    mret (MkUpdate (tc_Tag arg) (mapError <$> err) models)).
Definition UpdateCredentialsCheckModels r (args : list TaggedCredential) (force : bool) := updateCredentials r args force false.
Definition CheckCredentialsModels r (args : list TaggedCredential) := updateCredentials r args false true.

(** [collapseUpdateCredentialResults]: one error for each credential. *)
Definition resultErrors (result : UpdateResult Info) : list JujuError :=
  match up_Error result with Some e => [e] | None => [] end ++
  flat_map (fun m => match cm_Errors m with [] => [] | errs => [ServerError (Annotate (Combine (fmap (M:=list) mapError errs)) (cm_Model m))] end)
    (up_Models result).
Definition collapse (result : UpdateResult Info) : option JujuError :=
  match resultErrors result with
  | [] => None
  | [e] => Some e
  | errs => Some (ServerError (Combine errs))
  end.
Definition collapseUpdateCredentialResults (results : list (UpdateResult Info)) : list (option JujuError) := fmap (M:=list) collapse results.
Definition AddCredentials r (credentials : list TaggedCredential) : JM (list (option JujuError)) :=
  updateResults ← UpdateCredentialsCheckModels r credentials false;
  mret (collapseUpdateCredentialResults updateResults).

(** ** Application offers *)

Record AddOffer := MkAddOfferArgs {
  ao_ModelTag : string; ao_OwnerTag : string; ao_OfferName : string; ao_ApplicationName : string; ao_ApplicationDescription : string;
  ao_Endpoints : list (string * string);
}.
Definition offer (fuel : nat) r (args : AddOffer) : JM unit :=
  mt ← parse_bad ModelTagKind (ao_ModelTag args);
  offerOwnerTag ← parse_bad UserTagKind (ao_OwnerTag args);
  Offers.Offer fuel (r_juju r) (r_user r)
    (Offers.MkAddOffer mt (Id offerOwnerTag) (ao_OfferName args) (ao_ApplicationName args) (ao_ApplicationDescription args) (ao_Endpoints args)).
Definition Offer_ (fuel : nat) r (offers : list AddOffer) : JM (list (option JujuError)) := bulk_errors offers (offer fuel r).

(** For the caller, or the user that [masquerade] has returned. *)
Definition getConsumeDetails r (user : User) (offerURL : string) : JM (ConsumeDetails Info) :=
  ourl ← map_err (fun err => Codef CodeBadRequest "cannot parse offer URL: %w" [ArgE err]) (lift (ParseOfferURL offerURL));
  Offers.GetApplicationOfferConsumeDetails (r_juju r) user (LocalPath ourl (u_Name user)).
Definition GetConsumeDetails r (user : User) (offerURLs : list string) : JM (list (ConsumeDetails Info + JujuError)) :=
  bulk offerURLs (getConsumeDetails r user).

(** [offerToParams]: what the client sees of an offer does not have its
    identifier. *)
Record OfferResult (Info : Type) := MkOfferResult {
  ox_OfferName : string; ox_OfferURL : string; ox_Users : list UserInfo; ox_Connections : list Info; ox_Rest : Info;
}.
Arguments MkOfferResult {Info}.
Definition offerToParams (offer : OfferDetails Info) : OfferResult Info :=
  MkOfferResult (od_OfferName offer) (od_OfferURL offer) (od_Users offer) (od_Connections offer) (od_Rest offer).
Definition offersToParams (offers : list (OfferDetails Info)) : list (OfferResult Info) := fmap (M:=list) offerToParams offers.

(** The filters are those of [filtersToCrossmodel]. *)
Definition ListApplicationOffers r (filters : list OfferFilter) : JM (list (OfferResult Info)) :=
  offers ← Offers.ListApplicationOffers (r_juju r) (r_user r) filters;
  mret (offersToParams offers).
Definition FindApplicationOffers r (filters : list OfferFilter) : JM (list (OfferResult Info)) :=
  offers ← Offers.FindApplicationOffers (r_juju r) (r_user r) filters;
  mret (offersToParams offers).
Definition ApplicationOffers (fuel : nat) r (offerURLs : list string) : JM (list (OfferResult Info + JujuError)) :=
  bulk offerURLs (fun url => details ← Offers.GetApplicationOffer fuel (r_juju r) (r_user r) url; mret (offerToParams details)).
Definition DestroyOffers (fuel : nat) r (offerURLs : list string) (force : bool) : JM (list (option JujuError)) :=
  bulk_errors offerURLs (fun url => Offers.DestroyOffer fuel (r_juju r) (r_user r) url force).

Definition modifyOfferAccess r (change : ModifyAccess) : JM unit :=
  ut ← map_err badRequest (lift (parseUserTag (mo_UserTag change)));
  if decide (mo_Action change = "grant") then world (Perm.GrantOfferAccess (r_user r) (mo_Tag change) ut (mo_Access change))
  else if decide (mo_Action change = "revoke") then world (Perm.RevokeOfferAccess (r_user r) (mo_Tag change) ut (mo_Access change))
  else throw (Codef CodeBadRequest "unknown action %q" [ArgS (mo_Action change)]).
Definition ModifyOfferAccess r (changes : list ModifyAccess) : JM (list (option JujuError)) := bulk_errors changes (modifyOfferAccess r).

(** ** Collapsed errors *)

Lemma resultErrors_nil (result : UpdateResult Info) :
  resultErrors result = [] <-> up_Error result = None /\ Forall (fun m => cm_Errors m = []) (up_Models result).
Proof.
  unfold resultErrors. destruct (up_Error result); simpl; [by split; [|intros [? _]]|]. split.
  - intros Hm. split; [done|]. induction (up_Models result) as [|m l IH]; [constructor|]. simpl in Hm. apply app_eq_nil in Hm as [Hm Hl].
    constructor; [by destruct (cm_Errors m)|auto].
  - intros [_ Hm]. induction Hm as [|m l Hm _ IH]; [done|]. simpl. by rewrite Hm.
Qed.

(** Storing credentials never hides a failure: [AddCredentials] answers for
    every credential in its place, and answers without an error exactly when
    the update of that credential had no error and no model that uses it had
    one. *)
Theorem AddCredentials_reports r credentials s s' errs :
  AddCredentials r credentials s = (s', Ok errs) ->
  exists results, UpdateCredentialsCheckModels r credentials false s = (s', Ok results) /\
    Forall2 (fun c x => up_Tag x = tc_Tag c) credentials results /\
    Forall2 (fun x e => e = None <-> up_Error x = None /\ Forall (fun m => cm_Errors m = []) (up_Models x)) results errs.
Proof.
  unfold AddCredentials. intros (s1 & results & Hrun & Hret)%bind_ok. unfold mret, M_ret in Hret. simplify_eq. exists results. split; [done|]. split.
  - unfold UpdateCredentialsCheckModels, updateCredentials in Hrun. revert s results Hrun.
    induction credentials as [|c l IH]; intros s results Hrun; cbn in Hrun; [unfold mret, M_ret in Hrun; simplify_eq; constructor|].
    apply bind_ok in Hrun as (s1 & x & Hx & Hrun). apply bind_ok in Hrun as (s2 & rest & Hrest & Hrun). unfold mret, M_ret in Hrun. simplify_eq.
    constructor; [|by eapply IH]. apply bind_ok in Hx as (s3 & [models err] & _ & Hx). unfold mret, M_ret in Hx. by simplify_eq.
  - unfold collapseUpdateCredentialResults. apply Forall2_fmap_r. clear Hrun. induction results as [|x l IH]; constructor; [|done].
    simpl. rewrite <- resultErrors_nil. unfold collapse. by destruct (resultErrors x) as [|e [|e' ?]].
Qed.
End api.

Section facts.
Context {F : Type} `{OFGALaws F} {T : Type -> Type} `{GormLaws T} {C : Type} `{Controllers C} `{JujuNames} `{Hash} `{!JujuErrors C} `{OfferURLs}.
Implicit Types (r : controllerRoot) (s : JW F T C).

(** ** Clouds that are shown *)

(** An entry of a listing is a cloud that the user may use. *)
Definition usable s user (key : string) (pc : Clouds.ParamsCloud) : Prop :=
  exists lc t, Builder.may_use_cloud s user lc /\ Cloud_ResourceTag (lcl_Cloud lc) = Ok t /\ key = TagString t /\ pc = Clouds.ToJujuCloud lc.

Lemma tagged_usable s user clouds m :
  Forall (Builder.may_use_cloud s user) clouds -> tagged clouds = Ok m -> map_Forall (usable s user) m.
Proof.
  unfold tagged. intros Hc. destruct (mapM _ clouds) as [pairs| | |] eqn:Hp; simpl; [|done..]. intros [= <-]. apply ok_mapM in Hp.
  assert (Forall (fun p => usable s user p.1 p.2) pairs) as Hall.
  { eapply Forall2_Forall_r; [exact Hp|]. eapply Forall_impl; [exact Hc|]. intros lc Hlc p. simpl.
    destruct (Cloud_ResourceTag _) as [t| | |] eqn:Ht; simpl; [|done..]. intros [= <-]. by exists lc, t. }
  clear Hp Hc. assert (map_Forall (usable s user) (∅ : gmap string Clouds.ParamsCloud)) as Hm by apply map_Forall_empty. revert Hm. generalize (∅ : gmap string Clouds.ParamsCloud).
  induction Hall as [|p l Hx _ IH]; intros m Hm; simpl; [done|]. apply IH. by apply map_Forall_insert_2.
Qed.

Lemma userClouds_usable user s s' m :
  (clouds ← Builder.userClouds user; lift (tagged clouds)) s = (s', Ok m) -> still s s' /\ map_Forall (usable s user) m.
Proof.
  intros (s1 & clouds & Hc & Hl)%bind_ok. unfold lift in Hl. injection Hl as <- Hl.
  assert (same s s) as Hs by done. destruct (wp_elim _ _ _ _ _ (Builder.userClouds_finds s s user Hs) Hc) as (_ & Hst & Hu). split; [done|].
  eapply tagged_usable; [by apply Hu|done].
Qed.

Lemma userCloudInfo_finds s0 s user cs :
  same s0 s -> Forall (cloud_loaded (w_db (fst s0))) cs ->
  wp (userCloudInfo user cs) (finds still (Forall (fun x => exists lc, Builder.may_use_cloud s0 user lc /\ x.1 = Clouds.ToJujuCloudDetails lc)) s) s.
Proof.
  intros Hs Hcs. revert s Hs. induction Hcs as [|c cs Hc Hcs IH]; intros s Hs; simpl; [by apply (finds_ret still)|].
  eapply (finds_bind still); [apply (finds_tag still)|]. intros t s1 Hs1 ->.
  eapply (finds_bind still); [apply (finds_ladder user _ [AdministratorRelation; CanAddModelRelation])|]. intros level s2 Hs2 Hl.
  assert (same s0 s1) as H1' by by eapply Builder.same_base. assert (same s0 s2) as H2' by by eapply Builder.same_base.
  case_decide as Hlv; [by apply IH|]. assert (Builder.may_use_cloud s0 user c) as Hmay.
  { split; [done|]. destruct H1' as [<- _]. destruct Hl as [->|[Hin Hacc]]; [by destruct Hlv|]. rewrite !elem_of_cons in Hin.
    destruct Hin as [->|[->|Hin]]; [by right|by left|by apply elem_of_nil in Hin]. }
  unfold cloud_info. eapply (finds_bind still (fun x => x.1 = Clouds.ToJujuCloudDetails c)).
  { eapply (finds_bind still); [apply (finds_tag still)|]. intros t s3 _ ->.
    eapply (finds_bind still); [apply (finds_ladder user _ [AdministratorRelation; CanAddModelRelation])|]. intros l s4 _ _. by apply (finds_ret still). }
  intros x s3 Hs3 Hx. eapply (finds_bind still); [apply IH; by eapply Builder.same_base|]. intros rest s4 _ Hrest. apply (finds_ret still). constructor; [by exists c|done].
Qed.

(** The listings of clouds show a caller that does not administer JIMM
    only clouds that it may use: those to which it may add models or that it
    administers; the clouds of another user are refused.  The listings change
    nothing. *)
Theorem clouds_shown r s s' :
  JimmAdmin (r_user r) = false ->
  (forall m, Clouds_ r s = (s', Ok m) -> still s s' /\ map_Forall (usable s (r_user r)) m) /\
  (forall tag m, ListUserClouds r tag s = (s', Ok m) -> still s s' /\ map_Forall (usable s (r_user r)) m) /\
  (forall all l, ListCloudInfo r all s = (s', Ok l) ->
     still s s' /\ Forall (fun x => exists lc, Builder.may_use_cloud s (r_user r) lc /\ x.1 = Clouds.ToJujuCloudDetails lc) l).
Proof.
  intros Hadm. assert (same s s) as Hs by done. split_and!.
  - intros m. apply userClouds_usable.
  - intros tag m. unfold ListUserClouds. intros (s1 & own & Hown & Hrun)%bind_ok. unfold lift in Hown. injection Hown as <- Hown.
    rewrite Hadm in Hrun. simpl in Hrun. destruct (bool_decide (TagString own <> tag)) eqn:Hd; [done|]. apply bool_decide_eq_false in Hd.
    rewrite decide_False in Hrun by done. by apply userClouds_usable in Hrun.
  - intros all l. unfold ListCloudInfo. cbv zeta. rewrite Hadm. destruct all; [done|]. intros Hrun.
    cut (wp (ListCloudInfo r false) (finds still (Forall (fun x => exists lc, Builder.may_use_cloud s (r_user r) lc /\ x.1 = Clouds.ToJujuCloudDetails lc)) s) s).
    { intros Hwp. destruct (wp_elim _ _ _ _ _ Hwp Hrun) as (_ & Hst & Hl). split; [done|by apply Hl]. }
    unfold ListCloudInfo. eapply (finds_bind still); [apply finds_map_err, finds_jdb, CountControllers_sees|]. intros n s1 Hs1 _.
    case_decide; [apply (finds_throw still)|]. assert (same s s1) as H1' by by eapply Builder.same_base.
    eapply (finds_bind still); [apply finds_map_err, finds_jdb, GetClouds_sees|]. intros cs s2 Hs2 Hcs.
    apply (userCloudInfo_finds s); [by eapply Builder.same_base|]. eapply Forall_impl; [exact Hcs|]. intros lc. apply cloud_loaded_tables, H1'.
Qed.

(** ** Credentials that are shown *)

(** A step that changes nothing, whatever its outcome, with a property of its
    result. *)
Definition shows {A} (P : A -> Prop) s (o : outcome A) s' : Prop := still s s' /\ forall a, o = Ok a -> P a.

Lemma shows_finds {A} (P : A -> Prop) (m : M (JW F T C) A) s : wp m (finds still P s) s -> wp m (shows P s) s.
Proof. intros Hm. eapply wp_mono; [exact Hm|]. intros o s' (_ & Hs & HP). by split. Qed.
Lemma shows_lift {A} (o : outcome A) s : wp (lift o) (shows (fun a => o = Ok a) s) s.
Proof. wp_value. by split. Qed.
Lemma shows_ret {A} (P : A -> Prop) a s : P a -> wp (mret a) (shows P s) s.
Proof. intros HP. wp_value. split; [done|]. by intros b [= <-]. Qed.
Lemma shows_bind {A B} (P : A -> Prop) (Q : B -> Prop) (m : M (JW F T C) A) (k : A -> M (JW F T C) B) s :
  wp m (shows P s) s -> (forall a s', still s s' -> P a -> wp (k a) (shows Q s') s') -> wp (m ≫= k) (shows Q s) s.
Proof.
  intros Hm Hk. apply wp_bind. eapply wp_mono; [exact Hm|]. intros [a|e|x|] s1 [Hs HP]; cbn [bind_post]; [|by split..].
  eapply wp_mono; [by apply Hk; [|apply HP]|]. intros o s2 [Hs2 HQ]. split; [by etrans|done].
Qed.
Lemma shows_map_err {A} (P : A -> Prop) f (m : M (JW F T C) A) s : wp m (shows P s) s -> wp (map_err f m) (shows P s) s.
Proof. intros Hm. apply wp_map_err. eapply wp_mono; [exact Hm|]. by intros [] s' [Hs HP]; split. Qed.
Lemma shows_try {A} (P : A -> Prop) (m : M (JW F T C) A) s : wp m (shows P s) s -> wp (try m) (shows (fun x => forall a, x = inl a -> P a) s) s.
Proof.
  intros Hm. apply wp_try. eapply wp_mono; [exact Hm|]. intros [a| | |] s' [Hs HP]; (split; [done|]); [|by intros ? [= <-]|done|done].
  intros x [= <-] b [= <-]. by apply HP.
Qed.
Lemma shows_map_range {A B} (Q : B -> Prop) (f : A -> M (JW F T C) B) l s :
  (forall a s', still s s' -> wp (f a) (shows Q s') s') -> wp (map_range l f) (shows (Forall Q) s) s.
Proof.
  intros Hf. assert (forall s', still s s' -> wp (map_range l f) (shows (Forall Q) s') s') as Hgo; [|by apply Hgo].
  induction l as [|a l IH]; intros s' Hs; simpl; [by apply shows_ret|]. eapply shows_bind; [by apply Hf|]. intros b s1 Hs1 Hb.
  eapply shows_bind; [apply IH; by etrans|]. intros bs s2 _ Hbs. apply shows_ret. by constructor.
Qed.
Lemma shows_bulk {A B} (Q : B -> Prop) (f : A -> M (JW F T C) B) l s :
  (forall a s', still s s' -> wp (f a) (shows Q s') s') -> wp (bulk l f) (shows (Forall (fun x => forall b, x = inl b -> Q b)) s) s.
Proof.
  intros Hf. apply shows_map_range. intros a s1 Hs1. eapply shows_bind; [apply shows_try, Hf, Hs1|]. intros x s2 _ Hx. apply shows_ret.
  intros b Hb. destruct x; simplify_eq. by apply Hx.
Qed.

(** What is shown of a stored credential: the attributes that [shown] allows. *)
Definition disclosed s user (secrets : bool) (attributes : gmap string string) (redacted : list string) (c : CloudCredential) : Prop :=
  exists cloud t stored, Credential_ResourceTag c = Ok t /\ cs_Get t (snd s) = inl stored /\
    Credentials.shown user c cloud secrets stored (attributes, redacted).

Lemma disclosed_still s s' user secrets attributes redacted c : still s s' -> disclosed s' user secrets attributes redacted c -> disclosed s user secrets attributes redacted c.
Proof. intros [_ Hs] (cloud & t & stored & Ht & Hget & Hsh). exists cloud, t, stored. by rewrite <- Hs. Qed.

Lemma attributes_disclosed user cred secrets s :
  wp (Credentials.GetCloudCredentialAttributes user cred secrets) (shows (fun x => disclosed s user secrets x.1 x.2 cred.1) s) s.
Proof.
  destruct cred as [c cloud]. apply shows_finds. eapply (finds_mono still); [apply Credentials.GetCloudCredentialAttributes_finds|].
  intros [attributes redacted] (t & stored & Ht & Hget & Hsh). by exists cloud, t, stored.
Qed.

Lemma parse_credential_shows tag s : wp (map_err badRequest (parse_credential tag)) (shows (fun _ => True) s) s.
Proof.
  apply shows_map_err. unfold parse_credential, parse. eapply shows_bind; [apply shows_lift|]. intros. by apply shows_ret.
Qed.
Lemma GetCloudCredential_shows user tag s : wp (Credentials.GetCloudCredential_ user tag) (shows (fun _ => True) s) s.
Proof.
  apply shows_finds. unfold Credentials.GetCloudCredential_. case_match; [apply (finds_throw still)|].
  eapply (finds_mono still); [apply finds_jdb, LoadCloudCredential_sees|done].
Qed.

Lemma credential_disclosed r tag s :
  wp (credential r tag) (shows (fun x => exists c, disclosed s (r_user r) false (cx_Attributes x) (cx_Redacted x) c) s) s.
Proof.
  unfold credential. eapply shows_bind; [apply parse_credential_shows|]. intros t s1 Hs1 _.
  eapply shows_bind; [apply GetCloudCredential_shows|]. intros cred s2 Hs2 _.
  eapply shows_bind; [apply attributes_disclosed|]. intros [attributes redacted] s3 Hs3 Hd. apply shows_ret. exists cred.1.
  eapply disclosed_still; [|exact Hd]. by etrans.
Qed.

(** The contents that are shown name the credential and the models that use
    it, with the levels of access that the caller has. *)
Definition content_disclosed s user (secrets : bool) (x : ContentResult) : Prop :=
  exists c redacted, co_Name x = cc_Name c /\ co_Cloud x = cc_CloudName c /\ disclosed s user secrets (co_Attributes x) redacted c.

Lemma credential_models_shows c s : wp (credential_models c) (shows (fun _ => True) s) s.
Proof.
  apply shows_finds. unfold credential_models. eapply (finds_mono still); [apply finds_jdb, wp_sees_map_err, find_wp, part_models|done].
Qed.
Lemma userModelAccess_shows user t s : wp (userModelAccess user t) (shows (fun _ => True) s) s.
Proof.
  unfold userModelAccess. eapply shows_bind; [apply shows_finds, (finds_ladder user t [AdministratorRelation; WriterRelation; ReaderRelation])|].
  intros. by apply shows_ret.
Qed.
Lemma credentialContents_disclosed user secrets cred models s :
  wp (credentialContents user secrets cred models) (shows (content_disclosed s user secrets) s) s.
Proof.
  unfold credentialContents. eapply shows_bind; [apply attributes_disclosed|]. intros [attributes redacted] s1 Hs1 Hd.
  eapply shows_bind; [apply (shows_map_range (fun _ => True))|].
  - intros m s2 _. eapply shows_bind; [apply shows_lift|]. intros t s3 _ _. eapply shows_bind; [apply userModelAccess_shows|].
    intros. by apply shows_ret.
  - intros mas s2 _ _. apply shows_ret. by exists cred.1, redacted.
Qed.

Lemma UserCloudCredentials_shows name cloud s : wp (jdb (UserCloudCredentials name cloud)) (shows (fun _ => True) s) s.
Proof.
  apply shows_finds, finds_jdb. unfold UserCloudCredentials. apply wp_sees_ready, wp_sees_map_err.
  eapply wp_sees_bind; [apply find_wp, part_credentials|]. intros l d _ _.
  eapply wp_sees_mono; [apply (map_range_sees (fun _ => True) (fun _ _ => True)); [by apply Forall_true|]|done].
  intros c d1 _ _. unfold with_cloud. eapply wp_sees_bind; [apply preload_by_sees, part_clouds|]. intros. by apply wp_sees_ret.
Qed.
Lemma content_disclosed_still s s' user secrets x : still s s' -> content_disclosed s' user secrets x -> content_disclosed s user secrets x.
Proof. intros Hs (c & redacted & ? & ? & Hd). exists c, redacted. split_and!; [done|done|]. by eapply disclosed_still. Qed.

Lemma CredentialContents_disclosed r credentials secrets s :
  wp (CredentialContents r credentials secrets)
    (shows (Forall (fun x => forall c, x = inl c -> content_disclosed s (r_user r) secrets c)) s) s.
Proof.
  unfold CredentialContents. case_decide.
  - apply shows_map_range. intros arg s1 Hs1. eapply shows_bind; [apply shows_lift|]. intros t s2 Hs2 _.
    eapply shows_bind; [apply (shows_try (content_disclosed s (r_user r) secrets))|].
    + eapply shows_bind; [apply GetCloudCredential_shows|]. intros cred s3 Hs3 _.
      eapply shows_bind; [apply credential_models_shows|]. intros models s4 Hs4 _.
      eapply wp_mono; [apply credentialContents_disclosed|]. intros o s5 [Hs5 Hc]. split; [done|]. intros x Hx.
      eapply content_disclosed_still; [|by apply Hc]. by do 3 (etrans; [eassumption|]).
    + intros x s3 _ Hx. apply shows_ret. intros c Hc. destruct x; simplify_eq. by apply Hx.
  - eapply shows_bind; [apply UserCloudCredentials_shows|]. intros found s1 Hs1 _.
    eapply shows_bind; [apply (shows_map_range (fun _ => True))|].
    + intros cred s2 _. eapply shows_bind; [apply credential_models_shows|]. intros. by apply shows_ret.
    + intros preloaded s2 Hs2 _. apply shows_bulk. intros p s3 Hs3. eapply wp_mono; [apply credentialContents_disclosed|].
      intros o s4 [Hs4 Hc]. split; [done|]. intros x Hx. eapply content_disclosed_still; [|by apply Hc]. by do 2 (etrans; [eassumption|]).
Qed.

(** The contents of credentials are shown to those who may see them: the
    method [Credential] shows the owner and the administrators of JIMM exactly
    the attributes that the schema of the cloud calls visible and the names of
    the others; with secrets, [CredentialContents] shows the stored attributes
    to their owner only, whoever asks.  Neither changes anything. *)
Theorem credentials_disclosed r s s' :
  (forall entities rs, Credential r entities s = (s', Ok rs) ->
     still s s' /\ forall x, inl x ∈ rs -> exists c, disclosed s (r_user r) false (cx_Attributes x) (cx_Redacted x) c) /\
  (forall credentials secrets rs, CredentialContents r credentials secrets s = (s', Ok rs) ->
     still s s' /\ forall x, inl x ∈ rs -> content_disclosed s (r_user r) secrets x).
Proof.
  split.
  - intros entities rs Hrun. assert (wp (Credential r entities) (shows (Forall (fun x => forall b, x = inl b ->
      exists c, disclosed s (r_user r) false (cx_Attributes b) (cx_Redacted b) c)) s) s) as Hwp.
    { apply shows_bulk. intros tag s1 Hs1. eapply wp_mono; [apply credential_disclosed|]. intros o s2 [Hs2 Hd]. split; [done|].
      intros x Hx. destruct (Hd x Hx) as [c Hc]. exists c. by eapply disclosed_still. }
    destruct (wp_elim _ _ _ _ _ Hwp Hrun) as [Hs Hall]. split; [done|]. intros x Hx. specialize (Hall rs eq_refl).
    rewrite Forall_forall in Hall. by eapply Hall.
  - intros credentials secrets rs Hrun. destruct (wp_elim _ _ _ _ _ (CredentialContents_disclosed r credentials secrets s) Hrun) as [Hs Hall].
    split; [done|]. intros x Hx. specialize (Hall rs eq_refl). rewrite Forall_forall in Hall. by eapply Hall.
Qed.
End facts.

End CloudApi.
