(* ===== verification/Rebac.v ===== *)
(** * Rebac: the ReBAC administration API ([internal/jimmhttp/rebac_admin]).

    The handlers of groups, roles, identities, entitlements and resources
    behind [AuthenticateRebac]; they translate requests into calls of the
    managers.  The types of requests and responses and the errors with an HTTP
    status belong to the library [rebac-admin-ui-handlers], which also routes
    the requests; the errors and the text form of times are the class
    [RebacLib].

    The theorems: a patch adds and removes exactly the tuples that its items
    name, and only tuples that the caller may manage; deleting a group by its
    id deletes that group with its tuples; the advertised entitlements are
    those of the authorisation model. *)

From Stdlib Require Import Ascii.
From S2P Require Import Prelude Errors GoStrings Regexp Names AuthModel RefServer OpenFGA Dbmodel Users Database Encoding Pagination TagResolver Access Relations Managers AuthService Middleware.

Module Rebac.

(** ** The library *)

Class RebacLib := {
  NewNotFoundError : string -> gerror;
  NewValidationError : string -> gerror;
  NewInvalidRequestError : string -> gerror;
  NewNotImplementedError : string -> gerror;
  NewUnknownError : string -> gerror;
  errNoIdentity : gerror;
  RFC3339 : option Z -> string;
  AuthModelDSL : string;
}.

(** [db.Resource]; the raw query of [db/resource.go] is run by the database. *)
Record Resource := MkResource {
  res_Type : string; res_ID : option string; res_Name : string;
  res_ParentId : option string; res_ParentName : string; res_ParentType : string;
}.
Class ResourceQuery (T : Type -> Type) :=
  store_ListResources : Z -> Z -> string -> string -> M (Db T) (list Resource).

(** [resources.*]: groups and roles, identities, entitlements, patches, pages. *)
Record Item := MkItem { it_Id : option string; it_Name : string }.
Record IdentityItem := MkIdentityItem {
  ii_Email : string; ii_Id : option string; ii_Joined : option string; ii_LastLogin : option string;
}.
Record EntityEntitlement := MkEntitlement { Entitlement : string; EntityId : string; EntityType : string }.
Record EntitlementSchema := MkSchema { es_Entitlement : string; es_ReceiverType : string; es_EntityType : string }.
Record Entity_ := MkEntity_ { en_Id : string; en_Name : string; en_Type : string }.
Record ResourceItem := MkResourceItem { ri_Entity : Entity_; ri_Parent : option Entity_ }.
Record Patch (A : Type) := MkPatch { Op : string; Arg : A }.
Record PaginatedResponse (A : Type) := MkPage {
  Data : list A; Meta_Page : option Z; Meta_Size : Z; Meta_Total : option Z; Meta_PageToken : option string;
  Next_Page : option Z; Next_PageToken : option string;
}.
Arguments MkPatch {A}.
Arguments Op {A}.
Arguments Arg {A}.
Arguments MkPage {A}.
Arguments Data {A}.

(** [params.Size], [params.NextToken] and [params.NextPageToken]. *)
Record PageParams := MkPageParams { Size : option Z; NextToken : option string; NextPageToken : option string }.
(** [params.Size], [params.Page] and [params.Filter]. *)
Record ListParams := MkListParams { lp_Size : option Z; lp_Page : option Z; lp_Filter : option string }.

(** ** Capabilities ([capabilities.go]) *)

Record Capability := MkCapability { Endpoint : string; Methods : list string }.
Definition capabilities : list Capability := [
  MkCapability "/swagger.json" ["GET"];
  MkCapability "/capabilities" ["GET"];
  MkCapability "/identities" ["GET"; "POST"];
  MkCapability "/identities/{id}" ["GET"];
  MkCapability "/identities/{id}/groups" ["GET"; "PATCH"];
  MkCapability "/identities/{id}/entitlements" ["GET"; "PATCH"];
  MkCapability "/groups" ["GET"; "POST"];
  MkCapability "/groups/{id}" ["GET"; "PUT"; "DELETE"];
  MkCapability "/groups/{id}/identities" ["GET"; "PATCH"];
  MkCapability "/groups/{id}/entitlements" ["GET"; "PATCH"];
  MkCapability "/groups/{id}/roles" ["GET"; "PATCH"];
  MkCapability "/roles" ["GET"; "POST"];
  MkCapability "/roles/{id}" ["GET"; "PUT"; "DELETE"];
  MkCapability "/entitlements" ["GET"];
  MkCapability "/entitlements/raw" ["GET"];
  MkCapability "/resources" ["GET"]
].
Definition ListCapabilities : outcome (list Capability) := Ok capabilities.

(** ** Entitlements ([entitlements.go]) *)

Definition ApplicationOffer_ := "applicationoffer".
Definition Cloud_ := "cloud".
Definition Controller_ := "controller".
Definition Group_ := "group".
Definition Model_ := "model".

Definition receivers : list string := ["user"; "user:*"; "group#member"; "role#assignee"].

Definition entitlementsList : list EntitlementSchema :=
  ((fun r => MkSchema "administrator" r ApplicationOffer_) <$> receivers) ++
  ((fun r => MkSchema "consumer" r ApplicationOffer_) <$> receivers) ++
  ((fun r => MkSchema "reader" r ApplicationOffer_) <$> receivers) ++
  ((fun r => MkSchema "administrator" r Cloud_) <$> receivers) ++
  ((fun r => MkSchema "can_addmodel" r Cloud_) <$> receivers) ++
  ((fun r => MkSchema "administrator" r Controller_) <$> receivers) ++
  ((fun r => MkSchema "audit_log_viewer" r Controller_) <$> receivers) ++
  ((fun r => MkSchema "member" r Group_) <$> ["user"; "user:*"; "group#member"]) ++
  ((fun r => MkSchema "administrator" r Model_) <$> receivers) ++
  ((fun r => MkSchema "reader" r Model_) <$> receivers) ++
  ((fun r => MkSchema "writer" r Model_) <$> receivers).

Definition ListEntitlements (filter_ : option string) : list EntitlementSchema :=
  match filter_ with
  | None | Some "" => entitlementsList
  | Some match_ => List.filter (fun e => Contains (es_Entitlement e) match_ || Contains (es_EntityType e) match_)
                     entitlementsList
  end.

Section utils.
Context `{RebacLib} `{JujuNames}.

Definition RawEntitlements : outcome string := Ok AuthModelDSL.

(** ** [utils] *)

Definition GetUserFromContext (ctx : Middleware.HContext) : outcome User :=
  match Middleware.hc_rebac ctx with Some user => Ok user | None => Err errNoIdentity end.

(** [errors.Join] of a list that is not empty; the result has no error code. *)
Definition Join (errs : list gerror) : gerror :=
  ErrForeign "" "" (String.concat (String "010"%char EmptyString) (Error <$> errs)).

Definition ToEntityEntitlement (tuple : Tuple) : outcome EntityEntitlement :=
  match Target tuple with
  | Some t => Ok (MkEntitlement (Relation tuple) (EID t) (EKind t))
  | None => Panic Rel.nilPointer
  end.
Fixpoint ToEntityEntitlements (tuples : list Tuple) : outcome (list EntityEntitlement) :=
  match tuples with
  | [] => Ok []
  | t :: tuples => e ← ToEntityEntitlement t; es ← ToEntityEntitlements tuples; Ok (e :: es)
  end.

Definition FromUserToIdentity (user : User) : IdentityItem :=
  MkIdentityItem (u_Name user) (Some (u_Name user)) (Some (RFC3339 (Some (i_CreatedAt (u_Identity user)))))
    (Some (RFC3339 (i_LastLogin (u_Identity user)))).

Definition ToRebacResource (res : Resource) : ResourceItem :=
  MkResourceItem (MkEntity_ (default "" (res_ID res)) (res_Name res) (res_Type res))
    (if decide (res_ParentType res <> "")
     then Some (MkEntity_ (default "" (res_ParentId res)) (res_ParentName res) (res_ParentType res)) else None).

Definition CreateTokenPaginationFilter (p : PageParams) : OpenFGAPagination :=
  NewOpenFGAFilter (default 0%Z (Size p))
    (match NextPageToken p with Some t => t | None => default "" (NextToken p) end).

Definition ValidateDecomposedTag (kind id : string) : outcome Tag := ParseTag (kind +:+ "-" +:+ id).

Definition GetNameAndTypeResourceFilter (nFilter eFilter : option string) : string * string :=
  (default "" nFilter, default "" eFilter).

(** ** Resources ([resources.go]) *)

Definition validateAndConvertResourceFilter (typeFilter : string) : outcome string :=
  if decide (typeFilter = ApplicationOffer_) then Ok "application_offers"
  else if decide (typeFilter = Cloud_) then Ok "clouds"
  else if decide (typeFilter = Controller_) then Ok "controllers"
  else if decide (typeFilter = Model_) then Ok "models"
  else Err (New "this resource type is not supported").

(** ** Patches

    The loops of the patch handlers sort the items into tuples to add and to
    remove.  [remove] says which operations other than [add] remove. *)

Local Abbreviation RT := Rel.RelationshipTuple.

Definition sorted_in (op : string) (remove : string -> bool) (t : RT) (plan : list RT * list RT) : list RT * list RT :=
  if decide (op = "add") then (t :: plan.1, plan.2)
  else if remove op then (plan.1, t :: plan.2) else plan.

(** The loop that returns at the first invalid item. *)
Fixpoint plan {A} (remove : string -> bool) (tupleOf : A -> outcome RT) (patches : list (Patch A))
    : outcome (list RT * list RT) :=
  match patches with
  | [] => Ok ([], [])
  | p :: patches =>
      t ← tupleOf (Arg p);
      rest ← plan remove tupleOf patches;
      Ok (sorted_in (Op p) remove t rest)
  end.

(** The loop that collects the errors of all items. *)
Fixpoint planAll (remove : string -> bool) (tupleOf : EntityEntitlement -> outcome RT)
    (patches : list (Patch EntityEntitlement)) : outcome ((list RT * list RT) * list gerror) :=
  match patches with
  | [] => Ok (([], []), [])
  | p :: patches =>
      match tupleOf (Arg p) with
      | Ok t => rest ← planAll remove tupleOf patches; Ok (sorted_in (Op p) remove t rest.1, rest.2)
      | Err err => rest ← planAll remove tupleOf patches; Ok (rest.1, err :: rest.2)
      | Panic s => Panic s
      | OutOfFuel => OutOfFuel
      end
  end.

(** [object] is the receiver; making its tag may panic. *)
Definition planEntitlements (object : outcome string) (patches : list (Patch EntityEntitlement)) : outcome (list RT * list RT) :=
  r ← planAll (fun _ => true) (fun e =>
        tag ← ValidateDecomposedTag (EntityType e) (EntityId e);
        o ← object;
        Ok (Rel.MkRelTuple o (Entitlement e) (TagString tag))) patches;
  if decide (r.2 <> []) then Err (Join r.2) else Ok r.1.

End utils.

Section services.
Context {F : Type} `{OFGAServer F} {T : Type -> Type} `{Gorm T} `{JujuNames} `{Hash} `{GroupFetcher} `{UUIDParse} `{UUIDs}.
Context `{RebacLib} `{ResourceQuery T}.
Implicit Types (ctx : Middleware.HContext) (j : PermissionManager).
Local Abbreviation RM := (M (World F T)).

Definition getUser ctx : RM User := lift (GetUserFromContext ctx).

(** [if errors.ErrorCode(err) == errors.CodeNotFound { return v1.NewNotFoundError(msg) }]. *)
Definition notFoundAs {A} (msg : string) : RM A -> RM A :=
  map_err (fun err => if decide (ErrorCode err = CodeNotFound) then NewNotFoundError msg else err).

(** The end of the patch handlers. *)
Definition applyPlan (fail : gerror -> gerror) j (user : User) (p : list Rel.RelationshipTuple * list Rel.RelationshipTuple)
    : RM bool :=
  _ ← (if decide (p.1 = []) then mret tt else map_err fail (Rel.AddRelation j user p.1));
  _ ← (if decide (p.2 = []) then mret tt else map_err fail (Rel.RemoveRelation j user p.2));
  mret true.

(** A page of a listing that is read with tokens. *)
Definition tokenPage {A} (filter_ : OpenFGAPagination) (data : list A) (size : Z) (next : string) : PaginatedResponse A :=
  MkPage data None size None (Some (fga_Token filter_)) None (if decide (next <> "") then Some next else None).

(** [resources.PaginatedResponse] of a listing that is read with offsets. *)
Definition offsetPage {A} (page : Z) (next : option Z) (count : Z) (data : list A) : PaginatedResponse A :=
  MkPage data (Some page) (Z.of_nat (length data)) (Some count) None next None.

(** The rows that the tuples name; tuples without a row are dropped. *)
Fixpoint namedRows {R} (get : string -> RM R) (nameOf : R -> string) (tuples : list Tuple) : RM (list Item) :=
  match tuples with
  | [] => mret []
  | t :: tuples =>
      match Target t with
      | None => panic Rel.nilPointer
      | Some g =>
          r ← try (get (EID g));
          match r with
          | inl row => rest ← namedRows get nameOf tuples; mret (MkItem (Some (EID g)) (nameOf row) :: rest)
          | inr err => if decide (ErrorCode err = CodeNotFound) then namedRows get nameOf tuples else throw err
          end
      end
  end.

Definition entitlementPage (fuel : nat) j user (object : string) (params : PageParams)
    : RM (PaginatedResponse EntityEntitlement) :=
  let filter_ := CreateTokenPaginationFilter params in
  '(tuples, next) ← Rel.ListObjectRelations fuel j user object (Rel.int32 (fga_Limit filter_)) (fga_Token filter_);
  data ← lift (ToEntityEntitlements tuples);
  mret (tokenPage filter_ data (Z.of_nat (length tuples)) next).

(** ** Groups ([groups.go]) *)

Definition ListGroups ctx (params : ListParams) : RM (PaginatedResponse Item) :=
  user ← getUser ctx;
  count ← GroupManager.CountGroups user;
  let '(page, nextPage, pagination) := CreatePagination (lp_Size params) (lp_Page params) count in
  groups ← GroupManager.ListGroups user pagination (default "" (lp_Filter params));
  mret (offsetPage page nextPage count
    (fmap (M:=list) (fun g => MkItem (Some (g_UUID g)) (g_Name g)) groups)).

Definition CreateGroup ctx (group : Item) : RM Item :=
  user ← getUser ctx;
  groupInfo ← GroupManager.AddGroup user (it_Name group);
  mret (MkItem (Some (g_UUID groupInfo)) (g_Name groupInfo)).

Definition GetGroup ctx (groupId : string) : RM Item :=
  user ← getUser ctx;
  group ← notFoundAs "failed to find group" (GroupManager.GetGroupByUUID user groupId);
  mret (MkItem (Some (g_UUID group)) (g_Name group)).

Definition UpdateGroup ctx (group : Item) : RM Item :=
  user ← getUser ctx;
  match it_Id group with
  | None => throw (NewValidationError "missing group ID")
  | Some id =>
      existingGroup ← notFoundAs "failed to find group" (GroupManager.GetGroupByUUID user id);
      _ ← GroupManager.RenameGroup user (g_Name existingGroup) (it_Name group);
      mret (MkItem (Some (g_UUID existingGroup)) (it_Name group))
  end.

Definition DeleteGroup (fuel : nat) ctx (groupId : string) : RM bool :=
  user ← getUser ctx;
  r ← try (GroupManager.GetGroupByUUID user groupId);
  match r with
  | inr err => if decide (ErrorCode err = CodeNotFound) then mret false else throw err
  | inl existingGroup => _ ← GroupManager.RemoveGroup fuel user (g_Name existingGroup); mret true
  end.

Definition GetGroupIdentities (fuel : nat) j ctx (groupId : string) (params : PageParams)
    : RM (PaginatedResponse IdentityItem) :=
  user ← getUser ctx;
  if negb (IsValidGroupId groupId) then throw (NewValidationError "invalid group ID") else
  let filter_ := CreateTokenPaginationFilter params in
  groupTag ← lift (NewGroupTag groupId);
  _ ← notFoundAs "group not found" (GroupManager.GetGroupByUUID user groupId);
  '(identities, nextToken) ← Rel.ListRelationshipTuples fuel j user
    (Rel.MkRelTuple "" MemberRelation (TagString groupTag)) (Rel.int32 (fga_Limit filter_)) (fga_Token filter_);
  data ← map_range identities (fun t => match Object t with
    | Some o => mret (MkIdentityItem (EID o) None None None)
    | None => panic Rel.nilPointer end);
  mret (tokenPage filter_ data (Z.of_nat (length data)) nextToken).

Definition PatchGroupIdentities j ctx (groupId : string) (identityPatches : list (Patch string)) : RM bool :=
  user ← getUser ctx;
  if negb (IsValidGroupId groupId) then throw (NewValidationError "invalid group ID") else
  groupTag ← lift (NewGroupTag groupId);
  p ← lift (plan (fun _ => true) (fun identity =>
        if negb (IsValidUser identity) then Err (NewValidationError ("invalid identity: " +:+ identity)) else
        tag ← NewUserTag identity;
        Ok (Rel.MkRelTuple (TagString tag) MemberRelation (TagString groupTag))) identityPatches);
  applyPlan id j user p.

Definition GetGroupRoles (fuel : nat) j ctx (groupId : string) (params : PageParams) : RM (PaginatedResponse Item) :=
  user ← getUser ctx;
  if negb (IsValidGroupId groupId) then throw (NewValidationError "invalid group ID") else
  let filter_ := CreateTokenPaginationFilter params in
  groupTag ← lift (NewGroupTag groupId);
  _ ← notFoundAs "group not found" (GroupManager.GetGroupByUUID user groupId);
  '(roles, nextToken) ← Rel.ListRelationshipTuples fuel j user
    (Rel.MkRelTuple (WithMemberRelation groupTag) AssigneeRelation RoleTagKind)
    (Rel.int32 (fga_Limit filter_)) (fga_Token filter_);
  data ← namedRows (RoleManager.GetRoleByUUID user) r_Name roles;
  mret (tokenPage filter_ data (Z.of_nat (length data)) nextToken).

Definition PatchGroupRoles j ctx (groupId : string) (rolePatches : list (Patch string)) : RM bool :=
  user ← getUser ctx;
  if negb (IsValidGroupId groupId) then throw (NewValidationError "invalid group ID") else
  groupTag ← lift (NewGroupTag groupId);
  p ← lift (plan (fun _ => true) (fun role =>
        if negb (IsValidRoleId role) then Err (NewValidationError ("invalid role ID: " +:+ role)) else
        tag ← NewRoleTag role;
        Ok (Rel.MkRelTuple (WithMemberRelation groupTag) AssigneeRelation (TagString tag))) rolePatches);
  applyPlan id j user p.

Definition GetGroupEntitlements (fuel : nat) j ctx (groupId : string) (params : PageParams)
    : RM (PaginatedResponse EntityEntitlement) :=
  user ← getUser ctx;
  if negb (IsValidGroupId groupId) then throw (NewValidationError "invalid group ID") else
  groupTag ← lift (NewGroupTag groupId);
  entitlementPage fuel j user (WithMemberRelation groupTag) params.

Definition PatchGroupEntitlements j ctx (groupId : string) (entitlementPatches : list (Patch EntityEntitlement)) : RM bool :=
  user ← getUser ctx;
  if negb (IsValidGroupId groupId) then throw (NewValidationError "invalid group ID") else
  groupTag ← lift (NewGroupTag groupId);
  p ← lift (planEntitlements (Ok (WithMemberRelation groupTag)) entitlementPatches);
  applyPlan id j user p.

(** ** Identities ([identities.go]) *)

Definition ListIdentities ctx (params : ListParams) : RM (PaginatedResponse IdentityItem) :=
  user ← getUser ctx;
  count ← IdentityManager.CountIdentities user;
  let '(page, nextPage, pagination) := CreatePagination (lp_Size params) (lp_Page params) count in
  users ← IdentityManager.ListIdentities user pagination (default "" (lp_Filter params));
  mret (offsetPage page nextPage count (fmap (M:=list) FromUserToIdentity users)).

Definition CreateIdentity : RM IdentityItem := throw (NewNotImplementedError "create identity not implemented").
Definition UpdateIdentity : RM IdentityItem := throw (NewNotImplementedError "update identity not implemented").
Definition DeleteIdentity : RM bool := throw (NewNotImplementedError "delete identity not implemented").

Definition userNotFound (identityId : string) : string := "User with id " +:+ identityId +:+ " not found".

Definition GetIdentity (identityId : string) : RM IdentityItem :=
  user ← notFoundAs (userNotFound identityId) (IdentityManager.FetchIdentity identityId);
  mret (FromUserToIdentity user).

(** Every error of the lookup is reported as not found. *)
Definition fetchObjUser (identityId : string) : RM User :=
  map_err (fun _ => NewNotFoundError (userNotFound identityId)) (IdentityManager.FetchIdentity identityId).

(** The roles, or the groups, of an identity. *)
Definition identityItems {R} (fuel : nat) j ctx (identityId relation kind : string) (get : User -> string -> RM R)
    (nameOf : R -> string) (params : PageParams) : RM (PaginatedResponse Item) :=
  user ← getUser ctx;
  objUser ← fetchObjUser identityId;
  let filter_ := CreateTokenPaginationFilter params in
  tag ← lift (Identity_ResourceTag (u_Identity objUser));
  '(tuples, cNextToken) ← Rel.ListRelationshipTuples fuel j user (Rel.MkRelTuple (TagString tag) relation kind)
    (Rel.int32 (fga_Limit filter_)) (fga_Token filter_);
  data ← namedRows (get user) nameOf tuples;
  mret (tokenPage filter_ data (Z.of_nat (length data)) cNextToken).

Definition GetIdentityRoles (fuel : nat) j ctx identityId params : RM (PaginatedResponse Item) :=
  identityItems fuel j ctx identityId AssigneeRelation RoleTagKind RoleManager.GetRoleByUUID r_Name params.
Definition GetIdentityGroups (fuel : nat) j ctx identityId params : RM (PaginatedResponse Item) :=
  identityItems fuel j ctx identityId MemberRelation GroupTagKind GroupManager.GetGroupByUUID g_Name params.

Definition unknownError (err : gerror) : gerror := NewUnknownError (Error err).

Definition PatchIdentityRoles j ctx (identityId : string) (rolePatches : list (Patch string)) : RM bool :=
  user ← getUser ctx;
  objUser ← fetchObjUser identityId;
  p ← lift (plan (fun op => bool_decide (op = "remove")) (fun role =>
        if negb (IsValidRoleId role) then Err (NewValidationError ("ID " +:+ role +:+ " is not a valid role ID")) else
        object ← Identity_ResourceTag (u_Identity objUser);
        tag ← NewRoleTag role;
        Ok (Rel.MkRelTuple (TagString object) AssigneeRelation (TagString tag))) rolePatches);
  applyPlan unknownError j user p.

Definition PatchIdentityGroups j ctx (identityId : string) (groupPatches : list (Patch string)) : RM bool :=
  user ← getUser ctx;
  objUser ← fetchObjUser identityId;
  p ← lift (plan (fun op => bool_decide (op = "remove")) (fun group =>
        if negb (IsValidGroupId group) then Err (NewValidationError ("ID " +:+ group +:+ " is not a valid group ID")) else
        object ← Identity_ResourceTag (u_Identity objUser);
        tag ← NewGroupTag group;
        Ok (Rel.MkRelTuple (TagString object) MemberRelation (TagString tag))) groupPatches);
  applyPlan unknownError j user p.

Definition GetIdentityEntitlements (fuel : nat) j ctx (identityId : string) (params : PageParams)
    : RM (PaginatedResponse EntityEntitlement) :=
  user ← getUser ctx;
  objUser ← notFoundAs (userNotFound identityId) (IdentityManager.FetchIdentity identityId);
  tag ← lift (Identity_ResourceTag (u_Identity objUser));
  entitlementPage fuel j user (TagString tag) params.

Definition PatchIdentityEntitlements j ctx (identityId : string) (entitlementPatches : list (Patch EntityEntitlement))
    : RM bool :=
  user ← getUser ctx;
  objUser ← fetchObjUser identityId;
  p ← lift (planEntitlements (tag ← Identity_ResourceTag (u_Identity objUser); Ok (TagString tag)) entitlementPatches);
  applyPlan id j user p.

(** ** Roles ([roles.go]) *)

Definition ListRoles ctx (params : ListParams) : RM (PaginatedResponse Item) :=
  user ← getUser ctx;
  count ← RoleManager.CountRoles user;
  let '(page, nextPage, pagination) := CreatePagination (lp_Size params) (lp_Page params) count in
  roles ← RoleManager.ListRoles user pagination (default "" (lp_Filter params));
  mret (offsetPage page nextPage count
    (fmap (M:=list) (fun r => MkItem (Some (r_UUID r)) (r_Name r)) roles)).

Definition CreateRole ctx (role : Item) : RM Item :=
  user ← getUser ctx;
  roleInfo ← RoleManager.AddRole user (it_Name role);
  mret (MkItem (Some (r_UUID roleInfo)) (r_Name roleInfo)).

Definition GetRole ctx (roleId : string) : RM Item :=
  user ← getUser ctx;
  role ← notFoundAs "failed to find role" (RoleManager.GetRoleByUUID user roleId);
  mret (MkItem (Some (r_UUID role)) (r_Name role)).

Definition UpdateRole ctx (role : Item) : RM Item :=
  user ← getUser ctx;
  match it_Id role with
  | None => throw (NewValidationError "missing role ID")
  | Some id =>
      existingRole ← notFoundAs "failed to find role" (RoleManager.GetRoleByUUID user id);
      _ ← RoleManager.RenameRole user (r_Name existingRole) (it_Name role);
      mret (MkItem (Some (r_UUID existingRole)) (it_Name role))
  end.

Definition DeleteRole (fuel : nat) ctx (roleId : string) : RM bool :=
  user ← getUser ctx;
  r ← try (RoleManager.GetRoleByUUID user roleId);
  match r with
  | inr err => if decide (ErrorCode err = CodeNotFound) then mret false else throw err
  | inl existingRole => _ ← RoleManager.RemoveRole fuel user (r_Name existingRole); mret true
  end.

Definition GetRoleEntitlements (fuel : nat) j ctx (roleId : string) (params : PageParams)
    : RM (PaginatedResponse EntityEntitlement) :=
  user ← getUser ctx;
  if negb (IsValidRoleId roleId) then throw (NewValidationError "invalid role ID") else
  roleTag ← lift (NewRoleTag roleId);
  entitlementPage fuel j user (WithAssigneeRelation roleTag) params.

Definition PatchRoleEntitlements j ctx (roleId : string) (entitlementPatches : list (Patch EntityEntitlement)) : RM bool :=
  user ← getUser ctx;
  if negb (IsValidRoleId roleId) then throw (NewValidationError "invalid role ID") else
  roleTag ← lift (NewRoleTag roleId);
  p ← lift (planEntitlements (Ok (WithAssigneeRelation roleTag)) entitlementPatches);
  applyPlan id j user p.

(** ** Resources *)

(** [PermissionManager.ListResources]. *)
Definition Perm_ListResources user (filter_ : LimitOffsetPagination) (namePrefixFilter typeFilter : string)
    : RM (list Resource) :=
  admin_only user (db (store_ListResources (Limit filter_) (Offset filter_) namePrefixFilter typeFilter)).

Definition ListResources ctx (size page : option Z) (entityName entityType : option string)
    : RM (PaginatedResponse ResourceItem) :=
  user ← getUser ctx;
  let '(currentPage, expectedPageSize, pagination) := CreatePaginationWithoutTotal size page in
  let '(namePrefixFilter, typeFilter) := GetNameAndTypeResourceFilter entityName entityType in
  typeFilter ← (if decide (typeFilter <> "")
                then map_err (fun err => NewInvalidRequestError (Error err)) (lift (validateAndConvertResourceFilter typeFilter))
                else mret typeFilter);
  res ← Perm_ListResources user pagination namePrefixFilter typeFilter;
  let '(nextPage, res) := getNextPageAndResources currentPage expectedPageSize res in
  let rRes := fmap (M:=list) ToRebacResource res in
  mret (MkPage rRes (Some currentPage) (Z.of_nat (length rRes)) None None nextPage None).

End services.

(** ** Patches: what a request means *)

Inductive patch_request :=
| GroupIdentities (groupId : string) (ps : list (Patch string))
| GroupRoles (groupId : string) (ps : list (Patch string))
| GroupEntitlements (groupId : string) (ps : list (Patch EntityEntitlement))
| IdentityRoles (identityId : string) (ps : list (Patch string))
| IdentityGroups (identityId : string) (ps : list (Patch string))
| IdentityEntitlements (identityId : string) (ps : list (Patch EntityEntitlement))
| RoleEntitlements (roleId : string) (ps : list (Patch EntityEntitlement)).

Definition user_of (name : string) : Entity := MkEntity UserTagKind name "".
Definition members (groupId : string) : Entity := MkEntity GroupTagKind groupId MemberRelation.
Definition group_of (groupId : string) : Entity := MkEntity GroupTagKind groupId "".
Definition role_of (roleId : string) : Entity := MkEntity RoleTagKind roleId "".
Definition grant (o : Entity) (e : EntityEntitlement) : Tuple :=
  edge o (Entitlement e) (MkEntity (EntityType e) (EntityId e) "").

(** The tuples of the items to add and to remove; [f] gives the tuple of an
    item. *)
Definition to_add {A} (f : A -> Tuple) (ps : list (Patch A)) : list Tuple :=
  (fun p => f (Arg p)) <$> filter (fun p => Op p = "add") ps.
Definition to_remove {A} (remove : string -> bool) (f : A -> Tuple) (ps : list (Patch A)) : list Tuple :=
  (fun p => f (Arg p)) <$> filter (fun p => Op p <> "add" /\ remove (Op p) = true) ps.
Definition both {A} (remove : string -> bool) (f : A -> Tuple) (ps : list (Patch A)) : list Tuple * list Tuple :=
  (to_add f ps, to_remove remove f ps).

(** [name] is the name that the identity of an identity request is stored
    under.  An operation of an identity patch that is neither [add] nor
    [remove] is skipped; elsewhere everything but [add] removes. *)
Definition meant (name : string) (req : patch_request) : list Tuple * list Tuple :=
  match req with
  | GroupIdentities g ps => both (fun _ => true) (fun i => edge (user_of i) MemberRelation (group_of g)) ps
  | GroupRoles g ps => both (fun _ => true) (fun r => edge (members g) AssigneeRelation (role_of r)) ps
  | GroupEntitlements g ps => both (fun _ => true) (grant (members g)) ps
  | IdentityRoles _ ps =>
      both (fun op => bool_decide (op = "remove")) (fun r => edge (user_of name) AssigneeRelation (role_of r)) ps
  | IdentityGroups _ ps =>
      both (fun op => bool_decide (op = "remove")) (fun g => edge (user_of name) MemberRelation (group_of g)) ps
  | IdentityEntitlements _ ps => both (fun _ => true) (grant (user_of name)) ps
  | RoleEntitlements r ps => both (fun _ => true) (grant (MkEntity RoleTagKind r AssigneeRelation)) ps
  end.

Section spec.
Context `{JujuNames} `{UUIDParse} `{Hash}.

Definition resolvable (e : Entity) : Prop := uuid_entity e \/ user_named e.
Definition entitlement_named (e : EntityEntitlement) : Prop :=
  ValidateDecomposedTag (EntityType e) (EntityId e) = Ok (MkTag (EntityType e) (EntityId e)) /\
  ParseRelation (Entitlement e) = Ok (Entitlement e) /\ resolvable (MkEntity (EntityType e) (EntityId e) "").
Definition items {A} (P : A -> Prop) (ps : list (Patch A)) : Prop := Forall (fun p => P (Arg p)) ps.

(** The names of a request are in the form in which JIMM prints them, and the
    targets are named by a UUID. *)
Definition well_named (name : string) (req : patch_request) : Prop :=
  match req with
  | GroupIdentities g ps => uuid_entity (group_of g) /\ items (fun i => user_named (user_of i)) ps
  | GroupRoles g ps => uuid_entity (members g) /\ items (fun r => uuid_entity (role_of r)) ps
  | GroupEntitlements g ps => uuid_entity (members g) /\ items entitlement_named ps
  | IdentityRoles _ ps => user_named (user_of name) /\ items (fun r => uuid_entity (role_of r)) ps
  | IdentityGroups _ ps => user_named (user_of name) /\ items (fun g => uuid_entity (group_of g)) ps
  | IdentityEntitlements _ ps => user_named (user_of name) /\ items entitlement_named ps
  | RoleEntitlements r ps => uuid_entity (MkEntity RoleTagKind r AssigneeRelation) /\ items entitlement_named ps
  end.

(** The name under which the identity of the request is stored. *)
Definition stored_name (req : patch_request) (name : string) : Prop :=
  match req with
  | IdentityRoles id _ | IdentityGroups id _ | IdentityEntitlements id _ =>
      exists i, NewIdentity id = Ok i /\ name = i_Name i
  | _ => True
  end.

End spec.

Section facts.
Context {F : Type} `{OFGALaws F} {T : Type -> Type} `{GormLaws T} `{JujuNames} `{Hash} `{GroupFetcher} `{UUIDParse} `{UUIDs}.
Context `{RebacLib}.
Implicit Types (ctx : Middleware.HContext) (j : PermissionManager) (w : World F T).

Definition run_patch j ctx (req : patch_request) : M (World F T) bool :=
  match req with
  | GroupIdentities g ps => PatchGroupIdentities j ctx g ps
  | GroupRoles g ps => PatchGroupRoles j ctx g ps
  | GroupEntitlements g ps => PatchGroupEntitlements j ctx g ps
  | IdentityRoles i ps => PatchIdentityRoles j ctx i ps
  | IdentityGroups i ps => PatchIdentityGroups j ctx i ps
  | IdentityEntitlements i ps => PatchIdentityEntitlements j ctx i ps
  | RoleEntitlements r ps => PatchRoleEntitlements j ctx r ps
  end.

(** A requested tuple that is read as [t] whatever the database holds. *)
Definition means j (rt : Rel.RelationshipTuple) (t : Tuple) : Prop :=
  forall w, Rel.parseTuple j rt w = (w, Ok t).

Lemma means_parsed j w rts ts l :
  Forall2 (means j) rts ts -> Forall2 (Rel.parsed_as j w) rts l -> l = ts.
Proof.
  intros Hm. revert l. induction Hm as [|rt t rts ts Ht _ IH]; intros l Hl; inversion Hl as [|? t' ? l' Hp Hl']; subst; [done|].
  destruct Hp as (_ & _ & w0 & w1 & _ & Hrun). rewrite Ht in Hrun. injection Hrun as _ <-. f_equal. by apply IH.
Qed.

(** The tag strings of the handlers. *)
Lemma resolve_tag j e d :
  resolvable e -> plain_relation (ERelation e) ->
  parseAndValidateTag j (EKind e +:+ String "-" (EID e +:+ rel_suffix (ERelation e))) d = (d, Ok e).
Proof. intros [He|He] Hr; [by apply uuid_entity_resolves|by apply user_named_resolves]. Qed.

Lemma plain_member : plain_relation MemberRelation.
Proof. split; [done|]. by apply (bool_decide_unpack (_ ∈ _)). Qed.
Lemma plain_assignee : plain_relation AssigneeRelation.
Proof. split; [done|]. by apply (bool_decide_unpack (_ ∈ _)). Qed.
Lemma plain_none : plain_relation "".
Proof. split; [done|]. by apply (bool_decide_unpack (_ ∈ _)). Qed.

Lemma means_edge j o r g object target :
  resolvable o -> plain_relation (ERelation o) -> resolvable g -> ERelation g = "" -> ParseRelation r = Ok r ->
  object = EKind o +:+ String "-" (EID o +:+ rel_suffix (ERelation o)) ->
  target = EKind g +:+ String "-" (EID g) ->
  means j (Rel.MkRelTuple object r target) (edge o r g).
Proof.
  intros Ho Hro Hg Hrg Hr -> -> w. unfold Rel.parseTuple, map_err, mbind, M_bind, lift. cbn [Rel.rt_Relation Rel.rt_Object Rel.rt_TargetObject].
  rewrite Hr. rewrite decide_False by (by destruct (EKind g)).
  unfold db, zoom.
  pose proof (resolve_tag j g (w_db w) Hg) as Hpg. rewrite Hrg in Hpg. unfold rel_suffix in Hpg at 1. simpl in Hpg.
  rewrite str_app_nil_r in Hpg. rewrite (Hpg plain_none).
  rewrite decide_True by (by destruct (EKind o)). simpl.
  rewrite (resolve_tag j o (w_db w) Ho Hro). by destruct w.
Qed.

(** *** Plans *)

Lemma plan_means {A} j remove (tupleOf : A -> outcome Rel.RelationshipTuple) (f : A -> Tuple) ps :
  items (fun a => exists rt, tupleOf a = Ok rt /\ means j rt (f a)) ps ->
  exists p, plan remove tupleOf ps = Ok p /\
    Forall2 (means j) p.1 (to_add f ps) /\ Forall2 (means j) p.2 (to_remove remove f ps).
Proof.
  unfold to_add, to_remove. induction 1 as [|p ps (rt & Hrt & Hm) _ (pl & Hpl & Ha & Hr)]; simpl.
  - exists ([], []). by split_and!.
  - rewrite Hrt. simpl. rewrite Hpl. simpl. exists (sorted_in (Op p) remove rt pl). split; [done|].
    unfold sorted_in. rewrite !filter_cons. repeat case_decide; try destruct (remove (Op p)) eqn:Hrem; simpl;
      split; try done; try (by constructor); naive_solver.
Qed.

Lemma planAll_means j remove tupleOf (f : EntityEntitlement -> Tuple) ps :
  items (fun a => exists rt, tupleOf a = Ok rt /\ means j rt (f a)) ps ->
  exists p, planAll remove tupleOf ps = Ok (p, []) /\
    Forall2 (means j) p.1 (to_add f ps) /\ Forall2 (means j) p.2 (to_remove remove f ps).
Proof.
  unfold to_add, to_remove. induction 1 as [|p ps (rt & Hrt & Hm) _ (pl & Hpl & Ha & Hr)]; simpl.
  - exists ([], []). by split_and!.
  - rewrite Hrt, Hpl. simpl. exists (sorted_in (Op p) remove rt pl). split; [done|].
    unfold sorted_in. rewrite !filter_cons. repeat case_decide; try destruct (remove (Op p)) eqn:Hrem; simpl;
      split; try done; try (by constructor); naive_solver.
Qed.


(** *** The effect of a patch *)

(** What was written: tuples that the caller may manage, and, when the lists
    are known to mean [ta] and [tr], the first of these, all of them on
    success. *)
Definition patched j (user : User) w (o : outcome bool) w' (known : list Tuple * list Tuple -> Prop) : Prop :=
  exists added removed,
    Perm.w_tuples w' = (Perm.w_tuples w ∪ list_to_set added) ∖ list_to_set removed /\
    Forall (Rel.may_manage (Perm.w_tuples w) user) added /\
    Forall (Rel.may_manage (Perm.w_tuples w ∪ list_to_set added) user) removed /\
    forall t, known t -> added `prefix_of` t.1 /\ removed `prefix_of` t.2 /\
      forall b, o = Ok b -> b = true /\ added = t.1 /\ removed = t.2.

Definition patch_post j user w known (o : outcome bool) w' : Prop :=
  tables (w_db w') = tables (w_db w) /\ patched j user w o w' known.

(** A request that ends before anything is written. *)
Lemma patched_nothing j user w o w' known :
  Perm.w_tuples w' = Perm.w_tuples w -> tables (w_db w') = tables (w_db w) -> (forall b, o <> Ok b) ->
  patch_post j user w known o w'.
Proof.
  intros HT Ht Ho. split; [done|]. exists [], []. split_and!; [set_solver|done|done|].
  intros t _. split_and!; [apply prefix_nil..|]. intros b Hb. by destruct (Ho b).
Qed.

(** One half of a plan: nothing, or an update. *)
Lemma half_wp (remove : bool) fail j user rts w :
  wp (if decide (rts = []) then mret tt else map_err fail (Rel.update_run remove j user rts)) (fun o w' =>
    tables (w_db w') = tables (w_db w) /\ exists written,
      Perm.w_tuples w' = Rel.update_act remove (Perm.w_tuples w) written /\
      Forall (Rel.may_manage (Perm.w_tuples w) user) written /\
      forall ts, Forall2 (means j) rts ts -> written `prefix_of` ts /\ (o = Ok tt -> written = ts)) w.
Proof.
  destruct (decide (rts = [])) as [->|Hne].
  - wp_value. split; [done|]. exists []. split_and!; [destruct remove; set_solver|done|].
    intros ts Hts. inversion Hts. split; [apply prefix_nil|done].
  - apply wp_map_err, wp_run. intros w' o Hrun.
    destruct (Rel.update_run_post _ _ _ _ _ _ _ Hrun) as (_ & Ht & written & HT & Hm & Hw). split; [done|].
    exists written. split_and!; [done|done|]. intros ts Hts.
    destruct Hw as [[-> Hne']|(rest & Hrest & Hok)].
    + split; [apply prefix_nil|]. by destruct o.
    + rewrite <- (means_parsed _ _ _ _ _ Hts Hrest). split; [by exists rest|]. intros Ho.
      rewrite Hok, app_nil_r; [done|]. by destruct o.
Qed.

Lemma applyPlan_wp fail j user p w :
  wp (applyPlan fail j user p)
     (patch_post j user w (fun t => Forall2 (means j) p.1 t.1 /\ Forall2 (means j) p.2 t.2)) w.
Proof.
  unfold applyPlan. apply wp_bind. eapply wp_mono; [apply (half_wp false)|].
  intros o w1 (Ht1 & added & HT1 & Hm1 & Hk1).
  destruct o as [[]|e|m|]; cbn [bind_post].
  2-4: split; [done|]; exists added, []; split_and!; [by rewrite HT1; simpl; set_solver|done|done|];
    intros t [Ha Hr]; destruct (Hk1 _ Ha); split_and!; [done|apply prefix_nil|done].
  apply wp_bind. eapply wp_mono; [apply (half_wp true)|]. intros o w2 (Ht2 & removed & HT2 & Hm2 & Hk2).
  rewrite HT1 in HT2, Hm2. simpl in HT2, Hm2.
  assert (forall o' : outcome bool, (forall b, o' = Ok b -> o = Ok tt /\ b = true) ->
    patch_post j user w (fun t => Forall2 (means j) p.1 t.1 /\ Forall2 (means j) p.2 t.2) o' w2) as Hfin.
  { intros o' Ho'. split; [congruence|]. exists added, removed. split_and!; [done..|]. intros t [Ha Hr].
    destruct (Hk1 _ Ha) as [Hpa Heq1], (Hk2 _ Hr) as [Hpr Heq2]. split_and!; [done..|].
    intros b Hb. destruct (Ho' b Hb) as [-> ->]. split_and!; auto. }
  destruct o as [[]|e|m|]; cbn [bind_post]; [wp_value|..]; apply Hfin; intros b Hb; try done.
  by apply (inj Ok) in Hb as <-.
Qed.

Lemma patch_post_known j user w (K K' : list Tuple * list Tuple -> Prop) w1 o w' :
  (forall t, K' t -> K t) -> Perm.w_tuples w1 = Perm.w_tuples w -> tables (w_db w1) = tables (w_db w) ->
  patch_post j user w1 K o w' -> patch_post j user w K' o w'.
Proof.
  intros HK HT Ht (Ht' & added & removed & HX & Ha & Hr & Hk). split; [congruence|].
  exists added, removed. rewrite HT in HX, Ha, Hr. split_and!; auto.
Qed.

(** A plan that is applied as soon as it is made. *)
Lemma planned_wp fail j user w w1 (o : outcome (list Rel.RelationshipTuple * list Rel.RelationshipTuple))
    (K : list Tuple * list Tuple -> Prop) :
  Perm.w_tuples w1 = Perm.w_tuples w -> tables (w_db w1) = tables (w_db w) ->
  (forall t, K t -> exists p, o = Ok p /\ Forall2 (means j) p.1 t.1 /\ Forall2 (means j) p.2 t.2) ->
  wp (p ← lift o; applyPlan fail j user p) (patch_post j user w K) w1.
Proof.
  intros HT Ht HK. apply wp_bind. wp_value. destruct o as [p|e|m|]; cbn [bind_post]; [|by apply patched_nothing..].
  eapply wp_mono; [apply applyPlan_wp|]. intros o w2. apply patch_post_known; [|done|done].
  intros t Hkt. by destruct (HK t Hkt) as (p' & [= <-] & ? & ?).
Qed.

Lemma fetchObjUser_wp id w :
  wp (fetchObjUser id) (fun o w' => Perm.w_tuples w' = Perm.w_tuples w /\ tables (w_db w') = tables (w_db w) /\
    forall u, o = Ok u -> exists i, NewIdentity id = Ok i /\ u_Name u = i_Name i) w.
Proof.
  unfold fetchObjUser, IdentityManager.FetchIdentity. apply wp_map_err, wp_bind. wp_value.
  destruct (NewIdentity id) as [i|e|m|]; cbn [bind_post]; [|done..].
  apply wp_bind, Perm.wp_db. unfold db_FetchIdentity. destruct (decide _); [by wp_value|].
  apply wp_ready; [|done]. intros _ _. apply wp_zoom. eapply wp_mono; [apply law_first|].
  intros o t (Hrows & _ & Ho).
  destruct o as [row|e|m|]; cbn [bind_post]; [wp_value|..]; (split_and!; [done|unfold tables; simpl; by rewrite Hrows|done||idtac]).
  intros u Hu. apply (inj Ok) in Hu as <-. exists i. split; [done|]. destruct Ho as [_ Hn].
  unfold named in Hn. apply andb_true_iff in Hn as [_ Hn]. by apply bool_decide_eq_true in Hn.
Qed.

(** *** The texts of the handlers *)

Lemma TagString_suffix k i : TagString (MkTag k i) = k +:+ String "-" (i +:+ rel_suffix "").
Proof. unfold TagString, rel_suffix. simpl. by rewrite str_app_nil_r. Qed.

Lemma uuid_group g rel : uuid_entity (MkEntity GroupTagKind g rel) -> IsValidGroupId g = true.
Proof. intros (_ & _ & _ & [[Hk _]|[[_ Hv]|[Hk _]]]); [|done|done]. exfalso. revert Hk. by apply (bool_decide_unpack (_ ∉ _)). Qed.
Lemma uuid_role r rel : uuid_entity (MkEntity RoleTagKind r rel) -> IsValidRoleId r = true.
Proof. intros (_ & _ & _ & [[Hk _]|[[Hk _]|[_ Hv]]]); [|done|done]. exfalso. revert Hk. by apply (bool_decide_unpack (_ ∉ _)). Qed.

Lemma entitlements_mean j o text ps :
  resolvable o -> plain_relation (ERelation o) ->
  text = Ok (EKind o +:+ String "-" (EID o +:+ rel_suffix (ERelation o))) ->
  items entitlement_named ps ->
  exists p, planEntitlements text ps = Ok p /\
    Forall2 (means j) p.1 (to_add (grant o) ps) /\ Forall2 (means j) p.2 (to_remove (fun _ => true) (grant o) ps).
Proof.
  intros Ho Hro -> Hps. unfold planEntitlements.
  edestruct (planAll_means j (fun _ => true)) as (p & -> & Ha & Hr); [|by exists p].
  eapply Forall_impl; [exact Hps|]. intros x (Hv & Hrel & Hres). rewrite Hv. simpl. eexists. split; [done|].
  by apply means_edge.
Qed.

Lemma member_text g : WithMemberRelation (MkTag GroupTagKind g) = GroupTagKind +:+ String "-" (g +:+ rel_suffix MemberRelation).
Proof. unfold WithMemberRelation, TagString. by rewrite <- !str_app_assoc. Qed.
Lemma assignee_text r : WithAssigneeRelation (MkTag RoleTagKind r) = RoleTagKind +:+ String "-" (r +:+ rel_suffix AssigneeRelation).
Proof. unfold WithAssigneeRelation, TagString. by rewrite <- !str_app_assoc. Qed.

Lemma user_tag name : user_named (user_of name) -> IsValidUser name = true /\ NewUserTag name = Ok (MkTag UserTagKind name).
Proof. intros (_ & _ & _ & _ & _ & Hv & Hid). split; [done|]. unfold NewUserTag. simpl in *. by rewrite Hv, Hid. Qed.

(** What is known of a request: the tuples that it means, when its names are
    in order. *)
Definition known (req : patch_request) (t : list Tuple * list Tuple) : Prop :=
  exists name, stored_name req name /\ well_named name req /\ t = meant name req.

(** The guard of the handlers of groups and roles. *)
Lemma guarded_patch_wp (valid : bool) (tag : outcome Tag) msg (body : Tag -> M (World F T) bool) j user req w :
  (valid = true -> exists t, tag = Ok t /\ wp (body t) (patch_post j user w (known req)) w) ->
  wp (if negb valid then throw (NewValidationError msg) else (t ← lift tag; body t)) (patch_post j user w (known req)) w.
Proof.
  intros Hv. destruct valid; simpl; [|by apply patched_nothing].
  destruct (Hv eq_refl) as (t & -> & Hb). apply wp_bind. by wp_value.
Qed.

(** The side conditions of [means_edge] for these texts. *)
Ltac means_texts :=
  apply means_edge; first [done | by left | by right | apply plain_member | apply plain_none
                          | apply member_text | apply TagString_suffix].

(** The start of the handlers of identities. *)
Lemma identity_patch_wp id (body : User -> M (World F T) bool) j user req w :
  (forall name, stored_name req name -> exists i, NewIdentity id = Ok i /\ name = i_Name i) ->
  (forall u w1, Perm.w_tuples w1 = Perm.w_tuples w -> tables (w_db w1) = tables (w_db w) ->
     (forall name, stored_name req name -> u_Name u = name) -> wp (body u) (patch_post j user w (known req)) w1) ->
  wp (u ← fetchObjUser id; body u) (patch_post j user w (known req)) w.
Proof.
  intros Hst Hb. apply wp_bind. eapply wp_mono; [apply fetchObjUser_wp|]. intros o w1 (HT & Ht & Hu).
  destruct o as [u|e|m|]; cbn [bind_post]; [|by apply patched_nothing..].
  destruct (Hu u eq_refl) as (i & Hi & Hn). apply Hb; [done|done|]. intros name Hs.
  destruct (Hst name Hs) as (i' & Hi' & ->). congruence.
Qed.

Lemma object_tag u name :
  u_Name u = name -> user_named (user_of name) -> Identity_ResourceTag (u_Identity u) = Ok (MkTag UserTagKind name).
Proof. intros <- Hn. by apply user_tag. Qed.

Lemma run_patch_wp j ctx user req w :
  Middleware.hc_rebac ctx = Some user -> wp (run_patch j ctx req) (patch_post j user w (known req)) w.
Proof.
  intros Hc. assert (GetUserFromContext ctx = Ok user) as Hu by (unfold GetUserFromContext; by rewrite Hc).
  destruct req as [g ps|g ps|g ps|id ps|id ps|id ps|r ps]; simpl; apply wp_bind; unfold getUser; rewrite Hu;
    wp_value; cbn [bind_post].
  - apply guarded_patch_wp. intros Hv. eexists. split; [by apply NewGroupTag_valid|].
    apply planned_wp; [done|done|]. intros t (name & _ & [Hg Hps] & ->). apply plan_means.
    eapply Forall_impl; [exact Hps|]. intros p Hn. cbv beta in *. destruct (user_tag _ Hn) as [Hval Htag].
    rewrite Hval. simpl. rewrite Htag. simpl. eexists. split; [done|]. means_texts.
  - apply guarded_patch_wp. intros Hv. eexists. split; [by apply NewGroupTag_valid|].
    apply planned_wp; [done|done|]. intros t (name & _ & [Hg Hps] & ->). apply plan_means.
    eapply Forall_impl; [exact Hps|]. intros p Hn. cbv beta in *. pose proof (uuid_role _ _ Hn) as Hval.
    rewrite Hval. simpl. rewrite (NewRoleTag_valid _ Hval). simpl. eexists. split; [done|]. means_texts.
  - apply guarded_patch_wp. intros Hv. eexists. split; [by apply NewGroupTag_valid|].
    apply planned_wp; [done|done|]. intros t (name & _ & [Hg Hps] & ->).
    apply entitlements_mean; [by left|apply plain_member|by rewrite member_text|done].
  - apply (identity_patch_wp id); [done|]. intros u w1 HT Ht Hn.
    apply planned_wp; [done|done|]. intros t (name & Hs & [Hname Hps] & ->). apply plan_means.
    eapply Forall_impl; [exact Hps|]. intros p Hr. cbv beta in *. pose proof (uuid_role _ _ Hr) as Hval.
    rewrite Hval. simpl. rewrite (object_tag u name) by auto. simpl. rewrite (NewRoleTag_valid _ Hval). simpl.
    eexists. split; [done|]. means_texts.
  - apply (identity_patch_wp id); [done|]. intros u w1 HT Ht Hn.
    apply planned_wp; [done|done|]. intros t (name & Hs & [Hname Hps] & ->). apply plan_means.
    eapply Forall_impl; [exact Hps|]. intros p Hr. cbv beta in *. pose proof (uuid_group _ _ Hr) as Hval.
    rewrite Hval. simpl. rewrite (object_tag u name) by auto. simpl. rewrite (NewGroupTag_valid _ Hval). simpl.
    eexists. split; [done|]. means_texts.
  - apply (identity_patch_wp id); [done|]. intros u w1 HT Ht Hn.
    apply planned_wp; [done|done|]. intros t (name & Hs & [Hname Hps] & ->).
    apply entitlements_mean; [by right|apply plain_none| |done].
    rewrite (object_tag u name) by auto. simpl. f_equal. apply TagString_suffix.
  - apply guarded_patch_wp. intros Hv. eexists. split; [by apply NewRoleTag_valid|].
    apply planned_wp; [done|done|]. intros t (name & _ & [Hg Hps] & ->).
    apply entitlements_mean; [by left|apply plain_assignee|by rewrite assignee_text|done].
Qed.

(** C11.  A patch of the memberships, roles or entitlements of a group, a role
    or an identity changes only tuples that the caller may manage and no row;
    when its names are in order it has written the tuples that the items name,
    first those to add and then those to remove, all of them if it succeeds,
    and a first part of them if it fails. *)
Theorem patches_exact j ctx user req w w' o :
  Middleware.hc_rebac ctx = Some user -> run_patch j ctx req w = (w', o) ->
  tables (w_db w') = tables (w_db w) /\
  exists added removed,
    Perm.w_tuples w' = (Perm.w_tuples w ∪ list_to_set added) ∖ list_to_set removed /\
    Forall (Rel.may_manage (Perm.w_tuples w) user) added /\
    Forall (Rel.may_manage (Perm.w_tuples w ∪ list_to_set added) user) removed /\
    forall name, stored_name req name -> well_named name req ->
      added `prefix_of` (meant name req).1 /\ removed `prefix_of` (meant name req).2 /\
      forall b, o = Ok b -> b = true /\ added = (meant name req).1 /\ removed = (meant name req).2.
Proof.
  intros Hc Hrun.
  destruct (wp_elim _ _ _ _ _ (run_patch_wp j ctx user req w Hc) Hrun) as (Ht & added & removed & HX & Ha & Hr & Hk).
  split; [done|]. exists added, removed. split_and!; [done..|]. intros name Hs Hw. apply Hk. by exists name.
Qed.

(** ** Groups by id *)

Lemma GetGroupByUUID_wp user id w :
  wp (GroupManager.GetGroupByUUID user id) (fun o w' => answered o /\ w_fga w' = w_fga w /\
    tables (w_db w') = tables (w_db w) /\
    forall g, o = Ok g -> g ∈ rows (db_groups (w_db w)) /\ g_UUID g = id) w.
Proof.
  unfold GroupManager.GetGroupByUUID, GroupManager.getGroup, admin_only.
  destruct (JimmAdmin user); simpl; [|by wp_value]. apply Perm.wp_db, wp_run. intros d o Hrun.
  destruct (wp_elim _ _ _ _ _ (GetGroup_wp _ _) Hrun) as (Ha & Ht & Hg). split_and!; [done..|].
  intros g ->. destruct (Hg g eq_refl) as [Hin Hw]. split; [done|].
  pose proof (GetGroup_needs_key _ _ _ _ Hrun) as Hkey. simpl in Hkey.
  unfold group_where in Hw. simpl in Hw. rewrite (bool_decide_eq_false_2 (id = "")) in Hw by tauto.
  apply andb_true_iff in Hw as [Hw _]. simpl in Hw. by apply bool_decide_eq_true in Hw.
Qed.

(** Groups have names; a row without one is not removed. *)
Lemma RemoveGroup_unnamed fuel user w :
  wp (GroupManager.RemoveGroup fuel user "") (fun o _ => answered o /\ o <> Ok tt) w.
Proof.
  unfold GroupManager.RemoveGroup, admin_only. destruct (JimmAdmin user); simpl; [|by wp_value].
  apply wp_bind, Perm.wp_db. eapply wp_mono; [apply wp_reads_ready|]. intros o d0 [Ha0 _].
  destruct o as [[]|e|m|]; cbn [bind_post]; [|done..].
  apply wp_bind, Perm.wp_db, wp_run. intros d o Hrun.
  destruct (wp_elim _ _ _ _ _ (GetGroup_wp _ _) Hrun) as (Ha & _).
  destruct o as [g|e|m|]; cbn [bind_post]; [|done..].
  exfalso. by apply (GetGroup_needs_key _ _ _ _ Hrun).
Qed.

(** Deleting a group by its id ends; it answers true exactly after it has
    removed the row of the group with that id, and no other, and the tuples of
    that group; when it answers false nothing has changed. *)
Theorem DeleteGroup_effect fuel ctx user id w w' o :
  Middleware.hc_rebac ctx = Some user -> db_ok (w_db w) -> (size (Perm.w_tuples w) < fuel)%nat ->
  (forall flt, (size (public_matching flt (Perm.w_tuples w)) < 50)%nat) ->
  DeleteGroup fuel ctx id w = (w', o) ->
  o <> OutOfFuel /\
  (o = Ok false -> Perm.w_tuples w' = Perm.w_tuples w /\ tables (w_db w') = tables (w_db w)) /\
  (o = Ok true -> exists g tag, g ∈ rows (db_groups (w_db w)) /\ g_UUID g = id /\ Group_ResourceTag g = Ok tag /\
     rows (db_groups (w_db w')) = filter (fun r => g_ID r <> g_ID g) (rows (db_groups (w_db w))) /\
     Perm.w_tuples w' = Perm.w_tuples w ∖ removed_any (group_filters tag) (Perm.w_tuples w)).
Proof.
  intros Hc Hok Hf Hp. revert w' o. apply wp_run. unfold DeleteGroup, getUser, GetUserFromContext. rewrite Hc.
  apply wp_bind. wp_value. cbn [bind_post]. apply wp_bind, wp_try. eapply wp_mono; [apply GetGroupByUUID_wp|].
  intros o w1 (Ha & Hfga & Ht & Hg). assert (Perm.w_tuples w1 = Perm.w_tuples w) as HT by (unfold Perm.w_tuples; by rewrite Hfga).
  destruct o as [g|e|m|]; cbn [bind_post]; [|case_decide; by wp_value|by split_and!..].
  destruct (Hg g eq_refl) as [Hin Hid]. apply wp_bind. destruct (decide (g_Name g = "")) as [Hn|Hn].
  { rewrite Hn. eapply wp_mono; [apply RemoveGroup_unnamed|]. intros o w2 [Ha2 Hne].
    destruct o as [[]|e|m|]; cbn [bind_post]; [done|by split_and!..|done]. }
  eapply wp_mono; [apply RemoveGroup_wp; [done|by rewrite HT|intros flt; rewrite HT; apply Hp]|].
  intros o w2 [Ha2 Hpost]. destruct o as [[]|e|m|]; cbn [bind_post]; [|by split_and!..|done]. wp_value.
  split_and!; [done|done|]. intros _. destruct Hpost as [[? _]|(g' & Hin' & Hname & Hrows & [[? _]|(tag & Htag & _ & _ & HX)])]; [done|done|].
  rewrite (groups_of_tables _ _ Ht) in Hin', Hrows. rewrite HT in HX.
  assert (g' = g) as -> by (by apply (group_name_unique (w_db w))).
  exists g, tag. split_and!; [done..|by apply HX].
Qed.

End facts.

(** ** The advertised capabilities

    Creating identities is advertised and refused; the roles of an identity
    and the entitlements of a role are served and not advertised. *)

Definition advertised (endpoint method : string) : bool :=
  existsb (fun c => bool_decide (Endpoint c = endpoint /\ method ∈ Methods c)) capabilities.

Lemma capabilities_diverge `{RebacLib} {F T} (w : World F T) :
  advertised "/identities" "POST" = true /\
  CreateIdentity w = (w, Err (NewNotImplementedError "create identity not implemented")) /\
  advertised "/identities/{id}/roles" "PATCH" = false /\ advertised "/roles/{id}/entitlements" "PATCH" = false.
Proof. repeat split. Qed.

(** ** The advertised entitlements *)

(** The entities of a receiver type; [id] is the user, group or role. *)
Definition receiver (type id : string) : option Entity :=
  if decide (type = "user") then Some (user_of id)
  else if decide (type = "user:*") then Some (user_of "*")
  else if decide (type = "group#member") then Some (members id)
  else if decide (type = "role#assignee") then Some (MkEntity RoleTagKind id AssigneeRelation)
  else None.

(** The receiver type of a restriction of the authorisation model. *)
Definition receiver_type (rs : restriction) : string :=
  match rs with TyObj k => k | TyWild k => k +:+ ":*" | TyUserset k r => k +:+ "#" +:+ r end.

(** What the model allows and the list leaves out: groups of the identity
    provider, the relations between resources, roles, and adding models on a
    controller. *)
Definition unlisted (kind relation : string) (rs : restriction) : bool :=
  bool_decide (rs ∈ [TyUserset IdPGroupTagKind MemberRelation; TyObj ControllerTagKind; TyObj ModelTagKind]) ||
  bool_decide (kind ∈ [RoleTagKind; IdPGroupTagKind]) ||
  bool_decide (kind = ControllerTagKind /\ relation = CanAddModelRelation).

#[export] Instance EntitlementSchema_eq_dec : EqDecision EntitlementSchema.
Proof. solve_decision. Defined.

(** The restrictions that the receiver types of the list stand for. *)
Definition grantable : list restriction :=
  [TyObj UserTagKind; TyWild UserTagKind; TyUserset GroupTagKind MemberRelation; TyUserset RoleTagKind AssigneeRelation].

(** The two finite checks. *)
Definition listed_ok (e : EntitlementSchema) : bool :=
  match lookup_def (es_EntityType e) (es_Entitlement e) with
  | Some d => existsb (fun rs => bool_decide (receiver_type rs = es_ReceiverType e /\ rs ∈ grantable)) (rd_direct d)
  | None => false
  end.
Definition model_ok (k r : string) (d : relation_def) : bool :=
  forallb (fun rs => unlisted k r rs || bool_decide (MkSchema r (receiver_type rs) k ∈ entitlementsList)) (rd_direct d).

Lemma entitlements_checked :
  forallb listed_ok entitlementsList = true /\
  forallb (fun kd => forallb (fun rd => model_ok kd.1 rd.1 rd.2) kd.2) auth_model = true.
Proof. split; vm_compute; reflexivity. Qed.

Lemma receiver_admitted id o rs :
  receiver (receiver_type rs) id = Some o -> id <> "*" -> rs ∈ grantable -> admits o rs = true.
Proof.
  intros Hr Hid Hrs. unfold receiver in Hr.
  repeat (apply elem_of_cons in Hrs as [->|Hrs]; [simpl in Hr; injection Hr as <-; unfold admits; by apply bool_decide_eq_true_2|]).
  by apply elem_of_nil in Hrs.
Qed.

(** C38.  The advertised entitlements are those of the authorisation model: a
    stored tuple that grants an entry of the list to a receiver of its type on
    an entity of its type takes effect, and every grant that the model allows
    is in the list, except those of [unlisted]. *)
Theorem entitlements_well_typed :
  (forall T e id o t, e ∈ entitlementsList -> id <> "*" -> receiver (es_ReceiverType e) id = Some o ->
     EKind t = es_EntityType e -> edge o (es_Entitlement e) t ∈ T -> holds T o (es_Entitlement e) t) /\
  (forall k r d rs, lookup_def k r = Some d -> rs ∈ rd_direct d -> unlisted k r rs = false ->
     MkSchema r (receiver_type rs) k ∈ entitlementsList).
Proof.
  destruct entitlements_checked as [Hl Hm]. split.
  - intros T e id o t He Hid Hr Hk Ht. rewrite forallb_forall in Hl. apply list_elem_of_In, Hl in He.
    unfold listed_ok in He. destruct (lookup_def _ _) as [d|] eqn:Hd; [|done].
    apply existsb_exists in He as (rs & Hrs & Hb). apply bool_decide_eq_true in Hb as [Hty Hg].
    rewrite <- Hk in Hd. eapply holds_direct; [exact Hd|exact Ht|]. apply existsb_exists. exists rs. split; [done|].
    apply (receiver_admitted id); congruence.
  - intros k r d rs Hd Hrs Hu. pose proof (lookup_def_check model_ok _ _ _ Hm Hd) as Hok. unfold model_ok in Hok.
    rewrite forallb_forall in Hok. apply list_elem_of_In, Hok in Hrs. rewrite Hu in Hrs.
    by apply bool_decide_eq_true in Hrs.
Qed.

End Rebac.
