(* ===== verification/Witnesses.v ===== *)
(** * Witnesses: the properties at concrete inputs.

    One small deployment, on the reference service of [RefServer] and the
    reference tables of [RefDb]: the JIMM controller with one controller, one
    model of alice, an offer of the model, a cloud, a group and a role.  Each
    lemma applies one property to an operation evaluated on it. *)

From Stdlib Require Import Ascii.
From S2P Require Import Prelude Errors Regexp Names AuthModel RefServer OpenFGA Dbmodel Users Database RefDb Encoding Pagination TagResolver Access Relations Managers.

(** ** Concrete libraries *)

Definition user_char (c : ascii) : bool :=
  is_alnum c || is_char "." c || is_char "+" c || is_char "-" c || is_char "@" c.

Definition demo_kinds : list string :=
  [UserTagKind; ModelTagKind; ControllerTagKind; ApplicationOfferTagKind; CloudTagKind].

Definition demo_valid (kind id : string) : bool :=
  if decide (kind = CloudTagKind) then str_forall is_alnum id && bool_decide (id <> "")
  else if decide (kind = "cloudcred") then true
  else MatchString validGroupId id.

Definition demo_parse (tag : string) : outcome Tag :=
  match cut "-" tag with
  | Some (kind, id) =>
      if decide (kind ∈ demo_kinds) then Ok (MkTag kind id)
      else Err (Errorf "%q is not a valid tag" [ArgS tag])
  | None => Err (Errorf "%q is not a valid tag" [ArgS tag])
  end.

#[export] Instance demo_names : JujuNames := {|
  IsValidUser s := str_forall user_char s && bool_decide (s <> "");
  UserTagId s := s;
  UserTagDomain s := match cut "@" s with Some (_, d) => d | None => "" end;
  ValidTagId := demo_valid;
  juju_ParseTag := demo_parse;
|}.
#[export] Instance demo_hash : Hash := fun _ => "c0ffee".
#[export] Instance demo_uuids : UUIDs := fun n => "00000000-0000-4000-8000-0000000000a" +:+ pretty n.
#[export] Instance demo_uuid_parse : UUIDParse := fun s => MatchString validGroupId s.
#[export] Instance demo_groups : GroupFetcher := fun _ => Ok ["staff"].

(** ** The deployment *)

Definition uuid_n (n : nat) : string := "00000000-0000-4000-8000-00000000000" +:+ pretty n.
Definition jimm_tag := MkTag ControllerTagKind (uuid_n 1).
Definition ctl_tag := MkTag ControllerTagKind (uuid_n 2).
Definition model_tag := MkTag ModelTagKind (uuid_n 3).
Definition offer_tag := MkTag ApplicationOfferTagKind (uuid_n 4).
Definition group_tag := MkTag GroupTagKind (uuid_n 5).
Definition role_tag := MkTag RoleTagKind (uuid_n 6).
Definition cloud_tag := MkTag CloudTagKind "aws".
Definition alice_tag := MkTag UserTagKind "alice@canonical.com".
Definition bob_tag := MkTag UserTagKind "bob@canonical.com".
Definition eve_tag := MkTag UserTagKind "eve@canonical.com".
Definition alice := ConvertTag alice_tag.
Definition bob := ConvertTag bob_tag.
Definition eve := ConvertTag eve_tag.

Definition demo_tuples : list Tuple := [
  edge (ConvertTag jimm_tag) ControllerRelation (ConvertTag ctl_tag);
  edge (ConvertTag ctl_tag) ControllerRelation (ConvertTag model_tag);
  edge (ConvertTag ctl_tag) ControllerRelation (ConvertTag cloud_tag);
  edge (ConvertTag model_tag) ModelRelation (ConvertTag offer_tag);
  edge alice AdministratorRelation (ConvertTag model_tag);
  edge alice AdministratorRelation (ConvertTag cloud_tag);
  edge alice AdministratorRelation (ConvertTag jimm_tag);
  edge bob MemberRelation (ConvertTag group_tag);
  edge (ConvertTagWithRelation group_tag MemberRelation) CanAddModelRelation (ConvertTag cloud_tag);
  edge (ConvertTagWithRelation group_tag MemberRelation) ReaderRelation (ConvertTag model_tag);
  edge eve AssigneeRelation (ConvertTag role_tag);
  edge (MkEntity UserTagKind "gone@canonical.com" "") ReaderRelation
       (MkEntity ModelTagKind (uuid_n 9) "")].

Definition demo_identity (n : Z) (name : string) : Identity :=
  setDisplayName (with_key n 1 1 (with_Name zeroIdentity name)).

Definition demo_controller : Controller :=
  MkController 1 "prod" (uuid_n 2) "3.6.30" "" "prod.example.com:443" "" "aws" "eu" false [] None.
Definition demo_model : Model := MkModel 1 "web" (Some (uuid_n 3)) "alice@canonical.com" 1 1 1 "alive" "".

Definition demo_db : Db Tbl := MkDb true true 0
  (MkTbl [MkGroup 1 1 1 "devs" (uuid_n 5)] false)
  (MkTbl [MkRole 1 1 1 "operators" (uuid_n 6)] false)
  (MkTbl [demo_identity 1 "alice@canonical.com"; demo_identity 2 "bob@canonical.com"] false)
  (MkTbl [demo_controller] false)
  (MkTbl [demo_model] false)
  (MkTbl [MkOffer 1 1 "db" (uuid_n 4) "alice@canonical.com/web.db"] false)
  (MkTbl [MkCloud 1 "aws" "ec2" "" ["access-key"] noEndpoints [] false None] false)
  (MkTbl [MkMapping 1 1 1 (Some (uuid_n 3)) "bob" "bob@canonical.com"] false)
  (MkTbl [MkCredential 1 "default" "aws" "alice@canonical.com" "access-key" (Some true)] false)
  (MkTbl [MkDefaults 1 "alice@canonical.com" 1 "" {["logging-config" := AnyString "INFO"]}] false)
  (MkMore (MkTbl [MkRegion 1 "aws" "eu" noEndpoints None false] false)
     (MkTbl [MkPriority 1 1 1 CloudRegionControllerPriorityDeployed] false) (MkTbl [] false) (MkTbl [] false)
     (MkTbl [MkSSHKey 1 "alice@canonical.com" (uuid_n 3) "ssh-ed25519 AAAA" "00:11" "alice@laptop"] false) (MkTbl [] false) (MkTbl [] false)).

Definition demo : World Ref Tbl := MkWorld (MkRef demo_tuples false) demo_db.
Definition demo_manager : PermissionManager := MkManager (uuid_n 1) jimm_tag.

Definition session (name : string) (admin : bool) (groups : list string) : User :=
  MkUser (demo_identity 1 name) true admin groups.
Definition alice_session := session "alice@canonical.com" false ["staff"].
Definition bob_session := session "bob@canonical.com" false [].
Definition admin_session := session "alice@canonical.com" true [].

(** The world after a run, and the run as an equation. *)
Lemma run_eq {W A} (m : M W A) w o : (m w).2 = o -> m w = ((m w).1, o).
Proof. intros <-. apply surjective_pairing. Defined.

Lemma demo_db_ok : db_ok demo_db.
Proof. split_and!; apply uniqueb_sound; vm_compute; reflexivity. Defined.

Lemma size_list_to_set_le (L : list Tuple) : (size (list_to_set L : gset Tuple) <= length L)%nat.
Proof.
  induction L as [|t L IH]; [done|]. simpl. rewrite size_union_alt.
  pose proof (subseteq_size (list_to_set L ∖ {[t]} : gset Tuple) (list_to_set L) ltac:(set_solver)) as Hle.
  rewrite size_singleton. lia.
Defined.

Lemma demo_size n : (12 < n)%nat -> (size (Perm.w_tuples demo) < n)%nat.
Proof. intros Hn. eapply Nat.le_lt_trans; [apply size_list_to_set_le|exact Hn]. Defined.

Lemma demo_size_S n : (13 < n)%nat -> (S (size (Perm.w_tuples demo)) < n)%nat.
Proof. destruct n as [|n]; intros Hn; [lia|]. apply (proj1 (Nat.succ_lt_mono _ _)), demo_size. lia. Defined.

Lemma matching_size n f flt :
  (length (ref_list f) < n)%nat -> (size (public_matching flt (srv_tuples f)) < n)%nat.
Proof.
  intros Hn. pose proof (size_list_to_set_le (ref_list f)) as Hle. eapply Nat.le_lt_trans; [|exact Hn].
  etrans; [apply subseteq_size|exact Hle]. unfold public_matching, matching. set_solver.
Defined.

(** A relation that the search refutes does not hold. *)
Lemma refuted L o r t : check ref_depth L o r t = Some false -> ~ holds (list_to_set L) o r t.
Proof. intros Hc Hh. by apply (check_complete ref_depth L o r t Hh). Defined.

Lemma no_access w u e ctx r g :
  user_entity u = Ok e -> ContextualTuples u = Ok ctx ->
  check ref_depth (ref_list (w_fga w) ++ ctx) e r g = Some false ->
  ~ has_access (Perm.w_tuples (T:=Tbl) w) u r g.
Proof.
  intros He Hctx Hc (e' & ctx' & He' & Hctx' & Hh). rewrite He in He'. rewrite Hctx in Hctx'.
  injection He' as <-. injection Hctx' as <-. apply refuted in Hc. apply Hc.
  rewrite list_to_set_app_L. exact Hh.
Defined.

(** ** Relations *)

Definition share (who what : string) : list Rel.RelationshipTuple :=
  [Rel.MkRelTuple ("user-" +:+ who +:+ "@canonical.com") "reader" what].
Definition on_model : string := "model-" +:+ uuid_n 3.

(** alice shares her model; the JIMM controller is out of bob's reach. *)
Lemma relation_updates_confined_witness :
  let r := Rel.update_run false demo_manager bob_session (share "eve" on_model) demo in
  (holds (Perm.w_tuples r.1) eve ReaderRelation (ConvertTag model_tag) <->
   holds (Perm.w_tuples demo) eve ReaderRelation (ConvertTag model_tag)).
Proof.
  intros r. apply (Rel.relation_updates_confined false demo_manager bob_session (share "eve" on_model)
    demo r.1 r.2 eve ReaderRelation (ConvertTag model_tag)).
  - reflexivity.
  - apply surjective_pairing.
  - apply (no_access demo bob_session bob []); vm_compute; reflexivity.
Defined.

Lemma relation_updates_authorised_witness :
  let r := Rel.update_run false demo_manager alice_session (share "eve" on_model) demo in
  r.2 = Ok tt /\
  exists written, Perm.w_tuples r.1 = Perm.w_tuples demo ∪ list_to_set written /\
    Forall (Rel.may_manage (Perm.w_tuples demo) alice_session) written /\ length written = 1%nat.
Proof.
  intros r. assert (r.2 = Ok tt) as Hok by (vm_compute; reflexivity). split; [exact Hok|].
  destruct (Rel.relation_updates_authorised false demo_manager alice_session (share "eve" on_model)
    demo r.1 (Ok tt)) as (_ & _ & written & Hw & Hm & Hall).
  - apply run_eq, Hok.
  - exists written. split_and!; [exact Hw|exact Hm|]. destruct Hall as [[_ Hne]|(rest & Hall & Hrest)]; [by destruct Hne|].
    rewrite (Hrest eq_refl), app_nil_r in Hall. symmetry. apply (Forall2_length _ _ _ Hall).
Defined.

Lemma structure_admin_only_witness :
  let t := Rel.MkRelTuple ("controller-" +:+ uuid_n 2) "controller" on_model in
  let r := Rel.update_run true demo_manager alice_session [t] demo in
  (exists e, r.2 = Err e) /\
  (edge (ConvertTag ctl_tag) ControllerRelation (ConvertTag model_tag) ∈ Perm.w_tuples r.1 <->
   edge (ConvertTag ctl_tag) ControllerRelation (ConvertTag model_tag) ∈ Perm.w_tuples demo).
Proof.
  intros t r. split; [eexists; vm_compute; reflexivity|].
  apply (Rel.structure_admin_only true demo_manager alice_session [t] demo r.1 r.2).
  - reflexivity.
  - apply surjective_pairing.
  - apply elem_of_cons. by left.
Defined.

Lemma CheckRelation_sound_witness :
  let rt := Rel.MkRelTuple "user-bob@canonical.com" "reader" on_model in
  let r := Rel.CheckRelation demo_manager alice_session rt false demo in
  r.2 = Ok true /\
  exists t ctx,
    (Rel.userCheckingSelf alice_session t = true \/ Rel.may_manage (Perm.w_tuples demo) alice_session t) /\
    check_answer (Perm.w_tuples demo) t ctx true.
Proof.
  intros rt r. assert (r.2 = Ok true) as Hok by (vm_compute; reflexivity). split; [exact Hok|].
  destruct (Rel.CheckRelation_sound demo_manager alice_session rt false demo r.1 true) as (_ & _ & t & ctx & Hr & Hm & Hs & Ha).
  - apply run_eq, Hok.
  - exists t, ctx. split; [|exact Ha]. exact Hm.
Defined.

Lemma CheckRelations_sound_witness :
  let tuples := Rel.MkRelTuple "user-bob@canonical.com" "reader" on_model :: share "eve" "model-nope" in
  let r := Rel.CheckRelations demo_manager alice_session tuples demo in
  exists a b, r.2 = Ok [a; b] /\ Rel.Allowed a = true /\ Rel.Allowed b = false /\
    Rel.result_ok (Perm.w_tuples demo) alice_session tuples 0 a.
Proof.
  intros tuples r. destruct r.2 as [[|a [|b [|]]]| | |] eqn:Ho; try (vm_compute in Ho; discriminate Ho).
  exists a, b. split; [reflexivity|].
  destruct (Rel.CheckRelations_sound demo_manager alice_session tuples demo r.1 [a; b] (run_eq _ _ _ Ho))
    as (_ & _ & _ & Hall).
  split_and!; [|vm_compute in Ho; injection Ho as <- <-; reflexivity..|apply Hall; reflexivity].
  vm_compute in Ho; injection Ho as <- <-; reflexivity.
Defined.

Lemma getObjectRelationsPage_terminates_witness :
  let r := Rel.getObjectRelationsPage 8 demo_manager "user-alice@canonical.com" "" 10 "" demo in
  r.2 <> OutOfFuel /\ Perm.w_tuples r.1 = Perm.w_tuples demo.
Proof.
  intros r. destruct (Rel.getObjectRelationsPage_terminates demo_manager "user-alice@canonical.com" "" 10 ""
    demo r.1 r.2) as (Hf & Ht & _); [lia|apply surjective_pairing|]. split; [exact Hf|exact Ht].
Defined.

(** ** Access *)

Lemma demo_subjects :
  Perm.subject alice_tag = Ok alice /\ Perm.subject bob_tag = Ok bob /\ Perm.subject eve_tag = Ok eve.
Proof. split_and!; vm_compute; reflexivity. Defined.

Lemma GrantModelAccess_refines_witness :
  let r := Perm.GrantModelAccess alice_session model_tag bob_tag "write" demo in
  r.2 = Ok tt /\ holds (Perm.w_tuples r.1) bob WriterRelation (ConvertTag model_tag).
Proof.
  intros r. assert (r.2 = Ok tt) as Hok by (vm_compute; reflexivity). split; [exact Hok|].
  destruct (Perm.GrantModelAccess_refines alice_session model_tag bob_tag bob "write" demo r.1 (Ok tt)
    demo_db_ok ltac:(apply demo_subjects) eq_refl (run_eq _ _ _ Hok))
    as (_ & _ & _ & rel & c & Hrel & _ & _ & Hh). injection Hrel as <-. exact Hh.
Defined.


Lemma GrantCloudAccess_refines_witness :
  let r := Perm.GrantCloudAccess alice_session cloud_tag eve_tag "add-model" demo in
  r.2 = Ok tt /\ holds (Perm.w_tuples r.1) eve CanAddModelRelation (ConvertTag cloud_tag).
Proof.
  intros r. assert (r.2 = Ok tt) as Hok by (vm_compute; reflexivity). split; [exact Hok|].
  destruct (Perm.GrantCloudAccess_refines alice_session cloud_tag eve_tag eve "add-model" demo r.1 (Ok tt)
    demo_db_ok ltac:(apply demo_subjects) eq_refl (run_eq _ _ _ Hok))
    as (_ & _ & _ & rel & c & Hrel & _ & _ & Hh). injection Hrel as <-. exact Hh.
Defined.

Lemma RevokeCloudAccess_refines_witness :
  let r := Perm.RevokeCloudAccess 20 alice_session cloud_tag alice_tag "admin" demo in
  r.2 = Ok tt /\
  Perm.revoke_post Perm.cloud_levels (fun _ => NoRelation) (Perm.ToCloudRelation "admin") alice_session
    (ConvertTag cloud_tag) alice (Perm.w_tuples demo) (Ok tt) r.1.
Proof.
  intros r. assert (r.2 = Ok tt) as Hok by (vm_compute; reflexivity). split; [exact Hok|].
  apply (Perm.RevokeCloudAccess_refines 20 alice_session cloud_tag alice_tag alice "admin" demo r.1 (Ok tt)).
  - exact demo_db_ok.
  - apply demo_subjects.
  - apply demo_size_S. lia.
  - apply run_eq, Hok.
Defined.

(** A group that contains itself: the service answers for alice, whose tuple is
    direct, and gives up on bob. *)
Definition cyclic : Ref := MkRef [
  edge alice AdministratorRelation (ConvertTag model_tag);
  edge (ConvertTagWithRelation group_tag MemberRelation) AdministratorRelation (ConvertTag model_tag);
  edge (ConvertTagWithRelation group_tag MemberRelation) MemberRelation (ConvertTag group_tag)] false.

Lemma RevokeModelAccess_masks_failure_witness :
  let w := MkWorld cyclic demo_db in
  let r := Perm.RevokeModelAccess 20 alice_session model_tag bob_tag "read" w in
  r.2 = Ok tt /\ srv_tuples (w_fga r.1) = Perm.w_tuples w.
Proof.
  intros w r.
  destruct (Perm.RevokeModelAccess_masks_failure 20 alice_session model_tag bob_tag "read" ReaderRelation w
    cyclic demo_db (demo_identity 2 "bob@canonical.com") cyclic ref_too_deep) as [Hrun Ht].
  - vm_compute. reflexivity.
  - vm_compute. reflexivity.
  - vm_compute. reflexivity.
  - vm_compute. reflexivity.
  - unfold r. rewrite Hrun. split; [reflexivity|exact Ht].
Defined.

Definition offer_url : string := "alice@canonical.com/web.db".

Definition new_eve : Identity := setDisplayName (with_Name zeroIdentity "eve@canonical.com").

Lemma GrantOfferAccess_refines_witness :
  let r := Perm.GrantOfferAccess alice_session offer_url eve_tag "consume" demo in
  r.2 = Ok tt /\ exists g, holds (Perm.w_tuples r.1) eve ConsumerRelation (ConvertTag g).
Proof.
  intros r. assert (r.2 = Ok tt) as Hok by (vm_compute; reflexivity). split; [exact Hok|].
  destruct (Perm.GrantOfferAccess_refines alice_session offer_url eve_tag new_eve eve
    "consume" ConsumerRelation demo r.1 (Ok tt)) as (_ & _ & a & g & c & _ & _ & _ & _ & _ & _ & Hh).
  - vm_compute. reflexivity.
  - vm_compute. reflexivity.
  - apply elem_of_cons. right. apply elem_of_cons. by left.
  - reflexivity.
  - apply run_eq, Hok.
  - exists g. exact Hh.
Defined.

Lemma RevokeOfferAccess_sound_witness :
  let r := Perm.RevokeOfferAccess alice_session offer_url eve_tag "read" demo in
  r.2 = Ok tt /\ tables (w_db r.1) = tables (w_db demo) /\
  exists g, Perm.w_tuples r.1 = Perm.w_tuples demo ∖ {[edge eve ReaderRelation (ConvertTag g)]}.
Proof.
  intros r. assert (r.2 = Ok tt) as Hok by (vm_compute; reflexivity). split; [exact Hok|].
  destruct (Perm.RevokeOfferAccess_sound alice_session offer_url eve_tag new_eve eve
    "read" ReaderRelation demo r.1 (Ok tt)) as (_ & Ht & [[Hne _]|(a & g & _ & _ & _ & _ & Hw & _)]).
  - vm_compute. reflexivity.
  - vm_compute. reflexivity.
  - apply elem_of_cons. right. apply elem_of_cons. right. apply elem_of_cons. by left.
  - reflexivity.
  - apply run_eq, Hok.
  - destruct (Hne eq_refl).
  - split; [exact Ht|]. exists g. exact Hw.
Defined.

Lemma AuditLogAccess_admin_only_witness :
  let r := Perm.GrantAuditLogAccess demo_manager admin_session bob_tag demo in
  let t := edge bob AuditLogViewerRelation (ConvertTag jimm_tag) in
  r.2 = Ok tt /\ Perm.w_tuples r.1 = Perm.w_tuples demo ∪ {[t]}.
Proof.
  intros r t. assert (r.2 = Ok tt) as Hok by (vm_compute; reflexivity). split; [exact Hok|].
  destruct (Perm.AuditLogAccess_admin_only false demo_manager admin_session bob_tag bob demo r.1 (Ok tt))
    as (_ & _ & _ & Hw).
  - exact demo_db_ok.
  - apply demo_subjects.
  - apply run_eq, Hok.
  - exact Hw.
Defined.

Definition desired : list (string * goany) := [(on_model, AnyString "admin")].

Lemma CheckPermission_cache_sound_witness :
  let r := Perm.CheckPermission alice_session ∅ desired demo in
  exists res, r.2 = Ok res /\ Perm.perm_err res = None /\ Perm.cache_sound (Perm.w_tuples demo) alice_session ∅ desired res.
Proof.
  intros r. destruct r.2 as [res| | |] eqn:Ho; try (vm_compute in Ho; discriminate Ho).
  exists res. split; [reflexivity|]. split; [vm_compute in Ho; injection Ho as <-; reflexivity|].
  apply (Perm.CheckPermission_cache_sound alice_session ∅ desired demo r.1 res). apply run_eq, Ho.
Defined.

Lemma OpenFGACleanup_only_orphans_witness :
  let r := Perm.OpenFGACleanup 3 (fun _ => false) demo_manager demo in
  let t := edge (MkEntity UserTagKind "gone@canonical.com" "") ReaderRelation (MkEntity ModelTagKind (uuid_n 9) "") in
  r.2 = Ok tt /\ t ∈ Perm.w_tuples demo /\ (t ∉ Perm.w_tuples r.1) /\ Perm.orphan demo_manager demo_db t.
Proof.
  intros r t. assert (r.2 = Ok tt) as Hok by (vm_compute; reflexivity).
  assert (t ∈ Perm.w_tuples demo) as Hin.
  { apply elem_of_list_to_set, (bool_decide_unpack _). vm_compute. exact I. }
  assert (t ∉ Perm.w_tuples r.1) as Hout.
  { intros Ht. apply elem_of_list_to_set in Ht. apply (bool_decide_pack _) in Ht. vm_compute in Ht. destruct Ht. }
  split_and!; [exact Hok|exact Hin|exact Hout|].
  apply (Perm.OpenFGACleanup_only_orphans 3 (fun _ => false) demo_manager demo r.1 (Ok tt)); [|exact Hin|exact Hout].
  apply run_eq, Hok.
Defined.

(** ** Users *)

Lemma GetModelAccess_highest_witness :
  let r := GetModelAccess alice_session model_tag (w_fga demo) in
  r.2 = Ok AdministratorRelation /\
  ladder_answer (Perm.w_tuples demo) alice_session (ConvertTag model_tag)
    [AdministratorRelation; WriterRelation; ReaderRelation] AdministratorRelation.
Proof.
  intros r. assert (r.2 = Ok AdministratorRelation) as Hok by (vm_compute; reflexivity). split; [exact Hok|].
  destruct (GetModelAccess_highest alice_session model_tag (w_fga demo) r.1 AdministratorRelation)
    as (_ & [Hno|Hl] & _).
  - apply run_eq, Hok.
  - discriminate Hno.
  - exact Hl.
Defined.

Lemma ContextualTuples_isolated_witness :
  let T : gset Tuple := list_to_set demo_tuples in
  let staff := MkEntity IdPGroupTagKind "staff" "" in
  (holds (T ∪ list_to_set [edge alice MemberRelation staff]) bob MemberRelation staff <->
   holds T bob MemberRelation staff).
Proof.
  intros T staff. apply (ContextualTuples_isolated T alice_session alice [edge alice MemberRelation staff]).
  - vm_compute. reflexivity.
  - discriminate.
  - vm_compute. reflexivity.
  - discriminate.
Defined.

Lemma ContextualTuples_total_witness :
  ContextualTuples alice_session = Ok (idp_tuples alice ["staff"]).
Proof.
  apply (ContextualTuples_total alice_session alice).
  - vm_compute. reflexivity.
  - split; [vm_compute; lia|]. repeat constructor.
Defined.

Lemma UnsetModelAccess_exact_witness :
  let r := UnsetModelAccess 13 alice_session model_tag [AdministratorRelation; ReaderRelation] (w_fga demo) in
  r.2 = Ok tt /\ srv_tuples r.1 = srv_tuples (w_fga demo) ∖ list_to_set
    ((fun r => edge alice r (ConvertTag model_tag)) <$> [AdministratorRelation; ReaderRelation]).
Proof.
  intros r. assert (r.2 = Ok tt) as Hok by (vm_compute; reflexivity). split; [exact Hok|].
  destruct (UnsetModelAccess_exact 13 alice_session alice model_tag [AdministratorRelation; ReaderRelation]
    (w_fga demo) r.1 (Ok tt)) as [_ Hr].
  - vm_compute. reflexivity.
  - apply (demo_size 13). lia.
  - apply run_eq, Hok.
  - exact Hr.
Defined.

Lemma CheckPermission_sound_witness :
  let r := CheckPermission alice_session on_model "admin" (w_fga demo) in
  r.2 = Ok tt /\ exists t, juju_ParseTag on_model = Ok t /\
    has_access (srv_tuples (w_fga demo)) alice_session (permission_relation "admin") (ConvertGenericTag t).
Proof.
  intros r. assert (r.2 = Ok tt) as Hok by (vm_compute; reflexivity). split; [exact Hok|].
  apply (CheckPermission_sound alice_session on_model "admin" (w_fga demo) r.1). apply run_eq, Hok.
Defined.

Lemma ListModels_sound_witness :
  let r := ListModels bob_session ReaderRelation (w_fga demo) in
  r.2 = Ok [uuid_n 3] /\
  exists rel, has_access (srv_tuples (w_fga demo)) bob_session ReaderRelation (MkEntity ModelTagKind (uuid_n 3) rel).
Proof.
  intros r. assert (r.2 = Ok [uuid_n 3]) as Hok by (vm_compute; reflexivity). split; [exact Hok|].
  apply (ListModels_sound bob_session ReaderRelation (w_fga demo) r.1 [uuid_n 3]); [apply run_eq, Hok|].
  apply elem_of_cons. by left.
Defined.

(** ** The OpenFGA client *)

Lemma removeTuples_exact_witness :
  let flt := MkTuple None "" (Some (ConvertTag model_tag)) in
  let f := w_fga demo in
  let r := removeTuples 13 flt f in
  r.2 = Ok tt /\ srv_tuples r.1 = srv_tuples f ∖ removed flt (srv_tuples f).
Proof.
  intros flt f r. assert (r.2 = Ok tt) as Hok by (vm_compute; reflexivity). split; [exact Hok|].
  destruct (removeTuples_exact 13 flt f r.1 (Ok tt)) as (_ & _ & _ & Hr).
  - intros o Ho. discriminate Ho.
  - eapply Nat.le_lt_trans; [|apply (demo_size 13); lia]. apply subseteq_size. unfold removed. set_solver.
  - apply matching_size. vm_compute. lia.
  - apply run_eq, Hok.
  - exact (Hr eq_refl).
Defined.

Lemma RemoveModel_exact_witness :
  let f := w_fga demo in
  let r := OpenFGA.RemoveModel 13 model_tag f in
  r.2 = Ok tt /\ srv_tuples r.1 = srv_tuples f ∖ removed_any (model_filters model_tag) (srv_tuples f).
Proof.
  intros f r. assert (r.2 = Ok tt) as Hok by (vm_compute; reflexivity). split; [exact Hok|].
  destruct (RemoveModel_exact 13 model_tag f r.1 (Ok tt)) as (_ & _ & _ & Hr).
  - reflexivity.
  - apply (demo_size 13). lia.
  - apply matching_size. vm_compute. lia.
  - apply run_eq, Hok.
  - exact (Hr eq_refl).
Defined.

Lemma RemoveGroup_keeps_cloud_grants_witness :
  let f := w_fga demo in
  let r := OpenFGA.RemoveGroup 13 group_tag f in
  r.2 = Ok tt /\
  edge (ConvertTagWithRelation group_tag MemberRelation) CanAddModelRelation (MkEntity CloudTagKind "aws" "")
    ∈ srv_tuples r.1.
Proof.
  intros f r. assert (r.2 = Ok tt) as Hok by (vm_compute; reflexivity). split; [exact Hok|].
  apply (RemoveGroup_keeps_cloud_grants 13 group_tag f r.1 CanAddModelRelation "aws").
  - reflexivity.
  - apply (demo_size 13). lia.
  - apply matching_size. vm_compute. lia.
  - apply run_eq, Hok.
  - apply elem_of_list_to_set, (bool_decide_unpack _). vm_compute. exact I.
Defined.

Definition two_checks : list TupleWithCorrelationId :=
  [MkTWC (edge bob ReaderRelation (ConvertTag model_tag)) "a" [];
   MkTWC (edge eve ReaderRelation (ConvertTag model_tag)) "b" []].


(** ** The managers *)

Lemma RemoveGroup_effect_witness :
  let r := GroupManager.RemoveGroup 13 admin_session "devs" demo in
  r.2 = Ok tt /\ remove_group_post "devs" demo (Ok tt) r.1.
Proof.
  intros r. assert (r.2 = Ok tt) as Hok by (vm_compute; reflexivity). split; [exact Hok|].
  apply (RemoveGroup_effect 13 admin_session "devs" demo r.1 (Ok tt)).
  - discriminate.
  - apply demo_size. lia.
  - intros flt. apply matching_size. vm_compute. lia.
  - apply run_eq, Hok.
Defined.

Lemma RemoveRole_effect_witness :
  let r := RoleManager.RemoveRole 13 admin_session "operators" demo in
  r.2 = Ok tt /\ remove_role_post "operators" demo (Ok tt) r.1.
Proof.
  intros r. assert (r.2 = Ok tt) as Hok by (vm_compute; reflexivity). split; [exact Hok|].
  apply (RemoveRole_effect 13 admin_session "operators" demo r.1 (Ok tt)).
  - discriminate.
  - apply demo_size. lia.
  - intros flt. apply matching_size. vm_compute. lia.
  - apply run_eq, Hok.
Defined.

Lemma RenameGroup_atomic_witness :
  let r := GroupManager.RenameGroup admin_session "devs" "engineers" demo in
  r.2 = Ok tt /\ db_ok (w_db r.1) /\ g_Name <$> rows (db_groups (w_db r.1)) = ["engineers"].
Proof.
  intros r. assert (r.2 = Ok tt) as Hok by (vm_compute; reflexivity). split; [exact Hok|].
  destruct (RenameGroup_atomic admin_session "devs" "engineers" demo r.1 (Ok tt)) as (_ & _ & Hdb & _).
  - exact demo_db_ok.
  - discriminate.
  - apply run_eq, Hok.
  - split; [exact Hdb|]. vm_compute. reflexivity.
Defined.

(** ** The database *)


Lemma AddGroup_GetGroup_roundtrip_witness :
  let r := Database.AddGroup "ops" demo_db in
  exists g, r.2 = Ok g /\ g_Name g = "ops" /\ g_UUID g = uuid_at 0.
Proof.
  intros r. destruct r.2 as [g| | |] eqn:Ho; try (vm_compute in Ho; discriminate Ho).
  set (r2 := GetGroup (MkGroup 0 0 0 "ops" "") r.1).
  assert (r2.2 = Ok g) as Ho2 by (vm_compute in Ho; injection Ho as <-; vm_compute; reflexivity).
  destruct (AddGroup_GetGroup_roundtrip demo_db r.1 g "ops" (MkGroup 0 0 0 "ops" "") r2.1 g) as (_ & Hn & Hu & _).
  - exact demo_db_ok.
  - apply run_eq, Ho.
  - by left.
  - apply run_eq, Ho2.
  - exists g. split_and!; [reflexivity|exact Hn|exact Hu].
Defined.

Lemma GetIdentity_idempotent_witness :
  let u := with_Name zeroIdentity "eve@canonical.com" in
  let r := GetIdentity u demo_db in
  exists i, r.2 = Ok i /\ i_Name i = "eve@canonical.com" /\ i ∈ rows (db_identities r.1).
Proof.
  intros u r. destruct r.2 as [i| | |] eqn:Ho; try (vm_compute in Ho; discriminate Ho).
  set (r2 := GetIdentity u r.1).
  assert (r2.2 = Ok i) as Ho2 by (vm_compute in Ho; injection Ho as <-; vm_compute; reflexivity).
  destruct (GetIdentity_idempotent demo_db r.1 i u r2.1 i) as (Hn & Hin & _).
  - exact demo_db_ok.
  - apply run_eq, Ho.
  - apply run_eq, Ho2.
  - exists i. split_and!; [reflexivity|exact Hn|exact Hin].
Defined.

(** ** Tags *)

Lemma ToJAASTag_parse_roundtrip_witness :
  exists s, ToJAASTag demo_manager (ConvertTagWithRelation group_tag MemberRelation) false demo_db = (demo_db, Ok s) /\
    parseAndValidateTag demo_manager s demo_db = (demo_db, Ok (ConvertTagWithRelation group_tag MemberRelation)).
Proof.
  apply (ToJAASTag_parse_roundtrip demo_manager (ConvertTagWithRelation group_tag MemberRelation) demo_db).
  - left. split_and!; [vm_compute; reflexivity|discriminate|vm_compute; reflexivity|].
    right. left. split; vm_compute; reflexivity.
  - split; [vm_compute; reflexivity|]. apply (bool_decide_unpack _). vm_compute. exact I.
Defined.

Lemma group_name_roundtrip_witness :
  let g := MkGroup 1 1 1 "devs" (uuid_n 5) in
  let r := ToJAASTag demo_manager (MkEntity GroupTagKind (uuid_n 5) MemberRelation) true demo_db in
  let r2 := parseAndValidateTag demo_manager "group-devs#member" r.1 in
  r.2 = Ok "group-devs#member" /\ r2.2 = Ok (MkEntity GroupTagKind (uuid_n 5) MemberRelation) /\
  tables r2.1 = tables demo_db.
Proof.
  intros g r r2. assert (r.2 = Ok "group-devs#member") as Ho by (vm_compute; reflexivity).
  assert (r2.2 = Ok (MkEntity GroupTagKind (uuid_n 5) MemberRelation)) as Ho2 by (vm_compute; reflexivity).
  split_and!; [exact Ho|exact Ho2|].
  apply (group_name_roundtrip demo_manager g MemberRelation demo_db r.1 "group-devs#member" r2.1
    (MkEntity GroupTagKind (uuid_n 5) MemberRelation)).
  - exact demo_db_ok.
  - apply elem_of_cons. by left.
  - vm_compute. reflexivity.
  - discriminate.
  - vm_compute. reflexivity.
  - vm_compute. reflexivity.
  - split; [vm_compute; reflexivity|]. apply (bool_decide_unpack _). vm_compute. exact I.
  - apply run_eq, Ho.
  - apply run_eq, Ho2.
Defined.

Lemma ParseTag_String_roundtrip_witness : ParseTag (TagString group_tag) = Ok group_tag.
Proof. apply (ParseTag_String_roundtrip group_tag). vm_compute. reflexivity. Defined.

#[export] Instance demo_hash_laws : HashLaws.
Proof. intros s. reflexivity. Defined.

Lemma NewIdentity_stable_witness :
  exists i, NewIdentity "al_ice@canonical.com" = Ok i /\ str_forall safe_char (i_Name i) = true.
Proof.
  destruct (NewIdentity "al_ice@canonical.com") as [i| | |] eqn:Hi; try (vm_compute in Hi; discriminate Hi).
  exists i. split; [reflexivity|]. apply (NewIdentity_stable "al_ice@canonical.com" i Hi).
Defined.

(** ** Pages *)

Lemma CreatePagination_tiles_witness : walk_pages 5 3 0 (seq 0 4) = Some (seq 0 4).
Proof. apply (CreatePagination_tiles 3 (seq 0 4)); vm_compute; done. Defined.

Lemma resource_pages_tile_witness : walk_resources 5 3 0 (seq 0 4) = Some (seq 0 4).
Proof. apply (resource_pages_tile 3 (seq 0 4)); vm_compute; done. Defined.

Lemma NextEntitlementToken_decodes_witness :
  exists t, NextEntitlementToken ModelTagKind "abc" = Ok t /\ t <> "" /\
    exists kind', DecodeEntitlementToken t = Ok ("abc", kind').
Proof.
  destruct (index_of ModelTagKind entitlementResources) as [i|] eqn:Hi; [|vm_compute in Hi; discriminate Hi].
  destruct (NextEntitlementToken_decodes ModelTagKind "abc" i) as (t & Ht & Hd).
  - vm_compute in Hi. injection Hi as <-. reflexivity.
  - reflexivity.
  - exists t. split; [exact Ht|]. vm_compute in Hi. injection Hi as <-.
    destruct Hd as (Hne & kind' & Hk & _). split; [exact Hne|]. exists kind'. exact Hk.
Defined.
