(* ===== verification/AuthWitnesses.v ===== *)
(** * AuthWitnesses: the properties of logins, tokens and connections at
    concrete inputs.

    The deployment of [Witnesses], with a small token library (a signed token
    is the text of the signing key and the claims), an identity provider that
    vouches for every address, and Juju controllers that answer at once.  Each
    lemma applies one property to an operation evaluated on it. *)

From Stdlib Require Import Ascii.
From stdpp Require Import countable.
From S2P Require Import Prelude Errors GoStrings Regexp Names AuthModel RefServer OpenFGA Dbmodel Users Database RefDb Encoding TagResolver Access JujuDb CloudDb Jwx JujuAuth AuthService Login Offer Middleware RpcProxy PubSub Witnesses.

(** An operation that returned. *)
Definition is_ok {A} (o : outcome A) : bool := match o with Ok _ => true | _ => false end.
Lemma ran {W A} (m : M W A) w : is_ok (m w).2 = true -> exists a, m w = ((m w).1, Ok a).
Proof. destruct (m w) as [w' [a| | |]]; try discriminate. intros _. exists a. reflexivity. Defined.

Definition is_err {A} (o : outcome A) : bool := match o with Err _ => true | _ => false end.
Lemma failed {W A} (m : M W A) w : is_err (m w).2 = true -> exists err, m w = ((m w).1, Err err).
Proof. destruct (m w) as [w' [|err| |]]; try discriminate. intros _. exists err. reflexivity. Defined.

Lemma ran_pair {W V A} (m : M (W * V) A) w :
  is_ok (m w).2 = true -> exists w' v' a, m w = ((w', v'), Ok a).
Proof. destruct (m w) as [[w' v'] [a| | |]]; try discriminate. intros _. exists w', v', a. reflexivity. Defined.

(** ** A token library *)

Fixpoint pos_text (p : BinNums.positive) : string :=
  match p with
  | BinNums.xH => "t"
  | BinNums.xO p => String "0" (pos_text p)
  | BinNums.xI p => String "1" (pos_text p)
  end.
Fixpoint text_pos (s : string) : BinNums.positive :=
  match s with
  | String c s =>
      if bool_decide (c = "1"%char) then BinNums.xI (text_pos s)
      else if bool_decide (c = "0"%char) then BinNums.xO (text_pos s) else BinNums.xH
  | EmptyString => BinNums.xH
  end.
Lemma text_pos_text p : text_pos (pos_text p) = p.
Proof. induction p; simpl; congruence. Defined.

#[export] Instance goany_eq_dec : EqDecision goany.
Proof. solve_decision. Defined.
#[export] Instance goany_countable : Countable goany.
Proof.
  apply (inj_countable' (fun v : goany => match v with
      | AnyString s => inl s | AnyInt n => inr (inl n) | AnyBool b => inr (inr (inl b))
      | AnyOther t => inr (inr (inr t)) end)
    (fun v => match v with
      | inl s => AnyString s | inr (inl n) => AnyInt n | inr (inr (inl b)) => AnyBool b
      | inr (inr (inr t)) => AnyOther t end)).
  by intros [].
Defined.

#[export] Instance claim_eq_dec : EqDecision claim.
Proof. solve_decision. Defined.
#[export] Instance claim_countable : Countable claim.
Proof.
  apply (inj_countable' (fun v : claim => match v with
      | ClaimString s => inl s | ClaimStrings l => inr (inl l) | ClaimTime t => inr (inr (inl t))
      | ClaimAccess m => inr (inr (inr (inl m))) | ClaimAny a => inr (inr (inr (inr a))) end)
    (fun v => match v with
      | inl s => ClaimString s | inr (inl l) => ClaimStrings l | inr (inr (inl t)) => ClaimTime t
      | inr (inr (inr (inl m))) => ClaimAccess m | inr (inr (inr (inr a))) => ClaimAny a end)).
  by intros [].
Defined.

#[export] Instance gval_eq_dec : EqDecision Auth.gval.
Proof. solve_decision. Defined.
#[export] Instance gval_countable : Countable Auth.gval.
Proof.
  apply (inj_countable' (fun v : Auth.gval => match v with
      | Auth.GString s => inl s | Auth.GStrings l => inr (inl l) | Auth.GAnys l => inr (inr (inl l))
      | Auth.GTime t => inr (inr (inr (inl t))) | Auth.GAny a => inr (inr (inr (inr a))) end)
    (fun v => match v with
      | inl s => Auth.GString s | inr (inl l) => Auth.GStrings l | inr (inr (inl l)) => Auth.GAnys l
      | inr (inr (inr (inl t))) => Auth.GTime t | inr (inr (inr (inr a))) => Auth.GAny a end)).
  by intros [].
Defined.

(** A signed text: the signer and the contents. *)
Definition seal {A} `{Countable A} (signer : string) (a : A) : string := pos_text (encode (signer, a)).
Definition unseal {A} `{Countable A} (signer token : string) : option A :=
  match decode (text_pos token) with
  | Some (s, a) => if decide (s = signer) then Some a else None
  | None => None
  end.
Lemma unseal_seal {A} `{Countable A} signer (a : A) : unseal signer (seal signer a) = Some a.
Proof. unfold unseal, seal. by rewrite text_pos_text, decode_encode, decide_True. Defined.

(** Keys are a name and a key id; the two halves of a pair share the name. *)
#[export] Instance demo_jose : Jose := {|
  PrivateKey := string;
  PublicKeyT := string;
  Key := string * string;
  PublicKey p := p;
  pem_Decode s := Some s;
  ParsePKCS1PrivateKey s := Ok s;
  ParsePKCS8PrivateKey s := Err (New "not PKCS8");
  jwk_Parse raw := Ok [("another", "0"); (raw, "1")];
  jwk_FromRaw p := Ok (p, "");
  jwk_PublicKeyOf p := Ok (p, "");
  jwk_Equal k k' := bool_decide (k.1 = k'.1);
  jwk_Set k f v := Ok (k.1, if decide (f = "kid") then v else k.2);
  KeyID k := k.2;
  jwt_Build _ := Ok tt;
  jwt_Sign k claims := Ok (seal k.1 claims);
  jwt_Verify k token := unseal k.1 token;
|}.

#[export] Instance demo_jose_laws : JoseLaws.
Proof.
  intros priv sk k pk claims token Hd Hpk Heq Hsign. injection Hpk as <-. injection Hsign as <-.
  apply bool_decide_eq_true_1 in Heq. simpl in *.
  assert (sk.1 = priv) as Hsk.
  { induction Hd as [k0 Hr|k0 f v k' _ IH Hset]; [by injection Hr as <-|by injection Hset as <-]. }
  rewrite Heq, Hsk. apply unseal_seal.
Defined.

(** Two files, a counter for identifiers, a clock. *)
Record machine := MkMachine { files : list (string * string); drawn : nat; ticks : Z }.
#[export] Instance demo_runtime : Runtime machine := {|
  os_ReadFile path := fun e => (e, match List.find (fun f => bool_decide (f.1 = path)) (files e) with
                                   | Some f => Ok f.2 | None => Err (New "no such file") end);
  uuid_NewRandom := fun e => (MkMachine (files e) (S (drawn e)) (ticks e), Ok (demo_uuids (drawn e)));
  time_Now := fun e => (MkMachine (files e) (drawn e) (ticks e + 1)%Z, Ok (ticks e));
  range_order A l := fun e => (e, Ok (reverse l));
|}.
#[export] Instance demo_runtime_laws : RuntimeLaws machine.
Proof. intros A l e. exists e, (reverse l). split; [done|apply reverse_Permutation]. Defined.

Definition demo_machine : machine := MkMachine [("jwks.json", "key-a"); ("key.pem", "key-a")] 0 1000.
Definition demo_jwks : JWKSService := MkJWKS "jwks.json" "key.pem" (MkCached (Some [("another", "0"); ("key-a", "1")]) (Some ("key-a", "1"))).
Definition demo_jwt : JWTService machine := MkJWTService "jimm" 600 (Some demo_jwks) demo_machine.

Lemma demo_serves : serves (E:=machine) demo_jwks.
Proof. eapply (serves_new "jwks.json" "key.pem" demo_machine). reflexivity. Defined.

(** The files change together while the service runs: a broken pair is not
    taken over. *)
Lemma JWKSService_consistent_witness :
  let s := (refresh demo_jwks (MkMachine [("jwks.json", "key-b"); ("key.pem", "key-a")] 0 0)).2 in
  s = Ok demo_jwks /\ exists keys sk, Get demo_jwks = Ok keys /\ SigningKey demo_jwks = Ok sk /\ published keys sk.
Proof.
  intros s. split; [reflexivity|].
  refine (JWKSService_consistent (E:=machine) demo_jwks _).
  eapply (serves_refresh demo_jwks (MkMachine [("jwks.json", "key-b"); ("key.pem", "key-a")] 0 0));
    [exact demo_serves|reflexivity].
Defined.

Definition demo_params : JWTParams := MkJWTParams (uuid_n 2) "user-alice@canonical.com"
  (Some {["model-1" := "admin"]}) [("ssh_public_key", ClaimString "AAAA")] 0.

Lemma NewJWT_verified_witness :
  exists token claims, NewJWT demo_params demo_jwt = ((NewJWT demo_params demo_jwt).1, Ok token) /\
    accepted (NewJWT demo_params demo_jwt).1 token claims /\ vouches demo_params claims.
Proof.
  destruct (ran (NewJWT demo_params) demo_jwt) as [token Hrun]; [vm_compute; reflexivity|].
  destruct (NewJWT_verified demo_params demo_jwt _ token demo_jwks eq_refl demo_serves Hrun) as (claims & Ha & Hv).
  exists token, claims. split_and!; [exact Hrun|exact Ha|exact Hv].
Defined.

(** ** Tokens for Juju controllers *)

(** Versions are compared by their last number, enough for this deployment. *)
Definition demo_versions : list (string * Z) :=
  [("3.4.1", -200); ("3.6.9", 9); ("3.6.12", 12); ("3.6.13", 13); ("3.6.22", 22); ("3.6.23", 23); ("3.6.24", 24); ("3.6.30", 30);
   ("999.0.0", 99900)]%Z.
#[export] Instance demo_version : JujuVersion := {|
  Number := Z;
  version_Parse s := match List.find (fun p => bool_decide (p.1 = s)) demo_versions with
                     | Some p => Ok p.2 | None => Err (New "invalid version") end;
  version_Compare a b := (a - b)%Z;
|}.

Lemma demo_mints : mints_ok demo_jwt.
Proof. exists demo_jwks. split; [reflexivity|exact demo_serves]. Defined.

Local Abbreviation GS := (GState (World Ref Tbl) (JWTService machine)).

Definition fresh_generator : GS := MkGS newLoginTokenGenerator demo demo_jwt.
(** alice connects to her model, logs in, and the controller asks whether she
    may add models to the cloud. *)
Definition tagged : GS := (run_op (OpSetTags model_tag ctl_tag) fresh_generator).1.
Definition logged_in : GS := (run_op (OpLogin (Some alice_session)) tagged).1.
Definition asked : list (string * goany) := [("cloud-aws", AnyString "add-model")].

Lemma reach_tagged : reach tagged [Perm.w_tuples demo] 0.
Proof.
  refine (reach_op fresh_generator [Perm.w_tuples demo] 0 (OpSetTags model_tag ctl_tag) tagged
    (run_op (OpSetTags model_tag ctl_tag) fresh_generator).2 _ (surjective_pairing _)).
  exact (reach_new demo demo_jwt demo_mints).
Defined.

Lemma reach_logged_in : exists n, reach logged_in [Perm.w_tuples demo] n.
Proof.
  eexists. exact (reach_op tagged [Perm.w_tuples demo] 0 (OpLogin (Some alice_session)) logged_in
    (run_op (OpLogin (Some alice_session)) tagged).2 reach_tagged (surjective_pairing _)).
Defined.

Lemma generator_tokens_truthful_witness :
  exists s' t, run_op (OpToken (Some asked)) logged_in = (s', Ok (Some t)) /\
    exists u, gen_user (gs_gen s') = Some u /\
      truthful [Perm.w_tuples demo] u (Id (gen_ct (gs_gen s'))) (gs_j s') t.
Proof.
  destruct reach_logged_in as [n Hreach].
  destruct (ran (MakeToken (Some asked)) logged_in) as [t Hrun]; [vm_compute; reflexivity|].
  assert (run_op (OpToken (Some asked)) logged_in = ((MakeToken (Some asked) logged_in).1, Ok (Some t))) as Hop.
  { unfold run_op, mbind, M_bind. rewrite Hrun. reflexivity. }
  eexists _, t. split; [exact Hop|].
  exact (generator_tokens_truthful logged_in [Perm.w_tuples demo] n (OpToken (Some asked)) _ t Hreach Hop).
Defined.

Lemma MakeToken_bounded_witness :
  exists n, (Z.of_nat n <= callCount (gs_gen logged_in) <= 10)%Z.
Proof.
  destruct reach_logged_in as [n Hreach]. exists n.
  exact (MakeToken_bounded logged_in [Perm.w_tuples demo] n Hreach).
Defined.

Definition demo_ctl : LoadedController := MkLoadedController demo_controller [].

Lemma NewCallerLoginToken_claims_witness :
  exists w' j' t, NewCallerLoginToken [model_tag; offer_tag] demo_ctl alice_session (demo, demo_jwt) = ((w', j'), Ok t) /\
    truthful [Perm.w_tuples demo] alice_session (uuid_n 2) j' t.
Proof.
  assert (tooOld (c_AgentVersion (lc_Controller demo_ctl)) = Ok false) as Hold by (vm_compute; reflexivity).
  destruct (ran_pair (NewCallerLoginToken [model_tag; offer_tag] demo_ctl alice_session) (demo, demo_jwt))
    as (w' & j' & t & Hrun); [vm_compute; reflexivity|].
  exists w', j', t. split; [exact Hrun|].
  destruct (NewCallerLoginToken_claims [model_tag; offer_tag] demo_ctl alice_session demo demo_jwt w' j' t false
    demo_mints Hold Hrun) as [_ Ht].
  exact Ht.
Defined.

(** ** Authentication *)

Import Auth Login.

(** The identity provider and the session store: a clock and the sessions by
    the cookie of the request. *)
Record provider := MkProvider { now : Z; sessions : list (string * Session) }.

Definition provider_session (r : string) (p : provider) : outcome Session :=
  match List.find (fun x => bool_decide (x.1 = r)) (sessions p) with
  | Some x => Ok x.2
  | None => Err (New "no session")
  end.

#[export] Instance demo_outside : Outside provider := {|
  Req := string;
  DeviceResponse := string;
  oauth_Exchange code := fun p => (p, Ok (MkOToken ("access-" +:+ code) "refresh" (now p + 100) "Bearer" (Some code)));
  oauth_AuthCodeURL state := "https://idp/auth?state=" +:+ state;
  oauth_DeviceAuth := fun p => (p, Ok "alice@canonical.com");
  oauth_DeviceAccessToken r := fun p => (p, Ok (MkOToken ("access-" +:+ r) "refresh" (now p + 100) "Bearer" (Some r)));
  oauth_Refresh t := fun p =>
    if decide (ot_RefreshToken t = "") then (p, Err (New "no refresh token"))
    else (p, Ok (MkOToken "access" (ot_RefreshToken t) (now p + 100) "Bearer" None));
  oauth_Valid t := fun p => (p, Ok (bool_decide (ot_AccessToken t <> "" /\ (now p < ot_Expiry t)%Z)));
  clientcredentials_Token id secret scopes := fun p =>
    if decide (secret = "secret") then (p, Ok (MkOToken "access" "" (now p + 100) "Bearer" None))
    else (p, Err (New "invalid_client"));
  oidc_Verify client raw := fun p => (p, Ok (MkIDToken "subject" (Ok [("email", GString raw)])));
  jwt_ParseInsecure raw := Ok [("groups", GAnys [AnyString "staff"])];
  jwt_BuildHS _ := Ok tt;
  jwt_SignHS key claims := Ok (seal key claims);
  jwt_ParseHS key token := fun p =>
    (p, match unseal key token : option (gmap string gval) with
        | Some claims =>
            match claims !! "exp" with
            | Some (GTime e) => if decide (now p < e)%Z then Ok (as_json <$> claims) else Err ErrTokenExpired
            | _ => Ok (as_json <$> claims)
            end
        | None => Err (New "could not verify message")
        end);
  mail_ParseAddress s := bool_decide (is_Some (cut "@" s));
  session_Get r _ := fun p => (p, provider_session r p);
  session_Save r s := fun p => (MkProvider (now p) ((r, s) :: sessions p), Ok tt);
  rand_Read n := fun p => (p, Ok "01234567");
  clock p := now p;
|}.

#[export] Instance demo_session_laws : SessionLaws provider.
Proof.
  split.
  - intros key claims t Ht. injection Ht as <-. unfold seal. by destruct (encode (key, claims)).
  - intros key claims t e p Ht He. injection Ht as <-. unfold wp. cbn [jwt_ParseHS demo_outside clock].
    rewrite unseal_seal, He. reflexivity.
Defined.

Definition demo_service : AuthenticationService := MkAuth "jimm" [] 3600 600 true "session key" "groups".
Definition alice_cookie : Session :=
  MkSession "1" (<[SessionGroupsKey := GStrings ["staff"]]> {[SessionIdentityKey := GString "alice@canonical.com"]})
    false 600 true true true.
Definition demo_provider : provider := MkProvider 5000 [("cookie", alice_cookie)].
(** alice's row holds an expired access token and a refresh token. *)
Definition alice_row : Identity := with_tokens (demo_identity 1 "alice@canonical.com") (MkOToken "old" "refresh" 10 "Bearer" None).
Definition auth_db : Db Tbl := MkDb true true 0 (db_groups demo_db) (db_roles demo_db)
  (MkTbl [alice_row; demo_identity 2 "bob@canonical.com"] false) (db_controllers demo_db) (db_models demo_db)
  (db_offers demo_db) (db_clouds demo_db) (db_mappings demo_db) (db_credentials demo_db) (db_defaults demo_db) (db_more demo_db).
Definition auth_state : Db Tbl * provider := (auth_db, demo_provider).

Lemma auth_db_ok : db_ok auth_db.
Proof. split_and!; apply uniqueb_sound; vm_compute; reflexivity. Defined.


Definition cookie : @Req provider demo_outside := "cookie".

Lemma AuthenticateBrowserSession_sound_witness :
  exists s' ctx', AuthenticateBrowserSession demo_service (MkContext None None) cookie auth_state = (s', Ok ctx') /\
    exists session p1 email, session_Get cookie SessionName demo_provider = (p1, Ok session) /\
      se_Values session !! SessionIdentityKey = Some (GString email) /\
      SessionIdentityFromContext ctx' = email /\ token_fresh email p1 (fst s').
Proof.
  destruct (ran (AuthenticateBrowserSession demo_service (MkContext None None) cookie) auth_state) as [ctx' Hrun];
    [vm_compute; reflexivity|].
  eexists _, ctx'. split; [exact Hrun|].
  destruct (AuthenticateBrowserSession_sound demo_service (MkContext None None) cookie auth_state _ ctx'
    auth_db_ok Hrun) as (session & p1 & email & Hg & Hv & Hi & _ & Hf).
  exists session, p1, email. split_and!; [exact Hg|exact Hv|exact Hi|exact Hf].
Defined.

Lemma Logout_clears_witness :
  exists s', Logout cookie auth_state = (s', Ok tt) /\
    exists email row, row_of email row (fst s') /\ i_AccessToken row = "" /\ i_RefreshToken row = "".
Proof.
  destruct (ran (Logout cookie) auth_state) as [[] Hrun]; [vm_compute; reflexivity|].
  eexists. split; [exact Hrun|].
  destruct (Logout_clears cookie auth_state _ auth_db_ok Hrun) as (session & email & p1 & p2 & row & _ & _ & _ & Hr & Ha & Hb).
  exists email, row. split_and!; [exact Hr|exact Ha|exact Hb].
Defined.

(** ** Logins *)

Local Abbreviation LW := (World Ref Tbl * provider)%type.
Definition auth_world : LW := (MkWorld (MkRef demo_tuples false) auth_db, demo_provider).


(** Administrators of JIMM through a group of the identity provider: the
    check with the session grants it, the flag does not. *)
Definition staff_tuples : list Tuple :=
  [edge (MkEntity IdPGroupTagKind "staff" MemberRelation) AdministratorRelation (ConvertTag jimm_tag)].
Definition staff_world : LW := (MkWorld (MkRef staff_tuples false) auth_db, demo_provider).
Definition robot : Entity := MkEntity UserTagKind "robot@serviceaccount" "".

Lemma login_error_codes_witness :
  exists s' err, login demo_service jimm_tag (ByClient "robot" "guess") auth_world = (s', Err err) /\
    ErrorCode err = CodeFatalLoginError.
Proof.
  destruct (failed (login demo_service jimm_tag (ByClient "robot" "guess")) auth_world) as [err Hrun];
    [vm_compute; reflexivity|].
  eexists _, err. split; [exact Hrun|].
  exact (login_error_codes demo_service jimm_tag (ByClient "robot" "guess") auth_world _ err Hrun).
Defined.

Definition device : @DeviceResponse provider demo_outside := "alice@canonical.com".

Lemma device_login_witness :
  exists s1 tok s3 u, GetDeviceSessionToken demo_service device auth_world = (s1, Ok tok) /\
    LoginWithSessionToken demo_service jimm_tag tok auth_world = (s3, Ok u) /\
    IDPGroupIDs u = ["staff"] /\ (length (IDPGroupIDs u) <= maxContextualTuples)%nat.
Proof.
  destruct (ran (GetDeviceSessionToken demo_service device) auth_world) as [tok Hdev]; [vm_compute; reflexivity|].
  destruct (ran (LoginWithSessionToken demo_service jimm_tag tok) auth_world) as [u Hlog].
  { change tok with (match Ok tok with Ok t => t | _ => "" end).
    replace (Ok tok) with (GetDeviceSessionToken demo_service device auth_world).2 by (rewrite Hdev; reflexivity).
    vm_compute. reflexivity. }
  eexists _, tok, _, u. split; [exact Hdev|]. split; [exact Hlog|].
  destruct (device_login demo_service jimm_tag device auth_world _ auth_world _ tok u Hdev auth_db_ok Hlog)
    as (token & claims & a & b & Hd & Hv & _ & Hg & Hle).
  split; [|exact Hle]. rewrite Hg. injection Hd as _ <-. injection Hv as _ <-. reflexivity.
Defined.

Lemma robot_is_admin u :
  user_entity u = Ok robot -> IDPGroupIDs u = ["staff"] -> ContextualTuples u = Ok [edge robot MemberRelation (MkEntity IdPGroupTagKind "staff" "")] ->
  has_access (list_to_set staff_tuples) u AdministratorRelation (ConvertTag jimm_tag).
Proof.
  intros He _ Hc. apply (has_access_iff _ u robot _ _ _ He Hc). rewrite <- list_to_set_app_L.
  apply (check_sound ref_depth). vm_compute. reflexivity.
Defined.

Lemma login_flag_ignores_groups_witness :
  exists s' u, login demo_service jimm_tag (ByClient "robot" "secret") staff_world = (s', Ok u) /\ JimmAdmin u = false.
Proof.
  set (r := login demo_service jimm_tag (ByClient "robot" "secret") staff_world).
  destruct (ran (login demo_service jimm_tag (ByClient "robot" "secret")) staff_world) as [u Hrun];
    [vm_compute; reflexivity|].
  eexists _, u. split; [exact Hrun|].
  assert (Ok u = r.2) as Hu by (unfold r; rewrite Hrun; reflexivity).
  refine (login_flag_ignores_groups demo_service jimm_tag (ByClient "robot" "secret") staff_world _ u robot
    auth_db_ok Hrun _ _ _).
  - vm_compute in Hu. injection Hu as ->. vm_compute. reflexivity.
  - refine (robot_is_admin u _ _ _); vm_compute in Hu; injection Hu as ->; vm_compute; reflexivity.
  - apply (refuted staff_tuples). vm_compute. reflexivity.
Defined.

(** ** Offers *)

(** A hook service that knows the groups of bob. *)
#[export] Instance demo_hook : Offer.HookClient nat := {|
  Offer.hook_Token := fun n => (n, Ok "token");
  Offer.hook_GetGroupsForUser auth user := fun n =>
    (S n, Ok (if decide (user = "bob@canonical.com") then [Offer.RecvGroup "staff"; Offer.RecvEOF]
              else [Offer.RecvErr (New "unavailable")]));
|}.

(** The groups of bob may consume the offer; bob is a local user of the
    migrated model. *)
Definition offer_world : World Ref Tbl := MkWorld (MkRef (
  edge (MkEntity IdPGroupTagKind "staff" MemberRelation) ConsumerRelation (ConvertTag offer_tag) :: demo_tuples) false) demo_db.
Definition local_bob : Tag := MkTag UserTagKind "bob".

Lemma IsUserConsumerForOffer_sound_witness :
  exists s', Offer.IsUserConsumerForOffer (Some (Offer.HookService "hook:1")) local_bob offer_tag (offer_world, 0%nat) = (s', Ok true) /\
    exists name i, Offer.stands_for demo_db local_bob offer_tag name /\ NewIdentity name = Ok i /\
      has_access (Perm.w_tuples offer_world) (Offer.checked_user (Some (Offer.HookService "hook:1")) name i 0%nat)
        ConsumerRelation (ConvertTag offer_tag).
Proof.
  set (r := Offer.IsUserConsumerForOffer (Some (Offer.HookService "hook:1")) local_bob offer_tag (offer_world, 0%nat)).
  assert (r.2 = Ok true) as Hok by (vm_compute; reflexivity).
  eexists. split; [exact (run_eq _ _ _ Hok)|].
  destruct (Offer.IsUserConsumerForOffer_sound (Some (Offer.HookService "hook:1")) local_bob offer_tag
    (offer_world, 0%nat) _ true (run_eq _ _ _ Hok)) as (_ & name & i & Hst & Hi & Hb).
  exists name, i. split_and!; [exact Hst|exact Hi|apply Hb; reflexivity].
Defined.

Lemma fetch_failure_keeps_access_witness :
  exists w' o, Offer.IsUserConsumerForOffer (Some (Offer.HookService "hook:1")) alice_tag offer_tag (demo, 0%nat) = ((w', 1%nat), o) /\
    Offer.IsUserConsumerForOffer None alice_tag offer_tag (demo, 0%nat) = ((w', 0%nat), o).
Proof.
  destruct (Offer.fetch_failure_keeps_access (Offer.HookService "hook:1") offer_tag alice_tag
    (setDisplayName (with_Name zeroIdentity "alice@canonical.com")) alice demo 0%nat 1%nat
    (Errorf "failed to fetch groups for user %q: %w" [ArgS "alice@canonical.com"; ArgE (New "unavailable")]))
    as (w' & o & Hq1 & Hq2 & _).
  - reflexivity.
  - vm_compute. reflexivity.
  - vm_compute. reflexivity.
  - reflexivity.
  - exists w', o. split; [exact Hq1|exact Hq2].
Defined.

(** ** Endpoints *)

Import Middleware.

Definition no_context : HContext := MkHContext (MkContext None None) None None.
Definition answer : Handler (F:=Ref) (P:=provider) (T:=Tbl) := fun _ _ => mret (MkResponse 200 "ok").
Definition robot_world : LW := (MkWorld (MkRef
  (edge (MkEntity IdPGroupTagKind "staff" MemberRelation) WriterRelation (ConvertTag model_tag) :: demo_tuples) false) auth_db,
  demo_provider).
Definition with_secret (secret : string) : Request :=
  MkRequest "GET" "/model/log" (Some ("robot", secret)) "" (uuid_n 3) cookie.

(** The right secret reaches the handler, a wrong one is refused. *)
Lemma model_endpoint_guarded_witness :
  let run secret := AuthenticateViaBasicAuth demo_service jimm_tag (AuthorizeUserForModelAccess WriterRelation answer)
    no_context (with_secret secret) robot_world in
  (run "secret").2 = Ok (MkResponse 200 "ok") /\ is_ok (run "guess").2 = true /\
  exists ctx1 s1 user, answer ctx1 (with_secret "secret") s1 = run "secret" /\ hc_identity ctx1 = Some user /\
    has_access (Perm.w_tuples (fst robot_world)) user WriterRelation (ConvertTag model_tag).
Proof.
  intros run. assert ((run "secret").2 = Ok (MkResponse 200 "ok")) as Hok by (vm_compute; reflexivity).
  split; [exact Hok|]. split; [vm_compute; reflexivity|].
  destruct (model_endpoint_guarded demo_service jimm_tag WriterRelation answer no_context (with_secret "secret")
    robot_world _ _ auth_db_ok (surjective_pairing _)) as [(ctx1 & s1 & Ha & _ & _ & Hn)|[(_ & code & text & Ho & Hc)|[_ Hp]]].
  - destruct Ha as (un & pw & user & tag & name & groups & Hid & _ & _ & _ & Htag & _ & Hacc).
    exists ctx1, s1, user. split_and!; [rewrite Hn; symmetry; apply surjective_pairing|exact Hid|].
    injection Htag as <-. exact Hacc.
  - exfalso. fold (run "secret") in Ho. rewrite Hok in Ho. injection Ho as <- _. lia.
  - exfalso. exact (Hp _ Hok).
Defined.

Definition rebac_request : Request := MkRequest "GET" "/rebac/v1/groups" None "" "" cookie.

Lemma AuthenticateRebac_guarded_witness :
  let r := AuthenticateRebac demo_service jimm_tag "/rebac" answer no_context rebac_request auth_world in
  r.2 = Ok (MkResponse 200 "ok") /\
  exists ctx1 user e, hc_rebac ctx1 = Some user /\ user_entity user = Ok e /\
    holds (Perm.w_tuples (fst auth_world)) e AdministratorRelation (ConvertTag jimm_tag).
Proof.
  intros r. assert (r.2 = Ok (MkResponse 200 "ok")) as Hok by (vm_compute; reflexivity). split; [exact Hok|].
  destruct (AuthenticateRebac_guarded demo_service jimm_tag "/rebac" answer no_context rebac_request
    auth_world _ _ auth_db_ok ltac:(apply not_elem_of_cons; split; [vm_compute; discriminate|apply not_elem_of_nil])
    (surjective_pairing _)) as [(ctx1 & s1 & Ha & _)|[(_ & code & text & Ho & Hc)|[_ Hp]]].
  - destruct Ha as (user & e & c & dp & name & Hr & _ & He & _ & _ & _ & Hh).
    exists ctx1, user, e. split_and!; [exact Hr|exact He|exact Hh].
  - exfalso. fold r in Ho. rewrite Hok in Ho. injection Ho as <- _. lia.
  - exfalso. exact (Hp _ Hok).
Defined.

(** ** Connections *)

Import Proxy.

Definition field (name : string) (fields : list (string * json)) : string :=
  match string_field name fields "" with Ok s => s | _ => "" end.

(** Login requests are a tag and a token. *)
#[export] Instance demo_api : JujuApi := {|
  LoginRequest := string * string;
  AuthTag := fst;
  Token := snd;
  with_Token lr t := (lr.1, t);
  newLoginRequest tag token := (tag, token);
  LoginRequest_unmarshal raw := match raw with
    | Some (JObj fields) => Ok (field "auth-tag" fields, field "token" fields)
    | _ => Err (jsonError "unexpected end of JSON input") end;
  LoginRequest_marshal lr := JObj [("auth-tag", JStr lr.1); ("token", JStr lr.2)];
  ErrorResults_unmarshal _ := Ok [];
  RedirectErrorInfo_AsMap _ := [];
  AnonymousUsername := "jujuanonymous";
  float64_text s := s;
|}.

(** Every service answers at once; the client secret is [secret]. *)
#[export] Instance demo_proxy_env : ProxyEnv nat := {|
  tg_MakeLoginToken u := fun n => (S n, Ok "login token");
  tg_MakeToken ps := fun n => (S n, Ok "token");
  tg_GetUser := fun n => (n, Ok "user-alice@canonical.com");
  ls_LoginDevice := fun n => (n, Ok (MkDevice "https://idp" "1234"));
  ls_GetDeviceSessionToken d := fun n => (n, Ok "session token");
  ls_LoginClientCredentials id secret := fun n =>
    (n, if decide (secret = "secret") then Ok alice_session else Err (New "invalid client credentials"));
  ls_LoginWithSessionToken t := fun n => (n, Ok alice_session);
  ls_LoginWithSessionCookie id := fun n => (n, Err (New "missing cookie identity"));
  ri_GetRedirectInfo := fun n => (n, Ok (MkDetails [] ""));
  pe_Connect := fun n => (n, Ok (MkMeta (uuid_n 2) "web" (uuid_n 3) ""));
  ws_WriteClient m := fun n => (n, Ok tt);
  ws_WriteController m := fun n => (n, Ok tt);
|}.

Lemma demo_parse_returned t : returned (demo_parse t).
Proof.
  unfold demo_parse. destruct (cut "-" t) as [[kind id]|]; [destruct (decide _)|]; [left|right|right]; by eexists.
Defined.

#[export] Instance demo_proxy_laws : ProxyEnvLaws nat.
Proof.
  split; try (intros; left; by eexists); try (intros; intros e; left; by eexists); try done.
  - intros id secret e. simpl. destruct (decide (secret = "secret")); [left|right]; by eexists.
  - intros id e. right. by eexists.
  - intros raw. simpl. destruct raw as [[]|]; [right|right|right|right|right|left|right]; by eexists.
  - intros t. apply demo_parse_returned.
  - intros id u (e & e' & [[t Hu]|[(i & s & Hu)|Hu]]).
    + injection Hu as _ <-. reflexivity.
    + simpl in Hu. destruct (decide (s = "secret")); [|discriminate Hu]. injection Hu as _ <-. reflexivity.
    + discriminate Hu.
Defined.

Definition login_request : message := MkMessage 1 "Admin" 4 "" "LoginWithClientCredentials"
  (Some (JObj [("client-id", JStr "robot"); ("client-secret", JStr "secret")])) "" "" None None.
Definition status_request : message := MkMessage 2 "Client" 6 "" "FullStatus" (Some (JObj [])) "" "" None None.
Definition login_response : message := MkMessage 1 "" 0 "" "" None "" "" None
  (Some (JObj [("servers", JArr []); ("user-info", JObj [])])).

Definition proxy_start : proxy nat := newProxy 0%nat.
Definition proxy_login : proxy nat := (client_step "" (ReadMsg (Some login_request)) proxy_start).1.
Definition proxy_asked : proxy nat := (client_step "" (ReadMsg (Some status_request)) proxy_login).1.
Definition proxy_answered : proxy nat := (controller_step (ReadMsg (Some login_response)) proxy_asked).1.

Lemma demo_connection : connection "" proxy_asked.
Proof.
  exists 0%nat. eapply rtc_l; [|eapply rtc_l; [|apply rtc_refl]].
  - exact (step_client "" (ReadMsg (Some login_request)) proxy_start proxy_login _ (surjective_pairing _)).
  - exact (step_client "" (ReadMsg (Some status_request)) proxy_login proxy_asked _ (surjective_pairing _)).
Defined.

Lemma demo_connection_answered : connection "" proxy_answered.
Proof.
  destruct demo_connection as [e Hr]. exists e. eapply rtc_r; [exact Hr|].
  exact (step_controller "" (ReadMsg (Some login_response)) proxy_asked proxy_answered _ (surjective_pairing _)).
Defined.

Lemma logins_are_legitimate_witness :
  exists m, m ∈ px_toController proxy_asked /\ is_login m /\ legit_params "" (Params m).
Proof.
  destruct (px_toController proxy_asked) as [|m l] eqn:Hl; [vm_compute in Hl; discriminate Hl|].
  assert (m ∈ px_toController proxy_asked) as Hin by (rewrite Hl; apply elem_of_cons; by left).
  assert (is_login m) as Hlog by (vm_compute in Hl; injection Hl as <- _; split; reflexivity).
  exists m. split_and!; [rewrite <- Hl; exact Hin|apply Hlog..|].
  exact (logins_are_legitimate "" proxy_asked m demo_connection Hin Hlog).
Defined.

Lemma inflight_filed_witness :
  exists l m, px_inflight proxy_asked !! 2%Z = Some l /\ px_heap proxy_asked !! l = Some m /\ RequestID m = 2%Z.
Proof.
  destruct (px_inflight proxy_asked !! 2%Z) as [l|] eqn:Hl; [|vm_compute in Hl; discriminate Hl]. exists l.
  destruct (inflight_filed "" proxy_asked 2 l demo_connection Hl) as (m & Hm & Hid).
  exists m. split_and!; [reflexivity|exact Hm|exact Hid].
Defined.

Lemma servers_never_reach_client_witness :
  exists m fields, m ∈ px_toClient proxy_answered /\ Response m = Some (JObj fields) /\ "servers" ∉ fields.*1.
Proof.
  destruct (px_toClient proxy_answered) as [|m l] eqn:Hl; [vm_compute in Hl; discriminate Hl|].
  assert (m ∈ px_toClient proxy_answered) as Hin by (rewrite Hl; apply elem_of_cons; by left).
  assert (Response m = Some (JObj [("user-info", JObj [])])) as Hr
    by (vm_compute in Hl; injection Hl as <- _; reflexivity).
  exists m, [("user-info", JObj [])]. split_and!; [rewrite <- Hl; exact Hin|exact Hr|].
  exact (servers_never_reach_client "" proxy_answered m _ demo_connection_answered Hin Hr).
Defined.



Lemma null_message_panics_witness :
  (client_step "" (ReadMsg None) proxy_login).2 = Panic "nil pointer dereference".
Proof. apply (null_message_panics "" proxy_login). vm_compute. reflexivity. Defined.

(** ** The hub *)

Definition demo_ops : list (PubSub.hub_op string) :=
  [PubSub.OpPublish "m1" "up"; PubSub.OpSubscribe (PubSub.modelMatches "m1") 7; PubSub.OpPublish "m2" "x";
   PubSub.OpPublish "m1" "down"; PubSub.OpUnsubscribe 0; PubSub.OpPublish "m1" "gone"].

Lemma hub_delivers_witness :
  PubSub.delivered 0 (PubSub.hub_run 0 demo_ops) = [("m1", "up"); ("m1", "down")].
Proof.
  destruct (PubSub.hub_delivers 0 demo_ops 0) as [Hd _]; [lia|vm_compute; reflexivity|].
  rewrite Hd. vm_compute. reflexivity.
Defined.
