(* ===== verification/JujuWitnesses.v ===== *)
(** * JujuWitnesses: the properties of the Juju manager at concrete inputs.

    The deployment of [Witnesses], with controllers that know a list of models
    and answer at once, and a store of secrets.  Each lemma applies one
    property to an operation evaluated on it. *)

From S2P Require Import Prelude Errors Regexp Names AuthModel RefServer OpenFGA Dbmodel Users Database RefDb TagResolver Access JujuDb CloudDb JujuBase JujuModels ControllerDb JujuOffers JujuClouds JujuCredentials ModelBuilder JujuControllers JujuMigration Witnesses AuthWitnesses.

(** ** Controllers *)

Record Fleet := MkFleet { fl_models : list string; fl_secrets : list (Tag * gmap string string); fl_offers : list string }.

Definition answer {A} (a : A) : Call Fleet A := fun c => (c, inl a).
Definition notThere : gerror := Codef CodeNotFound "not found" [].

Definition fleet_model (uuid name owner : string) : ModelInfo string :=
  MkModelInfo name uuid owner "alive" "aws" "eu" "aws/alice@canonical.com/default" (uuid_n 2) [] ["0"] None "".
Definition fleet_offer (url : string) : OfferDetails string :=
  MkOfferDetails (if decide (url = "alice@canonical.com/web.db") then uuid_n 4 else uuid_n 7) "db" url ["1"] [] "".
Definition fleet_cloud : JujuCloud :=
  MkJujuCloud "aws" "ec2" "" ["access-key"] noEndpoints [MkJujuRegion "eu" noEndpoints] [] false None ∅.
Definition fleet_secret (tag : Tag) (c : Fleet) : gmap string string + gerror :=
  match List.find (fun p => bool_decide (p.1 = tag)) (fl_secrets c) with Some p => inl p.2 | None => inl ∅ end.

#[export] Instance demo_fleet : Controllers Fleet := {|
  Conn := string;
  Info := string;
  DialControllerAsSuperuser _ c := answer (c_Name c);
  DialControllerAsService c := answer (c_Name c);
  DialModelAsService c _ := answer (c_Name c);
  api_ModelInfo _ mt c := (c, if decide (Id mt ∈ fl_models c) then inl (fleet_model (Id mt) "web" "alice@canonical.com") else inr notThere);
  api_ModelStatus _ mt := answer (MkModelStatus (Id mt) "alive" "alice@canonical.com" (Some ""));
  api_DestroyModel _ mt _ c := if decide (Id mt ∈ fl_models c)
    then (MkFleet (List.filter (fun m => negb (bool_decide (m = Id mt))) (fl_models c)) (fl_secrets c) (fl_offers c), inl tt)
    else (c, inr notThere);
  api_DumpModel _ _ _ := answer "";
  api_DumpModelDB _ _ := answer "";
  api_AbortModelUpgrade _ _ := answer tt;
  api_UpgradeModel _ _ _ := answer "3.6.31";
  api_ValidateModelUpgrade _ _ _ := answer tt;
  api_ControllerModelUUID _ := answer (uuid_n 8);
  api_ChangeModelCredential _ _ _ := answer tt;
  api_UpdateCloudsCredentialForce _ _ := answer [MkUpdateResult [MkCredentialModel "web" []] None];
  api_CreateModel _ args := answer (fleet_model (uuid_n 7) (ca_Name args) (ca_Owner args));
  api_GrantJIMMModelAdmin _ _ := answer tt;
  api_Offer _ _ := answer tt;
  api_GetApplicationOffer _ url := answer (fleet_offer url);
  api_GetApplicationOfferConsumeDetails _ url := answer (MkConsume (fleet_offer url) None "");
  api_FindApplicationOffers _ _ c := (c, inl (fleet_offer <$> fl_offers c));
  api_ListApplicationOffers _ _ c := (c, inl (fleet_offer <$> fl_offers c));
  api_DestroyApplicationOffer _ url _ := answer tt;
  api_ListModelSummaries _ := answer [];
  api_ListModels _ := answer [];
  api_AddCloud _ _ _ _ := answer tt;
  api_Cloud _ _ := answer fleet_cloud;
  api_Clouds _ := answer [(MkTag CloudTagKind "aws", fleet_cloud)];
  api_CloudSpec _ := answer ("aws", "eu");
  api_RemoveCloud _ _ := answer tt;
  api_UpdateCloud _ _ _ := answer tt;
  api_RevokeCredential _ _ := answer tt;
  api_CheckCredentialModels _ _ := answer [MkUpdateResult [MkCredentialModel "web" []] None];
  api_CredentialContents _ _ _ _ := answer [];
  api_ControllerConfig _ := answer "";
  api_Status _ _ := answer "";
  client_InitiateMigration _ _ := answer "1";
  json_Macaroons s := inl s;
  api_Abort _ _ := answer tt;
  api_Activate _ _ _ _ := answer tt;
  api_AdoptResources _ _ _ := answer tt;
  api_CheckMachines _ _ := answer [];
  api_Import _ _ := answer tt;
  api_LatestLogTime _ _ := answer 0%Z;
  api_Prechecks _ _ := answer tt;
  login_ControllerTag _ := Some (uuid_n 6);
  login_ServerVersion _ := "3.6.30";
  login_Servers _ := [[("10.0.0.1", 17070%Z)]];
  time_Now _ := 100%Z;
  juju_ErrCode := ErrorCode;
  IsVisibleAttribute _ _ k := negb (bool_decide (k = "secret-key"));
  IsValidModelName s := bool_decide (s <> "");
  IsValidCloudCredential _ := true;
  CloudCredentialTag _ := MkCredTag "aws" "alice@canonical.com" "default";
  UnmarshalRedirect _ := inr notThere;
  cs_Get := fleet_secret;
  cs_Put tag attrs c := (MkFleet (fl_models c) ((tag, attrs) :: fl_secrets c) (fl_offers c), inl tt);
  cs_GetControllerCredentials _ _ := inl ("admin", "secret");
  cs_PutControllerCredentials _ _ _ := answer tt;
  NewMigrationToken _ _ := answer "token";
  rand_Shuffle A l _ := l;
  law_Shuffle A l _ := Permutation_refl l;
  OfferURL_String owner model offer := owner +:+ "/" +:+ model +:+ "." +:+ offer;
|}.

Definition demo_cred_tag := MkTag "cloudcred" "aws/alice@canonical.com/default".
Definition demo_secret : gmap string string := {["access-key" := "AKIA"; "secret-key" := "xyz"]}.
Definition demo_fleet_state : Fleet := MkFleet [uuid_n 3] [(demo_cred_tag, demo_secret)] ["alice@canonical.com/web.db"].
Definition jdemo : JW Ref Tbl Fleet := (demo, demo_fleet_state).
Definition demo_juju : JujuManager := MkJujuManager true jimm_tag [].

(** The deployment without models and defaults, its controller in another
    cloud. *)
Definition jempty : JW Ref Tbl Fleet :=
  (MkWorld (w_fga demo) (put_controllers (MkTbl [MkController 1 "prod" (uuid_n 2) "3.6.30" "" "prod.example.com:443" "" "lab" "eu" false [] None] false)
     (put_defaults (MkTbl [] false) (put_models (MkTbl [] false) demo_db))), demo_fleet_state).

Definition demo_cred := MkCredTag "aws" "alice@canonical.com" "default".
Definition demo_destroy := MkDestroyArgs None None None None.
Definition demo_offer := Offers.MkAddOffer model_tag "alice@canonical.com" "cache" "redis" "" [("db", "db")].

Lemma jdemo_models : Models.models_ok (w_db (fst jdemo)).
Proof. split; [apply uniqueb_sound; vm_compute; reflexivity|]. repeat constructor. discriminate. Defined.

Lemma jdemo_matching flt : (size (public_matching flt (j_tuples jdemo)) < 50)%nat.
Proof. apply matching_size. cbn. lia. Defined.

(** ** Models *)

Lemma model_commands_guarded_witness :
  let r := Models.run_cmd demo_juju bob_session model_tag (Models.CmdDestroy 20 demo_destroy) jdemo in
  still jdemo r.1 /\ r.2 <> Ok tt.
Proof.
  intros r. apply (Models.model_commands_guarded demo_juju bob_session model_tag (Models.CmdDestroy 20 demo_destroy) jdemo r.1 r.2).
  - left. apply (no_access demo bob_session bob []); vm_compute; reflexivity.
  - apply surjective_pairing.
Defined.


Lemma ModelInfo_confined_witness :
  exists s' info, Models.ModelInfo_ 20 demo_juju bob_session model_tag jdemo = (s', Ok info) /\
    has_access (j_tuples jdemo) bob_session ReaderRelation (MkEntity ModelTagKind (uuid_n 3) "") /\
    Models.info_confined bob_session model_tag jdemo info.
Proof.
  destruct (ran (Models.ModelInfo_ 20 demo_juju bob_session model_tag) jdemo) as [info Hrun]; [vm_compute; reflexivity|].
  eexists _, info. split; [exact Hrun|].
  apply (Models.ModelInfo_confined 20 demo_juju bob_session (uuid_n 3) jdemo _ info jdemo_models Hrun).
Defined.

(** ** Offers *)

Lemma jdemo_offer fuel uuid : (12 < fuel)%nat -> Offers.removable_offer fuel uuid jdemo.
Proof. intros Hf. split; [by apply demo_size|apply jdemo_matching]. Defined.

Lemma offer_commands_guarded_witness :
  let r := Offers.run_offer demo_juju bob_session (Offers.CmdDestroyOffer 20 "alice@canonical.com/web.db" true) jdemo in
  still jdemo r.1 /\ r.2 <> Ok tt.
Proof.
  intros r. apply (Offers.offer_commands_guarded demo_juju bob_session
    (Offers.CmdDestroyOffer 20 "alice@canonical.com/web.db" true) jdemo r.1 r.2).
  - intros (o & Ho & _ & Hacc). cbn in Ho. apply list_elem_of_singleton in Ho as ->. revert Hacc.
    apply (no_access demo bob_session bob []); vm_compute; reflexivity.
  - apply surjective_pairing.
Defined.

Lemma DestroyOffer_effect_witness :
  let r := Offers.DestroyOffer 20 demo_juju alice_session "alice@canonical.com/web.db" false jdemo in
  r.2 = Ok tt /\ Offers.destroyed alice_session "alice@canonical.com/web.db" jdemo r.1.
Proof.
  intros r. assert (r.2 = Ok tt) as Hok by (vm_compute; reflexivity). split; [exact Hok|].
  destruct (Offers.DestroyOffer_effect 20 demo_juju alice_session "alice@canonical.com/web.db" false jdemo r.1 (Ok tt))
    as [_ [[_ Hn]|Hd]]; [| |by destruct Hn|exact Hd].
  - intros o _ _. apply jdemo_offer. lia.
  - apply run_eq, Hok.
Defined.


(** ** Clouds *)

Lemma jempty_cloud fuel : (12 < fuel)%nat -> Clouds.removable_cloud fuel cloud_tag jempty.
Proof. intros Hf. split_and!; [reflexivity|by apply demo_size|apply jdemo_matching]. Defined.

Lemma cloud_commands_guarded_witness :
  let r := Clouds.run_cloud_cmd demo_juju bob_session cloud_tag (Clouds.CmdRemove 20) jdemo in
  still jdemo r.1 /\ r.2 <> Ok tt.
Proof.
  intros r. apply (Clouds.cloud_commands_guarded demo_juju bob_session cloud_tag (Clouds.CmdRemove 20) jdemo r.1 r.2).
  - reflexivity.
  - left. apply (no_access demo bob_session bob []); vm_compute; reflexivity.
  - apply surjective_pairing.
Defined.

Lemma cloud_roundtrip_witness :
  Clouds.pc_Regions (Clouds.ToJujuCloud (Clouds.FromJujuCloud fleet_cloud Clouds.zeroLoadedCloud)) = jc_Regions fleet_cloud.
Proof.
  destruct (Clouds.cloud_roundtrip fleet_cloud Clouds.zeroLoadedCloud) as [Hr _]; [|rewrite Hr; reflexivity].
  intros k [cfg Hk]. cbn in Hk. rewrite lookup_empty in Hk. discriminate Hk.
Defined.

Lemma RemoveCloud_effect_witness :
  let r := Clouds.RemoveCloud_ 20 demo_juju alice_session cloud_tag jempty in
  r.2 = Ok tt /\ Clouds.remove_post alice_session cloud_tag jempty (Ok tt) r.1.
Proof.
  intros r. assert (r.2 = Ok tt) as Hok by (vm_compute; reflexivity). split; [exact Hok|].
  apply (Clouds.RemoveCloud_effect 20 demo_juju alice_session cloud_tag jempty r.1 (Ok tt)).
  - apply jempty_cloud. lia.
  - apply run_eq, Hok.
Defined.

Lemma RemoveCloudFromController_effect_witness :
  let r := Clouds.RemoveCloudFromController 20 demo_juju alice_session "prod" cloud_tag jempty in
  r.2 = Ok tt /\ Clouds.remove_from_post alice_session "prod" cloud_tag jempty (Ok tt) r.1.
Proof.
  intros r. assert (r.2 = Ok tt) as Hok by (vm_compute; reflexivity). split; [exact Hok|].
  apply (Clouds.RemoveCloudFromController_effect 20 demo_juju alice_session "prod" cloud_tag jempty r.1 (Ok tt)).
  - apply jempty_cloud. lia.
  - apply run_eq, Hok.
Defined.

(** ** Credentials *)

Definition demo_credential : CloudCredential := MkCredential 1 "default" "aws" "alice@canonical.com" "access-key" (Some true).

Lemma GetCloudCredentialAttributes_confined_witness :
  let cred := (demo_credential, MkCloud 1 "aws" "ec2" "" ["access-key"] noEndpoints [] false None) in
  exists s' r, Credentials.GetCloudCredentialAttributes alice_session cred false jdemo = (s', Ok r) /\
    still jdemo s' /\ exists stored, Credentials.shown alice_session demo_credential cred.2 false stored r.
Proof.
  intros cred. destruct (ran (Credentials.GetCloudCredentialAttributes alice_session cred false) jdemo) as [r Hrun]; [vm_compute; reflexivity|].
  eexists _, r. split; [exact Hrun|].
  destruct (Credentials.GetCloudCredentialAttributes_confined alice_session demo_credential cred.2 false jdemo _ r Hrun)
    as (Hs & t & stored & _ & _ & Hsh). split; [exact Hs|]. exists stored. exact Hsh.
Defined.

Lemma RevokeCloudCredential_effect_witness :
  let r := Credentials.RevokeCloudCredential demo_juju (u_Identity alice_session) demo_cred jempty in
  r.2 = Ok tt /\ Credentials.revoke_post (u_Identity alice_session) demo_cred jempty (Ok tt) r.1.
Proof.
  intros r. assert (r.2 = Ok tt) as Hok by (vm_compute; reflexivity). split; [exact Hok|].
  apply (Credentials.RevokeCloudCredential_effect demo_juju (u_Identity alice_session) demo_cred jempty r.1 (Ok tt)).
  apply run_eq, Hok.
Defined.

Lemma UpdateCloudCredential_effect_witness :
  let args := Credentials.MkUpdateArgs demo_cred "access-key" demo_secret false false in
  let r := Credentials.UpdateCloudCredential demo_juju alice_session args jdemo in
  is_ok r.2 = true /\ Credentials.update_post alice_session args jdemo r.2 r.1.
Proof.
  intros args r. split; [vm_compute; reflexivity|].
  apply (Credentials.UpdateCloudCredential_effect demo_juju alice_session args jdemo r.1 r.2).
  - apply uniqueb_sound. vm_compute. reflexivity.
  - split; [apply uniqueb_sound; vm_compute; reflexivity|]. repeat constructor. discriminate.
  - apply surjective_pairing.
Defined.

(** ** The model builder *)

Lemma AddModel_placed_witness :
  let args := Builder.MkModelArgs "blog" "alice@canonical.com" ∅ cloud_tag "eu" (Some demo_cred) "" in
  exists s' mi, Builder.AddModel demo_juju alice_session args jdemo = (s', Ok mi) /\ Builder.placed jdemo alice_session args mi s'.
Proof.
  intros args. destruct (ran (Builder.AddModel demo_juju alice_session args) jdemo) as [mi Hrun]; [vm_compute; reflexivity|].
  eexists _, mi. split; [exact Hrun|].
  destruct (Builder.AddModel_placed demo_juju alice_session args jdemo
    (Builder.AddModel demo_juju alice_session args jdemo).1 (Ok mi)) as (_ & _ & _ & Hp); [| |exact Hrun|].
  - apply uniqueb_sound. vm_compute. reflexivity.
  - exact jdemo_models.
  - exact (Hp mi eq_refl).
Defined.

(** ** Controllers *)

Definition demo_spec := MkSpec ("model-" +:+ uuid_n 3)
  (MkTarget ("controller-" +:+ uuid_n 6) "staging" ["10.0.0.1:17070"] "" "user-admin@external" "secret" "").


Lemma jempty_models : Models.models_ok (w_db (fst jempty)).
Proof. split; [apply uniqueb_sound; vm_compute; reflexivity|]. constructor. Defined.

Lemma RemoveController_effect_witness :
  let r := Ctl.RemoveController "prod" false jempty in
  r.2 = Ok tt /\ Ctl.remove_post "prod" false jempty (Ok tt) r.1.
Proof.
  intros r. assert (r.2 = Ok tt) as Hok by (vm_compute; reflexivity). split; [exact Hok|].
  apply (Ctl.RemoveController_effect "prod" false jempty r.1 (Ok tt) jempty_models).
  apply run_eq, Hok.
Defined.

Definition demo_controller := MkController 0 "staging" "" "" "" "staging.example.com:443" "" "" "" false [] None.

Lemma AddController_effect_witness :
  let r := Ctl.AddController_ demo_juju None alice_session demo_controller (Ctl.MkCreds "admin" "secret") jdemo in
  r.2 = Ok tt /\ Ctl.add_post demo_juju None "staging" jdemo (Ok tt) r.1.
Proof.
  intros r. assert (r.2 = Ok tt) as Hok by (vm_compute; reflexivity). split; [exact Hok|].
  apply (Ctl.AddController_effect demo_juju None alice_session demo_controller (Ctl.MkCreds "admin" "secret") jdemo r.1 (Ok tt)).
  - split; [|split_and!]; apply uniqueb_sound; vm_compute; reflexivity.
  - apply run_eq, Hok.
Defined.

(** ** Migrations into JIMM *)

Record Described := MkDescribed {
  dd_owner : Tag; dd_users : list Migration.DescUser; dd_credential : option Migration.DescCredential; dd_name : string; dd_uuid : string;
}.

#[export] Instance demo_descriptions : Migration.Descriptions := {|
  Migration.Desc := Described;
  Migration.desc_Deserialize _ raw := inl (MkDescribed (MkTag UserTagKind "admin") [Migration.MkDescUser (MkTag UserTagKind "admin") "admin"]
    (Some (Migration.MkDescCredential "admin" "aws" "default" "access-key" ∅)) "moved" raw);
  Migration.desc_Serialize d := inl (dd_uuid d);
  Migration.desc_Owner := dd_owner;
  Migration.desc_Users := dd_users;
  Migration.desc_CloudRegion _ := "eu";
  Migration.desc_Applications _ := [Migration.MkDescApplication "db" [Migration.MkDescOffer (uuid_n 8) "store" {["admin" := "admin"]}]];
  Migration.desc_CloudCredential := dd_credential;
  Migration.desc_ConfigString d key := if decide (key = "name") then Some (dd_name d) else if decide (key = "uuid") then Some (dd_uuid d) else None;
  Migration.desc_SetOwner t d := MkDescribed t (dd_users d) (dd_credential d) (dd_name d) (dd_uuid d);
  Migration.desc_SetUsers us d := MkDescribed (dd_owner d) us (dd_credential d) (dd_name d) (dd_uuid d);
  Migration.desc_SetCloudCredential a d := MkDescribed (dd_owner d) (dd_users d)
    (Some (Migration.MkDescCredential (Id (Migration.dca_Owner a)) (Id (Migration.dca_Cloud a)) (Migration.dca_Name a) (Migration.dca_AuthType a)
       (Migration.dca_Attributes a))) (dd_name d) (dd_uuid d);
  Migration.MakeURL owner model offer := owner +:+ "/" +:+ model +:+ "." +:+ offer;
|}.
#[export] Instance demo_description_laws : Migration.DescriptionLaws.
Proof. split; intros; repeat split. Defined.

Definition demo_mapping : gmap string string := {["admin" := "alice@canonical.com"; "guest" := ""]}.
Definition demo_incoming := MkMigration 1 (-100000000000000) (Some (uuid_n 9)) 1 demo_mapping.

(** The deployment with a migration that was prepared a day ago. *)
Definition jmigrating : JW Ref Tbl Fleet := (MkWorld (w_fga demo) (put_migrations (MkTbl [demo_incoming] false) demo_db), demo_fleet_state).
(** After the import. *)
Definition jimported : JW Ref Tbl Fleet := (Migration.Import demo_juju alice_session (uuid_n 9) jmigrating).1.

Lemma versions_answered x : answered (version_Parse x).
Proof. unfold answered, version_Parse, demo_version. by destruct (List.find _ _). Defined.

Lemma modifyModelDescription_external_witness :
  let d := MkDescribed (MkTag UserTagKind "admin") [] (Some (Migration.MkDescCredential "admin" "aws" "default" "access-key" ∅)) "moved" (uuid_n 9) in
  exists d', Migration.modifyModelDescription d demo_mapping = Ok d' /\ IsLocal (dd_owner d') = false.
Proof.
  intros d. eexists. split; [reflexivity|]. eapply (@Migration.modifyModelDescription_external demo_descriptions _ _ d demo_mapping).
  - intros l e Hl Hv. unfold demo_mapping in Hl. apply lookup_insert_Some in Hl as [[_ <-]|[_ Hl]]; [reflexivity|].
    apply lookup_singleton_Some in Hl as [_ <-]. discriminate Hv.
  - reflexivity.
Defined.


Lemma Activate_effect_witness :
  let r := Migration.Activate demo_juju alice_session (MkTag ModelTagKind (uuid_n 9)) "" [] jimported in
  r.2 = Ok tt /\ Migration.activate_post (MkTag ModelTagKind (uuid_n 9)) jimported (Ok tt) r.1.
Proof.
  intros r. assert (r.2 = Ok tt) as Hok by (vm_compute; reflexivity). split; [exact Hok|].
  refine (Migration.Activate_effect (C:=Fleet) demo_juju alice_session (MkTag ModelTagKind (uuid_n 9)) ("" : Info) [] jimported r.1 (Ok tt) _ _ _).
  - split; [apply uniqueb_sound; vm_compute; reflexivity|].
    assert (forallb (fun m => negb (m_ID m =? 0)%Z) (rows (db_models (w_db (fst jimported)))) = true) as Hf by (vm_compute; reflexivity).
    apply Forall_forall. intros m Hm. rewrite forallb_forall in Hf. apply list_elem_of_In, Hf, negb_true_iff, Z.eqb_neq in Hm. exact Hm.
  - apply uniqueb_sound. vm_compute. reflexivity.
  - apply run_eq, Hok.
Defined.

Lemma CleanupPartialModelMigrations_effect_witness :
  let r := Migration.CleanupPartialModelMigrations demo_juju jimported in
  r.2 = Ok tt /\ Migration.cleanup_post jimported (Ok tt) r.1.
Proof.
  intros r. assert (r.2 = Ok tt) as Hok by (vm_compute; reflexivity). split; [exact Hok|].
  apply (Migration.CleanupPartialModelMigrations_effect demo_juju jimported r.1 (Ok tt)). apply run_eq, Hok.
Defined.
