(* ===== verification/StoreWitnesses.v ===== *)
(** * StoreWitnesses: the properties of keys, profiles and the audit log at
    concrete inputs.

    The deployment of [Witnesses], with a library of SSH keys whose keys are
    their own text. *)

From S2P Require Import Prelude Errors Regexp Names AuthModel RefServer OpenFGA Dbmodel Users Database RefDb TagResolver Access Managers JujuDb CloudDb JujuBase JujuModels ControllerDb SSHKeys Profiles AuditLog Witnesses AuthWitnesses.

(** ** Keys *)

#[export] Instance demo_ssh : SSHKeys.SSHLib := {|
  SSHKeys.Key := string;
  SSHKeys.ParsePublicKey := inl;
  SSHKeys.Marshal k := k;
  SSHKeys.FingerprintLegacyMD5 _ := "00:11";
  SSHKeys.KeysEqual a b := bool_decide (a = b);
|}.
#[export] Instance demo_ssh_laws : SSHKeys.SSHLaws.
Proof. split; [reflexivity|]. intros a b. apply bool_decide_eq_true. Defined.

Lemma VerifyPublicKey_sound_witness :
  (SSHKeys.VerifyPublicKey "alice@canonical.com" "ssh-ed25519 AAAA" demo_db).2 = Ok true /\
  exists k : string, SSHKeys.has_key demo_db "alice@canonical.com" k.
Proof.
  assert ((SSHKeys.VerifyPublicKey "alice@canonical.com" "ssh-ed25519 AAAA" demo_db).2 = Ok true) as Hok by (vm_compute; reflexivity).
  split; [exact Hok|].
  destruct (SSHKeys.VerifyPublicKey_sound "alice@canonical.com" "ssh-ed25519 AAAA" demo_db _ (Ok true) (run_eq _ _ _ Hok)) as (_ & _ & Hb).
  destruct (Hb true eq_refl) as (_ & k & _ & Hk). exists k. exact Hk.
Defined.

(** Bob removes a key of Alice by its comment, and cannot by its fingerprint. *)
Lemma key_removals_exact_witness :
  let model := SSHKeys.MkFilter (uuid_n 3) false in
  let by_comment := SSHKeys.RemoveUserKeyByComment bob_session model "alice@laptop" demo_db in
  let by_fingerprint := SSHKeys.RemoveUserKeyByFingerprint bob_session model "00:11" demo_db in
  (by_comment.2 = Ok tt /\ rows (db_sshkeys by_comment.1) = []) /\
  (by_fingerprint.2 <> Ok tt /\ length (rows (db_sshkeys by_fingerprint.1)) = 1%nat).
Proof.
  intros model by_comment by_fingerprint. split.
  - destruct (SSHKeys.key_removals_exact bob_session model "alice@laptop" demo_db) as [_ Hc].
    assert (by_comment.2 = Ok tt) as Hok by (vm_compute; reflexivity). split; [exact Hok|].
    fold by_comment in Hc. unfold SSHKeys.keys_removed in Hc. rewrite Hok in Hc. destruct Hc as (_ & _ & Hr & _). rewrite Hr. vm_compute. reflexivity.
  - destruct (SSHKeys.key_removals_exact bob_session model "00:11" demo_db) as [Hf _].
    assert (by_fingerprint.2 <> Ok tt) as Hno by (vm_compute; discriminate). split; [exact Hno|].
    fold by_fingerprint in Hf. unfold SSHKeys.keys_removed in Hf. destruct Hf as (_ & _ & Hr). destruct by_fingerprint.2 as [[]|e|p|]; [contradiction|..]; rewrite Hr; vm_compute; reflexivity.
Defined.

(** ** Profiles *)

Lemma PartialJujuVersionPrefixes_exact_witness : "3.6" ∈ Profiles.PartialJujuVersionPrefixes "3.6.9".
Proof. apply (Profiles.PartialJujuVersionPrefixes_exact "3.6.9" "3.6"); [discriminate|]. right. exists "9". reflexivity. Defined.

Definition demo_profile := MkProfile 0 "prod" "3.6" 0 "aws" "eu" "" "" "".
Definition demo_profile_2 := MkProfile 0 "prod" "3.6" 0 "aws" "eu" "" "" "other".

Lemma SaveControllerProfile_no_lost_update_witness :
  let r1 := Profiles.SaveControllerProfile demo_profile demo_db in
  exists p', r1.2 = Ok p' /\ forall q', (Profiles.SaveControllerProfile demo_profile_2 r1.1).2 <> Ok q'.
Proof.
  intros r1. destruct (ran (Profiles.SaveControllerProfile demo_profile) demo_db) as [p' Hrun]; [vm_compute; reflexivity|].
  exists p'. split; [unfold r1; rewrite Hrun; reflexivity|].
  apply (Profiles.SaveControllerProfile_no_lost_update demo_profile demo_profile_2 p' demo_db r1.1
    (Profiles.SaveControllerProfile demo_profile_2 r1.1).1 _).
  - split; [apply uniqueb_sound; vm_compute; reflexivity|constructor].
  - cbn. lia.
  - reflexivity.
  - reflexivity.
  - exact Hrun.
  - apply surjective_pairing.
Defined.

(** ** The audit log *)

Lemma calculateNextPollDuration_next_witness :
  let now := 1700000000000000000%Z in
  ((now + AuditLog.calculateNextPollDuration AuditLog.auditLogCleanupTime now) mod AuditLog.day = 9 * AuditLog.hour)%Z.
Proof.
  intros now. destruct (AuditLog.calculateNextPollDuration_next AuditLog.auditLogCleanupTime now) as [_ Heq]; [split; [discriminate|reflexivity]|].
  exact Heq.
Defined.

Definition demo_login := MkAudit 0 5 "" "c1" 1 "Admin" "LoginWithSessionToken" 4 "" "user-alice@canonical.com" false (Some "secret") None.


Definition demo_auditor := AuditLog.MkAuditManager jimm_tag 30.
Definition demo_logged : World Ref Tbl := (AuditLog.AddAuditLogEntry demo_login demo).1.
Definition demo_filter := AuditLog.MkAuditFilter None None "" "" "" 0 10 true.

Lemma FindAuditEvents_confined_witness :
  let r := AuditLog.FindAuditEvents demo_auditor admin_session demo_filter demo_logged in
  is_ok r.2 = true /\ AuditLog.found_post demo_auditor admin_session demo_filter demo_logged r.2 r.1.
Proof.
  intros r. split; [vm_compute; reflexivity|].
  apply (AuditLog.FindAuditEvents_confined demo_auditor admin_session demo_filter demo_logged r.1 r.2). apply surjective_pairing.
Defined.

Lemma PurgeLogs_exact_witness :
  let r := AuditLog.PurgeLogs demo_auditor admin_session 10 demo_logged in
  r.2 = Ok 1%Z /\ AuditLog.entries r.1 = [].
Proof.
  intros r. assert (r.2 = Ok 1%Z) as Hok by (vm_compute; reflexivity). split; [exact Hok|].
  destruct (AuditLog.PurgeLogs_exact demo_auditor admin_session 10 demo_logged r.1 (Ok 1%Z)) as (_ & _ & _ & _ & Hr & _); [apply run_eq, Hok|].
  rewrite Hr. vm_compute. reflexivity.
Defined.
