(* ===== verification/RpcWitnesses.v ===== *)
(** * RpcWitnesses: the properties of the RPC client, of its connections and
    of the list of supported versions at concrete inputs. *)

From S2P Require Import Prelude Errors GoStrings Regexp Names RpcClient RpcDial Versions.

(** ** The client

    Two calls are made; the second is answered first, then the first one, and
    both return. *)

Definition ping (method : string) := Client.MkCall "Pinger" 1 "" method None None.
Definition pong (id : Z) (text : string) := Client.MkMessage id "" 0 "" "" "" "" "" None text.
Definition two_calls : list Client.event :=
  [Client.ECall 0 (ping "Ping") None; Client.ECall 1 (ping "Ping") None; Client.ERecv (inl (pong 2 "b")) None;
   Client.ERecv (inl (pong 1 "a")) None; Client.EResponse 0; Client.EResponse 1; Client.ELeave 1; Client.ELeave 0].

Definition after (evs : list Client.event) : Client.client := default Client.NewClient (Client.steps evs Client.NewClient).

Lemma ran_steps evs c : Client.steps evs Client.NewClient = Some c -> Client.run (rev evs) c.
Proof.
  intros Hst. rewrite <- (app_nil_r (rev evs)). exact (Client.run_steps [] Client.NewClient evs c Client.run_start Hst).
Defined.

Lemma table_exact_witness : Client.msgs (after (take 2 two_calls)) !! 2%Z = Some 1%nat.
Proof.
  destruct (Client.table_exact (rev (take 2 two_calls)) (after (take 2 two_calls))) as (Ht & _).
  - apply ran_steps. vm_compute. reflexivity.
  - vm_compute. reflexivity.
  - apply Ht. vm_compute. reflexivity.
Defined.

Lemma answers_matched_witness :
  exists m, Client.calls (after two_calls) !! 0%nat = Some (Client.Returned (Client.Answered m None)) /\
    Client.Response m = "a" /\ exists q, Client.Req 0 q ∈ Client.sent (after two_calls) /\ Client.RequestID q = Client.RequestID m.
Proof.
  exists (pong 1 "a"). split; [vm_compute; reflexivity|]. split; [reflexivity|].
  destruct (Client.answers_matched (rev two_calls) (after two_calls) 0 (Client.Answered (pong 1 "a") None)) as (_ & Hm).
  - apply ran_steps. vm_compute. reflexivity.
  - vm_compute. reflexivity.
  - vm_compute. reflexivity.
  - destruct (Hm _ _ eq_refl) as (_ & _ & q & Hq & Hid & _). exists q. split; [exact Hq|exact Hid].
Defined.

(** A call waits when the connection breaks. *)
Definition broken_off : list Client.event := [Client.ECall 0 (ping "Ping") None; Client.ERecv (inr (New "EOF")) None].


(** ** Dialling *)

Definition attempts : list (nat + gerror) := [inr (New "refused"); inl 1%nat; inl 2%nat].

Lemma dialAll_keeps_one_witness : Dial.dialAll ["a"; "b"; "c"] attempts = ((Some 1%nat, None), [2%nat]).
Proof.
  pose proof (Dial.dialAll_keeps_one ["a"; "b"; "c"] attempts eq_refl) as Hd.
  destruct (Dial.dialAll ["a"; "b"; "c"] attempts) as [[conn err] closed] eqn:E. destruct conn as [c|].
  - destruct Hd as [-> Hc]. simplify_eq/=. reflexivity.
  - destruct Hd as [Hc _]. discriminate.
Defined.

(** Backends that are numbers; only the second one answers. *)
#[export] Instance demo_backends : Transport.Backends (list nat) := {|
  Transport.url := nat;
  Transport.request := nat;
  Transport.response := string;
  Transport.JoinPath u _ := inl u;
  Transport.has_body _ := true;
  Transport.base_RoundTrip r asked := (asked ++ [r], (if decide (r = 20%nat) then inl "ok" else inr (New "refused"), false));
|}.

Definition demo_transport : @Transport.multiBackendTransport (list nat) demo_backends :=
  @Transport.MkTransport (list nat) demo_backends [10; 20; 30]%nat 2.

Lemma RoundTrip_in_turn_witness :
  let r := Transport.RoundTrip demo_transport 0%nat [] in
  r.2 = Ok "ok" /\ r.1.2 = [30; 10; 20]%nat /\ (Transport.currentURLIndex r.1.1.1 < 3)%nat.
Proof.
  intros r. split; [vm_compute; reflexivity|]. split; [vm_compute; reflexivity|].
  apply (Transport.RoundTrip_in_turn demo_transport 0%nat []). simpl. lia.
Defined.

(** ** Versions

    Versions are numbers written in decimal, without tags. *)

Definition demo_numbers : list (string * Z) := [("3.6.5", 365); ("3.6.9", 369); ("4.0.0", 400); ("4.0.1", 401); ("4.0.2", 402); ("4.0.3", 403)]%Z.
Definition number_of (s : string) : option Z := snd <$> find (fun e => bool_decide (e.1 = s)) demo_numbers.
Definition text_of (z : Z) : string := default "" (fst <$> find (fun e => bool_decide (e.2 = z)) demo_numbers).

Definition release_version : JujuVersion := {|
  Number := Z;
  version_Parse s := match number_of s with Some v => Ok v | None => Err (New "invalid version") end;
  version_Compare a b := (a - b)%Z;
|}.
Definition release_text : @Versions.VersionText release_version := @Versions.Build_VersionText release_version text_of (fun _ => "") _.

Lemma release_laws : @Versions.VersionLaws release_version release_text.
Proof.
  split; simpl; [lia|lia|]. intros s v. destruct (number_of s) as [w|] eqn:Hn; [|discriminate]. intros [= ->].
  unfold number_of in Hn. simpl in Hn. repeat (case_match; [simplify_eq/=; reflexivity|]). discriminate.
Defined.

(** Two pages of releases and a clock that stands still. *)
Definition release (tag : string) := Some (Versions.MkRelease false false tag "2026-01-01" "").
#[export] Instance demo_releases : Versions.Releases unit := {|
  Versions.ListReleases page _ := (tt, inl (if (page =? 1)%Z then ([release "v3.6.9"; release "4.0.1"; None], 2%Z) else ([release "v4.0.3"], 0%Z)));
  Versions.now _ := (tt, 5%Z);
  Versions.last_page _ := 2%Z;
|}.
#[export] Instance demo_releases_laws : Versions.ReleasesLaws unit.
Proof.
  split; [|reflexivity]. intros page [] [] rs next. simpl. destruct (Z.eqb_spec page 1) as [->|]; intros [= <- <-]; lia.
Defined.

Lemma SupportedVersions_sound_witness :
  let r := @Versions.SupportedVersions release_version release_text unit demo_releases 2 (Some "3.6.5") (Versions.noCache, tt) in
  Versions.ve_Version <$> (match r.2 with Ok l => l | _ => [] end) = ["4.0.3"; "3.6.9"] /\
  @Versions.list_ok release_version release_text (Versions.entries r.1.1).
Proof.
  intros r. split; [vm_compute; reflexivity|].
  destruct (@Versions.SupportedVersions_sound release_version release_text unit demo_releases release_laws demo_releases_laws
    2 (Some "3.6.5") Versions.noCache tt r.1 r.2) as (Hc & _).
  - split; [exists []; split; constructor|constructor].
  - simpl. lia.
  - lia.
  - reflexivity.
  - apply surjective_pairing.
  - exact Hc.
Defined.
