(* ===== verification/UpgradeWitnesses.v ===== *)
(** * UpgradeWitnesses: the properties of upgrades and of their jobs at
    concrete inputs. *)

From S2P Require Import Prelude Errors GoStrings Regexp Names AuthModel RefServer OpenFGA Dbmodel Users Database RefDb Encoding JujuDb CloudDb JujuBase JujuModels ControllerDb JujuControllers RpcProxy Jobs Upgrade Witnesses AuthWitnesses JujuWitnesses.

(** ** Jobs

    A queue that is a list, the last job first. *)

#[local] Existing Instance Jobs.JobState_eq.

Definition demo_metadata_text (metadata : json) (key : string) : option string :=
  match metadata with
  | JObj fields => match List.find (fun p => bool_decide (p.1 = key)) fields with Some (_, JStr v) => Some v | _ => None end
  | _ => None
  end.

#[export] Instance demo_querier : Jobs.JobQuerier (list Jobs.JobRow) := {|
  Jobs.ListJobs p env := (env, inl (fmap (M:=list) Some (take (Jobs.jp_First p) (List.filter (fun j =>
    bool_decide (Jobs.j_Kind j = Jobs.jp_Kind p) && bool_decide (Jobs.j_State j ∈ Jobs.jp_States p) &&
    match Jobs.jp_Where p with None => true | Some (k, v) => bool_decide (demo_metadata_text (Jobs.j_Metadata j) k = Some v) end) env))));
  Jobs.metadata_text := demo_metadata_text;
  Jobs.stored env := env;
  Jobs.stored_desc env := env;
|}.
#[export] Instance demo_job_laws : Jobs.JobLaws (list Jobs.JobRow).
Proof.
  split; [reflexivity|]. intros p env env' l [= <- <-]. split; [reflexivity|]. split; [reflexivity|].
  exists env. split; [reflexivity|]. split; [reflexivity|]. reflexivity.
Defined.

Definition demo_job (id : Z) (uuid : string) (state : Jobs.JobState) : Jobs.JobRow :=
  Jobs.MkJob id "upgrade-to" state (JObj [("model-uuid", JStr uuid)]) None 1 4 None None [].
Definition demo_jobs : list Jobs.JobRow :=
  [demo_job 4 (uuid_n 3) Jobs.Cancelled; demo_job 3 (uuid_n 9) Jobs.Completed; demo_job 2 (uuid_n 3) Jobs.Running; demo_job 1 (uuid_n 9) Jobs.Discarded].

Lemma demo_job_ok id uuid state : Jobs.metadata_ok (demo_job id uuid state).
Proof.
  split; [reflexivity|]. intros u _. change (Some uuid = Some u <-> uuid = u). split; [intros [= ->]; reflexivity|intros ->; reflexivity].
Defined.


(** ** Upgrades *)

Fixpoint demo_retry {W} (fatal : gerror -> bool) (n : nat) (f : M W unit) : M W unit := fun w =>
  match f w with
  | (w', Err e) => if fatal e then (w', Err e) else match n with S (S _ as n) => demo_retry fatal n f w' | _ => (w', Err e) end
  | r => r
  end.
#[export] Instance demo_retries : Upgrade.Retry := {| Upgrade.attemptsExceeded e := e; Upgrade.retry_Call W := demo_retry |}.
#[export] Instance demo_retry_laws : Upgrade.RetryLaws.
Proof.
  split. intros W fatal n f. simpl. induction n as [|n IH]; intros w w' o Hn Hr; [lia|]. simpl in Hr.
  destruct (f w) as [w1 [a|e|p|]] eqn:Hf.
  - injection Hr as <- <-. by apply Upgrade.retried_end.
  - destruct (fatal e) eqn:He; [injection Hr as <- <-; by apply Upgrade.retried_fatal|].
    destruct n as [|n]; [injection Hr as <- <-; exact (Upgrade.retried_last fatal (fun e => e) f w w1 e Hf He)|].
    eapply Upgrade.retried_again; [exact Hf|exact He|]. apply IH; [lia|exact Hr].
  - injection Hr as <- <-. by apply Upgrade.retried_end.
  - injection Hr as <- <-. by apply Upgrade.retried_end.
Defined.

(** The agents of the models run the version 30. *)
#[export] Instance demo_upgrade_info : Upgrade.UpgradeInfo Fleet := {|
  Upgrade.info_AgentVersion _ := Some (30%Z : Number);
  Upgrade.info_MigrationStatus _ := "";
  Upgrade.format_RFC3339 _ := "";
  Upgrade.version_text _ := "3.6.30";
  Upgrade.version_Zero := 0%Z : Number;
  Upgrade.version_eq_dec := Z.eq_dec;
  Upgrade.IsAlreadyExists _ := false;
|}.
#[export] Instance demo_enqueuer : Upgrade.Enqueuer Fleet := {| Upgrade.EnqueueUpgradeTo _ := answer (7%Z, false) |}.

(** The deployment with a second controller in the region, which is newer. *)
Definition next_controller : Controller :=
  MkController 2 "next" (uuid_n 6) "999.0.0" "" "next.example.com:443" "" "aws" "eu" false [] None.
Definition jtwo : JW Ref Tbl Fleet :=
  (MkWorld (w_fga demo) (put_controllers (MkTbl [Witnesses.demo_controller; next_controller] false)
     (put_priorities (MkTbl [MkPriority 1 1 1 CloudRegionControllerPriorityDeployed; MkPriority 2 1 2 CloudRegionControllerPrioritySupported] false) demo_db)),
   demo_fleet_state).

Definition demo_target : @Number demo_version := 23%Z.

Lemma UpgradeModel_effect_witness :
  let r := Upgrade.UpgradeModel demo_juju (uuid_n 3) demo_target jdemo in
  r.2 = Ok tt /\ exists mt, Id mt = uuid_n 3 /\ Upgrade.upgraded (C:=Fleet) mt (uuid_n 3) demo_target.
Proof.
  intros r. assert (r.2 = Ok tt) as Hok by (vm_compute; reflexivity). split; [exact Hok|].
  apply (Upgrade.UpgradeModel_effect (C:=Fleet) demo_juju (uuid_n 3) demo_target jdemo r.1 (Ok tt)); [|reflexivity].
  apply run_eq, Hok.
Defined.

Lemma MigrateModel_arrives_witness :
  let r := Upgrade.MigrateModel 100 demo_juju alice_session (uuid_n 3) "prod" jdemo in
  r.2 = Ok tt /\ Upgrade.on_controller (uuid_n 3) "prod" r.1.
Proof.
  intros r. assert (r.2 = Ok tt) as Hok by (vm_compute; reflexivity). split; [exact Hok|].
  apply (Upgrade.MigrateModel_arrives 100 demo_juju alice_session (uuid_n 3) "prod" jdemo); [discriminate|]. apply run_eq, Hok.
Defined.

Lemma UpgradeTo_queues_witness :
  let r := Upgrade.UpgradeTo alice_session (uuid_n 3) "next" jtwo in
  r.2 = Ok 7%Z /\ Upgrade.upgrade_queued alice_session (uuid_n 3) "next" jtwo r.1 7.
Proof.
  intros r. assert (r.2 = Ok 7%Z) as Hok by (vm_compute; reflexivity). split; [exact Hok|].
  apply (Upgrade.UpgradeTo_queues alice_session (uuid_n 3) "next" jtwo r.1 7). apply run_eq, Hok.
Defined.
