(* ===== verification/FacadeWitnesses.v ===== *)
(** * FacadeWitnesses: the properties of connections, watchers and methods at
    concrete inputs. *)

From S2P Require Import Prelude Errors GoStrings Regexp Names AuthModel RefServer OpenFGA Dbmodel Users Database RefDb Encoding TagResolver Access AuthService Login JujuDb CloudDb JujuBase JujuModels ControllerDb JujuControllers JujuMigration Upgrade AuditLog PubSub Watchers Root JujuClouds JujuCredentials ModelBuilder Facade CloudApi Witnesses AuthWitnesses JujuWitnesses StoreWitnesses UpgradeWitnesses.

Lemma some_of {A} (o : option A) : match o with Some _ => true | None => false end = true -> exists a, o = Some a.
Proof. destruct o as [a|]; [intros _; by exists a|discriminate]. Defined.

(** ** Connections *)

Definition demo_root_params : Root.Params := Root.MkParams (uuid_n 1) "jimm.example.com".
Definition demo_context : Auth.Context_ := Auth.MkContext None None.
Local Abbreviation demo_step := (Root.step (C:=Fleet) (F:=Ref) (P:=provider) (T:=Tbl) demo_service jimm_tag demo_root_params demo_context).
Local Abbreviation demo_event := (Root.event (C:=Fleet) (F:=Ref) (P:=provider) (T:=Tbl)).

(** The events, the first one first. *)
Fixpoint demo_connect (evs : list demo_event) (c : Root.connection) : option Root.connection :=
  match evs with [] => Some c | ev :: evs => match demo_step ev c with Some c => demo_connect evs c | None => None end end.

Lemma demo_connected evs evs' c c' :
  Forall Root.allowed evs -> Root.run demo_service jimm_tag demo_root_params demo_context "" evs' c -> demo_connect evs c = Some c' ->
  Root.run demo_service jimm_tag demo_root_params demo_context "" (rev evs ++ evs') c'.
Proof.
  intros Hev. revert evs' c. induction Hev as [|ev evs Ha Hev IH]; intros evs' c Hr Hc; simpl in *; [by injection Hc as <-|].
  destruct (demo_step ev c) as [c1|] eqn:Hst; [|done]. rewrite <- app_assoc. simpl. apply (IH (ev :: evs') c1); [|done].
  by eapply Root.run_step.
Defined.

(** A service account logs in; the first method of a facade is registered. *)
Definition demo_login_events : list demo_event :=
  [Root.ECall 0 "Admin" 4 "LoginWithClientCredentials" "" (Root.ClientCredentials "robot" "secret"); Root.ELogin 0 staff_world;
   Root.ESetUser 0; Root.EVersion 0 jdemo; Root.EInfo 0 (w_fga demo); Root.EFacades 0 Root.facadeInit; Root.ERegister 0].

Lemma demo_events_allowed : Forall Root.allowed demo_login_events.
Proof. repeat constructor. Defined.


Lemma Kill_cancels_running_witness :
  exists c, demo_connect [Root.ECall 0 "Admin" 4 "LoginDevice" "" Root.NoArguments] (Root.newControllerRoot "") = Some c /\
    Root.inflight (Root.Kill c) !! 0%Z = Some true.
Proof.
  set (evs := [Root.ECall 0 "Admin" 4 "LoginDevice" "" Root.NoArguments]).
  destruct (some_of (demo_connect evs (Root.newControllerRoot ""))) as [c Hc]; [vm_compute; reflexivity|].
  exists c. split; [exact Hc|]. assert (Forall Root.allowed evs) as Ha by (repeat constructor).
  pose proof (demo_connected evs [] _ _ Ha (Root.run_start _ _ _ _ "") Hc) as Hrun.
  destruct (Root.Kill_cancels_running demo_service jimm_tag demo_root_params demo_context "" _ c Hrun) as (Hk & _ & _); [vm_compute; reflexivity|].
  assert (match demo_connect evs (Root.newControllerRoot "") with
          | Some c => match Root.calls c !! 0%nat with Some (n, _) => Z.eqb n 0 | None => false end | None => false end = true) as Hm
    by (vm_compute; reflexivity).
  rewrite Hc in Hm. destruct (Root.calls c !! 0%nat) as [[n ph]|] eqn:Hg; [|discriminate]. apply Z.eqb_eq in Hm as ->. exact (Hk 0%nat 0%Z ph Hg).
Defined.

(** The map is ranged over backwards. *)
Lemma setupFacades_table_witness : Root.setupFacades (rev Root.facadeInit) = Root.SupportedFacadeVersions.
Proof.
  apply (Root.setupFacades_table (rev Root.facadeInit)). symmetry. apply Permutation_rev.
Defined.

(** ** Watchers *)

Local Abbreviation watch_event := (Watch.event (C:=Fleet) (F:=Ref) (T:=Tbl)).
Fixpoint demo_watch (evs : list watch_event) (st : Watch.state) : option Watch.state :=
  match evs with [] => Some st | ev :: evs => match Watch.step ev st with Some st => demo_watch evs st | None => None end end.
Lemma demo_watched n evs evs' st st' : Watch.run n evs' st -> demo_watch evs st = Some st' -> Watch.run n (rev evs ++ evs') st'.
Proof.
  revert evs' st. induction evs as [|ev evs IH]; intros evs' st Hr Hs; simpl in *; [by injection Hs as <-|].
  destruct (Watch.step ev st) as [st1|] eqn:Hst; [|done]. rewrite <- app_assoc. simpl. apply (IH (ev :: evs') st1); [|done].
  by eapply Watch.run_step.
Defined.

Definition demo_abstract := Watch.MkAbstract (uuid_n 3) "web".
Definition demo_watch_events : list watch_event :=
  [Watch.EWatch 0 "w" Watch.OwnModels alice_session jdemo; Watch.EPublish (uuid_n 3) (Some demo_abstract); Watch.EHandle 0].

Lemma summaries_seen_witness :
  exists m user s, Watch.visible (F:=Ref) (T:=Tbl) (C:=Fleet) user m s /\ Watch.EPublish m (Some demo_abstract) ∈ rev demo_watch_events ++ [].
Proof.
  destruct (some_of (demo_watch demo_watch_events (Watch.start_state 5))) as [st Hst]; [vm_compute; reflexivity|].
  pose proof (demo_watched 5 _ [] _ _ (Watch.run_start 5) Hst) as Hrun.
  assert (exists w, Watch.watchers st !! 0%nat = Some w /\ demo_abstract ∈ Watch.Next w) as (w & Hw & Ha).
  { assert (match demo_watch demo_watch_events (Watch.start_state 5) with
            | Some st => match Watch.watchers st !! 0%nat with Some w => Watch.Next w | None => [] end | None => [] end = [demo_abstract]) as Hn
      by (vm_compute; reflexivity). rewrite Hst in Hn.
    destruct (Watch.watchers st !! 0%nat) as [w|] eqn:Hw; [|discriminate]. exists w. split; [reflexivity|]. rewrite Hn. left. }
  destruct (Watch.summaries_seen 5 _ st 0%nat w demo_abstract Hrun Hw Ha) as (m & user & s & Hp & _ & Hv). exists m, user, s. exact (conj Hv Hp).
Defined.

(** ** Methods *)

#[export] Instance demo_texts : Facade.Texts := {|
  Facade.time_Parse s := if bool_decide (s = "1970-01-01T00:00:00Z") then Ok 0%Z else Err (New "parsing time");
  Facade.time_Format t := pretty t;
  Facade.ParseNonStrict s := negb (bool_decide (s = ""));
  Facade.Entity_String e := EKind e;
|}.
Definition demo_root (user : User) (masking : bool) : Facade.controllerRoot :=
  Facade.MkRoot user masking (uuid_n 1) demo_juju demo_manager demo_auditor.

Lemma admin_calls_guarded_witness :
  let r := Facade.run_admin 20 (fun _ => true) (fun _ => true) (demo_root bob_session true) (Facade.CallRemoveController "prod" true) jdemo in
  r.1 = jdemo /\ r.2 <> Ok tt.
Proof.
  intros r. apply (Facade.admin_calls_guarded 20 (fun _ => true) (fun _ => true) (demo_root bob_session true)
    (Facade.CallRemoveController "prod" true) jdemo); [reflexivity|apply surjective_pairing].
Defined.

(** Alice sees the identifier of JIMM. *)
Lemma controller_masked_witness :
  exists s' l, Facade.ListModelSummaries (demo_root alice_session true) jdemo = (s', Ok l) /\ length l = 1%nat /\ Forall (fun x => Facade.sr_ControllerUUID x = uuid_n 1) l.
Proof.
  destruct (ran (Facade.ListModelSummaries (demo_root alice_session true)) jdemo) as [l Hrun]; [vm_compute; reflexivity|].
  eexists _, l. split; [exact Hrun|]. split.
  - assert (match (Facade.ListModelSummaries (demo_root alice_session true) jdemo).2 with Ok l => length l | _ => 0%nat end = 1%nat) as Hl
      by (vm_compute; reflexivity).
    rewrite Hrun in Hl. exact Hl.
  - destruct (Facade.controller_masked 20 (demo_root alice_session true) jdemo
      (Facade.ListModelSummaries (demo_root alice_session true) jdemo).1 eq_refl ltac:(discriminate)) as (_ & _ & Hm).
    exact (Hm l Hrun).
Defined.

(** Eve asks for a model that is hidden and for one that does not exist. *)
Lemma models_hidden_witness :
  exists s' rs, Facade.ModelInfo_ 20 (demo_root (session "eve@canonical.com" false []) true) ["model-" +:+ uuid_n 3; "model-" +:+ uuid_n 8] jdemo = (s', Ok rs) /\ length rs = 2%nat /\ forall e, inr e ∈ rs -> Facade.je_Code e <> CodeNotFound.
Proof.
  set (r := demo_root _ _). set (es := [_; _]).
  destruct (ran (Facade.ModelInfo_ 20 r es) jdemo) as [rs Hrun]; [vm_compute; reflexivity|]. eexists _, rs. split; [exact Hrun|].
  destruct (Facade.models_hidden 20 r jdemo (Facade.ModelInfo_ 20 r es jdemo).1) as [Hm _]. exact (Hm es rs Hrun).
Defined.

Definition demo_request := Facade.MkAuditRequest "" "" "" "" "" 0 5000 true.
Lemma audit_events_bounded_witness :
  let s := (demo_logged, demo_fleet_state) in
  exists s' es, Facade.FindAuditEvents (demo_root admin_session true) demo_request s = (s', Ok es) /\ (Z.of_nat (length es) <= 1000)%Z.
Proof.
  intros s. destruct (ran (Facade.FindAuditEvents (demo_root admin_session true) demo_request) s) as [es Hrun]; [vm_compute; reflexivity|].
  eexists _, es. split; [exact Hrun|]. exact (proj1 (Facade.audit_events_bounded (demo_root admin_session true) demo_request s _ es Hrun)).
Defined.

(** An administrator acts for bob. *)
Lemma masquerade_by_admin_witness :
  exists s' u, Facade.masquerade jimm_tag admin_session "user-bob@canonical.com" auth_world = (s', Ok u) /\ u_Name u <> u_Name admin_session.
Proof.
  destruct (ran (Facade.masquerade jimm_tag admin_session "user-bob@canonical.com") auth_world) as [u Hrun]; [vm_compute; reflexivity|].
  eexists _, u. split; [exact Hrun|].
  destruct (Facade.masquerade_by_admin jimm_tag admin_session "user-bob@canonical.com" auth_world _ u auth_db_ok Hrun)
    as [(_ & _ & ut & Hp & Hu)|(_ & ut & Hp & _ & _ & _ & (i & Hi & Hn) & _)].
  - exfalso. vm_compute in Hp. injection Hp as <-. vm_compute in Hu. discriminate.
  - vm_compute in Hp. injection Hp as <-. rewrite Hn. vm_compute in Hi. injection Hi as <-. discriminate.
Defined.

(** ** Clouds and credentials *)

#[export] Instance demo_juju_errors : CloudApi.JujuErrors Fleet := {|
  CloudApi.Combine errs := New (String.concat "; " (fmap (M:=list) Facade.je_Message errs));
  CloudApi.Annotate e _ := e;
  CloudApi.ServerError := Facade.mapError;
|}.

(** Alice may add models to the cloud. *)
Lemma clouds_shown_witness :
  exists s' m, CloudApi.Clouds_ (demo_root alice_session true) jdemo = (s', Ok m) /\ size m = 1%nat /\
    map_Forall (CloudApi.usable jdemo alice_session) m.
Proof.
  destruct (ran (CloudApi.Clouds_ (demo_root alice_session true)) jdemo) as [m Hrun]; [vm_compute; reflexivity|].
  eexists _, m. split; [exact Hrun|]. split.
  - assert (match (CloudApi.Clouds_ (demo_root alice_session true) jdemo).2 with Ok m => size m | _ => 0%nat end = 1%nat) as Hl by (vm_compute; reflexivity).
    rewrite Hrun in Hl. exact Hl.
  - destruct (CloudApi.clouds_shown (demo_root alice_session true) jdemo (CloudApi.Clouds_ (demo_root alice_session true) jdemo).1 eq_refl) as (Hm & _ & _).
    exact (proj2 (Hm m Hrun)).
Defined.

(** Alice asks for the secrets of her credential. *)
Lemma credentials_disclosed_witness :
  exists s' rs, CloudApi.CredentialContents (demo_root alice_session true) [("aws", "default")] true jdemo = (s', Ok rs) /\
    forall x, inl x ∈ rs -> CloudApi.content_disclosed jdemo alice_session true x.
Proof.
  destruct (ran (CloudApi.CredentialContents (demo_root alice_session true) [("aws", "default")] true) jdemo) as [rs Hrun]; [vm_compute; reflexivity|].
  eexists _, rs. split; [exact Hrun|].
  destruct (CloudApi.credentials_disclosed (demo_root alice_session true) jdemo
    (CloudApi.CredentialContents (demo_root alice_session true) [("aws", "default")] true jdemo).1) as [_ Hc].
  exact (proj2 (Hc [("aws", "default")] true rs Hrun)).
Defined.

Definition demo_tagged := [MkTagged "cloudcred-aws_alice@canonical.com_default" "access-key" ∅; MkTagged "model-x" "" ∅].
Lemma AddCredentials_reports_witness :
  exists s' errs, CloudApi.AddCredentials (demo_root alice_session true) demo_tagged jdemo = (s', Ok errs) /\ length errs = 2%nat.
Proof.
  destruct (ran (CloudApi.AddCredentials (demo_root alice_session true) demo_tagged) jdemo) as [errs Hrun]; [vm_compute; reflexivity|].
  eexists _, errs. split; [exact Hrun|].
  destruct (CloudApi.AddCredentials_reports (demo_root alice_session true) demo_tagged jdemo _ errs Hrun) as (results & _ & H1 & H2).
  apply Forall2_length in H1, H2. rewrite <- H2, <- H1. reflexivity.
Defined.
