(* ===== verification/BootstrapWitnesses.v ===== *)
(** * BootstrapWitnesses: the properties of bootstraps, of the client's cache
    and of the logs of jobs at concrete inputs. *)

From S2P Require Import Prelude Errors GoStrings Regexp Names AuthModel RefServer OpenFGA Dbmodel Users Database RefDb Encoding JujuDb CloudDb JujuBase JujuModels ControllerDb JujuControllers RpcProxy Jobs JobLog Upgrade JujuCommands CliStore Bootstrap Witnesses AuthWitnesses JujuWitnesses UpgradeWitnesses.

(** ** Logs *)

Lemma demo_lock_law R (t : Tbl R) : wp (mret tt) (fun o t' => answered o /\ rows t' = rows t) t.
Proof. by split. Qed.
#[export] Instance demo_table_lock : JobLogs.TableLock Tbl := {| JobLogs.gorm_lock R := mret tt; JobLogs.law_lock := demo_lock_law |}.

(** Two lines, of which the client has read one. *)
Definition log0 : JobLogs.LogDb Tbl := (demo_db, MkTbl [] false).
Definition log1 := (JobLogs.AddJobLog 7 "downloading" log0).1.
Definition log2 := (JobLogs.QueryJobLog 7 0 log1).1.
Definition log3 := (JobLogs.AddJobLog 8 "other" log2).1.
Definition log4 := (JobLogs.AddJobLog 7 "done" log3).1.


(** ** The outside world *)

Definition demo_archive : list (Commands.TarEntry string + gerror) := [inl (Commands.MkTar false "bin" ""); inl (Commands.MkTar true "bin/juju" "elf")].

#[export] Instance demo_system : Commands.System Fleet := {|
  Commands.Credential := string;
  Commands.NewNamedCredential name _ _ _ := name;
  Commands.Bytes := string;
  Commands.GOOS := "linux";
  Commands.GOARCH := "amd64";
  Commands.version_ParseBinary _ := false;
  Commands.version_parts v := (3, 6, v)%Z;
  Commands.exec_StdoutPipe := answer tt;
  Commands.exec_StderrPipe := answer tt;
  Commands.exec_Start _ _ _ := answer (["working"; "done"], None);
  Commands.os_LookupEnv _ _ := None;
  Commands.SetJujuXDGDataHome _ c := c;
  Commands.store_UpdateCredential _ _ := answer tt;
  Commands.store_AddController _ _ := answer tt;
  Commands.store_UpdateAccount _ _ := answer tt;
  Commands.store_ControllerByName _ := answer (Commands.MkDetails "" "aws" "eu" ["10.0.0.1:17070"] "" "staging.example.com:443");
  Commands.store_AccountDetails _ := answer (Commands.MkAccount "admin" "secret");
  Commands.PublicCloudMetadata _ := inl {["aws" := fleet_cloud]};
  Commands.WritePersonalCloudMetadata _ := answer tt;
  Commands.os_RemoveAll _ := answer tt;
  Commands.os_MkdirTemp := answer "/tmp/juju-data-dir1";
  Commands.os_Remove _ := answer tt;
  Commands.os_CreateTemp dir := answer (dir +:+ "/juju-1");
  Commands.io_Copy _ _ _ := answer tt;
  Commands.os_Chmod _ := answer tt;
  Commands.os_Close _ := answer tt;
  Commands.http_Get _ := answer (Commands.MkResponse 200 (inl demo_archive));
  Commands.map_iter A m _ := map_to_list m;
  Commands.law_map_iter A m _ := Permutation_refl (map_to_list m);
  Commands.rand_IntN _ c := (c, 0%nat);
  Commands.law_rand_IntN _ _ Hn := Hn;
|}.

Definition demo_finished : Jobs.JobRow := Jobs.MkJob 7 "bootstrap-controller" Jobs.Completed JNull None 1 1 None (Some 5%Z) [].

Lemma demo_tick_law (c c' : Fleet) : (c, Some (New "deadline exceeded")) = (c', None) -> (0 < 0)%nat.
Proof. done. Qed.

#[export] Instance demo_queue : Bootstrap.Queue Fleet := {|
  Bootstrap.InsertBootstrap _ _ := answer (7%Z, false);
  Bootstrap.InsertDestroyController _ := answer (8%Z, false);
  Bootstrap.JobGet _ := answer demo_finished;
  Bootstrap.JobCancel _ := answer demo_finished;
  Bootstrap.next_tick c := (c, Some (New "deadline exceeded"));
  Bootstrap.ticks_left _ := 0%nat;
  Bootstrap.law_next_tick := demo_tick_law;
  Bootstrap.law_JobGet _ _ := le_n 0;
  Bootstrap.ParseProviderHostPorts l := inl ((fun a => (a, 17070%Z)) <$> l);
  Bootstrap.yaml_Marshal _ := "";
  Bootstrap.url_Parse _ := None;
|}.

(** ** The cache of clients *)

Definition demo_cli := CliStore.MkConfig "https://example.com" "/var/lib/juju" 1.
Definition demo_spec := CliStore.MkBinarySpec "3.6.30" "linux" "amd64".
Definition cli0 : CliStore.CliWorld (C:=Fleet) := CliStore.MkCliWorld demo_fleet_state ∅ [].
Definition cli1 := (CliStore.Get demo_cli demo_spec cli0).1.
Definition cli2 := (CliStore.Get demo_cli (CliStore.MkBinarySpec "3.6.24" "linux" "amd64") cli1).1.

(** A second client finds no room while the first one is in use. *)
Lemma in_use_kept_witness :
  is_err (CliStore.Get demo_cli (CliStore.MkBinarySpec "3.6.24" "linux" "amd64") cli1).2 = true /\
  exists url, CliStore.cw_entries cli2 !! url = Some 0%nat.
Proof.
  split; [vm_compute; reflexivity|].
  refine (proj2 (proj2 (CliStore.in_use_kept demo_cli demo_cli demo_fleet_state cli2 [0%nat] eq_refl _)) 0%nat _); [|left].
  eapply rtc_l; [exact (CliStore.step_get demo_cli demo_spec cli0 cli1 (Ok 0%nat) [] eq_refl (run_eq (CliStore.Get demo_cli demo_spec) cli0 (Ok 0%nat) eq_refl))|].
  eapply rtc_l; [|apply rtc_refl].
  exact (CliStore.step_get demo_cli (CliStore.MkBinarySpec "3.6.24" "linux" "amd64") cli1 cli2
    (Err (Errorf "no entries to delete, max entries limit reached: %d" [ArgD 1])) [0%nat] eq_refl (run_eq _ cli1 _ eq_refl)).
Defined.

(** ** Bootstraps *)

Definition demo_bootstraps : Bootstrap.BootstrapManager := Bootstrap.MkBootstrapManager demo_juju demo_cli "https://jimm.example.com/.well-known/jwks.json".
Definition demo_options : Commands.BootstrapOptions :=
  Commands.MkOptions "" {["mem" := "8G"]} ∅ ∅ None {["audit" := "true"]} ∅ ∅.
Definition demo_bootstrap : Bootstrap.BootstrapParams Fleet :=
  Bootstrap.MkBootstrapParams "3.6.30" "aws/eu" "staging" "key" fleet_cloud demo_options.
Definition boot0 : Bootstrap.BWorld Ref Tbl Fleet := Bootstrap.MkBWorld jdemo (MkTbl [] false) ∅ [] false.
Definition boot1 := (Bootstrap.StartBootstrapJob demo_bootstraps alice_session demo_bootstrap boot0).1.

Lemma StartBootstrapJob_effect_witness :
  (Bootstrap.StartBootstrapJob demo_bootstraps alice_session demo_bootstrap boot0).2 = Ok 7%Z /\
  Bootstrap.start_post "staging" boot0 (Ok 7%Z) boot1.
Proof.
  assert ((Bootstrap.StartBootstrapJob demo_bootstraps alice_session demo_bootstrap boot0).2 = Ok 7%Z) as Hok by (vm_compute; reflexivity).
  split; [exact Hok|].
  apply (Bootstrap.StartBootstrapJob_effect demo_bootstraps alice_session demo_bootstrap boot0 boot1 (Ok 7%Z)).
  - apply uniqueb_sound; vm_compute; reflexivity.
  - apply run_eq, Hok.
Defined.

(** The job that was started runs. *)
Definition demo_args : Bootstrap.BootstrapArgs Fleet := Bootstrap.bootstrapArgs demo_bootstraps alice_session demo_bootstrap.
Definition demo_runner := Bootstrap.MkRunnerArgs "/tmp/juju-data-dir1" 7.
Definition boot2 := (Bootstrap.BootstrapController demo_bootstraps demo_args demo_runner alice_session boot1).1.


(** Another job cannot add a controller of that name; what it made is
    destroyed. *)
Definition boot3 := (Bootstrap.addBootstrapped demo_bootstraps demo_args 9 (Commands.MkRunner "juju" "/tmp") alice_session boot2).1.

Lemma no_silent_orphans_witness : exists e,
  (Bootstrap.addBootstrapped demo_bootstraps demo_args 9 (Commands.MkRunner "juju" "/tmp") alice_session boot2).2 = Err e /\
  Bootstrap.cleaned_up (Commands.MkRunner "juju" "/tmp") 9 "staging" e boot3.
Proof.
  destruct (failed (Bootstrap.addBootstrapped demo_bootstraps demo_args 9 (Commands.MkRunner "juju" "/tmp") alice_session) boot2) as [e Hrun];
    [vm_compute; reflexivity|].
  exists e. split; [rewrite Hrun; reflexivity|].
  exact (Bootstrap.no_silent_orphans demo_bootstraps demo_args 9 (Commands.MkRunner "juju" "/tmp") alice_session boot2 boot3 e Hrun).
Defined.

Lemma WaitForJobCompletion_ends_witness :
  (Bootstrap.WaitForJobCompletion 7 boot0).2 = Ok tt /\ Bootstrap.calm boot0 (Bootstrap.WaitForJobCompletion 7 boot0).1.
Proof.
  assert ((Bootstrap.WaitForJobCompletion 7 boot0).2 = Ok tt) as Hok by (vm_compute; reflexivity). split; [exact Hok|].
  apply (Bootstrap.WaitForJobCompletion_ends 7 boot0 (Bootstrap.WaitForJobCompletion 7 boot0).1 (Ok tt)). apply run_eq, Hok.
Defined.

Definition demo_destroy_args := Bootstrap.MkDestroyControllerArgs "alice@canonical.com" "prod" (uuid_n 2) "3.6.30" "aws" "eu" [] "" "".
Definition boot4 := (Bootstrap.DestroyController demo_bootstraps demo_destroy_args demo_runner boot0).1.

Lemma DestroyController_effect_witness :
  (Bootstrap.DestroyController demo_bootstraps demo_destroy_args demo_runner boot0).2 = Ok tt /\
  Bootstrap.destroy_post "prod" boot0 (Ok tt) boot4.
Proof.
  assert ((Bootstrap.DestroyController demo_bootstraps demo_destroy_args demo_runner boot0).2 = Ok tt) as Hok by (vm_compute; reflexivity).
  split; [exact Hok|].
  exact (Bootstrap.DestroyController_effect demo_bootstraps demo_destroy_args demo_runner boot0 boot4 (Ok tt) jdemo_models
    (run_eq (Bootstrap.DestroyController demo_bootstraps demo_destroy_args demo_runner) boot0 (Ok tt) Hok)).
Defined.
