(* ===== verification/ApiWitnesses.v ===== *)
(** * ApiWitnesses: the properties of the administration API at concrete inputs.

    The deployment of [Witnesses] with a small error library; each lemma
    applies one property to a request evaluated on it. *)

From Stdlib Require Import Ascii.
From S2P Require Import Prelude Errors GoStrings Regexp Names AuthModel RefServer OpenFGA Dbmodel Users Database RefDb Encoding TagResolver Access Relations Managers AuthService Middleware Rebac Witnesses AuthWitnesses.

Import Rebac.

Definition status_error (status : string) (msg : string) : gerror := ErrForeign "" status msg.

#[export] Instance demo_rebac : RebacLib := {|
  NewNotFoundError := status_error "404";
  NewValidationError := status_error "400";
  NewInvalidRequestError := status_error "400";
  NewNotImplementedError := status_error "501";
  NewUnknownError := status_error "500";
  errNoIdentity := status_error "401" "no identity";
  RFC3339 := fun t => match t with Some _ => "2025-01-01T00:00:00Z" | None => "" end;
  AuthModelDSL := "model";
|}.

(** A request of an administrator. *)
Definition admin_context : Middleware.HContext :=
  Middleware.MkHContext (Auth.MkContext None None) None (Some admin_session).

(** bob leaves the group and eve joins it. *)
Definition members_patch : patch_request :=
  GroupIdentities (uuid_n 5) [MkPatch "remove" "bob@canonical.com"; MkPatch "add" "eve@canonical.com"].

Lemma patches_exact_witness :
  let r := run_patch demo_manager admin_context members_patch demo in
  r.2 = Ok true /\
  exists added removed,
    Perm.w_tuples r.1 = (Perm.w_tuples demo ∪ list_to_set added) ∖ list_to_set removed /\
    added = [edge (user_of "eve@canonical.com") MemberRelation (group_of (uuid_n 5))] /\
    removed = [edge (user_of "bob@canonical.com") MemberRelation (group_of (uuid_n 5))].
Proof.
  intros r. assert (r.2 = Ok true) as Hok by (vm_compute; reflexivity). split; [exact Hok|].
  destruct (patches_exact demo_manager admin_context admin_session members_patch demo r.1 (Ok true))
    as (_ & added & removed & HX & _ & _ & Hall).
  - reflexivity.
  - apply run_eq, Hok.
  - destruct (Hall "" I) as (_ & _ & Hfin).
    + split.
      * split_and!; [vm_compute; reflexivity|discriminate|vm_compute; reflexivity|]. right. left. split; vm_compute; reflexivity.
      * repeat constructor; try discriminate; vm_compute; reflexivity.
    + destruct (Hfin true eq_refl) as (_ & -> & ->). eexists _, _. split; [exact HX|]. split; reflexivity.
Defined.

Lemma DeleteGroup_effect_witness :
  let r := DeleteGroup 13 admin_context (uuid_n 5) demo in
  r.2 = Ok true /\
  exists g tag, g_UUID g = uuid_n 5 /\ Group_ResourceTag g = Ok tag /\
    rows (db_groups (w_db r.1)) = filter (fun x => g_ID x <> g_ID g) (rows (db_groups (w_db demo))) /\
    Perm.w_tuples r.1 = Perm.w_tuples demo ∖ removed_any (group_filters tag) (Perm.w_tuples demo).
Proof.
  intros r. assert (r.2 = Ok true) as Hok by (vm_compute; reflexivity). split; [exact Hok|].
  destruct (DeleteGroup_effect 13 admin_context admin_session (uuid_n 5) demo r.1 (Ok true)) as (_ & _ & Hdel).
  - reflexivity.
  - exact demo_db_ok.
  - apply demo_size. lia.
  - intros flt. apply matching_size. vm_compute. lia.
  - apply run_eq, Hok.
  - destruct (Hdel eq_refl) as (g & tag & _ & Hid & Htag & Hrows & HX). exists g, tag. split_and!; [exact Hid|exact Htag|exact Hrows|exact HX].
Defined.

Lemma entitlements_well_typed_witness :
  holds (list_to_set [edge (members (uuid_n 5)) "writer" (ConvertTag model_tag)]) (members (uuid_n 5)) "writer" (ConvertTag model_tag).
Proof.
  apply (proj1 entitlements_well_typed _ (MkSchema "writer" "group#member" "model") (uuid_n 5)).
  - apply (bool_decide_unpack _). vm_compute. exact I.
  - discriminate.
  - reflexivity.
  - reflexivity.
  - apply elem_of_list_to_set, elem_of_cons. by left.
Defined.
